(* ===== verification/_CoqProject ===== *)
-Q . S2P
Prelude.v
Crc32.v
Xor.v
GptTypes.v
GptLib.v
GptSanity.v
GptSample.v
Posix.v
Drive.v
DriveSpec.v
CgptCommon.v
CommitSpec.v
Utf.v
GuidStr.v
CommandSpec.v
CgptCreate.v
Attributes.v
CgptAdd.v
CgptAddSpec.v
CgptPrioritize.v
PrioritizeSpec.v
CgptShow.v
CgptBoot.v
CLib.v
CgptFind.v
QuerySpec.v
BootSpec.v
FindSpec.v
Util.v
BootTools.v
FwVersion.v
IfwiEmmc.v
Osip.v
GetoptSpec.v
CgptCmd.v
CgptCmdSpec.v
CgptTool.v
OemPartition.v
OemSpec.v
CommandSample.v
UtilSpec.v
OsipSpec.v
OsipQuery.v
OsipSample.v
BootToolsSpec.v
FwVersionSpec.v
IfwiEmmcSpec.v
Bootloader.v
BootloaderSpec.v
GptImage.v
ImageStore.v
GptImageSpec.v
Capsule.v
CapsuleSpec.v
FirmwareSample.v
ScuIpc.v
Flash.v
FlashSpec.v
Recovery.v
RecoverySpec.v
FlashSample.v
TypeSpec.v
Tee.v
Droidboot.v
DroidbootSpec.v
TokenSpec.v
Updater.v
UpdaterSpec.v
DroidbootSample.v
Flashtool.v
StateOp.v
Houdini.v
DrmHdmi.v
CtpDrm.v
CtpComposer.v
Composer.v
ComposerSpec.v
Binder.v
CtpSpec.v
Healthd.v
