(* ===== verification/Prelude.v ===== *)
(** * A device tree of Android for the Asus A500CG: its provisioning tools, its display service and
    two small programs, modelled and proved

    This library models the C and C++ code of the repository under src/ that does the work of
    the device: the tools that create and repair partition tables, that store boot images, firmware
    and boot loaders, the commands of the boot loader and of update scripts, the services that switch
    the displays, the board of the charger and the hooks for translated applications.  A definition
    follows the function whose name it has, branch by branch; PROJECT.json names the lines.

    ** The program, and where each part is modelled

    Foundations
    - Prelude (this file): bytes, machine integers, buffers, C arithmetic, lists, automation.
    - Posix: files, descriptors, [errno] and a schedule of failures and short transfers; the monad [M]
      of a process that returns, exits, or does what C leaves undefined; rules for every call.
    - CLib: streams, text, numbers and [getopt].  GuidStr: [printf], [scanf], GUIDs as text.
    - Util, UtilSpec: util.c.  Every tool of libintelprov builds on its transfers.
    - StateOp: operations on a state with triples and invariants, for the services.

    Partition tables (libintelprov/gpt: the library and command line called cgpt)
    - Crc32 (crc32.c); GptTypes (the headers); GptLib, GptSanity (cgptlib_internal.c: checking and
      repairing a table in memory); Utf (labels).
    - Drive, DriveSpec, CgptCommon, CommitSpec (cgpt_common.c): opening a drive, looking up and
      changing entries, and the statements that close every command.
    - CgptCreate (create, repair, legacy), Attributes, CgptAdd with CgptAddSpec, CgptPrioritize with
      PrioritizeSpec, CgptShow, CgptBoot with BootSpec, CgptFind with FindSpec, QuerySpec: the
      commands.  CommandSpec is the shape of their theorems: which bytes of a drive change.
    - CgptCmd, CgptCmdSpec, GetoptSpec (gpt/lib/cmd_add.c to cmd_show.c): the words of a command line.
      CgptTool (gpt/gfdisk/cgpt.c): scripts.  OemPartition, OemSpec (oem_partition.c): the same scripts
      and erasing in the boot loader.  GptSample, CommandSample: a drive in memory.

    Images and firmware (libintelprov)
    - Osip with OsipSpec, OsipQuery, OsipSample (update_osip.c, flash_osip/bootimage.c): images that a
      header in the first sector lists.  GptImage with GptImageSpec (flash_gpt/bootimage.c): images on
      partitions with a label.  ImageStore is the interface that both promise to the tools; Flash
      with FlashSpec (flash.c, flash_ops.c) chooses the one that the device has.
    - Recovery with RecoverySpec (update_recovery.c): proved against [ImageStore].
    - Xor, BootTools, BootToolsSpec (intel-boot-tools): boot images are packed and unpacked.
    - FwVersion, FwVersionSpec (fw_version_check.c); IfwiEmmc, IfwiEmmcSpec (flash_scu_emmc/ifwi.c);
      ScuIpc (flash_scu_ipc/ifwi.c, flash_edk2/esp.c, ulpmc.c); Bootloader, BootloaderSpec
      (bootloader.c); Capsule, CapsuleSpec (flash_fdk/capsule.c); FirmwareSample, FlashSample.
    - Tee, TokenSpec (tee_connector.c, teeprov.c, token.c, pmdb.c, pmdb-access-sep.c): tokens and the
      numbers that are burnt into the security engine.
    - Droidboot, DroidbootSpec (droidboot.c): commands of the boot loader.  Updater, UpdaterSpec
      (updater.c): commands of update scripts.  Flashtool (flashtool.c).  DroidbootSample.
    - TypeSpec: a type system of computations, and that flashing is well typed.

    Displays (libmultidisplay)
    - DrmHdmi (native/drm_hdmi.cpp), Composer with ComposerSpec (native/MultiDisplayComposer.cpp): the
      connector, and the state machine of modes, videos and listeners.
    - Binder (native/IMultiDisplayHdmiControl.cpp and the other interfaces, MultiDisplayService.cpp):
      clients reach the composer through proxies.
    - CtpDrm (ctp_legacy/native/drm_hdmi.cpp, drm_hdcp.cpp), CtpComposer with CtpSpec
      (ctp_legacy/native/MultiDisplayComposer.cpp, MultiDisplayService.cpp): the older service, with a
      thread for the panel, a timer and the protection of content.

    Others
    - Houdini (houdini/hooks): the file opened for /proc/cpuinfo, the hooks of the translator.
    - Healthd (healthd/healthd_board_intel.cpp): the battery, and two threads that share a helper.

    ** State

    A tool is a computation of [M] over one [world]; a service is an operation on its record
    ([composer]), and its life a step relation with the states it can reach ([reachable]); threads
    are steps that follow one another ([system] of CtpComposer and of Healthd, [process] of Houdini).
    A buffer of C is a list of bytes, a structure that is read at offsets a buffer with accessors,
    any other a record.  Integers have their width written out ([u8] to [u64], [s32], [s64]).

    ** What the theorems show

    - Tables: an accepted table has disjoint partitions inside the drive, repairing leaves two valid
      copies that agree, creating, adding, editing and reordering change what was asked for and keep
      the table valid; the checks equal their reference definitions; no descriptor is left open,
      under any schedule of failures.
    - Images and firmware: what was flashed is read back, other images stay, a recovery image is
      installed only with the digest expected, both boot partitions are updated or the command
      fails, the walk over packages and capsules is the walk over their components.
    - Round trips: labels, GUIDs, command lines, boot images, profiles, tokens, timeouts, events of
      inotify, and requests through binder.
    - Services: invariants of all states that can be reached, switching refines an abstract state
      machine, listeners are told every change, protection is verified, no client can break the
      composer with any parcel, the helper of the charger runs alone and every update ends.
    - Ends: loops of transfers, of options and of threads end, and stay inside their buffers.
    - Examples show what the code does where it does not do what it means to.

    ** Bounds and fuel

    A loop whose end depends on calls has fuel, and running out of it is undefined, never an answer.
    [rounds] is two more than the events of the schedule, since every other round of a transfer takes
    one; a read loop takes one more than the bytes of the file ([file_rounds], [uid_rounds],
    [device_rounds]); a walk over a package one more than its components; [getopt] one more than the
    characters; labels have 36 units, numbers at most 20 digits; the listeners have 64 identifiers,
    the search in an EDID 126 bytes, the protection four tries, events of inotify 65 (16 bytes each).
    Theorems that a result is there come with the theorems about the result.

    ** Hypotheses

    [quiet] is a schedule without faults; [steady] one without EINTR, which the loops of util.c do not
    survive (shown by examples); theorems without either hold for every schedule.  The device has 32-bit
    integers and pointers; the boot tools run on a host with 64.  [getopt] does not permute, as in
    bionic.

    ** Parameters: code that is not under src/

    The format of boot images (bootimg.h), digests and patches (SHA, applypatch), archives (minizip),
    arguments of scripts (edify), volumes and mounting of the recovery, registration and rebooting of
    the boot loader (aboot), the library of the security engine, [ioctl] of drivers, properties,
    what programs that are started do, the library and numbers of the display driver (libdrm), the
    answers of the callback, of SurfaceFlinger and of VPPSetting, parcels and binder (a class with
    laws and an instance), the loader and the translator, names in directories of the kernel.

    ** Not modelled

    Messages and logs, with the text that error functions raise; the variants of updater.c and of
    ifwi.c that are compiled for Clovertrail alone (CLVT); memory that is not released; the
    clients of the display service in Java, JNI and C++, which look it up and hand calls on, and the
    proxies of the older service, which repeat the newer ones; the user interface of the recovery;
    headers of the kernel and of codecs, which hold no code of the program; Python and shell of the
    build; configuration.  The thread of the panel and the timer take turns with the operations of
    the composer, although the code changes the mode under two mutexes. *)

From stdpp Require Import base list numbers gmap strings.
From Stdlib Require Import ZArith Lia.

#[global] Open Scope Z_scope.

Ltac Zify.zify_post_hook ::= Z.div_mod_to_equations.

(** ** Bytes and buffers

    A C buffer is a list of bytes; a byte is an integer in [0, 255].  The empty
    list stands for the NULL pointer (no allocation of the program is empty). *)

Abbreviation bytes := (list Z).

Definition is_byte (b : Z) : Prop := 0 <= b < 256.

Definition bytes_ok (l : bytes) : Prop := Forall is_byte l.

Definition is_null (l : bytes) : bool := match l with [] => true | _ => false end.

(** ** Machine integers *)

Definition u8 (x : Z) : Z := x mod 2 ^ 8.
Definition u16 (x : Z) : Z := x mod 2 ^ 16.
Definition u32 (x : Z) : Z := x mod 2 ^ 32.
Definition u64 (x : Z) : Z := x mod 2 ^ 64.

Definition to_signed (w x : Z) : Z :=
  let y := x mod 2 ^ w in if y <? 2 ^ (w - 1) then y else y - 2 ^ w.

Definition s32 (x : Z) : Z := to_signed 32 x.
Definition s64 (x : Z) : Z := to_signed 64 x.

Lemma u64_small x : 0 <= x < 2 ^ 64 -> u64 x = x.
Proof. apply Z.mod_small. Qed.

Lemma u32_small x : 0 <= x < 2 ^ 32 -> u32 x = x.
Proof. apply Z.mod_small. Qed.

Lemma s32_small x : 0 <= x < 2 ^ 31 -> s32 x = x.
Proof.
  intros H. unfold s32, to_signed. rewrite Z.mod_small by lia.
  by rewrite (proj2 (Z.ltb_lt x (2 ^ (32 - 1)))) by lia.
Qed.

(** C truth values. *)
Definition truthy (x : Z) : bool := negb (x =? 0).
Definition bool_to_Z (b : bool) : Z := if b then 1 else 0.

(** ** Slices *)

Definition slice (off n : nat) (l : bytes) : bytes := take n (drop off l).

(** [memcpy (l + off) new (length new)] *)
Definition splice (off : nat) (new l : bytes) : bytes :=
  take off l ++ new ++ drop (off + length new) l.

(** [memcmp a b n == 0] *)
Definition memeq (n : nat) (a b : bytes) : bool := bool_decide (take n a = take n b).

(** [memset buf 0 n] *)
Definition memzero (n : nat) (l : bytes) : bytes := replicate n 0 ++ drop n l.

(** ** Little-endian integers of [n] bytes *)

Fixpoint le_dec (l : bytes) : Z :=
  match l with
  | [] => 0
  | b :: l => b + 256 * le_dec l
  end.

Fixpoint le_enc (n : nat) (x : Z) : bytes :=
  match n with
  | O => []
  | S n => x mod 256 :: le_enc n (x / 256)
  end.

Definition getn (n off : nat) (l : bytes) : Z := le_dec (slice off n l).
Definition putn (n off : nat) (v : Z) (l : bytes) : bytes := splice off (le_enc n v) l.

#[global] Arguments slice : simpl never.
#[global] Arguments splice : simpl never.
#[global] Arguments getn : simpl never.
#[global] Arguments putn : simpl never.
#[global] Arguments memeq : simpl never.
#[global] Arguments memzero : simpl never.
#[global] Arguments u8 : simpl never.
#[global] Arguments u16 : simpl never.
#[global] Arguments u32 : simpl never.
#[global] Arguments u64 : simpl never.
#[global] Arguments s32 : simpl never.
#[global] Arguments s64 : simpl never.

(** ** Length automation *)

Create Rewrite HintDb len.

Lemma length_le_enc n x : length (le_enc n x) = n.
Proof. revert x; induction n; intros; simpl; auto. Qed.

Lemma length_slice off n l : length (slice off n l) = Nat.min n (length l - off).
Proof. unfold slice. by rewrite length_take, length_drop. Qed.

#[export] Hint Rewrite @length_app @length_take @length_drop @length_replicate
  @length_cons @length_insert @length_fmap length_le_enc length_slice : len.

Ltac len := autorewrite with len in *; try lia.

Lemma length_splice off new l :
  (off + length new <= length l)%nat -> length (splice off new l) = length l.
Proof. intros. unfold splice. len. Qed.

Lemma length_putn n off v l :
  (off + n <= length l)%nat -> length (putn n off v l) = length l.
Proof. intros. unfold putn. rewrite length_splice; len. Qed.

Lemma length_putn_eq n off v l k :
  length l = k -> (off + n <= k)%nat -> length (putn n off v l) = k.
Proof. intros <-. apply length_putn. Qed.

Lemma length_splice_eq off new l k :
  length l = k -> (off + length new <= k)%nat -> length (splice off new l) = k.
Proof. intros <-. apply length_splice. Qed.

Lemma length_memzero n l : (n <= length l)%nat -> length (memzero n l) = length l.
Proof. intros. unfold memzero. len. Qed.

(** ** Slices of a splice *)

Lemma slice_splice_eq off new l :
  (off + length new <= length l)%nat ->
  slice off (length new) (splice off new l) = new.
Proof.
  intros H. unfold slice, splice.
  rewrite drop_app_length' by len.
  by rewrite take_app_length.
Qed.

Lemma slice_splice_ne o n off new l :
  (o + n <= off \/ off + length new <= o)%nat ->
  (off + length new <= length l)%nat ->
  slice o n (splice off new l) = slice o n l.
Proof.
  intros Hd Hl. unfold slice, splice.
  apply list_eq; intros i.
  destruct (decide (i < n)%nat) as [Hi|Hi].
  2:{ rewrite !lookup_take_ge by lia. done. }
  rewrite !lookup_take_lt, !lookup_drop by lia.
  destruct Hd.
  - rewrite lookup_app_l by len. by rewrite lookup_take_lt by lia.
  - rewrite lookup_app_r by len. rewrite lookup_app_r by len.
    rewrite lookup_drop. f_equal. len.
Qed.

(** ** Little-endian round trips *)

Lemma le_enc_ok n x : bytes_ok (le_enc n x).
Proof.
  unfold bytes_ok. revert x; induction n; intros x; simpl; constructor; auto.
  unfold is_byte. lia.
Qed.

Lemma le_dec_enc n x : le_dec (le_enc n x) = x mod 2 ^ (8 * Z.of_nat n).
Proof.
  revert x; induction n as [|n IH]; intros x; simpl.
  - by rewrite Z.mod_1_r.
  - rewrite IH. replace (8 * Z.of_nat (S n)) with (8 + 8 * Z.of_nat n) by lia.
    rewrite Z.pow_add_r by lia. change (2 ^ 8) with 256.
    rewrite Z.rem_mul_r; [done|lia|]. apply Z.pow_pos_nonneg; lia.
Qed.

Lemma le_dec_bound l : bytes_ok l -> 0 <= le_dec l < 2 ^ (8 * Z.of_nat (length l)).
Proof.
  unfold bytes_ok, is_byte. induction 1 as [|b l Hb _ IH]; simpl; [lia|].
  replace (8 * Z.of_nat (S (length l))) with (8 + 8 * Z.of_nat (length l)) by lia.
  rewrite Z.pow_add_r by lia. change (2 ^ 8) with 256. lia.
Qed.

Lemma le_enc_dec l : bytes_ok l -> le_enc (length l) (le_dec l) = l.
Proof.
  unfold bytes_ok, is_byte. induction 1 as [|b l Hb _ IH]; simpl; [done|].
  f_equal; [lia|]. trans (le_enc (length l) (le_dec l)); [|done]. f_equal. lia.
Qed.

Lemma le_dec_inj a b :
  bytes_ok a -> bytes_ok b -> length a = length b -> le_dec a = le_dec b -> a = b.
Proof.
  intros Ha Hb Hl He. rewrite <-(le_enc_dec a), <-(le_enc_dec b) by done. by rewrite Hl, He.
Qed.

Lemma getn_putn_eq n off v l :
  (off + n <= length l)%nat -> getn n off (putn n off v l) = v mod 2 ^ (8 * Z.of_nat n).
Proof.
  intros H. unfold getn, putn.
  pose proof (slice_splice_eq off (le_enc n v) l) as E. rewrite length_le_enc in E.
  rewrite E by lia. apply le_dec_enc.
Qed.

Lemma slice_putn_ne o m n off v l :
  (o + m <= off \/ off + n <= o)%nat -> (off + n <= length l)%nat ->
  slice o m (putn n off v l) = slice o m l.
Proof. intros. unfold putn. apply slice_splice_ne; len. Qed.

Lemma getn_putn_ne m o n off v l :
  (o + m <= off \/ off + n <= o)%nat -> (off + n <= length l)%nat ->
  getn m o (putn n off v l) = getn m o l.
Proof. intros. unfold getn. by rewrite slice_putn_ne. Qed.

Lemma getn_splice_ne m o off new l :
  (o + m <= off \/ off + length new <= o)%nat -> (off + length new <= length l)%nat ->
  getn m o (splice off new l) = getn m o l.
Proof. intros. unfold getn. by rewrite slice_splice_ne. Qed.

(** ** Byte validity *)

Lemma bytes_ok_app a b : bytes_ok (a ++ b) <-> bytes_ok a /\ bytes_ok b.
Proof. apply Forall_app. Qed.

Lemma bytes_ok_cons b l : bytes_ok (b :: l) <-> is_byte b /\ bytes_ok l.
Proof. unfold bytes_ok. split; [by inversion 1|intros []; by constructor]. Qed.

Lemma bytes_ok_take n l : bytes_ok l -> bytes_ok (take n l).
Proof. apply Forall_take. Qed.

Lemma bytes_ok_drop n l : bytes_ok l -> bytes_ok (drop n l).
Proof. apply Forall_drop. Qed.

Lemma bytes_ok_slice o n l : bytes_ok l -> bytes_ok (slice o n l).
Proof. intros. by apply bytes_ok_take, bytes_ok_drop. Qed.

Lemma bytes_ok_splice o new l : bytes_ok new -> bytes_ok l -> bytes_ok (splice o new l).
Proof.
  intros. unfold splice. rewrite !bytes_ok_app.
  eauto using bytes_ok_take, bytes_ok_drop.
Qed.

Lemma bytes_ok_putn n o v l : bytes_ok l -> bytes_ok (putn n o v l).
Proof. intros. apply bytes_ok_splice; auto using le_enc_ok. Qed.

Lemma bytes_ok_zeros n : bytes_ok (replicate n 0).
Proof. apply Forall_replicate. unfold is_byte. lia. Qed.

Lemma bytes_ok_memzero n l : bytes_ok l -> bytes_ok (memzero n l).
Proof. intros. apply bytes_ok_app; auto using bytes_ok_zeros, bytes_ok_drop. Qed.

Create HintDb bytes.
#[export] Hint Resolve le_enc_ok bytes_ok_take bytes_ok_drop bytes_ok_slice bytes_ok_splice
  bytes_ok_putn bytes_ok_zeros bytes_ok_memzero : bytes.

Lemma getn_bound n off l :
  bytes_ok l -> 0 <= getn n off l < 2 ^ (8 * Z.of_nat n).
Proof.
  intros H. unfold getn.
  pose proof (le_dec_bound (slice off n l) (bytes_ok_slice _ _ _ H)) as [H1 H2].
  split; [done|]. eapply Z.lt_le_trans; [done|].
  apply Z.pow_le_mono_r; [lia|]. rewrite length_slice. lia.
Qed.

Lemma getn_putn_small n off v l :
  (off + n <= length l)%nat -> 0 <= v < 2 ^ (8 * Z.of_nat n) ->
  getn n off (putn n off v l) = v.
Proof. intros. rewrite getn_putn_eq by done. by apply Z.mod_small. Qed.

(** A decision procedure for concrete buffers. *)
Definition bytes_okb (l : bytes) : bool := forallb (fun b => (0 <=? b) && (b <? 256)) l.

Lemma bytes_okb_ok l : bytes_okb l = true -> bytes_ok l.
Proof.
  unfold bytes_okb, bytes_ok, is_byte. rewrite forallb_forall, Forall_forall.
  intros H b Hb. apply list_elem_of_In, H in Hb. lia.
Qed.

(** Writing back what a field holds changes nothing. *)
Lemma putn_getn_id n off l :
  bytes_ok l -> (off + n <= length l)%nat -> putn n off (getn n off l) l = l.
Proof.
  intros Hok H. unfold putn, getn.
  replace n with (length (slice off n l)) at 1 by (rewrite length_slice; lia).
  rewrite le_enc_dec by eauto with bytes.
  unfold splice, slice. rewrite length_take, length_drop.
  replace (n `min` (length l - off))%nat with n by lia.
  rewrite <-drop_drop. by rewrite !take_drop.
Qed.

Lemma memeq_spec n a b : memeq n a b = true <-> take n a = take n b.
Proof. unfold memeq. apply bool_decide_eq_true. Qed.

Lemma memeq_refl n a : memeq n a a = true.
Proof. by apply memeq_spec. Qed.

Lemma slice_splice_in o n off new l :
  (off <= o)%nat -> (o + n <= off + length new)%nat -> (off <= length l)%nat ->
  slice o n (splice off new l) = slice (o - off) n new.
Proof.
  intros. unfold slice, splice. rewrite drop_app_ge by len.
  rewrite length_take, Nat.min_l by done.
  rewrite drop_app_le by lia. by rewrite take_app_le by len.
Qed.

Lemma slice_take o n k l : (o + n <= k)%nat -> slice o n (take k l) = slice o n l.
Proof.
  intros. unfold slice. rewrite !take_drop_commute, take_take. by rewrite Nat.min_l by lia.
Qed.

Lemma getn_splice_in m o off new l :
  (off <= o)%nat -> (o + m <= off + length new)%nat -> (off <= length l)%nat ->
  getn m o (splice off new l) = getn m (o - off) new.
Proof. intros. unfold getn. by rewrite slice_splice_in. Qed.

Lemma getn_take m o k l : (o + m <= k)%nat -> getn m o (take k l) = getn m o l.
Proof. intros. unfold getn. by rewrite slice_take. Qed.

Lemma splice_splice_same off a b l :
  length a = length b -> (off <= length l)%nat -> splice off a (splice off b l) = splice off a l.
Proof.
  intros Hab Hl. unfold splice. f_equal; [|f_equal].
  - rewrite take_app_le by len. by rewrite take_take, Nat.min_id.
  - rewrite !drop_app_ge by len. rewrite drop_drop. f_equal. len.
Qed.

Lemma putn_putn_same n off v w l :
  (off <= length l)%nat -> putn n off v (putn n off w l) = putn n off v l.
Proof. intros. unfold putn. apply splice_splice_same; len. Qed.

(** ** Loops that return at the first non-zero code *)

Fixpoint first_error {A} (f : A -> Z) (l : list A) : Z :=
  match l with
  | [] => 0
  | x :: l => if f x =? 0 then first_error f l else f x
  end.

Lemma first_error_0 {A} (f : A -> Z) l :
  first_error f l = 0 <-> forall x, x ∈ l -> f x = 0.
Proof.
  induction l as [|x l IH]; simpl.
  - split; [|done]. intros _ x Hx. by apply elem_of_nil in Hx.
  - destruct (Z.eqb_spec (f x) 0) as [E|E].
    + rewrite IH. split; intros H y; rewrite ?elem_of_cons; [|intros; apply H; by right].
      intros [->|]; auto.
    + split; [done|]. intros H. exfalso. apply E, H. by left.
Qed.

(** The code returned is that of the first element that fails. *)
Lemma first_error_split {A} (f : A -> Z) pre x post :
  (forall y, y ∈ pre -> f y = 0) -> f x <> 0 -> first_error f (pre ++ x :: post) = f x.
Proof.
  intros Hp Hx. induction pre as [|y pre IH]; simpl.
  - by destruct (Z.eqb_spec (f x) 0).
  - rewrite (Hp y) by set_solver. apply IH. intros; apply Hp; set_solver.
Qed.

Lemma elem_of_seq_0 i n : i ∈ seq 0 n <-> (i < n)%nat.
Proof. rewrite elem_of_seq. lia. Qed.

(** A guard [if (b) return code;] in a function whose success value is 0. *)
Lemma guard_0 (b : bool) (c x : Z) :
  c <> 0 -> (if b then c else x) = 0 <-> b = false /\ x = 0.
Proof. intros. destruct b; intuition congruence. Qed.

Lemma is_null_false l : is_null l = false <-> l <> [].
Proof. destruct l; simpl; split; congruence. Qed.

(** Boolean tests of the code as propositions. *)
Create Rewrite HintDb bool_prop.
#[export] Hint Rewrite orb_false_iff andb_false_iff negb_false_iff negb_true_iff andb_true_iff
  orb_true_iff Z.eqb_eq Z.eqb_neq Z.ltb_lt Z.ltb_ge Z.leb_le Z.leb_gt Nat.eqb_eq Nat.eqb_neq
  memeq_spec bool_decide_eq_true bool_decide_eq_false is_null_false : bool_prop.

Ltac bprop := autorewrite with bool_prop in *.

Lemma truthy_false x : truthy x = false <-> x = 0.
Proof. unfold truthy. by bprop. Qed.

Lemma truthy_true x : truthy x = true <-> x <> 0.
Proof. unfold truthy. by bprop. Qed.
#[export] Hint Rewrite truthy_false truthy_true : bool_prop.

Lemma splice_all new l : length new = length l -> splice 0 new l = new.
Proof.
  intros H. unfold splice. rewrite drop_ge by lia. by rewrite take_0, app_nil_r.
Qed.

(** ** Bitwise operations within a width *)

Lemma lor_bound n a b :
  0 <= n -> 0 <= a < 2 ^ n -> 0 <= b < 2 ^ n -> 0 <= Z.lor a b < 2 ^ n.
Proof.
  intros Hn Ha Hb. rewrite <-(Z.mod_small a (2 ^ n)), <-(Z.mod_small b (2 ^ n)) by done.
  rewrite <-!Z.land_ones, <-Z.land_lor_distr_l, Z.land_ones by done.
  apply Z.mod_pos_bound. lia.
Qed.
