(* ===== verification/Crc32.v ===== *)
(** * CRC-32 (gpt/lib/crc32.c)

    The table-driven CRC over byte buffers, the bit-serial register it
    optimises, their equivalence, and what the checksum detects. *)

From stdpp Require Import base list numbers.
From Stdlib Require Import ZArith Lia.
From S2P Require Import Prelude.

(** ** The code *)

Definition crc32_tab : bytes := [
  0x00000000; 0x77073096; 0xee0e612c; 0x990951ba; 0x076dc419; 0x706af48f;
  0xe963a535; 0x9e6495a3; 0x0edb8832; 0x79dcb8a4; 0xe0d5e91e; 0x97d2d988;
  0x09b64c2b; 0x7eb17cbd; 0xe7b82d07; 0x90bf1d91; 0x1db71064; 0x6ab020f2;
  0xf3b97148; 0x84be41de; 0x1adad47d; 0x6ddde4eb; 0xf4d4b551; 0x83d385c7;
  0x136c9856; 0x646ba8c0; 0xfd62f97a; 0x8a65c9ec; 0x14015c4f; 0x63066cd9;
  0xfa0f3d63; 0x8d080df5; 0x3b6e20c8; 0x4c69105e; 0xd56041e4; 0xa2677172;
  0x3c03e4d1; 0x4b04d447; 0xd20d85fd; 0xa50ab56b; 0x35b5a8fa; 0x42b2986c;
  0xdbbbc9d6; 0xacbcf940; 0x32d86ce3; 0x45df5c75; 0xdcd60dcf; 0xabd13d59;
  0x26d930ac; 0x51de003a; 0xc8d75180; 0xbfd06116; 0x21b4f4b5; 0x56b3c423;
  0xcfba9599; 0xb8bda50f; 0x2802b89e; 0x5f058808; 0xc60cd9b2; 0xb10be924;
  0x2f6f7c87; 0x58684c11; 0xc1611dab; 0xb6662d3d; 0x76dc4190; 0x01db7106;
  0x98d220bc; 0xefd5102a; 0x71b18589; 0x06b6b51f; 0x9fbfe4a5; 0xe8b8d433;
  0x7807c9a2; 0x0f00f934; 0x9609a88e; 0xe10e9818; 0x7f6a0dbb; 0x086d3d2d;
  0x91646c97; 0xe6635c01; 0x6b6b51f4; 0x1c6c6162; 0x856530d8; 0xf262004e;
  0x6c0695ed; 0x1b01a57b; 0x8208f4c1; 0xf50fc457; 0x65b0d9c6; 0x12b7e950;
  0x8bbeb8ea; 0xfcb9887c; 0x62dd1ddf; 0x15da2d49; 0x8cd37cf3; 0xfbd44c65;
  0x4db26158; 0x3ab551ce; 0xa3bc0074; 0xd4bb30e2; 0x4adfa541; 0x3dd895d7;
  0xa4d1c46d; 0xd3d6f4fb; 0x4369e96a; 0x346ed9fc; 0xad678846; 0xda60b8d0;
  0x44042d73; 0x33031de5; 0xaa0a4c5f; 0xdd0d7cc9; 0x5005713c; 0x270241aa;
  0xbe0b1010; 0xc90c2086; 0x5768b525; 0x206f85b3; 0xb966d409; 0xce61e49f;
  0x5edef90e; 0x29d9c998; 0xb0d09822; 0xc7d7a8b4; 0x59b33d17; 0x2eb40d81;
  0xb7bd5c3b; 0xc0ba6cad; 0xedb88320; 0x9abfb3b6; 0x03b6e20c; 0x74b1d29a;
  0xead54739; 0x9dd277af; 0x04db2615; 0x73dc1683; 0xe3630b12; 0x94643b84;
  0x0d6d6a3e; 0x7a6a5aa8; 0xe40ecf0b; 0x9309ff9d; 0x0a00ae27; 0x7d079eb1;
  0xf00f9344; 0x8708a3d2; 0x1e01f268; 0x6906c2fe; 0xf762575d; 0x806567cb;
  0x196c3671; 0x6e6b06e7; 0xfed41b76; 0x89d32be0; 0x10da7a5a; 0x67dd4acc;
  0xf9b9df6f; 0x8ebeeff9; 0x17b7be43; 0x60b08ed5; 0xd6d6a3e8; 0xa1d1937e;
  0x38d8c2c4; 0x4fdff252; 0xd1bb67f1; 0xa6bc5767; 0x3fb506dd; 0x48b2364b;
  0xd80d2bda; 0xaf0a1b4c; 0x36034af6; 0x41047a60; 0xdf60efc3; 0xa867df55;
  0x316e8eef; 0x4669be79; 0xcb61b38c; 0xbc66831a; 0x256fd2a0; 0x5268e236;
  0xcc0c7795; 0xbb0b4703; 0x220216b9; 0x5505262f; 0xc5ba3bbe; 0xb2bd0b28;
  0x2bb45a92; 0x5cb36a04; 0xc2d7ffa7; 0xb5d0cf31; 0x2cd99e8b; 0x5bdeae1d;
  0x9b64c2b0; 0xec63f226; 0x756aa39c; 0x026d930a; 0x9c0906a9; 0xeb0e363f;
  0x72076785; 0x05005713; 0x95bf4a82; 0xe2b87a14; 0x7bb12bae; 0x0cb61b38;
  0x92d28e9b; 0xe5d5be0d; 0x7cdcefb7; 0x0bdbdf21; 0x86d3d2d4; 0xf1d4e242;
  0x68ddb3f8; 0x1fda836e; 0x81be16cd; 0xf6b9265b; 0x6fb077e1; 0x18b74777;
  0x88085ae6; 0xff0f6a70; 0x66063bca; 0x11010b5c; 0x8f659eff; 0xf862ae69;
  0x616bffd3; 0x166ccf45; 0xa00ae278; 0xd70dd2ee; 0x4e048354; 0x3903b3c2;
  0xa7672661; 0xd06016f7; 0x4969474d; 0x3e6e77db; 0xaed16a4a; 0xd9d65adc;
  0x40df0b66; 0x37d83bf0; 0xa9bcae53; 0xdebb9ec5; 0x47b2cf7f; 0x30b5ffe9;
  0xbdbdf21c; 0xcabac28a; 0x53b39330; 0x24b4a3a6; 0xbad03605; 0xcdd70693;
  0x54de5729; 0x23d967bf; 0xb3667a2e; 0xc4614ab8; 0x5d681b02; 0x2a6f2b94;
  0xb40bbe37; 0xc30c8ea1; 0x5a05df1b; 0x2d02ef8d
].

(** One iteration of the loop of [Crc32]. *)
Definition crc32_step (value byte : Z) : Z :=
  Z.lxor (nth (Z.to_nat (Z.land (Z.lxor value byte) 0xff)) crc32_tab 0)
         (Z.shiftr value 8).

(** [Crc32(buffer, len)]; [~0U] is [0xffffffff]. *)
Definition Crc32 (buffer : bytes) (len : Z) : Z :=
  Z.lxor (fold_left crc32_step (take (Z.to_nat len) buffer) 0xffffffff) 0xffffffff.

#[global] Arguments Crc32 : simpl never.

(** ** The reference: a shift register for the polynomial 0xedb88320 *)

Definition crc_bit (v : Z) : Z :=
  if Z.testbit v 0 then Z.lxor (Z.shiftr v 1) 0xedb88320 else Z.shiftr v 1.

Fixpoint crc_bits (n : nat) (v : Z) : Z :=
  match n with
  | O => v
  | S n => crc_bits n (crc_bit v)
  end.

Definition crc_byte (v b : Z) : Z := crc_bits 8 (Z.lxor v b).

(** CRC-32 as the register clocked once per message bit. *)
Definition crc32_ref (l : bytes) : Z :=
  Z.lxor (fold_left crc_byte l 0xffffffff) 0xffffffff.

Definition is_u32 (v : Z) : Prop := 0 <= v < 2 ^ 32.

(** ** Linearity of the register *)

(** Equations between exclusive-ors, decided bit by bit. *)
Ltac lxor_bits :=
  apply Z.bits_inj'; intros ? _; rewrite ?Z.lxor_spec;
  repeat match goal with |- context [Z.testbit ?x ?n] => destruct (Z.testbit x n) end;
  reflexivity.

Lemma crc_bit_lxor a b : crc_bit (Z.lxor a b) = Z.lxor (crc_bit a) (crc_bit b).
Proof.
  unfold crc_bit. rewrite Z.lxor_spec, Z.shiftr_lxor.
  destruct (Z.testbit a 0), (Z.testbit b 0); simpl xorb; cbv iota; lxor_bits.
Qed.

Lemma crc_bits_lxor n a b : crc_bits n (Z.lxor a b) = Z.lxor (crc_bits n a) (crc_bits n b).
Proof. revert a b; induction n; intros; simpl; [done|]. by rewrite crc_bit_lxor. Qed.

Lemma crc_bits_add n m v : crc_bits (n + m) v = crc_bits m (crc_bits n v).
Proof. revert v; induction n; intros; simpl; auto. Qed.

(** Zero low bits only shift. *)
Lemma crc_bits_shiftl n v : crc_bits n (Z.shiftl v (Z.of_nat n)) = v.
Proof.
  revert v; induction n as [|n IH]; intros v; simpl crc_bits.
  - by rewrite Z.shiftl_0_r.
  - unfold crc_bit. rewrite Z.shiftl_spec_low by lia.
    rewrite Z.shiftr_shiftl_l by lia.
    replace (Z.of_nat (S n) - 1) with (Z.of_nat n) by lia. apply IH.
Qed.

(** ** The table holds the register's response to each byte *)

Lemma crc32_tab_correct i :
  (i < 256)%nat -> nth i crc32_tab 0 = crc_bits 8 (Z.of_nat i).
Proof.
  intros Hi.
  assert (forallb (fun i => nth i crc32_tab 0 =? crc_bits 8 (Z.of_nat i)) (seq 0 256) = true)
    as H by (vm_compute; reflexivity).
  rewrite forallb_forall in H. apply Z.eqb_eq, H. apply in_seq. lia.
Qed.

Lemma split_low_byte x : Z.lxor (Z.land x 255) (Z.shiftl (Z.shiftr x 8) 8) = x.
Proof.
  apply Z.bits_inj'. intros n Hn. change 255 with (Z.ones 8).
  rewrite Z.lxor_spec, Z.land_spec.
  destruct (Z.ltb_spec n 8).
  - rewrite Z.ones_spec_low, Z.shiftl_spec_low by lia. by destruct (Z.testbit x n).
  - rewrite Z.ones_spec_high, Z.shiftl_spec, Z.shiftr_spec by lia.
    rewrite andb_false_r. simpl. f_equal. lia.
Qed.

Lemma shiftr_byte b : is_byte b -> Z.shiftr b 8 = 0.
Proof. unfold is_byte. intros. rewrite Z.shiftr_div_pow2 by lia. change (2^8) with 256. lia. Qed.

Lemma crc32_step_ref v b : is_byte b -> crc32_step v b = crc_byte v b.
Proof.
  intros Hb. unfold crc32_step, crc_byte.
  set (x := Z.lxor v b).
  assert (0 <= Z.land x 255 < 256) as Hx.
  { change 255 with (Z.ones 8). rewrite Z.land_ones by lia. change (2^8) with 256. lia. }
  rewrite crc32_tab_correct by lia. rewrite Z2Nat.id by lia.
  rewrite <-(split_low_byte x) at 2. rewrite crc_bits_lxor.
  pose proof (crc_bits_shiftl 8 (Z.shiftr x 8)) as E. change (Z.of_nat 8) with 8 in E. rewrite E.
  f_equal. unfold x. by rewrite Z.shiftr_lxor, (shiftr_byte b), Z.lxor_0_r.
Qed.

Lemma fold_crc32_step_ref l v :
  bytes_ok l -> fold_left crc32_step l v = fold_left crc_byte l v.
Proof.
  intros H. revert v. induction H as [|b l Hb _ IH]; intros v; simpl; [done|].
  by rewrite crc32_step_ref, IH.
Qed.

(** ** The register stays 32 bits wide and is reversible *)

Lemma u32_lxor a b : is_u32 a -> is_u32 b -> is_u32 (Z.lxor a b).
Proof.
  unfold is_u32. intros Ha Hb.
  assert (Z.lxor a b = Z.lxor a b mod 2 ^ 32) as ->; [|lia].
  apply Z.bits_inj'. intros n Hn. destruct (Z.ltb_spec n 32).
  - by rewrite Z.mod_pow2_bits_low by lia.
  - rewrite Z.mod_pow2_bits_high by lia. rewrite Z.lxor_spec.
    rewrite <-(Z.mod_small a (2 ^ 32)), <-(Z.mod_small b (2 ^ 32)) by lia.
    by rewrite !Z.mod_pow2_bits_high by lia.
Qed.

Lemma u32_byte b : is_byte b -> is_u32 b.
Proof. unfold is_byte, is_u32. change (2 ^ 32) with 4294967296. lia. Qed.

Lemma shiftr1_bound v : is_u32 v -> 0 <= Z.shiftr v 1 < 2 ^ 31.
Proof.
  unfold is_u32. intros. rewrite Z.shiftr_div_pow2 by lia. change (2 ^ 1) with 2.
  change (2 ^ 32) with 4294967296 in *. change (2 ^ 31) with 2147483648. lia.
Qed.

Lemma crc_bit_u32 v : is_u32 v -> is_u32 (crc_bit v).
Proof.
  intros H. pose proof (shiftr1_bound v H).
  assert (is_u32 (Z.shiftr v 1)) by (unfold is_u32; lia).
  unfold crc_bit. destruct (Z.testbit v 0); [|done].
  apply u32_lxor; [done|]. unfold is_u32. lia.
Qed.

Lemma crc_bits_u32 n v : is_u32 v -> is_u32 (crc_bits n v).
Proof. revert v; induction n; intros; simpl; auto using crc_bit_u32. Qed.

Lemma crc_bit_top v : is_u32 v -> Z.testbit (crc_bit v) 31 = Z.testbit v 0.
Proof.
  intros H. pose proof (shiftr1_bound v H) as Hs.
  assert (Z.testbit (Z.shiftr v 1) 31 = false) as E.
  { rewrite <-(Z.mod_small _ _ Hs). by apply Z.mod_pow2_bits_high. }
  unfold crc_bit. destruct (Z.testbit v 0) eqn:E0; [|done].
  rewrite Z.lxor_spec, E. done.
Qed.

Lemma crc_bit_inj a b : is_u32 a -> is_u32 b -> crc_bit a = crc_bit b -> a = b.
Proof.
  intros Ha Hb E.
  assert (Z.testbit a 0 = Z.testbit b 0) as E0.
  { by rewrite <-(crc_bit_top a), <-(crc_bit_top b), E. }
  unfold crc_bit in E. rewrite E0 in E.
  assert (Z.shiftr a 1 = Z.shiftr b 1) as Es.
  { destruct (Z.testbit b 0); [|done].
    rewrite <-(Z.lxor_0_r (Z.shiftr a 1)), <-(Z.lxor_0_r (Z.shiftr b 1)).
    rewrite <-(Z.lxor_nilpotent 0xedb88320), <-!Z.lxor_assoc. by rewrite E. }
  rewrite !Z.shiftr_div_pow2 in Es by lia. change (2 ^ 1) with 2 in Es.
  pose proof (Z.bit0_mod a) as Ma. pose proof (Z.bit0_mod b) as Mb.
  rewrite E0 in Ma. lia.
Qed.

Lemma crc_bits_inj n a b : is_u32 a -> is_u32 b -> crc_bits n a = crc_bits n b -> a = b.
Proof.
  revert a b; induction n as [|n IH]; intros a b Ha Hb E; simpl in E; [done|].
  eauto using crc_bit_inj, crc_bit_u32.
Qed.

(** Up to four bytes enter the register as one little-endian word. *)
Lemma fold_crc_byte_word l v :
  bytes_ok l ->
  fold_left crc_byte l v = crc_bits (8 * length l) (Z.lxor v (le_dec l)).
Proof.
  intros H. revert v. induction H as [|b l Hb _ IH]; intros v.
  - simpl. by rewrite Z.lxor_0_r.
  - simpl fold_left. rewrite IH. unfold crc_byte. simpl le_dec.
    replace (8 * length (b :: l))%nat with (8 + 8 * length l)%nat by (simpl length; lia).
    rewrite crc_bits_add. f_equal.
    rewrite (crc_bits_lxor 8 v), (crc_bits_lxor 8 v), Z.lxor_assoc. f_equal.
    assert (b + 256 * le_dec l = Z.lxor b (Z.shiftl (le_dec l) 8)) as ->.
    { rewrite Z.add_nocarry_lxor; rewrite ?Z.shiftl_mul_pow2 by lia; f_equal; try lia.
      change (256 * le_dec l) with (2 ^ 8 * le_dec l).
      apply Z.bits_inj'. intros n Hn. rewrite Z.land_spec, Z.bits_0.
      rewrite Z.mul_comm, <-Z.shiftl_mul_pow2 by lia.
      destruct (Z.ltb_spec n 8).
      - by rewrite Z.shiftl_spec_low, andb_false_r by lia.
      - unfold is_byte in Hb. rewrite <-(Z.mod_small b (2 ^ 8)) by lia.
        by rewrite Z.mod_pow2_bits_high by lia. }
    rewrite crc_bits_lxor. f_equal. symmetry. apply (crc_bits_shiftl 8).
Qed.

Lemma fold_crc_byte_u32 l v : bytes_ok l -> is_u32 v -> is_u32 (fold_left crc_byte l v).
Proof.
  intros H. revert v. induction H as [|b l Hb _ IH]; intros v Hv; simpl; [done|].
  apply IH. apply crc_bits_u32, u32_lxor; auto using u32_byte.
Qed.

Lemma fold_crc_byte_inj l a b :
  bytes_ok l -> is_u32 a -> is_u32 b ->
  fold_left crc_byte l a = fold_left crc_byte l b -> a = b.
Proof.
  intros H. revert a b. induction H as [|c l Hc _ IH]; intros a b Ha Hb E; simpl in E; [done|].
  assert (is_u32 c) by auto using u32_byte.
  apply IH in E; [|apply crc_bits_u32, u32_lxor; done..].
  apply crc_bits_inj in E; [|apply u32_lxor; done..].
  rewrite <-(Z.lxor_0_r a), <-(Z.lxor_0_r b), <-(Z.lxor_nilpotent c), <-!Z.lxor_assoc.
  by rewrite E.
Qed.

Lemma le_dec_u32 l : bytes_ok l -> (length l <= 4)%nat -> is_u32 (le_dec l).
Proof.
  intros H Hl. pose proof (le_dec_bound l H) as [H1 H2]. split; [done|].
  eapply Z.lt_le_trans; [done|]. apply Z.pow_le_mono_r; lia.
Qed.

Lemma u32_init : is_u32 0xffffffff.
Proof. unfold is_u32. lia. Qed.

Lemma Crc32_whole l len :
  Z.of_nat (length l) = len -> Crc32 l len = Z.lxor (fold_left crc32_step l 0xffffffff) 0xffffffff.
Proof. intros <-. unfold Crc32. rewrite Nat2Z.id. by rewrite take_ge. Qed.

(** The checksum fits its 32-bit field. *)
Lemma Crc32_u32 l len : bytes_ok l -> is_u32 (Crc32 l len).
Proof.
  intros H. unfold Crc32. apply u32_lxor; [|apply u32_init].
  rewrite fold_crc32_step_ref by eauto with bytes.
  apply fold_crc_byte_u32; [eauto with bytes|apply u32_init].
Qed.

Lemma Crc32_take l len n :
  (Z.to_nat len <= n)%nat -> Crc32 (take n l) len = Crc32 l len.
Proof. intros. unfold Crc32. by rewrite take_take, Nat.min_l. Qed.

(** ** Properties *)

(** C37: the table-driven [Crc32] computes the bit-serial CRC-32 of the first [len]
    bytes of the buffer, for every buffer. *)
Theorem Crc32_is_bitwise (l : bytes) (len : Z) (Hok : bytes_ok l) :
  Crc32 l len = crc32_ref (take (Z.to_nat len) l).
Proof.
  unfold Crc32, crc32_ref. by rewrite fold_crc32_step_ref by eauto with bytes.
Qed.

Lemma Crc32_is_bitwise_witness :
  bytes_ok [49; 50; 51; 52; 53; 54; 55; 56; 57] /\
  Crc32 [49; 50; 51; 52; 53; 54; 55; 56; 57] 9 = 0xcbf43926 /\
  Crc32 [49; 50; 51; 52; 53; 54; 55; 56; 57] 9
  = crc32_ref (take (Z.to_nat 9) [49; 50; 51; 52; 53; 54; 55; 56; 57]).
Proof.
  assert (bytes_ok [49; 50; 51; 52; 53; 54; 55; 56; 57]) as H.
  { repeat constructor; unfold is_byte; lia. }
  split; [exact H|]. split; [vm_compute; reflexivity|].
  apply (Crc32_is_bitwise _ 9 H).
Defined.

(** [Crc32] detects every corruption confined to at most four consecutive bytes: two
    messages that differ only inside such a window have different checksums. *)
Theorem Crc32_detects_bursts (pre w1 w2 post : bytes) (len : Z)
  (Hpre : bytes_ok pre) (H1 : bytes_ok w1) (H2 : bytes_ok w2) (Hpost : bytes_ok post)
  (Hlen : length w1 = length w2) (Hshort : (length w1 <= 4)%nat)
  (Hn : Z.of_nat (length (pre ++ w1 ++ post)) = len) (Hne : w1 <> w2) :
  Crc32 (pre ++ w1 ++ post) len <> Crc32 (pre ++ w2 ++ post) len.
Proof.
  rewrite !Crc32_whole; [|rewrite !length_app in *; lia|done].
  rewrite !fold_crc32_step_ref by (rewrite !bytes_ok_app; done).
  intros E. apply Hne. rewrite !fold_left_app in E.
  pose proof (fold_crc_byte_u32 pre _ Hpre u32_init) as Hv.
  set (v := fold_left crc_byte pre 0xffffffff) in *.
  apply (f_equal (fun x => Z.lxor x 0xffffffff)) in E.
  rewrite !Z.lxor_assoc, Z.lxor_nilpotent, !Z.lxor_0_r in E.
  apply fold_crc_byte_inj in E; auto using fold_crc_byte_u32.
  rewrite !fold_crc_byte_word, Hlen in E by done.
  assert (is_u32 (le_dec w1)) by (apply le_dec_u32; auto).
  assert (is_u32 (le_dec w2)) by (apply le_dec_u32; [done|lia]).
  apply crc_bits_inj in E; auto using u32_lxor.
  apply le_dec_inj; [done..|].
  apply (f_equal (Z.lxor v)) in E.
  by rewrite <-!Z.lxor_assoc, Z.lxor_nilpotent, !Z.lxor_0_l in E.
Qed.

Lemma Crc32_detects_bursts_witness :
  Crc32 ([1; 2] ++ [3; 4] ++ [5]) 5 <> Crc32 ([1; 2] ++ [3; 9] ++ [5]) 5.
Proof.
  apply (Crc32_detects_bursts [1; 2] [3; 4] [3; 9] [5] 5);
    solve [repeat constructor; unfold is_byte; lia | reflexivity | simpl; lia | discriminate].
Defined.
