(* ===== verification/Xor.v ===== *)
(** * Exclusive-or checksums

    The exclusive or of a buffer, which the header checksums of the repository are built on. *)

From stdpp Require Import base list numbers.
From Stdlib Require Import ZArith Lia.
From S2P Require Import Prelude.

(** Equations between exclusive ors. *)
Ltac xor_bits :=
  apply Z.bits_inj'; intros i _; rewrite !Z.lxor_spec, ?Z.bits_0;
  repeat match goal with |- context [Z.testbit ?u i] => let t := fresh "t" in set (t := Z.testbit u i); clearbody t end;
  by repeat match goal with t : bool |- _ => destruct t end.

(** The exclusive or of all bytes. *)
Definition xor_all (l : bytes) : Z := fold_right Z.lxor 0 l.

Lemma xor_all_app a b : xor_all (a ++ b) = Z.lxor (xor_all a) (xor_all b).
Proof.
  unfold xor_all. induction a as [|x a IH]; simpl; [done|]. by rewrite IH, Z.lxor_assoc.
Qed.

Lemma xor_all_fold l a : fold_left Z.lxor l a = Z.lxor a (xor_all l).
Proof.
  revert a. induction l as [|x l IH]; intros a; simpl; [by rewrite Z.lxor_0_r|].
  by rewrite IH, Z.lxor_assoc.
Qed.

Lemma xor_all_splice off new h : (off + length new <= length h)%nat ->
  xor_all (splice off new h) =
  Z.lxor (xor_all h) (Z.lxor (xor_all (slice off (length new) h)) (xor_all new)).
Proof.
  intros Hl. unfold splice. rewrite !xor_all_app.
  assert (E : xor_all h = Z.lxor (xor_all (take off h))
    (Z.lxor (xor_all (slice off (length new) h)) (xor_all (drop (off + length new) h)))).
  { rewrite <-(take_drop off h) at 1. rewrite xor_all_app. f_equal.
    rewrite <-(take_drop (length new) (drop off h)) at 1. by rewrite xor_all_app, drop_drop. }
  rewrite E. set (a := xor_all (take off h)). set (b := xor_all (slice _ _ _)).
  set (c := xor_all (drop _ _)). set (n := xor_all new).
  xor_bits.
Qed.

Lemma xor_all_byte l : bytes_ok l -> is_byte (xor_all l).
Proof.
  induction 1 as [|b l Hb _ IH]; simpl; [unfold is_byte; lia|].
  unfold is_byte in *. pose proof (Z.lxor_nonneg b (xor_all l)) as Hn.
  split; [apply Hn; lia|].
  assert (H : Z.lxor b (xor_all l) mod 2 ^ 8 = Z.lxor b (xor_all l)).
  { apply Z.bits_inj'. intros i Hi. destruct (Z.ltb_spec i 8).
    - by rewrite Z.mod_pow2_bits_low by lia.
    - rewrite Z.mod_pow2_bits_high by lia. rewrite Z.lxor_spec.
      rewrite <-(Z.mod_small b (2 ^ 8)), <-(Z.mod_small (xor_all l) (2 ^ 8)) by (change (2 ^ 8) with 256; lia).
      by rewrite !Z.mod_pow2_bits_high by lia. }
  rewrite <-H. change (2 ^ 8) with 256. lia.
Qed.

Lemma slice_slice_0 o n k (l : bytes) : (o + n <= k)%nat -> slice o n (slice 0 k l) = slice o n l.
Proof. intros H. unfold slice at 2. rewrite drop_0. by apply slice_take. Qed.

Lemma slice_0 n (l : bytes) : slice 0 n l = take n l.
Proof. unfold slice. by rewrite drop_0. Qed.

Lemma slice_splice_prefix off new n h : (off + length new <= n)%nat -> (n <= length h)%nat ->
  slice 0 n (splice off new h) = splice off new (slice 0 n h).
Proof.
  intros H1 H2. unfold slice, splice. rewrite !drop_0, take_take, Nat.min_l by lia.
  rewrite take_app_ge by len. f_equal. rewrite length_take, Nat.min_l by lia.
  rewrite take_app_ge by lia. f_equal. rewrite take_drop_commute. do 2 f_equal. lia.
Qed.

Lemma getn_1_cons off h b l : slice off 1 h = b :: l -> getn 1 off h = b.
Proof.
  intros E. unfold getn. rewrite E. assert (l = []) as ->.
  { apply (f_equal length) in E. rewrite length_slice in E. destruct l; [done|cbn [length] in E; lia]. }
  cbn. lia.
Qed.

(** Storing the exclusive or of the others into a byte makes the sum of the first [n] zero. *)
Lemma xor_byte_balanced off n h : bytes_ok h -> (off < n)%nat -> (n <= length h)%nat ->
  xor_all (slice 0 n (putn 1 off (fold_left Z.lxor (slice 0 n h) (getn 1 off h)) h)) = 0.
Proof.
  intros B H1 H2. rewrite xor_all_fold. unfold putn. rewrite slice_splice_prefix by len.
  rewrite xor_all_splice by len. rewrite length_le_enc, slice_slice_0 by lia.
  destruct (slice off 1 h) as [|x l] eqn:E; [apply (f_equal length) in E; rewrite length_slice in E; cbn [length] in E; lia|].
  assert (Hx : x = getn 1 off h) by (symmetry; by eapply getn_1_cons).
  assert (l = []) as ->.
  { apply (f_equal length) in E. rewrite length_slice in E. destruct l; [done|cbn [length] in E; lia]. }
  set (a := xor_all (slice 0 n h)).
  assert (Ha : is_byte a) by (by apply xor_all_byte, bytes_ok_slice).
  pose proof (getn_bound 1 off h B) as Hg. rewrite <-Hx in *. change (2 ^ (8 * Z.of_nat 1)) with 256 in Hg.
  assert (Hxa : is_byte (Z.lxor x a)).
  { assert (is_byte (xor_all [x; a])) as Hb by (apply xor_all_byte; repeat constructor; (done || unfold is_byte in *; lia)).
    cbn in Hb. by rewrite Z.lxor_0_r in Hb. }
  cbn [le_enc]. unfold is_byte in Hxa. rewrite Z.mod_small by lia. cbn. rewrite !Z.lxor_0_r.
  rewrite <-Z.lxor_assoc, (Z.lxor_comm a x). apply Z.lxor_nilpotent.
Qed.
