(* ===== verification/GptTypes.v ===== *)
(** * GPT data layout (gpt/lib/include/gpt.h, cgptlib.h, cgptlib_internal.h, cgpt.h)

    The packed structures of the on-disk format, as accessors at the byte offsets the
    C structures have, the constants and error codes, and the in-memory [GptData]. *)

From stdpp Require Import base list numbers strings.
From Stdlib Require Import ZArith Lia Ascii.
From S2P Require Import Prelude.

(** ** Constants *)

Definition GPT_HEADER_REVISION : Z := 0x00010000.
Definition GPT_HEADER_SIGNATURE : bytes := [69; 70; 73; 32; 80; 65; 82; 84].   (* "EFI PART" *)
Definition GPT_HEADER_SIGNATURE2 : bytes := [67; 72; 82; 79; 77; 69; 79; 83].  (* "CHROMEOS" *)
(** [sizeof "EFI PART"], the terminating NUL included. *)
Definition GPT_HEADER_SIGNATURE_SIZE : nat := 9.

Definition GUID_SIZE : nat := 16.
Definition sizeof_GptHeader : nat := 92.
Definition sizeof_GptEntry : nat := 128.

Definition MIN_SIZE_OF_HEADER : Z := 92.
Definition MAX_SIZE_OF_HEADER : Z := 512.
Definition MIN_NUMBER_OF_ENTRIES : Z := 32.
Definition MAX_NUMBER_OF_ENTRIES : Z := 512.
Definition GPT_PMBR_SECTOR : Z := 1.
Definition GPT_HEADER_SECTOR : Z := 1.
Definition GPT_ENTRIES_SECTORS : Z := 32.
Definition TOTAL_ENTRIES_SIZE : Z := 16384.

(** The same as a list length; kept folded, it is a large unary number. *)
Definition table_len : nat := Z.to_nat TOTAL_ENTRIES_SIZE.

Lemma table_len_Z : Z.of_nat table_len = 16384.
Proof. unfold table_len, TOTAL_ENTRIES_SIZE. rewrite Z2Nat.id; lia. Qed.
#[global] Opaque table_len.

Definition PRIMARY : Z := 0.
Definition SECONDARY : Z := 1.
Definition ANY_VALID : Z := 9999.
Definition MASK_NONE : Z := 0.
Definition MASK_PRIMARY : Z := 1.
Definition MASK_SECONDARY : Z := 2.
Definition MASK_BOTH : Z := 3.

Definition GPT_MODIFIED_HEADER1 : Z := 0x01.
Definition GPT_MODIFIED_HEADER2 : Z := 0x02.
Definition GPT_MODIFIED_ENTRIES1 : Z := 0x04.
Definition GPT_MODIFIED_ENTRIES2 : Z := 0x08.

Definition GPT_SUCCESS : Z := 0.
Definition GPT_ERROR_NO_VALID_KERNEL : Z := 1.
Definition GPT_ERROR_INVALID_HEADERS : Z := 2.
Definition GPT_ERROR_INVALID_ENTRIES : Z := 3.
Definition GPT_ERROR_INVALID_SECTOR_SIZE : Z := 4.
Definition GPT_ERROR_INVALID_SECTOR_NUMBER : Z := 5.
Definition GPT_ERROR_INVALID_UPDATE_TYPE : Z := 6.
Definition GPT_ERROR_CRC_CORRUPTED : Z := 7.
Definition GPT_ERROR_OUT_OF_REGION : Z := 8.
Definition GPT_ERROR_START_LBA_OVERLAP : Z := 9.
Definition GPT_ERROR_END_LBA_OVERLAP : Z := 10.
Definition GPT_ERROR_DUP_GUID : Z := 11.

Definition CGPT_OK : Z := 0.
Definition CGPT_FAILED : Z := 1.

(** Attribute bits of [attrs.fields.gpt_att] (bits 48..63 of the 64-bit field). *)
Definition CGPT_ATTRIBUTE_SUCCESSFUL_OFFSET : Z := 8.
Definition CGPT_ATTRIBUTE_MAX_SUCCESSFUL : Z := 1.
Definition CGPT_ATTRIBUTE_SUCCESSFUL_MASK : Z :=
  Z.shiftl CGPT_ATTRIBUTE_MAX_SUCCESSFUL CGPT_ATTRIBUTE_SUCCESSFUL_OFFSET.
Definition CGPT_ATTRIBUTE_TRIES_OFFSET : Z := 4.
Definition CGPT_ATTRIBUTE_MAX_TRIES : Z := 15.
Definition CGPT_ATTRIBUTE_TRIES_MASK : Z :=
  Z.shiftl CGPT_ATTRIBUTE_MAX_TRIES CGPT_ATTRIBUTE_TRIES_OFFSET.
Definition CGPT_ATTRIBUTE_PRIORITY_OFFSET : Z := 0.
Definition CGPT_ATTRIBUTE_MAX_PRIORITY : Z := 15.
Definition CGPT_ATTRIBUTE_PRIORITY_MASK : Z :=
  Z.shiftl CGPT_ATTRIBUTE_MAX_PRIORITY CGPT_ATTRIBUTE_PRIORITY_OFFSET.

(** ** GUIDs

    A [Guid] is its 16 bytes; [mkGuid] lays out the [Uuid] member of the union. *)

Abbreviation Guid := bytes.

Definition mkGuid (time_low time_mid time_high clock_high clock_low : Z) (node : bytes) : Guid :=
  le_enc 4 time_low ++ le_enc 2 time_mid ++ le_enc 2 time_high ++
  le_enc 1 clock_high ++ le_enc 1 clock_low ++ node.

Definition GPT_ENT_TYPE_UNUSED : Guid := mkGuid 0 0 0 0 0 [0; 0; 0; 0; 0; 0].
Definition GPT_ENT_TYPE_EFI : Guid :=
  mkGuid 0xc12a7328 0xf81f 0x11d2 0xba 0x4b [0x00; 0xa0; 0xc9; 0x3e; 0xc9; 0x3b].
Definition GPT_ENT_TYPE_CHROMEOS_FIRMWARE : Guid :=
  mkGuid 0xcab6e88e 0xabf3 0x4102 0xa0 0x7a [0xd4; 0xbb; 0x9b; 0xe3; 0xc1; 0xd3].
Definition GPT_ENT_TYPE_CHROMEOS_KERNEL : Guid :=
  mkGuid 0xfe3a2a5d 0x4f32 0x41a7 0xb7 0x25 [0xac; 0xcc; 0x32; 0x85; 0xa3; 0x09].
Definition GPT_ENT_TYPE_CHROMEOS_ROOTFS : Guid :=
  mkGuid 0x3cb8e202 0x3b7e 0x47dd 0x8a 0x3c [0x7f; 0xf2; 0xa1; 0x3c; 0xfc; 0xec].
Definition GPT_ENT_TYPE_CHROMEOS_RESERVED : Guid :=
  mkGuid 0x2e0a753d 0x9e48 0x43b0 0x83 0x37 [0xb1; 0x51; 0x92; 0xcb; 0x1b; 0x5e].
Definition GPT_ENT_TYPE_LINUX_DATA : Guid :=
  mkGuid 0xebd0a0a2 0xb9e5 0x4433 0x87 0xc0 [0x68; 0xb6; 0xb7; 0x26; 0x99; 0xc7].

(** ** struct GptHeader: fields of the buffer that holds it *)

Definition h_signature (h : bytes) : bytes := slice 0 8 h.
Definition h_revision (h : bytes) : Z := getn 4 8 h.
Definition h_size (h : bytes) : Z := getn 4 12 h.
Definition h_header_crc32 (h : bytes) : Z := getn 4 16 h.
Definition h_reserved_zero (h : bytes) : Z := getn 4 20 h.
Definition h_my_lba (h : bytes) : Z := getn 8 24 h.
Definition h_alternate_lba (h : bytes) : Z := getn 8 32 h.
Definition h_first_usable_lba (h : bytes) : Z := getn 8 40 h.
Definition h_last_usable_lba (h : bytes) : Z := getn 8 48 h.
Definition h_disk_uuid (h : bytes) : Guid := slice 56 16 h.
Definition h_entries_lba (h : bytes) : Z := getn 8 72 h.
Definition h_number_of_entries (h : bytes) : Z := getn 4 80 h.
Definition h_size_of_entry (h : bytes) : Z := getn 4 84 h.
Definition h_entries_crc32 (h : bytes) : Z := getn 4 88 h.

Definition set_h_signature (v h : bytes) : bytes := splice 0 v h.
Definition set_h_revision (v : Z) (h : bytes) : bytes := putn 4 8 v h.
Definition set_h_size (v : Z) (h : bytes) : bytes := putn 4 12 v h.
Definition set_h_header_crc32 (v : Z) (h : bytes) : bytes := putn 4 16 v h.
Definition set_h_my_lba (v : Z) (h : bytes) : bytes := putn 8 24 v h.
Definition set_h_alternate_lba (v : Z) (h : bytes) : bytes := putn 8 32 v h.
Definition set_h_first_usable_lba (v : Z) (h : bytes) : bytes := putn 8 40 v h.
Definition set_h_last_usable_lba (v : Z) (h : bytes) : bytes := putn 8 48 v h.
Definition set_h_disk_uuid (v h : bytes) : bytes := splice 56 v h.
Definition set_h_entries_lba (v : Z) (h : bytes) : bytes := putn 8 72 v h.
Definition set_h_number_of_entries (v : Z) (h : bytes) : bytes := putn 4 80 v h.
Definition set_h_size_of_entry (v : Z) (h : bytes) : bytes := putn 4 84 v h.
Definition set_h_entries_crc32 (v : Z) (h : bytes) : bytes := putn 4 88 v h.

(** ** struct GptEntry: fields of the entry at byte offset [o] of a table *)

Definition e_type (o : nat) (t : bytes) : Guid := slice o 16 t.
Definition e_unique (o : nat) (t : bytes) : Guid := slice (o + 16) 16 t.
Definition e_starting_lba (o : nat) (t : bytes) : Z := getn 8 (o + 32) t.
Definition e_ending_lba (o : nat) (t : bytes) : Z := getn 8 (o + 40) t.
Definition e_gpt_att (o : nat) (t : bytes) : Z := getn 2 (o + 54) t.
Definition e_name (o : nat) (t : bytes) : bytes := slice (o + 56) 72 t.

Definition set_e_type (o : nat) (v t : bytes) : bytes := splice o v t.
Definition set_e_unique (o : nat) (v t : bytes) : bytes := splice (o + 16) v t.
Definition set_e_starting_lba (o : nat) (v : Z) (t : bytes) : bytes := putn 8 (o + 32) v t.
Definition set_e_ending_lba (o : nat) (v : Z) (t : bytes) : bytes := putn 8 (o + 40) v t.
Definition set_e_gpt_att (o : nat) (v : Z) (t : bytes) : bytes := putn 2 (o + 54) v t.

(** ** GptData *)

Record GptData := mkGptData {
  primary_header : bytes;
  secondary_header : bytes;
  primary_entries : bytes;
  secondary_entries : bytes;
  sector_bytes : Z;
  drive_sectors : Z;
  modified : Z;
  current_kernel : Z;
  valid_headers : Z;
  valid_entries : Z;
  current_priority : Z
}.

Definition set_primary_header (v : bytes) (g : GptData) : GptData :=
  mkGptData v (secondary_header g) (primary_entries g) (secondary_entries g) (sector_bytes g)
    (drive_sectors g) (modified g) (current_kernel g) (valid_headers g) (valid_entries g)
    (current_priority g).
Definition set_secondary_header (v : bytes) (g : GptData) : GptData :=
  mkGptData (primary_header g) v (primary_entries g) (secondary_entries g) (sector_bytes g)
    (drive_sectors g) (modified g) (current_kernel g) (valid_headers g) (valid_entries g)
    (current_priority g).
Definition set_primary_entries (v : bytes) (g : GptData) : GptData :=
  mkGptData (primary_header g) (secondary_header g) v (secondary_entries g) (sector_bytes g)
    (drive_sectors g) (modified g) (current_kernel g) (valid_headers g) (valid_entries g)
    (current_priority g).
Definition set_secondary_entries (v : bytes) (g : GptData) : GptData :=
  mkGptData (primary_header g) (secondary_header g) (primary_entries g) v (sector_bytes g)
    (drive_sectors g) (modified g) (current_kernel g) (valid_headers g) (valid_entries g)
    (current_priority g).
Definition set_sector_bytes (v : Z) (g : GptData) : GptData :=
  mkGptData (primary_header g) (secondary_header g) (primary_entries g) (secondary_entries g) v
    (drive_sectors g) (modified g) (current_kernel g) (valid_headers g) (valid_entries g)
    (current_priority g).
Definition set_drive_sectors (v : Z) (g : GptData) : GptData :=
  mkGptData (primary_header g) (secondary_header g) (primary_entries g) (secondary_entries g)
    (sector_bytes g) v (modified g) (current_kernel g) (valid_headers g) (valid_entries g)
    (current_priority g).
Definition set_modified (v : Z) (g : GptData) : GptData :=
  mkGptData (primary_header g) (secondary_header g) (primary_entries g) (secondary_entries g)
    (sector_bytes g) (drive_sectors g) v (current_kernel g) (valid_headers g) (valid_entries g)
    (current_priority g).
Definition set_valid_headers (v : Z) (g : GptData) : GptData :=
  mkGptData (primary_header g) (secondary_header g) (primary_entries g) (secondary_entries g)
    (sector_bytes g) (drive_sectors g) (modified g) (current_kernel g) v (valid_entries g)
    (current_priority g).
Definition set_valid_entries (v : Z) (g : GptData) : GptData :=
  mkGptData (primary_header g) (secondary_header g) (primary_entries g) (secondary_entries g)
    (sector_bytes g) (drive_sectors g) (modified g) (current_kernel g) (valid_headers g) v
    (current_priority g).

(** [gpt->modified |= m] *)
Definition or_modified (m : Z) (g : GptData) : GptData :=
  set_modified (Z.lor (modified g) m) g.

(** ** Well-formed buffers

    What [DriveOpen] establishes on a drive with 512-byte sectors: a header buffer holds one
    sector, an entry-table buffer 32 sectors. *)

Definition hdr_ok (h : bytes) : Prop := bytes_ok h /\ length h = 512%nat.
Definition tbl_ok (t : bytes) : Prop := bytes_ok t /\ Z.of_nat (length t) = TOTAL_ENTRIES_SIZE.

Record gpt_ok (g : GptData) : Prop := {
  ok_h1 : hdr_ok (primary_header g);
  ok_h2 : hdr_ok (secondary_header g);
  ok_e1 : tbl_ok (primary_entries g);
  ok_e2 : tbl_ok (secondary_entries g);
  ok_sectors : 0 <= drive_sectors g < 2 ^ 64;
  ok_modified : 0 <= modified g < 256;
}.

Create HintDb hdr.
Create HintDb ent.

#[export] Hint Unfold h_signature h_revision h_size h_header_crc32 h_reserved_zero h_my_lba
  h_alternate_lba h_first_usable_lba h_last_usable_lba h_disk_uuid h_entries_lba
  h_number_of_entries h_size_of_entry h_entries_crc32
  set_h_signature set_h_revision set_h_size set_h_header_crc32 set_h_my_lba set_h_alternate_lba
  set_h_first_usable_lba set_h_last_usable_lba set_h_disk_uuid set_h_entries_lba
  set_h_number_of_entries set_h_size_of_entry set_h_entries_crc32 : hdr.

#[export] Hint Unfold e_type e_unique e_starting_lba e_ending_lba e_gpt_att e_name
  set_e_type set_e_unique set_e_starting_lba set_e_ending_lba set_e_gpt_att : ent.

(** Side conditions of buffer rewriting: lengths through any number of updates. *)
Ltac buf_len :=
  repeat first [rewrite length_putn | rewrite length_splice];
  rewrite ?length_le_enc; try lia.

(** Read a field through a chain of field updates. *)
Ltac fields :=
  repeat first
    [ rewrite getn_putn_eq by buf_len
    | rewrite getn_putn_ne by (buf_len || (left; buf_len) || (right; buf_len))
    | rewrite slice_putn_ne by (buf_len || (left; buf_len) || (right; buf_len))
    | rewrite getn_splice_ne by (buf_len || (left; buf_len) || (right; buf_len))
    | rewrite slice_splice_ne by (buf_len || (left; buf_len) || (right; buf_len)) ].
