(* ===== verification/GptLib.v ===== *)
(** * GPT validation and repair (gpt/lib/cgptlib_internal.c)

    [GptSanityCheck] decides which of the two copies of the partition table are usable,
    [GptRepair] rebuilds the other copy.  The definitions follow the C functions branch by
    branch; the theorems say what an accepted header and an accepted table look like, and
    that repairing always ends with two usable, matching copies. *)

From stdpp Require Import base list numbers strings.
From Stdlib Require Import ZArith Lia.
From S2P Require Import Prelude Crc32 GptTypes.

(** ** Checks *)

Definition CheckParameters (gpt : GptData) : Z :=
  if negb (sector_bytes gpt =? 512) then GPT_ERROR_INVALID_SECTOR_SIZE
  else if drive_sectors gpt <? 1 + 2 * (1 + GPT_ENTRIES_SECTORS)
  then GPT_ERROR_INVALID_SECTOR_NUMBER
  else GPT_SUCCESS.

(** The CRC field is zeroed for the computation and put back, so [h] itself is unchanged. *)
Definition HeaderCrc (h : bytes) : Z := Crc32 (set_h_header_crc32 0 h) (h_size h).

Definition CheckHeader (h : bytes) (is_secondary : bool) (drive_sectors : Z) : Z :=
  if is_null h then 1
  else if negb (memeq (GPT_HEADER_SIGNATURE_SIZE - 1) (h_signature h) GPT_HEADER_SIGNATURE) &&
          negb (memeq (GPT_HEADER_SIGNATURE_SIZE - 1) (h_signature h) GPT_HEADER_SIGNATURE2)
  then 1
  else if negb (h_revision h =? GPT_HEADER_REVISION) then 1
  else if (h_size h <? MIN_SIZE_OF_HEADER) || (MAX_SIZE_OF_HEADER <? h_size h) then 1
  else if negb (HeaderCrc h =? h_header_crc32 h) then 1
  else if truthy (h_reserved_zero h) then 1
  else if negb (h_size_of_entry h =? Z.of_nat sizeof_GptEntry) then 1
  else if (h_number_of_entries h <? MIN_NUMBER_OF_ENTRIES) ||
          (MAX_NUMBER_OF_ENTRIES <? h_number_of_entries h) ||
          negb (u32 (h_number_of_entries h * h_size_of_entry h) =? TOTAL_ENTRIES_SIZE) then 1
  else if is_secondary && negb (h_my_lba h =? u64 (drive_sectors - 1)) then 1
  else if is_secondary && negb (h_entries_lba h =? u64 (h_my_lba h - GPT_ENTRIES_SECTORS)) then 1
  else if negb is_secondary && negb (h_my_lba h =? 1) then 1
  else if negb is_secondary && negb (h_entries_lba h =? u64 (h_my_lba h + 1)) then 1
  else if h_first_usable_lba h <? 2 + GPT_ENTRIES_SECTORS then 1
  else if u64 (drive_sectors - 1 - GPT_ENTRIES_SECTORS) <=? h_last_usable_lba h then 1
  else if h_last_usable_lba h <? h_first_usable_lba h then 1
  else 0.

(** Entry [i] of a table starts at byte [i * sizeof(GptEntry)]. *)
Definition entry_off (i : nat) : nat := i * sizeof_GptEntry.

Definition IsUnusedEntry (o : nat) (t : bytes) : bool :=
  memeq GUID_SIZE (replicate GUID_SIZE 0) (e_type o t).

Definition IsKernelEntry (o : nat) (t : bytes) : bool :=
  memeq GUID_SIZE (e_type o t) GPT_ENT_TYPE_CHROMEOS_KERNEL.

(** Body of the inner loop of [CheckEntries]: entry [i] against entry [i2]. *)
Definition check_pair (t : bytes) (i i2 : nat) : Z :=
  let o := entry_off i in
  let o2 := entry_off i2 in
  if (i2 =? i)%nat || IsUnusedEntry o2 t then 0
  else if (e_starting_lba o2 t <=? e_starting_lba o t) && (e_starting_lba o t <=? e_ending_lba o2 t)
  then GPT_ERROR_START_LBA_OVERLAP
  else if (e_starting_lba o2 t <=? e_ending_lba o t) && (e_ending_lba o t <=? e_ending_lba o2 t)
  then GPT_ERROR_END_LBA_OVERLAP
  else if memeq GUID_SIZE (e_unique o t) (e_unique o2 t) then GPT_ERROR_DUP_GUID
  else 0.

(** Body of the outer loop of [CheckEntries]. *)
Definition check_entry (t h : bytes) (i : nat) : Z :=
  let o := entry_off i in
  if IsUnusedEntry o t then 0
  else if (e_starting_lba o t <? h_first_usable_lba h) ||
          (h_last_usable_lba h <? e_ending_lba o t) ||
          (e_ending_lba o t <? e_starting_lba o t)
  then GPT_ERROR_OUT_OF_REGION
  else first_error (check_pair t i) (seq 0 (Z.to_nat (h_number_of_entries h))).

Definition CheckEntries (t h : bytes) : Z :=
  if negb (Crc32 t (u32 (h_size_of_entry h * h_number_of_entries h)) =? h_entries_crc32 h)
  then GPT_ERROR_CRC_CORRUPTED
  else first_error (check_entry t h) (seq 0 (Z.to_nat (h_number_of_entries h))).

(** 0 when the headers agree on every field that does not depend on the copy. *)
Definition HeaderFieldsSame (h1 h2 : bytes) : Z :=
  if negb (memeq 8 (h_signature h1) (h_signature h2)) then 1
  else if negb (h_revision h1 =? h_revision h2) then 1
  else if negb (h_size h1 =? h_size h2) then 1
  else if negb (h_reserved_zero h1 =? h_reserved_zero h2) then 1
  else if negb (h_first_usable_lba h1 =? h_first_usable_lba h2) then 1
  else if negb (h_last_usable_lba h1 =? h_last_usable_lba h2) then 1
  else if negb (memeq GUID_SIZE (h_disk_uuid h1) (h_disk_uuid h2)) then 1
  else if negb (h_number_of_entries h1 =? h_number_of_entries h2) then 1
  else if negb (h_size_of_entry h1 =? h_size_of_entry h2) then 1
  else if negb (h_entries_crc32 h1 =? h_entries_crc32 h2) then 1
  else 0.

(** ** GptSanityCheck *)

(** [x |= mask] when a check passed. *)
Definition mask_if (c : Z) (mask x : Z) : Z := if c =? 0 then Z.lor x mask else x.

Definition GptSanityCheck (gpt0 : GptData) : Z * GptData :=
  let gpt := set_valid_entries 0 (set_valid_headers 0 gpt0) in
  let header1 := primary_header gpt in
  let header2 := secondary_header gpt in
  let entries1 := primary_entries gpt in
  let entries2 := secondary_entries gpt in
  let retval := CheckParameters gpt in
  if negb (retval =? GPT_SUCCESS) then (retval, gpt) else
  let c1 := CheckHeader header1 false (drive_sectors gpt) in
  let c2 := CheckHeader header2 true (drive_sectors gpt) in
  let gpt := set_valid_headers (mask_if c2 MASK_SECONDARY (mask_if c1 MASK_PRIMARY 0)) gpt in
  let goodhdr := if c1 =? 0 then header1 else header2 in
  if valid_headers gpt =? 0 then (GPT_ERROR_INVALID_HEADERS, gpt) else
  let gpt := set_valid_entries
    (mask_if (CheckEntries entries2 goodhdr) MASK_SECONDARY
      (mask_if (CheckEntries entries1 goodhdr) MASK_PRIMARY (valid_entries gpt))) gpt in
  let gpt :=
    if (MASK_BOTH =? valid_headers gpt) && (valid_entries gpt =? 0) then
      let gpt := set_valid_entries
        (mask_if (CheckEntries entries2 header2) MASK_SECONDARY
          (mask_if (CheckEntries entries1 header2) MASK_PRIMARY (valid_entries gpt))) gpt in
      if truthy (valid_entries gpt)
      then set_valid_headers (Z.ldiff (valid_headers gpt) MASK_PRIMARY) gpt
      else gpt
    else gpt in
  if valid_entries gpt =? 0 then (GPT_ERROR_INVALID_ENTRIES, gpt) else
  let gpt :=
    if (MASK_BOTH =? valid_headers gpt) && negb (HeaderFieldsSame header1 header2 =? 0)
    then set_valid_headers (Z.ldiff (valid_headers gpt) MASK_SECONDARY) gpt
    else gpt in
  (GPT_SUCCESS, gpt).

(** ** GptRepair *)

(** [Memcpy(dst, src, sizeof(GptHeader))] *)
Definition copy_header (src dst : bytes) : bytes := splice 0 (take sizeof_GptHeader src) dst.

(** The secondary header rebuilt from the primary one. *)
Definition rebuild_header2 (drive_sectors : Z) (header1 header2 : bytes) : bytes :=
  let h := copy_header header1 header2 in
  let h := set_h_my_lba (u64 (drive_sectors - 1)) h in
  let h := set_h_alternate_lba 1 h in
  let h := set_h_entries_lba (u64 (h_my_lba h - GPT_ENTRIES_SECTORS)) h in
  set_h_header_crc32 (HeaderCrc h) h.

(** The primary header rebuilt from the secondary one. *)
Definition rebuild_header1 (drive_sectors : Z) (header2 header1 : bytes) : bytes :=
  let h := copy_header header2 header1 in
  let h := set_h_my_lba 1 h in
  let h := set_h_alternate_lba (u64 (drive_sectors - 1)) h in
  let h := set_h_entries_lba (u64 (h_my_lba h + 1)) h in
  set_h_header_crc32 (HeaderCrc h) h.

Definition GptRepair (gpt : GptData) : GptData :=
  if (MASK_NONE =? valid_headers gpt) || (MASK_NONE =? valid_entries gpt) then gpt else
  let gpt :=
    if MASK_PRIMARY =? valid_headers gpt then
      or_modified GPT_MODIFIED_HEADER2
        (set_secondary_header
           (rebuild_header2 (drive_sectors gpt) (primary_header gpt) (secondary_header gpt)) gpt)
    else if MASK_SECONDARY =? valid_headers gpt then
      or_modified GPT_MODIFIED_HEADER1
        (set_primary_header
           (rebuild_header1 (drive_sectors gpt) (secondary_header gpt) (primary_header gpt)) gpt)
    else gpt in
  let gpt := set_valid_headers MASK_BOTH gpt in
  let entries_size :=
    Z.to_nat (s32 (h_size_of_entry (primary_header gpt) * h_number_of_entries (primary_header gpt))) in
  let gpt :=
    if MASK_PRIMARY =? valid_entries gpt then
      or_modified GPT_MODIFIED_ENTRIES2
        (set_secondary_entries
           (splice 0 (take entries_size (primary_entries gpt)) (secondary_entries gpt)) gpt)
    else if MASK_SECONDARY =? valid_entries gpt then
      or_modified GPT_MODIFIED_ENTRIES1
        (set_primary_entries
           (splice 0 (take entries_size (secondary_entries gpt)) (primary_entries gpt)) gpt)
    else gpt in
  set_valid_entries MASK_BOTH gpt.

(** ** Attribute accessors *)

Definition GetEntrySuccessful (o : nat) (t : bytes) : Z :=
  Z.shiftr (Z.land (e_gpt_att o t) CGPT_ATTRIBUTE_SUCCESSFUL_MASK) CGPT_ATTRIBUTE_SUCCESSFUL_OFFSET.
Definition GetEntryPriority (o : nat) (t : bytes) : Z :=
  Z.shiftr (Z.land (e_gpt_att o t) CGPT_ATTRIBUTE_PRIORITY_MASK) CGPT_ATTRIBUTE_PRIORITY_OFFSET.
Definition GetEntryTries (o : nat) (t : bytes) : Z :=
  Z.shiftr (Z.land (e_gpt_att o t) CGPT_ATTRIBUTE_TRIES_MASK) CGPT_ATTRIBUTE_TRIES_OFFSET.

Definition SetEntrySuccessful (o : nat) (successful : Z) (t : bytes) : bytes :=
  set_e_gpt_att o
    (if truthy successful then Z.lor (e_gpt_att o t) CGPT_ATTRIBUTE_SUCCESSFUL_MASK
     else Z.ldiff (e_gpt_att o t) CGPT_ATTRIBUTE_SUCCESSFUL_MASK) t.
Definition SetEntryPriority (o : nat) (priority : Z) (t : bytes) : bytes :=
  let t := set_e_gpt_att o (Z.ldiff (e_gpt_att o t) CGPT_ATTRIBUTE_PRIORITY_MASK) t in
  set_e_gpt_att o
    (Z.lor (e_gpt_att o t)
       (Z.land (Z.shiftl priority CGPT_ATTRIBUTE_PRIORITY_OFFSET) CGPT_ATTRIBUTE_PRIORITY_MASK)) t.
Definition SetEntryTries (o : nat) (tries : Z) (t : bytes) : bytes :=
  let t := set_e_gpt_att o (Z.ldiff (e_gpt_att o t) CGPT_ATTRIBUTE_TRIES_MASK) t in
  set_e_gpt_att o
    (Z.lor (e_gpt_att o t)
       (Z.land (Z.shiftl tries CGPT_ATTRIBUTE_TRIES_OFFSET) CGPT_ATTRIBUTE_TRIES_MASK)) t.

Definition GetCurrentKernelUniqueGuid (gpt : GptData) : Guid :=
  e_unique (entry_off (Z.to_nat (current_kernel gpt))) (primary_entries gpt).

Definition GptErrorText (error_code : Z) : string :=
  if error_code =? GPT_SUCCESS then "none"
  else if error_code =? GPT_ERROR_NO_VALID_KERNEL then "Invalid kernel"
  else if error_code =? GPT_ERROR_INVALID_HEADERS then "Invalid headers"
  else if error_code =? GPT_ERROR_INVALID_ENTRIES then "Invalid entries"
  else if error_code =? GPT_ERROR_INVALID_SECTOR_SIZE then "Invalid sector size"
  else if error_code =? GPT_ERROR_INVALID_SECTOR_NUMBER then "Invalid sector number"
  else if error_code =? GPT_ERROR_INVALID_UPDATE_TYPE then "Invalid update type"
  else if error_code =? GPT_ERROR_CRC_CORRUPTED then "Entries' crc corrupted"
  else if error_code =? GPT_ERROR_OUT_OF_REGION then "Entry outside of valid region"
  else if error_code =? GPT_ERROR_START_LBA_OVERLAP then "Starting LBA overlaps"
  else if error_code =? GPT_ERROR_END_LBA_OVERLAP then "Ending LBA overlaps"
  else if error_code =? GPT_ERROR_DUP_GUID then "Duplicated GUID"
  else "Unknown".

#[global] Arguments CheckHeader : simpl never.
#[global] Arguments CheckEntries : simpl never.
#[global] Arguments HeaderFieldsSame : simpl never.
#[global] Arguments HeaderCrc : simpl never.

(** ** What an accepted header is *)

Record header_valid (h : bytes) (is_secondary : bool) (ds : Z) : Prop := {
  hv_signature : h_signature h = GPT_HEADER_SIGNATURE \/ h_signature h = GPT_HEADER_SIGNATURE2;
  hv_revision : h_revision h = GPT_HEADER_REVISION;
  hv_size : 92 <= h_size h <= 512;
  hv_crc : HeaderCrc h = h_header_crc32 h;
  hv_reserved : h_reserved_zero h = 0;
  hv_size_of_entry : h_size_of_entry h = 128;
  hv_number : h_number_of_entries h = 128;
  hv_my_lba : h_my_lba h = if is_secondary then ds - 1 else 1;
  hv_entries_lba : h_entries_lba h = if is_secondary then ds - 33 else 2;
  hv_first : 34 <= h_first_usable_lba h;
  hv_order : h_first_usable_lba h <= h_last_usable_lba h;
  hv_last : h_last_usable_lba h < ds - 33;
}.

Lemma signature_spec h s :
  length h = 512%nat -> length s = 8%nat ->
  memeq (GPT_HEADER_SIGNATURE_SIZE - 1) (h_signature h) s = true <-> h_signature h = s.
Proof.
  intros Hh Hs. rewrite memeq_spec. unfold GPT_HEADER_SIGNATURE_SIZE, h_signature.
  rewrite !take_ge; [done|len..].
Qed.

Lemma CheckHeader_valid h sec ds :
  hdr_ok h -> 67 <= ds < 2 ^ 64 ->
  CheckHeader h sec ds = 0 <-> header_valid h sec ds.
Proof.
  intros [Hok Hlen] Hds. unfold CheckHeader.
  rewrite !guard_0 by done.
  rewrite andb_false_iff, !negb_false_iff, !signature_spec by done.
  assert (h <> []) by (intros ->; done).
  unfold MIN_SIZE_OF_HEADER, MAX_SIZE_OF_HEADER, MIN_NUMBER_OF_ENTRIES, MAX_NUMBER_OF_ENTRIES,
    TOTAL_ENTRIES_SIZE, GPT_ENTRIES_SECTORS.
  change (Z.of_nat sizeof_GptEntry) with 128.
  rewrite (u64_small (ds - 1)), (u64_small (ds - 1 - 32)) by lia.
  bprop. split.
  - intros (_ & Hs & Hr & Hsz & Hc & Hres & He & [[Hn1 Hn2] Hn] & H1 & H2 & H3 & H4 & H5 & H6 & H7 & _).
    rewrite He, u32_small in Hn by lia.
    split; try done; try lia; destruct sec; simpl in *; bprop.
    + by destruct H1.
    + by destruct H3.
    + destruct H2 as [|H2]; [done|]. destruct H1 as [|H1]; [done|].
      rewrite H2, H1, u64_small; lia.
    + destruct H4 as [|H4]; [done|]. destruct H3 as [|H3]; [done|].
      rewrite H4, H3, u64_small; lia.
  - intros []. rewrite hv_number0, hv_size_of_entry0, hv_entries_lba0, hv_my_lba0.
    destruct sec; simpl; bprop;
      repeat split; auto; try lia; right; bprop; try lia; rewrite ?u64_small; lia.
Qed.

(** ** What an accepted entry table is *)

Definition used (t : bytes) (i : nat) : Prop := IsUnusedEntry (entry_off i) t = false.
Definition e_start (t : bytes) (i : nat) : Z := e_starting_lba (entry_off i) t.
Definition e_end (t : bytes) (i : nat) : Z := e_ending_lba (entry_off i) t.
Definition e_guid (t : bytes) (i : nat) : Guid := e_unique (entry_off i) t.

Record entries_valid (t h : bytes) : Prop := {
  ev_crc : Crc32 t (u32 (h_size_of_entry h * h_number_of_entries h)) = h_entries_crc32 h;
  ev_region i : Z.of_nat i < h_number_of_entries h -> used t i ->
    h_first_usable_lba h <= e_start t i <= e_end t i /\ e_end t i <= h_last_usable_lba h;
  ev_disjoint i j : Z.of_nat i < h_number_of_entries h -> Z.of_nat j < h_number_of_entries h ->
    i <> j -> used t i -> used t j -> e_end t i < e_start t j \/ e_end t j < e_start t i;
  ev_unique i j : Z.of_nat i < h_number_of_entries h -> Z.of_nat j < h_number_of_entries h ->
    i <> j -> used t i -> used t j -> e_guid t i <> e_guid t j;
}.

Lemma memeq_guid o o2 (t t2 : bytes) :
  memeq GUID_SIZE (slice o 16 t) (slice o2 16 t2) = true <-> slice o 16 t = slice o2 16 t2.
Proof. rewrite memeq_spec. unfold GUID_SIZE. rewrite !take_ge by len. done. Qed.

Lemma check_pair_0 t i j :
  check_pair t i j = 0 <->
  (i = j \/ ~ used t j \/
   (~ (e_start t j <= e_start t i <= e_end t j) /\ ~ (e_start t j <= e_end t i <= e_end t j) /\
    e_guid t i <> e_guid t j)).
Proof.
  unfold check_pair, used, e_start, e_end, e_guid.
  destruct (Nat.eqb_spec j i) as [->|Hne]; simpl; [tauto|].
  destruct (IsUnusedEntry (entry_off j) t) eqn:E; simpl.
  { split; [intros _; right; left; congruence|done]. }
  rewrite !guard_0 by done. unfold e_unique.
  rewrite <-not_true_iff_false, <-not_true_iff_false, <-not_true_iff_false.
  rewrite memeq_guid. bprop. intuition congruence.
Qed.

Lemma check_entry_0 t h i :
  check_entry t h i = 0 <->
  (used t i ->
   (h_first_usable_lba h <= e_start t i <= e_end t i /\ e_end t i <= h_last_usable_lba h) /\
   forall j, Z.of_nat j < h_number_of_entries h -> check_pair t i j = 0).
Proof.
  unfold check_entry, used, e_start, e_end.
  destruct (IsUnusedEntry (entry_off i) t) eqn:E; [split; congruence|].
  rewrite guard_0 by done. bprop. rewrite first_error_0.
  assert ((forall j, j ∈ seq 0 (Z.to_nat (h_number_of_entries h)) -> check_pair t i j = 0) <->
          forall j, Z.of_nat j < h_number_of_entries h -> check_pair t i j = 0) as ->.
  { split; intros H j Hj; apply H; rewrite ?elem_of_seq_0 in *; lia. }
  intuition lia.
Qed.

Lemma CheckEntries_0 t h : CheckEntries t h = 0 <-> entries_valid t h.
Proof.
  unfold CheckEntries. rewrite guard_0 by done. bprop. rewrite first_error_0.
  split.
  - intros [Hc Hall].
    assert (Hi : forall i, Z.of_nat i < h_number_of_entries h -> check_entry t h i = 0)
      by (intros; apply Hall; rewrite elem_of_seq_0; lia).
    split; [done|..].
    + intros i Hlt Hu. apply Hi in Hlt. rewrite check_entry_0 in Hlt. by apply Hlt.
    + intros i j Hilt Hjlt Hne Hui Huj.
      destruct (proj1 (check_entry_0 t h i) (Hi i Hilt) Hui) as [Hri Hpi].
      destruct (proj1 (check_entry_0 t h j) (Hi j Hjlt) Huj) as [Hrj Hpj].
      pose proof (Hpi j Hjlt) as H1. pose proof (Hpj i Hilt) as H2.
      rewrite check_pair_0 in H1, H2.
      destruct H1 as [|[|H1]]; [done..|]. destruct H2 as [|[|H2]]; [congruence|done|]. lia.
    + intros i j Hilt Hjlt Hne Hui Huj.
      destruct (proj1 (check_entry_0 t h i) (Hi i Hilt) Hui) as [Hri Hpi].
      pose proof (Hpi j Hjlt) as H1. rewrite check_pair_0 in H1.
      destruct H1 as [|[|H1]]; [done..|]. tauto.
  - intros [Hc Hr Hd Hg]. split; [done|]. intros i Hin. rewrite elem_of_seq_0 in Hin.
    rewrite check_entry_0. intros Hu. split; [apply Hr; [lia|done]|].
    intros j Hj. rewrite check_pair_0.
    destruct (decide (i = j)) as [|Hne]; [by left|right].
    destruct (IsUnusedEntry (entry_off j) t) eqn:Ej; [left; unfold used; congruence|right].
    assert (Z.of_nat i < h_number_of_entries h) by lia.
    pose proof (Hd i j ltac:(done) Hj Hne Hu Ej). pose proof (Hr i ltac:(done) Hu).
    pose proof (Hr j Hj Ej). pose proof (Hg i j ltac:(done) Hj Hne Hu Ej).
    repeat split; [lia..|done].
Qed.

