(* ===== verification/GptSanity.v ===== *)
(** * The partition-table check and repair (theorems about gpt/lib/cgptlib_internal.c)

    What [GptSanityCheck] establishes about the buffers it accepts, and that [GptRepair]
    turns an accepted table into one whose two copies are valid and agree. *)

From stdpp Require Import base list numbers strings.
From Stdlib Require Import ZArith Lia.
From S2P Require Import Prelude Crc32 GptTypes GptLib.

(** ** Header copies *)

Section CopyHeader.
Context (src dst : bytes) (Hs : length src = 512%nat) (Hd : length dst = 512%nat).

Lemma length_copy_header : length (copy_header src dst) = 512%nat.
Proof using Hs Hd. unfold copy_header, sizeof_GptHeader. rewrite length_splice; len. Qed.

Lemma slice_copy_header o n :
  (o + n <= 92)%nat -> slice o n (copy_header src dst) = slice o n src.
Proof using Hs Hd.
  intros. unfold copy_header, sizeof_GptHeader.
  rewrite slice_splice_in by len. rewrite Nat.sub_0_r. by apply slice_take.
Qed.

Lemma getn_copy_header n o :
  (o + n <= 92)%nat -> getn n o (copy_header src dst) = getn n o src.
Proof using Hs Hd. intros. unfold getn. by rewrite slice_copy_header. Qed.

(** The shape of both rebuilt headers: a copy moved to another location, checksummed. *)
Definition relocate (my alt ent : Z) : bytes :=
  let h := set_h_entries_lba ent (set_h_alternate_lba alt (set_h_my_lba my (copy_header src dst))) in
  set_h_header_crc32 (HeaderCrc h) h.
End CopyHeader.

(** Lengths of updated header buffers, and reading a field through the updates. *)
Ltac hdr_len :=
  autounfold with hdr;
  repeat lazymatch goal with
    | |- length (putn _ _ _ _) = _ => apply length_putn_eq; [|lia]
    | |- length (splice _ _ _) = _ => apply length_splice_eq; [|simpl; lia]
    | |- length (copy_header _ _) = _ => apply length_copy_header
    | |- length (replicate _ _) = _ => apply length_replicate
    | |- _ => assumption
    end.

Ltac hdr_side :=
  lazymatch goal with
  | |- context [length ?x] =>
      let H := fresh in assert (length x = 512%nat) as H by hdr_len; rewrite H; lia
  | |- _ => lia
  end.

Ltac hdr_fields :=
  autounfold with hdr;
  repeat first
    [ rewrite getn_putn_eq by hdr_side
    | rewrite getn_putn_ne by hdr_side
    | rewrite slice_putn_ne by hdr_side
    | rewrite getn_copy_header by hdr_side
    | rewrite slice_copy_header by hdr_side ].

Lemma relocate_ok src dst my alt ent :
  hdr_ok src -> hdr_ok dst -> hdr_ok (relocate src dst my alt ent).
Proof.
  intros [Hs Ls] [Hd Ld]. unfold relocate. autounfold with hdr. split.
  - repeat apply bytes_ok_putn. unfold copy_header. eauto with bytes.
  - hdr_len.
Qed.

Lemma HeaderCrc_set_crc v h :
  length h = 512%nat -> HeaderCrc (set_h_header_crc32 v h) = HeaderCrc h.
Proof.
  intros Hl. unfold HeaderCrc. f_equal; [|by hdr_fields].
  unfold set_h_header_crc32. apply putn_putn_same. lia.
Qed.

Lemma HeaderCrc_u32 h : bytes_ok h -> 0 <= HeaderCrc h < 2 ^ 32.
Proof. intros. apply Crc32_u32. unfold set_h_header_crc32. eauto with bytes. Qed.

Lemma checksummed h : hdr_ok h ->
  HeaderCrc (set_h_header_crc32 (HeaderCrc h) h) = h_header_crc32 (set_h_header_crc32 (HeaderCrc h) h).
Proof.
  intros [Hok Hl]. rewrite HeaderCrc_set_crc by done. hdr_fields.
  symmetry. apply Z.mod_small. apply HeaderCrc_u32, Hok.
Qed.

Lemma HeaderFieldsSame_0 h1 h2 :
  HeaderFieldsSame h1 h2 = 0 <->
  h_signature h1 = h_signature h2 /\ h_revision h1 = h_revision h2 /\ h_size h1 = h_size h2 /\
  h_reserved_zero h1 = h_reserved_zero h2 /\ h_first_usable_lba h1 = h_first_usable_lba h2 /\
  h_last_usable_lba h1 = h_last_usable_lba h2 /\ h_disk_uuid h1 = h_disk_uuid h2 /\
  h_number_of_entries h1 = h_number_of_entries h2 /\ h_size_of_entry h1 = h_size_of_entry h2 /\
  h_entries_crc32 h1 = h_entries_crc32 h2.
Proof.
  unfold HeaderFieldsSame. rewrite !guard_0 by done. unfold h_disk_uuid.
  rewrite !negb_false_iff, memeq_guid, memeq_spec. unfold h_signature at 1 2.
  rewrite !take_ge by len. fold (h_signature h1) (h_signature h2). bprop. tauto.
Qed.

Lemma relocate_same src dst my alt ent :
  hdr_ok src -> hdr_ok dst -> HeaderFieldsSame src (relocate src dst my alt ent) = 0.
Proof.
  intros [_ Ls] [_ Ld]. apply HeaderFieldsSame_0. unfold relocate.
  repeat split; by hdr_fields.
Qed.

Lemma relocate_valid src dst my alt ent sec sec' ds :
  hdr_ok src -> hdr_ok dst -> 67 <= ds < 2 ^ 64 -> header_valid src sec ds ->
  my = (if sec' : bool then ds - 1 else 1) -> ent = (if sec' then ds - 33 else 2) ->
  header_valid (relocate src dst my alt ent) sec' ds.
Proof.
  intros Hs Hd Hds Hv -> ->.
  pose proof (relocate_same src dst (if sec' then ds - 1 else 1) alt (if sec' then ds - 33 else 2) Hs Hd)
    as Hsame.
  rewrite HeaderFieldsSame_0 in Hsame.
  destruct Hsame as (E1 & E2 & E3 & E4 & E5 & E6 & E7 & E8 & E9 & E10).
  destruct Hv, Hs as [Os Ls], Hd as [Od Ld].
  split; try congruence; try lia.
  - apply checksummed. split; [|hdr_len].
    autounfold with hdr. unfold copy_header. eauto 12 with bytes.
  - unfold relocate. hdr_fields. apply Z.mod_small. destruct sec'; lia.
  - unfold relocate. hdr_fields. apply Z.mod_small. destruct sec'; lia.
Qed.

Lemma rebuild_header2_relocate ds h1 h2 :
  hdr_ok h1 -> hdr_ok h2 -> 67 <= ds < 2 ^ 64 ->
  rebuild_header2 ds h1 h2 = relocate h1 h2 (ds - 1) 1 (ds - 33).
Proof.
  intros [_ L1] [_ L2] Hds. unfold rebuild_header2, relocate. rewrite (u64_small (ds - 1)) by lia.
  replace (u64 _) with (ds - 33); [done|].
  hdr_fields. unfold GPT_ENTRIES_SECTORS. change (8 * Z.of_nat 8) with 64.
  rewrite Z.mod_small by lia. rewrite u64_small; lia.
Qed.

Lemma rebuild_header1_relocate ds h2 h1 :
  hdr_ok h1 -> hdr_ok h2 -> 67 <= ds < 2 ^ 64 ->
  rebuild_header1 ds h2 h1 = relocate h2 h1 1 (ds - 1) 2.
Proof.
  intros [_ L1] [_ L2] Hds. unfold rebuild_header1, relocate. rewrite (u64_small (ds - 1)) by lia.
  replace (u64 _) with 2; [done|].
  hdr_fields. reflexivity.
Qed.

Lemma entries_valid_same t h1 h2 :
  HeaderFieldsSame h1 h2 = 0 -> entries_valid t h1 <-> entries_valid t h2.
Proof.
  rewrite HeaderFieldsSame_0. intros (_ & _ & _ & _ & E1 & E2 & _ & E3 & E4 & E5).
  split; intros []; split; rewrite ?E1, ?E2, ?E3, ?E4, ?E5 in *;
    rewrite <-?E1, <-?E2, <-?E3, <-?E4, <-?E5 in *; auto.
Qed.

Lemma HeaderFieldsSame_sym h1 h2 : HeaderFieldsSame h1 h2 = 0 -> HeaderFieldsSame h2 h1 = 0.
Proof. rewrite !HeaderFieldsSame_0. intuition congruence. Qed.

Lemma HeaderFieldsSame_trans h1 h2 h3 :
  HeaderFieldsSame h1 h2 = 0 -> HeaderFieldsSame h2 h3 = 0 -> HeaderFieldsSame h1 h3 = 0.
Proof. rewrite !HeaderFieldsSame_0. intuition congruence. Qed.

(** ** What [GptSanityCheck] establishes *)

(** The header the entry tables were checked against. *)
Definition trusted_header (g : GptData) : bytes :=
  if Z.testbit (valid_headers g) 0 then primary_header g else secondary_header g.

Definition mask_ok (m : Z) : Prop := m = 1 \/ m = 2 \/ m = 3.

Record sane (g : GptData) : Prop := {
  sn_sector : sector_bytes g = 512;
  sn_drive : 67 <= drive_sectors g;
  sn_headers : mask_ok (valid_headers g);
  sn_entries : mask_ok (valid_entries g);
  sn_h1 : Z.testbit (valid_headers g) 0 = true ->
    header_valid (primary_header g) false (drive_sectors g);
  sn_h2 : Z.testbit (valid_headers g) 1 = true ->
    header_valid (secondary_header g) true (drive_sectors g);
  sn_same : valid_headers g = MASK_BOTH ->
    HeaderFieldsSame (primary_header g) (secondary_header g) = 0;
  sn_e1 : Z.testbit (valid_entries g) 0 = true <-> entries_valid (primary_entries g) (trusted_header g);
  sn_e2 : Z.testbit (valid_entries g) 1 = true <-> entries_valid (secondary_entries g) (trusted_header g);
}.

Lemma CheckParameters_0 g :
  CheckParameters g = GPT_SUCCESS <-> sector_bytes g = 512 /\ 67 <= drive_sectors g.
Proof.
  unfold CheckParameters, GPT_SUCCESS, GPT_ENTRIES_SECTORS.
  rewrite !guard_0 by done. bprop. lia.
Qed.

(** Closes the cases of a mask computation once every check is decided. *)
Ltac mask_cases :=
  first
    [ done
    | by left
    | right; mask_cases
    | congruence
    | intros; congruence
    | split; intros; first [done | congruence | lia] ].

(** The masks of two independent checks. *)
Lemma mask_if_bits c1 c2 :
  let m := mask_if c2 MASK_SECONDARY (mask_if c1 MASK_PRIMARY 0) in
  (Z.testbit m 0 = true <-> c1 = 0) /\ (Z.testbit m 1 = true <-> c2 = 0) /\
  (m = 0 \/ mask_ok m) /\ (m = 0 <-> c1 <> 0 /\ c2 <> 0) /\ (m = 3 <-> c1 = 0 /\ c2 = 0).
Proof.
  unfold mask_if, mask_ok, MASK_PRIMARY, MASK_SECONDARY.
  destruct (Z.eqb_spec c1 0), (Z.eqb_spec c2 0); simpl;
    split_and!; mask_cases.
Qed.

Definition same_buffers (g g' : GptData) : Prop :=
  exists vh ve, g' = set_valid_entries ve (set_valid_headers vh g).

(** The mask logic of [GptSanityCheck], given the outcome of every check it may make:
    [p] for the parameters, [c1], [c2] for the headers, [a1], [a2] for the tables against the
    first good header, [b1], [b2] for the tables against the secondary header, [f] for the
    comparison of the headers. *)
Definition sanity_masks (p c1 c2 a1 a2 b1 b2 f : Z) : Z * Z * Z :=
  if negb (p =? GPT_SUCCESS) then (p, 0, 0) else
  let vh := mask_if c2 MASK_SECONDARY (mask_if c1 MASK_PRIMARY 0) in
  if vh =? 0 then (GPT_ERROR_INVALID_HEADERS, vh, 0) else
  let ve := mask_if a2 MASK_SECONDARY (mask_if a1 MASK_PRIMARY 0) in
  let retry := (MASK_BOTH =? vh) && (ve =? 0) in
  let ve := if retry then mask_if b2 MASK_SECONDARY (mask_if b1 MASK_PRIMARY ve) else ve in
  let vh := if retry && truthy ve then Z.ldiff vh MASK_PRIMARY else vh in
  if ve =? 0 then (GPT_ERROR_INVALID_ENTRIES, vh, ve) else
  (GPT_SUCCESS, if (MASK_BOTH =? vh) && negb (f =? 0) then Z.ldiff vh MASK_SECONDARY else vh, ve).

Lemma GptSanityCheck_masks g :
  let h1 := primary_header g in
  let h2 := secondary_header g in
  let c1 := CheckHeader h1 false (drive_sectors g) in
  let good := if c1 =? 0 then h1 else h2 in
  let '(r, vh, ve) := sanity_masks (CheckParameters g) c1
    (CheckHeader h2 true (drive_sectors g))
    (CheckEntries (primary_entries g) good) (CheckEntries (secondary_entries g) good)
    (CheckEntries (primary_entries g) h2) (CheckEntries (secondary_entries g) h2)
    (HeaderFieldsSame h1 h2) in
  GptSanityCheck g = (r, set_valid_entries ve (set_valid_headers vh g)).
Proof.
  cbv zeta. unfold sanity_masks, GptSanityCheck, mask_if.
  change (CheckParameters (set_valid_entries 0 (set_valid_headers 0 g))) with (CheckParameters g).
  cbn [primary_header secondary_header primary_entries secondary_entries drive_sectors
       set_valid_entries set_valid_headers].
  destruct (Z.eqb_spec (CheckParameters g) GPT_SUCCESS) as [->|]; [|done].
  set (c1 := CheckHeader (primary_header g) _ _).
  set (c2 := CheckHeader (secondary_header g) _ _).
  generalize (HeaderFieldsSame (primary_header g) (secondary_header g)). intros f.
  generalize (CheckEntries (primary_entries g) (secondary_header g)). intros b1.
  generalize (CheckEntries (secondary_entries g) (secondary_header g)). intros b2.
  generalize (CheckEntries (primary_entries g) (if c1 =? 0 then primary_header g else secondary_header g)).
  intros a1.
  generalize (CheckEntries (secondary_entries g) (if c1 =? 0 then primary_header g else secondary_header g)).
  intros a2. clearbody c1 c2.
  destruct (c1 =? 0), (c2 =? 0), (a1 =? 0), (a2 =? 0), (b1 =? 0), (b2 =? 0), (f =? 0); reflexivity.
Qed.

Lemma sanity_masks_success p c1 c2 a1 a2 b1 b2 f vh ve :
  sanity_masks p c1 c2 a1 a2 b1 b2 f = (GPT_SUCCESS, vh, ve) ->
  p = GPT_SUCCESS /\ mask_ok vh /\ mask_ok ve /\
  (Z.testbit vh 0 = true -> c1 = 0) /\ (Z.testbit vh 1 = true -> c2 = 0) /\
  (vh = MASK_BOTH -> f = 0) /\
  (if Z.testbit vh 0 || negb (c1 =? 0)
   then (Z.testbit ve 0 = true <-> a1 = 0) /\ (Z.testbit ve 1 = true <-> a2 = 0)
   else (Z.testbit ve 0 = true <-> b1 = 0) /\ (Z.testbit ve 1 = true <-> b2 = 0)).
Proof.
  unfold sanity_masks, mask_if.
  destruct (Z.eqb_spec p GPT_SUCCESS) as [Hp|]; [|simpl; congruence].
  destruct (Z.eqb_spec c1 0), (Z.eqb_spec c2 0), (Z.eqb_spec a1 0), (Z.eqb_spec a2 0),
    (Z.eqb_spec b1 0), (Z.eqb_spec b2 0), (Z.eqb_spec f 0);
    intros H; vm_compute in H; try discriminate H; injection H as <- <-;
    (split; [exact Hp|]); clear Hp; vm_compute; split_and!; mask_cases.
Qed.

Lemma GptSanityCheck_sane g g' :
  gpt_ok g -> GptSanityCheck g = (GPT_SUCCESS, g') -> sane g' /\ same_buffers g g'.
Proof.
  intros Hg H. pose proof (GptSanityCheck_masks g) as E. cbv zeta in E.
  destruct (sanity_masks _ _ _ _ _ _ _ _) as [[r vh] ve] eqn:Em.
  rewrite E in H. injection H as -> <-.
  apply sanity_masks_success in Em as (Hp & M1 & M2 & A1 & A2 & A3 & A4).
  apply CheckParameters_0 in Hp as [Hs Hd]. destruct Hg.
  split; [|by eexists _, _].
  rewrite CheckHeader_valid in A2 by (done || lia).
  assert (A4' : (Z.testbit ve 0 = true <->
      entries_valid (primary_entries g) (if Z.testbit vh 0 then primary_header g else secondary_header g)) /\
    (Z.testbit ve 1 = true <->
      entries_valid (secondary_entries g) (if Z.testbit vh 0 then primary_header g else secondary_header g))).
  { rewrite <-!CheckEntries_0. destruct (Z.testbit vh 0).
    - rewrite A1 in A4 by done. exact A4.
    - destruct (Z.eqb_spec (CheckHeader (primary_header g) false (drive_sectors g)) 0); exact A4. }
  rewrite CheckHeader_valid in A1 by (done || lia).
  destruct A4' as [A5 A6]. by constructor.
Qed.

(** Two valid, matching copies are accepted as such. *)
Lemma GptSanityCheck_both g :
  gpt_ok g -> sector_bytes g = 512 -> 67 <= drive_sectors g ->
  header_valid (primary_header g) false (drive_sectors g) ->
  header_valid (secondary_header g) true (drive_sectors g) ->
  HeaderFieldsSame (primary_header g) (secondary_header g) = 0 ->
  entries_valid (primary_entries g) (primary_header g) ->
  entries_valid (secondary_entries g) (primary_header g) ->
  GptSanityCheck g = (GPT_SUCCESS, set_valid_entries MASK_BOTH (set_valid_headers MASK_BOTH g)).
Proof.
  intros Hg Hs Hd H1 H2 Hf He1 He2. destruct Hg.
  rewrite <-CheckHeader_valid in H1, H2 by (done || lia).
  rewrite <-CheckEntries_0 in He1, He2.
  pose proof (GptSanityCheck_masks g) as E. cbv zeta in E.
  rewrite (proj2 (CheckParameters_0 _)), H1, H2, Hf in E by done.
  change (0 =? 0) with true in E. cbv iota in E. rewrite He1, He2 in E. exact E.
Qed.

(** ** Repair *)

Lemma entries_size_ok h sec ds : header_valid h sec ds ->
  Z.to_nat (s32 (h_size_of_entry h * h_number_of_entries h)) = table_len.
Proof.
  intros H. rewrite (hv_size_of_entry _ _ _ H), (hv_number _ _ _ H). apply Nat2Z.inj.
  by rewrite table_len_Z.
Qed.

(** The headers after the first half of [GptRepair]. *)
Definition repaired_headers (g : GptData) : bytes * bytes :=
  let h1 := primary_header g in
  let h2 := secondary_header g in
  if MASK_PRIMARY =? valid_headers g then (h1, rebuild_header2 (drive_sectors g) h1 h2)
  else if MASK_SECONDARY =? valid_headers g then (rebuild_header1 (drive_sectors g) h2 h1, h2)
  else (h1, h2).

Lemma repaired_headers_ok g : gpt_ok g -> sane g ->
  let '(h1, h2) := repaired_headers g in
  hdr_ok h1 /\ hdr_ok h2 /\ header_valid h1 false (drive_sectors g) /\
  header_valid h2 true (drive_sectors g) /\ HeaderFieldsSame h1 h2 = 0 /\
  HeaderFieldsSame (trusted_header g) h1 = 0.
Proof.
  intros [? ? ? ? ? ?] [? ? Hm ? ? ? ? ? ?]. unfold repaired_headers, trusted_header.
  assert (Hrefl : forall h, HeaderFieldsSame h h = 0) by (intros; rewrite HeaderFieldsSame_0; done).
  destruct Hm as [E|[E|E]]; rewrite E in *; simpl.
  - rewrite rebuild_header2_relocate by (done || lia).
    split_and!; auto using relocate_ok, relocate_same.
    apply (relocate_valid _ _ _ _ _ false true); auto; lia.
  - rewrite rebuild_header1_relocate by (done || lia).
    split_and!; auto using relocate_ok, relocate_same, HeaderFieldsSame_sym.
    apply (relocate_valid _ _ _ _ _ true false); auto; lia.
  - split_and!; auto.
Qed.


Lemma copy_table a b : tbl_ok a -> tbl_ok b -> splice 0 (take table_len a) b = a.
Proof.
  intros [_ La] [_ Lb]. pose proof table_len_Z. unfold TOTAL_ENTRIES_SIZE in *.
  rewrite take_ge by lia. apply splice_all. lia.
Qed.

(** The tables after [GptRepair]. *)
Definition repaired_entries (g : GptData) : bytes * bytes :=
  if MASK_PRIMARY =? valid_entries g then (primary_entries g, primary_entries g)
  else if MASK_SECONDARY =? valid_entries g then (secondary_entries g, secondary_entries g)
  else (primary_entries g, secondary_entries g).

Definition repaired_modified (g : GptData) : Z :=
  let m := modified g in
  let m := if MASK_PRIMARY =? valid_headers g then Z.lor m GPT_MODIFIED_HEADER2
           else if MASK_SECONDARY =? valid_headers g then Z.lor m GPT_MODIFIED_HEADER1 else m in
  if MASK_PRIMARY =? valid_entries g then Z.lor m GPT_MODIFIED_ENTRIES2
  else if MASK_SECONDARY =? valid_entries g then Z.lor m GPT_MODIFIED_ENTRIES1 else m.

(** [GptRepair] on a table that passed the check, in one equation. *)
Lemma GptRepair_eq g : gpt_ok g -> sane g ->
  GptRepair g = mkGptData (repaired_headers g).1 (repaired_headers g).2
    (repaired_entries g).1 (repaired_entries g).2 (sector_bytes g) (drive_sectors g)
    (repaired_modified g) (current_kernel g) MASK_BOTH MASK_BOTH (current_priority g).
Proof.
  intros Hg Hs. pose proof (repaired_headers_ok g Hg Hs) as Hh.
  destruct (repaired_headers g) as [h1 h2] eqn:Eh. destruct Hh as (_ & _ & Hv & _).
  pose proof (entries_size_ok _ _ _ Hv) as Hsz.
  destruct Hg as [_ _ T1 T2 _ _], Hs as [_ _ M1 M2 _ _ _ _ _].
  revert Eh. unfold repaired_headers, repaired_entries, repaired_modified, GptRepair.
  destruct M1 as [E1|[E1|E1]], M2 as [E2|[E2|E2]]; rewrite E1, E2; simpl; intros [= <- <-];
    rewrite ?E2; simpl; rewrite ?Hsz, ?copy_table by done; reflexivity.
Qed.

Lemma same_buffers_ok g g' : same_buffers g g' -> gpt_ok g -> gpt_ok g'.
Proof. intros (vh & ve & ->) []. by split. Qed.

Lemma repaired_entries_ok g : gpt_ok g -> sane g ->
  let '(t1, t2) := repaired_entries g in
  tbl_ok t1 /\ tbl_ok t2 /\
  entries_valid t1 (trusted_header g) /\ entries_valid t2 (trusted_header g).
Proof.
  intros [_ _ ? ? _ _] [_ _ _ M _ _ _ E1 E2]. unfold repaired_entries.
  destruct M as [E|[E|E]]; rewrite E in *; simpl in *; split_and!; tauto.
Qed.

Lemma repaired_modified_ok g : gpt_ok g -> 0 <= repaired_modified g < 256.
Proof.
  intros []. unfold repaired_modified.
  repeat case_match; repeat apply (lor_bound 8); done.
Qed.

Lemma GptRepair_ok g : gpt_ok g -> sane g -> gpt_ok (GptRepair g).
Proof.
  intros Hg Hs. rewrite GptRepair_eq by done.
  pose proof (repaired_headers_ok g Hg Hs). pose proof (repaired_entries_ok g Hg Hs).
  pose proof (repaired_modified_ok g Hg).
  destruct (repaired_headers g), (repaired_entries g), Hg. by constructor; try tauto.
Qed.

Lemma GptRepair_check g : gpt_ok g -> sane g ->
  GptSanityCheck (GptRepair g) = (GPT_SUCCESS, GptRepair g).
Proof.
  intros Hg Hs. pose proof (GptRepair_ok g Hg Hs) as Hok. revert Hok.
  rewrite GptRepair_eq by done.
  pose proof (repaired_headers_ok g Hg Hs) as Hh. pose proof (repaired_entries_ok g Hg Hs) as He.
  destruct (repaired_headers g) as [h1 h2], (repaired_entries g) as [t1 t2].
  destruct Hh as (_ & _ & V1 & V2 & S & T), He as (_ & _ & W1 & W2).
  rewrite (entries_valid_same t1 _ _ T) in W1. rewrite (entries_valid_same t2 _ _ T) in W2.
  intros Hok. destruct Hs. by rewrite GptSanityCheck_both.
Qed.

Lemma trusted_header_valid g : sane g ->
  exists sec, header_valid (trusted_header g) sec (drive_sectors g).
Proof.
  intros [_ _ M _ ? ? _ _ _]. unfold trusted_header.
  destruct M as [E|[E|E]]; rewrite E in *; eexists; eauto.
Qed.

(** ** Main theorems *)

(** C5: whenever [GptSanityCheck] accepts a partition table, however damaged one of the copies
    is, [GptRepair] leaves a table whose two headers and two entry arrays are all valid and
    consistent: checking it again succeeds, changes nothing, and reports both copies usable. *)
Theorem GptRepair_restores_both_copies g g' :
  gpt_ok g -> GptSanityCheck g = (GPT_SUCCESS, g') ->
  let r := GptRepair g' in
  GptSanityCheck r = (GPT_SUCCESS, r) /\ valid_headers r = MASK_BOTH /\
  valid_entries r = MASK_BOTH /\ gpt_ok r.
Proof.
  intros Hg H. apply GptSanityCheck_sane in H as [Hs Hb]; [|done].
  pose proof (same_buffers_ok _ _ Hb Hg) as Hg'. cbv zeta. split_and!.
  - by apply GptRepair_check.
  - by rewrite GptRepair_eq.
  - by rewrite GptRepair_eq.
  - by apply GptRepair_ok.
Qed.

(** repair never invents partitions: what it leaves in both copies is the header content and
    the entry array that the check accepted; a copy that was valid is not touched, and a table
    whose two copies were valid is not modified at all. *)
Theorem GptRepair_preserves_valid_copies g g' :
  gpt_ok g -> GptSanityCheck g = (GPT_SUCCESS, g') ->
  let r := GptRepair g' in
  HeaderFieldsSame (trusted_header g') (primary_header r) = 0 /\
  HeaderFieldsSame (trusted_header g') (secondary_header r) = 0 /\
  (Z.testbit (valid_headers g') 0 = true -> primary_header r = primary_header g) /\
  (Z.testbit (valid_headers g') 1 = true -> secondary_header r = secondary_header g) /\
  (Z.testbit (valid_entries g') 0 = true -> primary_entries r = primary_entries g) /\
  (Z.testbit (valid_entries g') 1 = true -> secondary_entries r = secondary_entries g) /\
  (Z.testbit (valid_entries g') 0 = false -> primary_entries r = secondary_entries g) /\
  (Z.testbit (valid_entries g') 1 = false -> secondary_entries r = primary_entries g) /\
  (valid_headers g' = MASK_BOTH -> valid_entries g' = MASK_BOTH -> r = g').
Proof.
  intros Hg H. apply GptSanityCheck_sane in H as [Hs Hb]; [|done].
  pose proof (same_buffers_ok _ _ Hb Hg) as Hg'. cbv zeta.
  pose proof (repaired_headers_ok g' Hg' Hs) as Hh. rewrite GptRepair_eq by done.
  destruct Hs as [_ _ M1 M2 _ _ _ _ _], Hb as (vh & ve & ->).
  destruct (repaired_headers _) as [h1 h2] eqn:Eh. destruct Hh as (_ & _ & _ & _ & S & T).
  split; [exact T|]. split; [exact (HeaderFieldsSame_trans _ _ _ T S)|]. clear S T.
  revert Eh. unfold repaired_headers, repaired_entries, repaired_modified. simpl in *.
  destruct M1 as [->|[->| ->]], M2 as [->|[->| ->]]; intros [= <- <-]; split_and!; done.
Qed.

(** The code returned is success exactly when some good header has a good table. *)
Lemma sanity_masks_accepts p c1 c2 a1 a2 b1 b2 f :
  (sanity_masks p c1 c2 a1 a2 b1 b2 f).1.1 = GPT_SUCCESS <->
  p = GPT_SUCCESS /\
  (if c1 =? 0 then (a1 = 0 \/ a2 = 0) \/ c2 = 0 /\ (b1 = 0 \/ b2 = 0)
   else c2 = 0 /\ (a1 = 0 \/ a2 = 0)).
Proof.
  unfold sanity_masks, mask_if.
  destruct (Z.eqb_spec p GPT_SUCCESS) as [Hp|]; [|simpl; tauto].
  destruct (Z.eqb_spec c1 0), (Z.eqb_spec c2 0), (Z.eqb_spec a1 0), (Z.eqb_spec a2 0),
    (Z.eqb_spec b1 0), (Z.eqb_spec b2 0); simpl; unfold GPT_SUCCESS, GPT_ERROR_INVALID_ENTRIES,
    GPT_ERROR_INVALID_HEADERS; split; intros; try tauto; try lia.
Qed.

Lemma good_copy_cases (E : bytes -> bytes -> Prop) (V1 V2 : bytes -> Prop) h1 h2 t1 t2 :
  (exists h t, (h = h1 /\ V1 h \/ h = h2 /\ V2 h) /\ (t = t1 \/ t = t2) /\ E t h) <->
  V1 h1 /\ (E t1 h1 \/ E t2 h1) \/ V2 h2 /\ (E t1 h2 \/ E t2 h2).
Proof.
  split.
  - intros (h & t & [[-> ?]|[-> ?]] & [-> | ->] & ?); tauto.
  - intros [[? [?|?]]|[? [?|?]]];
      [exists h1, t1|exists h1, t2|exists h2, t1|exists h2, t2]; auto.
Qed.

(** C16: the acceptance criterion of [GptSanityCheck], exactly: sectors are 512 bytes, the drive
    can hold both copies, and one of the two headers is valid at its place and describes one of
    the two entry arrays, which is valid against it. *)
Theorem GptSanityCheck_accepts_iff g :
  gpt_ok g ->
  (GptSanityCheck g).1 = GPT_SUCCESS <->
  sector_bytes g = 512 /\ 67 <= drive_sectors g /\
  exists h t,
    (h = primary_header g /\ header_valid h false (drive_sectors g) \/
     h = secondary_header g /\ header_valid h true (drive_sectors g)) /\
    (t = primary_entries g \/ t = secondary_entries g) /\
    entries_valid t h.
Proof.
  intros Hg. pose proof (GptSanityCheck_masks g) as E. cbv zeta in E.
  destruct (sanity_masks _ _ _ _ _ _ _ _) as [[r vh] ve] eqn:Em.
  rewrite E. simpl. change r with (r, vh, ve).1.1. rewrite <-Em, sanity_masks_accepts. clear E Em.
  rewrite CheckParameters_0. destruct Hg.
  assert (H : forall P Q, (67 <= drive_sectors g -> P <-> Q) ->
    (sector_bytes g = 512 /\ 67 <= drive_sectors g) /\ P <->
    sector_bytes g = 512 /\ 67 <= drive_sectors g /\ Q) by tauto.
  apply H. clear H. intros Hd.
  rewrite good_copy_cases, <-!CheckHeader_valid by (done || lia).
  destruct (Z.eqb_spec (CheckHeader (primary_header g) false (drive_sectors g)) 0) as [E1|E1].
  - rewrite !CheckEntries_0. rewrite E1. clear. intuition.
  - rewrite !CheckEntries_0. split; [by right|]. by intros [[? _]|].
Qed.

(** C17: every partition of a table that the check reports valid lies inside the usable region,
    which stays clear of the protective MBR and of both GPT copies, no sector belongs to two
    partitions, and no two partitions share an identifier. *)
Theorem accepted_partitions_disjoint g g' t :
  gpt_ok g -> GptSanityCheck g = (GPT_SUCCESS, g') ->
  (t = primary_entries g' /\ Z.testbit (valid_entries g') 0 = true \/
   t = secondary_entries g' /\ Z.testbit (valid_entries g') 1 = true) ->
  forall i j, (i < 128)%nat -> (j < 128)%nat -> used t i -> used t j ->
  34 <= e_start t i <= e_end t i /\ e_end t i < drive_sectors g - 33 /\
  (forall lba, e_start t i <= lba <= e_end t i -> e_start t j <= lba <= e_end t j -> i = j) /\
  (e_guid t i = e_guid t j -> i = j).
Proof.
  intros Hg H Ht i j Hi Hj Ui Uj. apply GptSanityCheck_sane in H as [Hs Hb]; [|done].
  destruct (trusted_header_valid g' Hs) as [sec Hv].
  destruct Hb as (vh & ve & ->). destruct Hs as [_ _ _ _ _ _ _ E1 E2].
  assert (entries_valid t (trusted_header (set_valid_entries ve (set_valid_headers vh g)))) as [_ R D U].
  { destruct Ht as [[-> ?]|[-> ?]]; tauto. }
  clear Ht. rewrite (hv_number _ _ _ Hv) in *.
  pose proof (hv_first _ _ _ Hv). pose proof (hv_last _ _ _ Hv). simpl in *.
  specialize (D i j ltac:(lia) ltac:(lia)). specialize (U i j ltac:(lia) ltac:(lia)).
  pose proof (R i ltac:(lia) Ui). split_and!; [lia..| |].
  - intros lba ? ?. destruct (decide (i = j)) as [|Hne]; [done|].
    specialize (D Hne Ui Uj). lia.
  - intros ?. destruct (decide (i = j)) as [|Hne]; [done|]. by specialize (U Hne Ui Uj).
Qed.
