(* ===== verification/GptSample.v ===== *)
(** * A concrete partition table

    A drive of 2048 sectors with two partitions, whose secondary header has been wiped: the
    input of the witnesses about checking, repairing and updating partition tables. *)

From stdpp Require Import base list numbers strings.
From Stdlib Require Import ZArith Lia.
From S2P Require Import Prelude Crc32 GptTypes GptLib GptSanity.

(** One entry: type, identifier, first and last sector, attributes 0, empty name. *)
Definition sample_entry (type guid : Guid) (first last : Z) : bytes :=
  type ++ guid ++ le_enc 8 first ++ le_enc 8 last ++ replicate 80 0.

Definition sample_table : bytes :=
  sample_entry GPT_ENT_TYPE_LINUX_DATA (replicate 16 1) 64 127 ++
  sample_entry GPT_ENT_TYPE_CHROMEOS_KERNEL (replicate 16 2) 128 255 ++
  replicate (Z.to_nat (16384 - 256)) 0.

Definition sample_header0 : bytes :=
  set_h_entries_crc32 (Crc32 sample_table TOTAL_ENTRIES_SIZE)
    (set_h_size_of_entry 128 (set_h_number_of_entries 128 (set_h_entries_lba 2
      (set_h_last_usable_lba 2014 (set_h_first_usable_lba 34 (set_h_alternate_lba 2047
        (set_h_my_lba 1 (set_h_size 92 (set_h_revision GPT_HEADER_REVISION
          (set_h_signature GPT_HEADER_SIGNATURE2 (replicate 512 0))))))))))).

Definition sample_header : bytes := set_h_header_crc32 (HeaderCrc sample_header0) sample_header0.

Definition sample_gpt : GptData :=
  mkGptData sample_header (replicate 512 0) sample_table sample_table 512 2048 0 0 0 0 0.

Lemma sample_table_ok : tbl_ok sample_table.
Proof. split; [apply bytes_okb_ok; vm_compute; reflexivity|vm_compute; reflexivity]. Qed.

Lemma sample_header0_ok : hdr_ok sample_header0.
Proof.
  unfold sample_header0. autounfold with hdr. split; [|hdr_len; reflexivity].
  repeat apply bytes_ok_putn. apply bytes_ok_splice; [|apply bytes_ok_zeros].
  by apply bytes_okb_ok.
Qed.

Lemma sample_header_ok : hdr_ok sample_header.
Proof.
  pose proof sample_header0_ok as [? ?]. unfold sample_header. split.
  - unfold set_h_header_crc32. eauto with bytes.
  - by apply length_putn_eq; [|lia].
Qed.

Lemma sample_gpt_ok : gpt_ok sample_gpt.
Proof.
  split.
  - exact sample_header_ok.
  - split; [apply bytes_ok_zeros|apply length_replicate].
  - exact sample_table_ok.
  - exact sample_table_ok.
  - cbn. lia.
  - cbn. lia.
Qed.

(** [IsUnusedEntry] by entry number. *)
Definition IsUnusedEntry_at (t : bytes) (i : nat) : bool := IsUnusedEntry (entry_off i) t.

Lemma sample_header_valid : header_valid sample_header false 2048.
Proof.
  pose proof (checksummed _ sample_header0_ok) as Hc. fold sample_header in Hc.
  split; [..|exact Hc| | | | | | | |]; clear Hc; unfold sample_header;
    generalize (HeaderCrc sample_header0); intros c; unfold sample_header0;
    generalize (Crc32 sample_table TOTAL_ENTRIES_SIZE); intros d; hdr_fields; try (reflexivity || lia).
  right. rewrite slice_splice_in by (rewrite ?length_replicate; simpl; lia). reflexivity.
Qed.

(** Every entry past the second is unused, the first two are in range and disjoint. *)
Lemma sample_used i : used sample_table i -> (i < 128)%nat -> i = 0%nat \/ i = 1%nat.
Proof.
  intros Hu Hi.
  assert (forallb (IsUnusedEntry_at sample_table) (seq 2 126) = true) as H by (vm_compute; reflexivity).
  destruct i as [|[|i]]; [by left|by right|]. exfalso.
  rewrite forallb_forall in H. specialize (H (S (S i)) ltac:(apply list_elem_of_In, elem_of_seq; lia)).
  unfold used in Hu. unfold IsUnusedEntry_at in H. congruence.
Qed.

Lemma sample_entries_valid : entries_valid sample_table sample_header.
Proof.
  assert (Hn : h_number_of_entries sample_header = 128) by exact (hv_number _ _ _ sample_header_valid).
  assert (Hf : h_first_usable_lba sample_header = 34 /\ h_last_usable_lba sample_header = 2014).
  { unfold sample_header; generalize (HeaderCrc sample_header0); intros c; unfold sample_header0;
    generalize (Crc32 sample_table TOTAL_ENTRIES_SIZE); intros d; split; hdr_fields; reflexivity. }
  destruct Hf as [Hf Hl]. split; rewrite ?Hn, ?Hf, ?Hl.
  - rewrite (hv_size_of_entry _ _ _ sample_header_valid). change (u32 (128 * 128)) with TOTAL_ENTRIES_SIZE.
    pose proof (Crc32_u32 sample_table TOTAL_ENTRIES_SIZE (proj1 sample_table_ok)) as Hc.
    unfold sample_header; generalize (HeaderCrc sample_header0); intros c; unfold sample_header0.
    revert Hc. generalize (Crc32 sample_table TOTAL_ENTRIES_SIZE); intros d Hc. hdr_fields.
    symmetry. by apply Z.mod_small.
  - intros i Hi Hu. destruct (sample_used i Hu ltac:(lia)) as [-> | ->]; vm_compute; repeat split; discriminate.
  - intros i j Hi Hj Hne Hu Hv.
    destruct (sample_used i Hu ltac:(lia)) as [-> | ->], (sample_used j Hv ltac:(lia)) as [-> | ->];
      [done|left; vm_compute; reflexivity|right; vm_compute; reflexivity|done].
  - intros i j Hi Hj Hne Hu Hv.
    destruct (sample_used i Hu ltac:(lia)) as [-> | ->], (sample_used j Hv ltac:(lia)) as [-> | ->];
      [done|vm_compute; discriminate..|done].
Qed.

(** The checked table: the secondary header is rejected, both tables are good. *)
Definition sample_checked : GptData := set_valid_entries 3 (set_valid_headers 1 sample_gpt).

Lemma sample_check : GptSanityCheck sample_gpt = (GPT_SUCCESS, sample_checked).
Proof.
  assert (H1 : CheckHeader sample_header false 2048 = 0).
  { apply CheckHeader_valid; [exact sample_header_ok|lia|exact sample_header_valid]. }
  assert (H2 : CheckEntries sample_table sample_header = 0).
  { apply CheckEntries_0. exact sample_entries_valid. }
  pose proof (GptSanityCheck_masks sample_gpt) as E. cbv zeta in E.
  change (primary_header sample_gpt) with sample_header in E.
  change (drive_sectors sample_gpt) with 2048 in E.
  change (primary_entries sample_gpt) with sample_table in E.
  change (secondary_entries sample_gpt) with sample_table in E.
  change (secondary_header sample_gpt) with (replicate 512%nat 0) in E.
  rewrite H1 in E. change (0 =? 0) with true in E. cbv iota in E. rewrite H2 in E.
  replace (CheckHeader (replicate 512 0) true 2048) with 1 in E by (vm_compute; reflexivity).
  exact E.
Qed.

(** ** The theorems about checking and repairing at work on this table *)

Lemma GptRepair_restores_both_copies_witness :
  GptSanityCheck (GptRepair sample_checked) = (GPT_SUCCESS, GptRepair sample_checked) /\
  primary_header sample_checked <> secondary_header sample_checked.
Proof.
  split.
  - exact (proj1 (GptRepair_restores_both_copies sample_gpt sample_checked sample_gpt_ok sample_check)).
  - intros H. apply (f_equal h_signature) in H. change (primary_header sample_checked) with sample_header in H.
    destruct (hv_signature _ _ _ sample_header_valid) as [E|E]; rewrite E in H; vm_compute in H; discriminate.
Defined.

Lemma GptRepair_preserves_valid_copies_witness :
  primary_header (GptRepair sample_checked) = sample_header /\
  HeaderFieldsSame sample_header (secondary_header (GptRepair sample_checked)) = 0.
Proof.
  destruct (GptRepair_preserves_valid_copies sample_gpt sample_checked sample_gpt_ok sample_check)
    as (_ & H2 & H1 & _).
  split; [exact (H1 eq_refl)|exact H2].
Defined.

Lemma GptSanityCheck_accepts_iff_witness :
  header_valid sample_header false 2048 /\ (GptSanityCheck sample_gpt).1 = GPT_SUCCESS.
Proof.
  split; [exact sample_header_valid|].
  apply (GptSanityCheck_accepts_iff sample_gpt sample_gpt_ok).
  split; [reflexivity|split; [discriminate|]]. exists sample_header, sample_table.
  split; [left; split; [reflexivity|exact sample_header_valid]|].
  split; [left; reflexivity|exact sample_entries_valid].
Defined.

Lemma accepted_partitions_disjoint_witness :
  e_start sample_table 1 = 128 /\ 34 <= e_start sample_table 1 <= e_end sample_table 1.
Proof.
  split; [vm_compute; reflexivity|].
  refine (proj1 (accepted_partitions_disjoint sample_gpt sample_checked sample_table sample_gpt_ok
    sample_check _ 1%nat 0%nat _ _ _ _)); [left; split; reflexivity|lia|lia|vm_compute; reflexivity|vm_compute; reflexivity].
Defined.
