(* ===== verification/Posix.v ===== *)
(** * The operating system the tools run on

    The system calls of the C library as operations on an explicit state: files, open
    descriptors, [errno], and a schedule that decides which calls fail or transfer less than
    asked.  Every program of the development that performs input or output is a computation of
    the monad [M] defined here; printing is not modelled. *)

From stdpp Require Import base list numbers gmap strings.
From Stdlib Require Import ZArith Lia.
From S2P Require Import Prelude.

(** ** State *)

Inductive fkind := Regular | Block (sector_size : Z) | Symlink | Other.

Record file := mkFile { f_kind : fkind; f_data : bytes }.

Record fdesc := mkFd { fd_path : string; fd_off : Z; fd_read : bool; fd_write : bool }.

(** What the schedule says about one call: it succeeds, fails with an [errno], or transfers at
    most some number of bytes. *)
Inductive fault := Fok | Ferr (errno : Z) | Fshort (n : Z).

Record world := mkWorld {
  w_files : gmap string file;
  w_fds : gmap Z fdesc;
  w_faults : list fault;
  w_errno : Z
}.

Definition set_files (v : gmap string file) (w : world) : world :=
  mkWorld v (w_fds w) (w_faults w) (w_errno w).
Definition set_fds (v : gmap Z fdesc) (w : world) : world :=
  mkWorld (w_files w) v (w_faults w) (w_errno w).
Definition set_faults (v : list fault) (w : world) : world :=
  mkWorld (w_files w) (w_fds w) v (w_errno w).
Definition set_errno (v : Z) (w : world) : world :=
  mkWorld (w_files w) (w_fds w) (w_faults w) v.

(** ** Computations

    A computation returns, exits the process, or performs an operation whose behaviour C leaves
    undefined (dividing by zero, calling a null function pointer). *)

Inductive outcome (A : Type) := Ret (a : A) | Exit (code : Z) | Undefined.
Arguments Ret {A} a.
Arguments Exit {A} code.
Arguments Undefined {A}.

Definition M (A : Type) : Type := world -> outcome A * world.

Definition ret {A} (a : A) : M A := fun w => (Ret a, w).
Definition exit {A} (code : Z) : M A := fun w => (Exit code, w).
Definition undefined {A} : M A := fun w => (Undefined, w).
Definition bind {A B} (m : M A) (k : A -> M B) : M B := fun w =>
  match m w with
  | (Ret a, w') => k a w'
  | (Exit c, w') => (Exit c, w')
  | (Undefined, w') => (Undefined, w')
  end.

Declare Scope prog_scope.
Delimit Scope prog_scope with prog.
Notation "'let!' x ':=' m 'in' k" := (bind m (fun x => k))
  (at level 10, x pattern, m at level 99, k at level 200) : prog_scope.
Notation "m ';;' k" := (bind m (fun _ => k)) : prog_scope.
#[global] Open Scope prog_scope.

(** [require(cond)]: the process exits with status 1 when the condition fails. *)
Definition require (b : bool) : M unit := if b then ret tt else exit 1.

(** ** System calls *)

Definition EIO : Z := 5.
Definition EBADF : Z := 9.
Definition EACCES : Z := 13.
Definition ENOENT : Z := 2.
Definition EINTR : Z := 4.
Definition EINVAL : Z := 22.
Definition ENOTTY : Z := 25.
Definition ELOOP : Z := 40.
Definition ENOSPC : Z := 28.
Definition ENOMEM : Z := 12.

Definition next_fault : M fault := fun w =>
  match w_faults w with
  | [] => (Ret Fok, w)
  | f :: fs => (Ret f, set_faults fs w)
  end.

(** The usual failure of a call: [errno] is set and -1 returned. *)
Definition sys_fail (e : Z) : M Z := fun w => (Ret (-1), set_errno e w).

Record oflags := mkOflags {
  o_read : bool; o_write : bool; o_nofollow : bool; o_creat : bool; o_trunc : bool }.

Definition O_RDONLY := mkOflags true false false false false.
Definition O_WRONLY := mkOflags false true false false false.
Definition O_RDWR := mkOflags true true false false false.

(** The number of a new descriptor: one that is not in use.  No program depends on which. *)
Definition fresh_fd (fds : gmap Z fdesc) : Z :=
  3 + Z.of_nat (fresh (set_map (fun z => Z.to_nat (z - 3)) (dom fds) : gset nat)).

Definition add_fd (path : string) (fl : oflags) : M Z := fun w =>
  let fd := fresh_fd (w_fds w) in
  (Ret fd, set_fds (<[ fd := mkFd path 0 (o_read fl) (o_write fl) ]> (w_fds w)) w).

Definition put_file (path : string) (f : file) : M unit := fun w =>
  (Ret tt, set_files (<[ path := f ]> (w_files w)) w).

Definition sys_open (path : string) (fl : oflags) : M Z :=
  let! f := next_fault in
  match f with
  | Ferr e => sys_fail e
  | _ => fun w =>
    match w_files w !! path with
    | None =>
        if o_creat fl
        then (put_file path (mkFile Regular []) ;; add_fd path fl) w
        else sys_fail ENOENT w
    | Some (mkFile Symlink _) => sys_fail ELOOP w
    | Some (mkFile k d) =>
        ((if o_trunc fl then match k with Regular => put_file path (mkFile k []) | _ => ret tt end
          else ret tt) ;; add_fd path fl) w
    end
  end.

Definition sys_close (fd : Z) : M Z := fun w =>
  match w_fds w !! fd with
  | None => sys_fail EBADF w
  | Some _ => (Ret 0, set_fds (delete fd (w_fds w)) w)
  end.

(** The open description and the file of a descriptor. *)
Definition fd_file (w : world) (fd : Z) : option (fdesc * file) :=
  d ← w_fds w !! fd; f ← w_files w !! fd_path d; Some (d, f).

Definition set_off (fd : Z) (d : fdesc) (off : Z) (w : world) : world :=
  set_fds (<[ fd := mkFd (fd_path d) off (fd_read d) (fd_write d) ]> (w_fds w)) w.

(** [lseek64(fd, off, SEEK_SET)]; [off] is converted to a signed offset. *)
Definition sys_lseek (fd off : Z) : M Z :=
  let! f := next_fault in
  match f with
  | Ferr e => sys_fail e
  | _ => fun w =>
    match fd_file w fd with
    | None => sys_fail EBADF w
    | Some (d, _) =>
        if s64 off <? 0 then sys_fail EINVAL w else (Ret (s64 off), set_off fd d (s64 off) w)
    end
  end.

(** How many of [n] bytes a transfer moves. *)
Definition transfer (f : fault) (n : Z) : Z :=
  match f with Fshort k => Z.max 0 (Z.min k n) | _ => n end.

(** [read(fd, buf, count)]: the return value and the bytes stored at [buf]. *)
Definition sys_read (fd count : Z) : M (Z * bytes) :=
  let! f := next_fault in
  match f with
  | Ferr e => let! r := sys_fail e in ret (r, [])
  | _ => fun w =>
    match fd_file w fd with
    | Some (d, fl) =>
        if negb (fd_read d) then (let! r := sys_fail EBADF in ret (r, [])) w
        else
          let avail := Z.max 0 (Z.of_nat (length (f_data fl)) - fd_off d) in
          let n := transfer f (Z.min (Z.max 0 count) avail) in
          (Ret (n, slice (Z.to_nat (fd_off d)) (Z.to_nat n) (f_data fl)),
           set_off fd d (fd_off d + n) w)
    | None => (let! r := sys_fail EBADF in ret (r, [])) w
    end
  end.

(** The bytes of a file after [new] is written at [off]; a gap is filled with zeros. *)
Definition write_at (off : nat) (new data : bytes) : bytes :=
  splice off new (data ++ replicate (off + length new - length data) 0).

(** [write(fd, buf, length buf)] *)
Definition sys_write (fd : Z) (buf : bytes) : M Z :=
  let! f := next_fault in
  match f with
  | Ferr e => sys_fail e
  | _ => fun w =>
    match fd_file w fd with
    | Some (d, fl) =>
        if negb (fd_write d) then sys_fail EBADF w
        else
          let avail := Z.max 0 (Z.of_nat (length (f_data fl)) - fd_off d) in
          let len := Z.of_nat (length buf) in
          match f_kind fl with
          | Regular =>
              let n := transfer f len in
              (Ret n, set_off fd d (fd_off d + n)
                 (set_files (<[ fd_path d :=
                    mkFile Regular (write_at (Z.to_nat (fd_off d)) (take (Z.to_nat n) buf) (f_data fl)) ]>
                    (w_files w)) w))
          | k =>
              if (avail =? 0) && (0 <? len) then sys_fail ENOSPC w
              else
                let n := transfer f (Z.min len avail) in
                (Ret n, set_off fd d (fd_off d + n)
                   (set_files (<[ fd_path d :=
                      mkFile k (write_at (Z.to_nat (fd_off d)) (take (Z.to_nat n) buf) (f_data fl)) ]>
                      (w_files w)) w))
          end
    | None => sys_fail EBADF w
    end
  end.

(** [fstat]: the return value, whether the file is a regular file, and its size. *)
Definition sys_fstat (fd : Z) : M (Z * bool * Z) :=
  let! f := next_fault in
  match f with
  | Ferr e => let! r := sys_fail e in ret (r, false, 0)
  | _ => fun w =>
    match fd_file w fd with
    | Some (_, mkFile Regular d) => (Ret (0, true, Z.of_nat (length d)), w)
    | Some _ => (Ret (0, false, 0), w)
    | None => (let! r := sys_fail EBADF in ret (r, false, 0)) w
    end
  end.

(** [ioctl(fd, BLKGETSIZE64, &size)] and [ioctl(fd, BLKSSZGET, &sector_size)] *)
Definition sys_blkgetsize64 (fd : Z) : M (Z * Z) :=
  let! f := next_fault in
  match f with
  | Ferr e => let! r := sys_fail e in ret (r, 0)
  | _ => fun w =>
    match fd_file w fd with
    | Some (_, mkFile (Block _) d) => (Ret (0, Z.of_nat (length d)), w)
    | _ => (let! r := sys_fail ENOTTY in ret (r, 0)) w
    end
  end.

Definition sys_blksszget (fd : Z) : M (Z * Z) :=
  let! f := next_fault in
  match f with
  | Ferr e => let! r := sys_fail e in ret (r, 0)
  | _ => fun w =>
    match fd_file w fd with
    | Some (_, mkFile (Block s) _) => (Ret (0, s), w)
    | _ => (let! r := sys_fail ENOTTY in ret (r, 0)) w
    end
  end.

(** [malloc(n) != NULL]; a negative [int] argument becomes a size no allocation satisfies. *)
Definition sys_malloc (n : Z) : M bool :=
  let! f := next_fault in
  match f with Ferr _ => ret false | _ => ret (0 <=? n) end.

(** ** Reasoning about computations

    [wp Q m w]: whatever [m] does from [w], the outcome and the final state satisfy [Q]. *)

Definition wp {A} (Q : outcome A -> world -> Prop) (m : M A) (w : world) : Prop :=
  Q (m w).1 (m w).2.

(** A schedule without faults. *)
Definition quiet (w : world) : Prop := w_faults w = [].

Lemma wp_ret {A} Q (a : A) w : Q (Ret a) w -> wp Q (ret a) w.
Proof. done. Qed.

Lemma wp_exit {A} Q c w : Q (Exit c) w -> wp Q (@exit A c) w.
Proof. done. Qed.

Lemma wp_bind {A B} Q (m : M A) (k : A -> M B) w :
  wp (fun o w' => match o with
                  | Ret a => wp Q (k a) w'
                  | Exit c => Q (Exit c) w'
                  | Undefined => Q Undefined w'
                  end) m w ->
  wp Q (bind m k) w.
Proof. unfold wp, bind. by destruct (m w) as [[a|c|] w']. Qed.

Lemma wp_mono {A} (Q Q' : outcome A -> world -> Prop) m w :
  wp Q m w -> (forall o w', Q o w' -> Q' o w') -> wp Q' m w.
Proof. unfold wp. auto. Qed.

Lemma wp_assoc {A B C} Q (m : M A) (k : A -> M B) (l : B -> M C) w :
  wp Q (bind m (fun x => bind (k x) l)) w -> wp Q (bind (bind m k) l) w.
Proof. unfold wp, bind. by destruct (m w) as [[?|?|] ?]. Qed.

Lemma wp_require Q (b : bool) w :
  (b = true -> Q (Ret tt) w) -> (b = false -> Q (Exit 1) w) -> wp Q (require b) w.
Proof. unfold require. destruct b; intros; [apply wp_ret|apply wp_exit]; auto. Qed.

(** The rules of the system calls: a failure either is the documented one or was scheduled. *)
Section Rules.
Context (fd : Z) (w : world) (d : fdesc) (fl : file) (Hfd : fd_file w fd = Some (d, fl)).

Definition moved (off : Z) (w' : world) : Prop :=
  w_files w' = w_files w /\
  w_fds w' = <[ fd := mkFd (fd_path d) off (fd_read d) (fd_write d) ]> (w_fds w) /\
  (quiet w -> quiet w').

Definition unmoved (w' : world) : Prop :=
  w_files w' = w_files w /\ w_fds w' = w_fds w /\ (quiet w -> quiet w').

Ltac calls :=
  unfold wp, bind, next_fault, quiet in *; destruct (w_faults w) as [|[|e|k] fs] eqn:Ef; simpl;
  unfold fd_file in *; simpl; rewrite ?Hfd; simpl.

Lemma wp_lseek Q off :
  (forall w', unmoved w' -> (quiet w -> s64 off < 0) -> Q (Ret (-1)) w') ->
  (forall w', 0 <= s64 off -> moved (s64 off) w' -> Q (Ret (s64 off)) w') ->
  wp Q (sys_lseek fd off) w.
Proof using Hfd.
  intros H1 H2. unfold unmoved, moved in *. unfold sys_lseek. calls.
  all: try (destruct (Z.ltb_spec (s64 off) 0) as [|]; simpl).
  all: try (apply H1; [by simpl|done]).
  all: try (apply H2; [done|by simpl]).
Qed.

Lemma wp_read Q count :
  fd_read d = true -> 0 <= fd_off d ->
  (forall w', unmoved w' -> ~ quiet w -> Q (Ret (-1, [])) w') ->
  (forall w' n, let avail := Z.of_nat (length (f_data fl)) - fd_off d in
     0 <= n <= Z.max 0 count -> n <= Z.max 0 avail ->
     (quiet w -> n = Z.min (Z.max 0 count) (Z.max 0 avail)) ->
     moved (fd_off d + n) w' ->
     Q (Ret (n, slice (Z.to_nat (fd_off d)) (Z.to_nat n) (f_data fl))) w') ->
  wp Q (sys_read fd count) w.
Proof using Hfd.
  intros Hr Ho H1 H2. unfold unmoved, moved in *. unfold sys_read. calls; rewrite ?Hr; simpl.
  all: try (apply H1; [by simpl|done]).
  all: apply H2; unfold transfer; try lia; try done; try (intros; lia).
Qed.

(** A write inside the file. *)
Lemma wp_write Q buf :
  fd_write d = true -> 0 <= fd_off d -> buf <> [] ->
  fd_off d + Z.of_nat (length buf) <= Z.of_nat (length (f_data fl)) ->
  (forall w', unmoved w' -> ~ quiet w -> Q (Ret (-1)) w') ->
  (forall w' n, (n <= length buf)%nat -> (quiet w -> n = length buf) ->
     w_files w' = <[ fd_path d := mkFile (f_kind fl)
       (splice (Z.to_nat (fd_off d)) (take n buf) (f_data fl)) ]> (w_files w) ->
     w_fds w' = <[ fd := mkFd (fd_path d) (fd_off d + Z.of_nat n) (fd_read d) (fd_write d) ]>
       (w_fds w) ->
     (quiet w -> quiet w') ->
     Q (Ret (Z.of_nat n)) w') ->
  wp Q (sys_write fd buf) w.
Proof using Hfd.
  intros Hw Ho Hne Hin H1 H2. unfold unmoved in *. unfold sys_write.
  assert (Hpos : (0 < length buf)%nat) by (destruct buf; simpl in *; [done|lia]).
  assert (Hat : forall n, (n <= length buf)%nat ->
    write_at (Z.to_nat (fd_off d)) (take n buf) (f_data fl) =
    splice (Z.to_nat (fd_off d)) (take n buf) (f_data fl)).
  { intros n Hn. unfold write_at. replace (_ - _)%nat with 0%nat by len. by rewrite app_nil_r. }
  assert (Hav : Z.max 0 (Z.of_nat (length (f_data fl)) - fd_off d) =
    Z.of_nat (length (f_data fl)) - fd_off d) by lia.
  assert (Hav0 : (Z.of_nat (length (f_data fl)) - fd_off d =? 0) = false) by lia.
  assert (Hmin : Z.min (Z.of_nat (length buf)) (Z.of_nat (length (f_data fl)) - fd_off d) =
    Z.of_nat (length buf)) by lia.
  calls; rewrite ?Hw; simpl.
  all: try (apply H1; [by simpl|done]).
  all: rewrite ?Hav, ?Hav0; simpl.
  all: rewrite ?Hmin; unfold transfer.
  all: destruct (f_kind fl) eqn:Ek; rewrite Hat by lia; simpl.
  all: match goal with |- _ (Ret ?n) _ => rewrite <-(Z2Nat.id n) at 1 by lia end; apply H2; simpl.
  all: try lia; try done.
  all: try (rewrite Z2Nat.id by lia; done).
Qed.

Lemma wp_fstat Q :
  (forall w', unmoved w' -> ~ quiet w -> Q (Ret (-1, false, 0)) w') ->
  (forall w', unmoved w' -> f_kind fl = Regular ->
     Q (Ret (0, true, Z.of_nat (length (f_data fl)))) w') ->
  (forall w', unmoved w' -> f_kind fl <> Regular -> Q (Ret (0, false, 0)) w') ->
  wp Q (sys_fstat fd) w.
Proof using Hfd.
  intros H1 H2 H3. unfold unmoved in *. unfold sys_fstat. calls.
  all: try (apply H1; [by simpl|done]).
  all: destruct fl as [[] ?]; simpl in *; first [by apply H2 | by apply H3].
Qed.

Lemma wp_blkgetsize64 Q :
  (forall w', unmoved w' -> (quiet w -> forall s, f_kind fl <> Block s) -> Q (Ret (-1, 0)) w') ->
  (forall w' s, unmoved w' -> f_kind fl = Block s ->
     Q (Ret (0, Z.of_nat (length (f_data fl)))) w') ->
  wp Q (sys_blkgetsize64 fd) w.
Proof using Hfd.
  intros H1 H2. unfold unmoved in *. unfold sys_blkgetsize64. calls.
  all: try (apply H1; [by simpl|done]).
  all: destruct fl as [[] ?]; simpl in *; first [by eapply H2 | by apply H1].
Qed.

Lemma wp_blksszget Q :
  (forall w', unmoved w' -> (quiet w -> forall s, f_kind fl <> Block s) -> Q (Ret (-1, 0)) w') ->
  (forall w' s, unmoved w' -> f_kind fl = Block s -> Q (Ret (0, s)) w') ->
  wp Q (sys_blksszget fd) w.
Proof using Hfd.
  intros H1 H2. unfold unmoved in *. unfold sys_blksszget. calls.
  all: try (apply H1; [by simpl|done]).
  all: destruct fl as [[] ?]; simpl in *; first [by eapply H2 | by apply H1].
Qed.

Lemma wp_close Q :
  (forall w', w_files w' = w_files w -> w_fds w' = delete fd (w_fds w) ->
     (quiet w -> quiet w') -> Q (Ret 0) w') ->
  wp Q (sys_close fd) w.
Proof using Hfd.
  intros H. unfold wp, sys_close, fd_file in *.
  destruct (w_fds w !! fd); [|done]. by apply H.
Qed.
End Rules.

Lemma wp_malloc Q n w :
  (forall w', unmoved w w' -> (quiet w -> n < 0) -> Q (Ret false) w') ->
  (forall w', unmoved w w' -> 0 <= n -> Q (Ret true) w') ->
  wp Q (sys_malloc n) w.
Proof.
  intros H1 H2. unfold unmoved in *. unfold sys_malloc, wp, bind, next_fault, quiet in *.
  destruct (w_faults w) as [|[|e|k] fs] eqn:Ef; simpl;
    try (apply H1; [by simpl|done]);
    (destruct (Z.leb_spec 0 n); [apply H2|apply H1]; try done; by simpl).
Qed.

Lemma fresh_fd_spec fds : fds !! fresh_fd fds = None /\ 2 < fresh_fd fds.
Proof.
  unfold fresh_fd. split; [|lia]. apply not_elem_of_dom. intros H.
  pose proof (is_fresh (set_map (fun z => Z.to_nat (z - 3)) (dom fds) : gset nat)) as Hf.
  apply Hf, elem_of_map. eexists. split; [|exact H]. lia.
Qed.

(** Opening without creating or truncating leaves every file alone. *)
Lemma wp_open Q path fl w :
  o_creat fl = false -> o_trunc fl = false ->
  (forall w', unmoved w w' ->
     (quiet w -> w_files w !! path = None \/ exists d, w_files w !! path = Some (mkFile Symlink d)) ->
     Q (Ret (-1)) w') ->
  (forall w' fd f, w_files w !! path = Some f -> f_kind f <> Symlink ->
     w_fds w !! fd = None -> 2 < fd ->
     w_files w' = w_files w ->
     w_fds w' = <[ fd := mkFd path 0 (o_read fl) (o_write fl) ]> (w_fds w) ->
     (quiet w -> quiet w') -> Q (Ret fd) w') ->
  wp Q (sys_open path fl) w.
Proof.
  intros Hc Ht H1 H2. unfold unmoved in *. unfold sys_open, wp, bind, next_fault, quiet in *.
  pose proof (fresh_fd_spec (w_fds w)) as [Hfd Hn].
  destruct (w_faults w) as [|[|e|k] fs] eqn:Ef; simpl; rewrite ?Ht, ?Hc; simpl.
  all: try (apply H1; [by simpl|done]).
  all: destruct (w_files w !! path) as [[[] ?]|] eqn:Ep; simpl; rewrite ?Ht, ?Hc; simpl.
  all: try (apply H1; [by simpl|by (intros; left + (right; eexists))]).
  all: eapply H2; eauto; done.
Qed.

Lemma unmoved_refl w : unmoved w w.
Proof. done. Qed.

Lemma unmoved_trans w1 w2 w3 : unmoved w1 w2 -> unmoved w2 w3 -> unmoved w1 w3.
Proof. unfold unmoved. intros (A1 & A2 & A3) (B1 & B2 & B3). split_and!; [congruence|congruence|auto]. Qed.

#[global] Opaque fresh_fd.
