(* ===== verification/Drive.v ===== *)
(** * Opening, reading and writing a drive (gpt/lib/cgpt_common.c, first half)

    [struct drive], the functions that load the two copies of the partition table into memory
    and write the modified ones back, and the boot record. *)

From stdpp Require Import base list numbers gmap strings.
From Stdlib Require Import ZArith Lia.
From S2P Require Import Prelude GptTypes Posix.

(** ** struct drive *)

Record drive := mkDrive { d_fd : Z; d_size : Z; d_gpt : GptData; d_pmbr : bytes }.

Definition zero_gpt : GptData := mkGptData [] [] [] [] 0 0 0 0 0 0 0.
(** [memset(drive, 0, sizeof(struct drive))] *)
Definition zero_drive : drive := mkDrive 0 0 zero_gpt (replicate 512 0).

Definition set_fd (v : Z) (d : drive) : drive := mkDrive v (d_size d) (d_gpt d) (d_pmbr d).
Definition set_size (v : Z) (d : drive) : drive := mkDrive (d_fd d) v (d_gpt d) (d_pmbr d).
Definition set_gpt (v : GptData) (d : drive) : drive := mkDrive (d_fd d) (d_size d) v (d_pmbr d).
Definition set_pmbr (v : bytes) (d : drive) : drive := mkDrive (d_fd d) (d_size d) (d_gpt d) v.

(** ** struct pmbr: 424 bytes of boot code, the boot GUID, the disk id, two magic bytes, four
    legacy partitions and the signature *)

Definition sizeof_pmbr : Z := 512.
Definition p_boot_guid (p : bytes) : Guid := slice 424 16 p.
Definition set_p_bootcode (v p : bytes) : bytes := splice 0 v p.
Definition set_p_boot_guid (v p : bytes) : bytes := splice 424 v p.
Definition set_p_magic (a b : Z) (p : bytes) : bytes := splice 444 [a; b] p.
Definition set_p_part (v p : bytes) : bytes := splice 446 v p.
Definition set_p_sig (a b : Z) (p : bytes) : bytes := splice 510 [a; b] p.

(** [struct legacy_partition] *)
Definition legacy_partition
    (status f_head f_sect f_cyl type l_head l_sect l_cyl f_lba num_sect : Z) : bytes :=
  [status; f_head; f_sect; f_cyl; type; l_head; l_sect; l_cyl] ++ le_enc 4 f_lba ++ le_enc 4 num_sect.

(** ** Sector transfers *)

(** The byte count of [sector_count] sectors, computed in 64 bits and stored in an [int]. *)
Definition byte_count (sector_bytes sector_count : Z) : Z := s32 (u64 (sector_bytes * sector_count)).

Definition Load (fd sector sector_bytes sector_count : Z) : M (Z * bytes) :=
  if (sector_count =? 0) || (sector_bytes =? 0) then ret (CGPT_FAILED, [])
  else if (2 ^ 64 - 1) / sector_count <? sector_bytes then ret (CGPT_FAILED, [])
  else
    let count := byte_count sector_bytes sector_count in
    let! p := sys_malloc count in
    require p ;;
    let where_ := u64 (sector * sector_bytes) in
    let! r := sys_lseek fd where_ in
    if -1 =? r then ret (CGPT_FAILED, []) else
    let! (nread, buf) := sys_read fd count in
    if nread <? count then ret (CGPT_FAILED, []) else
    ret (CGPT_OK, buf).

Definition Save (fd : Z) (buf : bytes) (sector sector_bytes sector_count : Z) : M Z :=
  require (negb (is_null buf)) ;;
  let count := byte_count sector_bytes sector_count in
  let! r := sys_lseek fd (u64 (sector * sector_bytes)) in
  if -1 =? r then ret CGPT_FAILED else
  let! nwrote := sys_write fd (take (Z.to_nat count) buf) in
  if nwrote <? count then ret CGPT_FAILED else
  ret CGPT_OK.

Definition ReadPMBR (d : drive) : M (Z * drive) :=
  let! r := sys_lseek (d_fd d) 0 in
  if -1 =? r then ret (CGPT_FAILED, d) else
  let! (nread, buf) := sys_read (d_fd d) sizeof_pmbr in
  let d := set_pmbr (splice 0 buf (d_pmbr d)) d in
  if negb (nread =? sizeof_pmbr) then ret (CGPT_FAILED, d) else
  ret (CGPT_OK, d).

Definition WritePMBR (d : drive) : M Z :=
  let! r := sys_lseek (d_fd d) 0 in
  if -1 =? r then ret CGPT_FAILED else
  let! nwrote := sys_write (d_fd d) (d_pmbr d) in
  if negb (nwrote =? sizeof_pmbr) then ret CGPT_FAILED else
  ret CGPT_OK.

(** ** DriveClose *)

(** Sector numbers of the four structures. *)
Definition secondary_header_sector (g : GptData) : Z := u64 (drive_sectors g - GPT_PMBR_SECTOR).
Definition primary_entries_sector : Z := GPT_PMBR_SECTOR + GPT_HEADER_SECTOR.
Definition secondary_entries_sector (g : GptData) : Z :=
  u64 (drive_sectors g - GPT_HEADER_SECTOR - GPT_ENTRIES_SECTORS).

(** One guarded [Save] of [DriveClose]: 1 when it was due and failed. *)
Definition save_if (due : bool) (fd : Z) (buf : bytes) (sector sector_bytes sector_count : Z) : M Z :=
  if due then
    let! r := Save fd buf sector sector_bytes sector_count in
    ret (if negb (r =? CGPT_OK) then 1 else 0)
  else ret 0.

Definition modified_bit (g : GptData) (m : Z) : bool := truthy (Z.land (modified g) m).

Definition DriveClose (d : drive) (update_as_needed : bool) : M (Z * drive) :=
  let g := d_gpt d in
  let due m := update_as_needed && modified_bit g m in
  let! e1 := save_if (due GPT_MODIFIED_HEADER1) (d_fd d) (primary_header g)
               GPT_PMBR_SECTOR (sector_bytes g) GPT_HEADER_SECTOR in
  let! e2 := save_if (due GPT_MODIFIED_HEADER2) (d_fd d) (secondary_header g)
               (secondary_header_sector g) (sector_bytes g) GPT_HEADER_SECTOR in
  let! e3 := save_if (due GPT_MODIFIED_ENTRIES1) (d_fd d) (primary_entries g)
               primary_entries_sector (sector_bytes g) GPT_ENTRIES_SECTORS in
  let! e4 := save_if (due GPT_MODIFIED_ENTRIES2) (d_fd d) (secondary_entries g)
               (secondary_entries_sector g) (sector_bytes g) GPT_ENTRIES_SECTORS in
  let errors := e1 + e2 + e3 + e4 in
  sys_close (d_fd d) ;;
  let g := set_secondary_entries [] (set_secondary_header []
             (set_primary_entries [] (set_primary_header [] g))) in
  ret (if truthy errors then CGPT_FAILED else CGPT_OK, set_gpt g d).

(** ** DriveOpen *)

(** [mode | O_LARGEFILE | O_NOFOLLOW] *)
Definition nofollow (mode : oflags) : oflags :=
  mkOflags (o_read mode) (o_write mode) true (o_creat mode) (o_trunc mode).

Definition error_close (d : drive) : M (Z * drive) :=
  let! (_, d) := DriveClose d false in ret (CGPT_FAILED, d).

(** The size of the medium and of its sectors; [false] stands for [goto error_close]. *)
Definition drive_geometry (d : drive) : M (bool * drive) :=
  let! (r, isreg, st_size) := sys_fstat (d_fd d) in
  if r =? -1 then ret (false, d) else
  if negb isreg then
    let! (r, size) := sys_blkgetsize64 (d_fd d) in
    if r <? 0 then ret (false, d) else
    let d := set_size size d in
    let! (r, ssz) := sys_blksszget (d_fd d) in
    if r <? 0 then ret (false, d) else
    ret (true, set_gpt (set_sector_bytes (u32 ssz) (d_gpt d)) d)
  else ret (true, set_gpt (set_sector_bytes 512 (d_gpt d)) (set_size st_size d)).

Definition DriveOpen (drive_path : string) (mode : oflags) : M (Z * drive) :=
  let! fd := sys_open drive_path (nofollow mode) in
  let d := set_fd fd zero_drive in
  if d_fd d =? -1 then ret (CGPT_FAILED, d) else
  let! (ok, d) := drive_geometry d in
  if negb ok then error_close d else
  if sector_bytes (d_gpt d) =? 0 then undefined else   (* % 0 *)
  if truthy (d_size d mod sector_bytes (d_gpt d)) then error_close d else
  let d := set_gpt (set_drive_sectors (d_size d / sector_bytes (d_gpt d)) (d_gpt d)) d in
  let g := d_gpt d in
  let ssz := sector_bytes g in
  let! (r, b) := Load (d_fd d) GPT_PMBR_SECTOR ssz GPT_HEADER_SECTOR in
  let d := set_gpt (set_primary_header b (d_gpt d)) d in
  if negb (r =? CGPT_OK) then error_close d else
  let! (r, b) := Load (d_fd d) (secondary_header_sector g) ssz GPT_HEADER_SECTOR in
  let d := set_gpt (set_secondary_header b (d_gpt d)) d in
  if negb (r =? CGPT_OK) then error_close d else
  let! (r, b) := Load (d_fd d) primary_entries_sector ssz GPT_ENTRIES_SECTORS in
  let d := set_gpt (set_primary_entries b (d_gpt d)) d in
  if negb (r =? CGPT_OK) then error_close d else
  let! (r, b) := Load (d_fd d) (secondary_entries_sector g) ssz GPT_ENTRIES_SECTORS in
  let d := set_gpt (set_secondary_entries b (d_gpt d)) d in
  if negb (r =? CGPT_OK) then error_close d else
  ret (CGPT_OK, d).

Definition CheckValid (d : drive) : Z :=
  if negb (valid_headers (d_gpt d) =? MASK_BOTH) || negb (valid_entries (d_gpt d) =? MASK_BOTH)
  then CGPT_FAILED else CGPT_OK.
