(* ===== verification/DriveSpec.v ===== *)
(** * What opening and closing a drive does (theorems about [DriveOpen] and [DriveClose])

    Under any schedule of failures and short transfers: opening changes no file, leaks no
    descriptor and, when it succeeds, holds the bytes of the drive; closing writes nothing
    outside the partition-table structures and, when it reports success, has written every
    modified structure completely. *)

From stdpp Require Import base list numbers gmap strings.
From Stdlib Require Import ZArith Lia.
From S2P Require Import Prelude GptTypes Posix Drive.

(** ** An open descriptor and the file behind it *)

(** [w] differs from [w0] at most in the offset of [fd], which is open on [path]. *)
Record session (fd : Z) (path : string) (r wr : bool) (w0 w : world) : Prop := {
  se_files : w_files w = w_files w0;
  se_fds : delete fd (w_fds w) = delete fd (w_fds w0);
  se_quiet : quiet w0 -> quiet w;
  se_open : exists off, 0 <= off /\ w_fds w !! fd = Some (mkFd path off r wr)
}.

Lemma insert_delete_fd (fds fds' : gmap Z fdesc) fd d :
  fds' = <[ fd := d ]> fds -> delete fd fds' = delete fd fds /\ fds' !! fd = Some d.
Proof. intros ->. by rewrite delete_insert_eq, lookup_insert_eq. Qed.

Lemma session_unmoved fd path r wr w0 w w' : session fd path r wr w0 w -> unmoved w w' -> session fd path r wr w0 w'.
Proof. intros [] (E1 & E2 & E3). split; rewrite ?E1, ?E2; auto. Qed.

Lemma session_moved fd path r wr w0 w w' d off :
  session fd path r wr w0 w -> 0 <= off ->
  fd_path d = path -> fd_read d = r -> fd_write d = wr ->
  moved fd w d off w' -> session fd path r wr w0 w'.
Proof.
  intros [] Ho <- <- <- (E1 & E2 & E3). apply insert_delete_fd in E2 as [E2 E4].
  split; rewrite ?E1, ?E2; eauto.
Qed.

Section Session.
Context (fd : Z) (path : string) (r wr : bool) (w0 : world) (f : file).
Context (Hf : w_files w0 !! path = Some f).

Lemma session_file w : session fd path r wr w0 w ->
  exists off, 0 <= off /\ fd_file w fd = Some (mkFd path off r wr, f).
Proof using Hf.
  intros [Hfi _ _ (off & Ho & Hfd)]. exists off. split; [done|].
  unfold fd_file. rewrite Hfd. simpl. by rewrite Hfi, Hf.
Qed.

Lemma session_lseek Q off w :
  session fd path r wr w0 w ->
  (forall w', session fd path r wr w0 w' -> (quiet w -> s64 off < 0) -> Q (Ret (-1)) w') ->
  (forall w', session fd path r wr w0 w' -> 0 <= s64 off ->
     fd_file w' fd = Some (mkFd path (s64 off) r wr, f) -> (quiet w -> quiet w') ->
     Q (Ret (s64 off)) w') ->
  wp Q (sys_lseek fd off) w.
Proof using Hf.
  intros Hs H1 H2. destruct (session_file w Hs) as (o & Ho & Hfd).
  eapply wp_lseek; [exact Hfd| |].
  - intros w' Hu Hq. apply H1; [by eapply session_unmoved|done].
  - intros w' Hp Hm. assert (Hs' : session fd path r wr w0 w').
    { eapply (session_moved _ _ _ _ _ _ _ _ _ Hs Hp); [..|exact Hm]; done. }
    apply H2; [done|done| |apply Hm].
    destruct Hm as (E1 & E2 & _). unfold fd_file. rewrite E2, lookup_insert_eq. simpl.
    by rewrite (se_files _ _ _ _ _ _ Hs'), Hf.
Qed.
End Session.

(** ** Loading sectors *)

Lemma s64_u64 x : s64 (u64 x) = s64 x.
Proof. unfold s64, to_signed, u64. by rewrite Z.mod_mod by lia. Qed.

Lemma s64_small x : 0 <= x < 2 ^ 63 -> s64 x = x.
Proof.
  intros H. unfold s64, to_signed. rewrite Z.mod_small by lia.
  change (2 ^ (64 - 1)) with (2 ^ 63). destruct (Z.ltb_spec x (2 ^ 63)); lia.
Qed.

Lemma byte_count_small ssz n : 0 <= ssz * n < 2 ^ 31 -> byte_count ssz n = ssz * n.
Proof.
  intros H. unfold byte_count, s32, to_signed, u64. rewrite !Z.mod_small by lia.
  change (2 ^ (32 - 1)) with (2 ^ 31). destruct (Z.ltb_spec (ssz * n) (2 ^ 31)); lia.
Qed.

(** [buf] holds [n] sectors of [data] from [sector] on. *)
Definition loaded (data : bytes) (sector ssz n : Z) (buf : bytes) : Prop :=
  let off := s64 (sector * ssz) in
  0 <= off /\ off + ssz * n <= Z.of_nat (length data) /\
  buf = slice (Z.to_nat off) (Z.to_nat (ssz * n)) data.

Section Transfer.
Context (fd : Z) (path : string) (wr : bool) (w0 : world) (f : file).
Context (Hf : w_files w0 !! path = Some f).
Context (ssz n : Z) (Hssz : 0 < ssz) (Hn : 0 < n) (Hcount : ssz * n < 2 ^ 31).

Lemma wp_Load sector w :
  session fd path true wr w0 w ->
  wp (fun o w' => session fd path true wr w0 w' /\
       match o with
       | Ret (rc, buf) =>
           rc = CGPT_OK /\ loaded (f_data f) sector ssz n buf \/
           rc = CGPT_FAILED /\ buf = [] /\
           (quiet w0 -> ~ (0 <= sector * ssz < 2 ^ 63 /\
                           sector * ssz + ssz * n <= Z.of_nat (length (f_data f))))
       | Exit _ => ~ quiet w0
       | Undefined => False
       end) (Load fd sector ssz n) w.
Proof using Hf Hssz Hn Hcount.
  intros Hs. unfold Load. rewrite byte_count_small by lia.
  replace ((n =? 0) || (ssz =? 0)) with false by lia.
  replace ((2 ^ 64 - 1) / n <? ssz) with false.
  2:{ symmetry. apply Z.ltb_ge. apply Z.div_le_lower_bound; lia. }
  apply wp_bind, wp_malloc.
  { intros w1 Hu Hq. apply wp_bind, wp_require; [done|]. intros _.
    split; [by eapply session_unmoved|]. intros H. apply (se_quiet _ _ _ _ _ _ Hs) in H. lia. }
  intros w1 Hu _. apply (session_unmoved _ _ _ _ _ _ _ Hs) in Hu.
  apply wp_bind, wp_require; [intros _|done].
  apply wp_bind. eapply session_lseek; [exact Hf|exact Hu| |].
  { intros w2 Hs2 Hq. apply wp_ret. split; [done|]. right. repeat split.
    intros H [Hin _]. rewrite s64_u64, s64_small in Hq by lia.
    specialize (Hq (se_quiet _ _ _ _ _ _ Hu H)). lia. }
  intros w2 Hs2 Hpos Hfd _. rewrite s64_u64 in *.
  replace (-1 =? s64 (sector * ssz)) with false by lia.
  apply wp_bind. eapply wp_read; [exact Hfd|done|done| |].
  { intros w3 Hu3 Hq. replace (-1 <? ssz * n) with true by lia. apply wp_ret.
    split; [by eapply session_unmoved|]. right. repeat split.
    intros H _. apply Hq. by apply (se_quiet _ _ _ _ _ _ Hs2). }
  intros w3 k avail Hk1 Hk2 Hkq Hm. subst avail. simpl in *.
  assert (Hs3 : session fd path true wr w0 w3).
  { eapply session_moved; [exact Hs2| | | | |exact Hm]; simpl; first [lia|done]. }
  destruct (Z.ltb_spec k (ssz * n)) as [Hlt|Hge]; apply wp_ret; (split; [exact Hs3|]).
  - right. repeat split. intros H [Hin Hend]. rewrite s64_small in * by lia.
    specialize (Hkq (se_quiet _ _ _ _ _ _ Hs2 H)). lia.
  - left. split; [done|]. unfold loaded. repeat split; [lia..|].
    f_equal. lia.
Qed.

(** The rule for a [Load] followed by the rest of the program. *)
Lemma wp_Load_then {B} (Q : outcome B -> world -> Prop) k sector w :
  session fd path true wr w0 w ->
  (forall w' b, session fd path true wr w0 w' -> loaded (f_data f) sector ssz n b ->
     wp Q (k (CGPT_OK, b)) w') ->
  (forall w', session fd path true wr w0 w' ->
     (quiet w0 -> ~ (0 <= sector * ssz < 2 ^ 63 /\
                     sector * ssz + ssz * n <= Z.of_nat (length (f_data f)))) ->
     wp Q (k (CGPT_FAILED, [])) w') ->
  (forall w' c, w_files w' = w_files w0 -> ~ quiet w0 -> Q (Exit c) w') ->
  wp Q (bind (Load fd sector ssz n) k) w.
Proof using Hf Hssz Hn Hcount.
  intros Hs H1 H2 H3. apply wp_bind. eapply wp_mono; [by apply wp_Load|].
  intros [[rc b]|c|] w' [Hs' H]; [|by apply H3; [apply Hs'|]|done].
  destruct H as [[-> Hl]|(-> & -> & Hq)]; auto.
Qed.
End Transfer.

(** ** Opening *)

(** The sector size the program sees, and the files whose geometry a kernel can report. *)
Definition sector_size (f : file) : Z := match f_kind f with Block s => s | _ => 512 end.

Definition medium_ok (f : file) : Prop :=
  0 < sector_size f < 2 ^ 26 /\ Z.of_nat (length (f_data f)) < 2 ^ 63.

(** What a successfully opened drive holds. *)
Record drive_of (f : file) (d : drive) : Prop := {
  do_ssz : sector_bytes (d_gpt d) = sector_size f;
  do_size : d_size d = Z.of_nat (length (f_data f));
  do_sectors : drive_sectors (d_gpt d) * sector_size f = Z.of_nat (length (f_data f));
  do_h1 : loaded (f_data f) 1 (sector_size f) 1 (primary_header (d_gpt d));
  do_h2 : loaded (f_data f) (u64 (drive_sectors (d_gpt d) - 1)) (sector_size f) 1
    (secondary_header (d_gpt d));
  do_e1 : loaded (f_data f) 2 (sector_size f) 32 (primary_entries (d_gpt d));
  do_e2 : loaded (f_data f) (u64 (drive_sectors (d_gpt d) - 33)) (sector_size f) 32
    (secondary_entries (d_gpt d));
  do_modified : modified (d_gpt d) = 0;
  do_valid_headers : valid_headers (d_gpt d) = 0;
  do_valid_entries : valid_entries (d_gpt d) = 0;
  do_kernel : current_kernel (d_gpt d) = 0;
  do_priority : current_priority (d_gpt d) = 0;
  do_pmbr : length (d_pmbr d) = 512%nat
}.

(** The media that can be opened at all: a kernel-reported or regular file, a whole number of
    sectors, and room for the structures that are read. *)
Definition openable (f : file) : Prop :=
  (exists s, f_kind f = Regular \/ f_kind f = Block s) /\
  Z.of_nat (length (f_data f)) mod sector_size f = 0 /\
  34 * sector_size f <= Z.of_nat (length (f_data f)).

Lemma wp_close_unmodified fd path r wr w0 f d w (update : bool) :
  w_files w0 !! path = Some f ->
  session fd path r wr w0 w -> d_fd d = fd ->
  (update = true -> modified (d_gpt d) = 0) ->
  wp (fun o w' => w_files w' = w_files w0 /\ w_fds w' = delete fd (w_fds w0) /\
        (quiet w0 -> quiet w') /\ exists d', o = Ret (CGPT_OK, d'))
    (DriveClose d update) w.
Proof.
  intros Hf Hs <- Hm. unfold DriveClose, modified_bit, save_if.
  assert (E : forall m, update && truthy (Z.land (modified (d_gpt d)) m) = false).
  { intros m. destruct update; [|done]. by rewrite Hm. }
  rewrite !E. destruct (session_file _ _ _ _ _ _ Hf _ Hs) as (o & _ & Hfd).
  do 4 apply wp_bind, wp_ret. apply wp_bind. eapply wp_close; [exact Hfd|].
  intros w' E1 E2 E3. apply wp_ret. rewrite E1, E2. destruct Hs.
  repeat split; eauto.
Qed.

Lemma wp_error_close fd path r wr w0 f d w :
  w_files w0 !! path = Some f ->
  session fd path r wr w0 w -> d_fd d = fd ->
  wp (fun o w' => w_files w' = w_files w0 /\ w_fds w' = delete fd (w_fds w0) /\
        exists d', o = Ret (CGPT_FAILED, d')) (error_close d) w.
Proof.
  intros Hf Hs Hfd. unfold error_close. apply wp_bind.
  eapply wp_mono; [by eapply wp_close_unmodified|].
  intros o w' (E1 & E2 & _ & d' & ->). apply wp_ret. eauto.
Qed.

Lemma wp_drive_geometry fd path r wr w0 f d w :
  w_files w0 !! path = Some f -> session fd path r wr w0 w -> d_fd d = fd ->
  (forall s, f_kind f = Block s -> 0 < s < 2 ^ 26) ->
  wp (fun o w' => session fd path r wr w0 w' /\
        exists (ok : bool) d', o = Ret (ok, d') /\ d_fd d' = fd /\
        if ok then
          (exists s, f_kind f = Regular \/ f_kind f = Block s) /\
          d' = set_gpt (set_sector_bytes (sector_size f) (d_gpt d))
                 (set_size (Z.of_nat (length (f_data f))) d)
        else quiet w0 -> ~ openable f) (drive_geometry d) w.
Proof.
  intros Hf Hs Hfd Hk. unfold drive_geometry. rewrite Hfd.
  destruct (session_file _ _ _ _ _ _ Hf _ Hs) as (o & _ & Ho).
  assert (Hfail : forall w' b d', session fd path r wr w0 w' -> d_fd d' = fd -> b = false ->
     (quiet w0 -> ~ openable f) ->
     wp (fun o w' => session fd path r wr w0 w' /\ exists (ok : bool) d', o = Ret (ok, d') /\ d_fd d' = fd /\
        if ok then
          (exists s, f_kind f = Regular \/ f_kind f = Block s) /\
          d' = set_gpt (set_sector_bytes (sector_size f) (d_gpt d))
                 (set_size (Z.of_nat (length (f_data f))) d)
        else quiet w0 -> ~ openable f) (ret (b, d')) w').
  { intros w' b d' Hs' Hd' -> Hq. apply wp_ret. split; [done|]. by exists false, d'. }
  apply wp_bind. eapply wp_fstat; [exact Ho| | |].
  - intros w1 Hu Hq. apply Hfail; [by eapply session_unmoved|done..|].
    intros H. by apply (se_quiet _ _ _ _ _ _ Hs) in H.
  - intros w1 Hu Ek. simpl. apply wp_ret. split; [by eapply session_unmoved|].
    exists true. eexists. split; [done|]. split; [done|]. unfold sector_size. rewrite Ek.
    split; [exists 0; by left|done].
  - intros w1 Hu Ek. simpl. apply (session_unmoved _ _ _ _ _ _ _ Hs) in Hu.
    destruct (session_file _ _ _ _ _ _ Hf _ Hu) as (o1 & _ & Ho1).
    apply wp_bind. eapply wp_blkgetsize64; [exact Ho1| |].
    { intros w2 Hu2 Hq. apply Hfail; [by eapply session_unmoved|done..|].
      intros H [[s1 [?|E]] _]; [done|].
      apply (se_quiet _ _ _ _ _ _ Hu) in H. by eapply (Hq H). }
    intros w2 s Hu2 Eb. simpl. apply (session_unmoved _ _ _ _ _ _ _ Hu) in Hu2.
    destruct (session_file _ _ _ _ _ _ Hf _ Hu2) as (o2 & _ & Ho2).
    apply wp_bind. rewrite Hfd. eapply wp_blksszget; [exact Ho2| |].
    { intros w3 Hu3 Hq. apply Hfail; [by eapply session_unmoved|done..|].
      intros H _. apply (se_quiet _ _ _ _ _ _ Hu2) in H. by eapply (Hq H). }
    intros w3 s' Hu3 Eb'. simpl. apply wp_ret. split; [by eapply session_unmoved|].
    exists true. eexists. split; [done|]. split; [done|]. unfold sector_size. rewrite Eb'.
    split; [exists s'; by right|]. specialize (Hk s' Eb').
    unfold u32. by rewrite Z.mod_small by lia.
Qed.

(** The state right after [open] returned [fd]. *)
Definition open_state (fd : Z) (path : string) (mode : oflags) (w w1 : world) : Prop :=
  w_fds w !! fd = None /\ 2 < fd /\ w_files w1 = w_files w /\
  w_fds w1 = <[ fd := mkFd path 0 (o_read mode) (o_write mode) ]> (w_fds w) /\
  (quiet w -> quiet w1).

Lemma open_state_session fd path mode w w1 :
  open_state fd path mode w w1 -> session fd path (o_read mode) (o_write mode) w1 w1.
Proof.
  intros (_ & _ & _ & E & _). split; try done. exists 0. split; [done|].
  by rewrite E, lookup_insert_eq.
Qed.

(** The guard of every step of [DriveOpen]. *)
Definition open_post (path : string) (mode : oflags) (w : world) (o : outcome (Z * drive))
    (w' : world) : Prop :=
  w_files w' = w_files w /\
  match o with
  | Ret (rc, d) =>
      (rc = CGPT_OK /\ exists f w1, w_files w !! path = Some f /\
         open_state (d_fd d) path mode w w1 /\
         session (d_fd d) path (o_read mode) (o_write mode) w1 w' /\ drive_of f d) \/
      (rc = CGPT_FAILED /\ w_fds w' = w_fds w /\
         (quiet w -> forall f, w_files w !! path = Some f -> ~ openable f))
  | Exit _ => ~ quiet w
  | Undefined => False
  end.

Lemma error_close_post path mode w w1 fd f d w2 :
  w_files w !! path = Some f -> open_state fd path mode w w1 ->
  session fd path (o_read mode) (o_write mode) w1 w2 -> d_fd d = fd ->
  (quiet w1 -> ~ openable f) ->
  wp (open_post path mode w) (error_close d) w2.
Proof.
  intros Hf (Hfr & _ & E1 & E2 & Hq) Hs Hd Hn. rewrite <-E1 in Hf.
  eapply wp_mono; [by eapply wp_error_close|]. intros o w' (F1 & F2 & d' & ->).
  split; [by rewrite F1, E1|]. right. split; [done|]. split.
  - rewrite F2, E2. by apply delete_insert_id.
  - intros Hqw f' Hf'. rewrite E1, Hf' in Hf. injection Hf as ->. auto.
Qed.

Lemma u64_sub_range a b ssz L : a * ssz = L -> 0 < ssz -> 0 <= L < 2 ^ 63 -> 0 <= b <= a ->
  0 <= u64 (a - b) * ssz < 2 ^ 63 /\ u64 (a - b) * ssz = L - b * ssz.
Proof.
  intros E Hs HL Hb. assert (0 <= a < 2 ^ 63) by nia.
  unfold u64. rewrite Z.mod_small by lia. nia.
Qed.

Lemma wp_DriveOpen path mode w :
  o_read mode = true -> o_creat mode = false -> o_trunc mode = false ->
  (forall f, w_files w !! path = Some f -> medium_ok f) ->
  wp (open_post path mode w) (DriveOpen path mode) w.
Proof.
  intros Hr Hc Ht Hmed. unfold DriveOpen. apply wp_bind, wp_open; [done|done| |].
  { intros w1 Hu Hq. simpl. apply wp_ret. destruct Hu as (E1 & E2 & E3).
    split; [done|]. right. split; [done|]. split; [done|].
    intros H f Hf [[s Hk] _]. destruct (Hq H) as [Hno|[d Hno]]; rewrite Hno in Hf; [done|].
    injection Hf as <-. simpl in Hk. by destruct Hk. }
  intros w1 fd f Hf Hsym Hfr Hfd E1 E2 E3. simpl.
  replace (fd =? -1) with false by lia.
  assert (Hos : open_state fd path mode w w1) by (repeat split; auto).
  pose proof (open_state_session _ _ _ _ _ Hos) as Hs1.
  assert (Hf1 : w_files w1 !! path = Some f) by (by rewrite E1).
  destruct (Hmed f Hf) as [Hssz HL].
  assert (Hex : forall w2 c, w_files w2 = w_files w1 -> ~ quiet w1 ->
    open_post path mode w (Exit c) w2) by (intros w2 c F Hq; split; [by rewrite F|auto]).
  apply wp_bind. eapply wp_mono.
  { eapply (wp_drive_geometry _ _ _ _ _ _ (set_fd fd zero_drive) _ Hf1 Hs1 eq_refl).
    intros s Ek. unfold sector_size in Hssz. by rewrite Ek in Hssz. }
  intros o w2 (Hs2 & ok & d & -> & Hd & H).
  destruct ok; simpl; [|by eapply error_close_post].
  destruct H as [Hk ->]. simpl in Hd |- *. clear Hd.
  set (L := Z.of_nat (length (f_data f))) in *. set (ssz := sector_size f) in *.
  replace (ssz =? 0) with false by lia.
  unfold truthy. destruct (Z.eqb_spec (L mod ssz) 0) as [Hmod|Hmod]; simpl.
  2:{ eapply error_close_post; [done|exact Hos|exact Hs2|done|]. by intros _ (_ & ? & _). }
  assert (Hds : (L / ssz) * ssz = L) by lia.
  assert (Hopen : openable f -> 34 <= L / ssz).
  { intros (_ & _ & H). fold ssz L in H. nia. }
  set (ds := L / ssz) in *. rewrite Hr in Hs1, Hs2.
  unfold primary_entries_sector, GPT_PMBR_SECTOR, GPT_HEADER_SECTOR, GPT_ENTRIES_SECTORS in *.
  change (1 + 1) with 2.
  assert (Hclose : forall w' d', session fd path true (o_write mode) w1 w' -> d_fd d' = fd ->
    (quiet w1 -> 34 <= ds -> False) -> wp (open_post path mode w) (error_close d') w').
  { intros w' d' Hs' Hd' Hq. eapply error_close_post; [done|exact Hos|by rewrite Hr|done|].
    intros H Ho. by apply Hq; [|apply Hopen]. }
  eapply wp_Load_then; [exact Hf1|lia..|exact Hs2| | |exact Hex].
  2:{ intros w3 Hs3 Hq. apply Hclose; [done|done|]. intros H Ho. apply (Hq H). fold L. nia. }
  intros w3 b1 Hs3 Hl1. simpl. unfold secondary_header_sector, GPT_PMBR_SECTOR. simpl.
  eapply wp_Load_then; [exact Hf1|lia..|exact Hs3| | |exact Hex].
  2:{ intros w4 Hs4 Hq. apply Hclose; [done|done|]. intros H Ho. apply (Hq H). fold L.
      destruct (u64_sub_range ds 1 ssz L); lia. }
  intros w4 b2 Hs4 Hl2. simpl.
  eapply wp_Load_then; [exact Hf1|lia..|exact Hs4| | |exact Hex].
  2:{ intros w5 Hs5 Hq. apply Hclose; [done|done|]. intros H Ho. apply (Hq H). fold L. nia. }
  intros w5 b3 Hs5 Hl3. simpl. unfold secondary_entries_sector, GPT_HEADER_SECTOR, GPT_ENTRIES_SECTORS.
  simpl. replace (ds - 1 - 32) with (ds - 33) by lia.
  eapply wp_Load_then; [exact Hf1|lia..|exact Hs5| | |exact Hex].
  2:{ intros w6 Hs6 Hq. apply Hclose; [done|done|]. intros H Ho. apply (Hq H). fold L.
      destruct (u64_sub_range ds 33 ssz L); lia. }
  intros w6 b4 Hs6 Hl4. simpl. apply wp_ret. split; [by rewrite (se_files _ _ _ _ _ _ Hs6)|].
  left. split; [done|]. exists f, w1.
  split; [done|]. split; [exact Hos|]. split; [by rewrite Hr|]. by constructor.
Qed.

(** ** Closing *)

(** A session during which the file behind [fd] has come to hold [data]. *)
Record wsession (fd : Z) (path : string) (r : bool) (k : fkind) (w0 : world) (data : bytes)
    (w : world) : Prop := {
  ws_files : w_files w = <[ path := mkFile k data ]> (w_files w0);
  ws_fds : delete fd (w_fds w) = delete fd (w_fds w0);
  ws_quiet : quiet w0 -> quiet w;
  ws_open : exists off, 0 <= off /\ w_fds w !! fd = Some (mkFd path off r true)
}.

Lemma session_wsession fd path r w0 w f : w_files w0 !! path = Some f ->
  session fd path r true w0 w -> wsession fd path r (f_kind f) w0 (f_data f) w.
Proof.
  intros Hf []. split; auto. rewrite se_files0. symmetry. apply insert_id. by destruct f.
Qed.

Lemma wsession_session fd path r k w0 data w :
  wsession fd path r k w0 data w -> session fd path r true w w.
Proof. intros []. by split. Qed.

Lemma wsession_file fd path r k w0 data w :
  wsession fd path r k w0 data w -> w_files w !! path = Some (mkFile k data).
Proof. intros []. by rewrite ws_files0, lookup_insert_eq. Qed.

Lemma wsession_trans fd path r k w0 data w w' :
  wsession fd path r k w0 data w -> session fd path r true w w' ->
  wsession fd path r k w0 data w'.
Proof. intros [] []. split; [congruence|congruence|auto|done]. Qed.

(** One structure written at [off]: some prefix of it, all of it when the call succeeds. *)
Lemma wp_Save fd path r k w0 data w buf sector ssz n :
  wsession fd path r k w0 data w ->
  0 < ssz * n < 2 ^ 31 -> 0 <= sector * ssz < 2 ^ 63 -> Z.of_nat (length buf) = ssz * n ->
  sector * ssz + ssz * n <= Z.of_nat (length data) ->
  wp (fun o w' => exists rc j, o = Ret rc /\ (j <= length buf)%nat /\
        wsession fd path r k w0 (splice (Z.to_nat (sector * ssz)) (take j buf) data) w' /\
        (rc = CGPT_OK -> j = length buf) /\ (quiet w0 -> rc = CGPT_OK))
     (Save fd buf sector ssz n) w.
Proof.
  intros Hs Hn Hoff Hbuf Hin. unfold Save. rewrite byte_count_small by lia.
  assert (Hnil : splice (Z.to_nat (sector * ssz)) (take 0 buf) data = data).
  { unfold splice. simpl. rewrite Nat.add_0_r. apply take_drop. }
  apply wp_bind, wp_require.
  2:{ intros H. destruct buf; [simpl in Hbuf; lia|done]. }
  intros _. apply wp_bind. pose proof (wsession_file _ _ _ _ _ _ _ Hs) as Hf.
  eapply session_lseek; [exact Hf|by eapply wsession_session| |]; rewrite ?s64_u64, ?s64_small by lia.
  { intros w1 Hs1 Hq. simpl. apply wp_ret. exists CGPT_FAILED, 0%nat. rewrite Hnil.
    pose proof (wsession_trans _ _ _ _ _ _ _ _ Hs Hs1). split_and!; try done; [lia|].
    intros Hw. apply (ws_quiet _ _ _ _ _ _ _ Hs) in Hw. specialize (Hq Hw).
    lia. }
  intros w1 Hs1 _ Hfd1 _. pose proof (wsession_trans _ _ _ _ _ _ _ _ Hs Hs1) as Hw1.
  replace (-1 =? sector * ssz) with false by lia. rewrite take_ge by lia.
  apply wp_bind. eapply wp_write; [exact Hfd1|done|simpl; lia|intros ->; simpl in Hbuf; lia|simpl; lia| |].
  { intros w2 Hu Hq. replace (-1 <? ssz * n) with true by lia. apply wp_ret.
    exists CGPT_FAILED, 0%nat. rewrite Hnil. split_and!; try done; [lia| |].
    - eapply wsession_trans; [exact Hw1|]. eapply session_unmoved; [by eapply wsession_session|done].
    - intros H. destruct Hq. by apply (ws_quiet _ _ _ _ _ _ _ Hw1). }
  intros w2 j Hj Hjq E1 E2 E3. simpl in *.
  assert (Hw2 : wsession fd path r k w0 (splice (Z.to_nat (sector * ssz)) (take j buf) data) w2).
  { destruct Hw1. apply insert_delete_fd in E2 as [E2 E4]. split.
    - by rewrite E1, ws_files0, insert_insert_eq.
    - congruence.
    - auto.
    - eexists. split; [|exact E4]. lia. }
  destruct (Z.ltb_spec (Z.of_nat j) (ssz * n)); apply wp_ret.
  - exists CGPT_FAILED, j. split_and!; try done. intros Hw.
    apply (ws_quiet _ _ _ _ _ _ _ Hw1) in Hw. specialize (Hjq Hw). lia.
  - exists CGPT_OK, j. split_and!; try done. intros _. lia.
Qed.

(** The drive image with the first [j] bytes of [buf] stored at sector [sector]. *)
Definition stored (sector : Z) (buf : bytes) (j : nat) (data : bytes) : bytes :=
  splice (Z.to_nat (sector * 512)) (take j buf) data.

(** The image after the modified structures of [g] are written to it. *)
Definition put (due : bool) (sector : Z) (buf data : bytes) : bytes :=
  if due then stored sector buf (length buf) data else data.

Definition write_back (g : GptData) (data : bytes) : bytes :=
  put (modified_bit g GPT_MODIFIED_ENTRIES2) (drive_sectors g - 33) (secondary_entries g)
    (put (modified_bit g GPT_MODIFIED_ENTRIES1) 2 (primary_entries g)
      (put (modified_bit g GPT_MODIFIED_HEADER2) (drive_sectors g - 1) (secondary_header g)
        (put (modified_bit g GPT_MODIFIED_HEADER1) 1 (primary_header g) data))).

(** The image after a possibly interrupted write. *)
Definition partly_written (g : GptData) (data data' : bytes) : Prop :=
  exists j1 j2 j3 j4,
    (j1 <= 512)%nat /\ (j2 <= 512)%nat /\ Z.of_nat j3 <= 16384 /\ Z.of_nat j4 <= 16384 /\
    data' = stored (drive_sectors g - 33) (secondary_entries g) j4
      (stored 2 (primary_entries g) j3
        (stored (drive_sectors g - 1) (secondary_header g) j2
          (stored 1 (primary_header g) j1 data))).

(** The drive is open on a file whose size matches the geometry. *)
Record geometry (g : GptData) (data : bytes) : Prop := {
  ge_ssz : sector_bytes g = 512;
  ge_min : 67 <= drive_sectors g;
  ge_size : drive_sectors g * 512 = Z.of_nat (length data);
  ge_max : Z.of_nat (length data) < 2 ^ 63
}.

Lemma stored_nil sector buf data : stored sector buf 0 data = data.
Proof. unfold stored, splice. simpl. rewrite Nat.add_0_r. apply take_drop. Qed.

Lemma length_stored sector buf j data :
  0 <= sector -> sector * 512 + Z.of_nat (length buf) <= Z.of_nat (length data) ->
  length (stored sector buf j data) = length data.
Proof. intros. unfold stored. apply length_splice. len. Qed.

Lemma wp_save_if {B} (Q : outcome B -> world -> Prop) (kont : Z -> M B) (due : bool) fd path r k w0 data w buf sector n :
  wsession fd path r k w0 data w ->
  0 < n < 2 ^ 20 -> 0 <= sector -> Z.of_nat (length buf) = 512 * n ->
  sector * 512 + 512 * n <= Z.of_nat (length data) -> Z.of_nat (length data) < 2 ^ 63 ->
  (forall (e : Z) (j : nat) w', (j <= length buf)%nat -> wsession fd path r k w0 (stored sector buf j data) w' ->
     (e = 0 /\ j = (if due then length buf else 0%nat) \/ e = 1 /\ ~ quiet w0) ->
     wp Q (kont e) w') ->
  wp Q (bind (save_if due fd buf sector 512 n) kont) w.
Proof.
  intros Hs Hn Hsec Hbuf Hin HL H. apply wp_bind. unfold save_if. destruct due.
  - apply wp_bind. eapply wp_mono; [by eapply wp_Save; [exact Hs|lia..]|].
    intros o w' (rc & j & -> & Hj & Hw & Hok & Hq). apply wp_ret.
    destruct (Z.eqb_spec rc CGPT_OK) as [E|E]; simpl.
    + apply (H 0 j); [done|done|]. left. auto.
    + apply (H 1 j); [done|done|]. right. auto.
  - apply wp_ret. apply (H 0 0%nat); [lia| |by left]. by rewrite stored_nil.
Qed.

Lemma wp_DriveClose fd path r k w0 data w d :
  wsession fd path r k w0 data w -> d_fd d = fd ->
  gpt_ok (d_gpt d) -> geometry (d_gpt d) data ->
  wp (fun o w' => exists rc d' data', o = Ret (rc, d') /\
        w_files w' = <[ path := mkFile k data' ]> (w_files w0) /\
        w_fds w' = delete fd (w_fds w0) /\ (quiet w0 -> quiet w') /\
        partly_written (d_gpt d) data data' /\
        (rc = CGPT_OK /\ data' = write_back (d_gpt d) data \/ rc = CGPT_FAILED /\ ~ quiet w0))
    (DriveClose d true) w.
Proof.
  intros Hs <- [[_ L1] [_ L2] [_ L3] [_ L4] Hds _] [Hz Hmin Hsize HL]. unfold TOTAL_ENTRIES_SIZE in *.
  unfold DriveClose. simpl. rewrite Hz.
  unfold secondary_header_sector, secondary_entries_sector, primary_entries_sector.
  unfold GPT_PMBR_SECTOR, GPT_HEADER_SECTOR, GPT_ENTRIES_SECTORS. change (1 + 1) with 2.
  replace (u64 (drive_sectors (d_gpt d) - 1)) with (drive_sectors (d_gpt d) - 1)
    by (symmetry; apply Z.mod_small; lia).
  replace (u64 (drive_sectors (d_gpt d) - 1 - 32)) with (drive_sectors (d_gpt d) - 33)
    by (symmetry; unfold u64; rewrite Z.mod_small; lia).
  eapply wp_save_if; [exact Hs|lia..|]. intros e1 j1 w1 J1 Hs1 O1.
  pose proof (length_stored 1 (primary_header (d_gpt d)) j1 data ltac:(lia) ltac:(lia)) as N1.
  eapply wp_save_if; [exact Hs1|lia..|]. intros e2 j2 w2 J2 Hs2 O2.
  assert (N2 : length (stored (drive_sectors (d_gpt d) - 1) (secondary_header (d_gpt d)) j2
    (stored 1 (primary_header (d_gpt d)) j1 data)) = length data) by (rewrite length_stored; lia).
  eapply wp_save_if; [exact Hs2|lia..|]. intros e3 j3 w3 J3 Hs3 O3.
  assert (N3 : length (stored 2 (primary_entries (d_gpt d)) j3
    (stored (drive_sectors (d_gpt d) - 1) (secondary_header (d_gpt d)) j2
      (stored 1 (primary_header (d_gpt d)) j1 data))) = length data) by (rewrite length_stored; lia).
  eapply wp_save_if; [exact Hs3|lia..|]. intros e4 j4 w4 J4 Hs4 O4.
  pose proof (wsession_file _ _ _ _ _ _ _ Hs4) as Hf4.
  destruct (session_file _ _ _ _ _ _ Hf4 _ (wsession_session _ _ _ _ _ _ _ Hs4)) as (o & _ & Ho).
  apply wp_bind. eapply wp_close; [exact Ho|]. intros w5 E1 E2 E3. apply wp_ret.
  exists (if truthy (e1 + e2 + e3 + e4) then CGPT_FAILED else CGPT_OK). eexists _, _.
  split; [done|]. destruct Hs4 as [F1 F2 F3 _].
  split; [rewrite E1; exact F1|]. split; [by rewrite E2|]. split; [auto|]. split.
  { exists j1, j2, j3, j4. split_and!; try lia. done. }
  destruct (truthy (e1 + e2 + e3 + e4)) eqn:Et; bprop.
  - right. split; [done|]. intros Hq. apply Et. intuition lia.
  - left. split; [done|].
    assert (e1 = 0 /\ e2 = 0 /\ e3 = 0 /\ e4 = 0) as (-> & -> & -> & ->) by (intuition lia).
    destruct O1 as [[_ ->]|[? _]], O2 as [[_ ->]|[? _]], O3 as [[_ ->]|[? _]], O4 as [[_ ->]|[? _]]; try done.
    unfold write_back, put, modified_bit, truthy.
    repeat case_match; simpl; rewrite ?stored_nil; done.
Qed.

(** ** The table on a drive of 512-byte sectors *)

Definition disk_sectors (data : bytes) : Z := Z.of_nat (length data) / 512.

Definition disk_gpt (data : bytes) : GptData :=
  let ds := disk_sectors data in
  mkGptData (slice 512 512 data) (slice (Z.to_nat ((ds - 1) * 512)) 512 data)
    (slice 1024 table_len data)
    (slice (Z.to_nat ((ds - 33) * 512)) table_len data)
    512 ds 0 0 0 0 0.

(** A drive large enough for both copies. *)
Record disk_ok (data : bytes) : Prop := {
  di_bytes : bytes_ok data;
  di_sectors : disk_sectors data * 512 = Z.of_nat (length data);
  di_min : 67 <= disk_sectors data;
  di_max : Z.of_nat (length data) < 2 ^ 63
}.

Lemma disk_gpt_ok data : disk_ok data -> gpt_ok (disk_gpt data).
Proof.
  intros [Hb Hs Hmin Hmax]. pose proof table_len_Z. unfold disk_gpt, TOTAL_ENTRIES_SIZE.
  split; cbn [primary_header secondary_header primary_entries secondary_entries drive_sectors modified];
    try (split; [by apply bytes_ok_slice|rewrite length_slice; unfold TOTAL_ENTRIES_SIZE; lia]); lia.
Qed.

Lemma disk_geometry data g :
  disk_ok data -> sector_bytes g = 512 -> drive_sectors g = disk_sectors data -> geometry g data.
Proof. intros [] E1 E2. split; rewrite ?E2; done. Qed.

(** An opened drive holds the table of its image. *)
Lemma drive_of_disk f d : disk_ok (f_data f) -> sector_size f = 512 -> drive_of f d ->
  d_gpt d = disk_gpt (f_data f).
Proof.
  intros [_ Hds Hmin Hmax] Hsz [S1 _ S2 L1 L2 L3 L4 M1 M2 M3 M4 M5]. rewrite Hsz in *.
  assert (E : drive_sectors (d_gpt d) = disk_sectors (f_data f)) by lia. rewrite E in *.
  unfold loaded in *. destruct L1 as (_ & _ & L1), L2 as (_ & _ & L2), L3 as (_ & _ & L3),
    L4 as (_ & _ & L4).
  replace (u64 (disk_sectors (f_data f) - 1)) with (disk_sectors (f_data f) - 1) in L2
    by (symmetry; apply Z.mod_small; lia).
  replace (u64 (disk_sectors (f_data f) - 33)) with (disk_sectors (f_data f) - 33) in L4
    by (symmetry; apply Z.mod_small; lia).
  rewrite s64_small in L1, L2, L3, L4 by lia.
  replace (Z.to_nat (512 * 32)) with table_len in * by (pose proof table_len_Z; lia).
  unfold disk_gpt. destruct (d_gpt d). simpl in *. by subst.
Qed.

Lemma disk_openable f : f_kind f = Regular \/ f_kind f = Block 512 -> disk_ok (f_data f) ->
  openable f /\ sector_size f = 512 /\ medium_ok f.
Proof.
  intros Hk [_ Hds Hmin Hmax].
  assert (E : sector_size f = 512) by (unfold sector_size; by destruct Hk as [-> | ->]).
  unfold openable, medium_ok. rewrite E. split_and!; try done; try lia.
  exists 512. tauto.
Qed.

(** Reading back what [write_back] stored. *)
Lemma length_put due sector buf data :
  0 <= sector -> sector * 512 + Z.of_nat (length buf) <= Z.of_nat (length data) ->
  length (put due sector buf data) = length data.
Proof. intros. unfold put. destruct due; [by apply length_stored|done]. Qed.

Lemma slice_put_same due sector buf data n :
  0 <= sector -> sector * 512 + Z.of_nat (length buf) <= Z.of_nat (length data) -> n = length buf ->
  due = true \/ buf = slice (Z.to_nat (sector * 512)) n data ->
  slice (Z.to_nat (sector * 512)) n (put due sector buf data) = buf.
Proof.
  intros Hs Hl -> Hd. unfold put, stored. destruct due.
  - rewrite take_ge by lia. apply slice_splice_eq. lia.
  - by destruct Hd.
Qed.

Lemma slice_put_other o n due sector buf data :
  0 <= sector -> sector * 512 + Z.of_nat (length buf) <= Z.of_nat (length data) ->
  Z.of_nat o + Z.of_nat n <= sector * 512 \/ sector * 512 + Z.of_nat (length buf) <= Z.of_nat o ->
  slice o n (put due sector buf data) = slice o n data.
Proof.
  intros Hs Hl Hd. unfold put, stored. destruct due; [|done].
  rewrite take_ge by lia. apply slice_splice_ne; lia.
Qed.

(** Same table, whatever the bookkeeping fields. *)
Record same_table (g g' : GptData) : Prop := {
  sm_h1 : primary_header g' = primary_header g;
  sm_h2 : secondary_header g' = secondary_header g;
  sm_e1 : primary_entries g' = primary_entries g;
  sm_e2 : secondary_entries g' = secondary_entries g;
  sm_ssz : sector_bytes g' = sector_bytes g;
  sm_ds : drive_sectors g' = drive_sectors g
}.

(** Each structure of [g] is marked modified or is what the image holds. *)
Definition tracked (g : GptData) (data : bytes) : Prop :=
  (modified_bit g GPT_MODIFIED_HEADER1 = true \/ primary_header g = primary_header (disk_gpt data)) /\
  (modified_bit g GPT_MODIFIED_HEADER2 = true \/ secondary_header g = secondary_header (disk_gpt data)) /\
  (modified_bit g GPT_MODIFIED_ENTRIES1 = true \/ primary_entries g = primary_entries (disk_gpt data)) /\
  (modified_bit g GPT_MODIFIED_ENTRIES2 = true \/ secondary_entries g = secondary_entries (disk_gpt data)).

Lemma tracked_all g data :
  (forall m, m = 1 \/ m = 2 \/ m = 4 \/ m = 8 -> modified_bit g m = true) -> tracked g data.
Proof. intros H. split_and!; left; apply H; auto. Qed.

Lemma disk_gpt_write_back g data :
  gpt_ok g -> geometry g data -> tracked g data ->
  same_table g (disk_gpt (write_back g data)) /\ length (write_back g data) = length data.
Proof.
  intros [[_ L1] [_ L2] [_ L3] [_ L4] _ _] [Hz Hmin Hsize Hmax] (T1 & T2 & T3 & T4).
  unfold TOTAL_ENTRIES_SIZE in *. pose proof table_len_Z. unfold write_back. set (ds := drive_sectors g) in *.
  assert (E0 : disk_sectors data = ds) by (unfold disk_sectors; lia).
  unfold disk_gpt in T1, T2, T3, T4. rewrite E0 in T1, T2, T3, T4.
  cbn [primary_header secondary_header primary_entries secondary_entries] in T1, T2, T3, T4.
  set (d1 := put _ 1 _ data). set (d2 := put _ (ds - 1) _ d1). set (d3 := put _ 2 _ d2).
  set (d4 := put _ (ds - 33) _ d3).
  assert (N1 : length d1 = length data) by (apply length_put; lia).
  assert (N2 : length d2 = length data) by (rewrite <-N1; apply length_put; lia).
  assert (N3 : length d3 = length data) by (rewrite <-N2; apply length_put; lia).
  assert (N4 : length d4 = length data) by (rewrite <-N3; apply length_put; lia).
  split; [|done].
  assert (E : disk_sectors d4 = ds) by (unfold disk_sectors; rewrite N4; lia).
  unfold disk_gpt. rewrite E. unfold TOTAL_ENTRIES_SIZE in *.
  split; cbn [primary_header secondary_header primary_entries secondary_entries sector_bytes
    drive_sectors]; [| | | |by rewrite Hz|reflexivity].
  - subst d4 d3 d2. rewrite !slice_put_other by lia. by apply (slice_put_same _ 1); try lia.
  - subst d4 d3. rewrite !slice_put_other by lia. apply slice_put_same; try lia.
    subst d1. by rewrite slice_put_other by lia.
  - subst d4. rewrite slice_put_other by lia. apply (slice_put_same _ 2); try lia.
    subst d2 d1. by rewrite !slice_put_other by lia.
  - apply slice_put_same; try lia. subst d3 d2 d1. by rewrite !slice_put_other by lia.
Qed.

Lemma write_back_bytes g data : gpt_ok g -> bytes_ok data -> bytes_ok (write_back g data).
Proof.
  intros [[B1 _] [B2 _] [B3 _] [B4 _] _ _] Hd.
  assert (Hput : forall due sector buf d, bytes_ok buf -> bytes_ok d -> bytes_ok (put due sector buf d)).
  { intros [] sector buf d Hb Hdd; [|done]. apply bytes_ok_splice; [by apply bytes_ok_take|done]. }
  unfold write_back. by repeat apply Hput.
Qed.
