(* ===== verification/CgptCommon.v ===== *)
(** * Common operations on a loaded partition table (gpt/lib/cgpt_common.c, second half)

    Entry lookup and attributes, recomputing checksums, rebuilding one copy from the other.
    An entry pointer is the table it points into and a byte offset. *)

From stdpp Require Import base list numbers gmap strings.
From Stdlib Require Import ZArith Lia.
From S2P Require Import Prelude Crc32 GptTypes GptLib Posix Drive.

(** ** Types with names *)

Definition supported_types : list (Guid * string * string) :=
  [ (GPT_ENT_TYPE_CHROMEOS_FIRMWARE, "firmware", "ChromeOS firmware");
    (GPT_ENT_TYPE_CHROMEOS_KERNEL, "kernel", "ChromeOS kernel");
    (GPT_ENT_TYPE_CHROMEOS_ROOTFS, "rootfs", "ChromeOS rootfs");
    (GPT_ENT_TYPE_LINUX_DATA, "data", "Linux data");
    (GPT_ENT_TYPE_CHROMEOS_RESERVED, "reserved", "ChromeOS reserved");
    (GPT_ENT_TYPE_EFI, "efi", "EFI System Partition");
    (GPT_ENT_TYPE_UNUSED, "unused", "Unused (nonexistent) partition") ]%string.

Definition GuidEqual (guid1 guid2 : Guid) : bool := memeq GUID_SIZE guid1 guid2.
Definition IsZero (gp : Guid) : bool := GuidEqual gp GPT_ENT_TYPE_UNUSED.

(** The description of a known type, [None] for [CGPT_FAILED]. *)
Definition ResolveType (type : Guid) : option string :=
  list_find (fun t => GuidEqual type t.1.1 = true) supported_types ≫= fun '(_, t) => Some t.2.

(** The type of a known name, [None] for [CGPT_FAILED]. *)
Definition SupportedType (name : string) : option Guid :=
  list_find (fun t => t.1.2 = name) supported_types ≫= fun '(_, t) => Some t.1.1.

(** ** Entry lookup *)

Definition GetNumberOfEntries (g : GptData) : Z :=
  if truthy (Z.land (valid_headers g) MASK_PRIMARY) then h_number_of_entries (primary_header g)
  else if truthy (Z.land (valid_headers g) MASK_SECONDARY)
  then h_number_of_entries (secondary_header g)
  else 0.

Definition GetSizeOfEntries (g : GptData) : Z :=
  if truthy (Z.land (valid_headers g) MASK_PRIMARY) then h_size_of_entry (primary_header g)
  else if truthy (Z.land (valid_headers g) MASK_SECONDARY) then h_size_of_entry (secondary_header g)
  else 0.

(** A [GptEntry *]: the table ([PRIMARY] or [SECONDARY]) and the byte offset in it. *)
Record entry_ptr := mkEntry { ep_secondary : bool; ep_off : nat }.

Definition ep_table (p : entry_ptr) (g : GptData) : bytes :=
  if ep_secondary p then secondary_entries g else primary_entries g.
Definition ep_update (p : entry_ptr) (f : nat -> bytes -> bytes) (g : GptData) : GptData :=
  if ep_secondary p
  then set_secondary_entries (f (ep_off p) (secondary_entries g)) g
  else set_primary_entries (f (ep_off p) (primary_entries g)) g.

Definition GetEntry (g : GptData) (secondary entry_index : Z) : M entry_ptr :=
  let stride := GetSizeOfEntries g in
  require (truthy stride) ;;
  require (entry_index <? GetNumberOfEntries g) ;;
  let! sec :=
    if secondary =? PRIMARY then ret false
    else if secondary =? SECONDARY then ret true
    else
      require (secondary =? ANY_VALID) ;;
      if truthy (Z.land (valid_entries g) MASK_PRIMARY) then ret false
      else (require (truthy (Z.land (valid_entries g) MASK_SECONDARY)) ;; ret true) in
  ret (mkEntry sec (Z.to_nat (u32 (stride * entry_index)))).

(** ** Attributes *)

Definition att_set (mask off value : Z) (o : nat) (t : bytes) : bytes :=
  let t := set_e_gpt_att o (Z.ldiff (e_gpt_att o t) mask) t in
  set_e_gpt_att o (Z.lor (e_gpt_att o t) (Z.shiftl value off)) t.

Definition att_get (mask off : Z) (o : nat) (t : bytes) : Z :=
  Z.shiftr (Z.land (e_gpt_att o t) mask) off.

Definition SetPriority (g : GptData) (secondary entry_index priority : Z) : M GptData :=
  let! e := GetEntry g secondary entry_index in
  require (priority <=? CGPT_ATTRIBUTE_MAX_PRIORITY) ;;
  ret (ep_update e (att_set CGPT_ATTRIBUTE_PRIORITY_MASK CGPT_ATTRIBUTE_PRIORITY_OFFSET priority) g).

Definition GetPriority (g : GptData) (secondary entry_index : Z) : M Z :=
  let! e := GetEntry g secondary entry_index in
  ret (att_get CGPT_ATTRIBUTE_PRIORITY_MASK CGPT_ATTRIBUTE_PRIORITY_OFFSET (ep_off e) (ep_table e g)).

Definition SetTries (g : GptData) (secondary entry_index tries : Z) : M GptData :=
  let! e := GetEntry g secondary entry_index in
  require (tries <=? CGPT_ATTRIBUTE_MAX_TRIES) ;;
  ret (ep_update e (att_set CGPT_ATTRIBUTE_TRIES_MASK CGPT_ATTRIBUTE_TRIES_OFFSET tries) g).

Definition GetTries (g : GptData) (secondary entry_index : Z) : M Z :=
  let! e := GetEntry g secondary entry_index in
  ret (att_get CGPT_ATTRIBUTE_TRIES_MASK CGPT_ATTRIBUTE_TRIES_OFFSET (ep_off e) (ep_table e g)).

Definition SetSuccessful (g : GptData) (secondary entry_index success : Z) : M GptData :=
  let! e := GetEntry g secondary entry_index in
  require (success <=? CGPT_ATTRIBUTE_MAX_SUCCESSFUL) ;;
  ret (ep_update e (att_set CGPT_ATTRIBUTE_SUCCESSFUL_MASK CGPT_ATTRIBUTE_SUCCESSFUL_OFFSET success) g).

Definition GetSuccessful (g : GptData) (secondary entry_index : Z) : M Z :=
  let! e := GetEntry g secondary entry_index in
  ret (att_get CGPT_ATTRIBUTE_SUCCESSFUL_MASK CGPT_ATTRIBUTE_SUCCESSFUL_OFFSET (ep_off e) (ep_table e g)).

Definition GptError (errnum : Z) : string :=
  let error_string :=
    [ "GPT_SUCCESS"; "GPT_ERROR_NO_VALID_KERNEL"; "GPT_ERROR_INVALID_HEADERS";
      "GPT_ERROR_INVALID_ENTRIES"; "GPT_ERROR_INVALID_SECTOR_SIZE";
      "GPT_ERROR_INVALID_SECTOR_NUMBER"; "GPT_ERROR_INVALID_UPDATE_TYPE" ]%string in
  if Z.of_nat (length error_string) <=? u32 errnum then "<illegal value>"%string
  else nth (Z.to_nat (u32 errnum)) error_string ""%string.

(** ** Checksums *)

(** [memcmp(header, GPT_HEADER_SIGNATURE2, GPT_HEADER_SIGNATURE_SIZE) == 0]: the nine bytes
    include the string's terminator, compared with the low byte of the revision. *)
Definition is_chromeos_header (h : bytes) : bool :=
  memeq GPT_HEADER_SIGNATURE_SIZE h (GPT_HEADER_SIGNATURE2 ++ [0]).

Definition update_header_crc (h : bytes) : bytes :=
  let h := set_h_header_crc32 0 h in
  set_h_header_crc32 (Crc32 h (Z.of_nat sizeof_GptHeader)) h.

Definition UpdateCrc (g : GptData) : GptData :=
  let g :=
    if modified_bit g GPT_MODIFIED_ENTRIES1 && negb (is_chromeos_header (primary_header g))
    then set_primary_header
           (set_h_entries_crc32 (Crc32 (primary_entries g) TOTAL_ENTRIES_SIZE) (primary_header g)) g
    else g in
  let g :=
    if modified_bit g GPT_MODIFIED_ENTRIES2
    then set_secondary_header
           (set_h_entries_crc32 (Crc32 (secondary_entries g) TOTAL_ENTRIES_SIZE) (secondary_header g)) g
    else g in
  let g :=
    if modified_bit g GPT_MODIFIED_HEADER1
    then set_primary_header (update_header_crc (primary_header g)) g else g in
  if modified_bit g GPT_MODIFIED_HEADER2
  then set_secondary_header (update_header_crc (secondary_header g)) g else g.

(** ** Rebuilding one copy from the other *)

Definition IsSynonymous (a b : bytes) : bool :=
  (h_first_usable_lba a =? h_first_usable_lba b) &&
  (h_last_usable_lba a =? h_last_usable_lba b) &&
  (h_number_of_entries a =? h_number_of_entries b) &&
  (h_size_of_entry a =? h_size_of_entry b) &&
  memeq GUID_SIZE (h_disk_uuid a) (h_disk_uuid b).

(** [memcpy(dst, src, TOTAL_ENTRIES_SIZE)] *)
Definition copy_entries (src dst : bytes) : bytes :=
  splice 0 (take table_len src) dst.

(** The bits for [GptData.modified], and the table. *)
Definition RepairEntries (g : GptData) (valid_entries : Z) : Z * GptData :=
  if memeq (GPT_HEADER_SIGNATURE_SIZE - 1) (h_signature (primary_header g)) GPT_HEADER_SIGNATURE2
  then (0, g)
  else if valid_entries =? MASK_BOTH then
    if negb (memeq table_len (primary_entries g) (secondary_entries g))
    then (GPT_MODIFIED_ENTRIES2,
          set_secondary_entries (copy_entries (primary_entries g) (secondary_entries g)) g)
    else (0, g)
  else if valid_entries =? MASK_PRIMARY then
    (GPT_MODIFIED_ENTRIES2,
     set_secondary_entries (copy_entries (primary_entries g) (secondary_entries g)) g)
  else if valid_entries =? MASK_SECONDARY then
    (GPT_MODIFIED_ENTRIES1,
     set_primary_entries (copy_entries (secondary_entries g) (primary_entries g)) g)
  else (0, g).

Definition CopySynonymousParts (target source : bytes) : bytes :=
  let t := set_h_first_usable_lba (h_first_usable_lba source) target in
  let t := set_h_last_usable_lba (h_last_usable_lba source) t in
  let t := set_h_number_of_entries (h_number_of_entries source) t in
  let t := set_h_size_of_entry (h_size_of_entry source) t in
  set_h_disk_uuid (h_disk_uuid source) t.

Definition RepairHeader (g : GptData) (valid_headers : Z) : Z * GptData :=
  let h1 := primary_header g in
  let h2 := secondary_header g in
  if valid_headers =? MASK_BOTH then
    if negb (IsSynonymous h1 h2)
    then (GPT_MODIFIED_HEADER2, set_secondary_header (CopySynonymousParts h2 h1) g)
    else (0, g)
  else if valid_headers =? MASK_PRIMARY then
    let h := copy_header h1 h2 in
    let h := set_h_my_lba (u64 (drive_sectors g - 1)) h in
    let h := set_h_alternate_lba (h_my_lba h1) h in
    let h := set_h_entries_lba (u64 (h_my_lba h - GPT_ENTRIES_SECTORS)) h in
    (GPT_MODIFIED_HEADER2, set_secondary_header h g)
  else if valid_headers =? MASK_SECONDARY then
    let h := copy_header h2 h1 in
    let h := set_h_my_lba GPT_PMBR_SECTOR h in
    let h := set_h_alternate_lba (h_my_lba h2) h in
    let h := set_h_entries_lba (u64 (h_my_lba h + GPT_HEADER_SECTOR)) h in
    (GPT_MODIFIED_HEADER1, set_primary_header h g)
  else (0, g).

(** What the commands that change the table run before writing it (the same statements close
    [cgpt_set_attributes], [cgpt_add] and [cgpt_prioritize]). *)
Definition GPT_MODIFIED_ALL : Z :=
  Z.lor (Z.lor GPT_MODIFIED_HEADER1 GPT_MODIFIED_ENTRIES1)
        (Z.lor GPT_MODIFIED_HEADER2 GPT_MODIFIED_ENTRIES2).

Definition commit (g : GptData) : GptData :=
  let g := (RepairEntries g MASK_PRIMARY).2 in
  let g := (RepairHeader g MASK_PRIMARY).2 in
  UpdateCrc (or_modified GPT_MODIFIED_ALL g).
