(* ===== verification/CommitSpec.v ===== *)
(** * Committing a changed table (theorems about [RepairEntries], [RepairHeader], [UpdateCrc])

    The statements that close every command that changes the table leave two valid, matching
    copies of it whenever the primary header is an ordinary one. *)

From stdpp Require Import base list numbers gmap strings.
From Stdlib Require Import ZArith Lia.
From S2P Require Import Prelude Crc32 GptTypes GptLib GptSanity Posix Drive CgptCommon.

(** ** Ordinary primary headers, checksums aside *)

Record header_wf (h : bytes) (ds : Z) : Prop := {
  hw_signature : h_signature h = GPT_HEADER_SIGNATURE;
  hw_revision : h_revision h = GPT_HEADER_REVISION;
  hw_size : h_size h = 92;
  hw_reserved : h_reserved_zero h = 0;
  hw_size_of_entry : h_size_of_entry h = 128;
  hw_number : h_number_of_entries h = 128;
  hw_my_lba : h_my_lba h = 1;
  hw_entries_lba : h_entries_lba h = 2;
  hw_first : 34 <= h_first_usable_lba h;
  hw_order : h_first_usable_lba h <= h_last_usable_lba h;
  hw_last : h_last_usable_lba h < ds - 33;
}.

(** The partitions of a table of 128 entries, between two sectors. *)
Record table_wf (t : bytes) (first last : Z) : Prop := {
  tw_region i : (i < 128)%nat -> used t i -> first <= e_start t i <= e_end t i /\ e_end t i <= last;
  tw_disjoint i j : (i < 128)%nat -> (j < 128)%nat -> i <> j -> used t i -> used t j ->
    e_end t i < e_start t j \/ e_end t j < e_start t i;
  tw_unique i j : (i < 128)%nat -> (j < 128)%nat -> i <> j -> used t i -> used t j ->
    e_guid t i <> e_guid t j;
}.

Lemma entries_valid_wf t h :
  h_number_of_entries h = 128 -> h_size_of_entry h = 128 ->
  entries_valid t h <->
  Crc32 t TOTAL_ENTRIES_SIZE = h_entries_crc32 h /\
  table_wf t (h_first_usable_lba h) (h_last_usable_lba h).
Proof.
  intros Hn Hs. split.
  - intros [Hc Hr Hd Hu]. rewrite Hn, Hs in *. split; [exact Hc|].
    split; intros; [apply Hr|apply Hd|apply Hu]; auto; lia.
  - intros [Hc [Hr Hd Hu]]. split; rewrite ?Hn, ?Hs; [exact Hc|..];
      intros; [apply Hr|apply Hd|apply Hu]; auto; lia.
Qed.

(** ** update_header_crc *)

Lemma hdr_ok_put n o v h : hdr_ok h -> (o + n <= 512)%nat -> hdr_ok (putn n o v h).
Proof. intros [? ?] ?. split; [by apply bytes_ok_putn|by apply length_putn_eq]. Qed.

Lemma hdr_ok_splice o v h :
  hdr_ok h -> bytes_ok v -> (o + length v <= 512)%nat -> hdr_ok (splice o v h).
Proof. intros [? ?] ? ?. split; [by apply bytes_ok_splice|by apply length_splice_eq]. Qed.

Lemma update_header_crc_ok h : hdr_ok h -> hdr_ok (update_header_crc h).
Proof. intros. unfold update_header_crc, set_h_header_crc32. repeat apply hdr_ok_put; auto; lia. Qed.

Lemma update_header_crc_eq h : length h = 512%nat -> h_size h = 92 ->
  update_header_crc h = set_h_header_crc32 (HeaderCrc h) h.
Proof.
  intros L Hs. unfold update_header_crc, HeaderCrc. rewrite Hs. unfold set_h_header_crc32.
  rewrite putn_putn_same by lia. done.
Qed.

(** ** Every operation keeps the buffers well-formed *)

Lemma set_primary_header_ok h g : hdr_ok h -> gpt_ok g -> gpt_ok (set_primary_header h g).
Proof. intros ? []. by split. Qed.
Lemma set_secondary_header_ok h g : hdr_ok h -> gpt_ok g -> gpt_ok (set_secondary_header h g).
Proof. intros ? []. by split. Qed.
Lemma set_primary_entries_ok t g : tbl_ok t -> gpt_ok g -> gpt_ok (set_primary_entries t g).
Proof. intros ? []. by split. Qed.
Lemma set_secondary_entries_ok t g : tbl_ok t -> gpt_ok g -> gpt_ok (set_secondary_entries t g).
Proof. intros ? []. by split. Qed.
Lemma or_modified_ok m g : 0 <= m < 256 -> gpt_ok g -> gpt_ok (or_modified m g).
Proof. intros ? []. split; try done. by apply (lor_bound 8). Qed.

Create HintDb gpt_ok.
#[export] Hint Resolve set_primary_header_ok set_secondary_header_ok set_primary_entries_ok
  set_secondary_entries_ok or_modified_ok hdr_ok_put hdr_ok_splice update_header_crc_ok : gpt_ok.
#[export] Hint Resolve ok_h1 ok_h2 ok_e1 ok_e2 : gpt_ok.

Lemma UpdateCrc_ok g : gpt_ok g -> gpt_ok (UpdateCrc g).
Proof.
  intros Hg. unfold UpdateCrc.
  assert (Hput : forall v h, hdr_ok h -> hdr_ok (set_h_entries_crc32 v h))
    by (intros; apply hdr_ok_put; [done|lia]).
  repeat case_match; repeat first [ done | apply set_secondary_header_ok | apply set_primary_header_ok
    | apply update_header_crc_ok | apply Hput | apply ok_h1 | apply ok_h2 ].
Qed.

Lemma copy_header_hdr_ok src dst : hdr_ok src -> hdr_ok dst -> hdr_ok (copy_header src dst).
Proof.
  intros [? ?] ?. apply hdr_ok_splice; [done|by apply bytes_ok_take|].
  rewrite length_take. unfold sizeof_GptHeader. lia.
Qed.

Lemma RepairHeader_ok g v : gpt_ok g -> gpt_ok (RepairHeader g v).2.
Proof.
  intros Hg. unfold RepairHeader, CopySynonymousParts. autounfold with hdr.
  repeat case_match; cbn [snd]; try done;
    repeat first [ apply set_secondary_header_ok | apply set_primary_header_ok | apply hdr_ok_put; [|lia]
      | apply copy_header_hdr_ok | by apply ok_h1 | by apply ok_h2 | done ].
  apply hdr_ok_splice; [|apply bytes_ok_slice, Hg|rewrite length_slice; lia].
  repeat (apply hdr_ok_put; [|lia]). apply Hg.
Qed.

Lemma RepairHeader_frame g v : let g' := (RepairHeader g v).2 in
  primary_entries g' = primary_entries g /\ secondary_entries g' = secondary_entries g /\
  sector_bytes g' = sector_bytes g /\ drive_sectors g' = drive_sectors g /\ modified g' = modified g.
Proof. unfold RepairHeader. repeat case_match; done. Qed.

Lemma UpdateCrc_frame g : let g' := UpdateCrc g in
  primary_entries g' = primary_entries g /\ secondary_entries g' = secondary_entries g /\
  sector_bytes g' = sector_bytes g /\ drive_sectors g' = drive_sectors g /\ modified g' = modified g.
Proof. unfold UpdateCrc. repeat case_match; done. Qed.

Lemma RepairEntries_ok g v : gpt_ok g -> gpt_ok (RepairEntries g v).2.
Proof.
  intros Hg. unfold RepairEntries, copy_entries.
  rewrite !copy_table by (apply Hg).
  repeat case_match; cbn [snd]; auto using set_secondary_entries_ok, set_primary_entries_ok, ok_e1, ok_e2.
Qed.

Lemma RepairEntries_frame g v : let g' := (RepairEntries g v).2 in
  primary_header g' = primary_header g /\ secondary_header g' = secondary_header g /\
  sector_bytes g' = sector_bytes g /\ drive_sectors g' = drive_sectors g /\ modified g' = modified g.
Proof. unfold RepairEntries. repeat case_match; done. Qed.

(** ** Both copies after [RepairHeader] and [UpdateCrc] *)

Section Finish.
Context (g : GptData) (Hg : gpt_ok g) (Hds : 67 <= drive_sectors g).
Context (Hw : header_wf (primary_header g) (drive_sectors g)).

Local Abbreviation h1 := (primary_header g).
Local Abbreviation crc := (Crc32 (primary_entries g) TOTAL_ENTRIES_SIZE).

(** The primary header with its two checksums updated. *)
Definition new_header1 : bytes := update_header_crc (set_h_entries_crc32 crc h1).

(** The secondary header rebuilt from it. *)
Definition new_header2 : bytes :=
  update_header_crc (set_h_entries_crc32 crc
    (set_h_entries_lba (drive_sectors g - 33) (set_h_alternate_lba 1
      (set_h_my_lba (drive_sectors g - 1) (copy_header h1 (secondary_header g)))))).

Lemma crc_range : 0 <= crc < 2 ^ 32.
Proof using Hg. apply Crc32_u32. apply Hg. Qed.

Lemma new_header1_ok : hdr_ok new_header1.
Proof using Hg. apply update_header_crc_ok, hdr_ok_put; [apply Hg|lia]. Qed.

Lemma copy_header_ok : hdr_ok (copy_header h1 (secondary_header g)).
Proof using Hg.
  destruct Hg as [[? ?] ? _ _ _ _]. apply hdr_ok_splice; [done|by apply bytes_ok_take|].
  rewrite length_take. unfold sizeof_GptHeader. lia.
Qed.

Lemma new_header2_ok : hdr_ok new_header2.
Proof using Hg.
  apply update_header_crc_ok. repeat (apply hdr_ok_put; [|lia]). exact copy_header_ok.
Qed.

Lemma checksum_field h : hdr_ok h -> h_size h = 92 ->
  HeaderCrc (update_header_crc h) = h_header_crc32 (update_header_crc h).
Proof using Type.
  intros Hh Hs. rewrite update_header_crc_eq; [|apply Hh|done]. by apply checksummed.
Qed.

Ltac through :=
  unfold new_header1, new_header2, update_header_crc; hdr_fields; rewrite ?Z.mod_small by lia.

Lemma new_header1_valid : header_valid new_header1 false (drive_sectors g).
Proof using Hg Hds Hw.
  pose proof crc_range as Hc. pose proof (ok_h1 g Hg) as [O1 L1].
  pose proof (hw_signature _ _ Hw). pose proof (hw_revision _ _ Hw). pose proof (hw_size _ _ Hw) as Hs.
  pose proof (hw_reserved _ _ Hw). pose proof (hw_size_of_entry _ _ Hw). pose proof (hw_number _ _ Hw).
  pose proof (hw_my_lba _ _ Hw). pose proof (hw_entries_lba _ _ Hw). pose proof (hw_first _ _ Hw).
  pose proof (hw_order _ _ Hw). pose proof (hw_last _ _ Hw).
  split; [left|..|apply checksum_field; [apply hdr_ok_put; [done|lia]|through; exact Hs]| | | | | | | |];
    through; try done. unfold h_size in Hs. lia.
Qed.

Lemma new_header2_valid : header_valid new_header2 true (drive_sectors g).
Proof using Hg Hds Hw.
  pose proof crc_range as Hc. pose proof (ok_h1 g Hg) as [O1 L1].
  pose proof (ok_h2 g Hg) as [O2 L2]. pose proof (ok_sectors g Hg) as Hd.
  pose proof (hw_signature _ _ Hw). pose proof (hw_revision _ _ Hw). pose proof (hw_size _ _ Hw) as Hs.
  pose proof (hw_reserved _ _ Hw). pose proof (hw_size_of_entry _ _ Hw). pose proof (hw_number _ _ Hw).
  pose proof (hw_my_lba _ _ Hw). pose proof (hw_entries_lba _ _ Hw). pose proof (hw_first _ _ Hw).
  pose proof (hw_order _ _ Hw). pose proof (hw_last _ _ Hw).
  split; [left|..|apply checksum_field;
    [repeat (apply hdr_ok_put; [|lia]); exact copy_header_ok|through; exact Hs]| | | | | | | |];
    through; try done. unfold h_size in Hs. lia.
Qed.

Lemma new_headers_same : HeaderFieldsSame new_header1 new_header2 = 0.
Proof using Hg.
  pose proof (ok_h1 g Hg) as [O1 L1]. pose proof (ok_h2 g Hg) as [O2 L2].
  apply HeaderFieldsSame_0. unfold new_header1, new_header2, update_header_crc.
  repeat split; hdr_fields; reflexivity.
Qed.

(** What the new primary header keeps, and the checksum it carries. *)
Lemma new_header1_keeps :
  h_first_usable_lba new_header1 = h_first_usable_lba h1 /\
  h_last_usable_lba new_header1 = h_last_usable_lba h1 /\
  h_disk_uuid new_header1 = h_disk_uuid h1 /\
  h_signature new_header1 = h_signature h1 /\ h_size new_header1 = h_size h1 /\
  h_entries_crc32 new_header1 = crc.
Proof using Hg.
  pose proof (ok_h1 g Hg) as [O1 L1]. pose proof crc_range.
  unfold new_header1, update_header_crc. repeat split; hdr_fields; try reflexivity.
  apply Z.mod_small. lia.
Qed.
End Finish.

(** ** The commit *)

Lemma modified_all g g1 m :
  modified g1 = Z.lor (modified g) GPT_MODIFIED_ALL ->
  Z.land GPT_MODIFIED_ALL m = m -> m <> 0 -> modified_bit g1 m = true.
Proof.
  intros E H Hm. unfold modified_bit. apply truthy_true. rewrite E, Z.land_lor_distr_l, H.
  intros E'. apply Z.lor_eq_0_iff in E'. tauto.
Qed.

Lemma is_chromeos_header_false h :
  length h = 512%nat -> h_signature h = GPT_HEADER_SIGNATURE -> is_chromeos_header h = false.
Proof.
  intros L H. unfold is_chromeos_header. destruct (memeq _ _ _) eqn:E; [|done].
  apply memeq_spec in E. apply (f_equal (take 8)) in E. rewrite !take_take in E.
  change (take 8 h = GPT_HEADER_SIGNATURE) in H. change (take 8 h = GPT_HEADER_SIGNATURE2) in E.
  rewrite H in E. discriminate.
Qed.

Lemma UpdateCrc_all g : let g1 := or_modified GPT_MODIFIED_ALL g in
  is_chromeos_header (primary_header g) = false ->
  UpdateCrc g1 =
  set_secondary_header (update_header_crc (set_h_entries_crc32
      (Crc32 (secondary_entries g) TOTAL_ENTRIES_SIZE) (secondary_header g)))
    (set_primary_header (update_header_crc (set_h_entries_crc32
      (Crc32 (primary_entries g) TOTAL_ENTRIES_SIZE) (primary_header g))) g1).
Proof.
  intros g1 Hc. unfold UpdateCrc.
  rewrite (modified_all g g1 GPT_MODIFIED_ENTRIES1) by done.
  change (primary_header g1) with (primary_header g). rewrite Hc. cbn [negb andb].
  rewrite (modified_all g _ GPT_MODIFIED_ENTRIES2) by done.
  rewrite (modified_all g _ GPT_MODIFIED_HEADER1) by done.
  rewrite (modified_all g _ GPT_MODIFIED_HEADER2) by done.
  reflexivity.
Qed.

Lemma RepairHeader_primary g : gpt_ok g -> 67 <= drive_sectors g -> h_my_lba (primary_header g) = 1 ->
  RepairHeader g MASK_PRIMARY = (GPT_MODIFIED_HEADER2,
    set_secondary_header (set_h_entries_lba (drive_sectors g - 33) (set_h_alternate_lba 1
      (set_h_my_lba (drive_sectors g - 1) (copy_header (primary_header g) (secondary_header g))))) g).
Proof.
  intros [[_ L1] [_ L2] _ _ Hd _] Hds Hmy. unfold RepairHeader. simpl. rewrite Hmy.
  rewrite (u64_small (drive_sectors g - 1)) by lia. repeat f_equal.
  hdr_fields. rewrite Z.mod_small by lia. unfold GPT_ENTRIES_SECTORS. rewrite u64_small; lia.
Qed.

(** [RepairHeader] and [UpdateCrc] on a table whose two entry arrays agree. *)
Lemma finish_eq g :
  gpt_ok g -> 67 <= drive_sectors g -> header_wf (primary_header g) (drive_sectors g) ->
  secondary_entries g = primary_entries g ->
  UpdateCrc (or_modified GPT_MODIFIED_ALL (RepairHeader g MASK_PRIMARY).2) =
  set_secondary_header (new_header2 g) (set_primary_header (new_header1 g)
    (or_modified GPT_MODIFIED_ALL g)).
Proof.
  intros Hg Hds Hw He. rewrite RepairHeader_primary by (done || apply Hw). cbn [snd].
  rewrite UpdateCrc_all; [|apply is_chromeos_header_false; [apply Hg|apply Hw]].
  cbn [secondary_entries set_secondary_header secondary_header]. rewrite He. reflexivity.
Qed.

(** [commit] in one equation: the primary table in both places, two new headers. *)
Lemma commit_eq g :
  gpt_ok g -> 67 <= drive_sectors g -> header_wf (primary_header g) (drive_sectors g) ->
  commit g = set_secondary_header (new_header2 g) (set_primary_header (new_header1 g)
    (set_secondary_entries (primary_entries g) (or_modified GPT_MODIFIED_ALL g))).
Proof.
  intros Hg Hds Hw. unfold commit.
  assert (E : RepairEntries g MASK_PRIMARY =
    (GPT_MODIFIED_ENTRIES2, set_secondary_entries (primary_entries g) g)).
  { unfold RepairEntries. replace (memeq _ _ _) with false.
    - simpl. unfold copy_entries. by rewrite (copy_table _ _ (ok_e1 _ Hg) (ok_e2 _ Hg)).
    - symmetry. rewrite (hw_signature _ _ Hw). reflexivity. }
  rewrite E. cbn [snd]. destruct Hg. rewrite finish_eq; [reflexivity|by split|done|done|done].
Qed.

Lemma commit_ok g : gpt_ok g -> gpt_ok (commit g).
Proof.
  intros Hg. apply UpdateCrc_ok, or_modified_ok; [by vm_compute|].
  by apply RepairHeader_ok, RepairEntries_ok.
Qed.

Lemma commit_frame g : let g' := commit g in
  sector_bytes g' = sector_bytes g /\ drive_sectors g' = drive_sectors g /\
  (modified g = 0 -> modified g' = GPT_MODIFIED_ALL).
Proof.
  unfold commit. destruct (RepairEntries_frame g MASK_PRIMARY) as (_ & _ & A1 & A2 & A3).
  destruct (RepairHeader_frame (RepairEntries g MASK_PRIMARY).2 MASK_PRIMARY) as (_ & _ & B1 & B2 & B3).
  destruct (UpdateCrc_frame (or_modified GPT_MODIFIED_ALL
    (RepairHeader (RepairEntries g MASK_PRIMARY).2 MASK_PRIMARY).2)) as (_ & _ & C1 & C2 & C3).
  rewrite C1, C2, C3. cbn [or_modified set_modified sector_bytes drive_sectors modified].
  rewrite B1, B2, B3, A1, A2, A3. split_and!; try done. by intros ->.
Qed.

(** The committed table passes the check with both copies valid as soon as its partitions are
    well-formed; the check's answer is [CheckEntries]'s answer on the primary copy. *)
Lemma commit_check g :
  gpt_ok g -> sector_bytes g = 512 -> 67 <= drive_sectors g ->
  header_wf (primary_header g) (drive_sectors g) ->
  table_wf (primary_entries g) (h_first_usable_lba (primary_header g))
    (h_last_usable_lba (primary_header g)) ->
  GptSanityCheck (commit g) =
  (GPT_SUCCESS, set_valid_entries MASK_BOTH (set_valid_headers MASK_BOTH (commit g))).
Proof.
  intros Hg Hs Hds Hw Ht. pose proof (commit_ok g Hg) as Hok. revert Hok.
  rewrite commit_eq by done. intros Hok.
  destruct (new_header1_keeps g Hg) as (F1 & F2 & _ & _ & _ & F3).
  pose proof (new_header1_valid g Hg Hds Hw) as V1.
  assert (He : entries_valid (primary_entries g) (new_header1 g)).
  { apply entries_valid_wf; [apply V1|apply V1|]. by rewrite F1, F2, F3. }
  apply GptSanityCheck_both; try done.
  - exact (new_header2_valid g Hg Hds Hw).
  - exact (new_headers_same g Hg).
Qed.

(** The same for a table whose structures are all marked modified beforehand, as in
    [cgpt_create]. *)
Lemma or_modified_ALL g : modified g = GPT_MODIFIED_ALL -> or_modified GPT_MODIFIED_ALL g = g.
Proof. intros E. unfold or_modified. rewrite E. destruct g. simpl in *. by subst. Qed.

Lemma modified_ALL g m : modified g = GPT_MODIFIED_ALL -> m = 1 \/ m = 2 \/ m = 4 \/ m = 8 ->
  modified_bit g m = true.
Proof. intros E [->|[->|[->| ->]]]; unfold modified_bit; by rewrite E. Qed.

Section FinishModified.
Context (g : GptData) (Hg : gpt_ok g) (Hds : 67 <= drive_sectors g).
Context (Hw : header_wf (primary_header g) (drive_sectors g)).
Context (He : secondary_entries g = primary_entries g) (Hm : modified g = GPT_MODIFIED_ALL).

Definition finished : GptData := UpdateCrc (RepairHeader g MASK_PRIMARY).2.

Lemma finished_eq :
  finished = set_secondary_header (new_header2 g) (set_primary_header (new_header1 g) g).
Proof using Hg Hds Hw He Hm.
  pose proof (finish_eq g Hg Hds Hw He) as E. rewrite (or_modified_ALL g Hm) in E.
  rewrite <-E. unfold finished. f_equal. symmetry. apply or_modified_ALL.
  by rewrite RepairHeader_primary by (done || apply Hw).
Qed.

Lemma finished_ok : gpt_ok finished.
Proof using Hg. by apply UpdateCrc_ok, RepairHeader_ok. Qed.

Lemma finished_frame :
  primary_entries finished = primary_entries g /\ sector_bytes finished = sector_bytes g /\
  drive_sectors finished = drive_sectors g /\ modified finished = modified g.
Proof using Type.
  unfold finished. destruct (UpdateCrc_frame (RepairHeader g MASK_PRIMARY).2) as (-> & _ & -> & -> & ->).
  by destruct (RepairHeader_frame g MASK_PRIMARY) as (-> & _ & -> & -> & ->).
Qed.

Lemma finished_check :
  sector_bytes g = 512 ->
  table_wf (primary_entries g) (h_first_usable_lba (primary_header g))
    (h_last_usable_lba (primary_header g)) ->
  GptSanityCheck finished =
  (GPT_SUCCESS, set_valid_entries MASK_BOTH (set_valid_headers MASK_BOTH finished)).
Proof using Hg Hds Hw He Hm.
  intros Hz Ht. pose proof finished_ok as Hok. revert Hok. rewrite finished_eq. intros Hok.
  destruct (new_header1_keeps g Hg) as (F1 & F2 & _ & _ & _ & F3).
  pose proof (new_header1_valid g Hg Hds Hw) as V1.
  assert (Hev : entries_valid (primary_entries g) (new_header1 g)).
  { apply entries_valid_wf; [apply V1|apply V1|]. by rewrite F1, F2, F3. }
  apply GptSanityCheck_both; try done.
  - exact (new_header2_valid g Hg Hds Hw).
  - exact (new_headers_same g Hg).
  - simpl. by rewrite He.
Qed.
End FinishModified.
