(* ===== verification/Utf.v ===== *)
(** * Partition labels: UTF-8 and UTF-16 (gpt/lib/cgpt_common.c)

    The two conversion functions as state machines over the input units, the reference
    encodings of a sequence of Unicode scalar values, and the theorems that relate them. *)

From stdpp Require Import base list numbers.
From Stdlib Require Import ZArith Lia.
From S2P Require Import Prelude GptTypes.

(** ** UTF8ToUTF16 *)

Record u8state := mkU8 {
  u8_code_point : Z;
  u8_expected : Z;
  u8_decoded : Z;
  u8_maxoutput : Z;
  u8_out : list Z
}.

(** One byte of input: the new state, or [None] for an illegal byte. *)
Definition utf8_unit (code_unit : Z) (s : u8state) : option u8state :=
  if negb (u8_expected s =? u8_decoded s) then
    if Z.land code_unit 0xC0 =? 0x80
    then Some (mkU8 (u32 (Z.lor (Z.shiftl (u8_code_point s) 6) (Z.land code_unit 0x3F)))
                 (u8_expected s) (u8_decoded s + 1) (u8_maxoutput s) (u8_out s))
    else None
  else
    let start cp expected := Some (mkU8 cp expected 1 (u8_maxoutput s) (u8_out s)) in
    if code_unit <=? 0x7F then start code_unit 1
    else if code_unit <=? 0xBF then None
    else if (0xC2 <=? code_unit) && (code_unit <=? 0xDF) then start (Z.land code_unit 0x1F) 2
    else if (0xE0 <=? code_unit) && (code_unit <=? 0xEF) then start (Z.land code_unit 0x0F) 3
    else if (0xF0 <=? code_unit) && (code_unit <=? 0xF4) then start (Z.land code_unit 0x07) 4
    else None.

(** Whether the sequence was longer than necessary. *)
Definition utf8_overlong (expected code_point : Z) : bool :=
  if expected =? 2 then code_point <=? 0x7F
  else if expected =? 3 then code_point <=? 0x7FF
  else if expected =? 4 then code_point <=? 0xFFFF
  else false.

(** Output of a complete code point. *)
Definition utf8_output (s : u8state) : option u8state :=
  let cp := u8_code_point s in
  let emit units :=
    Some (mkU8 cp (u8_expected s) (u8_decoded s) (u8_maxoutput s - Z.of_nat (length units))
            (u8_out s ++ units)) in
  if utf8_overlong (u8_expected s) cp then None
  else if (cp <=? 0xD7FF) || ((0xE000 <=? cp) && (cp <=? 0xFFFF)) then emit [cp]
  else if (0x10000 <=? cp) && (cp <=? 0x10FFFF) && (2 <=? u8_maxoutput s)
  then emit [Z.lor 0xD800 (Z.shiftr cp 10 - 0x0040); Z.lor 0xDC00 (Z.land cp 0x03FF)]
  else None.

Fixpoint utf8_loop (l : bytes) (s : u8state) : Z * u8state :=
  match l with
  | [] => (CGPT_OK, s)
  | c :: l =>
      if (c =? 0) || (u8_maxoutput s =? 0) then (CGPT_OK, s) else
      match utf8_unit c s with
      | None => (CGPT_FAILED, s)
      | Some s =>
          if u8_expected s =? u8_decoded s
          then match utf8_output s with None => (CGPT_FAILED, s) | Some s => utf8_loop l s end
          else utf8_loop l s
      end
  end.

(** The return value and the units stored at [utf16]. *)
Definition UTF8ToUTF16 (utf8 : bytes) (maxoutput : Z) : Z * list Z :=
  if maxoutput =? 0 then (CGPT_FAILED, []) else
  let '(retval, s) := utf8_loop utf8 (mkU8 0 1 1 (maxoutput - 1) []) in
  (if u8_expected s =? u8_decoded s then retval else CGPT_FAILED, u8_out s ++ [0]).

(** ** UTF16ToUTF8 *)

Record u16state := mkU16 {
  u16_code_point : Z;
  u16_ready : bool;
  u16_maxoutput : Z;
  u16_out : bytes
}.

Definition utf16_unit (codeunit : Z) (s : u16state) : option u16state :=
  if u16_ready s then
    if (0xD800 <=? codeunit) && (codeunit <=? 0xDBFF)
    then Some (mkU16 (Z.land codeunit 0x03FF + 0x0040) false (u16_maxoutput s) (u16_out s))
    else Some (mkU16 codeunit true (u16_maxoutput s) (u16_out s))
  else
    if (0xDC00 <=? codeunit) && (codeunit <=? 0xDFFF)
    then Some (mkU16 (u32 (Z.lor (Z.shiftl (u16_code_point s) 10) (Z.land codeunit 0x03FF))) true
                 (u16_maxoutput s) (u16_out s))
    else None.

(** Output of a complete code point; [None] when the buffer is too short. *)
Definition utf16_output (s : u16state) : option u16state :=
  let cp := u16_code_point s in
  let emit units :=
    Some (mkU16 cp true (u16_maxoutput s - Z.of_nat (length units)) (u16_out s ++ units)) in
  if (cp <=? 0x7F) && (1 <=? u16_maxoutput s) then emit [Z.land cp 0x7F]
  else if (cp <=? 0x7FF) && (2 <=? u16_maxoutput s)
  then emit [Z.lor 0xC0 (Z.shiftr cp 6); Z.lor 0x80 (Z.land cp 0x3F)]
  else if (cp <=? 0xFFFF) && (3 <=? u16_maxoutput s)
  then emit [Z.lor 0xE0 (Z.shiftr cp 12); Z.lor 0x80 (Z.land (Z.shiftr cp 6) 0x3F);
             Z.lor 0x80 (Z.land cp 0x3F)]
  else if (cp <=? 0x10FFFF) && (4 <=? u16_maxoutput s)
  then emit [Z.lor 0xF0 (Z.shiftr cp 18); Z.lor 0x80 (Z.land (Z.shiftr cp 12) 0x3F);
             Z.lor 0x80 (Z.land (Z.shiftr cp 6) 0x3F); Z.lor 0x80 (Z.land cp 0x3F)]
  else None.

(** [maxinput] units of input; [None] is the failed [require(code_point <= 0x10FFFF)]. *)
Fixpoint utf16_loop (l : list Z) (maxinput : nat) (s : u16state) : option (Z * u16state) :=
  match l, maxinput with
  | c :: l, S maxinput =>
      if (c =? 0) || (u16_maxoutput s =? 0) then Some (CGPT_OK, s) else
      match utf16_unit c s with
      | None => Some (CGPT_FAILED, s)
      | Some s =>
          if u16_ready s then
            if 0x10FFFF <? u16_code_point s then None else
            match utf16_output s with
            | None => Some (CGPT_FAILED, s)
            | Some s => utf16_loop l maxinput s
            end
          else utf16_loop l maxinput s
      end
  | _, _ => Some (CGPT_OK, s)
  end.

(** The return value and the bytes stored at [utf8]; [None] when the process exits. *)
Definition UTF16ToUTF8 (utf16 : list Z) (maxinput : nat) (maxoutput : Z) : option (Z * bytes) :=
  if (maxinput =? 0)%nat || (maxoutput =? 0) then Some (CGPT_FAILED, []) else
  match utf16_loop utf16 maxinput (mkU16 0 true (maxoutput - 1) []) with
  | None => None
  | Some (retval, s) => Some (retval, u16_out s ++ [0])
  end.

(** ** Reference encodings *)

(** A Unicode scalar value other than NUL. *)
Definition scalar (cp : Z) : Prop := 0 < cp <= 0x10FFFF /\ ~ (0xD800 <= cp <= 0xDFFF).

Definition utf8_of (cp : Z) : bytes :=
  if cp <=? 0x7F then [cp]
  else if cp <=? 0x7FF then [0xC0 + cp / 64; 0x80 + cp mod 64]
  else if cp <=? 0xFFFF then [0xE0 + cp / 4096; 0x80 + cp / 64 mod 64; 0x80 + cp mod 64]
  else [0xF0 + cp / 262144; 0x80 + cp / 4096 mod 64; 0x80 + cp / 64 mod 64; 0x80 + cp mod 64].

Definition utf16_of (cp : Z) : list Z :=
  if cp <=? 0xFFFF then [cp]
  else [0xD800 + (cp - 0x10000) / 1024; 0xDC00 + (cp - 0x10000) mod 1024].

(** ** Bit operations as arithmetic *)

Lemma land_low x k : 0 <= k -> Z.land x (2 ^ k - 1) = x mod 2 ^ k.
Proof. intros. rewrite <-Z.land_ones by done. by rewrite Z.ones_equiv, Z.sub_1_r. Qed.

Lemma lor_disjoint a k b : 0 <= k -> 0 <= b < 2 ^ k -> Z.lor (a * 2 ^ k) b = a * 2 ^ k + b.
Proof.
  intros Hk Hb.
  assert (H : Z.land (a * 2 ^ k) b = 0).
  { rewrite <-Z.shiftl_mul_pow2 by done. apply Z.bits_inj'. intros n Hn.
    rewrite Z.land_spec, Z.bits_0. destruct (decide (n < k)).
    - by rewrite Z.shiftl_spec_low.
    - rewrite <-(Z.mod_small b (2 ^ k)), Z.mod_pow2_bits_high by lia. by rewrite andb_false_r. }
  by rewrite <-Z.lxor_lor, <-Z.add_nocarry_lxor.
Qed.

Lemma land_63 x : Z.land x 0x3F = x mod 64.
Proof. apply (land_low x 6). lia. Qed.
Lemma land_1023 x : Z.land x 0x03FF = x mod 1024.
Proof. apply (land_low x 10). lia. Qed.
Lemma lor_tail x : Z.lor 0x80 (x mod 64) = 128 + x mod 64.
Proof. apply (lor_disjoint 2 6); lia. Qed.
Lemma lor_C0 x : 0 <= x < 32 -> Z.lor 0xC0 x = 0xC0 + x.
Proof. intros. apply (lor_disjoint 6 5); lia. Qed.
Lemma lor_E0 x : 0 <= x < 16 -> Z.lor 0xE0 x = 0xE0 + x.
Proof. intros. apply (lor_disjoint 14 4); lia. Qed.
Lemma lor_F0 x : 0 <= x < 8 -> Z.lor 0xF0 x = 0xF0 + x.
Proof. intros. apply (lor_disjoint 30 3); lia. Qed.
Lemma lor_D800 x : 0 <= x < 1024 -> Z.lor 0xD800 x = 0xD800 + x.
Proof. intros. apply (lor_disjoint 54 10); lia. Qed.
Lemma lor_DC00 x : 0 <= x < 1024 -> Z.lor 0xDC00 x = 0xDC00 + x.
Proof. intros. apply (lor_disjoint 55 10); lia. Qed.

(** Appending six or ten bits to an accumulated code point. *)
Lemma append_bits k cp x : 0 <= k <= 10 -> 0 <= cp < 2 ^ 20 -> 0 <= x < 2 ^ k ->
  u32 (Z.lor (Z.shiftl cp k) x) = cp * 2 ^ k + x.
Proof.
  intros Hk Hcp Hx. rewrite Z.shiftl_mul_pow2, lor_disjoint by lia.
  assert (2 ^ k <= 2 ^ 10) by (apply Z.pow_le_mono_r; lia).
  unfold u32. apply Z.mod_small. nia.
Qed.

Lemma trailing_byte c : 0 <= c < 256 -> (Z.land c 0xC0 =? 0x80) = ((0x80 <=? c) && (c <=? 0xBF)).
Proof.
  intros Hc.
  assert (H : forallb (fun n => let c := Z.of_nat n in
    eqb (Z.land c 0xC0 =? 0x80) ((0x80 <=? c) && (c <=? 0xBF))) (seq 0 256) = true)
    by (vm_compute; reflexivity).
  rewrite forallb_forall in H. specialize (H (Z.to_nat c)).
  rewrite Z2Nat.id in H by lia. apply eqb_prop, H, list_elem_of_In, elem_of_seq. lia.
Qed.

(** ** UTF-8 to UTF-16 *)

(** Between two characters. *)
Definition in_sync (s : u8state) : Prop := u8_expected s = u8_decoded s.

Definition u8_after (cp n : Z) (s : u8state) : u8state :=
  mkU8 cp n n (u8_maxoutput s - Z.of_nat (length (utf16_of cp))) (u8_out s ++ utf16_of cp).

Lemma utf8_output_scalar cp n out max :
  scalar cp -> Z.of_nat (length (utf16_of cp)) <= max ->
  n = Z.of_nat (length (utf8_of cp)) ->
  utf8_output (mkU8 cp n n max out) = Some (u8_after cp n (mkU8 cp n n max out)).
Proof.
  intros [Hr Hs] Hmax ->. unfold utf8_output, u8_after, utf8_overlong, utf8_of, utf16_of in *. simpl.
  rewrite land_1023.
  destruct (Z.leb_spec cp 0x7F).
  { simpl. replace (cp <=? 0xFFFF) with true in * by lia. replace (cp <=? 0xD7FF) with true by lia. done. }
  destruct (Z.leb_spec cp 0x7FF).
  { simpl. replace (cp <=? 0xFFFF) with true in * by lia. replace (cp <=? 0x7F) with false by lia.
    replace (cp <=? 0xD7FF) with true by lia. done. }
  destruct (Z.leb_spec cp 0xFFFF).
  { simpl. replace (cp <=? 0x7FF) with false by lia.
    replace ((cp <=? 0xD7FF) || ((0xE000 <=? cp) && true)) with true by lia. done. }
  simpl in *. replace (cp <=? 0xD7FF) with false by lia. rewrite andb_false_r. simpl.
  replace ((0x10000 <=? cp) && (cp <=? 0x10FFFF) && (2 <=? max)) with true by lia.
  rewrite Z.shiftr_div_pow2 by lia. rewrite lor_D800, lor_DC00 by lia.
  do 3 f_equal; f_equal; [|f_equal]; lia.
Qed.

Lemma utf8_unit_trail x cp e d max out :
  0 <= x < 64 -> 0 <= cp < 2 ^ 20 -> e <> d ->
  utf8_unit (0x80 + x) (mkU8 cp e d max out) = Some (mkU8 (cp * 64 + x) e (d + 1) max out).
Proof.
  intros Hx Hcp Hne. unfold utf8_unit. simpl.
  replace (e =? d) with false by lia. rewrite trailing_byte by lia.
  replace ((0x80 <=? 128 + x) && (128 + x <=? 0xBF)) with true by lia. simpl.
  rewrite land_63. replace ((128 + x) mod 64) with x by lia.
  by rewrite (append_bits 6) by lia.
Qed.

(** The head byte of a character of [n] bytes, with its payload [x]. *)
Definition head_byte (n x : Z) : Z :=
  if n =? 1 then x else if n =? 2 then 0xC0 + x else if n =? 3 then 0xE0 + x else 0xF0 + x.
Definition head_ok (n x : Z) : Prop :=
  n = 1 /\ 0 < x < 128 \/ n = 2 /\ 2 <= x < 32 \/ n = 3 /\ 0 <= x < 16 \/ n = 4 /\ 0 <= x < 5.

Lemma utf8_unit_head n x s : in_sync s -> head_ok n x ->
  utf8_unit (head_byte n x) s = Some (mkU8 x n 1 (u8_maxoutput s) (u8_out s)) /\
  head_byte n x <> 0.
Proof.
  intros Hs Hx. unfold utf8_unit. rewrite Hs, Z.eqb_refl. simpl. unfold head_byte.
  rewrite (land_low _ 5), (land_low _ 4), (land_low _ 3) by lia.
  destruct Hx as [[-> Hx]|[[-> Hx]|[[-> Hx]|[-> Hx]]]]; simpl; (split; [|lia]).
  - by replace (x <=? 127) with true by lia.
  - replace (192 + x <=? 127) with false by lia. replace (192 + x <=? 191) with false by lia.
    replace ((194 <=? 192 + x) && (192 + x <=? 223)) with true by lia. do 2 f_equal. lia.
  - replace (224 + x <=? 127) with false by lia. replace (224 + x <=? 191) with false by lia.
    replace ((194 <=? 224 + x) && (224 + x <=? 223)) with false by lia.
    replace ((224 <=? 224 + x) && (224 + x <=? 239)) with true by lia. do 2 f_equal. lia.
  - replace (240 + x <=? 127) with false by lia. replace (240 + x <=? 191) with false by lia.
    replace ((194 <=? 240 + x) && (240 + x <=? 223)) with false by lia.
    replace ((224 <=? 240 + x) && (240 + x <=? 239)) with false by lia.
    replace ((240 <=? 240 + x) && (240 + x <=? 244)) with true by lia. do 2 f_equal. lia.
Qed.

(** One byte inside the loop. *)
Lemma utf8_loop_cons c l s s' :
  c <> 0 -> u8_maxoutput s <> 0 -> utf8_unit c s = Some s' ->
  utf8_loop (c :: l) s =
  if u8_expected s' =? u8_decoded s'
  then match utf8_output s' with None => (CGPT_FAILED, s') | Some s => utf8_loop l s end
  else utf8_loop l s'.
Proof.
  intros Hc Hm Hu. simpl. replace ((c =? 0) || (u8_maxoutput s =? 0)) with false by lia.
  by rewrite Hu.
Qed.

#[local] Arguments utf8_loop : simpl never.

Lemma utf8_loop_trail x cp e d max out l :
  0 <= x < 64 -> 0 <= cp < 2 ^ 20 -> e <> d -> e <> d + 1 -> max <> 0 ->
  utf8_loop (0x80 + x :: l) (mkU8 cp e d max out) =
  utf8_loop l (mkU8 (cp * 64 + x) e (d + 1) max out).
Proof.
  intros. rewrite (utf8_loop_cons _ _ _ (mkU8 (cp * 64 + x) e (d + 1) max out));
    [|lia|done|by apply utf8_unit_trail].
  simpl. by replace (e =? d + 1) with false by lia.
Qed.

Lemma utf8_loop_last x cp e d max out l :
  0 <= x < 64 -> 0 <= cp < 2 ^ 20 -> e = d + 1 -> max <> 0 ->
  utf8_loop (0x80 + x :: l) (mkU8 cp e d max out) =
  match utf8_output (mkU8 (cp * 64 + x) e e max out) with
  | None => (CGPT_FAILED, mkU8 (cp * 64 + x) e e max out)
  | Some s => utf8_loop l s
  end.
Proof.
  intros ? ? -> ?. rewrite (utf8_loop_cons _ _ _ (mkU8 (cp * 64 + x) (d + 1) (d + 1) max out));
    [|lia|done|by apply utf8_unit_trail; lia].
  simpl. by rewrite Z.eqb_refl.
Qed.

Lemma utf8_loop_head n x s l : in_sync s -> head_ok n x -> u8_maxoutput s <> 0 ->
  utf8_loop (head_byte n x :: l) s =
  let s' := mkU8 x n 1 (u8_maxoutput s) (u8_out s) in
  if n =? 1
  then match utf8_output s' with None => (CGPT_FAILED, s') | Some s => utf8_loop l s end
  else utf8_loop l s'.
Proof.
  intros Hs Hx Hm. destruct (utf8_unit_head n x s Hs Hx) as [E Hnz].
  by rewrite (utf8_loop_cons _ _ _ _ Hnz Hm E).
Qed.

(** A whole character advances the machine by its UTF-16 encoding. *)
Lemma utf8_loop_char cp l s :
  scalar cp -> in_sync s -> Z.of_nat (length (utf16_of cp)) <= u8_maxoutput s ->
  utf8_loop (utf8_of cp ++ l) s =
  utf8_loop l (u8_after cp (Z.of_nat (length (utf8_of cp))) s).
Proof.
  intros Hc Hs Hm.
  assert (H0 : u8_maxoutput s <> 0).
  { unfold utf16_of in Hm. destruct (cp <=? 0xFFFF); simpl in Hm; lia. }
  assert (Hout : forall n, n = Z.of_nat (length (utf8_of cp)) ->
    match utf8_output (mkU8 cp n n (u8_maxoutput s) (u8_out s)) with
    | None => (CGPT_FAILED, mkU8 cp n n (u8_maxoutput s) (u8_out s))
    | Some s => utf8_loop l s
    end = utf8_loop l (u8_after cp (Z.of_nat (length (utf8_of cp))) s)).
  { intros n ->. rewrite utf8_output_scalar by done. done. }
  destruct Hc as [Hr Hsur]. unfold utf8_of in *.
  destruct (Z.leb_spec cp 0x7F).
  { change [cp] with [head_byte 1 cp]. cbn [app].
    rewrite utf8_loop_head by (done || (left; lia)). by apply Hout. }
  destruct (Z.leb_spec cp 0x7FF).
  { change (0xC0 + cp / 64) with (head_byte 2 (cp / 64)) in *. cbn [app].
    rewrite utf8_loop_head by (done || (right; left; lia)). simpl.
    rewrite (utf8_loop_last (cp mod 64) (cp / 64) 2 1) by lia.
    replace (cp / 64 * 64 + cp mod 64) with cp by lia. by apply Hout. }
  destruct (Z.leb_spec cp 0xFFFF).
  { change (0xE0 + cp / 4096) with (head_byte 3 (cp / 4096)) in *. cbn [app].
    rewrite utf8_loop_head by (done || (right; right; left; lia)). simpl.
    rewrite (utf8_loop_trail (cp / 64 mod 64) (cp / 4096) 3 1) by lia.
    rewrite (utf8_loop_last (cp mod 64) _ 3 2) by lia.
    replace ((cp / 4096 * 64 + cp / 64 mod 64) * 64 + cp mod 64) with cp by lia. by apply Hout. }
  change (0xF0 + cp / 262144) with (head_byte 4 (cp / 262144)) in *. cbn [app].
  rewrite utf8_loop_head by (done || (right; right; right; lia)). simpl.
  rewrite (utf8_loop_trail (cp / 4096 mod 64) (cp / 262144) 4 1) by lia.
  rewrite (utf8_loop_trail (cp / 64 mod 64) _ 4 2) by lia.
  rewrite (utf8_loop_last (cp mod 64) _ 4 3) by lia.
  replace (((cp / 262144 * 64 + cp / 4096 mod 64) * 64 + cp / 64 mod 64) * 64 + cp mod 64)
    with cp by lia. by apply Hout.
Qed.

(** The converse: what the machine accepts is a sequence of encoded characters. *)

Lemma trail_inv l cp e d max out s' :
  bytes_ok l -> utf8_loop l (mkU8 cp e d max out) = (CGPT_OK, s') -> in_sync s' ->
  e <> d -> max <> 0 -> exists x l', 0 <= x < 64 /\ l = 0x80 + x :: l' /\ bytes_ok l'.
Proof.
  intros Hl H Hs Hne Hm. unfold in_sync in Hs. destruct l as [|c l]; unfold utf8_loop in H; fold utf8_loop in H.
  { injection H as <-. done. }
  apply bytes_ok_cons in Hl as [Hc Hl]. unfold is_byte in Hc. simpl in H.
  destruct (Z.eqb_spec c 0); simpl in H; [injection H as <-; done|].
  replace (max =? 0) with false in H by lia. unfold utf8_unit in H. simpl in H.
  replace (e =? d) with false in H by lia. simpl in H. rewrite trailing_byte in H by done.
  destruct ((128 <=? c) && (c <=? 191)) eqn:E; [|done].
  exists (c - 128), l. split_and!; [lia..| |done]. f_equal. lia.
Qed.

Lemma head_inv c s s1 : 0 < c < 256 -> in_sync s -> utf8_unit c s = Some s1 ->
  exists n x, c = head_byte n x /\ head_ok n x.
Proof.
  intros Hc Hs H. unfold utf8_unit in H. rewrite Hs, Z.eqb_refl in H. simpl in H.
  unfold head_byte, head_ok. repeat case_match; try done.
  - exists 1, c. simpl. lia.
  - exists 2, (c - 0xC0). simpl. lia.
  - exists 3, (c - 0xE0). simpl. lia.
  - exists 4, (c - 0xF0). simpl. lia.
Qed.

Lemma utf8_output_inv cp n max out s :
  0 <= cp -> (n = 1 /\ 0 < cp < 128 \/ n = 2 /\ cp < 2048 \/ n = 3 /\ cp < 65536 \/ n = 4) ->
  0 < max -> utf8_output (mkU8 cp n n max out) = Some s ->
  scalar cp /\ n = Z.of_nat (length (utf8_of cp)) /\ Z.of_nat (length (utf16_of cp)) <= max.
Proof.
  intros Hcp Hn Hm H. unfold utf8_output in H. simpl in H.
  destruct (utf8_overlong n cp) eqn:Eo; [done|].
  unfold scalar, utf8_of, utf16_of.
  destruct ((cp <=? 0xD7FF) || ((0xE000 <=? cp) && (cp <=? 0xFFFF))) eqn:E1.
  - replace (cp <=? 0xFFFF) with true by lia.
    destruct Hn as [[-> ?]|[[-> ?]|[[-> ?]| ->]]]; unfold utf8_overlong in Eo; simpl in Eo.
    + replace (cp <=? 0x7F) with true by lia. simpl. lia.
    + replace (cp <=? 0x7F) with false by lia. replace (cp <=? 0x7FF) with true by lia. simpl. lia.
    + replace (cp <=? 0x7F) with false by lia. replace (cp <=? 0x7FF) with false by lia. simpl. lia.
    + lia.
  - destruct ((0x10000 <=? cp) && (cp <=? 0x10FFFF) && (2 <=? max)) eqn:E2; [|done].
    replace (cp <=? 0x7F) with false by lia. replace (cp <=? 0x7FF) with false by lia.
    replace (cp <=? 0xFFFF) with false by lia. simpl. lia.
Qed.

(** The bytes of an assembled code point. *)
Lemma assembled2 x y : 0 <= y < 64 -> 0 <= x ->
  (x * 64 + y) / 64 = x /\ (x * 64 + y) mod 64 = y.
Proof. intros. lia. Qed.

Lemma utf8_of_2 x y : 0 <= y < 64 -> 0 <= x -> length (utf8_of (x * 64 + y)) = 2%nat ->
  utf8_of (x * 64 + y) = [0xC0 + x; 0x80 + y].
Proof.
  intros Hy Hx. destruct (assembled2 x y Hy Hx) as [E1 E2]. unfold utf8_of.
  repeat case_match; simpl; intros; try lia. by rewrite E1, E2.
Qed.

Lemma utf8_of_3 x y z : 0 <= z < 64 -> 0 <= y < 64 -> 0 <= x ->
  length (utf8_of ((x * 64 + y) * 64 + z)) = 3%nat ->
  utf8_of ((x * 64 + y) * 64 + z) = [0xE0 + x; 0x80 + y; 0x80 + z].
Proof.
  intros Hz Hy Hx. destruct (assembled2 (x * 64 + y) z) as [E1 E2]; [lia..|].
  destruct (assembled2 x y Hy Hx) as [E3 E4]. unfold utf8_of.
  repeat case_match; simpl; intros; try lia.
  replace 4096 with (64 * 64) by done. by rewrite <-Z.div_div, E1, E2, E3, E4 by lia.
Qed.

Lemma utf8_of_4 x y z u : 0 <= u < 64 -> 0 <= z < 64 -> 0 <= y < 64 -> 0 <= x ->
  length (utf8_of (((x * 64 + y) * 64 + z) * 64 + u)) = 4%nat ->
  utf8_of (((x * 64 + y) * 64 + z) * 64 + u) = [0xF0 + x; 0x80 + y; 0x80 + z; 0x80 + u].
Proof.
  intros Hu Hz Hy Hx. destruct (assembled2 ((x * 64 + y) * 64 + z) u) as [E1 E2]; [lia..|].
  destruct (assembled2 (x * 64 + y) z) as [E3 E4]; [lia..|].
  destruct (assembled2 x y Hy Hx) as [E5 E6]. unfold utf8_of.
  repeat case_match; simpl; intros; try lia.
  replace 262144 with (64 * 64 * 64) by done. replace 4096 with (64 * 64) by done.
  by rewrite <-!Z.div_div, E1, E2, E3, E4, E5, E6 by lia.
Qed.

(** One accepted character at the head of the input. *)
Lemma utf8_char_inv l s s' : bytes_ok l -> in_sync s -> 0 < u8_maxoutput s ->
  utf8_loop l s = (CGPT_OK, s') -> in_sync s' ->
  (l = [] \/ exists l', l = 0 :: l') \/
  exists cp l', scalar cp /\ l = utf8_of cp ++ l' /\ bytes_ok l' /\
    Z.of_nat (length (utf16_of cp)) <= u8_maxoutput s.
Proof.
  intros Hl Hs Hm H Hs'. destruct l as [|c l]; [by left; left|].
  apply bytes_ok_cons in Hl as [Hc Hl]. unfold is_byte in Hc.
  destruct (decide (c = 0)) as [->|Hnz]; [left; right; by eexists|right].
  destruct (utf8_unit c s) as [s1|] eqn:Eu.
  2:{ unfold utf8_loop in H. fold utf8_loop in H.
      replace ((c =? 0) || (u8_maxoutput s =? 0)) with false in H by lia. by rewrite Eu in H. }
  destruct (head_inv c s s1) as (n & x & -> & Hx); [lia|done|done|].
  rewrite utf8_loop_head in H by (done || lia). simpl in H.
  destruct Hx as [[-> Hx]|[[-> Hx]|[[-> Hx]|[-> Hx]]]]; simpl in H.
  - destruct (utf8_output _) eqn:Eo in H; [|done].
    apply utf8_output_inv in Eo as (Hsc & Hn & Hle); [|lia..].
    exists x, l. split_and!; try done. unfold utf8_of. by replace (x <=? 0x7F) with true by lia.
  - destruct (trail_inv _ _ _ _ _ _ _ Hl H Hs') as (y & l1 & Hy & -> & Hl1); [lia..|].
    rewrite utf8_loop_last in H by lia.
    destruct (utf8_output _) eqn:Eo in H; [|done].
    apply utf8_output_inv in Eo as (Hsc & Hn & Hle); [|lia..].
    exists (x * 64 + y), l1. split_and!; try done. by rewrite utf8_of_2 by lia.
  - destruct (trail_inv _ _ _ _ _ _ _ Hl H Hs') as (y & l1 & Hy & -> & Hl1); [lia..|].
    rewrite utf8_loop_trail in H by lia.
    destruct (trail_inv _ _ _ _ _ _ _ Hl1 H Hs') as (z & l2 & Hz & -> & Hl2); [lia..|].
    rewrite utf8_loop_last in H by lia.
    destruct (utf8_output _) eqn:Eo in H; [|done].
    apply utf8_output_inv in Eo as (Hsc & Hn & Hle); [|lia..].
    exists ((x * 64 + y) * 64 + z), l2. split_and!; try done. by rewrite utf8_of_3 by lia.
  - destruct (trail_inv _ _ _ _ _ _ _ Hl H Hs') as (y & l1 & Hy & -> & Hl1); [lia..|].
    rewrite utf8_loop_trail in H by lia.
    destruct (trail_inv _ _ _ _ _ _ _ Hl1 H Hs') as (z & l2 & Hz & -> & Hl2); [lia..|].
    rewrite utf8_loop_trail in H by lia.
    destruct (trail_inv _ _ _ _ _ _ _ Hl2 H Hs') as (u & l3 & Hu & -> & Hl3); [lia..|].
    rewrite utf8_loop_last in H by lia.
    destruct (utf8_output _) eqn:Eo in H; [|done].
    apply utf8_output_inv in Eo as (Hsc & Hn & Hle); [|lia..].
    exists (((x * 64 + y) * 64 + z) * 64 + u), l3. split_and!; try done. by rewrite utf8_of_4 by lia.
Qed.

(** ** UTF-16 to UTF-8 *)

Lemma utf16_output_scalar cp out max :
  0 < cp <= 0x10FFFF -> Z.of_nat (length (utf8_of cp)) <= max ->
  utf16_output (mkU16 cp true max out) =
  Some (mkU16 cp true (max - Z.of_nat (length (utf8_of cp))) (out ++ utf8_of cp)).
Proof.
  intros Hr Hm. unfold utf16_output, utf8_of in *. simpl.
  rewrite !land_63, !Z.shiftr_div_pow2 by lia. change (2 ^ 6) with 64. change (2 ^ 12) with 4096.
  change (2 ^ 18) with 262144. rewrite !lor_tail.
  destruct (Z.leb_spec cp 0x7F); simpl in *.
  { replace (1 <=? max) with true by lia. rewrite (land_low _ 7) by lia.
    by replace (cp mod 2 ^ 7) with cp by (symmetry; apply Z.mod_small; lia). }
  destruct (Z.leb_spec cp 0x7FF); simpl in *.
  { replace (2 <=? max) with true by lia. rewrite lor_C0 by lia. done. }
  destruct (Z.leb_spec cp 0xFFFF); simpl in *.
  { replace (3 <=? max) with true by lia. rewrite lor_E0 by lia. done. }
  replace ((cp <=? 1114111) && (4 <=? max)) with true by lia. rewrite lor_F0 by lia. done.
Qed.

#[local] Arguments utf16_output : simpl never.
#[local] Arguments utf8_of : simpl never.
#[local] Arguments utf16_of : simpl never.

Lemma utf16_loop_char cp l m s :
  scalar cp -> u16_ready s = true -> Z.of_nat (length (utf8_of cp)) <= u16_maxoutput s ->
  utf16_loop (utf16_of cp ++ l) (length (utf16_of cp) + m) s =
  utf16_loop l m (mkU16 cp true (u16_maxoutput s - Z.of_nat (length (utf8_of cp)))
                    (u16_out s ++ utf8_of cp)).
Proof.
  intros [Hr Hsur] Hs Hm.
  assert (Hpos : 0 < u16_maxoutput s).
  { unfold utf8_of in Hm. repeat case_match; simpl in Hm; lia. }
  pose proof (utf16_output_scalar cp (u16_out s) _ Hr Hm) as Ho.
  unfold utf16_of. destruct (Z.leb_spec cp 0xFFFF) as [Hbmp|Hbmp].
  - simpl. replace ((cp =? 0) || (u16_maxoutput s =? 0)) with false by lia.
    unfold utf16_unit. rewrite Hs. replace ((0xD800 <=? cp) && (cp <=? 0xDBFF)) with false by lia.
    simpl. replace (0x10FFFF <? cp) with false by lia. by rewrite Ho.
  - cbn [app length Nat.add]. set (hi := 0xD800 + (cp - 0x10000) / 1024).
    set (lo := 0xDC00 + (cp - 0x10000) mod 1024).
    assert (Hhi : 0xD800 <= hi <= 0xDBFF) by (subst hi; lia).
    assert (Hlo : 0xDC00 <= lo <= 0xDFFF) by (subst lo; lia).
    simpl. replace ((hi =? 0) || (u16_maxoutput s =? 0)) with false by lia.
    unfold utf16_unit at 1. rewrite Hs. replace ((0xD800 <=? hi) && (hi <=? 0xDBFF)) with true by lia.
    simpl. replace ((lo =? 0) || (u16_maxoutput s =? 0)) with false by lia.
    unfold utf16_unit. simpl. replace ((0xDC00 <=? lo) && (lo <=? 0xDFFF)) with true by lia.
    rewrite !land_1023, append_bits by lia. simpl.
    replace ((hi mod 1024 + 64) * 2 ^ 10 + lo mod 1024) with cp by (subst hi lo; lia).
    replace (0x10FFFF <? cp) with false by lia. by rewrite Ho.
Qed.

(** ** Whole strings *)

Definition encode8 (cps : list Z) : bytes := concat (map utf8_of cps).
Definition encode16 (cps : list Z) : list Z := concat (map utf16_of cps).

Lemma utf16_of_length cp : (1 <= length (utf16_of cp))%nat.
Proof. unfold utf16_of. case_match; simpl; lia. Qed.

Lemma utf8_of_length cp : (1 <= length (utf8_of cp))%nat.
Proof. unfold utf8_of. repeat case_match; simpl; lia. Qed.

Lemma utf8_loop_string cps rest s :
  Forall scalar cps -> in_sync s -> Z.of_nat (length (encode16 cps)) <= u8_maxoutput s ->
  exists s', in_sync s' /\ utf8_loop (encode8 cps ++ rest) s = utf8_loop rest s' /\
    u8_out s' = u8_out s ++ encode16 cps /\
    u8_maxoutput s' = u8_maxoutput s - Z.of_nat (length (encode16 cps)).
Proof.
  intros Hc. revert s. induction Hc as [|cp cps Hcp _ IH]; intros s Hs Hm.
  - exists s. rewrite app_nil_r. simpl. split_and!; try done. lia.
  - cbn [encode8 encode16 map concat] in *. fold (encode16 cps) (encode8 cps) in *.
    rewrite length_app in Hm. rewrite <-app_assoc, utf8_loop_char by (done || lia).
    destruct (IH (u8_after cp (Z.of_nat (length (utf8_of cp))) s)) as (s' & Hs' & E & Ho & Hmx);
      [done|simpl; lia|].
    exists s'. rewrite E, Ho, Hmx, length_app. simpl. rewrite <-app_assoc. split_and!; try done. lia.
Qed.

Lemma utf16_loop_string cps rest m s :
  Forall scalar cps -> u16_ready s = true -> Z.of_nat (length (encode8 cps)) <= u16_maxoutput s ->
  exists s', u16_ready s' = true /\
    utf16_loop (encode16 cps ++ rest) (length (encode16 cps) + m) s = utf16_loop rest m s' /\
    u16_out s' = u16_out s ++ encode8 cps.
Proof.
  intros Hc. revert s. induction Hc as [|cp cps Hcp _ IH]; intros s Hs Hm.
  - exists s. by rewrite app_nil_r.
  - cbn [encode8 encode16 map concat] in *. fold (encode16 cps) (encode8 cps) in *.
    rewrite length_app in Hm. rewrite length_app, <-app_assoc, <-Nat.add_assoc.
    rewrite utf16_loop_char by (done || lia).
    destruct (IH (mkU16 cp true (u16_maxoutput s - Z.of_nat (length (utf8_of cp)))
      (u16_out s ++ utf8_of cp)) eq_refl) as (s' & Hs' & E & Ho); [simpl; lia|].
    exists s'. rewrite E, Ho. simpl. by rewrite <-app_assoc.
Qed.

(** converting a well-formed UTF-8 label to UTF-16 and back gives the label: each function
    computes the reference encoding of the same characters whenever its output buffer is large
    enough, whatever follows the terminator. *)
Theorem utf_round_trip cps rest max16 max8 :
  Forall scalar cps ->
  Z.of_nat (length (encode16 cps)) < max16 -> Z.of_nat (length (encode8 cps)) < max8 ->
  UTF8ToUTF16 (encode8 cps ++ 0 :: rest) max16 = (CGPT_OK, encode16 cps ++ [0]) /\
  UTF16ToUTF8 (encode16 cps ++ [0]) (S (length (encode16 cps))) max8 =
    Some (CGPT_OK, encode8 cps ++ [0]).
Proof.
  intros Hc H16 H8. split.
  - unfold UTF8ToUTF16. replace (max16 =? 0) with false by lia.
    destruct (utf8_loop_string cps (0 :: rest) (mkU8 0 1 1 (max16 - 1) []))
      as (s' & Hs' & E & Ho & _); [done|done|simpl; lia|].
    rewrite E. unfold utf8_loop. simpl. rewrite (proj2 (Z.eqb_eq _ _) Hs'), Ho. done.
  - unfold UTF16ToUTF8. simpl. replace (max8 =? 0) with false by lia.
    replace (S (length (encode16 cps))) with (length (encode16 cps) + 1)%nat by lia.
    destruct (utf16_loop_string cps [0] 1 (mkU16 0 true (max8 - 1) []))
      as (s' & Hs' & E & Ho); [done|done|simpl; lia|].
    rewrite E. simpl. by rewrite Ho.
Qed.

Lemma utf_round_trip_witness :
  UTF8ToUTF16 (encode8 [0x41; 0xE9; 0x20AC; 0x1F600] ++ 0 :: [7]) 36 =
    (CGPT_OK, [0x41; 0xE9; 0x20AC; 0xD83D; 0xDE00; 0]) /\
  Forall scalar [0x41; 0xE9; 0x20AC; 0x1F600].
Proof.
  assert (H : Forall scalar [0x41; 0xE9; 0x20AC; 0x1F600])
    by (repeat constructor; unfold scalar; lia).
  split; [|exact H].
  exact (proj1 (utf_round_trip [0x41; 0xE9; 0x20AC; 0x1F600] [7] 36 72 H eq_refl eq_refl)).
Defined.

(** The machine accepts nothing else, up to where it stops. *)
Lemma utf8_loop_sound l s s' : bytes_ok l -> in_sync s -> 0 <= u8_maxoutput s ->
  utf8_loop l s = (CGPT_OK, s') -> in_sync s' ->
  exists cps rest, Forall scalar cps /\ l = encode8 cps ++ rest /\
    u8_out s' = u8_out s ++ encode16 cps /\
    (rest = [] \/ (exists r, rest = 0 :: r) \/
     Z.of_nat (length (encode16 cps)) = u8_maxoutput s).
Proof.
  remember (length l) as n eqn:Hn. revert l s Hn.
  induction n as [n IH] using lt_wf_ind. intros l s -> Hl Hs Hm H Hs'.
  destruct (decide (u8_maxoutput s = 0)) as [E|E].
  { exists [], l. assert (s' = s) as ->.
    { destruct l; unfold utf8_loop in H; fold utf8_loop in H; [by injection H|].
      rewrite E, orb_true_r in H. by injection H. }
    rewrite app_nil_r. split_and!; try done. right. by right. }
  destruct (utf8_char_inv l s s' Hl Hs ltac:(lia) H Hs') as [Hstop|(cp & l' & Hcp & -> & Hl' & Hle)].
  - exists [], l. assert (s' = s) as ->.
    { destruct Hstop as [->|[r ->]]; unfold utf8_loop in H; simpl in H; by injection H. }
    rewrite app_nil_r. split_and!; try done. destruct Hstop as [?|?]; auto.
  - rewrite utf8_loop_char in H by done.
    destruct (IH (length l')) with (l := l') (s := u8_after cp (Z.of_nat (length (utf8_of cp))) s)
      as (cps & rest & Hc & -> & Ho & Hr); try done.
    { rewrite length_app. pose proof (utf8_of_length cp). lia. }
    { simpl. lia. }
    exists (cp :: cps), rest. cbn [encode8 encode16 map concat]. fold (encode16 cps) (encode8 cps).
    rewrite Ho, length_app. simpl in Hr |- *. rewrite <-!app_assoc.
    split_and!; [by constructor|done|done|]. destruct Hr as [?|[?|?]]; auto. right. right. lia.
Qed.

(** [UTF8ToUTF16] succeeds only on well-formed UTF-8: what it read before the terminator (or
    before its output buffer was full) is the encoding of a sequence of characters, and its
    output is their UTF-16 encoding, terminated.  Overlong forms, surrogates, values past
    U+10FFFF, stray and missing continuation bytes are all refused. *)
Theorem UTF8ToUTF16_accepts_only_utf8 l maxoutput out :
  bytes_ok l -> 0 < maxoutput -> UTF8ToUTF16 l maxoutput = (CGPT_OK, out) ->
  exists cps rest, Forall scalar cps /\ l = encode8 cps ++ rest /\ out = encode16 cps ++ [0] /\
    (rest = [] \/ (exists r, rest = 0 :: r) \/ Z.of_nat (length out) = maxoutput).
Proof.
  intros Hl Hm H. unfold UTF8ToUTF16 in H. replace (maxoutput =? 0) with false in H by lia.
  destruct (utf8_loop l (mkU8 0 1 1 (maxoutput - 1) [])) as [rv s'] eqn:E.
  destruct (Z.eqb_spec (u8_expected s') (u8_decoded s')) as [Hs'|]; [|done].
  injection H as -> <-.
  destruct (utf8_loop_sound l (mkU8 0 1 1 (maxoutput - 1) []) s' Hl ltac:(reflexivity) ltac:(simpl; lia) E Hs')
    as (cps & rest & Hc & -> & Ho & Hr).
  exists cps, rest. rewrite Ho. simpl in *. split_and!; try done.
  rewrite length_app. simpl. destruct Hr as [?|[?|?]]; auto. right. right. lia.
Qed.

Lemma UTF8ToUTF16_accepts_only_utf8_witness :
  UTF8ToUTF16 [0x41; 0xC3; 0xA9; 0] 36 = (CGPT_OK, [0x41; 0xE9; 0]) /\
  exists cps rest, Forall scalar cps /\ [0x41; 0xC3; 0xA9; 0] = encode8 cps ++ rest /\
    [0x41; 0xE9; 0] = encode16 cps ++ [0] /\
    (rest = [] \/ (exists r, rest = 0 :: r) \/ Z.of_nat (length [0x41; 0xE9; 0]) = 36).
Proof.
  split; [vm_compute; reflexivity|].
  apply (UTF8ToUTF16_accepts_only_utf8 [0x41; 0xC3; 0xA9; 0] 36 [0x41; 0xE9; 0]);
    [by apply bytes_okb_ok|lia|vm_compute; reflexivity].
Defined.

(** ** Bounds *)

Lemma utf8_output_room s s' : 0 < u8_maxoutput s -> utf8_output s = Some s' ->
  0 <= u8_maxoutput s' /\
  u8_maxoutput s' + Z.of_nat (length (u8_out s')) = u8_maxoutput s + Z.of_nat (length (u8_out s)).
Proof.
  intros Hm H. unfold utf8_output in H. repeat case_match; try done; injection H as <-; simpl;
    rewrite length_app; simpl; lia.
Qed.

Lemma utf8_unit_room c s s' : utf8_unit c s = Some s' ->
  u8_maxoutput s' = u8_maxoutput s /\ u8_out s' = u8_out s.
Proof. unfold utf8_unit. intros H. repeat case_match; try done; by injection H as <-. Qed.

Lemma utf8_loop_room l s rv s' : 0 <= u8_maxoutput s -> utf8_loop l s = (rv, s') ->
  0 <= u8_maxoutput s' /\
  u8_maxoutput s' + Z.of_nat (length (u8_out s')) = u8_maxoutput s + Z.of_nat (length (u8_out s)).
Proof.
  revert s. induction l as [|c l IH]; intros s Hm H; unfold utf8_loop in H; fold utf8_loop in H.
  { injection H as <- <-. lia. }
  destruct ((c =? 0) || (u8_maxoutput s =? 0)) eqn:Eb; [injection H as <- <-; lia|].
  destruct (utf8_unit c s) as [s1|] eqn:Eu; [|injection H as <- <-; lia].
  apply utf8_unit_room in Eu as [E1 E2].
  destruct (u8_expected s1 =? u8_decoded s1).
  - destruct (utf8_output s1) as [s2|] eqn:Eo; [|injection H as <- <-; rewrite E1, E2; lia].
    apply utf8_output_room in Eo; [|lia]. apply IH in H; [|lia]. rewrite E1, E2 in Eo. lia.
  - apply IH in H; [|lia]. rewrite E1, E2 in H. lia.
Qed.

Lemma utf16_output_room s s' : utf16_output s = Some s' ->
  u16_ready s' = true /\ 0 <= u16_maxoutput s' /\
  u16_maxoutput s' + Z.of_nat (length (u16_out s')) = u16_maxoutput s + Z.of_nat (length (u16_out s)).
Proof.
  intros H. unfold utf16_output in H. repeat case_match; try done; injection H as <-; simpl;
    rewrite length_app; simpl; lia.
Qed.

(** A pending high surrogate has at most eleven bits. *)
Definition pending_ok (s : u16state) : Prop := u16_ready s = false -> 0 <= u16_code_point s < 0x440.

Lemma utf16_unit_room c s s' : 0 <= c < 0x10000 -> pending_ok s -> utf16_unit c s = Some s' ->
  u16_maxoutput s' = u16_maxoutput s /\ u16_out s' = u16_out s /\ pending_ok s' /\
  (u16_ready s' = true -> u16_code_point s' <= 0x10FFFF).
Proof.
  intros Hc Hp. unfold utf16_unit. rewrite land_1023. unfold pending_ok in *.
  destruct (u16_ready s).
  - case_match; intros [= <-]; simpl; split_and!; try done; intros; lia.
  - specialize (Hp eq_refl). case_match; intros [= <-]; simpl.
    rewrite append_bits by lia. split_and!; try done. intros _. lia.
Qed.

Lemma utf16_loop_room l n s : Forall (fun c => 0 <= c < 0x10000) l -> pending_ok s ->
  0 <= u16_maxoutput s ->
  exists rv s', utf16_loop l n s = Some (rv, s') /\ 0 <= u16_maxoutput s' /\
  u16_maxoutput s' + Z.of_nat (length (u16_out s')) = u16_maxoutput s + Z.of_nat (length (u16_out s)).
Proof.
  intros Hl. revert n s. induction Hl as [|c l Hc _ IH]; intros n s Hp Hm.
  { exists CGPT_OK, s. by destruct n. }
  destruct n as [|n]; simpl; [by exists CGPT_OK, s|].
  destruct ((c =? 0) || (u16_maxoutput s =? 0)) eqn:Eb; [by exists CGPT_OK, s|].
  destruct (utf16_unit c s) as [s1|] eqn:Eu; [|by exists CGPT_FAILED, s].
  apply utf16_unit_room in Eu as (E1 & E2 & Hp1 & Hcp); [|done|done].
  destruct (u16_ready s1) eqn:Er.
  - replace (0x10FFFF <? u16_code_point s1) with false by (specialize (Hcp eq_refl); lia).
    destruct (utf16_output s1) as [s2|] eqn:Eo.
    + apply utf16_output_room in Eo as (Hr & Hm2 & Eq).
      destruct (IH n s2) as (rv & s' & E & Hm' & Eq'); [by intros ?; congruence|done|].
      exists rv, s'. rewrite E1, E2 in Eq. split_and!; [done..|lia].
    + exists CGPT_FAILED, s1. rewrite E1, E2. by split_and!.
  - destruct (IH n s1) as (rv & s' & E & Hm' & Eq'); [done|lia|].
    exists rv, s'. rewrite E1, E2 in Eq'. by split_and!.
Qed.

(** C38: on any input at all, both conversions stay inside their output buffers, terminate what
    they wrote, and never abort the process. *)
Theorem utf_conversions_stay_in_bounds l8 l16 maxinput maxoutput :
  Forall (fun c => 0 <= c < 0x10000) l16 -> 0 < maxoutput -> (0 < maxinput)%nat ->
  (exists rv out, UTF8ToUTF16 l8 maxoutput = (rv, out ++ [0]) /\
     Z.of_nat (length (out ++ [0])) <= maxoutput) /\
  (exists rv out, UTF16ToUTF8 l16 maxinput maxoutput = Some (rv, out ++ [0]) /\
     Z.of_nat (length (out ++ [0])) <= maxoutput).
Proof.
  intros Hl Hm Hi. split.
  - unfold UTF8ToUTF16. replace (maxoutput =? 0) with false by lia.
    destruct (utf8_loop l8 _) as [rv s'] eqn:E. apply utf8_loop_room in E; [|simpl; lia].
    eexists _, (u8_out s'). split; [reflexivity|]. simpl in E. rewrite length_app. simpl. lia.
  - unfold UTF16ToUTF8. replace (maxoutput =? 0) with false by lia.
    replace (maxinput =? 0)%nat with false by (symmetry; apply Nat.eqb_neq; lia). simpl.
    destruct (utf16_loop_room l16 maxinput (mkU16 0 true (maxoutput - 1) []))
      as (rv & s' & -> & H1 & H2); [done|done|simpl; lia|].
    exists rv, (u16_out s'). split; [reflexivity|]. simpl in H2. rewrite length_app. simpl. lia.
Qed.

Lemma utf_conversions_stay_in_bounds_witness :
  exists rv out, UTF16ToUTF8 [0xD800; 0xDC00; 0x20AC; 0x41] 36 5 = Some (rv, out ++ [0]) /\
    Z.of_nat (length (out ++ [0])) <= 5.
Proof.
  apply (utf_conversions_stay_in_bounds [] [0xD800; 0xDC00; 0x20AC; 0x41] 36 5);
    [repeat constructor; lia|lia|lia].
Defined.

(** despite the comment on [UTF8ToUTF16], a label too long for its buffer is not an error when
    all its characters are in the basic plane: it is cut and reported as converted. *)
Theorem UTF8ToUTF16_truncates_silently pre cp cps :
  Forall scalar (pre ++ cp :: cps) -> Forall (fun c => c <= 0xFFFF) pre ->
  UTF8ToUTF16 (encode8 (pre ++ cp :: cps)) (Z.of_nat (length pre) + 1) = (CGPT_OK, pre ++ [0]).
Proof.
  intros Hc Hb. apply Forall_app in Hc as [Hp _].
  assert (E16 : encode16 pre = pre).
  { clear Hp. induction Hb as [|c l Hcl _ IH]; [done|]. cbn [encode16 map concat].
    fold (encode16 l). rewrite IH. unfold utf16_of. by replace (c <=? 0xFFFF) with true by lia. }
  unfold UTF8ToUTF16. rewrite (proj2 (Z.eqb_neq (Z.of_nat (length pre) + 1) 0)) by lia.
  unfold encode8. rewrite map_app, concat_app. fold (encode8 pre).
  destruct (utf8_loop_string pre (concat (map utf8_of (cp :: cps)))
    (mkU8 0 1 1 (Z.of_nat (length pre) + 1 - 1) [])) as (s' & Hs' & E & Ho & Hm);
    [done|done|rewrite E16; simpl; lia|].
  rewrite E. rewrite E16 in Hm, Ho. simpl in Hm, Ho.
  assert (Hstop : forall l, utf8_loop l s' = (CGPT_OK, s')).
  { intros [|c l]; unfold utf8_loop; [done|]. replace (u8_maxoutput s' =? 0) with true by lia.
    by rewrite orb_true_r. }
  rewrite Hstop, (proj2 (Z.eqb_eq _ _) Hs'), Ho. done.
Qed.

Lemma UTF8ToUTF16_truncates_silently_witness :
  UTF8ToUTF16 (encode8 ([0x41; 0x42] ++ 0x43 :: [0x44])) (Z.of_nat 2 + 1) = (CGPT_OK, [0x41; 0x42; 0]).
Proof.
  apply (UTF8ToUTF16_truncates_silently [0x41; 0x42] 0x43 [0x44]);
    simpl; repeat (constructor; [unfold scalar; lia|]); constructor.
Defined.
