(* ===== verification/GuidStr.v ===== *)
(** * Text as bytes, and GUIDs as text (StrToGuid and GuidToStr of gpt/lib/cgpt_common.c)

    The two functions are thin layers over [sscanf] and [snprintf] with the conversions [%0nX];
    the conversions are modelled as the C library of the platform performs them. *)

From stdpp Require Import base list numbers gmap strings.
From Stdlib Require Import ZArith Lia.
From S2P Require Import Prelude GptTypes Utf.

(** ** snprintf: [%0nX] *)

Definition hex_char (d : Z) : Z := if d <? 10 then 48 + d else 55 + d.

(** The last [n] hexadecimal digits of [v], and how many [v] needs. *)
Fixpoint hex_digits (n : nat) (v : Z) : bytes :=
  match n with
  | O => []
  | S n => hex_digits n (v / 16) ++ [hex_char (v mod 16)]
  end.

Fixpoint hex_len (fuel : nat) (v : Z) : nat :=
  match fuel with
  | O => 0
  | S fuel => if v =? 0 then 0 else S (hex_len fuel (v / 16))
  end.

Definition fmt_X (width : nat) (v : Z) : bytes := hex_digits (Nat.max width (hex_len 8 v)) v.

(** ** sscanf: [%nX] *)

Record scan_state := mkScan {
  sc_signok : bool;     (* a sign may still come *)
  sc_havesign : bool;
  sc_neg : bool;
  sc_pfxok : bool;      (* an "x" may still come *)
  sc_ndigits : bool;    (* no digit so far *)
  sc_nzdigits : bool;   (* no zero digit so far *)
  sc_count : Z;         (* characters taken *)
  sc_lastx : bool;      (* the last one was the "x" of a prefix *)
  sc_value : Z
}.

Definition hex_value (c : Z) : option Z :=
  if (48 <=? c) && (c <=? 57) then Some (c - 48)
  else if (65 <=? c) && (c <=? 70) then Some (c - 55)
  else if (97 <=? c) && (c <=? 102) then Some (c - 87)
  else None.

(** One character; [None] when it does not continue the number. *)
Definition scan_char (c : Z) (s : scan_state) : option scan_state :=
  match hex_value c with
  | Some d =>
      let pfx := if (d =? 0) && sc_nzdigits s then sc_pfxok s else false in
      Some (mkScan false (sc_havesign s) (sc_neg s) pfx false
              (if d =? 0 then false else sc_nzdigits s) (sc_count s + 1) false (sc_value s * 16 + d))
  | None =>
      if ((c =? 43) || (c =? 45)) && sc_signok s
      then Some (mkScan false true (c =? 45) (sc_pfxok s) (sc_ndigits s) (sc_nzdigits s)
                   (sc_count s + 1) false (sc_value s))
      else if ((c =? 120) || (c =? 88)) && sc_pfxok s &&
              (sc_count s =? 1 + bool_to_Z (sc_havesign s))
      then Some (mkScan (sc_signok s) (sc_havesign s) (sc_neg s) false (sc_ndigits s)
                   (sc_nzdigits s) (sc_count s + 1) true (sc_value s))
      else None
  end.

(** The longest prefix of at most [width] characters; the last character taken is remembered so
    that a lone "x" can be pushed back. *)
Fixpoint scan_loop (width : nat) (l : bytes) (s : scan_state) (last : Z) : scan_state * bytes * Z :=
  match width, l with
  | S width, c :: l' =>
      match scan_char c s with
      | Some s' => scan_loop width l' s' c
      | None => (s, l, last)
      end
  | _, _ => (s, l, last)
  end.

Definition is_space (c : Z) : bool := (c =? 32) || ((9 <=? c) && (c <=? 13)).

Fixpoint skip_space (l : bytes) : bytes :=
  match l with
  | c :: l' => if is_space c then skip_space l' else l
  | [] => []
  end.

(** [%nX]: the value stored and the rest of the input. *)
Definition scan_X (width : nat) (l : bytes) : option (Z * bytes) :=
  let '(s, rest, last) :=
    scan_loop width (skip_space l) (mkScan true false false true true true 0 false 0) 0 in
  if sc_ndigits s then None
  else Some (u32 (if sc_neg s then - sc_value s else sc_value s),
             if sc_lastx s then last :: rest else rest).

(** A format of such conversions and literal characters; the values converted. *)
Inductive directive := Hex (width : nat) | Lit (c : Z).

Fixpoint sscanf (fmt : list directive) (l : bytes) : list Z :=
  match fmt with
  | [] => []
  | Hex w :: fmt =>
      match scan_X w l with
      | Some (v, rest) => v :: sscanf fmt rest
      | None => []
      end
  | Lit c :: fmt =>
      match l with
      | c' :: rest => if c' =? c then sscanf fmt rest else []
      | [] => []
      end
  end.

(** ["%08X-%04X-%04X-%02X%02X-%02X%02X%02X%02X%02X%02X"] *)
Definition guid_format : list directive :=
  [Hex 8; Lit 45; Hex 4; Lit 45; Hex 4; Lit 45; Hex 2; Hex 2; Lit 45;
   Hex 2; Hex 2; Hex 2; Hex 2; Hex 2; Hex 2].

(** ** The two functions *)

(** The characters of a string end before its terminator. *)
Fixpoint c_string (l : bytes) : bytes :=
  match l with
  | [] => []
  | c :: l => if c =? 0 then [] else c :: c_string l
  end.

(** The GUID, [None] for [CGPT_FAILED]. *)
Definition StrToGuid (str : bytes) : option Guid :=
  match sscanf guid_format (c_string str) with
  | [c0; c1; c2; c3; c4; c5; c6; c7; c8; c9; c10] =>
      Some (mkGuid (Z.land c0 0xffffffff) (Z.land c1 0xffff) (Z.land c2 0xffff)
              (Z.land c3 0xff) (Z.land c4 0xff)
              [Z.land c5 0xff; Z.land c6 0xff; Z.land c7 0xff;
               Z.land c8 0xff; Z.land c9 0xff; Z.land c10 0xff])
  | _ => None
  end.

Definition GUID_STRLEN : Z := 37.

(** What [snprintf] prints for the fields of a GUID. *)
Definition guid_text (guid : Guid) : bytes :=
  let b i := getn 1 i guid in
  fmt_X 8 (getn 4 0 guid) ++ [45] ++ fmt_X 4 (getn 2 4 guid) ++ [45] ++
  fmt_X 4 (getn 2 6 guid) ++ [45] ++ fmt_X 2 (b 8%nat) ++ fmt_X 2 (b 9%nat) ++ [45] ++
  fmt_X 2 (b 10%nat) ++ fmt_X 2 (b 11%nat) ++ fmt_X 2 (b 12%nat) ++ fmt_X 2 (b 13%nat) ++
  fmt_X 2 (b 14%nat) ++ fmt_X 2 (b 15%nat).

(** The characters stored, terminator included; [None] when the process exits. *)
Definition GuidToStr (guid : Guid) (buflen : Z) : option bytes :=
  if buflen <? GUID_STRLEN then None else
  let s := guid_text guid in
  if Z.of_nat (length s) =? GUID_STRLEN - 1 then Some (take (Z.to_nat (buflen - 1)) s ++ [0])
  else None.

(** ** Theorems *)

Lemma hex_value_char d : 0 <= d < 16 -> hex_value (hex_char d) = Some d.
Proof.
  intros H. unfold hex_value, hex_char. destruct (Z.ltb_spec d 10).
  - replace ((48 <=? 48 + d) && (48 + d <=? 57)) with true by lia. f_equal. lia.
  - replace ((48 <=? 55 + d) && (55 + d <=? 57)) with false by lia.
    replace ((65 <=? 55 + d) && (55 + d <=? 70)) with true by lia. f_equal. lia.
Qed.

Lemma length_hex_digits n v : length (hex_digits n v) = n.
Proof. revert v. induction n; intros; simpl; [done|]. rewrite length_app, IHn. simpl. lia. Qed.

Lemma hex_len_bound w fuel v : 0 <= v < 16 ^ Z.of_nat w -> (hex_len fuel v <= w)%nat.
Proof.
  revert w v. induction fuel as [|fuel IH]; intros w v H; simpl; [lia|].
  destruct (Z.eqb_spec v 0); [lia|]. destruct w as [|w]; [simpl in H; lia|].
  apply le_n_S, IH. rewrite Nat2Z.inj_succ, Z.pow_succ_r in H by lia. lia.
Qed.

Lemma fmt_X_digits w v : 0 <= v < 16 ^ Z.of_nat w -> fmt_X w v = hex_digits w v.
Proof. intros H. unfold fmt_X. rewrite Nat.max_l; [done|]. by apply hex_len_bound. Qed.

(** Scanning digits accumulates them. *)
Lemma scan_loop_digits n m v rest s last : 0 <= v ->
  exists s' last', scan_loop (n + m) (hex_digits n v ++ rest) s last = scan_loop m rest s' last' /\
    sc_neg s' = sc_neg s /\ sc_value s' = sc_value s * 16 ^ Z.of_nat n + v mod 16 ^ Z.of_nat n /\
    (n <> 0%nat -> sc_ndigits s' = false /\ sc_lastx s' = false).
Proof.
  revert m v rest. induction n as [|n IH]; intros m v rest Hv.
  - exists s, last. simpl. rewrite Z.mod_1_r. split_and!; try done. lia.
  - cbn [hex_digits]. rewrite <-app_assoc.
    destruct (IH (S m) (v / 16) ([hex_char (v mod 16)] ++ rest)) as (s1 & l1 & E & Hn & Hval & _); [lia|].
    replace (S n + m)%nat with (n + S m)%nat by lia. rewrite E. simpl. unfold scan_char.
    rewrite hex_value_char by lia. eexists _, _. split; [reflexivity|]. simpl.
    split_and!; [done| |done]. rewrite Hval, Nat2Z.inj_succ, Z.pow_succ_r by lia.
    rewrite Z.rem_mul_r by lia. lia.
Qed.

Lemma scan_loop_done l s last : scan_loop 0 l s last = (s, l, last).
Proof. by destruct l. Qed.

Lemma skip_digits n v rest : 0 <= v -> n <> 0%nat ->
  skip_space (hex_digits n v ++ rest) = hex_digits n v ++ rest.
Proof.
  revert v rest. induction n as [|n IH]; intros v rest Hv Hn; [done|]. cbn [hex_digits].
  rewrite <-app_assoc. destruct n as [|n].
  - simpl. unfold is_space, hex_char. destruct (v mod 16 <? 10) eqn:E;
      (destruct (_ || _) eqn:E'; [lia|done]).
  - apply IH; lia.
Qed.

Lemma scan_X_fmt w v rest : 0 <= v < 16 ^ Z.of_nat w -> v < 2 ^ 32 -> w <> 0%nat ->
  scan_X w (fmt_X w v ++ rest) = Some (v, rest).
Proof.
  intros Hv H32 Hw. rewrite fmt_X_digits by done. unfold scan_X. rewrite skip_digits by lia.
  destruct (scan_loop_digits w 0 v rest (mkScan true false false true true true 0 false 0) 0)
    as (s' & l' & E & Hneg & Hval & Hd); [lia|].
  rewrite Nat.add_0_r in E. rewrite E, scan_loop_done. destruct (Hd Hw) as [-> ->].
  rewrite Hneg, Hval. simpl. rewrite Z.mod_small by done. unfold u32. by rewrite Z.mod_small by lia.
Qed.

Lemma c_string_app a r : Forall (fun c => c <> 0) a -> c_string (a ++ 0 :: r) = a.
Proof.
  induction 1 as [|c a Hc _ IH]; simpl; [done|].
  destruct (Z.eqb_spec c 0); [done|]. by rewrite IH.
Qed.

Lemma hex_digits_nonzero n v : 0 <= v -> Forall (fun c => c <> 0) (hex_digits n v).
Proof.
  revert v. induction n as [|n IH]; intros v Hv; simpl; [constructor|].
  apply Forall_app. split; [apply IH; lia|]. constructor; [|constructor].
  unfold hex_char. case_match; lia.
Qed.

Lemma le_enc_getn n o l : bytes_ok l -> (o + n <= length l)%nat -> le_enc n (getn n o l) = slice o n l.
Proof.
  intros Hl Ho. unfold getn. rewrite <-(le_enc_dec (slice o n l)) at 2 by auto with bytes.
  f_equal. rewrite length_slice. lia.
Qed.

Lemma getn_1_slice o l : bytes_ok l -> (o + 1 <= length l)%nat -> slice o 1 l = [getn 1 o l].
Proof.
  intros Hl Ho. rewrite <-le_enc_getn by done. cbn [le_enc]. f_equal.
  apply Z.mod_small. apply (getn_bound 1). done.
Qed.

Lemma slices_16 (l : bytes) : length l = 16%nat ->
  l = slice 0 4 l ++ slice 4 2 l ++ slice 6 2 l ++ slice 8 1 l ++ slice 9 1 l ++
      slice 10 1 l ++ slice 11 1 l ++ slice 12 1 l ++ slice 13 1 l ++ slice 14 1 l ++ slice 15 1 l.
Proof. intros H. do 16 (destruct l as [|? l]; [done|]). destruct l; [|done]. reflexivity. Qed.

Section GuidText.
Context (guid : Guid) (Hg : bytes_ok guid) (Hl : length guid = 16%nat).

Lemma guid_fields : 0 <= getn 4 0 guid < 2 ^ 32 /\ 0 <= getn 2 4 guid < 2 ^ 16 /\
  0 <= getn 2 6 guid < 2 ^ 16 /\ forall i, 0 <= getn 1 i guid < 16 ^ Z.of_nat 2.
Proof using Hg.
  split; [exact (getn_bound 4 0 guid Hg)|]. split; [exact (getn_bound 2 4 guid Hg)|].
  split; [exact (getn_bound 2 6 guid Hg)|]. intros i. exact (getn_bound 1 i guid Hg).
Qed.

Lemma length_guid_text : length (guid_text guid) = 36%nat.
Proof using Hg Hl.
  destruct guid_fields as (B4 & B2 & B3 & B1). unfold guid_text.
  rewrite !fmt_X_digits by first [apply B1 | simpl; lia].
  rewrite !length_app, !length_hex_digits. reflexivity.
Qed.

Lemma guid_text_nonzero : Forall (fun c => c <> 0) (guid_text guid).
Proof using Hg Hl.
  destruct guid_fields as (B4 & B2 & B3 & B1). unfold guid_text.
  rewrite !fmt_X_digits by first [apply B1 | simpl; lia].
  rewrite !Forall_app. split_and!; try (apply hex_digits_nonzero; first [lia | apply B1]);
    by repeat constructor.
Qed.

Lemma GuidToStr_some buflen : 37 <= buflen -> GuidToStr guid buflen = Some (guid_text guid ++ [0]).
Proof using Hg Hl.
  intros Hb. unfold GuidToStr. replace (buflen <? GUID_STRLEN) with false
    by (unfold GUID_STRLEN; lia).
  rewrite length_guid_text. change (Z.of_nat 36 =? GUID_STRLEN - 1) with true. cbv iota zeta.
  rewrite take_ge by (rewrite length_guid_text; lia). done.
Qed.
End GuidText.

Lemma sscanf_guid_text guid s :
  bytes_ok guid -> length guid = 16%nat -> c_string s = guid_text guid -> StrToGuid s = Some guid.
Proof.
  intros Hg Hl Hs. destruct (guid_fields guid Hg) as (B4 & B2 & B3 & B1).
  unfold StrToGuid. rewrite Hs. unfold guid_text, guid_format.
  assert (B1' : forall i, getn 1 i guid < 2 ^ 32) by (intros i; specialize (B1 i); simpl in B1; lia).
  rewrite <-(app_nil_r (fmt_X 2 (getn 1 15 guid))).
  repeat (cbn [sscanf app]; try change (45 =? 45) with true; cbv iota;
    try rewrite scan_X_fmt by first [apply B1 | apply B1' | simpl; lia]; cbv iota beta).
  change 0xffffffff with (2 ^ 32 - 1). change 0xffff with (2 ^ 16 - 1). change 0xff with (2 ^ 8 - 1).
  rewrite !land_low by lia. rewrite !Z.mod_small by first [apply B1 | lia].
  f_equal. unfold mkGuid. rewrite (slices_16 guid Hl) at 12. rewrite !le_enc_getn by (done || lia).
  rewrite !(getn_1_slice _ guid Hg) by lia. reflexivity.
Qed.

(** printing a GUID and parsing the result gives the GUID back, for every GUID; the text is
    36 characters and a terminator. *)
Theorem guid_round_trip guid buflen :
  bytes_ok guid -> length guid = 16%nat -> 37 <= buflen ->
  exists str, GuidToStr guid buflen = Some str /\ length str = 37%nat /\ StrToGuid str = Some guid.
Proof.
  intros Hg Hl Hb. exists (guid_text guid ++ [0]). split; [by apply GuidToStr_some|].
  split; [by rewrite length_app, length_guid_text|]. apply sscanf_guid_text; [done|done|].
  by rewrite c_string_app by (by apply guid_text_nonzero).
Qed.

Lemma guid_round_trip_witness :
  exists str, GuidToStr GPT_ENT_TYPE_EFI 37 = Some str /\ length str = 37%nat /\
    StrToGuid str = Some GPT_ENT_TYPE_EFI.
Proof. apply guid_round_trip; [by apply bytes_okb_ok|reflexivity|lia]. Defined.

(** ** printf *)

Definition str (s : string) : bytes := map (fun c => Z.of_N (Ascii.N_of_ascii c)) (String.list_ascii_of_string s).

Fixpoint dec_digits (fuel : nat) (v : Z) : bytes :=
  match fuel with
  | O => []
  | S fuel => (if v <? 10 then [] else dec_digits fuel (v / 10)) ++ [48 + v mod 10]
  end.

(** [%d] and [%lld]: twenty digits are enough for 64 bits. *)
Definition fmt_d (v : Z) : bytes := if v <? 0 then 45 :: dec_digits 20 (- v) else dec_digits 20 v.

Definition hex_lower (d : Z) : Z := if d <? 10 then 48 + d else 87 + d.

Fixpoint hex_lower_digits (n : nat) (v : Z) : bytes :=
  match n with
  | O => []
  | S n => hex_lower_digits n (v / 16) ++ [hex_lower (v mod 16)]
  end.

(** [%x] and [%08x] *)
Definition fmt_x (width : nat) (v : Z) : bytes :=
  hex_lower_digits (Nat.max width (Nat.max 1 (hex_len 8 v))) v.

Definition pad (width : nat) (s : bytes) : bytes := replicate (width - length s) 32 ++ s.

Definition NL : bytes := [10].
