(* ===== verification/CommandSpec.v ===== *)
(** * What a command may do to a drive

    The shape shared by the theorems about the commands that open a drive, work on the table in
    memory and write it back: which bytes of the drive can change, that no descriptor is leaked,
    and rules that apply the theorems about [DriveOpen] and [DriveClose] inside a command. *)

From stdpp Require Import base list numbers gmap strings.
From Stdlib Require Import ZArith Lia.
From S2P Require Import Prelude Crc32 GptTypes GptLib GptSanity Posix Drive DriveSpec.

(** ** The part of a drive that holds the partition table *)

(** Byte [i] belongs to one of the four structures. *)
Definition gpt_byte (data : bytes) (i : nat) : Prop :=
  512 <= Z.of_nat i < 34 * 512 \/ (disk_sectors data - 33) * 512 <= Z.of_nat i.

(** [data'] differs from [data] only there. *)
Record confined (data data' : bytes) : Prop := {
  cf_length : length data' = length data;
  cf_bytes : bytes_ok data';
  cf_other i : ~ gpt_byte data i -> data' !! i = data !! i
}.

Lemma confined_refl data : bytes_ok data -> confined data data.
Proof. by split. Qed.

Lemma lookup_splice_ne off new l i :
  (off + length new <= length l)%nat -> (i < off \/ off + length new <= i)%nat ->
  splice off new l !! i = l !! i.
Proof.
  intros Hl Hi. unfold splice. destruct Hi as [Hi|Hi].
  - rewrite lookup_app_l by len. by rewrite lookup_take_lt by lia.
  - rewrite lookup_app_r by len. rewrite lookup_app_r by len. rewrite lookup_drop. f_equal. len.
Qed.

Lemma confined_stored data data' sector buf j :
  disk_ok data -> confined data data' -> bytes_ok buf -> (j <= length buf)%nat ->
  0 <= sector -> sector * 512 + Z.of_nat (length buf) <= Z.of_nat (length data) ->
  (1 <= sector /\ sector * 512 + Z.of_nat (length buf) <= 34 * 512 \/
   disk_sectors data - 33 <= sector) ->
  confined data (stored sector buf j data').
Proof.
  intros [_ Hs Hmin _] [Cl Cb Co] Hb Hj H0 Hin Hd. unfold stored. split.
  - rewrite length_splice; [done|]. rewrite length_take. lia.
  - apply bytes_ok_splice; [by apply bytes_ok_take|done].
  - intros i Hi. rewrite <-Co by done. unfold gpt_byte in Hi.
    apply lookup_splice_ne; rewrite length_take; lia.
Qed.

Lemma confined_partly_written g data data' :
  disk_ok data -> gpt_ok g -> drive_sectors g = disk_sectors data ->
  partly_written g data data' -> confined data data'.
Proof.
  intros Hd [[B1 L1] [B2 L2] [B3 L3] [B4 L4] _ _] E (j1 & j2 & j3 & j4 & J1 & J2 & J3 & J4 & ->).
  unfold TOTAL_ENTRIES_SIZE in *. rewrite E. pose proof Hd as [Hb Hs Hmin Hmax].
  repeat (apply confined_stored; [done| |done|lia|lia|lia|lia]). by apply confined_refl.
Qed.

(** ** The outcome of a command *)

(** The command ran on the drive [f] at [path]: only the table changed, no descriptor is left
    open when it returns, and the code it returns and the final image satisfy [P]. *)
Definition command_post {A} (path : string) (f : file) (w : world) (P : A -> bytes -> Prop)
    (o : outcome A) (w' : world) : Prop :=
  exists data',
    w_files w' = <[ path := mkFile (f_kind f) data' ]> (w_files w) /\
    confined (f_data f) data' /\
    match o with
    | Ret a => w_fds w' = w_fds w /\ P a data'
    | Exit _ => data' = f_data f /\ ~ quiet w
    | Undefined => False
    end.

(** A drive the commands work on. *)
Record drive_file (w : world) (path : string) (f : file) : Prop := {
  df_file : w_files w !! path = Some f;
  df_kind : f_kind f = Regular \/ f_kind f = Block 512;
  df_disk : disk_ok (f_data f)
}.

Lemma unchanged_post {A} path f w (P : A -> bytes -> Prop) o w' :
  drive_file w path f -> w_files w' = w_files w ->
  match o with
  | Ret a => w_fds w' = w_fds w /\ P a (f_data f)
  | Exit _ => ~ quiet w
  | Undefined => False
  end -> command_post path f w P o w'.
Proof.
  intros [Hf _ Hd] E H. exists (f_data f).
  split; [rewrite E; symmetry; apply insert_id; by destruct f|].
  split; [apply confined_refl, Hd|]. destruct o; tauto.
Qed.

Section Rules.
Context (path : string) (f : file) (w : world) (Hd : drive_file w path f).

(** [DriveOpen] at the beginning of a command. *)
Lemma wp_open_drive {B} (Q : outcome B -> world -> Prop) kont mode :
  o_read mode = true -> o_creat mode = false -> o_trunc mode = false ->
  (forall d w1 w', open_state (d_fd d) path mode w w1 ->
     session (d_fd d) path true (o_write mode) w1 w' ->
     d_gpt d = disk_gpt (f_data f) -> length (d_pmbr d) = 512%nat ->
     wp Q (kont (CGPT_OK, d)) w') ->
  (forall d w', w_files w' = w_files w -> w_fds w' = w_fds w -> ~ quiet w ->
     wp Q (kont (CGPT_FAILED, d)) w') ->
  (forall c w', w_files w' = w_files w -> ~ quiet w -> Q (Exit c) w') ->
  wp Q (bind (DriveOpen path mode) kont) w.
Proof using Hd.
  intros Hr Hc Ht H1 H2 H3. destruct Hd as [Hf Hk Hdisk].
  destruct (disk_openable f Hk Hdisk) as (Hop & Hsz & Hmed).
  apply wp_bind. eapply wp_mono.
  { apply wp_DriveOpen; [done..|]. intros f' Hf'. rewrite Hf in Hf'. by injection Hf' as <-. }
  intros [[rc d]|c|] w' [E H]; [|by apply H3|done].
  destruct H as [(-> & f' & w1 & Hf' & Hos & Hs & Hdo)|(-> & E2 & Hno)].
  - rewrite Hf in Hf'. injection Hf' as <-. eapply H1; [exact Hos|by rewrite Hr in Hs| |apply Hdo].
    by apply drive_of_disk.
  - apply H2; [done|done|]. intros Hq. by apply (Hno Hq f Hf).
Qed.

(** [DriveClose] without an update, on any path that ends a command. *)
Lemma wp_close_drive {B} (Q : outcome B -> world -> Prop) kont mode d w1 w' (update : bool) :
  open_state (d_fd d) path mode w w1 ->
  session (d_fd d) path true (o_write mode) w1 w' ->
  (update = true -> modified (d_gpt d) = 0) ->
  (forall d' w'', w_files w'' = w_files w -> w_fds w'' = w_fds w -> wp Q (kont (CGPT_OK, d')) w'') ->
  wp Q (bind (DriveClose d update) kont) w'.
Proof using Hd.
  intros (Hfr & _ & E1 & E2 & _) Hs Hm H. destruct Hd as [Hf _ _]. rewrite <-E1 in Hf.
  apply wp_bind. eapply wp_mono; [by eapply wp_close_unmodified|].
  intros o w'' (F1 & F2 & _ & d' & ->). apply H; [by rewrite F1|].
  rewrite F2, E2. by apply delete_insert_id.
Qed.

(** [DriveClose] with an update. *)
Lemma wp_write_drive {A} (h : Z -> A) mode d w1 w' (P : A -> bytes -> Prop) :
  o_write mode = true ->
  open_state (d_fd d) path mode w w1 ->
  session (d_fd d) path true (o_write mode) w1 w' ->
  gpt_ok (d_gpt d) -> sector_bytes (d_gpt d) = 512 ->
  drive_sectors (d_gpt d) = disk_sectors (f_data f) ->
  P (h CGPT_OK) (write_back (d_gpt d) (f_data f)) ->
  (forall data', ~ quiet w -> P (h CGPT_FAILED) data') ->
  wp (command_post path f w P) (let! (r, _) := DriveClose d true in ret (h r)) w'.
Proof using Hd.
  intros Hw (Hfr & _ & E1 & E2 & Eq) Hs Hg Hz Hds Hok Hfail. destruct Hd as [Hf _ Hdisk].
  assert (Hf1 : w_files w1 !! path = Some f) by (by rewrite E1). rewrite Hw in Hs.
  apply wp_bind. eapply wp_mono.
  { eapply wp_DriveClose; [by apply (session_wsession _ _ _ _ _ _ Hf1 Hs)|done|done|].
    by apply disk_geometry. }
  intros o w'' (rc & d' & data' & -> & F1 & F2 & _ & Hp & H). apply wp_ret.
  exists data'. split; [by rewrite F1, E1|].
  split; [by eapply confined_partly_written|]. split.
  - rewrite F2, E2. by apply delete_insert_id.
  - destruct H as [[-> ->]|[-> Hq]]; [done|]. apply Hfail. auto.
Qed.
End Rules.

(** ** The check sees only the table *)

Lemma GptSanityCheck_same_table g g' : same_table g g' ->
  (GptSanityCheck g').1 = (GptSanityCheck g).1 /\
  valid_headers (GptSanityCheck g').2 = valid_headers (GptSanityCheck g).2 /\
  valid_entries (GptSanityCheck g').2 = valid_entries (GptSanityCheck g).2.
Proof.
  intros [E1 E2 E3 E4 E5 E6].
  pose proof (GptSanityCheck_masks g) as H. pose proof (GptSanityCheck_masks g') as H'.
  cbv zeta in H, H'. rewrite E1, E2, E3, E4, E6 in H'.
  assert (E : CheckParameters g' = CheckParameters g) by (unfold CheckParameters; by rewrite E5, E6).
  rewrite E in H'. destruct (sanity_masks _ _ _ _ _ _ _ _) as [[r vh] ve]. by rewrite H, H'.
Qed.

(** A drive whose two copies are valid and agree. *)
Definition valid_disk (data : bytes) : Prop :=
  (GptSanityCheck (disk_gpt data)).1 = GPT_SUCCESS /\
  valid_headers (GptSanityCheck (disk_gpt data)).2 = MASK_BOTH /\
  valid_entries (GptSanityCheck (disk_gpt data)).2 = MASK_BOTH.

Lemma valid_disk_written g data :
  gpt_ok g -> geometry g data -> tracked g data ->
  GptSanityCheck g = (GPT_SUCCESS, set_valid_entries MASK_BOTH (set_valid_headers MASK_BOTH g)) ->
  valid_disk (write_back g data).
Proof.
  intros Hg Hge Hm H. destruct (disk_gpt_write_back g data Hg Hge Hm) as [Hsame _].
  apply GptSanityCheck_same_table in Hsame. rewrite H in Hsame. exact Hsame.
Qed.
