(* ===== verification/CgptCreate.v ===== *)
(** * Creating and repairing a table (cgpt_create.c, cgpt_repair.c, cgpt_legacy.c) *)

From stdpp Require Import base list numbers gmap strings.
From Stdlib Require Import ZArith Lia.
From S2P Require Import Prelude Crc32 GptTypes GptLib GptSanity Posix Drive DriveSpec CgptCommon CommitSpec CommandSpec.

(** ** Random identifiers *)

(** [cgpt_uuid_generate]: 16 bytes of /dev/urandom over a zeroed buffer. *)
Definition cgpt_uuid_generate : M Guid :=
  let buffer := replicate GUID_SIZE 0 in
  let! fd := sys_open "/dev/urandom" O_RDONLY in
  if negb (fd =? -1) then
    let! (_, b) := sys_read fd 16 in
    sys_close fd ;;
    ret (splice 0 b buffer)
  else ret buffer.

(** [uuid_generator], a pointer that may be null. *)
Abbreviation uuid_fn := (option (M Guid)).

(** ** cgpt_create *)

Record CgptCreateParams := mkCreate { cr_drive_name : string; cr_zap : bool }.

(** [memset(buf, 0, sector_bytes * n)] *)
Definition erase (g : GptData) (n : Z) (buf : bytes) : bytes :=
  memzero (Z.to_nat (u32 (sector_bytes g * n))) buf.

Definition erase_all (g : GptData) : GptData :=
  let g := set_primary_header (erase g GPT_HEADER_SECTOR (primary_header g)) g in
  let g := set_secondary_header (erase g GPT_HEADER_SECTOR (secondary_header g)) g in
  let g := set_primary_entries (erase g GPT_ENTRIES_SECTORS (primary_entries g)) g in
  let g := set_secondary_entries (erase g GPT_ENTRIES_SECTORS (secondary_entries g)) g in
  or_modified GPT_MODIFIED_ALL g.

(** The fields of a blank primary header before and after the identifier is generated. *)
Definition blank_header1 (g : GptData) (h : bytes) : bytes :=
  let h := set_h_signature GPT_HEADER_SIGNATURE h in
  let h := set_h_revision GPT_HEADER_REVISION h in
  let h := set_h_size (Z.of_nat sizeof_GptHeader) h in
  let h := set_h_my_lba 1 h in
  let h := set_h_alternate_lba (u64 (drive_sectors g - 1)) h in
  let h := set_h_first_usable_lba (1 + 1 + GPT_ENTRIES_SECTORS) h in
  set_h_last_usable_lba (u64 (drive_sectors g - 1 - GPT_ENTRIES_SECTORS - 1)) h.

Definition blank_header2 (id : Guid) (h : bytes) : bytes :=
  let h := set_h_disk_uuid id h in
  let h := set_h_entries_lba 2 h in
  let h := set_h_number_of_entries 128 h in
  set_h_size_of_entry (Z.of_nat sizeof_GptEntry) h.

Definition cgpt_create (uuid_generator : uuid_fn) (params : option CgptCreateParams) : M Z :=
  match params with
  | None => ret CGPT_FAILED
  | Some params =>
    let! (rc, d) := DriveOpen (cr_drive_name params) O_RDWR in
    if negb (rc =? CGPT_OK) then ret CGPT_FAILED else
    let g := erase_all (d_gpt d) in
    if cr_zap params then
      let! (r, _) := DriveClose (set_gpt g d) true in ret r
    else
      let h := blank_header1 g (primary_header g) in
      match uuid_generator with
      | None => DriveClose (set_gpt (set_primary_header h g) d) false ;; ret CGPT_FAILED
      | Some gen =>
          let! id := gen in
          let g := set_primary_header (blank_header2 id h) g in
          let g := (RepairHeader g MASK_PRIMARY).2 in
          let g := UpdateCrc g in
          let! (r, _) := DriveClose (set_gpt g d) true in ret r
      end
  end.

(** ** cgpt_repair *)

Definition cgpt_repair (params : option string) : M Z :=
  match params with
  | None => ret CGPT_FAILED
  | Some drive_name =>
    let! (rc, d) := DriveOpen drive_name O_RDWR in
    if negb (rc =? CGPT_OK) then ret CGPT_FAILED else
    let '(_, g) := GptSanityCheck (d_gpt d) in
    let g := GptRepair g in
    let! (r, _) := DriveClose (set_gpt g d) true in ret r
  end.

(** ** cgpt_legacy *)

Record CgptLegacyParams := mkLegacy { le_drive_name : string; le_efipart : bool }.

Definition cgpt_legacy (params : option CgptLegacyParams) : M Z :=
  match params with
  | None => ret CGPT_FAILED
  | Some params =>
    let! (rc, d) := DriveOpen (le_drive_name params) O_RDWR in
    if negb (rc =? CGPT_OK) then ret CGPT_FAILED else
    let g := d_gpt d in
    let sign s g :=
      set_secondary_header (set_h_signature s (secondary_header g))
        (set_primary_header (set_h_signature s (primary_header g)) g) in
    let m := Z.lor (Z.lor GPT_MODIFIED_HEADER1 GPT_MODIFIED_ENTRIES1) GPT_MODIFIED_HEADER2 in
    let g :=
      if le_efipart params then
        or_modified m (RepairEntries (sign GPT_HEADER_SIGNATURE g) MASK_SECONDARY).2
      else
        let g := sign GPT_HEADER_SIGNATURE2 g in
        or_modified m
          (set_primary_entries (memzero (Z.to_nat (sector_bytes g)) (primary_entries g)) g) in
    let g := UpdateCrc g in
    let! (r, _) := DriveClose (set_gpt g d) true in ret r
  end.

(** ** Generators *)

(** What the commands expect of [uuid_generator]: it returns 16 bytes and leaves the files and
    the open descriptors as they were. *)
Class UuidGenerator (gen : M Guid) (ok : world -> Prop) := uuid_generates w :
  ok w ->
  wp (fun o w' => w_files w' = w_files w /\ w_fds w' = w_fds w /\ (quiet w -> quiet w') /\
        exists id, o = Ret id /\ length id = 16%nat /\ bytes_ok id) gen w.

(** Every file holds bytes. *)
Definition world_ok (w : world) : Prop :=
  forall p f, w_files w !! p = Some f -> bytes_ok (f_data f).

#[export] Instance cgpt_uuid_generator : UuidGenerator cgpt_uuid_generate world_ok.
Proof.
  intros w Hok. unfold cgpt_uuid_generate. apply wp_bind, wp_open; [done|done| |].
  { intros w1 (E1 & E2 & E3) _. simpl. apply wp_ret. split_and!; try done.
    eexists. split; [reflexivity|]. split; [done|by apply bytes_okb_ok]. }
  intros w1 fd f Hf _ Hfr Hfd E1 E2 E3. simpl. replace (fd =? -1) with false by lia. simpl.
  assert (Hs : session fd "/dev/urandom" true false w1 w1).
  { split; try done. exists 0. split; [done|]. by rewrite E2, lookup_insert_eq. }
  assert (Hf1 : w_files w1 !! "/dev/urandom"%string = Some f) by (by rewrite E1).
  destruct (session_file _ _ _ _ _ _ Hf1 _ Hs) as (o & Ho & Hfile).
  assert (Hend : forall w2 b, session fd "/dev/urandom" true false w1 w2 -> bytes_ok b ->
    (length b <= 16)%nat ->
    wp (fun o w' => w_files w' = w_files w /\ w_fds w' = w_fds w /\ (quiet w -> quiet w') /\
      exists id, o = Ret id /\ length id = 16%nat /\ bytes_ok id)
      (sys_close fd ;; ret (splice 0 b (replicate GUID_SIZE 0))) w2).
  { intros w2 b Hs2 Hb Hlb. destruct (session_file _ _ _ _ _ _ Hf1 _ Hs2) as (o2 & _ & Hfile2).
    apply wp_bind. eapply wp_close; [exact Hfile2|]. intros w3 F1 F2 F3. apply wp_ret.
    rewrite F1, F2, (se_files _ _ _ _ _ _ Hs2), (se_fds _ _ _ _ _ _ Hs2), E1, E2.
    rewrite delete_insert_id by done. split_and!; try done.
    - intros Hq. apply F3, (se_quiet _ _ _ _ _ _ Hs2). auto.
    - eexists. split; [reflexivity|]. split.
      + rewrite length_splice; [done|]. unfold GUID_SIZE. rewrite length_replicate. lia.
      + apply bytes_ok_splice; [done|apply bytes_ok_zeros]. }
  apply wp_bind. eapply wp_read; [exact Hfile|done|simpl; lia| |].
  - intros w2 Hu _. apply Hend; [by eapply session_unmoved|constructor|simpl; lia].
  - intros w2 n avail Hn Hn2 _ Hm. apply Hend.
    + eapply session_moved; [exact Hs| | | | |exact Hm]; simpl; first [lia|done].
    + apply bytes_ok_slice. by apply (Hok _ _ Hf).
    + rewrite length_slice. lia.
Qed.

(** ** What creating leaves on the drive *)

Lemma slice_replicate o n m (x : Z) : (o + n <= m)%nat -> slice o n (replicate m x) = replicate n x.
Proof.
  intros H. unfold slice. rewrite drop_replicate, take_replicate. f_equal. lia.
Qed.

Lemma memzero_all n l : length l = n -> memzero n l = replicate n 0.
Proof. intros <-. unfold memzero. by rewrite drop_all, app_nil_r. Qed.

Definition zero_header : bytes := replicate 512 0.
Definition zero_table : bytes := replicate table_len 0.

Definition erased (ds : Z) : GptData :=
  mkGptData zero_header zero_header zero_table zero_table 512 ds GPT_MODIFIED_ALL 0 0 0 0.

Lemma erase_disk data : disk_ok data -> erase_all (disk_gpt data) = erased (disk_sectors data).
Proof.
  intros Hd. destruct (disk_gpt_ok data Hd) as [[_ L1] [_ L2] [_ L3] [_ L4] _ _].
  unfold disk_gpt in *. cbn [primary_header secondary_header primary_entries secondary_entries] in *.
  unfold erase_all, erase, erased, or_modified, GPT_HEADER_SECTOR, GPT_ENTRIES_SECTORS.
  cbn -[memzero Z.lor u32 Z.to_nat slice].
  replace (u32 (512 * 1)) with 512 by done. replace (u32 (512 * 32)) with TOTAL_ENTRIES_SIZE by done.
  replace (Z.to_nat TOTAL_ENTRIES_SIZE) with table_len by (pose proof table_len_Z; unfold TOTAL_ENTRIES_SIZE; lia).
  pose proof table_len_Z. unfold TOTAL_ENTRIES_SIZE in *.
  rewrite !memzero_all by lia. reflexivity.
Qed.

Lemma zero_header_ok : hdr_ok zero_header.
Proof. split; [apply bytes_ok_zeros|apply length_replicate]. Qed.

Lemma zero_table_ok : tbl_ok zero_table.
Proof. split; [apply bytes_ok_zeros|]. unfold zero_table. rewrite length_replicate. exact table_len_Z. Qed.

Lemma zero_table_unused i : (i < 128)%nat -> ~ used zero_table i.
Proof.
  intros Hi Hu. unfold used, IsUnusedEntry, e_type, zero_table in Hu.
  rewrite slice_replicate in Hu; [done|]. unfold entry_off, sizeof_GptEntry.
  pose proof table_len_Z. lia.
Qed.

(** A new primary header. *)
Definition new_header (ds : Z) (id : Guid) : bytes :=
  blank_header2 id (blank_header1 (erased ds) zero_header).

Section NewHeader.
Context (ds : Z) (id : Guid) (Hds : 67 <= ds < 2 ^ 64).
Context (Hid : bytes_ok id) (Hlen : length id = 16%nat).

Lemma new_header_ok : hdr_ok (new_header ds id).
Proof using Hid Hlen.
  unfold new_header, blank_header1, blank_header2. autounfold with hdr.
  repeat (apply hdr_ok_put; [|lia]). apply hdr_ok_splice; [|done|lia].
  repeat (apply hdr_ok_put; [|lia]). apply hdr_ok_splice; [|by apply bytes_okb_ok|simpl; lia].
  exact zero_header_ok.
Qed.

Ltac new_len :=
  autounfold with hdr;
  repeat lazymatch goal with
    | |- length (putn _ _ _ _) = _ => apply length_putn_eq; [|lia]
    | |- length (splice _ _ _) = _ => apply length_splice_eq; [|rewrite ?Hlen; simpl; lia]
    | |- _ => apply length_replicate
    end.

Ltac new_side :=
  rewrite ?Hlen;
  lazymatch goal with
  | |- context [length (putn ?a ?b ?c ?d)] =>
      let H := fresh in assert (length (putn a b c d) = 512%nat) as H by new_len; rewrite H; simpl; lia
  | |- context [length (splice ?a ?b ?c)] =>
      let H := fresh in assert (length (splice a b c) = 512%nat) as H by new_len; rewrite H; simpl; lia
  | |- _ => unfold zero_header; rewrite ?length_replicate; simpl; lia
  end.

Ltac new_fields :=
  unfold new_header, blank_header1, blank_header2; autounfold with hdr;
  repeat first
    [ rewrite getn_putn_eq by new_side
    | rewrite getn_putn_ne by new_side
    | rewrite slice_putn_ne by new_side
    | rewrite getn_splice_ne by new_side
    | rewrite slice_splice_ne by new_side ].

Lemma new_header_range :
  h_first_usable_lba (new_header ds id) = 34 /\ h_last_usable_lba (new_header ds id) = ds - 34.
Proof using Hds Hlen.
  split; new_fields; [reflexivity|]. unfold GPT_ENTRIES_SECTORS. cbn [drive_sectors erased].
  rewrite (u64_small (ds - 1 - 32 - 1)) by lia. rewrite Z.mod_small by lia. lia.
Qed.

Lemma new_header_wf : 68 <= ds -> header_wf (new_header ds id) ds.
Proof using Hds Hlen.
  intros H68. destruct new_header_range as [E1 E2].
  split; rewrite ?E1, ?E2; try lia; try (new_fields; reflexivity).
Qed.
End NewHeader.

Lemma zero_table_wf first last : table_wf zero_table first last.
Proof.
  split; intros i; intros; exfalso.
  - by apply (zero_table_unused i).
  - by apply (zero_table_unused i).
  - by apply (zero_table_unused i).
Qed.

(** The table before [RepairHeader] and [UpdateCrc]. *)
Definition create_start (ds : Z) (id : Guid) : GptData :=
  set_primary_header (new_header ds id) (erased ds).

Lemma create_start_ok ds id : 67 <= ds < 2 ^ 64 -> bytes_ok id -> length id = 16%nat ->
  gpt_ok (create_start ds id).
Proof.
  intros Hds Hid Hlen. split.
  - by apply new_header_ok.
  - exact zero_header_ok.
  - exact zero_table_ok.
  - exact zero_table_ok.
  - cbn. lia.
  - unfold GPT_MODIFIED_ALL. vm_compute. split; [discriminate|reflexivity].
Qed.

Lemma create_start_eq ds id :
  UpdateCrc (RepairHeader (set_primary_header
    (blank_header2 id (blank_header1 (erased ds) (primary_header (erased ds)))) (erased ds))
    MASK_PRIMARY).2 = finished (create_start ds id).
Proof. unfold finished, create_start, new_header. cbn [primary_header erased]. reflexivity. Qed.

Lemma created_result ds id :
  67 <= ds < 2 ^ 64 -> bytes_ok id -> length id = 16%nat ->
  let g := finished (create_start ds id) in
  sector_bytes g = 512 /\ drive_sectors g = ds /\ modified g = GPT_MODIFIED_ALL /\
  (68 <= ds ->
   GptSanityCheck g = (GPT_SUCCESS, set_valid_entries MASK_BOTH (set_valid_headers MASK_BOTH g)) /\
   forall i, (i < 128)%nat -> ~ used (primary_entries g) i).
Proof.
  intros Hds Hid Hl. pose proof (create_start_ok ds id Hds Hid Hl) as Hst.
  destruct (finished_frame (create_start ds id)) as (A1 & A3 & A4 & A5).
  cbv zeta. rewrite A3, A4, A5. split; [reflexivity|]. split; [reflexivity|].
  split; [reflexivity|]. intros H68.
  assert (Hw : header_wf (primary_header (create_start ds id)) (drive_sectors (create_start ds id)))
    by exact (new_header_wf ds id Hds Hl H68).
  split.
  - apply finished_check; [exact Hst|exact (proj1 Hds)|exact Hw|reflexivity|reflexivity|reflexivity|].
    exact (zero_table_wf _ _).
  - rewrite A1. exact zero_table_unused.
Qed.

(** What a finished [cgpt_create] means for the image. *)
Definition create_result (w : world) (ds : Z) (rc : Z) (data' : bytes) : Prop :=
  rc = CGPT_OK /\ (68 <= ds -> valid_disk data' /\
     forall i, (i < 128)%nat -> ~ used (primary_entries (disk_gpt data')) i) \/
  rc = CGPT_FAILED /\ ~ quiet w.


(** ** Repairing *)

(** The bits [GptRepair] adds are exactly those of the structures it replaced. *)
Lemma repair_marks g0 g :
  gpt_ok g0 -> modified g0 = 0 -> GptSanityCheck g0 = (GPT_SUCCESS, g) -> let r := GptRepair g in
  (modified_bit r GPT_MODIFIED_HEADER1 = true \/ primary_header r = primary_header g0) /\
  (modified_bit r GPT_MODIFIED_HEADER2 = true \/ secondary_header r = secondary_header g0) /\
  (modified_bit r GPT_MODIFIED_ENTRIES1 = true \/ primary_entries r = primary_entries g0) /\
  (modified_bit r GPT_MODIFIED_ENTRIES2 = true \/ secondary_entries r = secondary_entries g0).
Proof.
  intros Hg Hm H. apply GptSanityCheck_sane in H as [Hs Hb]; [|done].
  pose proof (same_buffers_ok _ _ Hb Hg) as Hg'. cbv zeta. rewrite GptRepair_eq by done.
  destruct Hb as (vh & ve & ->). destruct Hs as [_ _ M1 M2 _ _ _ _ _].
  unfold modified_bit, repaired_headers, repaired_entries, repaired_modified.
  cbn -[Z.land rebuild_header1 rebuild_header2] in *. rewrite Hm.
  destruct M1 as [->|[->| ->]], M2 as [->|[->| ->]]; cbn -[rebuild_header1 rebuild_header2];
    split_and!; first [by left | by right].
Qed.

(** A rejected table is left alone by [GptRepair]. *)
Lemma repair_rejected g0 r g : GptSanityCheck g0 = (r, g) -> r <> GPT_SUCCESS ->
  GptRepair g = g /\ modified g = modified g0.
Proof.
  intros H Hr. pose proof (GptSanityCheck_masks g0) as E. cbv zeta in E.
  destruct (sanity_masks _ _ _ _ _ _ _ _) as [[r' vh] ve] eqn:Em.
  rewrite E in H. injection H as -> <-.
  assert (Hz : vh = 0 \/ ve = 0).
  { unfold sanity_masks in Em. repeat case_match; bprop; simplify_eq; tauto. }
  split; [|done]. unfold GptRepair. cbn [valid_headers valid_entries set_valid_headers set_valid_entries].
  destruct Hz as [->| ->]; [done|]. by rewrite orb_true_r.
Qed.

(** C4: [cgpt_repair] on a drive, under any schedule of failures: when the table can be used at
    all and the command reports success, the drive then holds two valid, matching copies; when
    neither copy can be trusted nothing at all is written.  In no case does it touch anything but
    the partition-table area, leak a descriptor, or fail without a failing system call. *)
Theorem cgpt_repair_repairs path f w :
  drive_file w path f ->
  wp (command_post path f w (fun rc data' =>
        (GptSanityCheck (disk_gpt (f_data f))).1 = GPT_SUCCESS /\ rc = CGPT_OK /\ valid_disk data' \/
        (GptSanityCheck (disk_gpt (f_data f))).1 <> GPT_SUCCESS /\ rc = CGPT_OK /\ data' = f_data f \/
        rc = CGPT_FAILED /\ ~ quiet w))
     (cgpt_repair (Some path)) w.
Proof.
  intros Hd. unfold cgpt_repair. pose proof (df_disk _ _ _ Hd) as Hdisk.
  eapply wp_open_drive; [exact Hd|done..| | |].
  2:{ intros d w' E1 E2 Hq. simpl. apply wp_ret. apply unchanged_post; [done|done|]. split; [done|]. auto. }
  2:{ intros c w' E1 Hq. by apply unchanged_post. }
  intros d w1 w2 Hos Hs Hg _. change (negb (CGPT_OK =? CGPT_OK)) with false. cbv iota.
  rewrite Hg. pose proof (disk_gpt_ok _ Hdisk) as Hok.
  destruct (GptSanityCheck (disk_gpt (f_data f))) as [r g] eqn:Ec. cbn [fst].
  destruct (decide (r = GPT_SUCCESS)) as [->|Hr].
  - pose proof (repair_marks _ _ Hok eq_refl Ec) as Ht.
    pose proof (GptSanityCheck_sane _ _ Hok Ec) as [Hsane Hb].
    pose proof (same_buffers_ok _ _ Hb Hok) as Hok'.
    pose proof (GptRepair_check g Hok' Hsane) as Hcheck. pose proof (GptRepair_ok g Hok' Hsane) as Hrok.
    assert (Hmask : valid_headers (GptRepair g) = MASK_BOTH /\ valid_entries (GptRepair g) = MASK_BOTH /\
      sector_bytes (GptRepair g) = 512 /\ drive_sectors (GptRepair g) = disk_sectors (f_data f)).
    { rewrite GptRepair_eq by done. by destruct Hb as (vh & ve & ->). }
    destruct Hmask as (Hm1 & Hm2 & Hm3 & Hm4).
    eapply (wp_write_drive _ _ _ Hd (fun r => r)); [|exact Hos|exact Hs|exact Hrok|exact Hm3|exact Hm4| |]; [done| |].
    + left. split; [done|]. split; [done|]. cbn [d_gpt set_gpt]. apply valid_disk_written; [done| |done|].
      * by apply disk_geometry.
      * rewrite Hcheck. f_equal. destruct (GptRepair g). simpl in *. by subst.
    + intros data' Hq. right. right. done.
  - destruct (repair_rejected _ _ _ Ec Hr) as [-> Hm].
    eapply wp_close_drive; [exact Hd|exact Hos|exact Hs|by intros|].
    intros d' w3 F1 F2. apply wp_ret. apply unchanged_post; [done|done|]. split; [done|]. auto.
Qed.
