(* ===== verification/Attributes.v ===== *)
(** * The attribute bits of an entry

    Success flag, tries left and boot priority share 16 bits.  The setters of
    cgptlib_internal.c and of cgpt_common.c change their own field of their own entry and
    nothing else. *)

From stdpp Require Import base list numbers gmap strings.
From Stdlib Require Import ZArith Lia.
From S2P Require Import Prelude GptTypes GptLib Posix Drive CgptCommon.

(** ** One field of a 16-bit word *)

Definition att_put (mask off v att : Z) : Z := Z.lor (Z.ldiff att mask) (Z.shiftl v off).

(** The three fields: mask, offset and largest value. *)
Inductive att_field (mask off max : Z) : Prop :=
| att_successful : mask = CGPT_ATTRIBUTE_SUCCESSFUL_MASK -> off = CGPT_ATTRIBUTE_SUCCESSFUL_OFFSET ->
    max = CGPT_ATTRIBUTE_MAX_SUCCESSFUL -> att_field mask off max
| att_tries : mask = CGPT_ATTRIBUTE_TRIES_MASK -> off = CGPT_ATTRIBUTE_TRIES_OFFSET ->
    max = CGPT_ATTRIBUTE_MAX_TRIES -> att_field mask off max
| att_priority : mask = CGPT_ATTRIBUTE_PRIORITY_MASK -> off = CGPT_ATTRIBUTE_PRIORITY_OFFSET ->
    max = CGPT_ATTRIBUTE_MAX_PRIORITY -> att_field mask off max.

Lemma ldiff_bound a m : 0 <= a < 2 ^ 16 -> 0 <= Z.ldiff a m < 2 ^ 16.
Proof.
  intros H. rewrite <-(Z.mod_small a (2 ^ 16)) by done.
  rewrite <-Z.land_ones by lia. rewrite Z.ldiff_land, <-Z.land_assoc, (Z.land_comm (Z.ones 16)), Z.land_assoc.
  rewrite Z.land_ones by lia. apply Z.mod_pos_bound. lia.
Qed.

Lemma att_shift mask off max v : att_field mask off max -> 0 <= v <= max ->
  0 <= Z.shiftl v off < 2 ^ 16 /\ Z.land (Z.shiftl v off) mask = Z.shiftl v off.
Proof.
  intros F Hv.
  assert (H : forallb (fun n => let v := Z.of_nat n in
     (0 <=? Z.shiftl v off) && (Z.shiftl v off <? 2 ^ 16) &&
     (Z.land (Z.shiftl v off) mask =? Z.shiftl v off)) (seq 0 (S (Z.to_nat max))) = true).
  { destruct F as [-> -> -> | -> -> -> | -> -> ->]; vm_compute; reflexivity. }
  rewrite forallb_forall in H. specialize (H (Z.to_nat v)).
  rewrite <-list_elem_of_In, elem_of_seq in H. cbv zeta in H. rewrite Z2Nat.id in H by lia.
  specialize (H ltac:(lia)). bprop. lia.
Qed.

Lemma att_put_bound mask off max v att : att_field mask off max -> 0 <= v <= max ->
  0 <= att < 2 ^ 16 -> 0 <= att_put mask off v att < 2 ^ 16.
Proof.
  intros F Hv Ha. destruct (att_shift _ _ _ _ F Hv) as [Hs _].
  apply (lor_bound 16); [lia|by apply ldiff_bound|done].
Qed.

(** Reading the field that was written, and any other. *)
Lemma att_put_get mask off max v att : att_field mask off max -> 0 <= v <= max ->
  Z.shiftr (Z.land (att_put mask off v att) mask) off = v.
Proof.
  intros F Hv. destruct (att_shift _ _ _ _ F Hv) as [_ Hm]. unfold att_put.
  rewrite Z.land_lor_distr_l, Z.ldiff_land, <-Z.land_assoc, (Z.land_comm (Z.lnot mask)), Z.land_lnot_diag.
  rewrite Z.land_0_r, Z.lor_0_l, Hm. rewrite Z.shiftr_shiftl_l by (destruct F; subst; done).
  by rewrite Z.sub_diag, Z.shiftl_0_r.
Qed.

Lemma att_put_other mask off max v att m' : att_field mask off max -> 0 <= v <= max ->
  Z.land mask m' = 0 -> Z.land (att_put mask off v att) m' = Z.land att m'.
Proof.
  intros F Hv Hd. destruct (att_shift _ _ _ _ F Hv) as [_ Hm]. unfold att_put.
  rewrite Z.land_lor_distr_l, <-Hm, <-Z.land_assoc, Hd, Z.land_0_r, Z.lor_0_r.
  apply Z.bits_inj'. intros n Hn. rewrite !Z.land_spec, Z.ldiff_spec.
  assert (E : Z.testbit (Z.land mask m') n = false) by (by rewrite Hd, Z.bits_0).
  rewrite Z.land_spec in E. destruct (Z.testbit att n), (Z.testbit mask n), (Z.testbit m' n); done.
Qed.

(** ** The setters *)

Section Setters.
Context (t : bytes) (o : nat) (Ht : bytes_ok t) (Ho : (o + 128 <= length t)%nat).

Lemma e_gpt_att_bound : 0 <= e_gpt_att o t < 2 ^ 16.
Proof using Ht. apply (getn_bound 2). done. Qed.

Lemma e_gpt_att_set v : 0 <= v < 2 ^ 16 -> e_gpt_att o (set_e_gpt_att o v t) = v.
Proof using Ho. intros. unfold e_gpt_att, set_e_gpt_att. apply getn_putn_small; [lia|done]. Qed.

Lemma att_set_eq mask off v :
  att_set mask off v o t = set_e_gpt_att o (att_put mask off v (e_gpt_att o t)) t.
Proof using Ht Ho.
  pose proof (ldiff_bound _ mask e_gpt_att_bound) as Hb. unfold att_set.
  rewrite (e_gpt_att_set _ Hb). unfold set_e_gpt_att at 1 2. rewrite putn_putn_same by lia. done.
Qed.

Lemma SetEntryPriority_eq v : 0 <= v <= 15 ->
  SetEntryPriority o v t = att_set CGPT_ATTRIBUTE_PRIORITY_MASK CGPT_ATTRIBUTE_PRIORITY_OFFSET v o t.
Proof using Type.
  intros Hv. unfold SetEntryPriority, att_set.
  by rewrite (proj2 (att_shift _ _ _ _ (att_priority _ _ _ eq_refl eq_refl eq_refl) Hv)).
Qed.

Lemma SetEntryTries_eq v : 0 <= v <= 15 ->
  SetEntryTries o v t = att_set CGPT_ATTRIBUTE_TRIES_MASK CGPT_ATTRIBUTE_TRIES_OFFSET v o t.
Proof using Type.
  intros Hv. unfold SetEntryTries, att_set.
  by rewrite (proj2 (att_shift _ _ _ _ (att_tries _ _ _ eq_refl eq_refl eq_refl) Hv)).
Qed.

Lemma SetEntrySuccessful_eq (b : bool) :
  SetEntrySuccessful o (bool_to_Z b) t =
  att_set CGPT_ATTRIBUTE_SUCCESSFUL_MASK CGPT_ATTRIBUTE_SUCCESSFUL_OFFSET (bool_to_Z b) o t.
Proof using Ht Ho.
  rewrite att_set_eq. unfold SetEntrySuccessful, att_put. destruct b; simpl.
  - f_equal. change (Z.shiftl 1 CGPT_ATTRIBUTE_SUCCESSFUL_OFFSET) with CGPT_ATTRIBUTE_SUCCESSFUL_MASK.
    apply Z.bits_inj'. intros n Hn. rewrite !Z.lor_spec, Z.ldiff_spec.
    destruct (Z.testbit (e_gpt_att o t) n), (Z.testbit CGPT_ATTRIBUTE_SUCCESSFUL_MASK n); done.
  - by rewrite Z.lor_0_r.
Qed.

(** A write of the attribute word leaves every other byte alone. *)
Lemma set_e_gpt_att_frame v i : (i < o + 54 \/ o + 56 <= i)%nat ->
  set_e_gpt_att o v t !! i = t !! i.
Proof using Ho.
  intros Hi. unfold set_e_gpt_att, putn, splice.
  destruct Hi as [Hi|Hi].
  - rewrite lookup_app_l by len. by rewrite lookup_take_lt by lia.
  - rewrite lookup_app_r by len. rewrite lookup_app_r by len. rewrite lookup_drop. f_equal. len.
Qed.
End Setters.

(** the three attribute fields are independent: after a setter, its own getter returns the value
    written, the other two getters return what they returned before, and no byte outside the
    attribute word of that entry has changed. *)
Theorem attribute_setters_independent t i successful tries priority :
  tbl_ok t -> (i < 128)%nat -> 0 <= tries <= 15 -> 0 <= priority <= 15 ->
  let o := entry_off i in
  let t1 := SetEntrySuccessful o (bool_to_Z successful) t in
  let t2 := SetEntryTries o tries t in
  let t3 := SetEntryPriority o priority t in
  (GetEntrySuccessful o t1 = bool_to_Z successful /\
   GetEntryTries o t1 = GetEntryTries o t /\ GetEntryPriority o t1 = GetEntryPriority o t) /\
  (GetEntryTries o t2 = tries /\
   GetEntrySuccessful o t2 = GetEntrySuccessful o t /\ GetEntryPriority o t2 = GetEntryPriority o t) /\
  (GetEntryPriority o t3 = priority /\
   GetEntrySuccessful o t3 = GetEntrySuccessful o t /\ GetEntryTries o t3 = GetEntryTries o t) /\
  (forall k, (k < o + 54 \/ o + 56 <= k)%nat -> t1 !! k = t !! k /\ t2 !! k = t !! k /\ t3 !! k = t !! k).
Proof.
  intros [Ht Hl] Hi Htr Hpr. cbv zeta. set (o := entry_off i).
  assert (Ho : (o + 128 <= length t)%nat)
    by (subst o; unfold entry_off, sizeof_GptEntry, TOTAL_ENTRIES_SIZE in *; lia).
  rewrite SetEntrySuccessful_eq, SetEntryTries_eq, SetEntryPriority_eq, !att_set_eq by done.
  assert (Hsu : 0 <= bool_to_Z successful <= 1) by (destruct successful; simpl; lia).
  pose proof (att_successful _ _ _ eq_refl eq_refl eq_refl) as F1.
  pose proof (att_tries _ _ _ eq_refl eq_refl eq_refl) as F2.
  pose proof (att_priority _ _ _ eq_refl eq_refl eq_refl) as F3.
  pose proof (e_gpt_att_bound t o Ht) as Hb.
  unfold GetEntrySuccessful, GetEntryTries, GetEntryPriority.
  rewrite !(e_gpt_att_set t o Ho) by (eapply att_put_bound; eauto).
  split_and!.
  all: try (eapply att_put_get; eauto; fail).
  all: try (f_equal; eapply att_put_other; eauto; reflexivity).
  intros k Hk. by rewrite !set_e_gpt_att_frame by done.
Qed.

Lemma attribute_setters_independent_witness :
  GetEntryPriority 128 (SetEntryPriority 128 5 (replicate (Z.to_nat 16384) 255)) = 5 /\
  GetEntryTries 128 (SetEntryPriority 128 5 (replicate (Z.to_nat 16384) 255)) = 15.
Proof.
  assert (Ht : tbl_ok (replicate (Z.to_nat 16384) 255)).
  { split; [apply Forall_replicate; unfold is_byte; lia|by rewrite length_replicate]. }
  destruct (attribute_setters_independent (replicate (Z.to_nat 16384) 255) 1 true 3 5 Ht)
    as (_ & _ & (H1 & _ & H2) & _); [lia|lia|lia|].
  split; [exact H1|]. etransitivity; [exact H2|vm_compute; reflexivity].
Defined.
