(* ===== verification/CgptAdd.v ===== *)
(** * Adding and editing partitions (cgpt_add.c)

    [cgpt_add], [cgpt_set_attributes] and [cgpt_get_partition_details]. *)

From stdpp Require Import base list numbers gmap strings.
From Stdlib Require Import ZArith Lia.
From S2P Require Import Prelude Crc32 GptTypes GptLib GptSanity Posix Drive DriveSpec CgptCommon CommitSpec CommandSpec Utf CgptCreate.

Record CgptAddParams := mkAdd {
  ad_drive_name : string;
  ad_partition : Z;
  ad_begin : Z;
  ad_size : Z;
  ad_type_guid : Guid;
  ad_unique_guid : Guid;
  ad_label : option bytes;
  ad_successful : Z;
  ad_tries : Z;
  ad_priority : Z;
  ad_raw_value : Z;
  ad_set_begin : bool;
  ad_set_size : bool;
  ad_set_type : bool;
  ad_set_unique : bool;
  ad_set_successful : bool;
  ad_set_tries : bool;
  ad_set_priority : bool;
  ad_set_raw : bool
}.

Definition set_partition (v : Z) (p : CgptAddParams) : CgptAddParams :=
  mkAdd (ad_drive_name p) v (ad_begin p) (ad_size p) (ad_type_guid p) (ad_unique_guid p) (ad_label p)
    (ad_successful p) (ad_tries p) (ad_priority p) (ad_raw_value p) (ad_set_begin p) (ad_set_size p)
    (ad_set_type p) (ad_set_unique p) (ad_set_successful p) (ad_set_tries p) (ad_set_priority p)
    (ad_set_raw p).

(** The fields [cgpt_get_partition_details] fills in. *)
Definition set_details (begin size : Z) (type unique : Guid) (raw successful tries priority : Z)
    (p : CgptAddParams) : CgptAddParams :=
  mkAdd (ad_drive_name p) (ad_partition p) begin size type unique (ad_label p)
    successful tries priority raw (ad_set_begin p) (ad_set_size p)
    (ad_set_type p) (ad_set_unique p) (ad_set_successful p) (ad_set_tries p) (ad_set_priority p)
    (ad_set_raw p).

(** ** Shared steps *)

(** The drive is copied, but the copy points to the same buffers. *)
Definition set_entry_attributes (g : GptData) (entry : entry_ptr) (index : Z) (p : CgptAddParams)
    : M GptData :=
  if ad_set_raw p then ret (ep_update entry (fun o t => set_e_gpt_att o (ad_raw_value p) t) g)
  else
    let! g := if ad_set_successful p then SetSuccessful g PRIMARY index (u32 (ad_successful p)) else ret g in
    let! g := if ad_set_tries p then SetTries g PRIMARY index (u32 (ad_tries p)) else ret g in
    if ad_set_priority p then SetPriority g PRIMARY index (u32 (ad_priority p)) else ret g.

(** The scan [for (index = 0; index < max_part; index++) { entry = GetEntry(...); ... }] that stops at the first entry with
    [stop]. *)
Fixpoint find_entry (get : Z -> M entry_ptr) (stop : entry_ptr -> bool) (indices : list Z)
    : M (option (Z * entry_ptr)) :=
  match indices with
  | [] => ret None
  | i :: rest =>
      let! e := get i in
      if stop e then ret (Some (i, e)) else find_entry get stop rest
  end.

(** [for (i = 0; i < n; i++) { entry = GetEntry(...); ... }] without an early exit. *)
Fixpoint for_entries {A} (get : Z -> M entry_ptr) (body : Z -> entry_ptr -> A -> M A)
    (indices : list Z) (a : A) : M A :=
  match indices with
  | [] => ret a
  | i :: rest => let! e := get i in let! a := body i e a in for_entries get body rest a
  end.

Definition indices (n : Z) : list Z := map Z.of_nat (seq 0 (Z.to_nat n)).

Definition not_both (g : GptData) : bool :=
  negb (Z.land (valid_headers g) MASK_BOTH =? MASK_BOTH) ||
  negb (Z.land (valid_entries g) MASK_BOTH =? MASK_BOTH).

(** [goto bad] *)
Definition bad {A} (d : drive) (p : A) : M (Z * A) :=
  DriveClose d false ;; ret (CGPT_FAILED, p).

(** ** cgpt_set_attributes *)

Definition cgpt_set_attributes (params : option CgptAddParams) : M Z :=
  match params with
  | None => ret CGPT_FAILED
  | Some p =>
    let! (rc, d) := DriveOpen (ad_drive_name p) O_RDWR in
    if negb (rc =? CGPT_OK) then ret CGPT_FAILED else
    let fail g := let! (r, _) := bad (set_gpt g d) tt in ret r in
    let '(r, g) := GptSanityCheck (d_gpt d) in
    if negb (r =? GPT_SUCCESS) then fail g else
    if not_both g then fail g else
    if ad_partition p =? 0 then fail g else
    let max_part := GetNumberOfEntries g in
    if max_part <? ad_partition p then fail g else
    let index := ad_partition p - 1 in
    let! entry := GetEntry g PRIMARY index in
    let! g := set_entry_attributes g entry index p in
    let g := commit g in
    let! (r, _) := DriveClose (set_gpt g d) true in ret r
  end.

(** ** cgpt_get_partition_details *)

Definition entry_size (o : nat) (t : bytes) : Z := u64 (e_ending_lba o t - e_starting_lba o t + 1).

(** The details of entry [index], once it is known. *)
Definition read_details (g : GptData) (index : Z) (entry : entry_ptr) (p : CgptAddParams)
    : M CgptAddParams :=
  let o := ep_off entry in
  let t := ep_table entry g in
  let! successful := GetSuccessful g PRIMARY index in
  let! tries := GetTries g PRIMARY index in
  let! priority := GetPriority g PRIMARY index in
  ret (set_details (e_starting_lba o t) (entry_size o t) (e_type o t) (e_unique o t)
         (e_gpt_att o t) successful tries priority p).

Definition cgpt_get_partition_details (params : option CgptAddParams)
    : M (Z * option CgptAddParams) :=
  match params with
  | None => ret (CGPT_FAILED, None)
  | Some p =>
    let! (rc, d) := DriveOpen (ad_drive_name p) O_RDWR in
    if negb (rc =? CGPT_OK) then ret (CGPT_FAILED, Some p) else
    let '(r, g) := GptSanityCheck (d_gpt d) in
    let d := set_gpt g d in
    if negb (r =? GPT_SUCCESS) then bad d (Some p) else
    if not_both g then bad d (Some p) else
    let max_part := GetNumberOfEntries g in
    let finish index entry p :=
      let! p := read_details g index entry p in
      DriveClose d false ;; ret (CGPT_OK, Some p) in
    if truthy (ad_partition p) then
      if max_part <? ad_partition p then bad d (Some p) else
      let index := ad_partition p - 1 in
      let! entry := GetEntry g PRIMARY index in
      finish index entry p
    else if negb (ad_set_unique p) then bad d (Some p) else
      let! found := find_entry (GetEntry g PRIMARY)
        (fun e => GuidEqual (e_unique (ep_off e) (ep_table e g)) (ad_unique_guid p))
        (indices max_part) in
      match found with
      | None => bad d (Some p)
      | Some (index, entry) => finish index entry (set_partition (index + 1) p)
      end
  end.

(** ** cgpt_add *)

(** The fields given on the command line, in the order they are stored. *)
Definition add_fields (p : CgptAddParams) (o : nat) (t : bytes) : bytes :=
  let t := if ad_set_begin p then set_e_starting_lba o (ad_begin p) t else t in
  let t := if ad_set_size p then set_e_ending_lba o (u64 (e_starting_lba o t + ad_size p - 1)) t else t in
  let t := if ad_set_type p then set_e_type o (ad_type_guid p) t else t in
  if ad_set_unique p then set_e_unique o (ad_unique_guid p) t else t.

(** The label: [UTF8ToUTF16] into the 36 units of the name. *)
Definition add_label (p : CgptAddParams) (o : nat) (t : bytes) : Z * bytes :=
  match ad_label p with
  | None => (CGPT_OK, t)
  | Some label =>
      let '(rc, units) := UTF8ToUTF16 label 36 in
      (rc, splice (o + 56) (concat (map (le_enc 2) units)) t)
  end.

(** The part of [cgpt_add] from the storing of the fields on. *)
Definition add_finish (d : drive) (index : Z) (entry : entry_ptr) (backup : bytes)
    (p : CgptAddParams) (g : GptData) : M (Z * option CgptAddParams) :=
  let o := ep_off entry in
  let g := ep_update entry (add_fields p) g in
  let '(rc, t) := add_label p o (ep_table entry g) in
  let g := ep_update entry (fun _ _ => t) g in
  if negb (rc =? CGPT_OK) then bad (set_gpt g d) (Some p) else
  let! g := set_entry_attributes g entry index p in
  let g := commit g in
  let rv := CheckEntries (primary_entries g) (primary_header g) in
  if negb (rv =? 0) then
    bad (set_gpt (ep_update entry (fun o t => splice o backup t) g) d) (Some p)
  else
  let! (r, _) := DriveClose (set_gpt g d) true in ret (r, Some p).

(** The part of [cgpt_add] that starts when the entry is known. *)
Definition add_at (uuid_generator : uuid_fn) (d : drive) (g : GptData) (index : Z)
    (entry : entry_ptr) (p : CgptAddParams) : M (Z * option CgptAddParams) :=
  let o := ep_off entry in
  let backup := slice o sizeof_GptEntry (ep_table entry g) in
  let is_new := IsZero (e_type o (ep_table entry g)) in
  if is_new && (negb (ad_set_begin p) || negb (ad_set_size p) || negb (ad_set_type p))
  then bad (set_gpt g d) (Some p)
  else if is_new && IsZero (ad_type_guid p) then bad (set_gpt g d) (Some p)
  else if is_new && negb (ad_set_unique p) && (match uuid_generator with None => true | Some _ => false end)
  then bad (set_gpt g d) (Some p)
  else
  (* the call is outside the test of [set_unique] *)
  let! g :=
    if is_new then
      match uuid_generator with
      | None => undefined
      | Some gen => let! id := gen in ret (ep_update entry (fun o t => set_e_unique o id t) g)
      end
    else ret g in
  add_finish d index entry backup p g.

Definition cgpt_add (uuid_generator : uuid_fn) (params : option CgptAddParams)
    : M (Z * option CgptAddParams) :=
  match params with
  | None => ret (CGPT_FAILED, None)
  | Some p =>
    let! (rc, d) := DriveOpen (ad_drive_name p) O_RDWR in
    if negb (rc =? CGPT_OK) then ret (CGPT_FAILED, Some p) else
    let '(r, g) := GptSanityCheck (d_gpt d) in
    if negb (r =? GPT_SUCCESS) then bad (set_gpt g d) (Some p) else
    if not_both g then bad (set_gpt g d) (Some p) else
    let max_part := GetNumberOfEntries g in
    let! found :=
      if truthy (ad_partition p) then
        if max_part <? ad_partition p then ret None else
        let! e := GetEntry g PRIMARY (ad_partition p - 1) in
        ret (Some (ad_partition p - 1, e, p))
      else
        let! found := find_entry (GetEntry g PRIMARY) (fun e => IsZero (e_type (ep_off e) (ep_table e g)))
                        (indices max_part) in
        match found with
        | None => ret None
        | Some (index, e) => ret (Some (index, e, set_partition (index + 1) p))
        end in
    match found with
    | None => bad (set_gpt g d) (Some p)
    | Some (index, entry, p) => add_at uuid_generator d g index entry p
    end
  end.
