(* ===== verification/CgptAddSpec.v ===== *)
(** * What adding and editing a partition does (theorems about cgpt_add.c) *)

From stdpp Require Import base list numbers gmap strings.
From Stdlib Require Import ZArith Lia.
From S2P Require Import Prelude Crc32 GptTypes GptLib GptSanity Posix Drive DriveSpec CgptCommon CommitSpec CommandSpec Utf Attributes CgptCreate CgptAdd.

(** ** Changes inside one entry *)

(** [t'] differs from [t] only in the 128 bytes at [o]. *)
Record entry_change (o : nat) (t t' : bytes) : Prop := {
  ec_length : length t' = length t;
  ec_bytes : bytes_ok t';
  ec_other k : (k < o \/ o + 128 <= k)%nat -> t' !! k = t !! k
}.

Lemma entry_change_refl o t : bytes_ok t -> entry_change o t t.
Proof. by split. Qed.

Lemma entry_change_splice o off new t t' :
  entry_change o t t' -> bytes_ok new -> (o <= off)%nat -> (off + length new <= o + 128)%nat ->
  (o + 128 <= length t)%nat -> entry_change o t (splice off new t').
Proof.
  intros [L B E] Hn H1 H2 H3. split.
  - rewrite length_splice; lia.
  - by apply bytes_ok_splice.
  - intros k Hk. rewrite lookup_splice_ne by lia. by apply E.
Qed.

Lemma entry_change_putn o n off v t t' :
  entry_change o t t' -> (o <= off)%nat -> (off + n <= o + 128)%nat ->
  (o + 128 <= length t)%nat -> entry_change o t (putn n off v t').
Proof. intros. apply entry_change_splice; auto using le_enc_ok. rewrite length_le_enc. lia. Qed.

Lemma entry_change_slice o t t' a n : entry_change o t t' -> (a + n <= o \/ o + 128 <= a)%nat ->
  slice a n t' = slice a n t.
Proof.
  intros [_ _ E] Hd. unfold slice. apply list_eq. intros i.
  destruct (decide (i < n)%nat).
  - rewrite !lookup_take_lt, !lookup_drop by lia. apply E. lia.
  - by rewrite !lookup_take_ge by lia.
Qed.

Lemma entry_change_tbl_ok o t t' : tbl_ok t -> entry_change o t t' -> tbl_ok t'.
Proof. intros [? ?] [L B _]. split; [done|by rewrite L]. Qed.

Lemma entry_off_bound i : (i < 128)%nat -> Z.of_nat (entry_off i) + 128 <= 16384.
Proof. unfold entry_off, sizeof_GptEntry. lia. Qed.

(** ** A table ready for editing: checked, both copies valid *)

Record ready (g : GptData) : Prop := {
  rd_headers : valid_headers g = MASK_BOTH;
  rd_entries : valid_entries g = MASK_BOTH;
  rd_number : h_number_of_entries (primary_header g) = 128;
  rd_size : h_size_of_entry (primary_header g) = 128
}.

Lemma sane_ready g : sane g -> not_both g = false ->
  ready g /\ header_valid (primary_header g) false (drive_sectors g).
Proof.
  intros [_ _ M1 M2 V1 _ _ _ _] Hb. unfold not_both in Hb.
  assert (E1 : valid_headers g = MASK_BOTH) by (destruct M1 as [E|[E|E]]; by rewrite E in *).
  assert (E2 : valid_entries g = MASK_BOTH).
  { rewrite E1 in Hb. destruct M2 as [E|[E|E]]; by rewrite E in *. }
  rewrite E1 in V1. specialize (V1 eq_refl). split; [|done].
  split; try done; [apply V1|apply V1].
Qed.

Lemma ready_number g : ready g -> GetNumberOfEntries g = 128.
Proof. intros [E _ N _]. unfold GetNumberOfEntries. by rewrite E. Qed.

Lemma ready_primary_entries t g : ready g -> ready (set_primary_entries t g).
Proof. intros []. by split. Qed.

(** The entry pointer of a partition number. *)
Definition entry_at (i : nat) : entry_ptr := mkEntry false (entry_off i).

(** Looking up one of the 128 entries finds it and does nothing else. *)
Definition gets (get : Z -> M entry_ptr) (at_ : nat -> entry_ptr) : Prop :=
  forall i w, (i < 128)%nat -> get (Z.of_nat i) w = (Ret (at_ i), w).

Lemma wp_get {B} (Q : outcome B -> world -> Prop) kont get at_ i w :
  gets get at_ -> (i < 128)%nat -> wp Q (kont (at_ i)) w ->
  wp Q (bind (get (Z.of_nat i)) kont) w.
Proof. intros Hg Hi H. unfold wp, bind. by rewrite Hg. Qed.

Lemma ready_gets g : ready g -> gets (GetEntry g PRIMARY) entry_at.
Proof.
  intros Hr i w Hi. unfold GetEntry. rewrite ready_number by done.
  assert (E : GetSizeOfEntries g = 128).
  { unfold GetSizeOfEntries. rewrite (rd_headers _ Hr). apply Hr. }
  rewrite E. replace (Z.of_nat i <? 128) with true by lia.
  replace (Z.to_nat (u32 (128 * Z.of_nat i))) with (entry_off i).
  2:{ unfold entry_off, sizeof_GptEntry, u32. rewrite Z.mod_small by lia. lia. }
  reflexivity.
Qed.

Lemma wp_GetEntry {B} (Q : outcome B -> world -> Prop) kont g i w :
  ready g -> (i < 128)%nat -> wp Q (kont (entry_at i)) w ->
  wp Q (bind (GetEntry g PRIMARY (Z.of_nat i)) kont) w.
Proof. intros Hr. apply wp_get. by apply ready_gets. Qed.

(** ** Attributes *)

Definition att_in_range (p : CgptAddParams) : Prop :=
  0 <= ad_raw_value p < 2 ^ 16 /\
  (ad_set_successful p = true -> 0 <= ad_successful p <= 1) /\
  (ad_set_tries p = true -> 0 <= ad_tries p <= 15) /\
  (ad_set_priority p = true -> 0 <= ad_priority p <= 15).

(** The attribute word an edit asks for. *)
Definition new_att (p : CgptAddParams) (old : Z) : Z :=
  if ad_set_raw p then ad_raw_value p else
  let a := if ad_set_successful p
           then att_put CGPT_ATTRIBUTE_SUCCESSFUL_MASK CGPT_ATTRIBUTE_SUCCESSFUL_OFFSET (ad_successful p) old
           else old in
  let a := if ad_set_tries p
           then att_put CGPT_ATTRIBUTE_TRIES_MASK CGPT_ATTRIBUTE_TRIES_OFFSET (ad_tries p) a else a in
  if ad_set_priority p
  then att_put CGPT_ATTRIBUTE_PRIORITY_MASK CGPT_ATTRIBUTE_PRIORITY_OFFSET (ad_priority p) a else a.

Lemma new_att_bound p old : att_in_range p -> 0 <= old < 2 ^ 16 -> 0 <= new_att p old < 2 ^ 16.
Proof.
  intros (Hr & H1 & H2 & H3) Ho. unfold new_att.
  pose proof (att_successful _ _ _ eq_refl eq_refl eq_refl) as F1.
  pose proof (att_tries _ _ _ eq_refl eq_refl eq_refl) as F2.
  pose proof (att_priority _ _ _ eq_refl eq_refl eq_refl) as F3.
  repeat case_match; try done; repeat (eapply att_put_bound; [eassumption|by auto|]); done.
Qed.

(** The table with the attribute word of entry [i] set. *)
Definition with_att (i : nat) (v : Z) (g : GptData) : GptData :=
  set_primary_entries (set_e_gpt_att (entry_off i) v (primary_entries g)) g.

Section SetAttributes.
Context (i : nat) (Hi : (i < 128)%nat).

Lemma with_att_ready v g : ready g -> ready (with_att i v g).
Proof using Type. apply ready_primary_entries. Qed.

Lemma with_att_ok v g : gpt_ok g -> gpt_ok (with_att i v g).
Proof using Hi.
  intros Hg. apply set_primary_entries_ok; [|done]. destruct (ok_e1 g Hg) as [Hb Hl].
  unfold TOTAL_ENTRIES_SIZE in *. pose proof (entry_off_bound i Hi).
  split; [by apply bytes_ok_putn|]. unfold set_e_gpt_att. rewrite length_putn; [done|lia].
Qed.

Lemma with_att_read v g : gpt_ok g -> 0 <= v < 2 ^ 16 ->
  e_gpt_att (entry_off i) (primary_entries (with_att i v g)) = v.
Proof using Hi.
  intros Hg Hv. destruct (ok_e1 g Hg) as [_ Hl]. unfold TOTAL_ENTRIES_SIZE in *.
  pose proof (entry_off_bound i Hi). apply e_gpt_att_set; [lia|done].
Qed.

Lemma with_att_twice v u g : gpt_ok g -> with_att i v (with_att i u g) = with_att i v g.
Proof using Hi.
  intros Hg. destruct (ok_e1 g Hg) as [_ Hl]. unfold TOTAL_ENTRIES_SIZE in *.
  pose proof (entry_off_bound i Hi). unfold with_att, set_e_gpt_att.
  cbn [primary_entries set_primary_entries]. rewrite putn_putn_same by lia. by destruct g.
Qed.

Lemma with_att_id g : gpt_ok g ->
  with_att i (e_gpt_att (entry_off i) (primary_entries g)) g = g.
Proof using Hi.
  intros Hg. destruct (ok_e1 g Hg) as [Hb Hl]. unfold TOTAL_ENTRIES_SIZE in *.
  pose proof (entry_off_bound i Hi). unfold with_att, set_e_gpt_att, e_gpt_att.
  rewrite putn_getn_id by (done || lia). by destruct g.
Qed.

(** One of the three setters. *)
Lemma setter_step {B} (Q : outcome B -> world -> Prop) kont mask off max v (due : bool) g w :
  att_field mask off max -> ready g -> gpt_ok g -> (due = true -> 0 <= v <= max) ->
  let att := e_gpt_att (entry_off i) (primary_entries g) in
  let g' := with_att i (if due then att_put mask off v att else att) g in
  wp Q (kont g') w ->
  wp Q (bind (if due then
                let! e := GetEntry g PRIMARY (Z.of_nat i) in
                require (u32 v <=? max) ;;
                ret (ep_update e (att_set mask off (u32 v)) g)
              else ret g) kont) w.
Proof using Hi.
  intros F Hr Hg Hv att g' H. destruct due.
  - specialize (Hv eq_refl). apply wp_bind, wp_GetEntry; [done|done|].
    assert (max <= 15) by (destruct F as [_ _ -> | _ _ -> | _ _ ->]; vm_compute; discriminate).
    unfold u32. rewrite (Z.mod_small v) by lia. replace (v <=? max) with true by lia.
    apply wp_bind, wp_ret, wp_ret. destruct (ok_e1 g Hg) as [Hb Hl]. unfold TOTAL_ENTRIES_SIZE in *.
    pose proof (entry_off_bound i Hi). unfold ep_update, entry_at. cbn [ep_secondary ep_off].
    rewrite att_set_eq by (done || lia). exact H.
  - apply wp_bind, wp_ret. subst g' att. by rewrite with_att_id in H.
Qed.

Lemma wp_set_entry_attributes {B} (Q : outcome B -> world -> Prop) kont g p w :
  ready g -> gpt_ok g -> att_in_range p ->
  wp Q (kont (with_att i (new_att p (e_gpt_att (entry_off i) (primary_entries g))) g)) w ->
  wp Q (bind (set_entry_attributes g (entry_at i) (Z.of_nat i) p) kont) w.
Proof using Hi.
  intros Hr Hg Ha H. pose proof Ha as (Hraw & H1 & H2 & H3). unfold set_entry_attributes.
  unfold new_att in H. destruct (ad_set_raw p); [exact H|].
  set (a0 := e_gpt_att (entry_off i) (primary_entries g)) in *.
  assert (B0 : 0 <= a0 < 2 ^ 16) by (apply e_gpt_att_bound; apply Hg).
  apply wp_assoc. eapply (setter_step _ _ _ _ 1); [by apply att_successful|done|done|exact H1|].
  fold a0. set (a1 := if ad_set_successful p then _ else a0) in *.
  assert (B1 : 0 <= a1 < 2 ^ 16).
  { subst a1. destruct (ad_set_successful p); [|done].
    eapply att_put_bound; [by eapply att_successful|by apply H1|done]. }
  assert (R1 : ready (with_att i a1 g)) by (by apply with_att_ready).
  assert (G1 : gpt_ok (with_att i a1 g)) by (by apply with_att_ok).
  apply wp_assoc. eapply (setter_step _ _ _ _ 15); [by apply att_tries|done|done|exact H2|].
  rewrite (with_att_read a1 g Hg B1). set (a2 := if ad_set_tries p then _ else a1) in *.
  assert (B2 : 0 <= a2 < 2 ^ 16).
  { subst a2. destruct (ad_set_tries p); [|done].
    eapply att_put_bound; [by eapply att_tries|by apply H2|done]. }
  rewrite with_att_twice by done.
  eapply (setter_step _ _ _ _ 15); [by apply att_priority|by apply with_att_ready|by apply with_att_ok|exact H3|].
  rewrite (with_att_read a2 g Hg B2), with_att_twice by done. exact H.
Qed.
End SetAttributes.

(** ** Scanning for an entry *)

Lemma wp_find_from {B} (Q : outcome B -> world -> Prop) kont get at_ stop w n : forall a,
  gets get at_ -> (a + n <= 128)%nat ->
  (forall i, (a <= i < a + n)%nat -> stop (at_ i) = true ->
     (forall j, (a <= j < i)%nat -> stop (at_ j) = false) ->
     wp Q (kont (Some (Z.of_nat i, at_ i))) w) ->
  ((forall i, (a <= i < a + n)%nat -> stop (at_ i) = false) -> wp Q (kont None) w) ->
  wp Q (bind (find_entry get stop (map Z.of_nat (seq a n))) kont) w.
Proof.
  induction n as [|n IH]; intros a Hr Ha H1 H2; simpl.
  - apply wp_bind, wp_ret, H2. intros. lia.
  - apply wp_assoc. eapply wp_get; [exact Hr|lia|]. destruct (stop (at_ a)) eqn:E.
    + apply wp_bind, wp_ret, H1; [lia|done|intros; lia].
    + apply IH; [done|lia| |].
      * intros i Hi Hs Hj. apply H1; [lia|done|]. intros j Hj'.
        destruct (decide (j = a)) as [->|]; [done|]. apply Hj. lia.
      * intros Hn. apply H2. intros i Hi. destruct (decide (i = a)) as [->|]; [done|]. apply Hn. lia.
Qed.

Lemma wp_find_entry {B} (Q : outcome B -> world -> Prop) kont get at_ stop w :
  gets get at_ ->
  (forall i, (i < 128)%nat -> stop (at_ i) = true ->
     (forall j, (j < i)%nat -> stop (at_ j) = false) ->
     wp Q (kont (Some (Z.of_nat i, at_ i))) w) ->
  ((forall i, (i < 128)%nat -> stop (at_ i) = false) -> wp Q (kont None) w) ->
  wp Q (bind (find_entry get stop (indices 128)) kont) w.
Proof.
  intros Hr H1 H2. unfold indices. eapply wp_find_from; [exact Hr|simpl; lia| |].
  - intros i Hi Hs Hj. apply H1; [simpl in Hi; lia|done|]. intros. apply Hj. lia.
  - intros Hn. apply H2. intros. apply Hn. simpl. lia.
Qed.

(** A loop over all entries, by an invariant on the part already visited. *)
Lemma wp_for_entries {A B} (Q : outcome B -> world -> Prop) (I : list Z -> A -> world -> Prop)
    get at_ body idx :
  gets get at_ -> Forall (fun i => 0 <= i < 128) idx ->
  (forall pre i post a k w, idx = pre ++ i :: post -> I pre a w ->
     (forall a' w', I (pre ++ [i]) a' w' -> wp Q (k a') w') ->
     wp Q (bind (body i (at_ (Z.to_nat i)) a) k) w) ->
  forall a kont w, I [] a w -> (forall a' w', I idx a' w' -> wp Q (kont a') w') ->
  wp Q (bind (for_entries get body idx a) kont) w.
Proof.
  intros Hr Hidx Hbody.
  assert (H : forall post pre a kont w, idx = pre ++ post -> I pre a w ->
    (forall a' w', I idx a' w' -> wp Q (kont a') w') -> wp Q (bind (for_entries get body post a) kont) w).
  { induction post as [|i post IH]; intros pre a kont w E Ha Hk; simpl.
    - apply wp_bind, wp_ret, Hk. by rewrite E, app_nil_r.
    - assert (Hi : 0 <= i < 128).
      { rewrite Forall_forall in Hidx. apply Hidx. rewrite E. apply elem_of_app. right. by left. }
      apply wp_assoc. replace i with (Z.of_nat (Z.to_nat i)) at 1 by lia.
      eapply wp_get; [exact Hr|lia|]. apply wp_assoc. eapply Hbody; [exact E|done|].
      intros a' w' Ha'. apply (IH (pre ++ [i])); [by rewrite E, <-app_assoc|done|done]. }
  intros a kont w. by apply H.
Qed.

Definition all_idx : list Z := indices 128.

Lemma all_idx_spec i : i ∈ all_idx <-> 0 <= i < 128.
Proof.
  unfold all_idx, indices. rewrite list_elem_of_fmap. split.
  - intros (n & -> & Hn). apply elem_of_seq in Hn. change (Z.to_nat 128) with 128%nat in Hn. lia.
  - intros Hi. exists (Z.to_nat i). split; [lia|]. apply elem_of_seq.
    change (Z.to_nat 128) with 128%nat. lia.
Qed.

Lemma all_idx_range : Forall (fun i => 0 <= i < 128) all_idx.
Proof. apply Forall_forall. intros i. by rewrite all_idx_spec. Qed.

Lemma all_idx_nodup : NoDup all_idx.
Proof. apply NoDup_fmap_2; [intros x y; lia|apply NoDup_seq]. Qed.

(** ** Writing a committed table *)

(** The primary header is an ordinary one: the usual signature and the minimal size. *)
Definition ordinary (data : bytes) : Prop :=
  h_signature (primary_header (disk_gpt data)) = GPT_HEADER_SIGNATURE /\
  h_size (primary_header (disk_gpt data)) = 92.

Lemma header_valid_wf h ds :
  header_valid h false ds -> h_signature h = GPT_HEADER_SIGNATURE -> h_size h = 92 -> header_wf h ds.
Proof. intros [] ? ?. by split. Qed.

Lemma commit_written g data :
  gpt_ok g -> disk_ok data -> sector_bytes g = 512 -> drive_sectors g = disk_sectors data ->
  modified g = 0 -> header_wf (primary_header g) (drive_sectors g) ->
  table_wf (primary_entries g) (h_first_usable_lba (primary_header g))
    (h_last_usable_lba (primary_header g)) ->
  let data' := write_back (commit g) data in
  valid_disk data' /\ primary_entries (disk_gpt data') = primary_entries g.
Proof.
  intros Hg Hd Hz Hds Hm Hw Ht.
  assert (Hmin : 67 <= drive_sectors g) by (rewrite Hds; apply Hd).
  pose proof (commit_ok g Hg) as Hok. destruct (commit_frame g) as (F1 & F2 & F3). specialize (F3 Hm).
  assert (Hge : geometry (commit g) data) by (apply disk_geometry; congruence).
  assert (Htr : tracked (commit g) data) by (apply tracked_all; intros m; by apply modified_ALL).
  cbv zeta. split.
  - apply valid_disk_written; [done..|]. by apply commit_check.
  - destruct (disk_gpt_write_back _ _ Hok Hge Htr) as [Hs _]. rewrite (sm_e1 _ _ Hs).
    by rewrite commit_eq.
Qed.

(** The drive after the commit is again one the commands work on. *)
Lemma commit_written_disk g data :
  gpt_ok g -> disk_ok data -> sector_bytes g = 512 -> drive_sectors g = disk_sectors data ->
  modified g = 0 -> header_wf (primary_header g) (drive_sectors g) ->
  let data' := write_back (commit g) data in
  disk_ok data' /\ disk_sectors data' = disk_sectors data /\ ordinary data'.
Proof.
  intros Hg Hd Hz Hds Hm Hw. assert (Hmin : 67 <= drive_sectors g) by (rewrite Hds; apply Hd).
  pose proof (commit_ok g Hg) as Hok. destruct (commit_frame g) as (F1 & F2 & F3). specialize (F3 Hm).
  assert (Hge : geometry (commit g) data) by (apply disk_geometry; congruence).
  assert (Htr : tracked (commit g) data) by (apply tracked_all; intros m; by apply modified_ALL).
  cbv zeta. destruct (disk_gpt_write_back _ _ Hok Hge Htr) as [Hs Hl].
  assert (Hsec : disk_sectors (write_back (commit g) data) = disk_sectors data)
    by (unfold disk_sectors; by rewrite Hl).
  split; [|split; [done|]].
  - destruct Hd as [Hb Hn H67 Hmax]. split; rewrite ?Hsec, ?Hl; [by apply write_back_bytes|done..].
  - destruct (new_header1_keeps g Hg) as (_ & _ & _ & K4 & K5 & _).
    unfold ordinary. rewrite (sm_h1 _ _ Hs), commit_eq by done.
    cbn [primary_header set_secondary_header set_primary_header]. rewrite K4, K5.
    split; apply Hw.
Qed.

(** Changing attributes does not disturb the partitions. *)
Lemma table_wf_att t i v first last : (i < 128)%nat -> tbl_ok t -> table_wf t first last ->
  table_wf (set_e_gpt_att (entry_off i) v t) first last.
Proof.
  intros Hi [_ Hl] [H1 H2 H3]. unfold TOTAL_ENTRIES_SIZE in *. pose proof (entry_off_bound i Hi) as Ho.
  assert (Hsl : forall j a n, (j < 128)%nat -> (a + n <= 54)%nat ->
    slice (entry_off j + a) n (set_e_gpt_att (entry_off i) v t) = slice (entry_off j + a) n t).
  { intros j a n Hj Ha. unfold set_e_gpt_att. apply slice_putn_ne; [|lia].
    unfold entry_off, sizeof_GptEntry in *. destruct (decide (j < i)%nat); [lia|].
    destruct (decide (i < j)%nat); [lia|]. assert (j = i) by lia. subst. lia. }
  assert (E1 : forall j, (j < 128)%nat -> used (set_e_gpt_att (entry_off i) v t) j <-> used t j).
  { intros j Hj. unfold used, IsUnusedEntry, e_type. specialize (Hsl j 0%nat 16%nat Hj ltac:(lia)).
    rewrite Nat.add_0_r in Hsl. by rewrite Hsl. }
  assert (E2 : forall j, (j < 128)%nat -> e_start (set_e_gpt_att (entry_off i) v t) j = e_start t j)
    by (intros j Hj; unfold e_start, e_starting_lba, getn; f_equal; apply Hsl; lia).
  assert (E3 : forall j, (j < 128)%nat -> e_end (set_e_gpt_att (entry_off i) v t) j = e_end t j)
    by (intros j Hj; unfold e_end, e_ending_lba, getn; f_equal; apply Hsl; lia).
  assert (E4 : forall j, (j < 128)%nat -> e_guid (set_e_gpt_att (entry_off i) v t) j = e_guid t j)
    by (intros j Hj; unfold e_guid, e_unique; apply Hsl; lia).
  split.
  - intros j Hj Hu. rewrite E2, E3 by done. apply H1; [done|by apply E1].
  - intros j k Hj Hk Hne Hu Hv. rewrite !E2, !E3 by done.
    apply H2; [done|done|done|by apply E1|by apply E1].
  - intros j k Hj Hk Hne Hu Hv. rewrite !E4 by done.
    apply H3; [done|done|done|by apply E1|by apply E1].
Qed.

(** What a successful check says of the disk's table. *)
Lemma checked_table data g :
  disk_ok data -> GptSanityCheck (disk_gpt data) = (GPT_SUCCESS, g) -> not_both g = false ->
  ready g /\ gpt_ok g /\ modified g = 0 /\ sector_bytes g = 512 /\
  drive_sectors g = disk_sectors data /\ primary_entries g = primary_entries (disk_gpt data) /\
  (ordinary data -> header_wf (primary_header g) (drive_sectors g)) /\
  table_wf (primary_entries g) (h_first_usable_lba (primary_header g))
    (h_last_usable_lba (primary_header g)).
Proof.
  intros Hd Hc Hb. pose proof (disk_gpt_ok _ Hd) as Hok.
  destruct (GptSanityCheck_sane _ _ Hok Hc) as [Hs Hbuf].
  pose proof (same_buffers_ok _ _ Hbuf Hok) as Hok'. destruct (sane_ready g Hs Hb) as [Hr Hv].
  assert (He : entries_valid (primary_entries g) (primary_header g)).
  { destruct Hr as [E1 E2 _ _], Hs as [_ _ _ _ _ _ _ S _]. unfold trusted_header in S.
    rewrite E1, E2 in S. by apply S. }
  destruct Hbuf as (vh & ve & ->). split_and!; try done.
  - intros [O1 O2]. by apply header_valid_wf.
  - apply entries_valid_wf in He; [apply He|apply Hv|apply Hv].
Qed.

(** [cgpt_set_attributes], under any schedule of failures, changes nothing but the table area,
    leaks nothing, and when it reports success the drive holds a valid table (both copies) equal
    to the old one except for the attribute word of the chosen entry, which is as requested; when
    it fails without a failing system call the drive is untouched. *)
Theorem cgpt_set_attributes_sets_attributes path f w p :
  drive_file w path f -> ad_drive_name p = path -> ordinary (f_data f) ->
  att_in_range p -> 0 <= ad_partition p ->
  wp (command_post path f w (fun rc data' =>
        rc = CGPT_OK /\ valid_disk data' /\
          (exists i, (i < 128)%nat /\ ad_partition p = Z.of_nat i + 1 /\
             let t := primary_entries (disk_gpt (f_data f)) in
             primary_entries (disk_gpt data') =
               set_e_gpt_att (entry_off i) (new_att p (e_gpt_att (entry_off i) t)) t) \/
        rc = CGPT_FAILED /\ (data' = f_data f \/ ~ quiet w)))
     (cgpt_set_attributes (Some p)) w.
Proof.
  intros Hd <- Hord Hatt Hpart. unfold cgpt_set_attributes. pose proof (df_disk _ _ _ Hd) as Hdisk.
  eapply wp_open_drive; [exact Hd|done..| | |].
  2:{ intros d w' E1 E2 Hq. simpl. apply wp_ret. apply unchanged_post; [done|done|]. split; [done|]. auto. }
  2:{ intros c w' E1 Hq. by apply unchanged_post. }
  intros d w1 w2 Hos Hs Hg _. change (negb (CGPT_OK =? CGPT_OK)) with false. cbv iota. rewrite Hg.
  destruct (GptSanityCheck (disk_gpt (f_data f))) as [r g] eqn:Ec. cbv zeta beta.
  match goal with |- wp ?Q _ _ => assert (Hfail : wp Q
    (let! (r0, _) := bad (set_gpt g d) tt in ret r0) w2) end.
  { unfold bad. apply wp_assoc. eapply wp_close_drive; [exact Hd|exact Hos|exact Hs|done|].
    intros d' w3 F1 F2. apply wp_bind, wp_ret, wp_ret. apply unchanged_post; [done|done|]. split; [done|]. auto. }
  destruct (Z.eqb_spec r GPT_SUCCESS) as [->|]; cbn [negb]; [|exact Hfail].
  destruct (not_both g) eqn:Eb; [exact Hfail|].
  destruct (Z.eqb_spec (ad_partition p) 0) as [|Hp0]; [exact Hfail|].
  destruct (checked_table _ _ Hdisk Ec Eb) as (Hr & Hok & Hm & Hz & Hds & Ht & Hw & Hwf).
  rewrite ready_number by done.
  destruct (Z.ltb_spec 128 (ad_partition p)) as [|Hp]; [exact Hfail|].
  set (i := Z.to_nat (ad_partition p - 1)). replace (ad_partition p - 1) with (Z.of_nat i) by lia.
  assert (Hi : (i < 128)%nat) by lia.
  apply wp_GetEntry; [done|done|]. apply wp_set_entry_attributes; [done|done|done|done|].
  rewrite Ht. set (t := primary_entries (disk_gpt (f_data f))) in *.
  set (v := new_att p _). pose proof (with_att_ok i Hi v g Hok) as Hok1.
  destruct (commit_written (with_att i v g) (f_data f)) as [Hval Hent]; try done.
  { by apply Hw. }
  { cbn [primary_entries with_att set_primary_entries primary_header]. apply table_wf_att; [done|apply Hok|done]. }
  destruct (commit_frame (with_att i v g)) as (F1 & F2 & _).
  eapply (wp_write_drive _ _ _ Hd (fun r => r)); [| exact Hos|exact Hs|by apply commit_ok| | | |]; [done|..].
  - cbn [d_gpt set_gpt]. by rewrite F1.
  - cbn [d_gpt set_gpt]. by rewrite F2.
  - cbn [d_gpt set_gpt]. left. split; [done|]. split; [done|]. exists i. split; [done|].
    split; [lia|]. rewrite Hent. unfold with_att. cbn [primary_entries set_primary_entries]. by rewrite Ht.
  - intros data' Hq. right. auto.
Qed.

(** ** Editing an entry *)

(** One conditional store. *)
Definition splice_if (b : bool) (off : nat) (new t : bytes) : bytes :=
  if b then splice off new t else t.

Lemma length_splice_if b off new t n :
  length t = n -> (off + length new <= n)%nat -> length (splice_if b off new t) = n.
Proof. intros. destruct b; [by apply length_splice_eq|done]. Qed.

Lemma slice_splice_if_ne b o n off new t :
  (o + n <= off \/ off + length new <= o)%nat -> (off + length new <= length t)%nat ->
  slice o n (splice_if b off new t) = slice o n t.
Proof. intros. destruct b; [by apply slice_splice_ne|done]. Qed.

Lemma slice_splice_if_eq b off n new t :
  length new = n -> (off + n <= length t)%nat ->
  slice off n (splice_if b off new t) = if b then new else slice off n t.
Proof. intros <- ?. destruct b; [by apply slice_splice_eq|done]. Qed.

Lemma bytes_ok_splice_if b off new t : bytes_ok new -> bytes_ok t -> bytes_ok (splice_if b off new t).
Proof. intros. destruct b; [by apply bytes_ok_splice|done]. Qed.

Lemma entry_change_splice_if b o off new t t' :
  entry_change o t t' -> bytes_ok new -> (o <= off)%nat -> (off + length new <= o + 128)%nat ->
  (o + 128 <= length t)%nat -> entry_change o t (splice_if b off new t').
Proof. intros. destruct b; [by apply entry_change_splice|done]. Qed.

(** The seven stores of [cgpt_add], in their order. *)
Section Stores.
Context (o : nat) (t : bytes) (b1 b2 b3 b4 b5 b6 : bool) (id st en ty un la at' : bytes).
Context (Ht : bytes_ok t) (Ho : (o + 128 <= length t)%nat).
Context (Lid : length id = 16%nat) (Lst : length st = 8%nat) (Len : length en = 8%nat).
Context (Lty : length ty = 16%nat) (Lun : length un = 16%nat) (Lla : (length la <= 72)%nat).
Context (Lat : length at' = 2%nat).
Context (Bid : bytes_ok id) (Bst : bytes_ok st) (Ben : bytes_ok en) (Bty : bytes_ok ty).
Context (Bun : bytes_ok un) (Bla : bytes_ok la) (Bat : bytes_ok at').

Definition stores0 : bytes :=
  splice_if b6 (o + 56) la (splice_if b5 (o + 16) un
    (splice_if b4 o ty (splice_if b3 (o + 40) en (splice_if b2 (o + 32) st
      (splice_if b1 (o + 16) id t))))).

Definition stores : bytes := splice_if true (o + 54) at' stores0.

Ltac len_if :=
  repeat lazymatch goal with
    | |- length (splice_if _ _ _ _) = _ => apply length_splice_if; [|lia]
    end; reflexivity.

Lemma length_stores : length stores = length t.
Proof using Ho Lid Lst Len Lty Lun Lla Lat. unfold stores, stores0. len_if. Qed.

Lemma stores0_change : entry_change o t stores0.
Proof using All.
  unfold stores0. repeat (apply entry_change_splice_if; [|done|lia|lia|done]).
  by apply entry_change_refl.
Qed.

Lemma stores_change : entry_change o t stores.
Proof using All. apply entry_change_splice_if; [apply stores0_change|done|lia|lia|done]. Qed.

Ltac fit :=
  lazymatch goal with
  | |- (_ <= length ?x)%nat =>
      let H := fresh in assert (length x = length t) as H by len_if; lia
  | |- _ => lia
  end.

Ltac skip := rewrite slice_splice_if_ne by fit.
Ltac take_it := rewrite slice_splice_if_eq by (done || fit).

Lemma stores0_att : slice (o + 54) 2 stores0 = slice (o + 54) 2 t.
Proof using All. unfold stores0. by do 6 skip. Qed.

Lemma stores_type : slice o 16 stores = if b4 then ty else slice o 16 t.
Proof using All. unfold stores, stores0. do 3 skip. take_it. destruct b4; [done|]. by do 3 skip. Qed.

Lemma stores_unique : slice (o + 16) 16 stores =
  if b5 then un else if b1 then id else slice (o + 16) 16 t.
Proof using All. unfold stores, stores0. do 2 skip. take_it. destruct b5; [done|]. do 3 skip. by take_it. Qed.

Lemma stores_start : slice (o + 32) 8 stores = if b2 then st else slice (o + 32) 8 t.
Proof using All. unfold stores, stores0. do 5 skip. take_it. destruct b2; [done|]. by skip. Qed.

Lemma stores_end : slice (o + 40) 8 stores = if b3 then en else slice (o + 40) 8 t.
Proof using All. unfold stores, stores0. do 4 skip. take_it. destruct b3; [done|]. by do 2 skip. Qed.

Lemma stores_att : slice (o + 54) 2 stores = at'.
Proof using All. unfold stores, stores0. by take_it. Qed.

Lemma stores_label : slice (o + 56) (length la) stores =
  if b6 then la else slice (o + 56) (length la) t.
Proof using All. unfold stores, stores0. skip. take_it. destruct b6; [done|]. by do 5 skip. Qed.

(** The bytes no store touches: the reserved half of the attributes and the rest of the name. *)
Lemma stores_rest a n : (o + 48 <= a /\ a + n <= o + 54 \/ o + 56 + length la <= a)%nat ->
  slice a n stores = slice a n t.
Proof using All. intros Ha. unfold stores, stores0. by do 7 skip. Qed.
End Stores.

(** What a command line must satisfy for the model: fields in the range of their C types. *)
Record params_ok (p : CgptAddParams) : Prop := {
  pa_att : att_in_range p;
  pa_partition : 0 <= ad_partition p;
  pa_begin : 0 <= ad_begin p < 2 ^ 64;
  pa_type : bytes_ok (ad_type_guid p) /\ length (ad_type_guid p) = 16%nat;
  pa_unique : bytes_ok (ad_unique_guid p) /\ length (ad_unique_guid p) = 16%nat
}.

(** Entry [i] of [t'] is entry [i] of [t] with the fields of the command line; no other byte of
    the table differs. *)
Record entry_edited (p : CgptAddParams) (i : nat) (t t' : bytes) : Prop := {
  ee_change : entry_change (entry_off i) t t';
  ee_start : e_start t' i = if ad_set_begin p then ad_begin p else e_start t i;
  ee_end : e_end t' i = if ad_set_size p then u64 (e_start t' i + ad_size p - 1) else e_end t i;
  ee_type : e_type (entry_off i) t' =
    if ad_set_type p then ad_type_guid p else e_type (entry_off i) t;
  ee_guid : (ad_set_unique p = true -> e_guid t' i = ad_unique_guid p) /\
    (ad_set_unique p = false -> used t i -> e_guid t' i = e_guid t i);
  ee_att : e_gpt_att (entry_off i) t' = new_att p (e_gpt_att (entry_off i) t);
  ee_label : match ad_label p with
    | None => slice (entry_off i + 56) 72 t' = slice (entry_off i + 56) 72 t
    | Some label => exists units, UTF8ToUTF16 label 36 = (CGPT_OK, units) /\
        slice (entry_off i + 56) (2 * length units) t' = concat (map (le_enc 2) units)
    end
}.

Lemma UTF8ToUTF16_room label rc units : UTF8ToUTF16 label 36 = (rc, units) ->
  (length units <= 36)%nat.
Proof.
  unfold UTF8ToUTF16. change (36 =? 0) with false. cbv iota.
  destruct (utf8_loop label _) as [rv s'] eqn:E. apply utf8_loop_room in E; [|simpl; lia].
  intros [= _ <-]. simpl in E. rewrite length_app. simpl. lia.
Qed.

Lemma length_units units : length (concat (map (le_enc 2) units)) = (2 * length units)%nat.
Proof.
  induction units as [|u units IH]; [done|]. cbn [map concat length].
  rewrite length_app, length_le_enc, IH. lia.
Qed.

Lemma bytes_ok_units units : bytes_ok (concat (map (le_enc 2) units)).
Proof.
  induction units as [|u units IH]; [apply Forall_nil_2|].
  cbn [map concat]. apply bytes_ok_app. split; [apply le_enc_ok|done].
Qed.

(** The table [cgpt_add] edits, up to the attributes. *)
Definition with_new_id (is_new : bool) (o : nat) (id t : bytes) : bytes :=
  if is_new then set_e_unique o id t else t.

Definition label_units (p : CgptAddParams) : list Z :=
  match ad_label p with None => [] | Some label => (UTF8ToUTF16 label 36).2 end.

Lemma add_stores p o is_new id t rc t3 :
  add_label p o (add_fields p o (with_new_id is_new o id t)) = (rc, t3) ->
  exists en, length en = 8%nat /\ bytes_ok en /\
    t3 = stores0 o t is_new (ad_set_begin p) (ad_set_size p) (ad_set_type p) (ad_set_unique p)
           (match ad_label p with None => false | Some _ => true end)
           id (le_enc 8 (ad_begin p)) en (ad_type_guid p) (ad_unique_guid p)
           (concat (map (le_enc 2) (label_units p))) /\
    en = le_enc 8 (u64 (e_starting_lba o (splice_if (ad_set_begin p) (o + 32)
           (le_enc 8 (ad_begin p)) (splice_if is_new (o + 16) id t)) + ad_size p - 1)) /\
    match ad_label p with None => rc = CGPT_OK | Some label => rc = (UTF8ToUTF16 label 36).1 end.
Proof.
  intros H. eexists. split_and!; [apply length_le_enc|apply le_enc_ok| |reflexivity|].
  - unfold add_label, label_units in *. unfold stores0.
    destruct (ad_label p) as [label|].
    + destruct (UTF8ToUTF16 label 36) as [rv units]. injection H as _ <-. reflexivity.
    + injection H as _ <-. reflexivity.
  - unfold add_label in H. destruct (ad_label p) as [label|]; [|by injection H].
    destruct (UTF8ToUTF16 label 36) as [rv units]. by injection H as <- _.
Qed.

Lemma add_edited p i (is_new : bool) id t rc t3 :
  params_ok p -> (i < 128)%nat -> tbl_ok t -> bytes_ok id -> length id = 16%nat ->
  (is_new = true -> ~ used t i) ->
  add_label p (entry_off i) (add_fields p (entry_off i) (with_new_id is_new (entry_off i) id t)) =
    (rc, t3) -> rc = CGPT_OK ->
  tbl_ok t3 /\
  let v := new_att p (e_gpt_att (entry_off i) t3) in
  e_gpt_att (entry_off i) t3 = e_gpt_att (entry_off i) t /\
  entry_edited p i t (set_e_gpt_att (entry_off i) v t3).
Proof.
  intros [Ha Hp Hb [Bty Lty] [Bun Lun]] Hi [Ht Hl] Bid Lid Hnew H Hrc.
  unfold TOTAL_ENTRIES_SIZE in Hl. pose proof (entry_off_bound i Hi) as Hoff.
  apply add_stores in H as (en & Len & Ben & E & Een & Hlab).
  set (la := concat (map (le_enc 2) (label_units p))) in *.
  assert (Lla : (length la <= 72)%nat).
  { subst la. rewrite length_units. unfold label_units. destruct (ad_label p) as [label|]; [|simpl; lia].
    destruct (UTF8ToUTF16 label 36) as [rv units] eqn:Eu. apply UTF8ToUTF16_room in Eu. simpl. lia. }
  assert (Bla : bytes_ok la) by apply bytes_ok_units.
  set (o := entry_off i) in *. assert (Ho : (o + 128 <= length t)%nat) by lia.
  assert (Bst := le_enc_ok 8 (ad_begin p)). assert (Lst := length_le_enc 8 (ad_begin p)).
  set (st := le_enc 8 (ad_begin p)) in *. cbv zeta.
  assert (Latt : e_gpt_att o t3 = e_gpt_att o t).
  { unfold e_gpt_att, getn. f_equal. rewrite E.
    apply (stores0_att o t _ _ _ _ _ _ _ _ _ _ _ _ [0; 0]); try done. by apply bytes_okb_ok. }
  rewrite Latt. set (v := new_att p (e_gpt_att o t)).
  assert (Hv : 0 <= v < 2 ^ 16) by (apply new_att_bound; [done|by apply e_gpt_att_bound]).
  assert (Lat := length_le_enc 2 v). assert (Bat := le_enc_ok 2 v).
  assert (E' : set_e_gpt_att o v t3 = stores o t is_new (ad_set_begin p) (ad_set_size p)
    (ad_set_type p) (ad_set_unique p) (match ad_label p with None => false | Some _ => true end)
    id st en (ad_type_guid p) (ad_unique_guid p) la (le_enc 2 v)) by (rewrite E; reflexivity).
  split.
  { eapply (entry_change_tbl_ok o t); [by split|]. rewrite E. by eapply (stores0_change). }
  split; [done|]. rewrite E'. split.
  - by apply stores_change.
  - unfold e_start, e_starting_lba, getn. fold o. rewrite stores_start by done.
    destruct (ad_set_begin p); [|done]. subst st. rewrite le_dec_enc. by apply Z.mod_small.
  - unfold e_start, e_end, e_starting_lba, e_ending_lba, getn. fold o.
    rewrite stores_start, stores_end by done. destruct (ad_set_size p); [|done].
    rewrite Een, le_dec_enc. unfold u64. rewrite Zmod_mod. do 3 f_equal.
    unfold e_starting_lba, getn. f_equal. rewrite slice_splice_if_eq; [|done|].
    + destruct (ad_set_begin p); [done|]. rewrite slice_splice_if_ne; [done|lia|lia].
    + rewrite (length_splice_if _ _ _ _ (length t)); [lia|done|lia].
  - unfold e_type. by apply stores_type.
  - unfold used, e_guid, e_unique. fold o. rewrite stores_unique by done.
    split; intros ->; [done|]. intros Hu. destruct is_new; [|done]. by apply Hnew in Hu.
  - unfold e_gpt_att, getn. rewrite stores_att by done. fold (getn 2 (o + 54) t). rewrite le_dec_enc.
    apply Z.mod_small. done.
  - fold o. unfold label_units in la. destruct (ad_label p) as [label|].
    + exists (UTF8ToUTF16 label 36).2. split; [rewrite <-Hrc, Hlab; by destruct (UTF8ToUTF16 label 36)|].
      rewrite <-length_units. by apply stores_label.
    + apply stores_rest; try done. subst la. simpl. lia.
Qed.

(** ** cgpt_add *)

Lemma IsZero_used t i : (i < 128)%nat -> tbl_ok t -> IsZero (e_type (entry_off i) t) = true <-> ~ used t i.
Proof.
  intros Hi [_ Hl]. unfold TOTAL_ENTRIES_SIZE in Hl. pose proof (entry_off_bound i Hi).
  unfold used, IsUnusedEntry, IsZero, GuidEqual.
  rewrite not_false_iff_true, !memeq_spec. split; intros E; symmetry; exact E.
Qed.

#[export] Instance used_dec t i : Decision (used t i).
Proof. unfold used. apply _. Defined.

(** [CheckEntries] after the commit judges exactly the edited partitions. *)
Lemma commit_checked g :
  gpt_ok g -> 67 <= drive_sectors g -> header_wf (primary_header g) (drive_sectors g) ->
  CheckEntries (primary_entries (commit g)) (primary_header (commit g)) = 0 ->
  table_wf (primary_entries g) (h_first_usable_lba (primary_header g))
    (h_last_usable_lba (primary_header g)).
Proof.
  intros Hg Hds Hw Hc. apply CheckEntries_0 in Hc. rewrite commit_eq in Hc by done.
  cbn [primary_entries primary_header set_secondary_header set_primary_header
       set_secondary_entries or_modified set_modified] in Hc.
  destruct (new_header1_keeps g Hg) as (F1 & F2 & _). pose proof (new_header1_valid g Hg Hds Hw) as V1.
  apply entries_valid_wf in Hc; [|apply V1|apply V1]. destruct Hc as [_ Hc]. by rewrite F1, F2 in Hc.
Qed.

(** What [cgpt_add] reports and leaves on the drive. *)
Definition add_result (p : CgptAddParams) (f : file) (w : world)
    (r : Z * option CgptAddParams) (data' : bytes) : Prop :=
  let t := primary_entries (disk_gpt (f_data f)) in
  (exists i, (i < 128)%nat /\ r = (CGPT_OK, Some (set_partition (Z.of_nat i + 1) p)) /\
     (ad_partition p = Z.of_nat i + 1 \/
      ad_partition p = 0 /\ ~ used t i /\ forall j, (j < i)%nat -> used t j) /\
     (~ used t i -> ad_set_begin p = true /\ ad_set_size p = true /\ ad_set_type p = true /\
        IsZero (ad_type_guid p) = false) /\
     valid_disk data' /\ entry_edited p i t (primary_entries (disk_gpt data'))) \/
  (exists p', r = (CGPT_FAILED, p')) /\ (data' = f_data f \/ ~ quiet w).

(** The situation in which an entry has been chosen: the drive is open, the table checked. *)
Section AddAt.
Context (f : file) (w : world) (p : CgptAddParams) (Hd : drive_file w (ad_drive_name p) f).
Context (Hord : ordinary (f_data f)) (Hpok : params_ok p).
Context (d : drive) (w1 : world) (Hos : open_state (d_fd d) (ad_drive_name p) O_RDWR w w1).
Context (g : GptData) (Ec : GptSanityCheck (disk_gpt (f_data f)) = (GPT_SUCCESS, g)).
Context (Eb : not_both g = false).

Local Abbreviation post := (command_post (ad_drive_name p) f w (add_result p f w)).
Local Abbreviation open w' := (session (d_fd d) (ad_drive_name p) true true w1 w').

(** Every failure leaves the drive alone. *)
Lemma wp_add_bad g' p' w3 : open w3 -> wp post (bad (set_gpt g' d) p') w3.
Proof using Hd Hos.
  intros Hs. eapply wp_close_drive; [exact Hd|exact Hos|exact Hs|done|].
  intros d' w4 F1 F2. apply wp_ret. apply unchanged_post; [done|done|]. split; [done|].
  right. eauto.
Qed.

Context (i : nat) (Hi : (i < 128)%nat).
Context (Hpart : ad_partition p = Z.of_nat i + 1 \/
  ad_partition p = 0 /\ ~ used (primary_entries g) i /\
  forall j, (j < i)%nat -> used (primary_entries g) j).

Local Abbreviation t := (primary_entries g).
Local Abbreviation o := (entry_off i).
Local Abbreviation p' := (set_partition (Z.of_nat i + 1) p).

Lemma set_partition_ok : params_ok p'.
Proof using Hpok Hi. destruct Hpok. split; try done; simpl; lia. Qed.

Lemma wp_add_finish (is_new : bool) id backup w3 :
  length id = 16%nat -> bytes_ok id -> open w3 ->
  (is_new = true <-> ~ used t i) ->
  (~ used t i -> ad_set_begin p = true /\ ad_set_size p = true /\ ad_set_type p = true /\
     IsZero (ad_type_guid p) = false) ->
  wp post (add_finish d (Z.of_nat i) (entry_at i) backup p'
    (set_primary_entries (with_new_id is_new o id t) g)) w3.
Proof using All.
  intros Lid Bid Hs3 Hnew Hreq. pose proof (df_disk _ _ _ Hd) as Hdisk.
  destruct (checked_table _ _ Hdisk Ec Eb) as (Hr & Hok & Hm & Hz & Hds & Ht & Hw & Hwf).
  destruct (ok_e1 g Hok) as [Bt Lt]. pose proof set_partition_ok as Hpok'. unfold add_finish.
  cbn [ep_update ep_table entry_at ep_secondary ep_off primary_entries set_primary_entries].
  destruct (add_label p' o _) as [rc t3] eqn:El.
  destruct (Z.eqb_spec rc CGPT_OK) as [->|]; cbn [negb]; [|by apply wp_add_bad].
  destruct (add_edited p' i is_new id t CGPT_OK t3 Hpok' Hi (conj Bt Lt) Bid Lid (proj1 Hnew) El eq_refl)
    as (Htok & _ & Hed).
  match goal with |- wp _ (bind (set_entry_attributes ?x _ _ _) _) _ => set (g3 := x) end.
  assert (Hr3 : ready g3) by (by repeat apply ready_primary_entries).
  assert (Hok3 : gpt_ok g3) by (destruct Hok; by split).
  apply wp_set_entry_attributes; [done|done|done|apply Hpok'|].
  change (primary_entries g3) with t3. set (v := new_att p' _).
  pose proof (with_att_ok i Hi v g3 Hok3) as Hok4. set (g4 := with_att i v g3) in *.
  assert (Hw4 : header_wf (primary_header g4) (drive_sectors g4)) by (by apply Hw).
  destruct (Z.eqb_spec (CheckEntries (primary_entries (commit g4)) (primary_header (commit g4))) 0)
    as [Hc|]; cbn [negb]; [|by apply wp_add_bad].
  assert (H67 : 67 <= drive_sectors g4) by (change (67 <= drive_sectors g); rewrite Hds; apply Hdisk).
  pose proof (commit_checked g4 Hok4 H67 Hw4 Hc) as Hwf4.
  destruct (commit_written g4 (f_data f)) as [Hval Hent]; try done.
  destruct (commit_frame g4) as (F1 & F2 & _).
  eapply (wp_write_drive _ _ _ Hd (fun r => (r, Some p')));
    [|exact Hos|exact Hs3|by apply commit_ok| | | |]; [done|..]; cbn [d_gpt set_gpt].
  - by rewrite F1.
  - by rewrite F2.
  - left. exists i. rewrite <-Ht. do 4 (split; [done|]). split; [done|rewrite Hent; by destruct Hed].
  - intros data' Hq. right. eauto.
Qed.

Lemma wp_add_at gen ok w2 :
  UuidGenerator gen ok -> (forall w', w_files w' = w_files w -> ok w') -> open w2 ->
  wp post (add_at (Some gen) d g (Z.of_nat i) (entry_at i) p') w2.
Proof using All.
  intros Hgen Hgok Hs. pose proof (df_disk _ _ _ Hd) as Hdisk.
  destruct (checked_table _ _ Hdisk Ec Eb) as (_ & Hok & _).
  assert (Hnew : IsZero (e_type o t) = true <-> ~ used t i) by (apply IsZero_used, Hok; done).
  unfold add_at. cbn [entry_at ep_off ep_table ep_secondary ep_update].
  destruct (IsZero (e_type o t) && _) eqn:G1; [by apply wp_add_bad|].
  destruct (IsZero (e_type o t) && IsZero _) eqn:G2; [by apply wp_add_bad|].
  rewrite andb_false_r.
  assert (Hreq : ~ used t i -> ad_set_begin p = true /\ ad_set_size p = true /\
    ad_set_type p = true /\ IsZero (ad_type_guid p) = false).
  { intros Hu. apply Hnew in Hu. rewrite Hu in G1, G2. simpl in G1, G2.
    destruct (ad_set_begin p), (ad_set_size p), (ad_set_type p); done. }
  destruct (IsZero (e_type o t)) eqn:Hz0.
  - apply wp_assoc, wp_bind. eapply wp_mono; [apply Hgen, Hgok|].
    { rewrite (se_files _ _ _ _ _ _ Hs). apply Hos. }
    intros o' w3 (F1 & F2 & F3 & id & -> & Hl & Hid).
    apply wp_bind, wp_ret. apply (wp_add_finish true id); [done|done| |done|done].
    destruct Hs. split; rewrite ?F1, ?F2; auto.
  - apply wp_bind, wp_ret.
    replace g with (set_primary_entries (with_new_id false o (replicate 16 0) t) g) at 2
      by (by destruct g).
    apply wp_add_finish; [done|apply bytes_ok_zeros|done|done|done].
Qed.
End AddAt.


(** ** cgpt_get_partition_details *)

(** The partition a request names: a number, or the first entry with the given identifier. *)
Definition selects (p : CgptAddParams) (t : bytes) (i : nat) : Prop :=
  ad_partition p = Z.of_nat i + 1 \/
  ad_partition p = 0 /\ ad_set_unique p = true /\ GuidEqual (e_guid t i) (ad_unique_guid p) = true /\
    forall j, (j < i)%nat -> GuidEqual (e_guid t j) (ad_unique_guid p) = false.

(** The answer for entry [i]. *)
Definition details_of (t : bytes) (i : nat) (p : CgptAddParams) : CgptAddParams :=
  let att mask off := Z.shiftr (Z.land (e_gpt_att (entry_off i) t) mask) off in
  set_details (e_start t i) (u64 (e_end t i - e_start t i + 1)) (e_type (entry_off i) t) (e_guid t i)
    (e_gpt_att (entry_off i) t)
    (att CGPT_ATTRIBUTE_SUCCESSFUL_MASK CGPT_ATTRIBUTE_SUCCESSFUL_OFFSET)
    (att CGPT_ATTRIBUTE_TRIES_MASK CGPT_ATTRIBUTE_TRIES_OFFSET)
    (att CGPT_ATTRIBUTE_PRIORITY_MASK CGPT_ATTRIBUTE_PRIORITY_OFFSET)
    (set_partition (Z.of_nat i + 1) p).

Definition details_result (p : CgptAddParams) (f : file) (w : world)
    (r : Z * option CgptAddParams) (data' : bytes) : Prop :=
  let t := primary_entries (disk_gpt (f_data f)) in
  data' = f_data f /\
  ((exists i, (i < 128)%nat /\ selects p t i /\ r = (CGPT_OK, Some (details_of t i p))) \/
   r = (CGPT_FAILED, Some p) /\
     (quiet w -> valid_disk (f_data f) -> forall i, (i < 128)%nat -> ~ selects p t i)).

Lemma get_details_correct f w p :
  drive_file w (ad_drive_name p) f -> 0 <= ad_partition p ->
  wp (command_post (ad_drive_name p) f w (details_result p f w))
     (cgpt_get_partition_details (Some p)) w.
Proof.
  intros Hd Hp0. unfold cgpt_get_partition_details. pose proof (df_disk _ _ _ Hd) as Hdisk.
  eapply wp_open_drive; [exact Hd|done..| | |].
  2:{ intros d w' E1 E2 Hq. simpl. apply wp_ret. apply unchanged_post; [done|done|]. split; [done|].
      split; [done|]. right. split; [done|]. by intros ?. }
  2:{ intros c w' E1 Hq. by apply unchanged_post. }
  intros d w1 w2 Hos Hs Hg _. change (negb (CGPT_OK =? CGPT_OK)) with false. cbv iota. rewrite Hg.
  destruct (GptSanityCheck (disk_gpt (f_data f))) as [r g] eqn:Ec. cbv zeta beta.
  set (t := primary_entries (disk_gpt (f_data f))).
  assert (Hfail : (valid_disk (f_data f) -> forall i, (i < 128)%nat -> ~ selects p t i) ->
    wp (command_post (ad_drive_name p) f w (details_result p f w)) (bad (set_gpt g d) (Some p)) w2).
  { intros Hno. eapply wp_close_drive; [exact Hd|exact Hos|exact Hs|done|].
    intros d' w4 F1 F2. apply wp_ret. apply unchanged_post; [done|done|]. split; [done|].
    split; [done|]. right. split; [done|]. intros _. exact Hno. }
  unfold valid_disk in Hfail. rewrite Ec in Hfail. cbn [fst snd] in Hfail.
  destruct (Z.eqb_spec r GPT_SUCCESS) as [->|]; cbn [negb]; [|by apply Hfail; intros []].
  destruct (not_both g) eqn:Eb.
  { apply Hfail. intros (_ & E1 & E2). unfold not_both in Eb. by rewrite E1, E2 in Eb. }
  destruct (checked_table _ _ Hdisk Ec Eb) as (Hr & Hok & _ & _ & _ & Ht & _ & _). fold t in Ht.
  assert (Hdone : forall i, (i < 128)%nat -> selects p t i ->
    wp (command_post (ad_drive_name p) f w (details_result p f w))
      (let! p' := read_details g (Z.of_nat i) (entry_at i) (set_partition (Z.of_nat i + 1) p) in
       DriveClose (set_gpt g d) false ;; ret (CGPT_OK, Some p')) w2).
  { intros i Hi Hsel. unfold read_details. do 3 (apply wp_assoc; unfold GetSuccessful, GetTries, GetPriority;
      apply wp_assoc, wp_GetEntry; [done|done|]; apply wp_bind, wp_ret).
    apply wp_bind, wp_ret.
    eapply wp_close_drive; [exact Hd|exact Hos|exact Hs|done|].
    intros d' w4 F1 F2. apply wp_ret. apply unchanged_post; [done|done|]. split; [done|].
    split; [done|]. left. exists i. fold t. split; [done|]. split; [done|].
    cbn [ep_table entry_at ep_secondary ep_off]. by rewrite Ht. }
  destruct (truthy (ad_partition p)) eqn:Ep.
  - apply truthy_true in Ep. rewrite ready_number by done.
    destruct (Z.ltb_spec 128 (ad_partition p)).
    { apply Hfail. intros _ i Hi [?|[? _]]; lia. }
    set (i := Z.to_nat (ad_partition p - 1)). replace (ad_partition p - 1) with (Z.of_nat i) by lia.
    apply wp_GetEntry; [done|lia|]. specialize (Hdone i ltac:(lia) ltac:(left; lia)).
    replace (Z.of_nat i + 1) with (ad_partition p) in Hdone by lia. by destruct p.
  - apply truthy_false in Ep. destruct (ad_set_unique p) eqn:Eu; cbn [negb].
    2:{ apply Hfail. intros _ i Hi [?|(_ & ? & _)]; [lia|congruence]. }
    rewrite ready_number by done. eapply wp_find_entry; [by apply ready_gets| |].
    + intros i Hi Hs1 Hs2. cbn [ep_table entry_at ep_secondary ep_off] in Hs1, Hs2. rewrite Ht in Hs1, Hs2.
      apply Hdone; [done|]. by right.
    + intros Hno. cbn [ep_table entry_at ep_secondary ep_off] in Hno. rewrite Ht in Hno.
      apply Hfail. intros _ i Hi [?|(_ & _ & E & _)]; [lia|].
      specialize (Hno i Hi). unfold e_guid in E. congruence.
Qed.

(** [cgpt_get_partition_details] never writes to the drive; when it reports success it
    answers with the fields of the entry the request names, and on a valid table it reports
    failure only when the request names no entry or a system call failed. *)
Theorem cgpt_get_partition_details_reads_entry path f w p :
  drive_file w path f -> ad_drive_name p = path -> 0 <= ad_partition p ->
  wp (command_post path f w (details_result p f w)) (cgpt_get_partition_details (Some p)) w.
Proof. intros Hd <-. by apply get_details_correct. Qed.
