(* ===== verification/CgptPrioritize.v ===== *)
(** * Reordering kernel partitions (cgpt_prioritize.c)

    Partitions of the ChromeOS kernel type are gathered into groups of equal priority, the groups
    are sorted, and new priorities are dealt out from the top.  An array of groups is the list of
    its first [num_groups] elements; the array [part] of a group is the list of its first
    [num_parts] elements, with room for [max_parts]. *)

From stdpp Require Import base list numbers gmap strings.
From Stdlib Require Import ZArith Lia.
From S2P Require Import Prelude GptTypes GptLib GptSanity Posix Drive CgptCommon CgptAdd.

(** ** Groups *)

Definition MAX_GROUPS : Z := 17.

Record group_t := mkGroup { gr_priority : Z; gr_part : list Z }.
Record group_list_t := mkGroups { gl_max_parts : Z; gl_group : list group_t }.

Definition num_groups (gl : group_list_t) : Z := Z.of_nat (length (gl_group gl)).

Definition sizeof_group_list_t : Z := 8 + MAX_GROUPS * 12.

Fixpoint alloc_parts (n : nat) (max_p : Z) : M unit :=
  match n with
  | O => ret tt
  | S n => let! ok := sys_malloc (4 * max_p) in require ok ;; alloc_parts n max_p
  end.

Definition NewGroupList (max_p : Z) : M group_list_t :=
  let! ok := sys_malloc sizeof_group_list_t in
  require ok ;;
  alloc_parts (Z.to_nat MAX_GROUPS) max_p ;;
  ret (mkGroups max_p []).

(** Storing past the end of [part] is undefined. *)
Definition add_part (max_parts partition : Z) (gr : group_t) : M group_t :=
  if Z.of_nat (length (gr_part gr)) <? max_parts
  then ret (mkGroup (gr_priority gr) (gr_part gr ++ [partition]))
  else undefined.

(** The groups before the index found, the rest, and the index [i] of the search. *)
Fixpoint add_to_group (max_parts : Z) (i : Z) (priority partition : Z) (l : list group_t)
    : M (list group_t) :=
  match l with
  | [] =>
      require (i <? MAX_GROUPS) ;;
      let! gr := add_part max_parts partition (mkGroup priority []) in ret [gr]
  | gr :: l =>
      if gr_priority gr =? priority
      then let! gr := add_part max_parts partition gr in ret (gr :: l)
      else let! l := add_to_group max_parts (i + 1) priority partition l in ret (gr :: l)
  end.

Definition AddToGroup (gl : group_list_t) (priority partition : Z) : M group_list_t :=
  let! l := add_to_group (gl_max_parts gl) 0 priority partition (gl_group gl) in
  ret (mkGroups (gl_max_parts gl) l).

Fixpoint change_group (old_priority new_priority : Z) (l : list group_t) : list group_t :=
  match l with
  | [] => []
  | gr :: l =>
      if gr_priority gr =? old_priority then mkGroup new_priority (gr_part gr) :: l
      else gr :: change_group old_priority new_priority l
  end.

Definition ChangeGroup (gl : group_list_t) (old_priority new_priority : Z) : group_list_t :=
  mkGroups (gl_max_parts gl) (change_group old_priority new_priority (gl_group gl)).

(** One step of the insertion sort: [tmp] moves left over the elements with a smaller priority.
    The prefix [group[0..i)] is given from its last element to its first. *)
Fixpoint shift_left (rprefix : list group_t) (tmp : group_t) : list group_t :=
  match rprefix with
  | [] => [tmp]
  | gr :: rest =>
      if gr_priority gr <? gr_priority tmp then gr :: shift_left rest tmp else tmp :: rprefix
  end.

Definition SortGroups (gl : group_list_t) : group_list_t :=
  mkGroups (gl_max_parts gl) (reverse (foldl shift_left [] (gl_group gl))).

(** ** cgpt_prioritize *)

Record CgptPrioritizeParams := mkPrioritize {
  pr_drive_name : string;
  pr_set_partition : Z;
  pr_set_friends : bool;
  pr_max_priority : Z;
  pr_orig_priority : Z
}.

Definition set_orig_priority (v : Z) (p : CgptPrioritizeParams) : CgptPrioritizeParams :=
  mkPrioritize (pr_drive_name p) (pr_set_partition p) (pr_set_friends p) (pr_max_priority p) v.

Definition is_kernel (g : GptData) (e : entry_ptr) : bool :=
  GuidEqual (e_type (ep_off e) (ep_table e g)) GPT_ENT_TYPE_CHROMEOS_KERNEL.

Definition count_kernels (g : GptData) (max_part : Z) : M Z :=
  for_entries (GetEntry g PRIMARY) (fun _ e n => ret (if is_kernel g e then n + 1 else n)) (indices max_part) 0.

Definition collect_groups (g : GptData) (max_part : Z) (p : CgptPrioritizeParams)
    (groups : group_list_t) : M (group_list_t * CgptPrioritizeParams) :=
  for_entries (GetEntry g PRIMARY) (fun i e s => let '(groups, p) := s in
    if negb (is_kernel g e) then ret (groups, p) else
    let! priority := GetPriority g PRIMARY i in
    if truthy (pr_set_partition p) && (i + 1 =? pr_set_partition p) then
      let p := set_orig_priority priority p in
      let! groups := AddToGroup groups (if pr_set_friends p then priority else 99) i in
      ret (groups, p)
    else
      let! groups := AddToGroup groups priority i in ret (groups, p))
  (indices max_part) (groups, p).

(** [if (groups->group[i-1].priority == 0) groups->num_groups--;], undefined without groups. *)
Definition drop_zero_group (gl : group_list_t) : M group_list_t :=
  match last (gl_group gl) with
  | None => undefined
  | Some gr =>
      ret (if gr_priority gr =? 0
           then mkGroups (gl_max_parts gl) (take (length (gl_group gl) - 1) (gl_group gl)) else gl)
  end.

Fixpoint deal_priorities (priority : Z) (l : list group_t) : list group_t :=
  match l with
  | [] => []
  | gr :: l =>
      mkGroup (u32 priority) (gr_part gr) ::
      deal_priorities (if 1 <? priority then priority - 1 else priority) l
  end.

Fixpoint set_priorities (g : GptData) (priority : Z) (parts : list Z) : M GptData :=
  match parts with
  | [] => ret g
  | i :: parts => let! g := SetPriority g PRIMARY i priority in set_priorities g priority parts
  end.

Fixpoint apply_ranking (g : GptData) (l : list group_t) : M GptData :=
  match l with
  | [] => ret g
  | gr :: l => let! g := set_priorities g (gr_priority gr) (gr_part gr) in apply_ranking g l
  end.

(** The new table and parameters. *)
Definition rank_kernels (g : GptData) (max_part num_kernels : Z) (p : CgptPrioritizeParams)
    : M (GptData * CgptPrioritizeParams) :=
  let! groups := NewGroupList num_kernels in
  let! (groups, p) := collect_groups g max_part p groups in
  let groups :=
    if truthy (pr_set_partition p) && pr_set_friends p
    then ChangeGroup groups (u32 (pr_orig_priority p)) 99 else groups in
  let groups := SortGroups groups in
  let! groups := drop_zero_group groups in
  let priority :=
    if truthy (pr_max_priority p) then pr_max_priority p
    else if 15 <? num_groups groups then 15 else num_groups groups in
  let! g := apply_ranking g (deal_priorities priority (gl_group groups)) in
  ret (g, p).

Definition cgpt_prioritize (params : option CgptPrioritizeParams)
    : M (Z * option CgptPrioritizeParams) :=
  match params with
  | None => ret (CGPT_FAILED, None)
  | Some p =>
    let! (rc, d) := DriveOpen (pr_drive_name p) O_RDWR in
    if negb (rc =? CGPT_OK) then ret (CGPT_FAILED, Some p) else
    let '(r, g) := GptSanityCheck (d_gpt d) in
    (* the drive stays open *)
    if negb (r =? GPT_SUCCESS) then ret (CGPT_FAILED, Some p) else
    let max_part := GetNumberOfEntries g in
    let! accepted :=
      if truthy (pr_set_partition p) then
        if (pr_set_partition p <? 1) || (max_part <? pr_set_partition p) then ret false else
        let! e := GetEntry g PRIMARY (pr_set_partition p - 1) in ret (is_kernel g e)
      else ret true in
    if negb accepted then bad (set_gpt g d) (Some p) else
    let! num_kernels := count_kernels g max_part in
    let! (g, p) :=
      if truthy num_kernels then rank_kernels g max_part num_kernels p else ret (g, p) in
    let g := commit g in
    let! (r, _) := DriveClose (set_gpt g d) true in ret (r, Some p)
  end.
