(* ===== verification/PrioritizeSpec.v ===== *)
(** * What reordering does (theorems about cgpt_prioritize.c)

    First the groups on their own: gathering, sorting and dealing priorities are related to a key
    on partition numbers.  Then the command: which partitions move and how their order is kept. *)

From stdpp Require Import base list numbers gmap strings sorting.
From Stdlib Require Import ZArith Lia.
From S2P Require Import Prelude Crc32 GptTypes GptLib GptSanity Posix Drive DriveSpec CgptCommon CommitSpec CommandSpec Attributes CgptCreate CgptAdd CgptAddSpec CgptPrioritize.

(** ** Gathering *)

Definition bucket (key : Z -> Z) (idx : list Z) (k : Z) : list Z := filter (fun i => key i = k) idx.

(** The groups are the non-empty buckets of [idx], one for each key in use. *)
Record grouped (key : Z -> Z) (idx : list Z) (l : list group_t) : Prop := {
  gp_distinct : NoDup (map gr_priority l);
  gp_bucket gr : gr ∈ l -> gr_part gr = bucket key idx (gr_priority gr) /\ gr_part gr <> [];
  gp_all i : i ∈ idx -> key i ∈ map gr_priority l
}.

(** [add_to_group] without its checks. *)
Fixpoint add_pure (k i : Z) (l : list group_t) : list group_t :=
  match l with
  | [] => [mkGroup k [i]]
  | gr :: l => if gr_priority gr =? k then mkGroup k (gr_part gr ++ [i]) :: l
               else gr :: add_pure k i l
  end.

Lemma add_pure_keys k i l :
  map gr_priority (add_pure k i l) =
  map gr_priority l ++ (if bool_decide (k ∈ map gr_priority l) then [] else [k]).
Proof.
  induction l as [|gr l IH]; simpl; [done|]. destruct (Z.eqb_spec (gr_priority gr) k) as [->|Hk]; simpl.
  - rewrite bool_decide_true by (by left). by rewrite app_nil_r.
  - rewrite IH. f_equal. f_equal. replace (bool_decide (k ∈ gr_priority gr :: map gr_priority l)) with
      (bool_decide (k ∈ map gr_priority l)); [done|]. apply bool_decide_ext.
    rewrite elem_of_cons. split; [by right|intros [E|]; [by subst k|done]].
Qed.

Lemma add_pure_elem k i l gr : NoDup (map gr_priority l) -> gr ∈ add_pure k i l ->
  (gr ∈ l /\ gr_priority gr <> k) \/
  (exists gr0, gr0 ∈ l /\ gr_priority gr0 = k /\ gr = mkGroup k (gr_part gr0 ++ [i])) \/
  ((k ∉ map gr_priority l) /\ gr = mkGroup k [i]).
Proof.
  induction l as [|gr1 l IH]; simpl.
  - intros _ H%list_elem_of_singleton. right. right. split; [apply not_elem_of_nil|done].
  - intros [Hn Hd]%NoDup_cons. destruct (Z.eqb_spec (gr_priority gr1) k) as [E|Hk].
    + intros [->|H]%elem_of_cons.
      * right. left. exists gr1. split; [by left|done].
      * left. split; [by right|]. intros E'. apply Hn. rewrite E, <-E'. by apply list_elem_of_fmap_2.
    + intros [->|H]%elem_of_cons; [left; split; [by left|done]|].
      destruct (IH Hd H) as [[? ?]|[(gr0 & ? & ? & ?)|[? ?]]].
      * left. split; [by right|done].
      * right. left. exists gr0. split; [by right|done].
      * right. right. split; [|done]. apply not_elem_of_cons. split; [congruence|done].
Qed.

Lemma bucket_app key idx i k :
  bucket key (idx ++ [i]) k = bucket key idx k ++ (if decide (key i = k) then [i] else []).
Proof. unfold bucket. by rewrite filter_app. Qed.

Lemma grouped_add key idx i l : grouped key idx l -> grouped key (idx ++ [i]) (add_pure (key i) i l).
Proof.
  intros [D B A]. split.
  - rewrite add_pure_keys. apply NoDup_app. split; [done|].
    case_bool_decide as Hk.
    + split; [intros x _ Hx; by apply elem_of_nil in Hx|apply NoDup_nil_2].
    + split; [by intros x Hx ->%list_elem_of_singleton|apply NoDup_singleton].
  - intros gr H. apply add_pure_elem in H as [[H Hk]|[(gr0 & H & Hk & ->)|[Hn ->]]]; [..|done]; cbn [gr_part gr_priority].
    + destruct (B gr H) as [E Hne]. rewrite bucket_app, decide_False by done. by rewrite app_nil_r.
    + destruct (B gr0 H) as [E Hne]. rewrite bucket_app, decide_True by done.
      split; [by rewrite E, Hk|]. by destruct (gr_part gr0).
    + rewrite bucket_app, decide_True by done. split; [|done].
      assert (E : bucket key idx (key i) = []).
      { unfold bucket. destruct (filter _ idx) as [|j r] eqn:Ef; [done|].
        assert (Hj : j ∈ filter (fun i0 => key i0 = key i) idx) by (rewrite Ef; by left).
        apply list_elem_of_filter in Hj as [Hk Hj]. rewrite <-Hk in Hn. by apply A in Hj. }
      by rewrite E.
  - intros j. rewrite elem_of_app, list_elem_of_singleton, add_pure_keys, elem_of_app.
    intros [H| ->]; [left; by apply A|]. case_bool_decide; [by left|right; by left].
Qed.

(** The checks of [add_to_group] hold as long as there is room. *)
Lemma wp_add_to_group {B} (Q : outcome B -> world -> Prop) kont max k i l w : forall n,
  (forall gr, gr ∈ l -> gr_priority gr = k -> Z.of_nat (length (gr_part gr)) < max) -> 0 < max ->
  (k ∉ map gr_priority l -> n + Z.of_nat (length l) < 17) ->
  wp Q (kont (add_pure k i l)) w ->
  wp Q (bind (add_to_group max n k i l) kont) w.
Proof.
  revert kont. induction l as [|gr l IH]; intros kont n Hroom Hmax Hn H; simpl.
  - apply wp_assoc, wp_bind, wp_require.
    + intros _. apply wp_assoc. unfold add_part. cbn [gr_part length].
      rewrite (proj2 (Z.ltb_lt (Z.of_nat 0) max)) by lia. by apply wp_bind, wp_ret, wp_bind, wp_ret.
    + intros Hf. specialize (Hn ltac:(apply not_elem_of_nil)). unfold MAX_GROUPS in Hf. simpl in Hn. lia.
  - simpl in H. destruct (Z.eqb_spec (gr_priority gr) k) as [E|E].
    + unfold add_part. specialize (Hroom gr ltac:(by left) E).
      rewrite (proj2 (Z.ltb_lt (Z.of_nat (length (gr_part gr))) max)) by lia.
      apply wp_assoc, wp_bind, wp_ret, wp_bind, wp_ret. by rewrite E.
    + apply wp_assoc, IH; [|done| |by apply wp_bind, wp_ret].
      * intros gr' Hgr'. apply Hroom. by right.
      * intros Hk. simpl in Hn. specialize (Hn ltac:(apply not_elem_of_cons; split; [congruence|done])). lia.
Qed.

(** ** Changing a key *)

Lemma filter_ext_elem {A} (P Q : A -> Prop) `{!forall x, Decision (P x), !forall x, Decision (Q x)}
    (l : list A) :
  (forall x, x ∈ l -> P x <-> Q x) -> filter P l = filter Q l.
Proof.
  induction l as [|x l IH]; intros Hx; [done|]. rewrite !filter_cons.
  rewrite IH by (intros; apply Hx; by right).
  specialize (Hx x ltac:(by left)). repeat case_decide; tauto.
Qed.

Lemma change_group_elem old new l gr : gr ∈ change_group old new l ->
  NoDup (map gr_priority l) ->
  (gr ∈ l /\ gr_priority gr <> old) \/
  (exists gr0, gr0 ∈ l /\ gr_priority gr0 = old /\ gr = mkGroup new (gr_part gr0)).
Proof.
  induction l as [|gr1 l IH]; simpl; [by intros ?%elem_of_nil|].
  intros H [Hn Hd]%NoDup_cons. destruct (Z.eqb_spec (gr_priority gr1) old) as [E|Hk].
  - apply elem_of_cons in H as [->|H]; [right; exists gr1; split; [by left|done]|].
    left. split; [by right|]. intros E'. apply Hn. rewrite E, <-E'. by apply list_elem_of_fmap_2.
  - apply elem_of_cons in H as [->|H]; [left; split; [by left|done]|].
    destruct (IH H Hd) as [[? ?]|(gr0 & ? & ?)]; [left; split; [by right|done]|].
    right. exists gr0. split; [by right|done].
Qed.

Lemma change_group_keys old new l : NoDup (map gr_priority l) ->
  map gr_priority (change_group old new l) = map (fun k => if k =? old then new else k) (map gr_priority l).
Proof.
  induction l as [|gr l IH]; simpl; [done|]. intros [Hn Hd]%NoDup_cons.
  destruct (Z.eqb_spec (gr_priority gr) old) as [E|Hk]; simpl; [|by rewrite IH].
  f_equal. clear IH. rewrite <-E. revert Hn. clear Hd E.
  induction l as [|gr' l IH]; simpl; [done|]. intros [Hne Hn]%not_elem_of_cons.
  destruct (Z.eqb_spec (gr_priority gr') (gr_priority gr)); [congruence|]. f_equal. by apply IH.
Qed.

Definition rekey (old new : Z) (key : Z -> Z) (i : Z) : Z := if key i =? old then new else key i.

Lemma grouped_change old new key idx l :
  new ∉ map gr_priority l -> grouped key idx l ->
  grouped (rekey old new key) idx (change_group old new l).
Proof.
  intros Hnew [D B A]. split.
  - rewrite change_group_keys by done. apply NoDup_fmap_2_strong; [|done].
    intros x y Hx Hy. destruct (Z.eqb_spec x old), (Z.eqb_spec y old); intros; subst; try done.
  - assert (Hold : forall k, k ∈ map gr_priority l -> k <> old ->
      bucket (rekey old new key) idx k = bucket key idx k).
    { intros k Hk Hko. unfold bucket. apply list_filter_iff. intros i. unfold rekey.
      destruct (Z.eqb_spec (key i) old) as [E|E]; [|done]. rewrite E. split; intros <-; done. }
    intros gr H. apply change_group_elem in H as [[H Hk]|(gr0 & H & Hk & ->)]; [| |done].
    + rewrite Hold; [by apply B|by apply list_elem_of_fmap_2|done].
    + cbn [gr_part gr_priority]. destruct (B gr0 H) as [E Hne]. split; [|done]. rewrite E, Hk.
      unfold bucket. apply filter_ext_elem. intros i Hi. unfold rekey.
      destruct (Z.eqb_spec (key i) old) as [E'|E']; [done|]. split; [done|].
      intros E2. apply A in Hi. by rewrite E2 in Hi.
  - intros i Hi. rewrite change_group_keys by done. unfold rekey.
    apply (list_elem_of_fmap_2 (fun k => if k =? old then new else k)). by apply A.
Qed.

(** ** Sorting *)

Lemma shift_left_perm r tmp : shift_left r tmp ≡ₚ tmp :: r.
Proof.
  induction r as [|gr r IH]; simpl; [done|].
  case_match; [|done]. rewrite IH. apply Permutation_swap.
Qed.

Lemma foldl_shift_perm l acc : foldl shift_left acc l ≡ₚ l ++ acc.
Proof.
  revert acc. induction l as [|gr l IH]; intros acc; simpl; [done|].
  rewrite IH, shift_left_perm. by rewrite Permutation_middle.
Qed.

Definition lower (a b : group_t) : Prop := gr_priority a <= gr_priority b.

Lemma shift_left_sorted r tmp : StronglySorted lower r -> StronglySorted lower (shift_left r tmp).
Proof.
  induction 1 as [|gr r Hs IH Hf]; simpl; [repeat constructor|].
  destruct (Z.ltb_spec (gr_priority gr) (gr_priority tmp)) as [H|H].
  - constructor; [done|]. rewrite shift_left_perm. constructor; [unfold lower; lia|done].
  - constructor; [by constructor|]. constructor; [done|].
    eapply Forall_impl; [exact Hf|]. unfold lower. intros. lia.
Qed.

Lemma foldl_shift_sorted l acc : StronglySorted lower acc -> StronglySorted lower (foldl shift_left acc l).
Proof. revert acc. induction l; intros acc H; simpl; [done|]. by apply IHl, shift_left_sorted. Qed.

Lemma sorted_lookup {A} (R : A -> A -> Prop) l i j x y :
  StronglySorted R l -> (i < j)%nat -> l !! i = Some x -> l !! j = Some y -> R x y.
Proof.
  intros H. revert i j. induction H as [|a l Hs IH Hf]; intros i j Hij Hx Hy; [done|].
  destruct j as [|j]; [lia|]. simpl in Hy. destruct i as [|i]; simpl in Hx.
  - injection Hx as <-. rewrite Forall_forall in Hf. apply Hf. by eapply list_elem_of_lookup_2.
  - by apply (IH i j); [lia|..].
Qed.

(** Groups in order, the highest first. *)
Definition ranked (l : list group_t) : Prop :=
  forall a b ga gb, (a < b)%nat -> l !! a = Some ga -> l !! b = Some gb -> gr_priority gb < gr_priority ga.

Lemma grouped_perm key idx l l' : l ≡ₚ l' -> grouped key idx l -> grouped key idx l'.
Proof.
  intros Hp [D B A]. split.
  - by rewrite <-Hp.
  - intros gr. rewrite <-Hp. apply B.
  - intros i Hi. rewrite <-Hp. by apply A.
Qed.

Lemma SortGroups_sorts key idx gl : grouped key idx (gl_group gl) ->
  gl_max_parts (SortGroups gl) = gl_max_parts gl /\
  grouped key idx (gl_group (SortGroups gl)) /\ ranked (gl_group (SortGroups gl)) /\
  gl_group (SortGroups gl) ≡ₚ gl_group gl.
Proof.
  intros Hg. assert (Hp : gl_group (SortGroups gl) ≡ₚ gl_group gl).
  { unfold SortGroups. simpl. rewrite reverse_Permutation, foldl_shift_perm. by rewrite app_nil_r. }
  split_and!; [done|by eapply grouped_perm| |done].
  pose proof (foldl_shift_sorted (gl_group gl) [] ltac:(constructor)) as Hs.
  assert (Hd : NoDup (map gr_priority (gl_group (SortGroups gl)))) by (rewrite Hp; apply Hg).
  intros a b ga gb Hab Ha Hb.
  assert (Hne : gr_priority ga <> gr_priority gb).
  { intros E. assert (a = b); [|lia]. eapply NoDup_lookup; [exact Hd|by rewrite list_lookup_fmap, Ha|].
    rewrite list_lookup_fmap, Hb. simpl. by rewrite E. }
  unfold SortGroups in Ha, Hb. simpl in Ha, Hb. apply reverse_lookup_Some in Ha as [Ha La], Hb as [Hb Lb].
  assert (H : lower gb ga) by (eapply sorted_lookup; [exact Hs| |exact Hb|exact Ha]; lia).
  unfold lower in H. lia.
Qed.

(** ** Dealing *)

Lemma deal_priorities_lookup P l k gr : 1 <= P < 2 ^ 32 -> l !! k = Some gr ->
  deal_priorities P l !! k = Some (mkGroup (Z.max 1 (P - Z.of_nat k)) (gr_part gr)).
Proof.
  revert P k. induction l as [|gr' l IH]; intros P k HP Hk; [done|].
  destruct k as [|k]; simpl in *.
  - injection Hk as ->. unfold u32. rewrite Z.mod_small by lia. do 2 f_equal. lia.
  - destruct (Z.ltb_spec 1 P).
    + rewrite (IH (P - 1) k) by (lia || done). do 2 f_equal. lia.
    + rewrite (IH P k) by (lia || done). do 2 f_equal. lia.
Qed.

Lemma length_deal P l : length (deal_priorities P l) = length l.
Proof. revert P. induction l; intros P; simpl; auto. Qed.

(** ** Positions as ranks *)

Section Ranks.
Context (key : Z -> Z) (idx : list Z) (l : list group_t).
Context (Hg : grouped key idx l) (Hr : ranked l).

(** The position of the group of [i]. *)
Lemma group_of i : i ∈ idx -> exists k gr, l !! k = Some gr /\ gr_priority gr = key i /\ i ∈ gr_part gr.
Proof using Hg.
  intros Hi. destruct Hg as [D B A]. pose proof (A i Hi) as Hk.
  apply list_elem_of_fmap in Hk as (gr & E & Hin). apply list_elem_of_lookup in Hin as [k Hk].
  exists k, gr. split; [done|]. split; [done|].
  destruct (B gr (list_elem_of_lookup_2 _ _ _ Hk)) as [-> _]. apply list_elem_of_filter. by rewrite E.
Qed.

Lemma in_group k gr i : l !! k = Some gr -> i ∈ gr_part gr -> i ∈ idx /\ key i = gr_priority gr.
Proof using Hg.
  intros Hk Hi. destruct (gp_bucket _ _ _ Hg gr (list_elem_of_lookup_2 _ _ _ Hk)) as [E _].
  rewrite E in Hi. by apply list_elem_of_filter in Hi as [? ?].
Qed.

Lemma rank_le k k' gr gr' : l !! k = Some gr -> l !! k' = Some gr' ->
  gr_priority gr <= gr_priority gr' -> (k' <= k)%nat.
Proof using Hr.
  intros Hk Hk' H. destruct (decide (k' <= k)%nat) as [|Hn]; [done|].
  pose proof (Hr k k' gr gr' ltac:(lia) Hk Hk'). lia.
Qed.

Lemma rank_lt k k' gr gr' : l !! k = Some gr -> l !! k' = Some gr' ->
  gr_priority gr < gr_priority gr' -> (k' < k)%nat.
Proof using Hr.
  intros Hk Hk' H. pose proof (rank_le k k' gr gr' Hk Hk' ltac:(lia)).
  destruct (decide (k = k')) as [->|]; [|lia]. rewrite Hk in Hk'. injection Hk' as ->. lia.
Qed.

(** The number of groups is the number of distinct keys. *)
Lemma num_levels : length l = length (remove_dups (map key idx)).
Proof using Hg.
  destruct Hg as [D B A]. rewrite <-(length_map gr_priority l). apply Permutation_length.
  apply NoDup_Permutation; [done|apply NoDup_remove_dups|]. intros k.
  rewrite elem_of_remove_dups, !list_elem_of_fmap. split.
  - intros (gr & -> & Hin). destruct (B gr Hin) as [E Hne].
    destruct (gr_part gr) as [|i r]; [done|]. assert (Hi : i ∈ bucket key idx (gr_priority gr)) by (rewrite <-E; by left).
    apply list_elem_of_filter in Hi as [? ?]. by exists i.
  - intros (i & -> & Hi). apply A, list_elem_of_fmap in Hi as (gr & ? & ?). by exists gr.
Qed.

Lemma parts_nodup : NoDup idx -> NoDup (concat (map gr_part l)).
Proof using Hg.
  intros Hn. destruct Hg as [D B _]. clear Hr Hg. induction l as [|gr l' IH]; [apply NoDup_nil_2|].
  simpl in *. apply NoDup_cons in D as [Dn Dd].
  apply NoDup_app. destruct (B gr ltac:(by left)) as [E _]. split_and!.
  - rewrite E. by apply NoDup_filter.
  - intros i Hi Hc. apply list_elem_of_In, in_concat in Hc as (part & Hp & Hi').
    apply list_elem_of_In, list_elem_of_fmap in Hp as (gr' & -> & Hin). apply list_elem_of_In in Hi'.
    destruct (B gr' ltac:(by right)) as [E' _]. rewrite E in Hi. rewrite E' in Hi'.
    apply list_elem_of_filter in Hi as [K _], Hi' as [K' _]. apply Dn. rewrite <-K, K'.
    by apply list_elem_of_fmap_2.
  - apply IH; [done|]. intros gr' Hin. apply B. by right.
Qed.
End Ranks.

(** Leaving out the last group when its key is zero. *)
Definition without_zero (l : list group_t) : list group_t :=
  match last l with
  | Some gr => if gr_priority gr =? 0 then take (length l - 1) l else l
  | None => l
  end.

Lemma without_zero_ranked l : ranked l -> ranked (without_zero l).
Proof.
  intros H. unfold without_zero. destruct (last l) as [gr|]; [|done]. case_match; [|done].
  intros a b ga gb Hab Ha Hb. apply lookup_take_Some in Ha as [Ha _], Hb as [Hb _]. by eapply H.
Qed.

Lemma without_zero_elem l gr : ranked l -> (forall gr, gr ∈ l -> 0 <= gr_priority gr) ->
  gr ∈ without_zero l <-> gr ∈ l /\ 0 < gr_priority gr.
Proof.
  intros Hr Hpos. unfold without_zero. destruct (last l) as [gl|] eqn:El.
  2:{ apply last_None in El as ->. rewrite elem_of_nil. tauto. }
  assert (Hlast : l !! (length l - 1)%nat = Some gl) by (rewrite last_lookup in El; rewrite <-El; f_equal; lia).
  assert (Hafter : forall a ga, l !! a = Some ga -> (a < length l - 1)%nat -> gr_priority gl < gr_priority ga)
    by (intros a ga Ha Hlt; by eapply Hr).
  pose proof (Hpos gl (list_elem_of_lookup_2 _ _ _ Hlast)) as Hgl.
  rewrite !list_elem_of_lookup. destruct (Z.eqb_spec (gr_priority gl) 0) as [E|E].
  - split.
    + intros [a Ha]. apply lookup_take_Some in Ha as [Ha Hlt]. specialize (Hafter a gr Ha Hlt). split; [by exists a|lia].
    + intros [[a Ha] Hp]. exists a. apply lookup_take_Some. split; [done|].
      apply lookup_lt_Some in Ha as Hlen. destruct (decide (a = length l - 1)%nat) as [->|]; [|lia].
      rewrite Hlast in Ha. injection Ha as <-. lia.
  - split; [|tauto]. intros [a Ha]. split; [by exists a|].
    apply lookup_lt_Some in Ha as Hlen. destruct (decide (a = length l - 1)%nat) as [->|].
    + rewrite Hlast in Ha. injection Ha as <-. lia.
    + specialize (Hafter a gr Ha ltac:(lia)). lia.
Qed.

Lemma without_zero_grouped key idx l : ranked l -> grouped key idx l -> (forall i, 0 <= key i) ->
  grouped key (filter (fun i => 0 < key i) idx) (without_zero l).
Proof.
  intros Hr Hg Hk. pose proof Hg as [D B A].
  assert (Hpos : forall gr, gr ∈ l -> 0 <= gr_priority gr).
  { intros gr Hin. destruct (B gr Hin) as [E Hne]. destruct (gr_part gr) as [|i r]; [done|].
    assert (Hi : i ∈ bucket key idx (gr_priority gr)) by (rewrite <-E; by left).
    apply list_elem_of_filter in Hi as [<- _]. done. }
  split.
  - unfold without_zero. destruct (last l); [|done]. case_match; [|done].
    eapply sublist_NoDup; [exact D|]. apply fmap_sublist, sublist_take.
  - intros gr Hin. apply (without_zero_elem l gr Hr Hpos) in Hin as [Hin Hp].
    destruct (B gr Hin) as [E Hne]. split; [|done]. rewrite E. unfold bucket. rewrite list_filter_filter.
    apply list_filter_iff. intros i. split; [intros K; split; lia|tauto].
  - intros i Hi. apply list_elem_of_filter in Hi as [Hp Hi]. apply A, list_elem_of_fmap in Hi as (gr & E & Hin).
    apply list_elem_of_fmap. exists gr. split; [done|].
    apply (without_zero_elem l gr Hr Hpos). split; [done|lia].
Qed.

(** ** Writing the ranking into a table *)

Definition prio_put (v att : Z) : Z :=
  att_put CGPT_ATTRIBUTE_PRIORITY_MASK CGPT_ATTRIBUTE_PRIORITY_OFFSET v att.

Definition prio_of (t : bytes) (i : nat) : Z :=
  att_get CGPT_ATTRIBUTE_PRIORITY_MASK CGPT_ATTRIBUTE_PRIORITY_OFFSET (entry_off i) t.

(** One partition number and its new priority. *)
Definition assign (t : bytes) (iv : Z * Z) : bytes :=
  let o := entry_off (Z.to_nat iv.1) in set_e_gpt_att o (prio_put iv.2 (e_gpt_att o t)) t.

Definition assignable (iv : Z * Z) : Prop := 0 <= iv.1 < 128 /\ 0 <= iv.2 <= 15.

Lemma e_gpt_att_set_ne t i j v : (i < 128)%nat -> (j < 128)%nat -> i <> j -> tbl_ok t ->
  e_gpt_att (entry_off i) (set_e_gpt_att (entry_off j) v t) = e_gpt_att (entry_off i) t.
Proof.
  intros Hi Hj Hne [_ Hl]. unfold TOTAL_ENTRIES_SIZE in Hl. pose proof (entry_off_bound j Hj).
  unfold e_gpt_att, set_e_gpt_att. apply getn_putn_ne; [|lia]. unfold entry_off, sizeof_GptEntry in *. lia.
Qed.

Lemma set_att_tbl_ok t i v : (i < 128)%nat -> tbl_ok t -> tbl_ok (set_e_gpt_att (entry_off i) v t).
Proof.
  intros Hi [Hb Hl]. unfold TOTAL_ENTRIES_SIZE in *. pose proof (entry_off_bound i Hi).
  split; [by apply bytes_ok_putn|]. unfold set_e_gpt_att. rewrite length_putn; [done|lia].
Qed.

Lemma prio_put_bound v a : 0 <= v <= 15 -> 0 <= a < 2 ^ 16 -> 0 <= prio_put v a < 2 ^ 16.
Proof. intros. eapply att_put_bound; [by apply att_priority|done|done]. Qed.

(** What is not an attribute word is not touched. *)
Definition att_byte (k : nat) : Prop :=
  exists i, (i < 128)%nat /\ (entry_off i + 54 <= k < entry_off i + 56)%nat.

Record assigned (l : list (Z * Z)) (t t' : bytes) : Prop := {
  as_ok : tbl_ok t';
  as_wf first last : table_wf t first last -> table_wf t' first last;
  as_other k : ~ att_byte k -> t' !! k = t !! k;
  as_put i v : NoDup (map fst l) -> (i < 128)%nat -> (Z.of_nat i, v) ∈ l ->
    e_gpt_att (entry_off i) t' = prio_put v (e_gpt_att (entry_off i) t);
  as_keep i : (i < 128)%nat -> Z.of_nat i ∉ map fst l ->
    e_gpt_att (entry_off i) t' = e_gpt_att (entry_off i) t
}.

Lemma foldl_assign l t : Forall assignable l -> tbl_ok t -> assigned l t (foldl assign t l).
Proof.
  intros Hl. revert t. induction Hl as [|[j u] l [Hj Hu] _ IH]; intros t Ht; simpl in *.
  { split; [done|done|done|by intros ?? _ _ ?%elem_of_nil|done]. }
  assert (Hj' : (Z.to_nat j < 128)%nat) by lia.
  set (t1 := assign t (j, u)). unfold assign in t1. cbn [fst snd] in t1.
  assert (Ht1 : tbl_ok t1) by (by apply set_att_tbl_ok).
  destruct (IH t1 Ht1) as [A1 A2 A3 A4 A5].
  assert (Hsame : forall i, (i < 128)%nat -> Z.of_nat i <> j ->
    e_gpt_att (entry_off i) t1 = e_gpt_att (entry_off i) t)
    by (intros i Hi Hij; apply e_gpt_att_set_ne; [done|done|lia|done]).
  assert (Hread : e_gpt_att (entry_off (Z.to_nat j)) t1 = prio_put u (e_gpt_att (entry_off (Z.to_nat j)) t)).
  { destruct Ht as [Hb Hlen]. unfold TOTAL_ENTRIES_SIZE in Hlen. pose proof (entry_off_bound _ Hj').
    apply e_gpt_att_set; [lia|]. apply prio_put_bound; [done|by apply e_gpt_att_bound]. }
  split.
  - done.
  - intros first last Hw. by apply A2, table_wf_att.
  - intros k Hk. rewrite A3 by done. destruct Ht as [Hb Hlen]. unfold TOTAL_ENTRIES_SIZE in Hlen.
    pose proof (entry_off_bound _ Hj'). apply set_e_gpt_att_frame; [lia|].
    destruct (decide (entry_off (Z.to_nat j) + 54 <= k < entry_off (Z.to_nat j) + 56)%nat) as [Hin|]; [|lia].
    destruct Hk. by exists (Z.to_nat j).
  - intros i v [Hn Hd]%NoDup_cons Hi [E|Hin]%elem_of_cons.
    + injection E as <- <-. rewrite Nat2Z.id in Hread. by rewrite (A5 i Hi Hn).
    + rewrite (A4 i v Hd Hi Hin), Hsame; [done|done|]. intros <-. apply Hn.
      by apply (list_elem_of_fmap_2 fst) in Hin.
  - intros i Hi [Hij Hn]%not_elem_of_cons. by rewrite (A5 i Hi Hn), Hsame.
Qed.

(** The loops of [SetPriority] are these assignments. *)
Definition assignments (l : list group_t) : list (Z * Z) :=
  concat (map (fun gr => map (fun i => (i, gr_priority gr)) (gr_part gr)) l).

Definition with_table (g : GptData) (t : bytes) : GptData := set_primary_entries t g.

Lemma wp_SetPriority {B} (Q : outcome B -> world -> Prop) kont g i v w :
  ready g -> gpt_ok g -> assignable (i, v) ->
  wp Q (kont (with_table g (assign (primary_entries g) (i, v)))) w ->
  wp Q (bind (SetPriority g PRIMARY i v) kont) w.
Proof.
  intros Hr Hg [Hi Hv] H. cbn [fst snd] in *. unfold SetPriority. apply wp_assoc.
  replace i with (Z.of_nat (Z.to_nat i)) at 1 by lia. apply wp_GetEntry; [done|lia|].
  change CGPT_ATTRIBUTE_MAX_PRIORITY with 15. replace (v <=? 15) with true by lia.
  apply wp_assoc. apply wp_bind, wp_ret, wp_bind, wp_ret.
  destruct (ok_e1 g Hg) as [Hb Hl]. unfold TOTAL_ENTRIES_SIZE in *.
  pose proof (entry_off_bound (Z.to_nat i) ltac:(lia)). unfold ep_update, entry_at. cbn [ep_secondary ep_off].
  rewrite att_set_eq by (done || lia). exact H.
Qed.

Lemma with_table_ok g t : gpt_ok g -> tbl_ok t -> gpt_ok (with_table g t).
Proof. intros. by apply set_primary_entries_ok. Qed.

Lemma wp_set_priorities {B} (Q : outcome B -> world -> Prop) v parts w : forall kont g,
  ready g -> gpt_ok g -> Forall assignable (map (fun i => (i, v)) parts) ->
  wp Q (kont (with_table g (foldl assign (primary_entries g) (map (fun i => (i, v)) parts)))) w ->
  wp Q (bind (set_priorities g v parts) kont) w.
Proof.
  induction parts as [|i parts IH]; intros kont g Hr Hg Ha H; simpl.
  - apply wp_bind, wp_ret. simpl in H. unfold with_table in H. by destruct g.
  - simpl in Ha. apply Forall_cons in Ha as [Hi Ha]. apply wp_assoc, wp_SetPriority; [done..|].
    pose proof (foldl_assign [(i, v)] (primary_entries g) ltac:(by constructor) (ok_e1 g Hg)) as [A1 _ _ _ _].
    apply IH; [by apply ready_primary_entries|by apply with_table_ok|done|exact H].
Qed.

Lemma wp_apply_ranking {B} (Q : outcome B -> world -> Prop) l w : forall kont g,
  ready g -> gpt_ok g -> Forall assignable (assignments l) ->
  wp Q (kont (with_table g (foldl assign (primary_entries g) (assignments l)))) w ->
  wp Q (bind (apply_ranking g l) kont) w.
Proof.
  induction l as [|gr l IH]; intros kont g Hr Hg Ha H; simpl.
  - apply wp_bind, wp_ret. simpl in H. unfold with_table in H. by destruct g.
  - unfold assignments in Ha, H. simpl in Ha, H. apply Forall_app in Ha as [Ha1 Ha2].
    apply wp_assoc, wp_set_priorities; [done..|].
    pose proof (foldl_assign _ (primary_entries g) Ha1 (ok_e1 g Hg)) as [A1 _ _ _ _].
    apply IH; [by apply ready_primary_entries|by apply with_table_ok|done|].
    rewrite foldl_app in H. exact H.
Qed.

(** ** Kernel partitions *)

(** The kernel partitions of a table. *)
Definition kernel_at (t : bytes) (i : Z) : bool :=
  GuidEqual (e_type (entry_off (Z.to_nat i)) t) GPT_ENT_TYPE_CHROMEOS_KERNEL.

Definition kernels (t : bytes) (idx : list Z) : list Z := filter (fun i => kernel_at t i = true) idx.

Lemma kernels_snoc t idx i :
  kernels t (idx ++ [i]) = kernels t idx ++ (if kernel_at t i then [i] else []).
Proof.
  unfold kernels. rewrite filter_app, filter_cons, filter_nil.
  destruct (kernel_at t i); [by rewrite decide_True|by rewrite decide_False].
Qed.

Lemma wp_count_kernels {B} (Q : outcome B -> world -> Prop) g kont w :
  ready g ->
  wp Q (kont (Z.of_nat (length (kernels (primary_entries g) all_idx)))) w ->
  wp Q (bind (count_kernels g 128) kont) w.
Proof.
  intros Hr H. unfold count_kernels.
  eapply (wp_for_entries _ (fun idx n w' => w' = w /\ n = Z.of_nat (length (kernels (primary_entries g) idx))));
    [by apply ready_gets|exact all_idx_range| |done|by intros a' w' [-> ->]].
  intros pre i post a k w' _ [-> ->] Hk. apply wp_bind, wp_ret, Hk. split; [done|]. rewrite kernels_snoc, length_app.
  unfold is_kernel, kernel_at. cbn [entry_at ep_off ep_table ep_secondary].
  destruct (GuidEqual _ _); simpl; lia.
Qed.

(** ** The key of a partition *)

Definition kernel_prio (t : bytes) (i : Z) : Z := prio_of t (Z.to_nat i).

(** The partition named on the command line. *)
Definition chosen (p : CgptPrioritizeParams) (i : Z) : bool :=
  truthy (pr_set_partition p) && (i + 1 =? pr_set_partition p).

(** The key when the groups are collected. *)
Definition first_key (t : bytes) (p : CgptPrioritizeParams) (i : Z) : Z :=
  if chosen p i && negb (pr_set_friends p) then 99 else kernel_prio t i.

(** The key that decides the order: the chosen partition, and with [set_friends] all partitions
    of its priority, rank above everything. *)
Definition final_key (t : bytes) (p : CgptPrioritizeParams) (i : Z) : Z :=
  if truthy (pr_set_partition p) && pr_set_friends p
  then rekey (kernel_prio t (pr_set_partition p - 1)) 99 (kernel_prio t) i
  else first_key t p i.

Lemma kernel_prio_range t i : tbl_ok t -> 0 <= kernel_prio t i <= 15.
Proof.
  intros [Hb _]. unfold kernel_prio, prio_of, att_get.
  change CGPT_ATTRIBUTE_PRIORITY_MASK with (Z.ones 4). rewrite Z.land_ones by lia.
  change CGPT_ATTRIBUTE_PRIORITY_OFFSET with 0. rewrite Z.shiftr_0_r. lia.
Qed.

Lemma first_key_range t p i : tbl_ok t -> 0 <= first_key t p i <= 15 \/ first_key t p i = 99.
Proof. intros Ht. unfold first_key. pose proof (kernel_prio_range t i Ht). case_match; lia. Qed.

Definition key_values : list Z := 99 :: map Z.of_nat (seq 0 16).

Lemma key_values_spec k : 0 <= k <= 15 \/ k = 99 -> k ∈ key_values.
Proof.
  intros H. apply elem_of_cons. destruct H as [H| ->]; [right|by left].
  apply list_elem_of_fmap. exists (Z.to_nat k). split; [lia|]. apply elem_of_seq. lia.
Qed.

(** Seventeen groups are always enough. *)
Lemma groups_bound key idx l : grouped key idx l -> (forall i, 0 <= key i <= 15 \/ key i = 99) ->
  Z.of_nat (length l) <= 17 /\
  (forall k, 0 <= k <= 15 \/ k = 99 -> k ∉ map gr_priority l -> Z.of_nat (length l) < 17).
Proof.
  intros [D B _] Hk.
  assert (Hsub : forall k, k ∈ map gr_priority l -> k ∈ key_values).
  { intros k (gr & -> & Hin)%list_elem_of_fmap. destruct (B gr Hin) as [E Hne].
    destruct (gr_part gr) as [|i r]; [done|]. assert (Hi : i ∈ bucket key idx (gr_priority gr)) by (rewrite <-E; by left).
    apply list_elem_of_filter in Hi as [<- _]. apply key_values_spec, Hk. }
  assert (Hlen : forall ks : list Z, NoDup ks -> (forall k, k ∈ ks -> k ∈ key_values) -> (length ks <= 17)%nat).
  { intros ks Hd Hs. change 17%nat with (length key_values). apply NoDup_incl_length.
    - by apply NoDup_ListNoDup.
    - intros k. rewrite <-!list_elem_of_In. apply Hs. }
  split.
  - rewrite <-(length_map gr_priority). specialize (Hlen _ D Hsub). lia.
  - intros k Hv Hn. specialize (Hlen (k :: map gr_priority l)). simpl in Hlen. rewrite length_map in Hlen.
    enough (S (length l) <= 17)%nat by lia. apply Hlen; [by apply NoDup_cons|].
    intros k' [->|Hin]%elem_of_cons; [by apply key_values_spec|by apply Hsub].
Qed.

Lemma wp_alloc_parts {B} (Q : outcome B -> world -> Prop) kont n max : forall w, 0 <= max ->
  (forall w', unmoved w w' -> wp Q (kont tt) w') ->
  (forall c w', unmoved w w' -> ~ quiet w -> Q (Exit c) w') ->
  wp Q (bind (alloc_parts n max) kont) w.
Proof.
  induction n as [|n IH]; intros w Hm H1 H2; simpl.
  - apply wp_bind, wp_ret, H1. by split.
  - apply wp_assoc, wp_bind, wp_malloc.
    + intros w' Hu Hq. apply wp_assoc, wp_bind, wp_require; [done|]. intros _. apply H2; [done|].
      intros Hw. specialize (Hq Hw). lia.
    + intros w' Hu _. apply wp_assoc, wp_bind, wp_require; [|done]. intros _.
      apply IH; [done| |].
      * intros w'' Hu'. apply H1. by eapply unmoved_trans.
      * intros c w'' Hu' Hq. apply H2; [by eapply unmoved_trans|]. intros Hw. apply Hq. by apply Hu.
Qed.

Lemma wp_NewGroupList {B} (Q : outcome B -> world -> Prop) kont max w : 0 <= max ->
  (forall w', unmoved w w' -> wp Q (kont (mkGroups max [])) w') ->
  (forall c w', unmoved w w' -> ~ quiet w -> Q (Exit c) w') ->
  wp Q (bind (NewGroupList max) kont) w.
Proof.
  intros Hm H1 H2. unfold NewGroupList. apply wp_assoc, wp_bind, wp_malloc.
  - intros w' Hu Hq. apply wp_assoc, wp_bind, wp_require; [done|]. intros _. apply H2; [done|].
    intros Hw. specialize (Hq Hw). unfold sizeof_group_list_t, MAX_GROUPS in Hq. lia.
  - intros w' Hu _. apply wp_assoc, wp_bind, wp_require; [|done]. intros _.
    apply wp_assoc, wp_alloc_parts; [done| |].
    + intros w'' Hu'. apply wp_bind, wp_ret, H1. by eapply unmoved_trans.
    + intros c w'' Hu' Hq. apply H2; [by eapply unmoved_trans|]. intros Hw. apply Hq. by apply Hu.
Qed.

(** ** Collecting the groups *)

Section Collect.
Context (g : GptData) (p : CgptPrioritizeParams) (Hr : ready g) (Hg : gpt_ok g).
Local Abbreviation t := (primary_entries g).
Local Abbreviation n := (Z.of_nat (length (kernels t all_idx))).

Record collected (idx : list Z) (s : group_list_t * CgptPrioritizeParams) : Prop := {
  cl_max : gl_max_parts s.1 = n;
  cl_groups : grouped (first_key t p) (kernels t idx) (gl_group s.1);
  cl_chosen j : j ∈ kernels t idx -> chosen p j = true -> s.2 = set_orig_priority (kernel_prio t j) p;
  cl_other : (forall j, j ∈ kernels t idx -> chosen p j = false) -> s.2 = p;
  cl_params : s.2 = set_orig_priority (pr_orig_priority s.2) p
}.

Lemma chosen_unique i j : chosen p i = true -> chosen p j = true -> i = j.
Proof using Type. unfold chosen. intros. bprop. lia. Qed.

Lemma wp_add_kernel {B} (Q : outcome B -> world -> Prop) pre i post gl kont w :
  all_idx = pre ++ i :: post -> kernel_at t i = true ->
  gl_max_parts gl = n -> grouped (first_key t p) (kernels t pre) (gl_group gl) ->
  (forall gl', gl_max_parts gl' = n ->
     grouped (first_key t p) (kernels t (pre ++ [i])) (gl_group gl') -> wp Q (kont gl') w) ->
  wp Q (bind (AddToGroup gl (first_key t p i) i) kont) w.
Proof using Hg.
  intros Hall Hk Hmax Hgr Hkont. unfold AddToGroup. pose proof (ok_e1 g Hg) as Ht.
  assert (Hroom : (length (kernels t pre) < length (kernels t all_idx))%nat).
  { rewrite Hall. unfold kernels. rewrite filter_app, filter_cons, decide_True by done.
    rewrite length_app. simpl. lia. }
  destruct (groups_bound _ _ _ Hgr (fun j => first_key_range t p j Ht)) as [_ Hb].
  apply wp_assoc, wp_add_to_group.
  - intros gr Hin _. destruct (gp_bucket _ _ _ Hgr gr Hin) as [-> _]. rewrite Hmax.
    assert (length (bucket (first_key t p) (kernels t pre) (gr_priority gr)) <= length (kernels t pre))%nat
      by apply length_filter.
    lia.
  - rewrite Hmax. lia.
  - intros Hn. specialize (Hb _ (first_key_range t p i Ht) Hn). lia.
  - apply wp_bind, wp_ret, Hkont; [done|]. rewrite kernels_snoc, Hk. by apply grouped_add.
Qed.

Lemma wp_collect_groups {B} (Q : outcome B -> world -> Prop) kont w :
  (forall s, collected all_idx s -> wp Q (kont s) w) ->
  wp Q (bind (collect_groups g 128 p (mkGroups n [])) kont) w.
Proof using Hr Hg.
  intros Hkont. unfold collect_groups. change (indices 128) with all_idx. 
  eapply (wp_for_entries _ (fun idx s w' => w' = w /\ collected idx s));
    [by apply ready_gets|exact all_idx_range| | |by intros a' w' [-> ?]; apply Hkont].
  2:{ split; [done|]. split; cbn [fst snd gl_max_parts gl_group]; [done| |by intros ? ?%elem_of_nil|done|by destruct p].
      split; [apply NoDup_nil_2|by intros ? ?%elem_of_nil|by intros ? ?%elem_of_nil]. }
  intros pre i post [gl p'] k w' Hall [-> [C1 C2 C3 C4 C5]] Hk. cbn [fst snd] in *.
  change (is_kernel g (entry_at (Z.to_nat i))) with (kernel_at t i).
  destruct (kernel_at t i) eqn:Ek; cbn [negb].
  2:{ apply wp_bind, wp_ret, Hk. split; [done|]. split; cbn [fst snd]; rewrite ?kernels_snoc, ?Ek, ?app_nil_r; done. }
  assert (Hi : 0 <= i < 128) by (apply all_idx_spec; rewrite Hall; apply elem_of_app; right; by left).
  unfold GetPriority. apply wp_assoc, wp_assoc.
  replace i with (Z.of_nat (Z.to_nat i)) at 1 by lia. apply wp_GetEntry; [done|lia|].
  apply wp_bind, wp_ret. cbn [entry_at ep_off ep_table ep_secondary].
  fold (prio_of t (Z.to_nat i)). fold (kernel_prio t i).
  assert (E1 : pr_set_partition p' = pr_set_partition p) by (by rewrite C5).
  assert (E2 : pr_set_friends p' = pr_set_friends p) by (by rewrite C5).
  rewrite E1. fold (chosen p i). destruct (chosen p i) eqn:Ec.
  - apply wp_assoc. cbn [pr_set_friends set_orig_priority]. rewrite E2.
    replace (if pr_set_friends p then kernel_prio t i else 99) with (first_key t p i)
      by (unfold first_key; rewrite Ec; by destruct (pr_set_friends p)).
    eapply wp_add_kernel; [exact Hall|done|done|done|]. intros gl' G1 G2.
    apply wp_bind, wp_ret, Hk. assert (Ep : set_orig_priority (kernel_prio t i) p' = set_orig_priority (kernel_prio t i) p)
      by (rewrite C5; done).
    split; [done|]. split; cbn [fst snd]; [done|done| | |by rewrite Ep].
    + intros j Hj Hcj. by rewrite (chosen_unique j i Hcj Ec).
    + intros Hn. specialize (Hn i). rewrite Ec in Hn. discriminate Hn.
      rewrite kernels_snoc, Ek. apply elem_of_app. right. by left.
  - apply wp_assoc.
    replace (kernel_prio t i) with (first_key t p i) by (unfold first_key; by rewrite Ec).
    eapply wp_add_kernel; [exact Hall|done|done|done|]. intros gl' G1 G2.
    apply wp_bind, wp_ret, Hk. split; [done|]. split; cbn [fst snd]; [done|done| | |done].
    + intros j Hj Hcj. rewrite kernels_snoc, Ek in Hj.
      apply elem_of_app in Hj as [Hj|Hj%list_elem_of_singleton]; [by apply C3|congruence].
    + intros Hn. apply C4. intros j Hj. apply Hn. rewrite kernels_snoc, Ek.
      apply elem_of_app. by left.
Qed.
End Collect.

(** ** The new ranking *)

Lemma grouped_ext key key' idx l : (forall i, key i = key' i) -> grouped key idx l -> grouped key' idx l.
Proof.
  intros E [D B A]. split; [done| |].
  - intros gr Hin. destruct (B gr Hin) as [-> Hne]. split; [|done].
    unfold bucket. apply list_filter_iff. intros i. by rewrite E.
  - intros i Hi. rewrite <-E. by apply A.
Qed.

Lemma final_key_range t p i : tbl_ok t -> 0 <= final_key t p i <= 15 \/ final_key t p i = 99.
Proof.
  intros Ht. unfold final_key, rekey. case_match; [|by apply first_key_range].
  pose proof (kernel_prio_range t i Ht). case_match; lia.
Qed.

(** A request the command accepts. *)
Record prioritize_ok (t : bytes) (p : CgptPrioritizeParams) : Prop := {
  po_chosen : pr_set_partition p <> 0 ->
    1 <= pr_set_partition p <= 128 /\ kernel_at t (pr_set_partition p - 1) = true;
  po_max : 0 <= pr_max_priority p <= 15
}.

Definition start_priority (p : CgptPrioritizeParams) (n : Z) : Z :=
  if truthy (pr_max_priority p) then pr_max_priority p else if 15 <? n then 15 else n.

(** The kernels that get a new priority. *)
Definition moving (t : bytes) (p : CgptPrioritizeParams) : list Z :=
  filter (fun i => 0 < final_key t p i) (kernels t all_idx).

Lemma drop_zero_group_eq {B} (Q : outcome B -> world -> Prop) kont max l w : l <> [] ->
  wp Q (kont (mkGroups max (without_zero l))) w -> wp Q (bind (drop_zero_group (mkGroups max l)) kont) w.
Proof.
  intros Hl H. unfold drop_zero_group, without_zero in *. cbn [gl_group gl_max_parts].
  destruct (last l) as [gr|] eqn:E; [|by apply last_None in E].
  apply wp_bind, wp_ret. by destruct (gr_priority gr =? 0).
Qed.

Section Rank.
Context (g : GptData) (p : CgptPrioritizeParams) (Hr : ready g) (Hg : gpt_ok g).
Context (Hp : prioritize_ok (primary_entries g) p) (Hne : kernels (primary_entries g) all_idx <> []).
Local Abbreviation t := (primary_entries g).
Local Abbreviation n := (Z.of_nat (length (kernels t all_idx))).

(** After [ChangeGroup] the groups follow the final key. *)
Lemma changed_groups gl p' : collected g p all_idx (gl, p') ->
  let gl' := if truthy (pr_set_partition p') && pr_set_friends p'
             then ChangeGroup gl (u32 (pr_orig_priority p')) 99 else gl in
  grouped (final_key t p) (kernels t all_idx) (gl_group gl').
Proof using Hg Hp.
  intros [C1 C2 C3 C4 C5]. cbn [fst snd] in *. pose proof (ok_e1 g Hg) as Ht.
  assert (E1 : pr_set_partition p' = pr_set_partition p) by (by rewrite C5).
  assert (E2 : pr_set_friends p' = pr_set_friends p) by (by rewrite C5).
  rewrite E1, E2. cbv zeta. destruct (truthy (pr_set_partition p) && pr_set_friends p) eqn:Ef.
  2:{ eapply grouped_ext; [|exact C2]. intros i. unfold final_key. by rewrite Ef. }
  apply andb_true_iff in Ef as [Es Ef]. set (c := pr_set_partition p - 1).
  assert (Hc : c ∈ kernels t all_idx /\ chosen p c = true).
  { pose proof Es as Es'. apply truthy_true in Es'. destruct (po_chosen _ _ Hp Es') as [Hrange Hk].
    split; [apply list_elem_of_filter; split; [done|apply all_idx_spec; lia]|].
    unfold chosen. rewrite Es. simpl. subst c. apply Z.eqb_eq. lia. }
  destruct Hc as [Hc1 Hc2]. rewrite (C3 c Hc1 Hc2). cbn [pr_orig_priority set_orig_priority].
  pose proof (kernel_prio_range t c Ht). unfold u32. rewrite Z.mod_small by lia.
  assert (Ekey : forall i, first_key t p i = kernel_prio t i).
  { intros i. unfold first_key. rewrite Ef. by rewrite andb_false_r. }
  apply (grouped_ext _ _ _ _ Ekey) in C2.
  apply (grouped_ext (rekey (kernel_prio t c) 99 (kernel_prio t))).
  { intros i. unfold final_key. by rewrite Es, Ef. }
  apply grouped_change; [|exact C2].
  intros (gr & E & Hin)%list_elem_of_fmap. destruct (gp_bucket _ _ _ C2 gr Hin) as [Eb Hn].
  destruct (gr_part gr) as [|i r]; [done|].
  assert (Hi : i ∈ bucket (kernel_prio t) (kernels t all_idx) (gr_priority gr)) by (rewrite <-Eb; by left).
  apply list_elem_of_filter in Hi as [Ek _]. pose proof (kernel_prio_range t i Ht). lia.
Qed.

Lemma wp_rank_kernels {B} (Q : outcome B -> world -> Prop) kont w :
  (forall l orig w', unmoved w w' -> grouped (final_key t p) (moving t p) l -> ranked l ->
     wp Q (kont (with_table g (foldl assign t
       (assignments (deal_priorities (start_priority p (Z.of_nat (length l))) l))),
       set_orig_priority orig p)) w') ->
  (forall c w', unmoved w w' -> ~ quiet w -> Q (Exit c) w') ->
  wp Q (bind (rank_kernels g 128 n p) kont) w.
Proof using All.
  intros Hk Hx. unfold rank_kernels. pose proof (ok_e1 g Hg) as Ht.
  apply wp_assoc, wp_NewGroupList; [lia| |done]. intros w' Hu.
  apply wp_assoc, wp_collect_groups; [done|done|]. intros [gl p'] Hc.
  pose proof (changed_groups gl p' Hc) as Hgl. cbv zeta in Hgl |- *. destruct Hc as [_ _ _ _ C5].
  cbn [snd] in C5. set (gl1 := if truthy _ && _ then _ else gl) in *.
  destruct (SortGroups_sorts _ _ _ Hgl) as (S1 & S2 & S3 & S4).
  set (gl2 := SortGroups gl1) in *. destruct gl2 as [max l2] eqn:El2. cbn [gl_group gl_max_parts] in *.
  apply wp_assoc, drop_zero_group_eq.
  { intros ->. destruct (kernels t all_idx) as [|i r]; [done|].
    assert (Hi : i ∈ i :: r) by (by left). apply (gp_all _ _ _ S2) in Hi. by apply elem_of_nil in Hi. }
  assert (Hpos : forall i, 0 <= final_key t p i) by (intros i; destruct (final_key_range t p i Ht); lia).
  pose proof (without_zero_grouped _ _ _ S3 S2 Hpos) as G. fold (moving t p) in G.
  pose proof (without_zero_ranked _ S3) as R. set (l := without_zero l2) in *.
  unfold num_groups. cbn [gl_group].
  replace (pr_max_priority p') with (pr_max_priority p) by (by rewrite C5).
  fold (start_priority p (Z.of_nat (length l))).
  apply wp_assoc, wp_apply_ranking; [done|done| |].
  2:{ apply wp_bind, wp_ret. rewrite C5. by apply Hk. }
  apply Forall_forall. intros [i v] Hin. unfold assignments in Hin.
  apply list_elem_of_In, in_concat in Hin as (row & Hrow & Hin).
  apply list_elem_of_In, list_elem_of_fmap in Hrow as (gr' & -> & Hgr').
  apply list_elem_of_In, list_elem_of_fmap in Hin as (i' & [= -> ->] & Hi').
  apply list_elem_of_lookup in Hgr' as [k Hk'].
  assert (Hlt : (k < length l)%nat) by (apply lookup_lt_Some in Hk'; by rewrite length_deal in Hk').
  destruct (lookup_lt_is_Some_2 _ _ Hlt) as [gr Egr].
  assert (HP : 1 <= start_priority p (Z.of_nat (length l)) <= 15).
  { pose proof (po_max _ _ Hp). unfold start_priority. destruct (truthy (pr_max_priority p)) eqn:Em.
    - apply truthy_true in Em. lia.
    - case_match; bprop; lia. }
  rewrite (deal_priorities_lookup (start_priority p (Z.of_nat (length l))) l k gr ltac:(lia) Egr) in Hk'. injection Hk' as <-.
  cbn [gr_part gr_priority] in *. destruct (in_group _ _ _ G k gr i' Egr Hi') as [Hm _].
  apply list_elem_of_filter in Hm as [_ Hm]. apply list_elem_of_filter in Hm as [_ Hm%all_idx_spec].
  split; cbn [fst snd]; lia.
Qed.
End Rank.

(** ** What a new ranking means *)

(** The number of distinct keys among the partitions that move. *)
Definition levels (t : bytes) (p : CgptPrioritizeParams) : Z :=
  Z.of_nat (length (remove_dups (map (final_key t p) (moving t p)))).

Definition top_priority (t : bytes) (p : CgptPrioritizeParams) : Z := start_priority p (levels t p).

(** [t'] is [t] with new priorities: only priority bits of moving partitions change, the new
    priorities follow the order of the keys, and the highest key gets the top priority. *)
Record reprioritized (p : CgptPrioritizeParams) (t t' : bytes) : Prop := {
  rp_ok : tbl_ok t';
  rp_other k : ~ att_byte k -> t' !! k = t !! k;
  rp_still i : (i < 128)%nat -> Z.of_nat i ∉ moving t p ->
    e_gpt_att (entry_off i) t' = e_gpt_att (entry_off i) t;
  rp_bits i : (i < 128)%nat -> Z.of_nat i ∈ moving t p ->
    e_gpt_att (entry_off i) t' = prio_put (prio_of t' i) (e_gpt_att (entry_off i) t);
  rp_range i : i ∈ moving t p -> 1 <= kernel_prio t' i <= top_priority t p;
  rp_order i j : i ∈ moving t p -> j ∈ moving t p ->
    final_key t p i <= final_key t p j -> kernel_prio t' i <= kernel_prio t' j;
  rp_strict i j : levels t p <= top_priority t p -> i ∈ moving t p -> j ∈ moving t p ->
    final_key t p i < final_key t p j -> kernel_prio t' i < kernel_prio t' j;
  rp_top i : i ∈ moving t p -> (forall j, j ∈ moving t p -> final_key t p j <= final_key t p i) ->
    kernel_prio t' i = top_priority t p
}.

Lemma moving_range t p i : i ∈ moving t p -> 0 <= i < 128.
Proof. intros [_ H]%list_elem_of_filter. apply list_elem_of_filter in H as [_ H]. by apply all_idx_spec. Qed.

Lemma moving_nodup t p : NoDup (moving t p).
Proof. apply NoDup_filter, NoDup_filter, all_idx_nodup. Qed.

Lemma assignments_fst P l : map fst (assignments (deal_priorities P l)) = concat (map gr_part l).
Proof.
  unfold assignments. revert P. induction l as [|gr l IH]; intros P; [done|].
  cbn [deal_priorities map concat gr_part gr_priority]. rewrite map_app, IH, map_map, map_id. done.
Qed.

Section Ranking.
Context (t : bytes) (p : CgptPrioritizeParams) (l : list group_t) (P : Z).
Context (Ht : tbl_ok t) (Hg : grouped (final_key t p) (moving t p) l) (Hr : ranked l).
Context (HP : P = start_priority p (Z.of_nat (length l))) (Hmax : 0 <= pr_max_priority p <= 15).

Lemma start_range : l <> [] -> 1 <= P <= 15.
Proof using HP Hmax.
  intros Hl. clear Hg Hr. rewrite HP. unfold start_priority. destruct l as [|gr r]; [done|]. cbn [length].
  destruct (truthy (pr_max_priority p)) eqn:Em; [apply truthy_true in Em; lia|]. case_match; bprop; lia.
Qed.

Lemma deal_in k gr i : l !! k = Some gr -> i ∈ gr_part gr ->
  (i, Z.max 1 (P - Z.of_nat k)) ∈ assignments (deal_priorities P l).
Proof using All.
  intros Hk Hi. assert (Hl : l <> []) by (by intros ->). pose proof (start_range Hl).
  unfold assignments. apply list_elem_of_In, in_concat.
  eexists. split; [|apply list_elem_of_In, (list_elem_of_fmap_2 (fun i => (i, Z.max 1 (P - Z.of_nat k)))); exact Hi].
  apply list_elem_of_In, list_elem_of_fmap. exists (mkGroup (Z.max 1 (P - Z.of_nat k)) (gr_part gr)). split; [done|].
  apply list_elem_of_lookup. exists k. by rewrite (deal_priorities_lookup P l k gr ltac:(lia) Hk).
Qed.

Lemma deal_assignable : Forall assignable (assignments (deal_priorities P l)).
Proof using All.
  apply Forall_forall. intros [i v] Hin. unfold assignments in Hin.
  apply list_elem_of_In, in_concat in Hin as (row & Hrow & Hin).
  apply list_elem_of_In, list_elem_of_fmap in Hrow as (gr' & -> & Hgr').
  apply list_elem_of_In, list_elem_of_fmap in Hin as (i' & [= -> ->] & Hi').
  apply list_elem_of_lookup in Hgr' as [k Hk'].
  assert (Hlt : (k < length l)%nat) by (apply lookup_lt_Some in Hk'; by rewrite length_deal in Hk').
  destruct (lookup_lt_is_Some_2 _ _ Hlt) as [gr Egr].
  pose proof (start_range ltac:(by intros ->)).
  rewrite (deal_priorities_lookup P l k gr ltac:(lia) Egr) in Hk'. injection Hk' as <-.
  cbn [gr_part gr_priority] in *. destruct (in_group _ _ _ Hg k gr i' Egr Hi') as [Hm%moving_range _].
  split; cbn [fst snd]; lia.
Qed.

Local Abbreviation t' := (foldl assign t (assignments (deal_priorities P l))).

Lemma ranking_value i : i ∈ moving t p -> exists k gr, l !! k = Some gr /\
  gr_priority gr = final_key t p i /\ kernel_prio t' i = Z.max 1 (P - Z.of_nat k) /\
  e_gpt_att (entry_off (Z.to_nat i)) t' =
    prio_put (Z.max 1 (P - Z.of_nat k)) (e_gpt_att (entry_off (Z.to_nat i)) t).
Proof using All.
  intros Hi. destruct (group_of _ _ _ Hg i Hi) as (k & gr & Hk & Ek & Hin).
  exists k, gr. split; [done|]. split; [done|]. pose proof (moving_range _ _ _ Hi) as Hr'.
  destruct (foldl_assign _ t deal_assignable Ht) as [A1 _ _ A4 _].
  assert (Hv : (Z.of_nat (Z.to_nat i), Z.max 1 (P - Z.of_nat k)) ∈ assignments (deal_priorities P l))
    by (rewrite Z2Nat.id by lia; by eapply deal_in).
  assert (Hn : NoDup (map fst (assignments (deal_priorities P l))))
    by (rewrite assignments_fst; apply (parts_nodup _ _ _ Hg), moving_nodup).
  specialize (A4 (Z.to_nat i) _ Hn ltac:(lia) Hv). split; [|exact A4].
  unfold kernel_prio, prio_of, att_get. rewrite A4. unfold prio_put.
  pose proof (start_range ltac:(by intros ->)).
  eapply att_put_get; [by apply att_priority|]. change CGPT_ATTRIBUTE_MAX_PRIORITY with 15. lia.
Qed.

Lemma ranking_reprioritized : reprioritized p t t' /\
  (forall first last, table_wf t first last -> table_wf t' first last).
Proof using All.
  destruct (foldl_assign _ t deal_assignable Ht) as [A1 A2 A3 _ A5]. split; [|done].
  assert (HL : levels t p = Z.of_nat (length l)) by (unfold levels; by rewrite <-(num_levels _ _ _ Hg)).
  assert (HT : top_priority t p = P) by (unfold top_priority; by rewrite HL).
  split; rewrite ?HT.
  - done.
  - done.
  - intros i Hi Hn. apply A5; [done|]. rewrite assignments_fst. intros Hc.
    apply list_elem_of_In, in_concat in Hc as (part & Hp' & Hi').
    apply list_elem_of_In, list_elem_of_fmap in Hp' as (gr & -> & Hin). apply list_elem_of_In in Hi'.
    apply list_elem_of_lookup in Hin as [k Hk]. apply Hn. by eapply in_group.
  - intros i Hi Hm. destruct (ranking_value _ Hm) as (k & gr & _ & _ & E1 & E2).
    unfold kernel_prio in E1. rewrite Nat2Z.id in E1, E2. by rewrite E1.
  - intros i Hi. destruct (ranking_value i Hi) as (k & gr & Hk & _ & -> & _).
    pose proof (start_range ltac:(by intros ->)). lia.
  - intros i j Hi Hj Hle. destruct (ranking_value i Hi) as (k & gr & Hk & E & -> & _).
    destruct (ranking_value j Hj) as (k' & gr' & Hk' & E' & -> & _).
    pose proof (rank_le _ Hr k k' gr gr' Hk Hk' ltac:(lia)). lia.
  - intros i j Hlev Hi Hj Hlt. destruct (ranking_value i Hi) as (k & gr & Hk & E & -> & _).
    destruct (ranking_value j Hj) as (k' & gr' & Hk' & E' & -> & _).
    pose proof (rank_lt _ Hr k k' gr gr' Hk Hk' ltac:(lia)).
    apply lookup_lt_Some in Hk. lia.
  - intros i Hi Hmaxi. destruct (ranking_value i Hi) as (k & gr & Hk & E & -> & _).
    pose proof (start_range ltac:(by intros ->)).
    destruct k as [|k]; [lia|]. exfalso.
    destruct l as [|g0 r] eqn:El; [done|]. destruct (gp_bucket _ _ _ Hg g0 ltac:(by left)) as [Eb Hne].
    destruct (gr_part g0) as [|i0 rest]; [done|].
    assert (H0 : i0 ∈ bucket (final_key t p) (moving t p) (gr_priority g0)) by (rewrite <-Eb; by left).
    apply list_elem_of_filter in H0 as [K0 H0]. specialize (Hmaxi i0 H0).
    pose proof (Hr 0%nat (S k) g0 gr ltac:(lia) eq_refl Hk). lia.
Qed.
End Ranking.

(** ** The command *)

Definition prioritize_result (p : CgptPrioritizeParams) (f : file) (w : world)
    (r : Z * option CgptPrioritizeParams) (data' : bytes) : Prop :=
  let t := primary_entries (disk_gpt (f_data f)) in
  (exists orig, r = (CGPT_OK, Some (set_orig_priority orig p)) /\ valid_disk data' /\
     reprioritized p t (primary_entries (disk_gpt data'))) \/
  (exists p', r = (CGPT_FAILED, p')) /\ ~ quiet w.

Lemma valid_disk_checked data : valid_disk data ->
  exists g, GptSanityCheck (disk_gpt data) = (GPT_SUCCESS, g) /\ not_both g = false.
Proof.
  unfold valid_disk. destruct (GptSanityCheck (disk_gpt data)) as [r g]. cbn [fst snd].
  intros (-> & E1 & E2). exists g. split; [done|]. unfold not_both. by rewrite E1, E2.
Qed.

Section Command.
Context (f : file) (w : world) (p : CgptPrioritizeParams).
Context (Hd : drive_file w (pr_drive_name p) f) (Hord : ordinary (f_data f)).
Context (d : drive) (w1 : world) (Hos : open_state (d_fd d) (pr_drive_name p) O_RDWR w w1).
Context (g : GptData) (Ec : GptSanityCheck (disk_gpt (f_data f)) = (GPT_SUCCESS, g)).
Context (Eb : not_both g = false) (Hp : prioritize_ok (primary_entries g) p).
Local Abbreviation t := (primary_entries g).
Local Abbreviation post := (command_post (pr_drive_name p) f w (prioritize_result p f w)).

(** Writing a ranked table back. *)
Lemma wp_finish_ranking l orig w2 :
  session (d_fd d) (pr_drive_name p) true true w1 w2 ->
  grouped (final_key t p) (moving t p) l -> ranked l ->
  wp post (let! (r, _) := DriveClose (set_gpt (commit (with_table g (foldl assign t (assignments
      (deal_priorities (start_priority p (Z.of_nat (length l))) l))))) d) true in
    ret (r, Some (set_orig_priority orig p))) w2.
Proof using All.
  intros Hs Hgr Hrk. pose proof (df_disk _ _ _ Hd) as Hdisk.
  destruct (checked_table _ _ Hdisk Ec Eb) as (Hr & Hok & Hm & Hz & Hds & Ht & Hw & Hwf).
  destruct (ranking_reprioritized t p l _ (ok_e1 g Hok) Hgr Hrk eq_refl (po_max _ _ Hp)) as [Hrp Hwf'].
  set (g' := with_table g _). assert (Hok' : gpt_ok g') by (apply with_table_ok; [done|apply Hrp]).
  destruct (commit_written g' (f_data f)) as [Hval Hent]; [done|done|done|done|done|by apply Hw|by apply Hwf'|].
  destruct (commit_frame g') as (F1 & F2 & _).
  eapply (wp_write_drive _ _ _ Hd (fun r => (r, Some (set_orig_priority orig p))));
    [|exact Hos|exact Hs|by apply commit_ok| | | |]; [done|..]; cbn [d_gpt set_gpt].
  - by rewrite F1.
  - by rewrite F2.
  - left. exists orig. split; [done|]. split; [done|]. rewrite Hent, <-Ht. exact Hrp.
  - intros data' Hq. right. eauto.
Qed.
End Command.


(** when the check rejects the table, [cgpt_prioritize] returns without closing the drive: it
    reports failure and leaves one more descriptor open than it found. *)
Theorem cgpt_prioritize_leaks_descriptor path f w p :
  drive_file w path f -> pr_drive_name p = path -> quiet w ->
  (GptSanityCheck (disk_gpt (f_data f))).1 <> GPT_SUCCESS ->
  wp (fun o w' => o = Ret (CGPT_FAILED, Some p) /\ w_files w' = w_files w /\
        exists fd, w_fds w !! fd = None /\ is_Some (w_fds w' !! fd))
     (cgpt_prioritize (Some p)) w.
Proof.
  intros Hd <- Hq Hbad. unfold cgpt_prioritize.
  eapply wp_open_drive; [exact Hd|done..| | |]; [|by intros ?????|by intros ????].
  intros d w1 w2 Hos Hs Hg _. change (negb (CGPT_OK =? CGPT_OK)) with false. cbv iota. rewrite Hg.
  destruct (GptSanityCheck (disk_gpt (f_data f))) as [r g]. cbn [fst] in Hbad.
  destruct (Z.eqb_spec r GPT_SUCCESS); [done|]. cbn [negb]. apply wp_ret.
  split; [done|]. split; [rewrite (se_files _ _ _ _ _ _ Hs); apply Hos|].
  exists (d_fd d). split; [apply Hos|]. destruct (se_open _ _ _ _ _ _ Hs) as (off & _ & ->). eauto.
Qed.
