(* ===== verification/CgptShow.v ===== *)
(** * Listing a partition table (cgpt_show.c)

    Everything the command prints is modelled as the bytes written to the standard output, with
    the conversions of [printf] it uses. *)

From stdpp Require Import base list numbers gmap strings.
From Stdlib Require Import ZArith Lia.
From S2P Require Import Prelude Crc32 GptTypes GptLib Posix Drive CgptCommon Utf GuidStr CgptAdd.

(** ** Lines *)

(** [TITLE_FMT], [GPT_FMT], [GPT_MORE], [PARTITION_FMT] and [PARTITION_MORE] *)
Definition TITLE_FMT (a b c d : bytes) : bytes := pad 12 a ++ pad 12 b ++ pad 8 c ++ str "  " ++ d ++ NL.
Definition GPT_FMT (a b : Z) (c d : bytes) : bytes :=
  pad 12 (fmt_d a) ++ pad 12 (fmt_d b) ++ pad 8 c ++ str "  " ++ d ++ NL.
Definition GPT_MORE : bytes := pad 12 [] ++ pad 12 [] ++ pad 8 [] ++ str "  ".
Definition PARTITION_FMT (a b c : Z) (d : bytes) : bytes :=
  pad 12 (fmt_d a) ++ pad 12 (fmt_d b) ++ pad 8 (fmt_d c) ++ str "  " ++ d ++ NL.
Definition PARTITION_MORE (a b : bytes) : bytes := GPT_MORE ++ a ++ b ++ NL.

(** A helper that may end the process with status 1. *)
Definition lift {A} (o : option A) : M A := match o with Some a => ret a | None => exit 1 end.

(** ** Formatters *)

Definition Uint8To2Chars (t : Z) : Z :=
  let h := Z.shiftr t 4 in
  let l := Z.land t 0xf in
  let h := if 0xA <=? h then h - 0xA + 65 else h + 48 in
  let l := if 0xA <=? l then l - 0xA + 65 else l + 48 in
  Z.shiftl h 8 + l.

Fixpoint raw_dump (memory : bytes) (i size group : Z) : bytes :=
  match memory with
  | [] => []
  | t :: memory =>
      let c2 := Uint8To2Chars t in
      [Z.shiftr c2 8; Z.land c2 0xff] ++
      (if negb (i =? size - 1) && ((i + 1) mod group =? 0) then [45] else []) ++
      raw_dump memory (i + 1) size group
  end.

(** The characters before the terminator. *)
Definition RawDump (memory : bytes) (group : Z) : bytes :=
  [91] ++ raw_dump memory 0 (Z.of_nat (length memory)) group ++ [93].

Definition HeaderDetails (header entries indent : bytes) (raw : bool) : option bytes :=
  let size := h_size_of_entry header * h_number_of_entries header in
  match GuidToStr (h_disk_uuid header) GUID_STRLEN with
  | None => None
  | Some uuid => Some (
      indent ++ str "Sig: " ++
      (if negb raw then [91] ++ h_signature header ++ [93] else RawDump (h_signature header) 1) ++ NL ++
      indent ++ str "Rev: 0x" ++ fmt_x 8 (h_revision header) ++ NL ++
      indent ++ str "Size: " ++ fmt_d (s32 (h_size header)) ++ NL ++
      indent ++ str "Header CRC: 0x" ++ fmt_x 8 (h_header_crc32 header) ++ str " " ++
        (if HeaderCrc header =? h_header_crc32 header then [] else str "(INVALID)") ++ NL ++
      indent ++ str "My LBA: " ++ fmt_d (s64 (h_my_lba header)) ++ NL ++
      indent ++ str "Alternate LBA: " ++ fmt_d (s64 (h_alternate_lba header)) ++ NL ++
      indent ++ str "First LBA: " ++ fmt_d (s64 (h_first_usable_lba header)) ++ NL ++
      indent ++ str "Last LBA: " ++ fmt_d (s64 (h_last_usable_lba header)) ++ NL ++
      indent ++ str "Disk UUID: " ++ c_string uuid ++ NL ++
      indent ++ str "Entries LBA: " ++ fmt_d (s64 (h_entries_lba header)) ++ NL ++
      indent ++ str "Number of entries: " ++ fmt_d (s32 (h_number_of_entries header)) ++ NL ++
      indent ++ str "Size of entry: " ++ fmt_d (s32 (h_size_of_entry header)) ++ NL ++
      indent ++ str "Entries CRC: 0x" ++ fmt_x 8 (h_entries_crc32 header) ++ str " " ++
        (if h_entries_crc32 header =? Crc32 entries (u32 size) then [] else str "INVALID") ++ NL)
  end.

(** The units of a partition name, and the name as UTF-8. *)
Definition name_units (o : nat) (t : bytes) : list Z :=
  map (fun i => getn 2 (2 * i) (e_name o t)) (seq 0 36).

Definition GPT_PARTNAME_LEN : Z := 72.

Definition label_of (o : nat) (t : bytes) (maxoutput : Z) : option (Z * bytes) :=
  UTF16ToUTF8 (name_units o t) 36 maxoutput.

(** [require(snprintf(contents, 256, ...) < 256)] *)
Definition scratch (s : bytes) : option bytes :=
  if Z.of_nat (length s) <? 256 then Some s else None.

Definition EntryDetails (o : nat) (t : bytes) (index : Z) (raw : bool) : option bytes :=
  let size := s32 (u64 (e_ending_lba o t - e_starting_lba o t + 1)) in
  '(_, label) ← label_of o t GPT_PARTNAME_LEN;
  contents ← scratch (str "Label: " ++ [34] ++ c_string label ++ [34]);
  let head := PARTITION_FMT (s32 (e_starting_lba o t)) size (s32 (u32 (index + 1))) contents in
  type_text ← GuidToStr (e_type o t) GUID_STRLEN;
  unique ← GuidToStr (e_unique o t) GUID_STRLEN;
  if negb raw then
    let type :=
      match ResolveType (e_type o t) with
      | Some description => str description
      | None => c_string type_text
      end in
    let head := head ++ PARTITION_MORE (str "Type: ") type ++
                  PARTITION_MORE (str "UUID: ") (c_string unique) in
    if GuidEqual GPT_ENT_TYPE_CHROMEOS_KERNEL (e_type o t) then
      let tries := att_get CGPT_ATTRIBUTE_TRIES_MASK CGPT_ATTRIBUTE_TRIES_OFFSET o t in
      let successful := att_get CGPT_ATTRIBUTE_SUCCESSFUL_MASK CGPT_ATTRIBUTE_SUCCESSFUL_OFFSET o t in
      let priority := att_get CGPT_ATTRIBUTE_PRIORITY_MASK CGPT_ATTRIBUTE_PRIORITY_OFFSET o t in
      contents ← scratch (str "priority=" ++ fmt_d priority ++ str " tries=" ++ fmt_d tries ++
                          str " successful=" ++ fmt_d successful);
      Some (head ++ PARTITION_MORE (str "Attr: ") contents)
    else Some head
  else
    contents ← scratch (str "[" ++ fmt_x 0 (e_gpt_att o t) ++ str "]");
    Some (head ++ PARTITION_MORE (str "Type: ") (c_string type_text) ++
          PARTITION_MORE (str "UUID: ") (c_string unique) ++
          PARTITION_MORE (str "Attr: ") contents).

Definition EntriesDetails (g : GptData) (secondary : Z) (raw : bool) : M bytes :=
  for_entries (GetEntry g secondary) (fun i e out =>
    if IsZero (e_type (ep_off e) (ep_table e g)) then ret out else
    let! s := lift (EntryDetails (ep_off e) (ep_table e g) i raw) in ret (out ++ s))
  (indices (GetNumberOfEntries g)) [].

(** [PMBRToStr], into a buffer of [buflen] bytes. *)
Definition PMBRToStr (pmbr : bytes) (buflen : Z) : option bytes :=
  let fit s := if Z.of_nat (length s) <? buflen then Some s else None in
  if IsZero (p_boot_guid pmbr) then fit (str "PMBR") else
  buf ← GuidToStr (p_boot_guid pmbr) GUID_STRLEN;
  fit (str "PMBR (Boot GUID: " ++ c_string buf ++ str ")").

(** ** The commands *)

Record CgptShowParams := mkShow {
  sh_drive_name : string;
  sh_numeric : bool;
  sh_verbose : bool;
  sh_quick : bool;
  sh_partition : Z;
  sh_single_item : Z;
  sh_debug : bool;
  sh_num_partitions : Z
}.

Definition set_num_partitions (n : Z) (p : CgptShowParams) : CgptShowParams :=
  mkShow (sh_drive_name p) (sh_numeric p) (sh_verbose p) (sh_quick p) (sh_partition p)
    (sh_single_item p) (sh_debug p) n.

Definition cgpt_get_num_non_empty_partitions (params : option CgptShowParams)
    : M (Z * option CgptShowParams) :=
  match params with
  | None => ret (CGPT_FAILED, None)
  | Some p =>
    let! (rc, d) := DriveOpen (sh_drive_name p) O_RDONLY in
    if negb (rc =? CGPT_OK) then ret (CGPT_FAILED, Some p) else
    let '(r, g) := GptSanityCheck (d_gpt d) in
    let d := set_gpt g d in
    if negb (r =? GPT_SUCCESS) then
      DriveClose d false ;; ret (CGPT_FAILED, Some p)
    else
    let! n := for_entries (GetEntry g ANY_VALID) (fun _ e n =>
                ret (if IsZero (e_type (ep_off e) (ep_table e g)) then n else n + 1))
              (indices (GetNumberOfEntries g)) 0 in
    DriveClose d false ;; ret (CGPT_OK, Some (set_num_partitions n p))
  end.

(** One field of one partition: the item is the character of the option. *)
Definition show_item (g : GptData) (index item : Z) (e : entry_ptr) : M bytes :=
  let o := ep_off e in
  let t := ep_table e g in
  if item =? 98 (* b *) then ret (fmt_d (s64 (e_starting_lba o t)) ++ NL)
  else if item =? 115 (* s *) then ret (fmt_d (s64 (u64 (e_ending_lba o t - e_starting_lba o t + 1))) ++ NL)
  else if item =? 116 (* t *) then let! s := lift (GuidToStr (e_type o t) 256) in ret (c_string s ++ NL)
  else if item =? 117 (* u *) then let! s := lift (GuidToStr (e_unique o t) 256) in ret (c_string s ++ NL)
  else if item =? 108 (* l *) then let! (_, s) := lift (label_of o t 256) in ret (c_string s ++ NL)
  else if item =? 83 (* S *) then let! v := GetSuccessful g ANY_VALID index in ret (fmt_d v ++ NL)
  else if item =? 84 (* T *) then let! v := GetTries g ANY_VALID index in ret (fmt_d v ++ NL)
  else if item =? 80 (* P *) then let! v := GetPriority g ANY_VALID index in ret (fmt_d v ++ NL)
  else if item =? 65 (* A *) then ret (str "0x" ++ fmt_x 0 (e_gpt_att o t) ++ NL)
  else ret [].

(** All partitions, one line each. *)
Definition show_quick (g : GptData) (numeric : bool) : M bytes :=
  for_entries (GetEntry g ANY_VALID) (fun i e out =>
    let o := ep_off e in
    let t := ep_table e g in
    if IsZero (e_type o t) then ret out else
    let! type :=
      match (if negb numeric then ResolveType (e_type o t) else None) with
      | Some description => ret (str description)
      | None => let! s := lift (GuidToStr (e_type o t) GUID_STRLEN) in ret (c_string s)
      end in
    ret (out ++ PARTITION_FMT (s32 (e_starting_lba o t))
                  (s32 (u64 (e_ending_lba o t - e_starting_lba o t + 1))) (s32 (u32 (i + 1))) type))
  (indices (GetNumberOfEntries g)) [].

Definition has (mask m : Z) : bool := truthy (Z.land mask m).

(** The whole table, both copies. *)
Definition show_table (g : GptData) (pmbr : bytes) (p : CgptShowParams) : M bytes :=
  let vh := valid_headers g in
  let ve := valid_entries g in
  let invalid (b : bool) := if b then [] else str "INVALID" in
  let! record := lift (PMBRToStr pmbr 256) in
  let! header1 :=
    if sh_debug p || (has vh MASK_PRIMARY && sh_verbose p)
    then lift (HeaderDetails (primary_header g) (primary_entries g) GPT_MORE (sh_numeric p)) else ret [] in
  let! entries1 :=
    if sh_debug p || has ve MASK_PRIMARY
    then EntriesDetails g PRIMARY (sh_numeric p) else ret [] in
  let! entries2 :=
    if sh_debug p || (has ve MASK_SECONDARY &&
         (negb (has ve MASK_PRIMARY) ||
          negb (memeq (Z.to_nat TOTAL_ENTRIES_SIZE) (primary_entries g) (secondary_entries g))))
    then EntriesDetails g SECONDARY (sh_numeric p) else ret [] in
  let! header2 :=
    if sh_debug p || (has vh MASK_SECONDARY &&
         (negb (has vh MASK_PRIMARY) ||
          negb (IsSynonymous (primary_header g) (secondary_header g))) && sh_verbose p)
    then lift (HeaderDetails (secondary_header g) (secondary_entries g) GPT_MORE (sh_numeric p)) else ret [] in
  ret (TITLE_FMT (str "start") (str "size") (str "part") (str "contents") ++
    GPT_FMT 0 GPT_PMBR_SECTOR [] record ++
    GPT_FMT GPT_PMBR_SECTOR GPT_HEADER_SECTOR (invalid (has vh MASK_PRIMARY)) (str "Pri GPT header") ++
    header1 ++
    GPT_FMT (GPT_PMBR_SECTOR + GPT_HEADER_SECTOR) GPT_ENTRIES_SECTORS
      (invalid (has ve MASK_PRIMARY)) (str "Pri GPT table") ++
    entries1 ++
    GPT_FMT (s32 (u64 (drive_sectors g - GPT_HEADER_SECTOR - GPT_ENTRIES_SECTORS))) GPT_ENTRIES_SECTORS
      (invalid (has ve MASK_SECONDARY)) (str "Sec GPT table") ++
    entries2 ++
    (if has vh MASK_SECONDARY
     then GPT_FMT (s32 (u64 (drive_sectors g - GPT_HEADER_SECTOR))) GPT_HEADER_SECTOR [] (str "Sec GPT header")
     else GPT_FMT GPT_PMBR_SECTOR GPT_HEADER_SECTOR (str "INVALID") (str "Sec GPT header")) ++
    header2).

(** The return value and what is printed.  Three failures return without closing the drive. *)
Definition cgpt_show (params : option CgptShowParams) : M (Z * bytes) :=
  match params with
  | None => ret (CGPT_FAILED, [])
  | Some p =>
    let! (rc, d) := DriveOpen (sh_drive_name p) O_RDONLY in
    if negb (rc =? CGPT_OK) then ret (CGPT_FAILED, []) else
    let '(r, g) := GptSanityCheck (d_gpt d) in
    let d := set_gpt g d in
    if negb (r =? GPT_SUCCESS) then ret (CGPT_FAILED, []) else
    let finish out := DriveClose d false ;; ret (CGPT_OK, out) in
    if truthy (sh_partition p) then
      if GetNumberOfEntries g <? sh_partition p then ret (CGPT_FAILED, []) else
      let index := sh_partition p - 1 in
      let! e := GetEntry g ANY_VALID index in
      let! out :=
        if truthy (sh_single_item p) then show_item g index (sh_single_item p) e
        else
          let! s := lift (EntryDetails (ep_off e) (ep_table e g) index (sh_numeric p)) in
          ret (TITLE_FMT (str "start") (str "size") (str "part") (str "contents") ++ s) in
      finish out
    else if sh_quick p then
      let! out := show_quick g (sh_numeric p) in finish out
    else
      let! (r, d') := ReadPMBR d in
      if negb (r =? CGPT_OK) then ret (CGPT_FAILED, []) else
      let! out := show_table g (d_pmbr d') p in finish out
  end.
