(* ===== verification/CgptBoot.v ===== *)
(** * The boot record (cgpt_boot.c)

    Choosing the partition that boots, installing boot code, and finding the chosen partition. *)

From stdpp Require Import base list numbers gmap strings.
From Stdlib Require Import ZArith Lia.
From S2P Require Import Prelude GptTypes GptLib Posix Drive CgptCommon Utf GuidStr CgptAdd CgptShow.

Record CgptBootParams := mkBoot {
  bo_drive_name : string;
  bo_partition : Z;
  bo_bootfile : option string;
  bo_create_pmbr : bool
}.

Definition set_boot_partition (n : Z) (p : CgptBootParams) : CgptBootParams :=
  mkBoot (bo_drive_name p) n (bo_bootfile p) (bo_create_pmbr p).

Definition cgpt_get_boot_partition_number (params : option CgptBootParams)
    : M (Z * option CgptBootParams) :=
  match params with
  | None => ret (CGPT_FAILED, None)
  | Some p =>
    let! (rc, d) := DriveOpen (bo_drive_name p) O_RDONLY in
    if negb (rc =? CGPT_OK) then ret (CGPT_FAILED, Some p) else
    let '(r, g) := GptSanityCheck (d_gpt d) in
    let d := set_gpt g d in
    let done_ d rc p := DriveClose d true ;; ret (rc, Some p) in
    if negb (r =? GPT_SUCCESS) then done_ d CGPT_FAILED p else
    let! (r, d) := ReadPMBR d in
    if negb (r =? CGPT_OK) then done_ d CGPT_FAILED p else
    let! _ := lift (GuidToStr (p_boot_guid (d_pmbr d)) GUID_STRLEN) in
    let! found := find_entry (GetEntry g ANY_VALID)
      (fun e => GuidEqual (e_unique (ep_off e) (ep_table e g)) (p_boot_guid (d_pmbr d)))
      (indices (s32 (GetNumberOfEntries g))) in
    match found with
    | Some (i, _) => done_ d CGPT_OK (set_boot_partition (i + 1) p)
    | None => done_ d CGPT_FAILED (set_boot_partition 0 p)
    end
  end.

(** A protective partition over the whole drive. *)
Definition protective_pmbr (drive_sectors : Z) (p : bytes) : bytes :=
  let p := set_p_magic 0x1d 0x9a p in
  let p := set_p_sig 0x55 0xaa p in
  let max := if drive_sectors <? 0xffffffff then u32 (drive_sectors - 1) else 0xffffffff in
  set_p_part (legacy_partition 0 0x00 0x02 0x00 0xee 0xff 0xff 0xff 1 max ++ replicate 48 0) p.

Definition sizeof_bootcode : Z := 424.

(** The boot code: [None] when the file cannot be read. *)
Definition read_bootfile (bootfile : string) : M (option bytes) :=
  let! fd := sys_open bootfile O_RDONLY in
  if fd <? 0 then ret None else
  let! (n, b) := sys_read fd sizeof_bootcode in
  sys_close fd ;;
  if n <? 1 then ret None else ret (Some b).

(** The return value and the identifier printed. *)
Definition cgpt_boot (params : option CgptBootParams) : M (Z * option bytes) :=
  match params with
  | None => ret (CGPT_FAILED, None)
  | Some p =>
    let writes := bo_create_pmbr p || truthy (bo_partition p) ||
                  (match bo_bootfile p with Some _ => true | None => false end) in
    let! (rc, d) := DriveOpen (bo_drive_name p) (if writes then O_RDWR else O_RDONLY) in
    if negb (rc =? CGPT_OK) then ret (CGPT_FAILED, None) else
    let done_ d rc out := DriveClose d true ;; ret (rc, out) in
    let! (r, d) := ReadPMBR d in
    if negb (r =? CGPT_OK) then done_ d 1 None else
    let d := if bo_create_pmbr p
             then set_pmbr (protective_pmbr (drive_sectors (d_gpt d)) (d_pmbr d)) d else d in
    let! (ok, d) :=
      if truthy (bo_partition p) then
        let '(r, g) := GptSanityCheck (d_gpt d) in
        let d := set_gpt g d in
        if negb (r =? GPT_SUCCESS) then ret (false, d) else
        if GetNumberOfEntries g <? bo_partition p then ret (false, d) else
        let! e := GetEntry g ANY_VALID (bo_partition p - 1) in
        ret (true, set_pmbr (set_p_boot_guid (e_unique (ep_off e) (ep_table e g)) (d_pmbr d)) d)
      else ret (true, d) in
    if negb ok then done_ d 1 None else
    let! (ok, d) :=
      match bo_bootfile p with
      | None => ret (true, d)
      | Some bootfile =>
          let! code := read_bootfile bootfile in
          match code with
          | None => ret (false, d)
          | Some b => ret (true, set_pmbr (set_p_bootcode b (d_pmbr d)) d)
          end
      end in
    if negb ok then done_ d 1 None else
    let! s := lift (GuidToStr (p_boot_guid (d_pmbr d)) GUID_STRLEN) in
    let! r := if writes then WritePMBR d else ret CGPT_OK in
    done_ d (if r =? CGPT_OK then 0 else 1) (Some (c_string s ++ NL))
  end.
