(* ===== verification/CLib.v ===== *)
(** * More of the C library

    [fopen], [fread], [fwrite], [fseek], [ftell] and [fclose] over the system calls of [Posix].  A
    stream is not buffered here: each operation is one event of the schedule, and a transfer that the
    schedule cuts short is repeated by the library, so only the end of the file or an error ends it
    early.  Converting text to numbers, splitting text, lines of streams and two more calls about
    files, as far as the programs use them; and [getopt] without permutation, as in bionic.
    [unsigned long] has 32 bits.  Text is a list of characters without its terminator. *)

From stdpp Require Import base list numbers gmap strings.
From Stdlib Require Import ZArith Lia.
From S2P Require Import Prelude Posix GuidStr.

Record FILE := mkFILE { fl_fd : Z; fl_eof : bool; fl_err : bool }.

(** The modes "r" and "w". *)
Definition mode_r := O_RDONLY.
Definition mode_w := mkOflags false true false true true.

Definition fopen (path : string) (mode : oflags) : M (option FILE) :=
  let! fd := sys_open path mode in
  ret (if fd <? 0 then None else Some (mkFILE fd false false)).

Definition whole {A} (m : M A) : M A := fun w =>
  match w_faults w with
  | Fshort _ :: fs => m (set_faults (Fok :: fs) w)
  | _ => m w
  end.

(** The bytes read, fewer than [n] at the end of the file or after an error. *)
Definition fread (f : FILE) (n : Z) : M (FILE * bytes) :=
  let! (r, b) := whole (sys_read (fl_fd f) n) in
  ret (mkFILE (fl_fd f) (fl_eof f || (0 <=? r) && (Z.of_nat (length b) <? n)) (fl_err f || (r <? 0)), b).

(** The number of bytes written. *)
Definition fwrite (f : FILE) (b : bytes) : M Z :=
  let! r := whole (sys_write (fl_fd f) b) in ret (Z.max 0 r).

Definition fseek (f : FILE) (off : Z) : M (Z * FILE) :=
  let! r := sys_lseek (fl_fd f) off in
  ret (if r <? 0 then (-1, f) else (0, mkFILE (fl_fd f) false (fl_err f))).

Definition ftell (f : FILE) : M Z := fun w =>
  (Ret (match w_fds w !! fl_fd f with Some d => fd_off d | None => -1 end), w).

Definition fclose (f : FILE) : M Z := sys_close (fl_fd f).

(** ** Rules *)

Lemma quiet_cons f fs w : w_faults w = f :: fs -> ~ quiet w.
Proof. unfold quiet. congruence. Qed.

Section Rules.
Context (f : FILE) (w : world) (d : fdesc) (file : file) (Hfd : fd_file w (fl_fd f) = Some (d, file)).

(** A read gets everything up to the end of the file, or fails. *)
Lemma wp_fread Q n :
  fd_read d = true -> 0 <= fd_off d -> 0 <= n ->
  (forall w', unmoved w w' -> ~ quiet w -> Q (Ret (mkFILE (fl_fd f) (fl_eof f) true, [])) w') ->
  (forall w', let b := slice (Z.to_nat (fd_off d)) (Z.to_nat n) (f_data file) in
     moved (fl_fd f) w d (fd_off d + Z.of_nat (length b)) w' ->
     Q (Ret (mkFILE (fl_fd f) (fl_eof f || (Z.of_nat (length b) <? n)) (fl_err f), b)) w') ->
  wp Q (fread f n) w.
Proof using Hfd.
  intros Hr Ho Hn H1 H2. unfold fread. apply wp_bind.
  assert (Hslice : forall m, 0 <= m ->
    m = Z.min (Z.max 0 n) (Z.max 0 (Z.of_nat (length (f_data file)) - fd_off d)) ->
    slice (Z.to_nat (fd_off d)) (Z.to_nat m) (f_data file) = slice (Z.to_nat (fd_off d)) (Z.to_nat n) (f_data file) /\
    m = Z.of_nat (length (slice (Z.to_nat (fd_off d)) (Z.to_nat n) (f_data file)))).
  { intros m Hm ->. split; [|rewrite length_slice; lia]. unfold slice.
    destruct (Z.le_gt_cases n (Z.of_nat (length (f_data file)) - fd_off d)).
    - do 2 f_equal. lia.
    - rewrite !take_ge; [done|rewrite length_drop; lia..]. }
  unfold wp at 1. unfold whole, sys_read, unmoved, moved, quiet in *.
  destruct (w_faults w) as [|[|e|k] fs] eqn:Ef; unfold bind, next_fault, sys_fail, ret; simpl; rewrite ?Ef;
    unfold fd_file in *; simpl; rewrite ?Hfd, ?Hr; simpl.
  all: try (rewrite orb_true_r, orb_false_r; apply H1; [by simpl|done]).
  all: edestruct Hslice as [E1 E2]; [|reflexivity|]; [lia|]; rewrite E1, E2.
  all: match goal with |- context [0 <=? ?x] => replace (0 <=? x) with true by lia;
         replace (x <? 0) with false by lia end.
  all: rewrite andb_true_l, orb_false_r; apply H2; by simpl.
Qed.

(** A write at the end of a regular file appends everything, or fails. *)
Lemma wp_fwrite Q b :
  fd_write d = true -> f_kind file = Regular -> fd_off d = Z.of_nat (length (f_data file)) ->
  (forall w', unmoved w w' -> ~ quiet w -> Q (Ret 0) w') ->
  (forall w', w_files w' = <[ fd_path d := mkFile Regular (f_data file ++ b) ]> (w_files w) ->
     w_fds w' = <[ fl_fd f := mkFd (fd_path d) (Z.of_nat (length (f_data file ++ b))) (fd_read d) (fd_write d) ]> (w_fds w) ->
     (quiet w -> quiet w') -> Q (Ret (Z.of_nat (length b))) w') ->
  wp Q (fwrite f b) w.
Proof using Hfd.
  intros Hw Hk Ho H1 H2. unfold fwrite. apply wp_bind.
  assert (Hat : write_at (length (f_data file)) b (f_data file) = f_data file ++ b).
  { unfold write_at, splice. rewrite take_app_length. f_equal. rewrite drop_ge; [by rewrite app_nil_r|].
    len. }
  unfold wp at 1. unfold whole, sys_write, unmoved, quiet in *.
  destruct (w_faults w) as [|[|e|k] fs] eqn:Ef; unfold bind, next_fault, sys_fail, ret; simpl; rewrite ?Ef;
    unfold fd_file in *; simpl; rewrite ?Hfd, ?Hw, ?Hk; simpl.
  all: try (apply H1; [by simpl|done]).
  all: unfold transfer; rewrite Nat2Z.id, Ho, Nat2Z.id, take_ge, Hat, Z.max_r by lia;
    apply H2; simpl; [done| |done]; rewrite length_app, Nat2Z.inj_add; done.
Qed.
End Rules.

(** ** Text *)

(** The characters of [str], as a Rocq string again. *)
Definition string_of (l : bytes) : string :=
  String.string_of_list_ascii (map (fun z => Ascii.ascii_of_N (Z.to_N z)) l).

Lemma string_of_str s : string_of (str s) = s.
Proof.
  unfold string_of, str. rewrite map_map. rewrite (map_ext _ id).
  - by rewrite map_id, String.string_of_list_ascii_of_string.
  - intros c. by rewrite N2Z.id, Ascii.ascii_N_embedding.
Qed.

(** [strtok_r] with the separator " ": the tokens of a string. *)
Fixpoint tokens_from (s cur : bytes) : list bytes :=
  match s with
  | [] => if is_null cur then [] else [cur]
  | c :: s => if c =? 32 then (if is_null cur then [] else [cur]) ++ tokens_from s []
              else tokens_from s (cur ++ [c])
  end.
Definition tokens (s : bytes) : list bytes := tokens_from s [].

(** [strstr(line, s)] *)
Fixpoint strstr (line s : bytes) : option bytes :=
  if bool_decide (take (length s) line = s) then Some line
  else match line with [] => None | _ :: line => strstr line s end.

(** ** Numbers *)

(** [%d]: the digits are converted to 64 bits, with saturation, and stored in an [int]. *)
Fixpoint scan_digits (l : bytes) (v : Z) (some : bool) : option (Z * bytes) :=
  match l with
  | c :: l' => if (48 <=? c) && (c <=? 57) then scan_digits l' (v * 10 + (c - 48)) true
               else if some then Some (v, l) else None
  | [] => if some then Some (v, []) else None
  end.

Definition scan_d (l : bytes) : option (Z * bytes) :=
  let l := skip_space l in
  let '(neg, l) := match l with
                   | c :: l' => if c =? 45 then (true, l') else if c =? 43 then (false, l') else (false, l)
                   | [] => (false, l)
                   end in
  '(v, rest) ← scan_digits l 0 false;
  Some (s32 (if neg : bool then Z.max (- 2 ^ 63) (- v) else Z.min (2 ^ 63 - 1) v), rest).

(** [%llu], from 64 bits with saturation; a sign negates. *)
Definition scan_llu (l : bytes) : option (Z * bytes) :=
  let l := skip_space l in
  let '(neg, l) := match l with
                   | c :: l' => if c =? 45 then (true, l') else if c =? 43 then (false, l') else (false, l)
                   | [] => (false, l)
                   end in
  '(v, rest) ← scan_digits l 0 false;
  Some (if 2 ^ 64 <=? v then 2 ^ 64 - 1 else if neg : bool then u64 (- v) else v, rest).

(** The value of a digit of [strtoul]; letters continue the decimal digits. *)
Definition digit (c : Z) : Z :=
  if (48 <=? c) && (c <=? 57) then c - 48
  else if (65 <=? c) && (c <=? 90) then c - 55
  else if (97 <=? c) && (c <=? 122) then c - 87 else 36.

Fixpoint strto_digits (base : Z) (l : bytes) (v : Z) (some : bool) : option (Z * bytes) :=
  match l with
  | c :: l' => if digit c <? base then strto_digits base l' (v * base + digit c) true
               else if some then Some (v, l) else None
  | [] => if some then Some (v, []) else None
  end.

(** The prefix that chooses the base: "0x" for 16, "0" for 8. *)
Definition strto_base (l : bytes) : Z * bytes :=
  match l with
  | 48 :: x :: l' => if (x =? 120) || (x =? 88) then (16, l') else (8, l)
  | 48 :: _ => (8, l)
  | _ => (10, l)
  end.

(** Sign, magnitude and rest; [None] when there are no digits. *)
Definition strto (l : bytes) : option (bool * Z * bytes) :=
  let l := skip_space l in
  let '(neg, l) := match l with
                   | c :: l' => if c =? 45 then (true, l') else if c =? 43 then (false, l') else (false, l)
                   | [] => (false, l)
                   end in
  let '(base, l) := strto_base l in
  '(v, rest) ← strto_digits base l 0 false; Some (neg, v, rest).

(** [strtoul(s, &end, 0)] and [strtoull(s, &end, 0)] for [w] bits: the value and the text at [end]. *)
Definition strtou (w : Z) (s : bytes) : Z * bytes :=
  match strto s with
  | None => (0, s)
  | Some (neg, v, rest) => (if 2 ^ w <=? v then 2 ^ w - 1 else if neg : bool then (- v) mod 2 ^ w else v, rest)
  end.
Definition strtoul : bytes -> Z * bytes := strtou 32.
Definition strtoull : bytes -> Z * bytes := strtou 64.

(** [strtol(s, &end, 0)] *)
Definition strtol (s : bytes) : Z * bytes :=
  match strto s with
  | None => (0, s)
  | Some (neg, v, rest) => (if neg : bool then Z.max (- 2 ^ 31) (- v) else Z.min (2 ^ 31 - 1) v, rest)
  end.

(** ** Streams and files *)

(** A number of rounds that reading a file to its end cannot exceed. *)
Definition file_rounds (fd : FILE) : M nat := fun w =>
  (Ret (match fd_file w (fl_fd fd) with Some (_, file) => S (length (f_data file)) | None => 1%nat end), w).

(** The first line of [l], with its end, of at most [n] characters. *)
Fixpoint first_line (n : nat) (l : bytes) : bytes :=
  match n, l with
  | S n, c :: l => c :: (if c =? 10 then [] else first_line n l)
  | _, _ => []
  end.

(** [fgets(buffer, size, fp)]: the line stored, [None] at the end of the file or after an error. *)
Definition fgets (size : Z) (fp : FILE) : M (option bytes) :=
  let! f := next_fault in
  match f with
  | Ferr e => let! _ := sys_fail e in ret None
  | _ => fun w =>
    match fd_file w (fl_fd fp) with
    | Some (d, file) =>
        if negb (fd_read d) then (let! _ := sys_fail EBADF in ret None) w else
        let line := first_line (Z.to_nat (size - 1)) (drop (Z.to_nat (fd_off d)) (f_data file)) in
        if is_null line then (Ret None, w)
        else (Ret (Some line), set_off (fl_fd fp) d (fd_off d + Z.of_nat (length line)) w)
    | None => (let! _ := sys_fail EBADF in ret None) w
    end
  end.

(** [stat]: the return value and [S_ISBLK] of the mode. *)
Definition sys_stat_blk (path : string) : M (Z * bool) :=
  let! f := next_fault in
  match f with
  | Ferr e => let! r := sys_fail e in ret (r, false)
  | _ => fun w =>
    match w_files w !! path with
    | None => (let! r := sys_fail ENOENT in ret (r, false)) w
    | Some (mkFile Symlink _) => (let! r := sys_fail ELOOP in ret (r, false)) w
    | Some (mkFile (Block _) _) => (Ret (0, true), w)
    | Some _ => (Ret (0, false), w)
    end
  end.

(** [lstat]: the return value and [S_ISLNK] of the mode. *)
Definition sys_lstat_lnk (path : string) : M (Z * bool) :=
  let! f := next_fault in
  match f with
  | Ferr e => let! r := sys_fail e in ret (r, false)
  | _ => fun w =>
    match w_files w !! path with
    | None => (let! r := sys_fail ENOENT in ret (r, false)) w
    | Some (mkFile Symlink _) => (Ret (0, true), w)
    | Some _ => (Ret (0, false), w)
    end
  end.

(** [lseek64(fd, 0, SEEK_END)] *)
Definition sys_lseek_end (fd : Z) : M Z :=
  let! f := next_fault in
  match f with
  | Ferr e => sys_fail e
  | _ => fun w =>
    match fd_file w fd with
    | None => sys_fail EBADF w
    | Some (d, file) => let size := Z.of_nat (length (f_data file)) in (Ret size, set_off fd d size w)
    end
  end.

(** [fseek(f, 0, SEEK_END)] *)
Definition fseek_end (f : FILE) : M (Z * FILE) :=
  let! r := sys_lseek_end (fl_fd f) in
  ret (if r <? 0 then (-1, f) else (0, mkFILE (fl_fd f) false (fl_err f))).

(** [optind], and what is left of the word that is being scanned. *)
Record getopt_state := mkGetopt { optind : nat; place : bytes }.

(** The state when the process starts. *)
Definition getopt_start : getopt_state := mkGetopt 1 [].

(** What a call returns: the end, an option with its argument, ["?"] or [":"]. *)
Inductive opt := EndOpts | Opt (c : Z) (optarg : bytes) | BadOpt | NoArg.

(** [strchr(options, c)]: whether the option takes an argument. *)
Fixpoint option_of (options : bytes) (c : Z) : option bool :=
  match options with
  | [] => None
  | o :: options => if o =? c then Some (match options with 58 :: _ => true | _ => false end) else option_of options c
  end.

(** The next character of a word. *)
Definition getopt_char (argv : list bytes) (options : bytes) (optind : nat) (c : Z) (rest : bytes) : opt * getopt_state :=
  let next := if is_null rest then S optind else optind in
  match (if (c =? 58) || (c =? 45) && negb (is_null rest) then None else option_of options c) with
  | None => if (c =? 45) && is_null rest then (EndOpts, mkGetopt optind []) else (BadOpt, mkGetopt next rest)
  | Some false => (Opt c [], mkGetopt next rest)
  | Some true =>
      if negb (is_null rest) then (Opt c rest, mkGetopt (S optind) []) else
      match argv !! S optind with
      | None => (NoArg, mkGetopt (S optind) [])
      | Some optarg => (Opt c optarg, mkGetopt (S (S optind)) [])
      end
  end.

Definition getopt (argv : list bytes) (options : bytes) (st : getopt_state) : opt * getopt_state :=
  let st := if (optind st =? 0)%nat then mkGetopt 1 [] else st in
  match place st with
  | c :: rest => getopt_char argv options (optind st) c rest
  | [] =>
      match argv !! optind st with
      | Some (dash :: c :: rest) =>
          if negb (dash =? 45) then (EndOpts, mkGetopt (optind st) [])
          else if (c =? 45) && is_null rest then (EndOpts, mkGetopt (S (optind st)) [])
          else getopt_char argv options (optind st) c rest
      | _ => (EndOpts, mkGetopt (optind st) [])
      end
  end.

(** ** The loop of a command *)

(** The parameters, the number of errors and the end of the last number ([None] for NULL). *)
Record parse (P : Type) := mkParse { params : P; errorcnt : Z; e : option bytes }.
Arguments mkParse {P}.
Arguments params {P}.
Arguments errorcnt {P}.
Arguments e {P}.

Definition err {P} (s : parse P) : parse P := mkParse (params s) (errorcnt s + 1) (e s).
Definition set_params {P} (p : P) (s : parse P) : parse P := mkParse p (errorcnt s) (e s).
Definition set_e {P} (v : bytes) (s : parse P) : parse P := mkParse (params s) (errorcnt s) (Some v).

(** [if (!*optarg || (e && *e)) errorcnt++] *)
Definition check_number {P} (optarg : bytes) (s : parse P) : parse P :=
  if is_null optarg || negb (is_null (default [] (e s))) then err s else s.

(** [while ((c = getopt(argc, argv, options)) != -1)], with the cases of a command; [None] after
    the option "-h". *)
Fixpoint getopt_loop {P} (fuel : nat) (argv : list bytes) (options : bytes) (case : Z -> bytes -> parse P -> M (parse P))
  (st : getopt_state) (s : parse P) : M (option (parse P) * getopt_state) :=
  match fuel with
  | O => undefined
  | S fuel =>
      let '(o, st) := getopt argv options st in
      match o with
      | EndOpts => ret (Some s, st)
      | BadOpt | NoArg => getopt_loop fuel argv options case st (err s)
      | Opt c optarg =>
          if c =? 104 then ret (None, st) else
          let! s := case c optarg s in getopt_loop fuel argv options case st s
      end
  end.

(** Every round but the last takes a character of a word. *)
Definition getopt_fuel (argv : list bytes) (st : getopt_state) : nat :=
  S (length (place st) + sum_list_with (fun w => S (length w)) argv).

Definition parse_options {P} (argv : list bytes) (options : bytes) (case : Z -> bytes -> parse P -> M (parse P))
  (st : getopt_state) (p : P) : M (option (parse P) * getopt_state) :=
  getopt_loop (getopt_fuel argv st) argv options case st (mkParse p 0 None).
