(* ===== verification/CgptFind.v ===== *)
(** * Searching for a partition (cgpt_find.c)

    The search of one drive, and of all drives that /proc/partitions and /sys list when none is
    named. *)

From stdpp Require Import base list numbers gmap strings.
From Stdlib Require Import ZArith Lia.
From S2P Require Import Prelude GptTypes GptLib Posix Drive CgptCommon Utf GuidStr CgptAdd CgptShow CLib.

Record CgptFindParams := mkFind {
  fi_verbose : Z;
  fi_set_unique : bool;
  fi_set_type : bool;
  fi_set_label : bool;
  fi_numeric : bool;
  fi_matchbuf : bytes;
  fi_matchlen : Z;
  fi_matchoffset : Z;
  fi_comparebuf : bytes;
  fi_unique_guid : Guid;
  fi_type_guid : Guid;
  fi_label : bytes;
  fi_hits : Z;
  fi_match_partnum : Z
}.

Definition set_comparebuf (b : bytes) (p : CgptFindParams) : CgptFindParams :=
  mkFind (fi_verbose p) (fi_set_unique p) (fi_set_type p) (fi_set_label p)
    (fi_numeric p) (fi_matchbuf p) (fi_matchlen p) (fi_matchoffset p) b (fi_unique_guid p)
    (fi_type_guid p) (fi_label p) (fi_hits p) (fi_match_partnum p).

Definition add_hit (partnum : Z) (p : CgptFindParams) : CgptFindParams :=
  mkFind (fi_verbose p) (fi_set_unique p) (fi_set_type p) (fi_set_label p)
    (fi_numeric p) (fi_matchbuf p) (fi_matchlen p) (fi_matchoffset p) (fi_comparebuf p)
    (fi_unique_guid p) (fi_type_guid p) (fi_label p) (fi_hits p + 1)
    (if truthy (fi_match_partnum p) then fi_match_partnum p else partnum).

Definition LBA_SIZE : Z := 512.

(** The loop of [FillBuffer]: [None] when a read fails or the file ends.  Each round reads at
    least one byte, so [count] rounds are enough. *)
Fixpoint fill_loop (fuel : nat) (fd count : Z) (filled : bytes) : M (option bytes) :=
  match fuel with
  | O => ret (if count =? 0 then Some filled else None)
  | S fuel =>
      if count =? 0 then ret (Some filled) else
      let! (bytes_read, b) := sys_read fd count in
      if bytes_read <=? 0 then ret None else
      fill_loop fuel fd (count - bytes_read) (filled ++ b)
  end.

(** The buffer keeps what was read before a failure; its content is used only after success. *)
Definition FillBuffer (p : CgptFindParams) (fd pos count : Z) : M (bool * CgptFindParams) :=
  let! r := sys_lseek fd pos in
  if -1 =? r then ret (false, p) else
  let! filled := fill_loop (Z.to_nat count) fd count [] in
  match filled with
  | None => ret (false, p)
  | Some b => ret (true, set_comparebuf (splice 0 b (fi_comparebuf p)) p)
  end.

Definition match_content (p : CgptFindParams) (d : drive) (o : nat) (t : bytes)
    : M (bool * CgptFindParams) :=
  if negb (truthy (fi_matchlen p)) then ret (true, p) else
  let part_size := u64 (LBA_SIZE * u64 (e_ending_lba o t - e_starting_lba o t + 1)) in
  if part_size <? u64 (fi_matchoffset p + fi_matchlen p) then ret (false, p) else
  let! (ok, p) := FillBuffer p (d_fd d) (u64 (u64 (LBA_SIZE * e_starting_lba o t) + fi_matchoffset p))
                    (fi_matchlen p) in
  if negb ok then ret (false, p) else
  ret (memeq (Z.to_nat (fi_matchlen p)) (fi_matchbuf p) (fi_comparebuf p), p).

(** [strncmp(a, b, n) == 0] *)
Definition strncmp_eq (a b : bytes) (n : nat) : bool :=
  bool_decide (take n (c_string a) = take n (c_string b)).

Definition mmcblk_prefix : bytes := str "/dev/mmcblk".

Definition showmatch (p : CgptFindParams) (filename : bytes) (partnum : Z) (o : nat) (t : bytes)
    : option bytes :=
  let line :=
    if fi_numeric p then fmt_d partnum ++ NL
    else if memeq 11 mmcblk_prefix filename
    then filename ++ str "p" ++ fmt_d partnum ++ NL
    else filename ++ fmt_d partnum ++ NL in
  if 0 <? fi_verbose p
  then details ← EntryDetails o t (partnum - 1) (fi_numeric p); Some (line ++ details)
  else Some line.

(** Whether an entry meets the criteria; [None] stands for the [return 0] of a label that cannot
    be converted. *)
Definition entry_found (p : CgptFindParams) (o : nat) (t : bytes) : M (option bool) :=
  if (fi_set_unique p && GuidEqual (fi_unique_guid p) (e_unique o t)) ||
     (fi_set_type p && GuidEqual (fi_type_guid p) (e_type o t))
  then ret (Some true)
  else if fi_set_label p then
    let! (rc, partlabel) := lift (label_of o t GPT_PARTNAME_LEN) in
    if negb (rc =? CGPT_OK) then ret None
    else ret (Some (strncmp_eq (fi_label p) partlabel 72))
  else ret (Some false).

(** The state of the search: whether the early return was taken, the number of matches, the
    parameters and the output.  After the early return the remaining entries are skipped. *)
Definition search_state : Type := bool * Z * CgptFindParams * bytes.

Definition search_step (fileName : string) (d : drive) (i : Z) (e : entry_ptr) (s : search_state)
    : M search_state :=
  let '(stopped, retval, p, out) := s in
  let o := ep_off e in
  let t := ep_table e (d_gpt d) in
  if stopped : bool then ret s else
  if IsZero (e_type o t) then ret s else
  let! found := entry_found p o t in
  match found with
  | None => ret (true, retval, p, out)
  | Some false => ret s
  | Some true =>
      let! (ok, p) := match_content p d o t in
      if negb ok then ret (false, retval, p, out) else
      let! line := lift (showmatch p (str fileName) (i + 1) o t) in
      ret (false, retval + 1, add_hit (i + 1) p, out ++ line)
  end.

(** The number of matches, the parameters and the output.  After the early return the drive
    stays open. *)
Definition do_search (p : CgptFindParams) (fileName : string) : M (Z * CgptFindParams * bytes) :=
  let! (rc, d) := DriveOpen fileName O_RDONLY in
  if negb (rc =? CGPT_OK) then ret (0, p, []) else
  let '(r, g) := GptSanityCheck (d_gpt d) in
  let d := set_gpt g d in
  if negb (r =? GPT_SUCCESS) then DriveClose d false ;; ret (0, p, []) else
  let! s := for_entries (GetEntry g ANY_VALID) (search_step fileName d)
              (indices (GetNumberOfEntries g)) (false, 0, p, []) in
  let '(stopped, retval, p, out) := s in
  if stopped : bool then ret (0, p, out) else
  DriveClose d false ;; ret (retval, p, out).

(** ** All drives *)

Definition PROC_PARTITIONS : string := "/proc/partitions".
Definition SYS_BLOCK_DIR : string := "/sys/block".
Definition devdirs : list string := ["/dev"; "/devices"; "/devfs"]%string.
Definition BUFSIZE : Z := 1024.

(** The path of the device; both paths fit into their buffers. *)
Fixpoint wholedev_in (dirs : list string) (basename : string) : M (option string) :=
  match dirs with
  | [] => ret None
  | dir :: dirs =>
      let pathname := (dir +:+ "/" +:+ basename)%string in
      let! (r, blk) := sys_stat_blk pathname in
      if negb ((r =? 0) && blk) then wholedev_in dirs basename else
      let! (r, lnk) := sys_lstat_lnk (SYS_BLOCK_DIR +:+ "/" +:+ basename +:+ "/device") in
      if negb ((r =? 0) && lnk) then wholedev_in dirs basename else ret (Some pathname)
  end.

Definition is_wholedev (basename : string) : M (option string) := wholedev_in devdirs basename.

(** [%127[^\n ]] *)
Fixpoint scan_name (n : nat) (l : bytes) : bytes :=
  match n, l with
  | S n, c :: l => if (c =? 10) || (c =? 32) then [] else c :: scan_name n l
  | _, _ => []
  end.

(** [sscanf(line, " %d %d %llu %127[^\n ]", &ma, &mi, &sz, partname) == 4] *)
Definition partition_name (line : bytes) : option bytes :=
  '(_, l) ← scan_d (c_string line);
  '(_, l) ← scan_d l;
  '(_, l) ← scan_llu l;
  let name := scan_name 127 (skip_space l) in
  if is_null name then None else Some name.

(** The number of drives with a match; every round but the last reads a line. *)
Fixpoint scan_loop_devs (fuel : nat) (fp : FILE) (p : CgptFindParams) (out : bytes) (found : Z) : M (Z * CgptFindParams * bytes) :=
  match fuel with
  | O => undefined
  | S fuel =>
      let! line := fgets BUFSIZE fp in
      match line with
      | None => fclose fp ;; ret (found, p, out)
      | Some line =>
          match partition_name line with
          | None => scan_loop_devs fuel fp p out found
          | Some partname =>
              let! pathname := is_wholedev (string_of partname) in
              match pathname with
              | None => scan_loop_devs fuel fp p out found
              | Some pathname =>
                  let! (n, p, text) := do_search p pathname in
                  scan_loop_devs fuel fp p (out ++ text) (if truthy n then found + 1 else found)
              end
          end
      end
  end.

Definition scan_real_devs (p : CgptFindParams) : M (Z * CgptFindParams * bytes) :=
  let! fp := fopen PROC_PARTITIONS mode_r in
  match fp with
  | None => ret (0, p, [])
  | Some fp => let! n := file_rounds fp in scan_loop_devs n fp p [] 0
  end.

(** The parameters with the hits, and the output. *)
Definition cgpt_find (p : CgptFindParams) (drive_name : option string) : M (CgptFindParams * bytes) :=
  let! (_, p, out) := match drive_name with Some drive_name => do_search p drive_name | None => scan_real_devs p end in
  ret (p, out).
