(* ===== verification/QuerySpec.v ===== *)
(** * What the read-only commands answer (theorems about cgpt_boot.c, cgpt_show.c, cgpt_find.c) *)

From stdpp Require Import base list numbers gmap strings.
From Stdlib Require Import ZArith Lia.
From S2P Require Import Prelude Crc32 GptTypes GptLib GptSanity Posix Drive DriveSpec CgptCommon CommitSpec CommandSpec Utf GuidStr CgptCreate CgptAdd CgptAddSpec CgptShow CgptBoot CgptFind.

(** ** The table the commands read *)

(** The first table the check found valid. *)
Definition any_table (g : GptData) : bytes :=
  if truthy (Z.land (valid_entries g) MASK_PRIMARY) then primary_entries g else secondary_entries g.

Definition any_at (g : GptData) (i : nat) : entry_ptr :=
  mkEntry (negb (truthy (Z.land (valid_entries g) MASK_PRIMARY))) (entry_off i).

Lemma any_at_table g i : ep_table (any_at g i) g = any_table g.
Proof. unfold ep_table, any_at, any_table. cbn [ep_secondary]. by destruct (truthy _). Qed.

(** The table of a drive whose table was accepted. *)
Definition disk_table (data : bytes) : bytes := any_table (GptSanityCheck (disk_gpt data)).2.

Lemma disk_table_valid data : disk_ok data -> valid_disk data ->
  disk_table data = primary_entries (disk_gpt data).
Proof.
  intros Hd (E1 & E2 & E3). unfold disk_table, any_table. rewrite E3. cbn.
  destruct (GptSanityCheck (disk_gpt data)) as [r g] eqn:Ec. cbn [fst snd] in *. subst r.
  apply GptSanityCheck_sane in Ec as [_ (vh & ve & ->)]; [done|by apply disk_gpt_ok].
Qed.

Lemma checked_any data g : disk_ok data -> GptSanityCheck (disk_gpt data) = (GPT_SUCCESS, g) ->
  gets (GetEntry g ANY_VALID) (any_at g) /\ GetNumberOfEntries g = 128 /\ gpt_ok g /\
  modified g = 0 /\ any_table g = disk_table data.
Proof.
  intros Hd Hc. pose proof (disk_gpt_ok _ Hd) as Hok.
  destruct (GptSanityCheck_sane _ _ Hok Hc) as [Hs Hbuf].
  pose proof (same_buffers_ok _ _ Hbuf Hok) as Hok'.
  assert (Hn : GetNumberOfEntries g = 128 /\ GetSizeOfEntries g = 128).
  { destruct Hs as [_ _ M1 _ V1 V2 _ _ _]. unfold GetNumberOfEntries, GetSizeOfEntries.
    destruct M1 as [E|[E|E]]; rewrite E in *; cbn; [specialize (V1 eq_refl)|specialize (V2 eq_refl)|specialize (V1 eq_refl)];
      (split; [apply V1|apply V1]) || (split; [apply V2|apply V2]). }
  destruct Hn as [Hn Hz]. split_and!; [|done|done| |].
  - intros i w Hi. unfold GetEntry, bind, require. rewrite Hn, Hz.
    replace (Z.of_nat i <? 128) with true by lia. change (truthy 128) with true.
    replace (Z.to_nat (u32 (128 * Z.of_nat i))) with (entry_off i)
      by (unfold entry_off, sizeof_GptEntry, u32; rewrite Z.mod_small by lia; lia).
    unfold any_at. destruct Hs as [_ _ _ M2 _ _ _ _ _]. destruct M2 as [E|[E|E]]; rewrite E; reflexivity.
  - by destruct Hbuf as (vh & ve & ->).
  - unfold disk_table. by rewrite Hc.
Qed.

(** ** Reading the boot record *)

Lemma wp_ReadPMBR {B} (Q : outcome B -> world -> Prop) kont path f wr w1 d w :
  w_files w1 !! path = Some f -> (512 <= length (f_data f))%nat -> length (d_pmbr d) = 512%nat ->
  session (d_fd d) path true wr w1 w ->
  (forall w', session (d_fd d) path true wr w1 w' ->
     wp Q (kont (CGPT_OK, set_pmbr (slice 0 512 (f_data f)) d)) w') ->
  (forall b w', session (d_fd d) path true wr w1 w' -> ~ quiet w1 -> wp Q (kont (CGPT_FAILED, set_pmbr b d)) w') ->
  wp Q (bind (ReadPMBR d) kont) w.
Proof.
  intros Hf Hlen Hp Hs H1 H2. unfold ReadPMBR. apply wp_assoc, wp_bind.
  assert (Hself : set_pmbr (d_pmbr d) d = d) by (by destruct d).
  eapply session_lseek; [exact Hf|exact Hs| |].
  { intros w2 Hs2 Hq. simpl. rewrite <-Hself. apply wp_bind, wp_ret, H2; [done|].
    intros H. apply (se_quiet _ _ _ _ _ _ Hs), Hq in H. done. }
  intros w2 Hs2 _ Hfd Hq2. change (-1 =? s64 0) with false. cbv iota. apply wp_assoc, wp_bind.
  change (s64 0) with 0 in *. eapply wp_read; [exact Hfd|done|done| |].
  { intros w3 Hu Hq. simpl. apply wp_bind, wp_ret, H2; [by eapply session_unmoved|].
    intros H. apply Hq. by apply (se_quiet _ _ _ _ _ _ Hs2). }
  intros w3 n avail Hn1 Hn2 Hnq Hm. subst avail. cbn [fd_off] in *. unfold sizeof_pmbr in *.
  assert (Hs3 : session (d_fd d) path true wr w1 w3).
  { eapply session_moved; [exact Hs2| | | | |exact Hm]; simpl; first [lia|done]. }
  destruct (Z.eqb_spec n 512) as [->|Hne]; cbn [negb]; apply wp_bind, wp_ret.
  - rewrite splice_all by (rewrite length_slice, Hp; lia). by apply H1.
  - apply H2; [done|]. intros H. apply (se_quiet _ _ _ _ _ _ Hs2) in H. specialize (Hnq H). lia.
Qed.

Lemma disk_record data : disk_ok data -> (512 <= length data)%nat.
Proof. intros [_ Hs Hm _]. lia. Qed.

(** ** cgpt_get_boot_partition_number *)

(** The identifier in the boot record. *)
Definition boot_guid (data : bytes) : Guid := p_boot_guid (slice 0 512 data).

Lemma boot_guid_ok data : disk_ok data -> bytes_ok (boot_guid data) /\ length (boot_guid data) = 16%nat.
Proof.
  intros Hd. pose proof (disk_record data Hd). unfold boot_guid, p_boot_guid. split.
  - apply bytes_ok_slice, bytes_ok_slice, Hd.
  - rewrite !length_slice. lia.
Qed.

(** Entry [i] is the first with the identifier of the boot record. *)
Definition boots (data : bytes) (i : nat) : Prop :=
  GuidEqual (e_guid (disk_table data) i) (boot_guid data) = true /\
  forall j, (j < i)%nat -> GuidEqual (e_guid (disk_table data) j) (boot_guid data) = false.

Definition boot_number_result (p : CgptBootParams) (f : file) (w : world)
    (r : Z * option CgptBootParams) (data' : bytes) : Prop :=
  data' = f_data f /\
  ((exists i, (i < 128)%nat /\ boots (f_data f) i /\
      r = (CGPT_OK, Some (set_boot_partition (Z.of_nat i + 1) p))) \/
   (exists p', r = (CGPT_FAILED, p')) /\
     (quiet w -> (GptSanityCheck (disk_gpt (f_data f))).1 = GPT_SUCCESS ->
      forall i, (i < 128)%nat -> ~ boots (f_data f) i)).

Lemma get_boot_partition_correct f w p :
  drive_file w (bo_drive_name p) f ->
  wp (command_post (bo_drive_name p) f w (boot_number_result p f w))
     (cgpt_get_boot_partition_number (Some p)) w.
Proof.
  intros Hd. unfold cgpt_get_boot_partition_number. pose proof (df_disk _ _ _ Hd) as Hdisk.
  eapply wp_open_drive; [exact Hd|done..| | |].
  2:{ intros d w' E1 E2 Hq. simpl. apply wp_ret. apply unchanged_post; [done|done|]. split; [done|].
      split; [done|]. right. split; [eauto|]. by intros ?. }
  2:{ intros c w' E1 Hq. by apply unchanged_post. }
  intros d w1 w2 Hos Hs Hg Hlen. change (negb (CGPT_OK =? CGPT_OK)) with false. cbv iota. rewrite Hg.
  assert (Hf1 : w_files w1 !! bo_drive_name p = Some f)
    by (destruct Hos as (_ & _ & -> & _); apply Hd).
  destruct (GptSanityCheck (disk_gpt (f_data f))) as [r g] eqn:Ec. cbv zeta beta.
  assert (Hm : modified g = 0).
  { pose proof (GptSanityCheck_masks (disk_gpt (f_data f))) as E. cbv zeta in E. rewrite Ec in E.
    destruct (sanity_masks _ _ _ _ _ _ _ _) as [[? ?] ?]. by injection E as _ ->. }
  assert (Hend : forall d' w' rc q, session (d_fd d) (bo_drive_name p) true false w1 w' ->
    d_fd d' = d_fd d -> modified (d_gpt d') = 0 -> boot_number_result p f w (rc, Some q) (f_data f) ->
    wp (command_post (bo_drive_name p) f w (boot_number_result p f w)) (DriveClose d' true ;; ret (rc, Some q)) w').
  { intros d' w' rc q Hs' Hfd Hmod H. rewrite <-Hfd in Hos, Hs'.
    eapply wp_close_drive; [exact Hd|exact Hos|exact Hs'|done|].
    intros d'' w4 F1 F2. apply wp_ret. by apply unchanged_post. }
  destruct (Z.eqb_spec r GPT_SUCCESS) as [->|Hr]; cbn [negb].
  2:{ apply Hend; [done|done|done|]. split; [done|]. right. split; [eauto|]. intros _ E. by rewrite Ec in E. }
  destruct (checked_any _ _ Hdisk Ec) as (Hget & Hn & Hok & _ & Ht).
  eapply (wp_ReadPMBR _ _ _ _ _ _ (set_gpt g d)); [exact Hf1|by apply disk_record|done|exact Hs| |].
  2:{ intros b w' Hs' Hq. change (negb (CGPT_FAILED =? CGPT_OK)) with true. cbv iota.
      apply Hend; [done|done|done|]. split; [done|]. right. split; [eauto|]. intros Hqw.
      destruct Hq. by apply Hos. }
  intros w3 Hs3. change (negb (CGPT_OK =? CGPT_OK)) with false. cbv iota. cbn [d_pmbr set_pmbr].
  fold (boot_guid (f_data f)). destruct (boot_guid_ok _ Hdisk) as [Bg Lg].
  rewrite (GuidToStr_some _ Bg Lg) by (unfold GUID_STRLEN; lia). apply wp_bind, wp_ret.
  rewrite Hn. change (s32 128) with 128. eapply wp_find_entry; [exact Hget| |].
  - intros i Hi Hs1 Hs2. apply Hend; [done|done|done|]. split; [done|]. left. exists i. split; [done|].
    split; [|done]. rewrite any_at_table, Ht in Hs1. split; [exact Hs1|].
    intros j Hj. specialize (Hs2 j Hj). rewrite any_at_table, Ht in Hs2. exact Hs2.
  - intros Hno. apply Hend; [done|done|done|]. split; [done|]. right. split; [eauto|].
    intros _ _ i Hi [E _]. specialize (Hno i Hi). rewrite any_at_table, Ht in Hno.
    unfold e_guid in E. cbn [any_at ep_off] in Hno. congruence.
Qed.

(** [cgpt_get_boot_partition_number] never writes to the drive and leaves it closed; the number
    it answers is that of the first entry with the identifier of the boot record, and with an
    acceptable table and no failing system call it fails only when there is no such entry. *)
Theorem cgpt_get_boot_partition_number_finds path f w p :
  drive_file w path f -> bo_drive_name p = path ->
  wp (command_post path f w (boot_number_result p f w)) (cgpt_get_boot_partition_number (Some p)) w.
Proof. intros Hd <-. by apply get_boot_partition_correct. Qed.

(** ** The printing helpers never end the process *)

Lemma length_dec_digits n v : (length (dec_digits n v) <= n)%nat.
Proof.
  revert v. induction n as [|n IH]; intros v; simpl; [lia|]. rewrite length_app. simpl.
  specialize (IH (v / 10)). case_match; simpl; lia.
Qed.

Lemma length_fmt_d v : (length (fmt_d v) <= 21)%nat.
Proof.
  unfold fmt_d. pose proof (length_dec_digits 20 v). pose proof (length_dec_digits 20 (- v)).
  destruct (v <? 0); cbn [length]; lia.
Qed.

Lemma length_hex_lower n v : length (hex_lower_digits n v) = n.
Proof. revert v. induction n as [|n IH]; intros v; simpl; [done|]. rewrite length_app, IH. simpl. lia. Qed.

Lemma length_hex_len n v : (hex_len n v <= n)%nat.
Proof. revert v. induction n as [|n IH]; intros v; simpl; [lia|]. case_match; [lia|]. specialize (IH (v / 16)). lia. Qed.

Lemma length_c_string l : (length (c_string l) <= length l)%nat.
Proof. induction l as [|c l IH]; simpl; [lia|]. case_match; simpl; lia. Qed.

Lemma scratch_some s : (length s < 256)%nat -> scratch s = Some s.
Proof. intros H. unfold scratch. by replace (Z.of_nat (length s) <? 256) with true by lia. Qed.

Section Printing.
Context (o : nat) (t : bytes) (Ht : bytes_ok t) (Ho : (o + 128 <= length t)%nat).

Lemma label_of_some maxoutput : 0 < maxoutput ->
  exists rc out, label_of o t maxoutput = Some (rc, out) /\ Z.of_nat (length out) <= maxoutput.
Proof using All.
  intros Hm. unfold label_of, UTF16ToUTF8. replace (maxoutput =? 0) with false by lia.
  assert (Hp : pending_ok (mkU16 0 true (maxoutput - 1) [])) by (intros [=]).
  assert (H0 : 0 <= u16_maxoutput (mkU16 0 true (maxoutput - 1) [])) by (cbn [u16_maxoutput]; lia).
  assert (Hu : Forall (fun c => 0 <= c < 0x10000) (name_units o t)).
  { apply Forall_forall. intros u Hu. apply list_elem_of_fmap in Hu as (i & -> & _).
    apply (getn_bound 2). by apply bytes_ok_slice. }
  destruct (utf16_loop_room _ 36 _ Hu Hp H0) as (rv & s' & E & H1 & H2).
  cbn [u16_maxoutput u16_out length] in H2. clear - E H1 H2.
  exists rv, (u16_out s' ++ [0]). rewrite length_app. cbn [length].
  change (match utf16_loop (name_units o t) 36 (mkU16 0 true (maxoutput - 1) []) with
    Some (rv, s) => Some (rv, u16_out s ++ [0]) | None => None end = Some (rv, u16_out s' ++ [0]) /\
    Z.of_nat (length (u16_out s') + 1) <= maxoutput).
  rewrite E. split; [done|lia].
Qed.

Lemma entry_guid_some a : (a + 16 <= 128)%nat -> exists s, GuidToStr (slice (o + a) 16 t) GUID_STRLEN = Some s.
Proof using All.
  intros Ha. eexists. apply GuidToStr_some; [by apply bytes_ok_slice|rewrite length_slice; lia|unfold GUID_STRLEN; lia].
Qed.

Lemma EntryDetails_some index raw : exists s, EntryDetails o t index raw = Some s.
Proof using All.
  unfold EntryDetails. destruct (label_of_some GPT_PARTNAME_LEN) as (rc & label & -> & Hl).
  { unfold GPT_PARTNAME_LEN. lia. }
  unfold GPT_PARTNAME_LEN in Hl. cbn [mbind option_bind]. pose proof (length_c_string label).
  rewrite (scratch_some (str "Label: " ++ _)) by
    (rewrite !length_app; change (length (str "Label: ")) with 7%nat; cbn [length]; lia).
  cbn [mbind option_bind].
  destruct (entry_guid_some 0 ltac:(lia)) as [s1 E1]. rewrite Nat.add_0_r in E1. unfold e_type. rewrite E1.
  destruct (entry_guid_some 16 ltac:(lia)) as [s2 E2]. unfold e_unique. rewrite E2. cbn [mbind option_bind].
  destruct raw; cbn [negb].
  - rewrite scratch_some; [by eexists|]. rewrite !length_app. unfold fmt_x. rewrite length_hex_lower.
    pose proof (length_hex_len 8 (e_gpt_att o t)). change (length (str "[")) with 1%nat.
    change (length (str "]")) with 1%nat. lia.
  - destruct (GuidEqual _ _); [|by eexists].
    rewrite scratch_some; [by eexists|]. rewrite !length_app.
    change (length (str "priority=")) with 9%nat. change (length (str " tries=")) with 7%nat.
    change (length (str " successful=")) with 12%nat.
    pose proof length_fmt_d as H'.
    pose proof (H' (att_get CGPT_ATTRIBUTE_PRIORITY_MASK CGPT_ATTRIBUTE_PRIORITY_OFFSET o t)).
    pose proof (H' (att_get CGPT_ATTRIBUTE_TRIES_MASK CGPT_ATTRIBUTE_TRIES_OFFSET o t)).
    pose proof (H' (att_get CGPT_ATTRIBUTE_SUCCESSFUL_MASK CGPT_ATTRIBUTE_SUCCESSFUL_OFFSET o t)). lia.
Qed.
End Printing.

(** ** cgpt_get_num_non_empty_partitions *)

(** The used entries among the first [n]. *)
Definition used_entries (t : bytes) (idx : list Z) : list Z :=
  filter (fun i => used t (Z.to_nat i)) idx.

Definition count_result (p : CgptShowParams) (f : file) (w : world)
    (r : Z * option CgptShowParams) (data' : bytes) : Prop :=
  data' = f_data f /\
  (r = (CGPT_OK, Some (set_num_partitions (Z.of_nat (length (used_entries (disk_table (f_data f)) all_idx))) p)) \/
   r = (CGPT_FAILED, Some p) /\ (quiet w -> (GptSanityCheck (disk_gpt (f_data f))).1 <> GPT_SUCCESS)).

Lemma any_IsZero data g i : disk_ok data -> GptSanityCheck (disk_gpt data) = (GPT_SUCCESS, g) ->
  (i < 128)%nat ->
  IsZero (e_type (ep_off (any_at g i)) (ep_table (any_at g i) g)) = true <-> ~ used (disk_table data) i.
Proof.
  intros Hd Hc Hi. destruct (checked_any _ _ Hd Hc) as (_ & _ & Hok & _ & <-). rewrite any_at_table.
  apply IsZero_used; [done|]. unfold any_table. case_match; apply Hok.
Qed.

Lemma used_entries_snoc t idx i :
  used_entries t (idx ++ [i]) = used_entries t idx ++ (if decide (used t (Z.to_nat i)) then [i] else []).
Proof. unfold used_entries. rewrite filter_app, filter_cons, filter_nil. done. Qed.

(** [cgpt_get_num_non_empty_partitions] counts the used entries of an acceptable table, writes
    nothing and leaks nothing. *)
Theorem cgpt_get_num_non_empty_partitions_counts path f w p :
  drive_file w path f -> sh_drive_name p = path ->
  wp (command_post path f w (count_result p f w)) (cgpt_get_num_non_empty_partitions (Some p)) w.
Proof.
  intros Hd <-. unfold cgpt_get_num_non_empty_partitions. pose proof (df_disk _ _ _ Hd) as Hdisk.
  eapply wp_open_drive; [exact Hd|done..| | |].
  2:{ intros d w' E1 E2 Hq. simpl. apply wp_ret. apply unchanged_post; [done|done|]. split; [done|].
      split; [done|]. right. split; [done|]. by intros ?. }
  2:{ intros c w' E1 Hq. by apply unchanged_post. }
  intros d w1 w2 Hos Hs Hg _. change (negb (CGPT_OK =? CGPT_OK)) with false. cbv iota. rewrite Hg.
  destruct (GptSanityCheck (disk_gpt (f_data f))) as [r g] eqn:Ec. cbv zeta beta.
  assert (Hend : forall w' rc q, session (d_fd d) (sh_drive_name p) true false w1 w' ->
    count_result p f w (rc, Some q) (f_data f) ->
    wp (command_post (sh_drive_name p) f w (count_result p f w))
      (DriveClose (set_gpt g d) false ;; ret (rc, Some q)) w').
  { intros w' rc q Hs' H. eapply wp_close_drive; [exact Hd|exact Hos|exact Hs'|done|].
    intros d'' w4 F1 F2. apply wp_ret. by apply unchanged_post. }
  destruct (Z.eqb_spec r GPT_SUCCESS) as [->|Hr]; cbn [negb].
  2:{ apply Hend; [done|]. split; [done|]. right. split; [done|]. intros _. by rewrite Ec. }
  destruct (checked_any _ _ Hdisk Ec) as (Hget & Hn & Hok & _ & Ht). rewrite Hn.
  change (indices 128) with all_idx. set (t := disk_table (f_data f)) in *.
  eapply (wp_for_entries _ (fun idx n w' => session (d_fd d) (sh_drive_name p) true false w1 w' /\
    n = Z.of_nat (length (used_entries t idx)))); [exact Hget|exact all_idx_range| |by split|].
  - intros pre i post n k w' Hall [Hs' ->] Hk. apply wp_bind, wp_ret, Hk. split; [done|].
    assert (Hi : 0 <= i < 128) by (apply all_idx_spec; rewrite Hall; apply elem_of_app; right; by left).
    pose proof (any_IsZero _ _ (Z.to_nat i) Hdisk Ec ltac:(lia)) as Hz. fold t in Hz.
    rewrite used_entries_snoc, length_app.
    destruct (IsZero _), (decide (used t (Z.to_nat i))) as [Hu|Hu]; simpl; try lia; exfalso; intuition congruence.
  - intros n w' [Hs' ->]. apply Hend; [done|]. split; [done|]. by left.
Qed.
