(* ===== verification/BootSpec.v ===== *)
(** * What cgpt_boot writes (theorems about cgpt_boot.c)

    The command changes nothing but the boot record, and what it stores there is what
    [cgpt_get_boot_partition_number] reads. *)

From stdpp Require Import base list numbers gmap strings.
From Stdlib Require Import ZArith Lia.
From S2P Require Import Prelude Crc32 GptTypes GptLib GptSanity Posix Drive DriveSpec CgptCommon CommitSpec CommandSpec Utf GuidStr CgptCreate CgptAdd CgptAddSpec CgptShow CgptBoot QuerySpec.

(** ** Reading the boot code *)

(** A file that boot code can be taken from. *)
Definition boot_code_at (w : world) (b : string) : Prop :=
  exists fb, w_files w !! b = Some fb /\ f_kind fb <> Symlink /\ f_data fb <> [].

(** What the read may return: a prefix of at most 424 bytes. *)
Definition boot_code (w : world) (b : string) (code : bytes) : Prop :=
  exists fb n, w_files w !! b = Some fb /\ (1 <= n <= 424)%nat /\ (n <= length (f_data fb))%nat /\
    code = take n (f_data fb) /\ (quiet w -> n = Nat.min 424 (length (f_data fb))).

Lemma wp_read_bootfile b w :
  wp (fun o w' => w_files w' = w_files w /\ w_fds w' = w_fds w /\ (quiet w -> quiet w') /\
        exists c, o = Ret c /\ match c with
                              | Some code => boot_code w b code
                              | None => quiet w -> ~ boot_code_at w b
                              end) (read_bootfile b) w.
Proof.
  unfold read_bootfile. apply wp_bind, wp_open; [done|done| |].
  { intros w1 (E1 & E2 & E3) Hq. simpl. apply wp_ret. split_and!; try done. exists None.
    split; [done|]. intros Hw (fb & Hf & Hk & _). destruct (Hq Hw) as [E|[x E]]; rewrite Hf in E; [done|].
    injection E as ->. done. }
  intros w1 fd fb Hf Hk Hfr Hfd E1 E2 E3. simpl. replace (fd <? 0) with false by lia.
  assert (Hs : session fd b true false w1 w1).
  { split; [done|done|done|]. exists 0. by rewrite E2, lookup_insert_eq. }
  assert (Hf1 : w_files w1 !! b = Some fb) by (by rewrite E1).
  assert (Hdel : delete fd (w_fds w1) = w_fds w) by (rewrite E2; by apply delete_insert_id).
  assert (Hfile : fd_file w1 fd = Some (mkFd b 0 true false, fb)).
  { unfold fd_file. rewrite E2, lookup_insert_eq. simpl. by rewrite Hf1. }
  assert (Hend : forall n w2 (x : bytes) kont, session fd b true false w1 w2 ->
    (forall w3, w_files w3 = w_files w -> w_fds w3 = w_fds w -> (quiet w -> quiet w3) ->
       wp (fun o w' => w_files w' = w_files w /\ w_fds w' = w_fds w /\ (quiet w -> quiet w') /\
        exists c, o = Ret c /\ match c with
                              | Some code => boot_code w b code
                              | None => quiet w -> ~ boot_code_at w b
                              end) (kont (n, x)) w3) ->
    wp (fun o w' => w_files w' = w_files w /\ w_fds w' = w_fds w /\ (quiet w -> quiet w') /\
        exists c, o = Ret c /\ match c with
                              | Some code => boot_code w b code
                              | None => quiet w -> ~ boot_code_at w b
                              end) (sys_close fd ;; kont (n : Z, x)) w2).
  { intros n w2 x kont Hs2 H. destruct (session_file _ _ _ _ _ _ Hf1 w2 Hs2) as (off & _ & Hfd2).
    apply wp_bind. eapply wp_close; [exact Hfd2|]. intros w3 F1 F2 F3. destruct Hs2 as [G1 G2 G3 _].
    apply H; [congruence|congruence|auto]. }
  apply wp_bind. eapply wp_read; [exact Hfile|done|simpl; lia| |].
  - intros w2 Hu Hq. apply (Hend _ _ _ (fun '(n, b) => if n <? 1 then ret None else ret (Some b)));
      [by eapply session_unmoved|].
    intros w3 F1 F2 F3. apply wp_ret. split_and!; try done. exists None. split; [done|]. intros Hw. tauto.
  - intros w2 n avail Hn Hn2 Hnq Hm. simpl in *.
    apply (Hend _ _ _ (fun '(n, b) => if n <? 1 then ret None else ret (Some b))).
    { eapply session_moved; [exact Hs| | | | |exact Hm]; simpl; first [lia|done]. }
    intros w3 F1 F2 F3. unfold sizeof_bootcode in *.
    destruct (Z.ltb_spec n 1); apply wp_ret; split_and!; try done.
    + exists None. split; [done|]. intros Hw (fb' & Hf' & _ & Hne). rewrite Hf in Hf'. injection Hf' as <-.
      specialize (Hnq (E3 Hw)). destruct (f_data fb); [done|]. subst avail. simpl length in *. lia.
    + exists (Some (take (Z.to_nat n) (f_data fb))). split; [done|].
      exists fb, (Z.to_nat n). split; [done|]. split; [lia|]. split; [lia|]. split; [done|].
      intros Hw. specialize (Hnq (E3 Hw)). lia.
Qed.

(** ** The record the command writes *)

Definition boot_writes (p : CgptBootParams) : bool :=
  bo_create_pmbr p || truthy (bo_partition p) || (match bo_bootfile p with Some _ => true | None => false end).

(** The record [r] of the drive [data] after the three edits. *)
Definition edit_record (p : CgptBootParams) (data : bytes) (code : option bytes) (r : bytes) : bytes :=
  let r := if bo_create_pmbr p then protective_pmbr (disk_sectors data) r else r in
  let r := if truthy (bo_partition p)
           then set_p_boot_guid (e_guid (disk_table data) (Z.to_nat (bo_partition p - 1))) r else r in
  match code with None => r | Some b => set_p_bootcode b r end.

(** The partition asked for exists in an acceptable table. *)
Definition partition_ok (p : CgptBootParams) (data : bytes) : Prop :=
  bo_partition p <> 0 -> (GptSanityCheck (disk_gpt data)).1 = GPT_SUCCESS /\ bo_partition p <= 128.

Definition code_read (p : CgptBootParams) (w : world) (code : option bytes) : Prop :=
  match bo_bootfile p with
  | None => code = None
  | Some b => exists c, code = Some c /\ boot_code w b c
  end.

Definition boot_result (p : CgptBootParams) (data : bytes) (w : world) (r : Z * option bytes)
    (data' : bytes) : Prop :=
  (r.1 = 0 /\ partition_ok p data /\ exists code, code_read p w code /\
     let record := edit_record p data code (slice 0 512 data) in
     data' = (if boot_writes p then splice 0 record data else data) /\
     r.2 = Some (guid_text (p_boot_guid record) ++ NL)) \/
  (r.1 <> 0 /\ (quiet w -> data' = data /\
     ~ (partition_ok p data /\ forall b, bo_bootfile p = Some b -> boot_code_at w b))).

(** The command ran on [f]: nothing outside the first sector changed. *)
Definition record_post {A} (path : string) (f : file) (w : world) (P : A -> bytes -> Prop)
    (o : outcome A) (w' : world) : Prop :=
  exists data',
    w_files w' = <[ path := mkFile (f_kind f) data' ]> (w_files w) /\
    length data' = length (f_data f) /\ drop 512 data' = drop 512 (f_data f) /\
    match o with
    | Ret a => w_fds w' = w_fds w /\ P a data'
    | Exit _ => data' = f_data f /\ ~ quiet w
    | Undefined => False
    end.

Lemma record_unchanged {A} path f w (P : A -> bytes -> Prop) o w' :
  w_files w !! path = Some f -> w_files w' = w_files w ->
  match o with
  | Ret a => w_fds w' = w_fds w /\ P a (f_data f)
  | Exit _ => ~ quiet w
  | Undefined => False
  end -> record_post path f w P o w'.
Proof.
  intros Hf E H. exists (f_data f).
  split; [rewrite E; symmetry; apply insert_id; by destruct f|].
  split; [done|]. split; [done|]. destruct o; tauto.
Qed.

(** A 512-byte record of bytes. *)
Definition record_ok (r : bytes) : Prop := bytes_ok r /\ length r = 512%nat.

Lemma record_ok_splice off new r :
  record_ok r -> bytes_ok new -> (off + length new <= 512)%nat -> record_ok (splice off new r).
Proof. intros [B L] Hn Hl. split; [by apply bytes_ok_splice|]. by apply length_splice_eq. Qed.

Lemma protective_pmbr_ok n r : record_ok r -> record_ok (protective_pmbr n r).
Proof.
  intros H. unfold protective_pmbr.
  repeat apply record_ok_splice; try exact H; try (by apply bytes_okb_ok); try (cbn; lia).
  unfold legacy_partition. repeat (apply bytes_ok_app; split); try apply le_enc_ok; by apply bytes_okb_ok.
Qed.

Lemma p_boot_guid_text r : record_ok r ->
  GuidToStr (p_boot_guid r) GUID_STRLEN = Some (guid_text (p_boot_guid r) ++ [0]) /\
  c_string (guid_text (p_boot_guid r) ++ [0]) = guid_text (p_boot_guid r).
Proof.
  intros [B L]. assert (Bg : bytes_ok (p_boot_guid r)) by (by apply bytes_ok_slice).
  assert (Lg : length (p_boot_guid r) = 16%nat) by (unfold p_boot_guid; rewrite length_slice, L; done).
  split; [apply (GuidToStr_some _ Bg Lg); unfold GUID_STRLEN; lia|].
  rewrite c_string_app by (by apply guid_text_nonzero). done.
Qed.

(** ** The command *)

Section Boot.
Context (f : file) (w : world) (p : CgptBootParams) (Hd : drive_file w (bo_drive_name p) f).
Context (fd : Z) (w1 : world).
Let mode := if boot_writes p then O_RDWR else O_RDONLY.
Let path := bo_drive_name p.
Context (Hos : open_state fd path mode w w1).

Lemma boot_file : w_files w1 !! path = Some f.
Proof using All. destruct Hos as (_ & _ & -> & _). apply Hd. Qed.

(** The end of every path. *)
Lemma wp_boot_close d rc out data' w' :
  d_fd d = fd -> modified (d_gpt d) = 0 ->
  w_files w' = <[ path := mkFile (f_kind f) data' ]> (w_files w) ->
  session fd path true (o_write mode) w' w' -> delete fd (w_fds w') = w_fds w ->
  length data' = length (f_data f) -> drop 512 data' = drop 512 (f_data f) ->
  boot_result p (f_data f) w (rc, out) data' ->
  wp (record_post path f w (boot_result p (f_data f) w)) (DriveClose d true ;; ret (rc, out)) w'.
Proof using All.
  intros Hfd Hm E Hs E2 L1 L2 H. apply wp_bind.
  eapply wp_mono; [eapply wp_close_unmodified; [|exact Hs|exact Hfd|done]|].
  { rewrite E. apply lookup_insert_eq. }
  intros o w'' (F1 & F2 & _ & d' & ->). apply wp_ret. exists data'.
  split; [congruence|]. split; [done|]. split; [done|]. split; [congruence|exact H].
Qed.

(** Every path that has not written. *)
Lemma wp_boot_stop d rc out w' :
  d_fd d = fd -> modified (d_gpt d) = 0 -> session fd path true (o_write mode) w1 w' ->
  boot_result p (f_data f) w (rc, out) (f_data f) ->
  wp (record_post path f w (boot_result p (f_data f) w)) (DriveClose d true ;; ret (rc, out)) w'.
Proof using All.
  intros Hfd Hm Hs H. destruct Hos as (Hfr & _ & E1 & E2 & _), Hs as [S1 S2 S3 S4].
  apply (wp_boot_close d rc out (f_data f)); try done.
  - rewrite S1, E1. symmetry. apply insert_id. destruct f. apply Hd.
  - rewrite S2, E2. by apply delete_insert_id.
Qed.

(** Storing the record. *)
Lemma wp_WritePMBR d w' : boot_writes p = true -> d_fd d = fd -> record_ok (d_pmbr d) ->
  session fd path true (o_write mode) w1 w' ->
  wp (fun o w'' => exists rc j, o = Ret rc /\ (j <= 512)%nat /\
        wsession fd path true (f_kind f) w1 (splice 0 (take j (d_pmbr d)) (f_data f)) w'' /\
        (rc = CGPT_OK -> j = 512%nat) /\ (rc = CGPT_OK \/ rc = CGPT_FAILED /\ ~ quiet w1)) (WritePMBR d) w'.
Proof using All.
  intros Hw Hfd [_ Lp] Hs. unfold mode in Hs. rewrite Hw in Hs. pose proof boot_file as Hf.
  pose proof (disk_record _ (df_disk _ _ _ Hd)) as Hlen.
  pose proof (session_wsession _ _ _ _ _ _ Hf Hs) as Hws.
  assert (H0 : splice 0 (take 0 (d_pmbr d)) (f_data f) = f_data f) by (unfold splice; by rewrite take_0, drop_0).
  unfold WritePMBR. rewrite Hfd. apply wp_bind.
  eapply session_lseek; [exact Hf|exact Hs| |]; change (s64 0) with 0.
  { intros w2 Hs2 Hq. simpl. apply wp_ret. exists CGPT_FAILED, 0%nat. rewrite H0.
    split; [done|]. split; [lia|]. split; [by apply session_wsession|]. split; [done|]. right.
    split; [done|]. intros Hw1. apply (se_quiet _ _ _ _ _ _ Hs), Hq in Hw1. lia. }
  intros w2 Hs2 _ Hfd2 _. simpl (-1 =? 0). cbv iota. apply wp_bind.
  eapply wp_write; [exact Hfd2|done|simpl; lia|by intros E; rewrite E in Lp|simpl; lia| |].
  { intros w3 Hu Hq. simpl. apply wp_ret. exists CGPT_FAILED, 0%nat. rewrite H0.
    split; [done|]. split; [lia|]. split; [apply session_wsession; [done|by eapply session_unmoved]|].
    split; [done|]. right. split; [done|]. intros H. apply Hq. by apply (se_quiet _ _ _ _ _ _ Hs2). }
  intros w3 j Hj Hjq F1 F2 F3. simpl in F1, F2.
  assert (Hw3 : wsession fd path true (f_kind f) w1 (splice 0 (take j (d_pmbr d)) (f_data f)) w3).
  { destruct Hs2 as [S1 S2 S3 S4]. apply insert_delete_fd in F2 as [F2 F4]. split.
    - by rewrite F1, S1.
    - congruence.
    - auto.
    - eexists. split; [|exact F4]. lia. }
  unfold sizeof_pmbr. rewrite Lp in Hj.
  destruct (Z.eqb_spec (Z.of_nat j) 512); cbn [negb]; apply wp_ret.
  - exists CGPT_OK, j. split_and!; try done; [lia|by left].
  - exists CGPT_FAILED, j. split; [done|]. split; [done|]. split; [done|]. split; [done|]. right.
    split; [done|]. intros H. apply (se_quiet _ _ _ _ _ _ Hs2) in H. specialize (Hjq H). lia.
Qed.
End Boot.

(** The record is in memory: print its identifier, write it if asked, close the drive. *)
Lemma wp_boot_finish f w p fd w1 d w' code :
  drive_file w (bo_drive_name p) f ->
  open_state fd (bo_drive_name p) (if boot_writes p then O_RDWR else O_RDONLY) w w1 ->
  session fd (bo_drive_name p) true (o_write (if boot_writes p then O_RDWR else O_RDONLY)) w1 w' ->
  d_fd d = fd -> modified (d_gpt d) = 0 -> record_ok (d_pmbr d) ->
  partition_ok p (f_data f) -> code_read p w code ->
  d_pmbr d = edit_record p (f_data f) code (slice 0 512 (f_data f)) ->
  wp (record_post (bo_drive_name p) f w (boot_result p (f_data f) w))
    (let! s := lift (GuidToStr (p_boot_guid (d_pmbr d)) GUID_STRLEN) in
     let! r := if boot_writes p then WritePMBR d else ret CGPT_OK in
     DriveClose d true ;; ret (if r =? CGPT_OK then 0 else 1, Some (c_string s ++ NL))) w'.
Proof.
  intros Hd Hos Hs Hfd Hm Hr Hpart Hcode Ep.
  destruct (p_boot_guid_text _ Hr) as [-> Et]. apply wp_bind, wp_ret. rewrite Et. apply wp_bind.
  destruct (boot_writes p) eqn:Hw.
  - eapply wp_mono; [eapply wp_WritePMBR; try done; by rewrite Hw|].
    intros o w2 (rc & j & -> & Hj & Hws & Hall & Hrc). destruct Hr as [Br Lr].
    pose proof (disk_record _ (df_disk _ _ _ Hd)) as Hlen.
    pose proof Hos as (Hfr & _ & E1 & E2 & E3).
    assert (Hlt : length (take j (d_pmbr d)) = j) by (rewrite length_take; lia).
    apply (wp_boot_close f w p Hd fd w1) with (data' := splice 0 (take j (d_pmbr d)) (f_data f));
      try done; try (by rewrite Hw).
    + by rewrite (ws_files _ _ _ _ _ _ _ Hws), E1.
    + rewrite Hw. by eapply wsession_session.
    + rewrite (ws_fds _ _ _ _ _ _ _ Hws), E2. by apply delete_insert_id.
    + apply length_splice. lia.
    + unfold splice. simpl. rewrite drop_app_ge by lia. rewrite drop_drop, Hlt. f_equal. lia.
    + destruct Hrc as [-> | [-> Hq]].
      * left. split; [done|]. split; [done|]. exists code. split; [done|]. rewrite Hw. cbv zeta.
        rewrite <-Ep. split; [|done]. by rewrite (Hall eq_refl), take_ge by lia.
      * right. split; [done|]. intros H. destruct Hq. auto.
  - apply wp_ret. apply (wp_boot_stop f w p Hd fd w1); try done; try (by rewrite Hw).
    left. split; [done|]. split; [done|]. exists code. split; [done|]. rewrite Hw. cbv zeta. by rewrite <-Ep.
Qed.

(** The record before the boot code is added. *)
Definition record_without_code (p : CgptBootParams) (data r : bytes) : bytes :=
  edit_record p data None r.

Lemma record_without_code_ok p data r : disk_ok data -> 0 <= bo_partition p <= 128 ->
  (bo_partition p <> 0 -> (GptSanityCheck (disk_gpt data)).1 = GPT_SUCCESS) ->
  record_ok r -> record_ok (record_without_code p data r).
Proof.
  intros Hdisk Hp Hc Hr. unfold record_without_code, edit_record.
  assert (H1 : record_ok (if bo_create_pmbr p then protective_pmbr (disk_sectors data) r else r))
    by (destruct (bo_create_pmbr p); [by apply protective_pmbr_ok|done]).
  destruct (truthy (bo_partition p)) eqn:E; [|done]. apply truthy_true in E.
  destruct (GptSanityCheck (disk_gpt data)) as [rc g] eqn:Ec. cbn [fst] in Hc. rewrite (Hc E) in Ec.
  destruct (checked_any _ _ Hdisk Ec) as (_ & _ & Hok & _ & <-).
  assert (Ht : tbl_ok (any_table g)) by (unfold any_table; destruct (truthy (Z.land _ _)); apply Hok).
  destruct Ht as [Bt Lt]. unfold TOTAL_ENTRIES_SIZE in Lt.
  apply record_ok_splice; [done|by apply bytes_ok_slice|].
  unfold e_guid, e_unique, entry_off, sizeof_GptEntry. rewrite length_slice. lia.
Qed.

(** The second half of the command. *)
Lemma wp_boot_code f w p fd w1 d w' :
  drive_file w (bo_drive_name p) f -> world_ok w -> 0 <= bo_partition p ->
  open_state fd (bo_drive_name p) (if boot_writes p then O_RDWR else O_RDONLY) w w1 ->
  session fd (bo_drive_name p) true (o_write (if boot_writes p then O_RDWR else O_RDONLY)) w1 w' ->
  d_fd d = fd -> modified (d_gpt d) = 0 -> record_ok (d_pmbr d) ->
  partition_ok p (f_data f) ->
  d_pmbr d = record_without_code p (f_data f) (slice 0 512 (f_data f)) ->
  wp (record_post (bo_drive_name p) f w (boot_result p (f_data f) w))
    (let! (ok, d) :=
       match bo_bootfile p with
       | None => ret (true, d)
       | Some bootfile =>
           let! code := read_bootfile bootfile in
           match code with
           | None => ret (false, d)
           | Some b => ret (true, set_pmbr (set_p_bootcode b (d_pmbr d)) d)
           end
       end in
     if negb ok then DriveClose d true ;; ret (1, None) else
     let! s := lift (GuidToStr (p_boot_guid (d_pmbr d)) GUID_STRLEN) in
     let! r := if boot_writes p then WritePMBR d else ret CGPT_OK in
     DriveClose d true ;; ret (if r =? CGPT_OK then 0 else 1, Some (c_string s ++ NL))) w'.
Proof.
  intros Hd Hw0 Hp Hos Hs Hfd Hm Hr Hpart Ep. pose proof Hos as (_ & _ & E1 & E2 & E3).
  destruct (bo_bootfile p) as [b|] eqn:Eb; apply wp_bind.
  2:{ apply wp_ret. cbn [negb].
      eapply (wp_boot_finish f w p fd w1 d w' None); try done. by unfold code_read; rewrite Eb. }
  apply wp_bind. eapply wp_mono; [apply wp_read_bootfile|].
  intros o w2 (F1 & F2 & F3 & c & -> & Hc).
  assert (Hs2 : session fd (bo_drive_name p) true
    (o_write (if boot_writes p then O_RDWR else O_RDONLY)) w1 w2).
  { eapply session_unmoved; [exact Hs|done]. }
  assert (Ef : w_files w' = w_files w) by (by rewrite (se_files _ _ _ _ _ _ Hs)).
  assert (Hq : quiet w -> quiet w') by (intros H; apply (se_quiet _ _ _ _ _ _ Hs); auto).
  destruct c as [code|]; apply wp_ret; cbn [negb].
  - destruct Hc as (fb & n & G1 & G2 & G3 & -> & G5). rewrite Ef in G1.
    eapply (wp_boot_finish f w p fd w1 _ w2 (Some (take n (f_data fb)))); try done.
    + cbn [d_pmbr set_pmbr]. apply record_ok_splice; [done|apply bytes_ok_take; by eapply Hw0|].
      rewrite length_take. lia.
    + unfold code_read. rewrite Eb. exists (take n (f_data fb)). split; [done|].
      exists fb, n. do 4 (split; [done|]). auto.
    + cbn [d_pmbr set_pmbr]. rewrite Ep. done.
  - apply (wp_boot_stop f w p Hd fd w1); try done. right. split; [done|]. intros H. split; [done|].
    intros [_ Hb]. specialize (Hb b Eb). apply (Hc (Hq H)). unfold boot_code_at in *. by rewrite Ef.
Qed.

Lemma cgpt_boot_correct f w p :
  drive_file w (bo_drive_name p) f -> world_ok w -> 0 <= bo_partition p ->
  wp (record_post (bo_drive_name p) f w (boot_result p (f_data f) w)) (cgpt_boot (Some p)) w.
Proof.
  intros Hd Hw0 Hp0. unfold cgpt_boot. fold (boot_writes p). pose proof (df_disk _ _ _ Hd) as Hdisk.
  set (mode := if boot_writes p then O_RDWR else O_RDONLY).
  assert (Hmode : o_read mode = true /\ o_creat mode = false /\ o_trunc mode = false)
    by (unfold mode; by destruct (boot_writes p)). destruct Hmode as (M1 & M2 & M3).
  eapply wp_open_drive; [exact Hd|done..| | |].
  2:{ intros d w' E1 E2 Hq. simpl. apply wp_ret. apply record_unchanged; [apply Hd|done|].
      split; [done|]. right. split; [done|]. tauto. }
  2:{ intros c w' E1 Hq. apply record_unchanged; [apply Hd|done|done]. }
  intros d w1 w2 Hos Hs Hg Hlen. change (negb (CGPT_OK =? CGPT_OK)) with false. cbv iota.
  assert (Hstop : forall d' w' rc out, d_fd d' = d_fd d -> modified (d_gpt d') = 0 ->
    session (d_fd d) (bo_drive_name p) true (o_write mode) w1 w' ->
    rc <> 0 -> (quiet w -> ~ (partition_ok p (f_data f) /\
      forall b, bo_bootfile p = Some b -> boot_code_at w b)) ->
    wp (record_post (bo_drive_name p) f w (boot_result p (f_data f) w))
      (DriveClose d' true ;; ret (rc, out)) w').
  { intros d' w' rc out Hfd Hm Hs' Hrc H. apply (wp_boot_stop f w p Hd (d_fd d) w1); try done.
    right. split; [done|]. intros Hq. split; [done|]. by apply H. }
  pose proof Hos as (_ & _ & E1 & E2 & E3).
  assert (Hm : modified (d_gpt d) = 0) by (by rewrite Hg).
  eapply (wp_ReadPMBR _ _ _ _ _ _ d); [rewrite E1; apply Hd|by apply disk_record|done|exact Hs| |].
  2:{ intros b w' Hs' Hq. change (negb (CGPT_FAILED =? CGPT_OK)) with true. cbv iota.
      apply Hstop; try done. intros H. destruct Hq. auto. }
  intros w3 Hs3. change (negb (CGPT_OK =? CGPT_OK)) with false. cbv iota. cbn [d_pmbr set_pmbr].
  set (r0 := slice 0 512 (f_data f)).
  assert (H0 : record_ok r0).
  { split; [apply bytes_ok_slice, Hdisk|]. unfold r0. rewrite length_slice.
    pose proof (disk_record _ Hdisk). lia. }
  set (r1 := if bo_create_pmbr p then protective_pmbr (disk_sectors (f_data f)) r0 else r0).
  assert (H1 : record_ok r1) by (unfold r1; destruct (bo_create_pmbr p); [by apply protective_pmbr_ok|done]).
  set (d1 := if bo_create_pmbr p then _ else _).
  assert (Hd1 : d1 = set_pmbr r1 d).
  { unfold d1, r1. cbn [d_gpt set_pmbr]. rewrite Hg. cbn [disk_gpt drive_sectors].
    by destruct (bo_create_pmbr p). }
  rewrite Hd1. clear d1 Hd1.
  match goal with |- wp _ (bind _ ?k) _ => set (K := k) end.
  assert (Hend : forall d2 w', session (d_fd d) (bo_drive_name p) true (o_write mode) w1 w' ->
    d_fd d2 = d_fd d -> modified (d_gpt d2) = 0 -> partition_ok p (f_data f) ->
    d_pmbr d2 = record_without_code p (f_data f) r0 -> 
    wp (record_post (bo_drive_name p) f w (boot_result p (f_data f) w)) (K (true, d2)) w').
  { intros d2 w' Hs' Hfd Hm2 Hpart Ep. unfold K. cbn [negb]. eapply wp_boot_code; try done.
    rewrite Ep. apply record_without_code_ok; try done.
    - destruct (decide (bo_partition p = 0)) as [E|E]; [lia|]. apply Hpart in E as [_ ?]. lia.
    - intros H. by apply Hpart. }
  apply wp_bind. unfold record_without_code, edit_record in Hend. fold r1 in Hend. cbv zeta in Hend.
  destruct (truthy (bo_partition p)) eqn:Et; cycle 1.
  { apply wp_ret. apply truthy_false in Et. by apply Hend. }
  apply truthy_true in Et. cbn [d_gpt set_pmbr]. rewrite Hg.
  destruct (GptSanityCheck (disk_gpt (f_data f))) as [r g] eqn:Ec.
  assert (Hmg : modified g = 0).
  { pose proof (GptSanityCheck_masks (disk_gpt (f_data f))) as E. cbv zeta in E. rewrite Ec in E.
    destruct (sanity_masks _ _ _ _ _ _ _ _) as [[? ?] ?]. by injection E as _ ->. }
  destruct (Z.eqb_spec r GPT_SUCCESS) as [->|Hr]; cbn [negb].
  2:{ apply wp_ret. unfold K. cbn [negb]. apply Hstop; try done. intros _ [Hno _]. apply Hno in Et as [Et _].
      by rewrite Ec in Et. }
  destruct (checked_any _ _ Hdisk Ec) as (Hget & Hn & _ & _ & Ht). rewrite Hn.
  destruct (Z.ltb_spec 128 (bo_partition p)) as [Hbig|Hsmall].
  { apply wp_ret. unfold K. cbn [negb]. apply Hstop; try done. intros _ [Hno _]. apply Hno in Et as [_ Et]. lia. }
  replace (bo_partition p - 1) with (Z.of_nat (Z.to_nat (bo_partition p - 1))) at 1 by lia.
  eapply wp_get; [exact Hget|lia|]. apply wp_ret. apply Hend; try done.
  - intros _. by rewrite Ec.
  - cbn [d_pmbr set_pmbr set_gpt]. rewrite any_at_table, Ht. done.
Qed.

(** [cgpt_boot] changes nothing but the first sector of the drive and leaves the drive closed.
    When it returns 0 the sector holds the old record with the protective partition, the
    identifier of the chosen partition and the boot code put in as requested, and the identifier
    printed is the one stored; without a failing system call it returns another value only when
    the partition or the boot code asked for is not there, and then the drive is unchanged. *)
Theorem cgpt_boot_edits_the_record path f w p :
  drive_file w path f -> world_ok w -> 0 <= bo_partition p -> bo_drive_name p = path ->
  wp (record_post path f w (boot_result p (f_data f) w)) (cgpt_boot (Some p)) w.
Proof. intros Hd Hw Hp <-. by apply cgpt_boot_correct. Qed.

(** ** Choosing the partition and reading the choice back *)

Lemma drop_slice_eq (a b : bytes) o n k : drop k a = drop k b -> (k <= o)%nat -> slice o n a = slice o n b.
Proof.
  intros H Hk. unfold slice. replace o with (k + (o - k))%nat by lia. by rewrite <-!drop_drop, H.
Qed.

(** The table does not depend on the first sector. *)
Lemma disk_gpt_drop data data' : disk_ok data -> length data' = length data ->
  drop 512 data' = drop 512 data -> disk_gpt data' = disk_gpt data.
Proof.
  intros [_ Hs Hm _] Hl E. unfold disk_gpt, disk_sectors in *. rewrite Hl.
  cbv zeta. rewrite !(drop_slice_eq data' data _ _ 512 E) by lia. reflexivity.
Qed.

Lemma code_read_ok p w code : world_ok w -> code_read p w code ->
  match code with None => True | Some c => bytes_ok c /\ (length c <= 424)%nat end.
Proof.
  intros Hw. unfold code_read. destruct (bo_bootfile p) as [b|]; [|by intros ->].
  intros (c & -> & fb & n & Hf & Hn1 & Hn2 & -> & _). split; [apply bytes_ok_take; by eapply Hw|].
  rewrite length_take. lia.
Qed.

(** What a successful run leaves: a drive with the same table whose record names the partition. *)
Lemma boot_result_record p f w out data' :
  drive_file w (bo_drive_name p) f -> world_ok w -> 1 <= bo_partition p ->
  drop 512 data' = drop 512 (f_data f) -> length data' = length (f_data f) ->
  boot_result p (f_data f) w (0, out) data' ->
  disk_ok data' /\ disk_table data' = disk_table (f_data f) /\
  boot_guid data' = e_guid (disk_table (f_data f)) (Z.to_nat (bo_partition p - 1)).
Proof.
  intros Hd Hw Hp Hdrop Hlen [(_ & Hpart & code & Hc & Ed & _)|[H _]]; [|done]. cbn [fst] in Ed.
  pose proof (df_disk _ _ _ Hd) as Hdisk. pose proof (disk_record _ Hdisk) as H512.
  assert (Hb : boot_writes p = true).
  { unfold boot_writes. replace (truthy (bo_partition p)) with true by (symmetry; apply truthy_true; lia).
    by rewrite orb_true_r. }
  destruct (Hpart ltac:(lia)) as [Hacc H128].
  set (r := record_without_code p (f_data f) (slice 0 512 (f_data f))).
  assert (Hr : record_ok r).
  { apply record_without_code_ok; [done|lia|done|]. split; [apply bytes_ok_slice, Hdisk|].
    rewrite length_slice. lia. }
  pose proof (code_read_ok _ _ _ Hw Hc) as Hcode.
  set (record := edit_record p (f_data f) code (slice 0 512 (f_data f))) in *.
  assert (Hrec : record_ok record /\ p_boot_guid record = p_boot_guid r).
  { destruct code as [c|]; [|done]. destruct Hcode as [Bc Lc].
    change record with (set_p_bootcode c r). destruct Hr as [Br Lr]. unfold set_p_bootcode. split.
    - apply record_ok_splice; [done|done|lia].
    - unfold p_boot_guid. apply slice_splice_ne; lia. }
  destruct Hrec as [[Brec Lrec] Eg]. rewrite Hb in Ed. cbv zeta in Ed. split; [|split].
  - destruct Hdisk as [B S1 S2 S3]. split; unfold disk_sectors in *; rewrite ?Hlen; try done.
    rewrite Ed. by apply bytes_ok_splice.
  - unfold disk_table. by rewrite (disk_gpt_drop (f_data f)).
  - unfold boot_guid. rewrite Ed. pose proof (slice_splice_eq 0 record (f_data f)) as E.
    rewrite Lrec in E. rewrite E by lia. rewrite Eg. unfold r, record_without_code, edit_record.
    replace (truthy (bo_partition p)) with true by (symmetry; apply truthy_true; lia). cbv zeta.
    set (r' := if bo_create_pmbr p then _ else _).
    assert (Lr' : length r' = 512%nat).
    { assert (H0 : record_ok (slice 0 512 (f_data f))).
      { split; [apply bytes_ok_slice, Hdisk|]. rewrite length_slice. lia. }
      unfold r'. destruct (bo_create_pmbr p); [apply (protective_pmbr_ok _ _ H0)|apply H0]. }
    set (g := e_guid _ _). assert (Lg : length g = 16%nat).
    { unfold g, e_guid, e_unique, entry_off, sizeof_GptEntry. rewrite length_slice.
      destruct (GptSanityCheck (disk_gpt (f_data f))) as [rc gg] eqn:Ec. cbn [fst] in Hacc. subst rc.
      destruct (checked_any _ _ Hdisk Ec) as (_ & _ & Hok & _ & <-).
      assert (Ht : tbl_ok (any_table gg)) by (unfold any_table; destruct (truthy (Z.land _ _)); apply Hok).
      destruct Ht as [_ Lt]. unfold TOTAL_ENTRIES_SIZE in Lt. lia. }
    unfold p_boot_guid, set_p_boot_guid. pose proof (slice_splice_eq 424 g r') as E'.
    rewrite Lg in E'. apply E'. lia.
Qed.

(** after [cgpt_boot] has chosen a partition whose identifier no earlier entry shares,
    [cgpt_get_boot_partition_number] answers that partition, whatever system calls fail in
    between: either command may report a failure, but a wrong number is never returned. *)
Theorem cgpt_boot_choice_read_back path f w p q :
  drive_file w path f -> world_ok w -> bo_drive_name p = path -> bo_drive_name q = path ->
  1 <= bo_partition p ->
  (forall j, (j < Z.to_nat (bo_partition p - 1))%nat ->
     GuidEqual (e_guid (disk_table (f_data f)) j)
       (e_guid (disk_table (f_data f)) (Z.to_nat (bo_partition p - 1))) = false) ->
  wp (fun o w' => match o with
        | Ret (Some (rc, q')) => rc = CGPT_FAILED \/
            rc = CGPT_OK /\ q' = Some (set_boot_partition (bo_partition p) q)
        | Ret None | Exit _ => True
        | Undefined => False
        end)
    (let! (rc, _) := cgpt_boot (Some p) in
     if negb (rc =? 0) then ret None else
     let! r := cgpt_get_boot_partition_number (Some q) in ret (Some r)) w.
Proof.
  intros Hd Hw <- Hq Hn Hfirst. apply wp_bind.
  eapply wp_mono; [apply cgpt_boot_correct; [done|done|lia]|].
  intros [[rc out]|c|] w' (data' & E & Hlen & Hdrop & H); [|done|done]. destruct H as [Hfd H].
  destruct (Z.eqb_spec rc 0) as [->|Hrc]; cbn [negb]; [|by apply wp_ret].
  destruct (boot_result_record p f w out data' Hd Hw Hn Hdrop Hlen H) as (Hdisk & Ht & Hg).
  assert (Hd' : drive_file w' (bo_drive_name q) (mkFile (f_kind f) data')).
  { rewrite Hq. split; [rewrite E; apply lookup_insert_eq|apply Hd|exact Hdisk]. }
  apply wp_bind. eapply wp_mono; [exact (get_boot_partition_correct _ _ q Hd')|].
  intros [[rc q']|c|] w'' (data'' & _ & _ & H2); [|done|done]. apply wp_ret.
  destruct H2 as [_ [_ [(i & Hi & [Hbi Hbj] & [= -> ->])|[[p' [= -> ->]] _]]]]; [right|by left].
  split; [done|]. cbn [f_data] in *. rewrite Ht, Hg in *. set (n := Z.to_nat (bo_partition p - 1)) in *.
  destruct (decide (i < n)%nat) as [Hlt|Hge]; [by rewrite Hfirst in Hbi|].
  destruct (decide (n < i)%nat) as [Hlt|Hle].
  - specialize (Hbj n Hlt). unfold GuidEqual in Hbj. by rewrite memeq_refl in Hbj.
  - do 2 f_equal. lia.
Qed.
