(* ===== verification/FindSpec.v ===== *)
(** * What a search finds (theorems about cgpt_find.c) *)

From stdpp Require Import base list numbers gmap strings.
From Stdlib Require Import ZArith Lia.
From S2P Require Import Prelude Crc32 GptTypes GptLib GptSanity Posix Drive DriveSpec CgptCommon CommitSpec CommandSpec Utf GuidStr CgptCreate CgptAdd CgptAddSpec CgptShow CgptBoot CgptFind QuerySpec.

(** ** FillBuffer *)

Section Fill.
Context (fd : Z) (path : string) (wr : bool) (w0 : world) (f : file).
Context (Hf : w_files w0 !! path = Some f).

Lemma wp_fill_loop fuel count filled off w :
  session fd path true wr w0 w -> fd_file w fd = Some (mkFd path off true wr, f) ->
  0 <= off -> 0 <= count -> (Z.to_nat count <= fuel)%nat ->
  wp (fun o w' => session fd path true wr w0 w' /\ exists r, o = Ret r /\
        match r with
        | Some b => off + count <= Z.of_nat (length (f_data f)) \/ count = 0
        | None => True
        end /\
        match r with
        | Some b => b = filled ++ slice (Z.to_nat off) (Z.to_nat count) (f_data f)
        | None => quiet w0 -> Z.of_nat (length (f_data f)) < off + count
        end) (fill_loop fuel fd count filled) w.
Proof using Hf.
  revert count filled off w. induction fuel as [|fuel IH]; intros count filled off w Hs Hfd Ho Hc Hfuel.
  - simpl. replace count with 0 by lia. apply wp_ret. split; [done|].
    eexists. split; [done|]. split; [by right|]. unfold slice. by rewrite take_0, app_nil_r.
  - simpl. destruct (Z.eqb_spec count 0) as [->|Hne].
    { apply wp_ret. split; [done|]. eexists. split; [done|]. split; [by right|].
      unfold slice. by rewrite take_0, app_nil_r. }
    apply wp_bind. eapply wp_read; [exact Hfd|done|done| |].
    { intros w' Hu Hq. simpl. apply wp_ret. split; [by eapply session_unmoved|]. exists None.
      split; [done|]. split; [done|]. intros H. destruct Hq. by apply (se_quiet _ _ _ _ _ _ Hs). }
    intros w' n avail Hn1 Hn2 Hnq Hm. subst avail. cbn [fd_off] in *.
    assert (Hs' : session fd path true wr w0 w').
    { eapply session_moved; [exact Hs| | | | |exact Hm]; simpl; first [lia|done]. }
    destruct (Z.leb_spec n 0).
    { apply wp_ret. split; [done|]. exists None. split; [done|]. split; [done|]. intros H'.
      apply (se_quiet _ _ _ _ _ _ Hs) in H'. specialize (Hnq H'). lia. }
    assert (Hfd' : fd_file w' fd = Some (mkFd path (off + n) true wr, f)).
    { destruct Hm as (E1 & E2 & _). unfold fd_file. rewrite E2, lookup_insert_eq. simpl.
      by rewrite E1, (se_files _ _ _ _ _ _ Hs), Hf. }
    eapply wp_mono; [apply (IH _ _ (off + n) w' Hs' Hfd'); lia|].
    intros o w2 (Hs2 & r & -> & H1 & H2). split; [done|]. exists r. split; [done|].
    destruct r as [b|]; [|split; [done|]; intros Hq; specialize (H2 Hq); lia]. split; [lia|].
    rewrite H2, <-app_assoc. f_equal. unfold slice.
    replace (Z.to_nat (off + n)) with (Z.to_nat off + Z.to_nat n)%nat by lia.
    rewrite <-drop_drop. replace (Z.to_nat count) with (Z.to_nat n + Z.to_nat (count - n))%nat by lia.
    rewrite <-(take_drop (Z.to_nat n) (take (Z.to_nat n + Z.to_nat (count - n)) (drop (Z.to_nat off) (f_data f)))).
    rewrite take_take, Nat.min_l by lia. f_equal. rewrite skipn_firstn_comm. f_equal. lia.
Qed.
End Fill.

(** ** Which entries match *)

(** The bytes a partition is compared by. *)
Definition content_at (p : CgptFindParams) (o : nat) (t : bytes) : Z :=
  s64 (u64 (u64 (LBA_SIZE * e_starting_lba o t) + fi_matchoffset p)).

Definition content_matches (p : CgptFindParams) (data : bytes) (o : nat) (t : bytes) : bool :=
  negb (truthy (fi_matchlen p)) ||
  (u64 (fi_matchoffset p + fi_matchlen p) <=?
     u64 (LBA_SIZE * u64 (e_ending_lba o t - e_starting_lba o t + 1))) &&
  (0 <=? content_at p o t) && (content_at p o t + fi_matchlen p <=? Z.of_nat (length data)) &&
  memeq (Z.to_nat (fi_matchlen p)) (fi_matchbuf p)
    (slice (Z.to_nat (content_at p o t)) (Z.to_nat (fi_matchlen p)) data).

Definition criteria_match (p : CgptFindParams) (o : nat) (t : bytes) : bool :=
  (fi_set_unique p && GuidEqual (fi_unique_guid p) (e_unique o t)) ||
  (fi_set_type p && GuidEqual (fi_type_guid p) (e_type o t)) ||
  (fi_set_label p && match label_of o t GPT_PARTNAME_LEN with
                     | Some (rc, partlabel) => strncmp_eq (fi_label p) partlabel 72
                     | None => false
                     end).

Definition entry_matches (p : CgptFindParams) (data t : bytes) (i : Z) : bool :=
  let o := entry_off (Z.to_nat i) in
  negb (IsZero (e_type o t)) && criteria_match p o t && content_matches p data o t.

(** The labels the search converts can be converted. *)
Definition labels_ok (p : CgptFindParams) (t : bytes) : Prop :=
  fi_set_label p = true -> forall i, (i < 128)%nat -> used t i ->
  exists l, label_of (entry_off i) t GPT_PARTNAME_LEN = Some (CGPT_OK, l).

Definition find_ok (p : CgptFindParams) : Prop :=
  0 <= fi_matchlen p <= Z.of_nat (length (fi_comparebuf p)) /\ fi_matchlen p < 2 ^ 31.

(** The parameters after hits at [hits]; what the compare buffer holds is left open. *)
Definition with_hits (p : CgptFindParams) (hits : list Z) (p' : CgptFindParams) : Prop :=
  exists b, length b = length (fi_comparebuf p) /\
  p' = set_comparebuf b (foldl (fun p i => add_hit (i + 1) p) p hits).

Lemma foldl_hits p hits :
  let p' := foldl (fun p i => add_hit (i + 1) p) p hits in
  fi_hits p' = fi_hits p + Z.of_nat (length hits) /\ fi_comparebuf p' = fi_comparebuf p /\
  (forall data t i, entry_matches p' data t i = entry_matches p data t i) /\
  (fi_match_partnum p <> 0 -> fi_match_partnum p' = fi_match_partnum p) /\
  (fi_match_partnum p = 0 -> Forall (fun i => 0 <= i) hits ->
     fi_match_partnum p' = from_option (fun i => i + 1) 0 (head hits)).
Proof.
  cbv zeta. revert p. induction hits as [|h hits IH]; intros p; cbn [foldl length head].
  { split_and!; try done. lia. }
  destruct (IH (add_hit (h + 1) p)) as (I1 & I2 & I3 & I4 & I5). cbn [fi_hits fi_comparebuf add_hit] in *.
  split_and!; [lia|done|done| |].
  - intros Hp. rewrite I4; cbn [fi_match_partnum add_hit]; unfold truthy;
      destruct (Z.eqb_spec (fi_match_partnum p) 0); done.
  - intros Hp Hh. inversion Hh as [|? ? H0 H1]; subst. cbn [from_option].
    rewrite I4; cbn [fi_match_partnum add_hit]; unfold truthy; rewrite Hp; simpl; [done|lia].
Qed.

Section Search.
Context (p0 : CgptFindParams) (f : file) (w1 : world) (path : string) (d : drive).
Context (Hf : w_files w1 !! path = Some f) (Hp0 : find_ok p0).

Lemma wp_match_content {B} (Q : outcome B -> world -> Prop) kont hits p o t w :
  with_hits p0 hits p -> session (d_fd d) path true false w1 w ->
  (forall r p' w', with_hits p0 hits p' -> session (d_fd d) path true false w1 w' ->
     (r = true -> content_matches p0 (f_data f) o t = true) ->
     (quiet w1 -> r = content_matches p0 (f_data f) o t) -> wp Q (kont (r, p')) w') ->
  wp Q (bind (match_content p d o t) kont) w.
Proof using Hf Hp0.
  intros (b & Lb & ->) Hs H. destruct Hp0 as [[P1 P2] P3].
  assert (Hsame : forall c, let p := set_comparebuf c (foldl (fun p i => add_hit (i + 1) p) p0 hits) in
    fi_matchlen p = fi_matchlen p0 /\ fi_matchoffset p = fi_matchoffset p0 /\ fi_matchbuf p = fi_matchbuf p0 /\
    fi_comparebuf p = c).
  { clear. intros c. cbv zeta. split; [|split; [|split; [|done]]]; revert p0;
      induction hits as [|h l IH]; intros p; cbn [foldl]; try done; apply (IH (add_hit (h + 1) p)). }
  set (p := set_comparebuf b _) in *. destruct (Hsame b) as (E1 & E2 & E3 & E4). fold p in E1, E2, E3, E4.
  assert (Hh : with_hits p0 hits p) by (by exists b).
  unfold match_content, content_matches in *. rewrite E1, E2.
  destruct (truthy (fi_matchlen p0)) eqn:El; cbn [negb orb] in *; [|by apply wp_bind, wp_ret, H].
  set (size := u64 (LBA_SIZE * _)) in *. set (want := u64 (fi_matchoffset p0 + fi_matchlen p0)) in *.
  destruct (Z.ltb_spec size want) as [Hlt|Hge].
  { apply wp_bind, wp_ret, H; [done|done|done|]. intros _. replace (want <=? size) with false by lia. done. }
  replace (want <=? size) with true in H by lia. cbn [andb] in H.
  unfold FillBuffer, content_at in *. set (pos := u64 (u64 (LBA_SIZE * _) + _)) in *.
  apply wp_assoc, wp_assoc, wp_bind.
  eapply session_lseek; [exact Hf|exact Hs| |].
  { intros w2 Hs2 Hq. cbn [Z.eqb]. apply wp_bind, wp_ret, wp_bind, wp_ret. apply H; [done|done|done|].
    intros Hw. apply (se_quiet _ _ _ _ _ _ Hs) in Hw. specialize (Hq Hw).
    by replace (0 <=? s64 pos) with false by lia. }
  intros w2 Hs2 Hpos Hfd _. replace (-1 =? s64 pos) with false by lia.
  replace (0 <=? s64 pos) with true in H by lia. cbn [andb] in H.
  apply wp_assoc, wp_bind. eapply wp_mono; [eapply (wp_fill_loop _ _ _ _ _ Hf); [exact Hs2|exact Hfd|lia|lia|lia]|].
  intros o' w3 (Hs3 & r & -> & Hin & Hr). destruct r as [c|].
  - simpl in Hr. apply truthy_true in El.
    apply wp_bind, wp_ret. cbn [negb]. apply wp_bind, wp_ret.
    assert (Lc : length c = Z.to_nat (fi_matchlen p0)) by (rewrite Hr, length_slice; lia).
    assert (Er : memeq (Z.to_nat (fi_matchlen p0)) (fi_matchbuf p0) (splice 0 c b) =
      memeq (Z.to_nat (fi_matchlen p0)) (fi_matchbuf p0) c).
    { unfold memeq, splice. rewrite take_0. simpl. by rewrite take_app_le by lia. }
    rewrite Hr in Er at 2. rewrite E4.
    change (set_comparebuf ?x p) with (set_comparebuf x (foldl (fun p i => add_hit (i + 1) p) p0 hits)).
    destruct (Hsame (splice 0 c b)) as (F1 & F2 & F3 & F4). rewrite F1, F3, F4, Er.
    apply H; [|done| |].
    + exists (splice 0 c b). split; [|done]. rewrite length_splice; lia.
    + intros ->. by replace (_ <=? Z.of_nat _) with true by lia.
    + intros _. by replace (_ <=? Z.of_nat _) with true by lia.
  - apply wp_bind, wp_ret. cbn [negb]. apply wp_bind, wp_ret. apply H; [done|done|done|].
    intros Hw. specialize (Hr Hw). by replace (_ <=? Z.of_nat _) with false by lia.
Qed.
End Search.

(** [hits] are matches in order, all of them when no call fails. *)
Definition hits_of (p : CgptFindParams) (data t : bytes) (w : world) (idx hits : list Z) : Prop :=
  let m := filter (fun i => entry_matches p data t i = true) idx in
  hits `sublist_of` m /\ (quiet w -> hits = m).

Definition find_result (p : CgptFindParams) (data : bytes) (w : world)
    (r : Z * CgptFindParams * bytes) (data' : bytes) : Prop :=
  data' = data /\
  exists hits, with_hits p hits r.1.2 /\ r.1.1 = Z.of_nat (length hits) /\
    ((GptSanityCheck (disk_gpt data)).1 = GPT_SUCCESS /\ hits_of p data (disk_table data) w all_idx hits \/
     hits = [] /\ (quiet w -> (GptSanityCheck (disk_gpt data)).1 <> GPT_SUCCESS)).

Lemma hits_miss p data t w pre i hits :
  hits_of p data t w pre hits -> (quiet w -> entry_matches p data t i = false) ->
  hits_of p data t w (pre ++ [i]) hits.
Proof.
  intros [H1 H2] Hi. unfold hits_of. rewrite filter_app, filter_cons, filter_nil. split.
  - apply sublist_app_r. exists hits, []. split; [by rewrite app_nil_r|]. split; [done|apply sublist_nil_l].
  - intros Hq. rewrite (Hi Hq). rewrite decide_False by done. rewrite app_nil_r. auto.
Qed.

Lemma hits_hit p data t w pre i hits :
  hits_of p data t w pre hits -> entry_matches p data t i = true ->
  hits_of p data t w (pre ++ [i]) (hits ++ [i]).
Proof.
  intros [H1 H2] Hi. unfold hits_of. rewrite filter_app, filter_cons, filter_nil.
  rewrite decide_True by done. split; [by apply sublist_app|]. intros Hq. by rewrite (H2 Hq).
Qed.

Lemma showmatch_some p name partnum o t : bytes_ok t -> (o + 128 <= length t)%nat ->
  exists s, showmatch p name partnum o t = Some s.
Proof.
  intros Ht Ho. unfold showmatch. destruct (0 <? fi_verbose p); [|by eexists].
  destruct (EntryDetails_some o t Ht Ho (partnum - 1) (fi_numeric p)) as [s ->]. by eexists.
Qed.

Lemma wp_entry_found {B} (Q : outcome B -> world -> Prop) kont p p0 hits i t w :
  bytes_ok t -> with_hits p0 hits p -> labels_ok p0 t -> (i < 128)%nat -> used t i ->
  wp Q (kont (Some (criteria_match p0 (entry_off i) t))) w ->
  wp Q (bind (entry_found p (entry_off i) t) kont) w.
Proof.
  intros Ht (b & _ & ->) Hl Hi Hu H.
  assert (E : forall {X} (g : CgptFindParams -> X), (forall n q, g (add_hit n q) = g q) ->
    g (foldl (fun p i => add_hit (i + 1) p) p0 hits) = g p0).
  { clear. intros X g Hg. revert p0. induction hits as [|h l IH]; intros p0; cbn [foldl]; [done|].
    by rewrite IH, Hg. }
  unfold entry_found. cbn [fi_set_unique fi_unique_guid fi_set_type fi_type_guid fi_set_label fi_label set_comparebuf].
  rewrite (E _ fi_set_unique), (E _ fi_unique_guid), (E _ fi_set_type), (E _ fi_type_guid),
    (E _ fi_set_label), (E _ fi_label) by done.
  unfold criteria_match in H. destruct ((fi_set_unique p0 && _) || (fi_set_type p0 && _)).
  { apply wp_bind, wp_ret, H. }
  cbn [orb] in H. destruct (fi_set_label p0) eqn:El; [|apply wp_bind, wp_ret, H].
  destruct (Hl El i Hi Hu) as [l El']. rewrite El' in *. cbn [lift andb] in *.
  apply wp_assoc, wp_bind, wp_ret. change (negb (CGPT_OK =? CGPT_OK)) with false. cbv iota.
  apply wp_bind, wp_ret, H.
Qed.

Lemma do_search_correct p f w name :
  drive_file w name f -> find_ok p -> labels_ok p (disk_table (f_data f)) ->
  wp (command_post name f w (find_result p (f_data f) w)) (do_search p name) w.
Proof.
  intros Hd Hp Hl. unfold do_search. pose proof (df_disk _ _ _ Hd) as Hdisk.
  assert (Hnone : with_hits p [] p) by (exists (fi_comparebuf p); split; [done|by destruct p]).
  eapply wp_open_drive; [exact Hd|done..| | |].
  2:{ intros d w' E1 E2 Hq. simpl. apply wp_ret. apply unchanged_post; [done|done|]. split; [done|].
      split; [done|]. exists []. split; [done|]. split; [done|]. right. split; [done|]. tauto. }
  2:{ intros c w' E1 Hq. by apply unchanged_post. }
  intros d w1 w2 Hos Hs Hg _. change (negb (CGPT_OK =? CGPT_OK)) with false. cbv iota. rewrite Hg.
  assert (Hf1 : w_files w1 !! name = Some f) by (destruct Hos as (_ & _ & -> & _); apply Hd).
  assert (Hq1 : quiet w -> quiet w1) by apply Hos.
  destruct (GptSanityCheck (disk_gpt (f_data f))) as [r g] eqn:Ec. cbv zeta beta.
  assert (Hend : forall w' x, session (d_fd d) name true false w1 w' ->
    find_result p (f_data f) w x (f_data f) ->
    wp (command_post name f w (find_result p (f_data f) w)) (DriveClose (set_gpt g d) false ;; ret x) w').
  { intros w' x Hs' H. eapply wp_close_drive; [exact Hd|exact Hos|exact Hs'|done|].
    intros d'' w4 F1 F2. apply wp_ret. by apply unchanged_post. }
  destruct (Z.eqb_spec r GPT_SUCCESS) as [->|Hr]; cbn [negb].
  2:{ apply Hend; [done|]. split; [done|]. exists []. split; [done|]. split; [done|]. right.
      split; [done|]. intros _. by rewrite Ec. }
  destruct (checked_any _ _ Hdisk Ec) as (Hget & Hn & Hok & _ & Ht). rewrite Hn.
  change (indices 128) with all_idx. set (t := disk_table (f_data f)) in *.
  assert (Htbl : tbl_ok t) by (rewrite <-Ht; unfold any_table; destruct (truthy (Z.land _ _)); apply Hok).
  destruct Htbl as [Bt Lt]. unfold TOTAL_ENTRIES_SIZE in Lt.
  eapply (wp_for_entries _ (fun idx (s : search_state) w' => session (d_fd d) name true false w1 w' /\
    s.1.1.1 = false /\ exists hits, with_hits p hits s.1.2 /\ s.1.1.2 = Z.of_nat (length hits) /\
    hits_of p (f_data f) t w idx hits)); [exact Hget|exact all_idx_range| | |].
  - intros pre i post [[[stopped n] p'] out] k w' Hall (Hs' & E & hits & Hw & En & Hh) Hk.
    cbn [fst snd] in *. subst stopped n.
    assert (Hi : 0 <= i < 128) by (apply all_idx_spec; rewrite Hall; apply elem_of_app; right; by left).
    pose proof (any_IsZero _ _ (Z.to_nat i) Hdisk Ec ltac:(lia)) as Hz. fold t in Hz.
    unfold search_step. cbn [d_gpt set_gpt]. rewrite any_at_table, Ht in *. cbn [any_at ep_off] in *.
    set (o := entry_off (Z.to_nat i)) in *.
    destruct (IsZero (e_type o t)) eqn:Ez.
    { apply wp_bind, wp_ret, Hk. split; [done|]. split; [done|]. exists hits. split; [done|]. split; [done|].
      apply hits_miss; [done|]. intros _. unfold entry_matches. fold o. by rewrite Ez. }
    assert (Hu : used t (Z.to_nat i)).
    { destruct (decide (used t (Z.to_nat i))) as [Hu|Hu]; [done|]. apply Hz in Hu. congruence. }
    apply wp_assoc. eapply wp_entry_found; [done|exact Hw|done|lia|done|]. fold o.
    destruct (criteria_match p o t) eqn:Em.
    2:{ apply wp_bind, wp_ret, Hk. split; [done|]. split; [done|]. exists hits. split; [done|]. split; [done|].
        apply hits_miss; [done|]. intros _. unfold entry_matches. fold o. by rewrite Ez, Em. }
    apply wp_assoc. eapply (wp_match_content p f w1 name (set_gpt g d) Hf1 Hp); [exact Hw|exact Hs'|].
    intros r p2 w3 Hw2 Hs3 Hr1 Hr2.
    assert (Ee : entry_matches p (f_data f) t i = content_matches p (f_data f) o t).
    { unfold entry_matches. fold o. by rewrite Ez, Em. }
    destruct r; cbn [negb].
    + destruct (showmatch_some p2 (str name) (i + 1) o t Bt) as [s Es].
      { unfold o, entry_off, sizeof_GptEntry. lia. }
      rewrite Es. apply wp_bind, wp_bind, wp_ret, wp_ret, Hk. split; [done|]. split; [done|].
      exists (hits ++ [i]). split; [|split].
      * destruct Hw2 as (b & Lb & ->). exists b. split; [done|]. rewrite foldl_app. done.
      * cbn [fst snd]. rewrite length_app. simpl. lia.
      * apply hits_hit; [done|]. rewrite Ee. auto.
    + apply wp_bind, wp_ret, Hk. split; [done|]. split; [done|]. exists hits. split; [done|]. split; [done|].
      apply hits_miss; [done|]. intros Hq. rewrite Ee. symmetry. auto.
  - split; [done|]. split; [done|]. exists []. split; [done|]. split; [done|]. by split.
  - intros [[[stopped n] p'] out] w' (Hs' & E & hits & Hw & En & Hh). cbn [fst snd] in *. subst stopped n.
    apply Hend; [done|]. split; [done|]. exists hits. split; [done|]. split; [done|]. left.
    split; [by rewrite Ec|done].
Qed.

(** The answer in terms of the entries that hit. *)
Definition find_report (p : CgptFindParams) (data : bytes) (w : world)
    (r : Z * CgptFindParams * bytes) (data' : bytes) : Prop :=
  data' = data /\
  exists hits,
    r.1.1 = Z.of_nat (length hits) /\ fi_hits r.1.2 = fi_hits p + r.1.1 /\
    fi_match_partnum r.1.2 =
      (if truthy (fi_match_partnum p) then fi_match_partnum p
       else from_option (fun i => i + 1) 0 (head hits)) /\
    ((GptSanityCheck (disk_gpt data)).1 = GPT_SUCCESS /\ hits_of p data (disk_table data) w all_idx hits \/
     hits = [] /\ (quiet w -> (GptSanityCheck (disk_gpt data)).1 <> GPT_SUCCESS)).

Lemma find_result_report p data w r data' : find_result p data w r data' -> find_report p data w r data'.
Proof.
  destruct r as [[n p'] out]. intros (-> & hits & (b & _ & Ep) & En & H). cbn [fst snd] in *. subst p'.
  split; [done|]. exists hits. destruct (foldl_hits p hits) as (F1 & _ & _ & F4 & F5).
  cbn [fst snd fi_hits fi_match_partnum set_comparebuf]. split; [done|]. split; [lia|]. split; [|exact H].
  unfold truthy. destruct (Z.eqb_spec (fi_match_partnum p) 0) as [E|E]; [|by apply F4].
  apply F5; [done|]. destruct H as [[_ [Hsub _]]|[-> _]]; [|constructor].
  apply Forall_forall. intros i Hi.
  assert (Hin : i ∈ filter (fun i => entry_matches p data (disk_table data) i = true) all_idx).
  { by eapply elem_of_sublist. }
  apply list_elem_of_filter in Hin as [_ Hin]. apply all_idx_spec in Hin. lia.
Qed.

(** searching a drive never writes to it and leaves it closed.  Every hit is a used entry that
    meets the criteria and whose content matches, hits are counted once each and in order, the
    number reported is that of the first; without a failing system call no matching entry of an
    acceptable table is missed. *)
Theorem do_search_finds_matches name p f w :
  drive_file w name f -> find_ok p -> labels_ok p (disk_table (f_data f)) ->
  wp (command_post name f w (find_report p (f_data f) w)) (do_search p name) w.
Proof.
  intros Hd Hp Hl. eapply wp_mono; [by apply do_search_correct|].
  intros o w' (data' & E & Hc & H). exists data'. split; [done|]. split; [done|].
  destruct o as [r|c|]; [|done|done]. destruct H as [Hfd H]. split; [done|]. by apply find_result_report.
Qed.
