(* ===== verification/Util.v ===== *)
(** * Helpers of the provisioning tools (util.c)

    Whole-file and whole-buffer transfers over the system calls of [Posix], the small routines on
    bytes, mappings, logs and starting other programs.  A buffer is filled from its start; the
    position in it is the number of bytes filled.  A mapping that is only read is a copy of the file.
    Starting a program and waiting for it is a parameter that answers how the program ended; whatever
    the program does to the files is part of it.  Messages are left out. *)

From stdpp Require Import base list numbers gmap strings.
From Stdlib Require Import ZArith Lia.
From S2P Require Import Prelude Posix GuidStr CLib.

(** ** More system calls *)

Definition get_errno : M Z := fun w => (Ret (w_errno w), w).

(** [fsync]: a failure is reported and nothing else happens. *)
Definition sys_fsync (fd : Z) : M Z :=
  let! f := next_fault in match f with Ferr e => sys_fail e | _ => ret 0 end.

(** [stat]: the return value and the size of a regular file. *)
Definition sys_stat (path : string) : M (Z * Z) :=
  let! f := next_fault in
  match f with
  | Ferr e => let! r := sys_fail e in ret (r, 0)
  | _ => fun w =>
    match w_files w !! path with
    | None => (let! r := sys_fail ENOENT in ret (r, 0)) w
    | Some (mkFile Symlink _) => (let! r := sys_fail ELOOP in ret (r, 0)) w
    | Some (mkFile Regular d) => (Ret (0, Z.of_nat (length d)), w)
    | Some _ => (Ret (0, 0), w)
    end
  end.

(** [sendfile(out, in, &offset, count)] with an offset of 0. *)
Definition sys_sendfile (out_fd in_fd count : Z) : M Z :=
  let! f := next_fault in
  match f with
  | Ferr e => sys_fail e
  | _ => fun w =>
    match fd_file w in_fd, fd_file w out_fd with
    | Some (di, fi), Some (dout, fo) =>
        if negb (fd_read di && fd_write dout) then sys_fail EBADF w else
        let n := transfer f (Z.min (Z.max 0 count) (Z.of_nat (length (f_data fi)))) in
        (Ret n, set_off out_fd dout (fd_off dout + n)
           (set_files (<[ fd_path dout :=
              mkFile (f_kind fo) (write_at (Z.to_nat (fd_off dout)) (take (Z.to_nat n) (f_data fi)) (f_data fo)) ]>
              (w_files w)) w))
    | _, _ => sys_fail EBADF w
    end
  end.

(** ** Reading and writing everything *)

(** The loops run until the transfer is complete or a call fails with anything but [EINTR].
    Every round but two consumes an event of the schedule or completes the transfer, so
    [rounds] rounds are enough for a loop that ends; one that would go on for ever has no
    defined result, like one whose position leaves the buffer: after [EINTR] the position moves
    back by one. *)
Definition rounds : M nat := fun w => (Ret (length (w_faults w) + 2)%nat, w).

(** [TEMP_FAILURE_RETRY(call)], where [result] is what the call returns: every failure takes an event
    of the schedule. *)
Fixpoint retry {A} (result : A -> Z) (fuel : nat) (call : M A) : M A :=
  match fuel with
  | O => undefined
  | S fuel =>
      let! a := call in
      let! errno := get_errno in
      if (result a =? -1) && (errno =? EINTR) then retry result fuel call else ret a
  end.

Definition TEMP_FAILURE_RETRY (call : M Z) : M Z := let! n := rounds in retry id n call.

Lemma retry_done call w r w' : call w = (Ret r, w') -> r <> -1 -> TEMP_FAILURE_RETRY call w = (Ret r, w').
Proof.
  intros H Hr. unfold TEMP_FAILURE_RETRY, rounds, bind. rewrite Nat.add_comm. cbn [retry Nat.add]. unfold bind. rewrite H.
  cbn. unfold id. by rewrite (proj2 (Z.eqb_neq r (-1))).
Qed.

Fixpoint read_loop (fuel : nat) (fd size : Z) (filled : bytes) : M (Z * bytes) :=
  let left := size - Z.of_nat (length filled) in
  if left =? 0 then ret (0, filled) else
  match fuel with
  | O => undefined
  | S fuel =>
      let! (r, b) := sys_read fd left in
      let! errno := get_errno in
      if (r <=? 0) && negb (errno =? EINTR) then ret (-1, filled) else
      if r <? 0
      then if is_null filled then undefined
           else read_loop fuel fd size (take (length filled - 1) filled)
      else read_loop fuel fd size (filled ++ b)
  end.

(** The return value and what was stored in the buffer. *)
Definition safe_read (fd size : Z) : M (Z * bytes) :=
  let! fuel := rounds in read_loop fuel fd size [].

Fixpoint write_loop (fuel : nat) (fd : Z) (buf : bytes) (pos : Z) : M bool :=
  let left := Z.of_nat (length buf) - pos in
  if left =? 0 then ret true else
  match fuel with
  | O => undefined
  | S fuel =>
      if pos <? 0 then undefined else
      let! r := sys_write fd (drop (Z.to_nat pos) buf) in
      let! errno := get_errno in
      if (r <=? 0) && negb (errno =? EINTR) then ret false
      else write_loop fuel fd buf (pos + r)
  end.

Definition write_all (fd : Z) (buf : bytes) : M bool :=
  let! fuel := rounds in write_loop fuel fd buf 0.

(** ** Whole files *)

Definition EFAULT : Z := 14.

(** The return value and the buffer handed back.  The allocation is checked through the wrong
    pointer, so a failed one is noticed only when the kernel refuses to store at NULL. *)
Definition file_read (filename : string) (datap : bool) : M (Z * option bytes) :=
  let! (r, sz) := sys_stat filename in
  if truthy r then ret (-1, None) else
  let! fd := sys_open filename O_RDONLY in
  if fd <? 0 then ret (-1, None) else
  let! data := sys_malloc sz in
  if negb datap then ret (-1, None) else
  let! (r, b) :=
    if data then safe_read fd sz
    else if sz =? 0 then ret (0, []) else let! r := sys_fail EFAULT in ret (r, []) in
  sys_close fd ;;
  if truthy r then ret (-1, None) else ret (0, Some b).

Definition O_CREATE := mkOflags true true false true true.

Definition file_write (filename : string) (data : bytes) : M Z :=
  let! fd := sys_open filename O_CREATE in
  if fd <? 0 then ret (-1) else
  let! ok := write_all fd data in
  if negb ok then sys_close fd ;; ret (-1) else
  sys_fsync fd ;; sys_close fd ;; ret 0.

Definition file_string_write (filename : string) (what : bytes) : M Z :=
  file_write filename (c_string what).

(** The label [out] of [file_copy]. *)
Definition copy_out (in_fd out_fd : Z) : M Z :=
  (if 0 <=? in_fd then sys_close in_fd ;; ret tt else ret tt) ;;
  if 0 <=? out_fd then let! r := sys_close out_fd in ret (if r <? 0 then -1 else 0) else ret (-1).

Definition file_copy (src dst : option string) : M Z :=
  match src, dst with
  | Some src, Some dst =>
      let! in_fd := sys_open src O_RDONLY in
      if in_fd <? 0 then copy_out in_fd (-1) else
      let! out_fd := sys_open dst O_CREATE in
      if out_fd <? 0 then copy_out in_fd out_fd else
      let! (r, _, size) := sys_fstat in_fd in
      if r =? -1 then copy_out in_fd out_fd else
      sys_sendfile out_fd in_fd size ;;
      copy_out in_fd out_fd
  | _, _ => copy_out (-1) (-1)
  end.

Definition file_size (filename : string) : M Z :=
  let! (r, size) := sys_stat filename in
  if r =? -1 then ret (-1) else ret (s32 size).

(** ** Bytes and text *)

(** The text stored; the C function returns its length.  [None]: the data is read past its end. *)
Fixpoint snhexdump (size : Z) (data : bytes) (sz : nat) : option bytes :=
  match sz with
  | O => Some []
  | S sz =>
      if 4 <? size then
        match data with
        | [] => None
        | b :: data => text ← snhexdump (size - 3) data sz; Some (fmt_x 2 b ++ [32] ++ text)
        end
      else Some []
  end.

(** The rows printed, from a buffer of [left] bytes; no result when [bytes_per_row] is 0, where
    the loop never ends. *)
Fixpoint hexdump_rows (fuel : nat) (buffer : bytes) (left bytes_per_row : nat) : option (list bytes) :=
  if (left =? 0)%nat then Some [] else
  match fuel with
  | O => None
  | S fuel =>
      let row := if (left <? bytes_per_row)%nat then left else bytes_per_row in
      text ← snhexdump 1023 buffer row;
      rest ← hexdump_rows fuel (drop row buffer) (left - row) bytes_per_row;
      Some ((text ++ NL) :: rest)
  end.

Definition hexdump_buffer (buffer : bytes) (bytes_per_row : nat) : option (list bytes) :=
  hexdump_rows (length buffer) buffer (length buffer) bytes_per_row.

Fixpoint sum_bytes (buf : bytes) (size : nat) (cs : Z) : option Z :=
  match size, buf with
  | O, _ => Some cs
  | S size, b :: buf => sum_bytes buf size (u8 (cs + b))
  | S _, [] => None
  end.

Definition twoscomplement (buf : bytes) (size : nat) : option Z :=
  cs ← sum_bytes buf size 0; Some (u8 (Z.lnot cs + 1)).

Definition is_hex (c : Z) : bool :=
  ((48 <=? c) && (c <=? 57)) || ((65 <=? c) && (c <=? 70)) || ((97 <=? c) && (c <=? 102)).

(** ** Calls *)

(** [mmap(NULL, length, PROT_READ, MAP_SHARED, fd, 0)]: the bytes mapped, [None] for [MAP_FAILED]. *)
Definition sys_mmap_read (fd size : Z) : M (option bytes) :=
  let! f := next_fault in
  match f with
  | Ferr e => sys_fail e ;; ret None
  | _ => fun w =>
    match fd_file w fd with
    | Some (d, file) =>
        if size =? 0 then (sys_fail EINVAL ;; ret None) w
        else if negb (fd_read d) then (sys_fail EACCES ;; ret None) w
        else if Z.of_nat (length (f_data file)) <? size then (Undefined, w)
        else (Ret (Some (take (Z.to_nat size) (f_data file))), w)
    | None => (sys_fail EBADF ;; ret None) w
    end
  end.

Definition sys_munmap : M Z :=
  let! f := next_fault in match f with Ferr e => sys_fail e | _ => ret 0 end.

(** What [file_mmap] answers: a mapping, [MAP_FAILED], or NULL when the file cannot be opened. *)
Inductive mapping := Mapped (data : bytes) | MapFailed | MapNull.

Definition file_mmap (filename : string) (length : Z) (writable : bool) : M mapping :=
  let! fd := sys_open filename (if writable then O_RDWR else O_RDONLY) in
  if fd =? -1 then ret MapNull else
  let! data := sys_mmap_read fd length in
  sys_close fd ;;
  ret (match data with Some data => Mapped data | None => MapFailed end).

(** ** Logs *)

Fixpoint trace_lines (fuel : nat) (fp : FILE) (out : bytes) : M bytes :=
  match fuel with
  | O => undefined
  | S fuel =>
      let! buf := fgets 1024 fp in
      match buf with None => ret out | Some buf => trace_lines fuel fp (out ++ c_string buf) end
  end.

(** The text printed. *)
Definition dump_trace_file (filename : string) : M bytes :=
  let! fp := fopen filename mode_r in
  match fp with
  | None => ret []
  | Some fp => let! n := file_rounds fp in let! out := trace_lines n fp [] in fclose fp ;; ret out
  end.

(** ** Programs *)

(** How a program ends: its status, a signal, or [waitpid] fails, because of the alarm or not. *)
Inductive wait_result := Exited (status : Z) | Signaled | WaitFailed (expired : bool).

Section Program.
(** [fork] and the program behind it: [None] when it cannot be started. *)
Context (spawn : string -> list bytes -> Z -> M (option wait_result)).

(** The buffer has room for [pass_string] alone. *)
Fixpoint search_log (fuel : nat) (pass_string : bytes) (file : FILE) : M bool :=
  match fuel with
  | O => undefined
  | S fuel =>
      let! buf := fgets (Z.of_nat (length pass_string) + 1) file in
      match buf with
      | None => ret false
      | Some buf => if bool_decide (is_Some (strstr (c_string buf) pass_string)) then ret true else search_log fuel pass_string file
      end
  end.

Definition sys_sigaction : M Z :=
  let! f := next_fault in match f with Ferr e => sys_fail e | _ => ret 0 end.

(** The label [close], and what is answered. *)
Definition call_close (fd r : Z) : M Z := sys_close fd ;; ret r.

Definition call_program (path log_file : string) (pass_string : bytes) (argv : list bytes) : M Z :=
  let! fd := sys_open log_file (mkOflags true true false true true) in
  if fd =? -1 then ret 1 else
  let! started := spawn path argv fd in
  match started with
  | None => call_close fd 1
  | Some ended =>
      let! r := sys_sigaction in
      if r =? -1 then call_close fd 1 else
      match ended with
      | Exited 0 =>
          let! r := sys_lseek fd 0 in
          if r =? -1 then call_close fd 1 else
          let! ok := sys_malloc 0 in
          if negb ok then call_close fd 1 else
          let file := mkFILE fd false false in
          let! n := file_rounds file in
          let! found := search_log n pass_string file in
          fclose file ;; ret (if found then 0 else 1)
      | _ => call_close fd 1
      end
  end.
End Program.
