(* ===== verification/BootTools.v ===== *)
(** * Packing and unpacking boot images (intel-boot-tools/pack.c, unpack.c, bootheader.h)

    A boot image is a boot header, a kernel and a ramdisk, filled up to whole sectors.  Both
    programs are run by the user with file names; their return values are exit codes.  Numbers
    of the header are little-endian ([htole32], [le32toh]); offsets have 64 bits on the hosts the
    tools are built for; messages are left out. *)

From stdpp Require Import base list numbers gmap strings.
From Stdlib Require Import ZArith Lia.
From S2P Require Import Prelude Posix CLib Util.

(** ** Layout *)

Definition MAGIC_SIZE : nat := 7.
Definition ID_SIZE : nat := 0x28.
Definition HEADER_SIZE : nat := MAGIC_SIZE + 1 + ID_SIZE + 4 + 4.
Definition HEAD_PADDING : nat := 0x1c8.
Definition UNKNOWN_SIZE : nat := 0x1e0.
Definition CMDLINE_SIZE : nat := 0x400.
Definition CMDLINE_END : nat := HEADER_SIZE + HEAD_PADDING + UNKNOWN_SIZE + CMDLINE_SIZE.
Definition PADDING1_SIZE : nat := 0xbf0.
Definition BOOTSTUBSTACK_SIZE : nat := Z.to_nat 0x2000.
Definition SECTOR_SIZE : Z := 0x200.

(** [struct bootheader]: the fields the programs use. *)
Definition sizeof_bootheader : nat := CMDLINE_END + 16 + PADDING1_SIZE + BOOTSTUBSTACK_SIZE.
Definition h_xor (h : bytes) : Z := getn 1 MAGIC_SIZE h.
Definition sectors (h : bytes) : Z := getn 4 (MAGIC_SIZE + 1 + ID_SIZE) h.
Definition bzImageSize (h : bytes) : Z := getn 4 CMDLINE_END h.
Definition initrdSize (h : bytes) : Z := getn 4 (CMDLINE_END + 4) h.
Definition set_xor (v : Z) (h : bytes) : bytes := putn 1 MAGIC_SIZE v h.
Definition set_sectors (v : Z) (h : bytes) : bytes := putn 4 (MAGIC_SIZE + 1 + ID_SIZE) v h.
Definition set_bzImageSize (v : Z) (h : bytes) : bytes := putn 4 CMDLINE_END v h.
Definition set_initrdSize (v : Z) (h : bytes) : bytes := putn 4 (CMDLINE_END + 4) v h.

(** The size of the buffer of a stream. *)
Definition BUFSIZ : Z := 8192.

(** ** pack.c *)

Definition calculate_checksum (hdr : bytes) : Z := fold_left Z.lxor (slice 0 HEADER_SIZE hdr) (h_xor hdr).

(** [while ((size = fread(buf, 1, BUFSIZ, from))) fwrite(buf, 1, size, to);]: every round but one
    moves bytes or ends the loop. *)
Fixpoint copy_loop (fuel : nat) (from to : FILE) : M unit :=
  match fuel with
  | O => undefined
  | S fuel =>
      let! (from, buf) := fread from BUFSIZ in
      if is_null buf then ret tt else fwrite to buf ;; copy_loop fuel from to
  end.

(** The bytes of the stream that are left bound the rounds; the stream may be NULL. *)
Definition left_of (f : FILE) : M nat := fun w =>
  (Ret (match fd_file w (fl_fd f) with Some (_, file) => length (f_data file) | None => 0%nat end), w).

Definition copy_stream (from : option FILE) (to : FILE) : M unit :=
  match from with
  | None => undefined
  | Some from => let! n := left_of from in copy_loop (S n) from to
  end.

(** The header with the sizes of the parts, and the number of bytes that fill the last sector; it
    is left unset when none are needed. *)
Definition patch_header (file : bytes) (bz_size rd_size : Z) : bytes * option Z :=
  let tmp := u32 bz_size in
  let totalImageSize := tmp in
  let file := set_bzImageSize tmp file in
  let totalImageSize := u32 (totalImageSize + Z.of_nat sizeof_bootheader) in
  let tmp := u32 rd_size in
  let totalImageSize := u32 (totalImageSize + tmp) in
  let paddings := if 0 <? totalImageSize mod SECTOR_SIZE
                  then Some (SECTOR_SIZE - totalImageSize mod SECTOR_SIZE) else None in
  let totalImageSize := u32 (totalImageSize + default 0 paddings) in
  let file := set_initrdSize tmp file in
  let file := set_sectors (u32 (totalImageSize / SECTOR_SIZE - 1)) file in
  (set_xor (calculate_checksum file) file, paddings).

(** [argv] without the name of the program.  Testing [paddings] when it was never set is
    undefined. *)
Definition pack_main (argv : list string) : M Z :=
  match argv with
  | [origin; bzImage; ramdisk; output] =>
      let! forigin := fopen origin mode_r in
      let! fbzImage := fopen bzImage mode_r in
      let! framdisk := fopen ramdisk mode_r in
      let! foutput := fopen output mode_w in
      match forigin, foutput with
      | Some forigin, Some foutput =>
          let! ok := sys_malloc (Z.of_nat sizeof_bootheader) in
          if negb ok then ret 1 else
          let! (_, file) := fread forigin (Z.of_nat sizeof_bootheader) in
          if (length file <? sizeof_bootheader)%nat then ret 1 else
          let! (r, bz_size) := sys_stat bzImage in
          if negb (r =? 0) then ret 1 else
          let! (r, rd_size) := sys_stat ramdisk in
          if negb (r =? 0) then ret 1 else
          let '(file, paddings) := patch_header file bz_size rd_size in
          let! n := fwrite foutput file in
          if n <? Z.of_nat sizeof_bootheader then ret 1 else
          copy_stream fbzImage foutput ;;
          copy_stream framdisk foutput ;;
          match paddings with
          | None => undefined
          | Some paddings =>
              let! n := fwrite foutput (replicate (Z.to_nat paddings) 0xff) in
              if n <? paddings then ret 1 else ret 0
          end
      | _, _ => ret 1
      end
  | _ => ret 1
  end.

(** ** unpack.c *)

(** [while (missing > 0)]: a round that reads nothing is repeated.  A round moves bytes, or
    consumes a failure of the schedule, or will repeat for ever, so that no result is left when
    the rounds run out. *)
Fixpoint extract_loop (fuel : nat) (missing : Z) (from to : FILE) : M unit :=
  if missing <=? 0 then ret tt else
  match fuel with
  | O => undefined
  | S fuel =>
      let! (from, buf) := fread from (if BUFSIZ <? missing then BUFSIZ else missing) in
      if is_null buf then extract_loop fuel missing from to
      else fwrite to buf ;; extract_loop fuel (missing - Z.of_nat (length buf)) from to
  end.

Definition extract (missing : Z) (from to : FILE) : M unit := fun w =>
  extract_loop (Z.to_nat missing + length (w_faults w)) missing from to w.

Definition read_length (forigin : FILE) (off : Z) : M (option (FILE * Z)) :=
  let! (r, forigin) := fseek forigin off in
  if r =? -1 then ret None else
  let! (forigin, b) := fread forigin 4 in
  ret (if (length b <? 4)%nat then None else Some (forigin, le_dec b)).

(** The output that is checked for NULL is the name of the kernel, not its stream. *)
Definition unpack_main (argv : list string) : M Z :=
  match argv with
  | [origin; bzImage; ramdisk] =>
      let! forigin := fopen origin mode_r in
      let! fbzImage := fopen bzImage mode_w in
      let! framdisk := fopen ramdisk mode_w in
      match forigin, framdisk with
      | Some forigin, Some framdisk =>
          let! got := read_length forigin (Z.of_nat CMDLINE_END) in
          match got with
          | None => ret 1
          | Some (forigin, bzImageLen) =>
          let! got := read_length forigin (Z.of_nat (CMDLINE_END + 4)) in
          match got with
          | None => ret 1
          | Some (forigin, ramdiskLen) =>
          let! (r, forigin) := fseek forigin (Z.of_nat sizeof_bootheader) in
          if r =? -1 then ret 1 else
          match fbzImage with
          | None => if bzImageLen =? 0 then ret tt else undefined
          | Some fbzImage => extract bzImageLen forigin fbzImage
          end ;;
          let! (r, forigin) := fseek forigin (Z.of_nat sizeof_bootheader + bzImageLen) in
          if r =? -1 then ret 1 else
          extract ramdiskLen forigin framdisk ;;
          ret 0
          end
          end
      | _, _ => ret 1
      end
  | _ => ret 1
  end.
