(* ===== verification/FwVersion.v ===== *)
(** * Firmware versions (fw_version_check.c, fw_version_check.h)

    Versions are reported by the running firmware as text in /sys, and stand in the FIP headers
    of firmware images.  Messages are left out. *)

From stdpp Require Import base list numbers gmap strings.
From Stdlib Require Import ZArith Lia.
From S2P Require Import Prelude GuidStr Posix CLib.

Definition DEVICE_NAME : string := "/sys/devices/ipc/intel_fw_update.0/fw_info/fw_version".
Definition DEVICE_NAME_ALT : string := "/sys/kernel/fw_update/fw_info/fw_version".
Definition FIP_PATTERN : Z := 0x50494624.
Definition SCU_IPC_VERSION_LEN : nat := 16.
Definition SCU_IPC_VERSION_LEN_LONG : nat := 32.
Definition READ_SZ : Z := 256.
Definition SMIP_PATTERN : Z := 0x50494D53.
Definition PTI_FIELD_OFFSET : Z := 0x030C.

(** ** Versions *)

(** [struct fw_version] and [struct fw_version_long]: fields of 8 and of 16 bits. *)
Record fw_version := mkVersion { major : Z; minor : Z }.

Record firmware_versions := mkFirmware {
  ifwi : fw_version; scu : fw_version; oem : fw_version; punit : fw_version; ia32 : fw_version;
  supp_ia32 : fw_version; chaabi_icache : fw_version; chaabi_res : fw_version; chaabi_ext : fw_version
}.

Record firmware_versions_long := mkFirmwareLong {
  l_scubootstrap : fw_version; l_scu : fw_version; l_ia32 : fw_version; l_valhooks : fw_version;
  l_ifwi : fw_version; l_chaabi : fw_version; l_mia : fw_version
}.

Definition zero_version : fw_version := mkVersion 0 0.

(** [memset(v, 0, sizeof(...))] *)
Definition zero_firmware : firmware_versions :=
  mkFirmware zero_version zero_version zero_version zero_version zero_version zero_version zero_version
    zero_version zero_version.
Definition zero_firmware_long : firmware_versions_long :=
  mkFirmwareLong zero_version zero_version zero_version zero_version zero_version zero_version zero_version.

(** ** The versions of the running firmware *)

(** [sscanf(p, "%x", &v)]: the return value, and the value when it is 1. *)
Definition sscanf_x (p : bytes) : Z * option Z :=
  if is_null (skip_space p) then (-1, None)
  else match scan_X (length p) p with Some (v, _) => (1, Some v) | None => (0, None) end.

(** The loop over the tokens, from entry [i] of the array on. *)
Fixpoint parse_revisions (toks : list bytes) (len i : nat) (fw_revision : list Z) : Z * list Z :=
  match toks with
  | [] => (0, fw_revision)
  | p :: toks =>
      if (i <? len)%nat then
        match sscanf_x p with
        | (1, Some v) => parse_revisions toks len (S i) (<[i := v]> fw_revision)
        | (r, _) => (r, fw_revision)
        end
      else (0, fw_revision)
  end.

(** The return value and the array, which starts as zeros. *)
Definition read_fw_revision (len : nat) : M (Z * list Z) :=
  let fw_revision := replicate len 0 in
  let! fd := sys_open DEVICE_NAME O_RDONLY in
  let! fw_info := if fd <? 0 then sys_open DEVICE_NAME_ALT O_RDONLY else ret fd in
  if fw_info <? 0 then ret (fw_info, fw_revision) else
  let! (r, buf) := sys_read fw_info (READ_SZ - 1) in
  let '(r, fw_revision) :=
    if r <? 0 then (r, fw_revision)
    else parse_revisions (tokens (c_string buf)) len 0 fw_revision in
  sys_close fw_info ;; ret (r, fw_revision).

(** [fw_revision[i]] *)
Definition rev (fw_revision : list Z) (i : nat) : Z := nth i fw_revision 0.

Definition current_versions (r : list Z) : firmware_versions :=
  let v i j := mkVersion (u8 (rev r i)) (u8 (rev r j)) in
  mkFirmware (v 15 14)%nat (v 1 0)%nat (v 11 10)%nat (v 5 4)%nat (v 7 6)%nat (v 9 8)%nat
    zero_version zero_version zero_version.

(** The versions, [None] when the return value is not 0. *)
Definition get_current_fw_rev : M (Z * option firmware_versions) :=
  let! (r, fw_revision) := read_fw_revision SCU_IPC_VERSION_LEN in
  ret (if truthy r then (r, None) else (r, Some (current_versions fw_revision))).

(** [fw_revision[i] << 8 | fw_revision[i - 1]] stored in 16 bits. *)
Definition rev_word (r : list Z) (i : nat) : Z := u16 (Z.lor (u32 (Z.shiftl (rev r i) 8)) (rev r (i - 1))).

Definition current_versions_long (r : list Z) : firmware_versions_long :=
  let v i j := mkVersion (rev_word r i) (rev_word r j) in
  mkFirmwareLong (v 3 1)%nat (v 7 5)%nat (v 11 9)%nat (v 15 13)%nat (v 19 17)%nat (v 23 21)%nat (v 27 25)%nat.

Definition get_current_fw_rev_long : M (Z * option firmware_versions_long) :=
  let! (r, fw_revision) := read_fw_revision SCU_IPC_VERSION_LEN_LONG in
  ret (if truthy r then (r, None) else (r, Some (current_versions_long fw_revision))).

(** ** Comparing and printing *)

Definition fw_vercmp (v1 v2 : firmware_versions) : Z :=
  let ver1 := u16 (Z.shiftl (major (ifwi v1)) 8 + minor (ifwi v1)) in
  let ver2 := u16 (Z.shiftl (major (ifwi v2)) 8 + minor (ifwi v2)) in
  if ver1 <? ver2 then -1 else if ver2 <? ver1 then 1 else 0.

Definition version_text (v : fw_version) : bytes := fmt_X 2 (major v) ++ str "." ++ fmt_X 2 (minor v) ++ NL.

(** The text printed. *)
Definition dump_fw_versions (v : firmware_versions) : bytes :=
  str "         ifwi: " ++ version_text (ifwi v) ++
  str "---- components ----" ++ NL ++
  str "          scu: " ++ version_text (scu v) ++
  str "        punit: " ++ version_text (punit v) ++
  str "    hooks/oem: " ++ version_text (oem v) ++
  str "         ia32: " ++ version_text (ia32 v) ++
  str "     suppia32: " ++ version_text (supp_ia32 v) ++
  str "chaabi icache: " ++ version_text (chaabi_icache v) ++
  str "   chaabi res: " ++ version_text (chaabi_res v) ++
  str "   chaabi ext: " ++ version_text (chaabi_ext v).

(** ** The versions of an image *)

(** [sizeof(struct FIP_header)] and [sizeof(struct FIP_header_long)] *)
Definition sizeof_FIP : nat := 44.
Definition sizeof_FIP_long : nat := 352.

(** A field that replaces the old value when it is not null. *)
Definition nonnull (field old : Z) : Z := if field =? 0 then old else field.

(** [fip_version_block]: reserved, minor, major and checksum, one byte each; [IFWI_rev]: minor and
    major. *)
Definition update_version (fip : bytes) (major_off minor_off width : nat) (v : fw_version) : fw_version :=
  mkVersion (nonnull (getn width major_off fip) (major v)) (nonnull (getn width minor_off fip) (minor v)).

Definition update_block (fip : bytes) (off : nat) (v : fw_version) : fw_version :=
  update_version fip (off + 2) (off + 1) 1 v.

Definition update_firmware (fip : bytes) (v : firmware_versions) : firmware_versions :=
  mkFirmware (update_version fip 41 40 1 (ifwi v)) (update_block fip 24 (scu v)) (update_block fip 16 (oem v))
    (update_block fip 12 (punit v)) (update_block fip 8 (ia32 v)) (update_block fip 20 (supp_ia32 v))
    (update_block fip 28 (chaabi_icache v)) (update_block fip 32 (chaabi_res v)) (update_block fip 36 (chaabi_ext v)).

(** [fip_version_block_long]: minor and major, two bytes each. *)
Definition update_block_long (fip : bytes) (off : nat) (v : fw_version) : fw_version :=
  update_version fip (off + 2) off 2 v.

Definition update_firmware_long (fip : bytes) (v : firmware_versions_long) : firmware_versions_long :=
  mkFirmwareLong zero_version (update_block_long fip 60 (l_scu v)) (update_block_long fip 84 (l_ia32 v))
    (update_block_long fip 92 (l_valhooks v)) (update_block_long fip 344 (l_ifwi v))
    (update_block_long fip 36 (l_chaabi v)) (update_block_long fip 76 (l_mia v)).

(** The two loops over an image.  Reading past the end of the image has no defined result. *)
Section Scan.
Context {V : Type} (sizeof_fip : nat) (update : bytes -> V -> V).

(** The inner loop: whether the magic was found, and where. *)
Fixpoint find_magic (fuel : nat) (databytes : bytes) (sz : Z) : option (bool * bytes * Z) :=
  if Z.of_nat sizeof_fip <=? sz then
    if (length databytes <? 4)%nat then None else
    if getn 4 0 databytes =? FIP_PATTERN then Some (true, databytes, sz) else
    match fuel with
    | O => None
    | S fuel => find_magic fuel (drop 4 databytes) (sz - 4)
    end
  else Some (false, databytes, sz).

(** The outer loop: the return value and the versions.  [magic_found] stays set. *)
Fixpoint scan_image (fuel : nat) (databytes : bytes) (sz : Z) (magic_found : bool) (v : V) : option (Z * V) :=
  if Z.of_nat sizeof_fip <=? sz then
    match fuel with
    | O => None
    | S fuel =>
        match find_magic fuel databytes sz with
        | None => None
        | Some (found, databytes, sz) =>
            let magic_found := magic_found || found in
            if negb magic_found then Some (-1, v) else
            if sz <? Z.of_nat sizeof_fip then Some (0, v) else
            if (length databytes <? sizeof_fip)%nat then None else
            scan_image fuel (drop 4 databytes) (sz - 4) magic_found (update databytes v)
        end
    end
  else Some (0, v).
End Scan.

(** [sz] bytes at [data]; each round of a loop takes four of them. *)
Definition get_image_fw_rev (data : bytes) (sz : Z) (v : bool) : option (Z * firmware_versions) :=
  if negb v then Some (-1, zero_firmware)
  else scan_image sizeof_FIP update_firmware (Z.to_nat sz) data sz false zero_firmware.

Definition get_image_fw_rev_long (data : bytes) (sz : Z) (v : bool) : option (Z * firmware_versions_long) :=
  if negb v then Some (-1, zero_firmware_long)
  else scan_image sizeof_FIP_long update_firmware_long (Z.to_nat sz) data sz false zero_firmware_long.

(** ** Firmware files *)

Definition ferror_or_eof (f : FILE) : bool := fl_err f || fl_eof f.

(** The loop that looks for a pattern at every byte: the stream behind the match, [None] at the
    end of the file or after an error.  A round moves one byte on. *)
Fixpoint seek_pattern (fuel : nat) (pattern : Z) (fd : FILE) (tmp : Z) : M (option FILE) :=
  if tmp =? pattern then ret (Some fd) else
  match fuel with
  | O => undefined
  | S fuel =>
      let! (fd, b) := fread fd 4 in
      if ferror_or_eof fd then ret None else
      let! pos := ftell fd in
      let! (_, fd) := fseek fd (pos - 4 + 1) in
      seek_pattern fuel pattern fd (le_dec b)
  end.

(** The loop over the FIP headers. *)
Fixpoint crack_loop (fuel rounds : nat) (fd : FILE) (v : fw_version) : M (Z * fw_version) :=
  if (minor v =? 0) && (major v =? 0) then
    match fuel with
    | O => undefined
    | S fuel =>
        let! found := seek_pattern rounds FIP_PATTERN fd 0 in
        match found with
        | None => fclose (mkFILE (fl_fd fd) false false) ;; ret (-1, v)
        | Some fd =>
            let! pos := ftell fd in
            let! (_, fd) := fseek fd (pos - 1) in
            let! (fd, fip) := fread fd (Z.of_nat sizeof_FIP) in
            if ferror_or_eof fd then fclose fd ;; ret (-1, v)
            else crack_loop fuel rounds fd (mkVersion (getn 1 41 fip) (getn 1 40 fip))
        end
    end
  else fclose fd ;; ret (0, v).

(** The return value and the version, which keeps its old value when the file is not opened. *)
Definition crack_update_fw (fw_file : string) (ifwi_version : fw_version) : M (Z * fw_version) :=
  let! f := fopen fw_file mode_r in
  match f with
  | None => ret (-1, ifwi_version)
  | Some fd => let! n := file_rounds fd in crack_loop n n fd zero_version
  end.

(** The failures of [fseek] on the way to the field leave the stream where it was. *)
Definition crack_update_fw_pti_field (fw_file : string) (pti_field : Z) : M (Z * Z) :=
  let! f := fopen fw_file mode_r in
  match f with
  | None => ret (-1, pti_field)
  | Some fd =>
      let! n := file_rounds fd in
      let! found := seek_pattern n SMIP_PATTERN fd 0 in
      match found with
      | None => fclose fd ;; ret (-1, 0)
      | Some fd =>
          let! pos := ftell fd in
          let! (_, fd) := fseek fd (pos - 1 + PTI_FIELD_OFFSET) in
          if ferror_or_eof fd then fclose fd ;; ret (-1, 0) else
          let! (fd, b) := fread fd 1 in
          if ferror_or_eof fd then fclose fd ;; ret (-1, 0) else
          fclose fd ;; ret (0, getn 1 0 b)
      end
  end.
