(* ===== verification/IfwiEmmc.v ===== *)
(** * Firmware on the boot partitions (flash_scu_emmc/ifwi.c)

    The firmware image (IFWI) fills the start of both boot partitions of the eMMC.  Its first
    64 KiB are the UMIP, with a checksum for each sector and one of its own; the image has a
    checksum of its own, too.  A boot partition is accessed through a shared mapping: the bytes
    are read when it is mapped and stored back before it is unmapped, with nothing in between
    that could see the difference.  [size_t] and pointers have 32 bits, and [char] is signed. *)

From stdpp Require Import base list numbers gmap strings.
From Stdlib Require Import ZArith Lia.
From S2P Require Import Prelude GuidStr Posix CLib Util FwVersion.

Definition BOOT_IFWI_SIZE : Z := 0x400000.
Definition BOOT_UMIP_SIZE : Z := 0x10000.
Definition BOOT_UMIP_SECTOR_SIZE : Z := 0x200.
Definition BOOT_UMIP_XOR_OFFSET : Z := 0x7.
Definition BOOT_UMIP_3GPP_OFFSET : Z := 0x76F.
Definition BOOT_IFWI_XOR_OFFSET : Z := 0x0112d8.
Definition BOOT_DNX_TIMEOUT_OFFSET : Z := 0x400.
Definition IFWI_OFFSET : Z := 0.
Definition TOKEN_UMIP_AREA_OFFSET : Z := 0x4000.
Definition TOKEN_UMIP_AREA_SIZE : Z := 0x2C00.
Definition IFWI_TYPE_LSH : Z := 12.

(** ** Printing versions *)

Definition version_text_long (v : fw_version) : bytes := fmt_X 4 (major v) ++ str "." ++ fmt_X 4 (minor v) ++ NL.

Definition TAB : bytes := [9].

(** The text printed. *)
Definition dump_fw_versions_long (v : firmware_versions_long) : bytes :=
  TAB ++ str "   ifwi: " ++ version_text_long (l_ifwi v) ++
  str "---- components ----" ++ NL ++
  TAB ++ str "    scu: " ++ version_text_long (l_scu v) ++
  str "    hooks/oem: " ++ version_text_long (l_valhooks v) ++
  TAB ++ str "   ia32: " ++ version_text_long (l_ia32 v) ++
  TAB ++ str " chaabi: " ++ version_text_long (l_chaabi v) ++
  TAB ++ str "    mIA: " ++ version_text_long (l_mia v).

(** ** Making a partition writable *)

(** [FORCE_RW_OPT] with its terminator. *)
Definition FORCE_RW_OPT : bytes := str "0" ++ [0].

Definition force_rw (name : string) : M Z :=
  let! fd := sys_open name O_WRONLY in
  if fd <? 0 then ret fd else
  let! r := sys_write fd FORCE_RW_OPT in
  if r <=? 0 then sys_close fd ;; ret r else
  sys_close fd ;; ret 0.

(** ** Checking an image *)

(** 1 when the image may replace the running firmware, 0 when it is for another device. *)
Definition check_ifwi_file_scu_emmc (data : bytes) (size : Z) : M Z :=
  match get_image_fw_rev_long data size true with
  | None => undefined
  | Some (r, img_fw_rev) =>
      if truthy r then ret (-1) else
      let! (r, dev) := get_current_fw_rev_long in
      match dev with
      | None => ret (-1)
      | Some dev_fw_rev =>
          if negb (major (l_ifwi img_fw_rev) =? major (l_ifwi dev_fw_rev)) then ret 0 else
          if negb (Z.shiftr (minor (l_ifwi img_fw_rev)) IFWI_TYPE_LSH =?
                   Z.shiftr (minor (l_ifwi dev_fw_rev)) IFWI_TYPE_LSH) then ret 0 else
          ret 1
      end
  end.

(** ** Checksums *)

(** The exclusive or of [n] words of 32 bits. *)
Fixpoint xor_words (n : nat) (ptr : bytes) (xor : Z) : Z :=
  match n with
  | O => xor
  | S n => xor_words n (drop 4 ptr) (Z.lxor xor (le_dec (take 4 ptr)))
  end.

(** The sizes are multiples of four. *)
Definition xor_compute (ptr : bytes) (size : Z) : Z := xor_words (Z.to_nat (size / 4)) ptr 0.

Definition xor_factorize (xor : Z) : Z :=
  Z.lxor (Z.lxor (Z.lxor (Z.land xor 0xff) (Z.land (Z.shiftr xor 8) 0xff)) (Z.land (Z.shiftr xor 16) 0xff))
    (Z.land (Z.shiftr xor 24) 0xff).

Definition update_sector (ptr : bytes) (i : Z) : bytes :=
  putn 4 (Z.to_nat (4 * i))
    (xor_compute (drop (Z.to_nat (i * BOOT_UMIP_SECTOR_SIZE)) ptr) BOOT_UMIP_SECTOR_SIZE) ptr.

Definition xor_update (ptr : bytes) : bytes :=
  let ptr := fold_left update_sector (seqZ 2 126) ptr in
  let ptr := putn 1 (Z.to_nat BOOT_UMIP_XOR_OFFSET) 0 ptr in
  let xor := xor_compute ptr BOOT_UMIP_SIZE in
  let ptr := putn 1 (Z.to_nat BOOT_UMIP_XOR_OFFSET) (xor_factorize xor) ptr in
  let ptr := putn 4 (Z.to_nat BOOT_IFWI_XOR_OFFSET) 0 ptr in
  let xor := xor_compute ptr BOOT_IFWI_SIZE in
  putn 4 (Z.to_nat BOOT_IFWI_XOR_OFFSET) xor ptr.

(** ** Mappings *)

(** [mmap(NULL, size, PROT_READ|PROT_WRITE, MAP_SHARED, fd, 0)]: the bytes mapped, [None] for
    [MAP_FAILED].  Touching a page behind the end of the file is an error. *)
Definition sys_mmap (fd size : Z) : M (option bytes) :=
  let! f := next_fault in
  match f with
  | Ferr e => sys_fail e ;; ret None
  | _ => fun w =>
    match fd_file w fd with
    | Some (d, file) =>
        if negb (fd_read d && fd_write d) then (sys_fail EACCES ;; ret None) w
        else if Z.of_nat (length (f_data file)) <? size then (Undefined, w)
        else (Ret (Some (take (Z.to_nat size) (f_data file))), w)
    | None => (sys_fail EBADF ;; ret None) w
    end
  end.

(** What the program stored through the mapping of [fd]. *)
Definition store_mapping (fd : Z) (ptr : bytes) : M unit := fun w =>
  match fd_file w fd with
  | Some (d, file) =>
      (Ret tt, set_files (<[ fd_path d := mkFile (f_kind file) (splice 0 ptr (f_data file)) ]> (w_files w)) w)
  | None => (Undefined, w)
  end.

(** ** Writing *)

Definition boot_partition (boot_index : Z) : string :=
  if boot_index =? 0 then "/dev/block/mmcblk0boot0" else "/dev/block/mmcblk0boot1".
Definition boot_partition_force_ro (boot_index : Z) : string :=
  if boot_index =? 0 then "/sys/block/mmcblk0boot0/force_ro" else "/sys/block/mmcblk0boot1/force_ro".

(** The bytes stored: [size] zeros, or the first [size] bytes of [data]. *)
Definition source (data : option bytes) (size : Z) : option bytes :=
  match data with
  | None => Some (replicate (Z.to_nat size) 0)
  | Some data => if Z.of_nat (length data) <? size then None else Some (take (Z.to_nat size) data)
  end.

(** The mapped bytes after an update: the token area survives a whole image. *)
Definition umip_content (addr_offset : Z) (new ptr : bytes) : bytes :=
  let token_data := slice (Z.to_nat TOKEN_UMIP_AREA_OFFSET) (Z.to_nat TOKEN_UMIP_AREA_SIZE) ptr in
  let ptr := splice (Z.to_nat addr_offset) new ptr in
  let ptr := if addr_offset =? IFWI_OFFSET then splice (Z.to_nat TOKEN_UMIP_AREA_OFFSET) token_data ptr else ptr in
  xor_update ptr.

(** The label [err_boot1]: [boot_fd] is closed whatever it is. *)
Definition err_boot1 (boot_fd : Z) : M Z := sys_close boot_fd ;; ret (-1).

(** The body of the loop: an error, or the descriptor, which stays in [boot_fd] after it was closed. *)
Definition write_boot_partition (addr_offset : Z) (data : option bytes) (size boot_index boot_fd : Z) : M (Z * Z) :=
  let! r := force_rw (boot_partition_force_ro boot_index) in
  if truthy r then (let! r := err_boot1 boot_fd in ret (r, boot_fd)) else
  let! boot_fd := sys_open (boot_partition boot_index) O_RDWR in
  if boot_fd <? 0 then (let! r := err_boot1 boot_fd in ret (r, boot_fd)) else
  let! ptr := sys_mmap boot_fd BOOT_IFWI_SIZE in
  match ptr with
  | None => let! r := err_boot1 boot_fd in ret (r, boot_fd)
  | Some ptr =>
      if u32 (addr_offset + size) <=? BOOT_IFWI_SIZE then
        match source data size with
        | None => undefined
        | Some new =>
            if (length ptr <? Z.to_nat addr_offset + length new)%nat then undefined else
            store_mapping boot_fd (umip_content addr_offset new ptr) ;;
            sys_close boot_fd ;;
            ret (0, boot_fd)
        end
      else let! r := err_boot1 boot_fd in ret (r, boot_fd)
  end.

Definition write_umip_emmc (addr_offset : Z) (data : option bytes) (size : Z) : M Z :=
  let! token_ok := if addr_offset =? IFWI_OFFSET then sys_malloc TOKEN_UMIP_AREA_SIZE else ret true in
  if negb token_ok then ret (-1) else
  let size := if (addr_offset =? IFWI_OFFSET) && (BOOT_IFWI_SIZE <? size) then BOOT_IFWI_SIZE else size in
  let! (r, boot_fd) := write_boot_partition addr_offset data size 0 0 in
  if truthy r then ret r else
  let! (r, boot_fd) := write_boot_partition addr_offset data size 1 boot_fd in
  ret r.

(** ** Reading *)

(** A byte as a signed [char]. *)
Definition readbyte_umip_emmc (addr_offset : Z) : M Z :=
  let! r := force_rw "/sys/block/mmcblk0boot0/force_ro" in
  if truthy r then err_boot1 0 else
  let! boot_fd := sys_open "/dev/block/mmcblk0boot0" O_RDWR in
  if boot_fd <? 0 then err_boot1 boot_fd else
  let! ptr := sys_mmap boot_fd BOOT_UMIP_SIZE in
  match ptr with
  | None => err_boot1 boot_fd
  | Some ptr =>
      if addr_offset <? BOOT_UMIP_SIZE
      then sys_close boot_fd ;; ret (to_signed 8 (getn 1 (Z.to_nat addr_offset) ptr))
      else err_boot1 boot_fd
  end.

(** ** Operations *)

Definition update_ifwi_file_scu_emmc (data : bytes) (size : Z) : M Z := write_umip_emmc IFWI_OFFSET (Some data) size.
Definition flash_token_umip_scu_emmc (data : bytes) (size : Z) : M Z :=
  write_umip_emmc TOKEN_UMIP_AREA_OFFSET (Some data) TOKEN_UMIP_AREA_SIZE.
Definition flash_custom_boot_scu_emmc (data : bytes) (size : Z) : M Z :=
  write_umip_emmc BOOT_UMIP_3GPP_OFFSET (Some data) 1.
Definition erase_token_umip_scu_emmc (data : bytes) (size : Z) : M Z :=
  write_umip_emmc TOKEN_UMIP_AREA_OFFSET None TOKEN_UMIP_AREA_SIZE.
Definition flash_dnx_timeout_scu_emmc (data : bytes) (size : Z) : M Z :=
  write_umip_emmc BOOT_DNX_TIMEOUT_OFFSET (Some data) 1.
Definition read_dnx_timeout_scu_emmc : M Z := readbyte_umip_emmc BOOT_DNX_TIMEOUT_OFFSET.
Definition flash_dnx_scu_emmc (data : bytes) (sz : Z) : M Z := ret 0.

Definition flash_ifwi_scu_emmc (data : bytes) (size : Z) : M Z :=
  let! r := check_ifwi_file_scu_emmc data size in
  if 0 <? r then update_ifwi_file_scu_emmc data size else ret r.

(** [property_get] answers the text of a property, or the default. *)
Definition is_scu_emmc (property_get : string -> bytes -> bytes) : bool :=
  0 <? Z.of_nat (length (property_get "sys.mia.version"%string [])).
