(* ===== verification/Osip.v ===== *)
(** * The OS image profile (update_osip.c, update_osip.h, flash_osip/bootimage.c)

    The header in the first sector of the storage lists up to eight OS images.  A header is a
    buffer of 224 bytes read through field accessors; a C function that indexes the eight
    descriptors out of range has no defined result.  [size_t], [off_t] and pointers have 32 bits
    on the device. *)

From stdpp Require Import base list numbers gmap strings.
From Stdlib Require Import ZArith Lia.
From S2P Require Import Prelude GuidStr Posix Util.

(** ** Layout *)

Definition STORAGE_BASE_PATH : string := "/dev/block/mmcblk0".
Definition MMC_DEV_POS : string := STORAGE_BASE_PATH.
Definition DDR_LOAD_ADDX : Z := 0x01100000.
Definition ENTRY_POINT : Z := 0x01101000.
Definition MAX_OSIP_DESC : Z := 8.
Definition OSIP_SIG : Z := 0x24534f24.
Definition LBA_SIZE : Z := 512.
Definition OS_MAX_LBA : Z := 32000.

Definition ATTR_SIGNED_KERNEL : Z := 0.
Definition ATTR_UNSIGNED_KERNEL : Z := 1.
Definition ATTR_SIGNED_COS : Z := 0x0A.
Definition ATTR_SIGNED_POS : Z := 0x0E.
Definition ATTR_SIGNED_ROS : Z := 0x0C.
Definition ATTR_SIGNED_COMB : Z := 0x10.
Definition ATTR_SIGNED_FW : Z := 8.
Definition ATTR_UNSIGNED_FW : Z := 9.
Definition ATTR_FILESYSTEM : Z := 3.
Definition ATTR_NOTUSED : Z := 0xff.
Definition ATTR_SIGNED_SPLASHSCREEN : Z := 0x04.
Definition ATTR_SIGNED_RAMDUMPOS : Z := 0x16.

Inductive osip_operation_type := READ_OSIP_HEADER | WRITE_OSIP_HEADER.

(** [struct OSII], 24 bytes *)
Definition sizeof_OSII : nat := 24.
Definition os_rev_minor (o : bytes) : Z := getn 2 0 o.
Definition os_rev_major (o : bytes) : Z := getn 2 2 o.
Definition logical_start_block (o : bytes) : Z := getn 4 4 o.
Definition ddr_load_address (o : bytes) : Z := getn 4 8 o.
Definition entry_point (o : bytes) : Z := getn 4 12 o.
Definition size_of_os_image (o : bytes) : Z := getn 4 16 o.
Definition attribute (o : bytes) : Z := getn 1 20 o.
Definition set_logical_start_block (v : Z) (o : bytes) : bytes := putn 4 4 v o.
Definition set_ddr_load_address (v : Z) (o : bytes) : bytes := putn 4 8 v o.
Definition set_entry_point (v : Z) (o : bytes) : bytes := putn 4 12 v o.
Definition set_attribute (v : Z) (o : bytes) : bytes := putn 1 20 v o.

(** [struct OSIP_header], 224 bytes *)
Definition sizeof_OSIP : nat := 224.
Definition sig (h : bytes) : Z := getn 4 0 h.
Definition header_rev_minor (h : bytes) : Z := getn 1 5 h.
Definition header_rev_major (h : bytes) : Z := getn 1 6 h.
Definition header_checksum (h : bytes) : Z := getn 1 7 h.
Definition num_pointers (h : bytes) : Z := getn 1 8 h.
Definition num_images (h : bytes) : Z := getn 1 9 h.
Definition header_size (h : bytes) : Z := getn 2 10 h.
Definition set_sig (v : Z) (h : bytes) : bytes := putn 4 0 v h.
Definition set_header_rev_minor (v : Z) (h : bytes) : bytes := putn 1 5 v h.
Definition set_header_rev_major (v : Z) (h : bytes) : bytes := putn 1 6 v h.
Definition set_header_checksum (v : Z) (h : bytes) : bytes := putn 1 7 v h.
Definition set_num_pointers (v : Z) (h : bytes) : bytes := putn 1 8 v h.
Definition set_num_images (v : Z) (h : bytes) : bytes := putn 1 9 v h.
Definition set_header_size (v : Z) (h : bytes) : bytes := putn 2 10 v h.

Definition desc_off (i : Z) : nat := (32 + Z.to_nat i * sizeof_OSII)%nat.

(** [osip->desc[i]] without the bound of the array, and the accesses the program makes. *)
Definition desc (i : Z) (h : bytes) : bytes := slice (desc_off i) sizeof_OSII h.
Definition set_desc (i : Z) (o h : bytes) : bytes := splice (desc_off i) o h.

Definition in_range (i : Z) : bool := (0 <=? i) && (i <? MAX_OSIP_DESC).
Definition get_desc (h : bytes) (i : Z) : M bytes := if in_range i then ret (desc i h) else undefined.
Definition put_desc (h : bytes) (i : Z) (o : bytes) : M bytes :=
  if in_range i then ret (set_desc i o h) else undefined.

(** [attr & (~1)] *)
Definition without_sign (attr : Z) : Z := Z.ldiff attr 1.

(** ** Slots *)

Definition FW_START_OFFSET : Z := 50.
Definition FW_MAX_LBA : Z := 2000.
Definition fw_lba_slots : list Z := [FW_START_OFFSET + FW_MAX_LBA * 0; FW_START_OFFSET + FW_MAX_LBA * 1].
Definition FW_SLOTS : Z := Z.of_nat (length fw_lba_slots).
Definition OS_START_OFFSET : Z := FW_START_OFFSET + FW_MAX_LBA * FW_SLOTS.
Definition os_lba_slots : list Z :=
  map (fun k => OS_START_OFFSET + OS_MAX_LBA * k) [0; 1; 2; 3; 4; 5; 6; 7; 8].
Definition OS_SLOTS : Z := Z.of_nat (length os_lba_slots).

(** ** Checksum *)

Definition get_osip_crc (osip : bytes) : Z :=
  fold_left Z.lxor (slice 2 (sizeof_OSIP - 2) osip) (Z.lxor (getn 1 0 osip) (getn 1 1 osip)).

(** [osip->header_checksum = 0; osip->header_checksum = get_osip_crc(osip);] *)
Definition update_checksum (osip : bytes) : bytes :=
  let osip := set_header_checksum 0 osip in set_header_checksum (get_osip_crc osip) osip.

(** ** Checking and completing a header *)

(** The loop over the descriptors: [body] answers the new header, and [None] to return -1. *)
Fixpoint each_desc {A} (body : Z -> bytes -> bytes -> A -> bytes * option A)
    (fuel : nat) (i : Z) (osip : bytes) (a : A) : M (bytes * option A) :=
  match fuel with
  | O => ret (osip, Some a)
  | S fuel =>
      let! o := get_desc osip i in
      match body i o osip a with
      | (osip, None) => ret (osip, None)
      | (osip, Some a) => each_desc body fuel (i + 1) osip a
      end
  end.

Definition is_fw_attr (attr : Z) : bool :=
  (without_sign attr =? ATTR_SIGNED_FW) || (without_sign attr =? ATTR_UNSIGNED_FW).

(** The cases of the OS images: those of [fixup_osip], [verify_osip_sizes] and of the old
    descriptor in [write_stitch_image_ex]. *)
Definition is_os_attr (attr : Z) : bool :=
  let a := without_sign attr in
  (a =? ATTR_SIGNED_KERNEL) || (a =? ATTR_UNSIGNED_KERNEL) || (a =? ATTR_SIGNED_COS) ||
  (a =? ATTR_SIGNED_POS) || (a =? ATTR_SIGNED_ROS) || (a =? ATTR_SIGNED_COMB) ||
  (a =? ATTR_SIGNED_RAMDUMPOS).

(** The size limit of a descriptor; [None]: other image types are not checked. *)
Definition max_size_lba (attr : Z) : option Z :=
  if is_fw_attr attr then Some FW_MAX_LBA else if is_os_attr attr then Some OS_MAX_LBA else None.

Definition verify_desc (i : Z) (o osip : bytes) (a : unit) : bytes * option unit :=
  match max_size_lba (attribute o) with
  | Some max => (osip, if max <? size_of_os_image o then None else Some tt)
  | None => (osip, Some tt)
  end.

Definition verify_osip_sizes (osip : bytes) : M Z :=
  let! (_, r) := each_desc verify_desc (Z.to_nat (num_pointers osip)) 0 osip tt in
  ret (match r with None => -1 | Some _ => 0 end).

(** The descriptor in the next slot, and the next index; [None] when there are too many images. *)
Definition fixup_osii (osii : bytes) (slot_idx : Z) (max_slots : Z) (slots : list Z) : option (bytes * Z) :=
  if max_slots - 1 <=? slot_idx then None
  else Some (set_logical_start_block (nth (Z.to_nat slot_idx) slots 0) osii, slot_idx + 1).

(** The counters of [fixup_osip] and its [ret]. *)
Record fixup_state := mkFixup { fw_ctr : Z; os_ctr : Z; ptn_ctr : Z; fixup_ret : Z }.

Definition fixup_desc (ptn_lba : Z) (i : Z) (o osip : bytes) (s : fixup_state)
    : bytes * option fixup_state :=
  let attr := attribute o in
  if is_fw_attr attr then
    match fixup_osii o (fw_ctr s) FW_SLOTS fw_lba_slots with
    | Some (o, c) => (set_desc i o osip, Some (mkFixup c (os_ctr s) (ptn_ctr s) 0))
    | None => (osip, None)
    end
  else if is_os_attr attr then
    match fixup_osii o (os_ctr s) OS_SLOTS os_lba_slots with
    | Some (o, c) => (set_desc i o osip, Some (mkFixup (fw_ctr s) c (ptn_ctr s) 0))
    | None => (osip, None)
    end
  else if without_sign attr =? ATTR_FILESYSTEM then
    if 0 <? ptn_ctr s then (osip, None)
    else (set_desc i (set_logical_start_block ptn_lba o) osip,
          Some (mkFixup (fw_ctr s) (os_ctr s) (ptn_ctr s + 1) 0))
  else (osip, None).

(** The return value and the header. *)
Definition fixup_osip (osip : bytes) (ptn_lba : Z) : M (Z * bytes) :=
  let! (osip, r) :=
    each_desc (fixup_desc ptn_lba) (Z.to_nat (num_pointers osip)) 0 osip (mkFixup 0 0 0 (-1)) in
  ret (match r with
       | None => (-1, osip)
       | Some s => (fixup_ret s, update_checksum osip)
       end).

(** ** Finding a free slot *)

(** The descriptor [o] occupies a block of the slot. *)
Definition occupies (slot slot_size : Z) (o : bytes) : bool :=
  let lba := logical_start_block o in
  let endlba := u32 (lba + 1 + size_of_os_image o) in
  ((slot <=? lba) && (lba <? u32 (slot + slot_size))) ||
  ((slot <=? endlba) && (endlba <? u32 (slot + slot_size))).

Fixpoint slot_used (fuel : nat) (i : Z) (slot slot_size : Z) (osip : bytes) : M bool :=
  match fuel with
  | O => ret false
  | S fuel =>
      let! o := get_desc osip i in
      if occupies slot slot_size o then ret true else slot_used fuel (i + 1) slot slot_size osip
  end.

(** 0 when every slot is in use. *)
Fixpoint get_free_lba (slots : list Z) (slot_size : Z) (osip : bytes) : M Z :=
  match slots with
  | [] => ret 0
  | slot :: slots =>
      let! used := slot_used (Z.to_nat (num_pointers osip)) 0 slot slot_size osip in
      if used then get_free_lba slots slot_size osip else ret slot
  end.

Definition get_free_fw_lba (osip : bytes) : M Z := get_free_lba fw_lba_slots FW_MAX_LBA osip.
Definition get_free_os_lba (osip : bytes) : M Z := get_free_lba os_lba_slots OS_MAX_LBA osip.

(** ** Messages *)

Definition fmt_02X (v : Z) : bytes := fmt_X 2 v.

(** The text printed for one descriptor, given its 24 bytes. *)
Definition dump_osip_index (o : bytes) (i : Z) : bytes :=
  str "OSII[" ++ fmt_d i ++ str "]:" ++ NL ++
  str "   os_rev: " ++ fmt_x 2 (os_rev_major o) ++ str "." ++ fmt_x 2 (os_rev_minor o) ++ NL ++
  str "   LBA: " ++ fmt_d (s32 (logical_start_block o)) ++ NL ++
  str "   ddr_load_address: 0x" ++ fmt_x 8 (ddr_load_address o) ++ NL ++
  str "   entry_point: 0x" ++ fmt_x 8 (entry_point o) ++ NL ++
  str "   size_of_os_image (sectors): " ++ fmt_d (s32 (size_of_os_image o)) ++ NL ++
  str "   attribute: 0x" ++ fmt_x 2 (attribute o) ++ NL.

(** The header is the start of a larger buffer, and every pointer it counts is read from there. *)
Definition dump_osip_header (data : bytes) : option bytes :=
  if (0 <? num_pointers data) && (Z.of_nat (length data) <? 29 + 24 * num_pointers data) then None else
  Some (str "OSIP:" ++ NL ++
    str "sig 0x" ++ fmt_x 0 (sig data) ++ str ", header_size " ++ fmt_d (header_size data) ++
    str ", revision " ++ fmt_02X (header_rev_major data) ++ str "." ++ fmt_02X (header_rev_minor data) ++ NL ++
    str "header_checksum 0x" ++ fmt_x 0 (header_checksum data) ++ str ", num_pointers " ++
    fmt_d (num_pointers data) ++ str ", num_images " ++ fmt_d (num_images data) ++ NL ++
    concat (map (fun k => dump_osip_index (desc (Z.of_nat k) data) (Z.of_nat k))
                (seq 0 (Z.to_nat (num_pointers data))))).

(** ** Reading and writing the header *)

(** The return value and the header, of which a failed read leaves the rest zero. *)
Definition read_OSIP : M (Z * bytes) :=
  let zero := replicate sizeof_OSIP 0 in
  let! fd := sys_open MMC_DEV_POS O_RDONLY in
  if fd <? 0 then ret (-1, zero) else
  let! (r, b) := safe_read fd (Z.of_nat sizeof_OSIP) in
  let osip := splice 0 b zero in
  let ret_ := if r <? 0 then -1 else if negb (get_osip_crc osip =? 0) then -1 else 0 in
  sys_close fd ;; ret (ret_, osip).

Definition write_OSIP (osip : bytes) : M Z :=
  let osip := update_checksum osip in
  let! fd := sys_open MMC_DEV_POS O_RDWR in
  if fd <? 0 then ret (-1) else
  let! ok := write_all fd osip in
  if negb ok then sys_close fd ;; ret (-1) else
  sys_fsync fd ;; sys_close fd ;; ret 0.

(** ** Stitched images *)

(** The first descriptor and the image of a package; [None] when it is not one image. *)
Definition crack_stitched_image (data : bytes) : M (option (bytes * bytes)) :=
  if is_null data then ret None else
  if (length data <? 12)%nat then undefined else
  match dump_osip_header data with
  | None => undefined
  | Some _ =>
      if negb (num_pointers data =? 1) then ret None
      else ret (Some (desc 0 data, drop (Z.to_nat LBA_SIZE) data))
  end.

Definition check_index_outofbound (osii_index : Z) : Z :=
  if (osii_index <? 0) || (MAX_OSIP_DESC <=? osii_index) then -1 else 0.

Definition OSIP_BACKUP_OFFSET : Z := 0xE0.

Definition destroy_the_osip_backup : M Z :=
  let! fd := sys_open MMC_DEV_POS O_RDWR in
  if fd <? 0 then ret (-1) else
  sys_lseek fd OSIP_BACKUP_OFFSET ;;
  let! (r, b) := safe_read fd 4 in
  if truthy r then sys_close fd ;; ret (-1) else
  (if le_dec b =? OSIP_SIG then
     sys_lseek fd OSIP_BACKUP_OFFSET ;; sys_write fd (le_enc 4 0xffffffff) ;; ret tt
   else ret tt) ;;
  sys_close fd ;; ret 0.

(** [(num_pointers * 0x18) + 0x20], stored in 16 bits. *)
Definition size_for (num_pointers : Z) : Z := num_pointers * 0x18 + 0x20.

Definition set_pointers (n : Z) (osip : bytes) : bytes :=
  set_header_size (size_for (u8 n)) (set_num_pointers n osip).

(** Where an image goes and how large it may be; [None] for an attribute that is not handled. *)
Definition choose_slot (attr : Z) (large_image : bool) (osip : bytes) : M (option (Z * Z)) :=
  if is_os_attr attr || (without_sign attr =? ATTR_SIGNED_SPLASHSCREEN) then
    if large_image then ret (Some (OS_START_OFFSET, OS_MAX_LBA * OS_SLOTS))
    else let! lba := get_free_os_lba osip in ret (Some (lba, OS_MAX_LBA))
  else if is_fw_attr attr then let! lba := get_free_fw_lba osip in ret (Some (lba, FW_MAX_LBA))
  else ret None.

(** The header with [osii] in place of descriptor [osii_index], and [osii] itself, whose entry
    points are cleared when the old image was invalidated. *)
Definition place_osii (osip osii : bytes) (osii_index : Z) : M (bytes * bytes) :=
  let! old := get_desc osip osii_index in
  let '(osip, osii) :=
    if num_pointers osip <=? osii_index then (set_pointers (osii_index + 1) osip, osii)
    else if (ddr_load_address old =? 0) && (entry_point old =? 0)
    then (osip, set_entry_point (entry_point old) (set_ddr_load_address (ddr_load_address old) osii))
    else (osip, osii) in
  let attr := without_sign (attribute old) in
  if is_os_attr (attribute old) || (attr =? without_sign ATTR_NOTUSED) ||
     (attr =? without_sign (attribute osii))
  then let! osip := put_desc osip osii_index osii in ret (osip, osii)
  else
    let! osip := put_desc osip (num_pointers osip) old in
    let! osip := put_desc osip osii_index osii in
    ret (set_pointers (num_pointers osip + 1) osip, osii).

(** Writing the image and then the header. *)
Definition store_image (osip osii blob : bytes) : M Z :=
  let! fd := sys_open MMC_DEV_POS O_RDWR in
  if fd <? 0 then ret (-1) else
  let! r := sys_lseek fd (s32 (u32 (logical_start_block osii * LBA_SIZE))) in
  if r <? 0 then sys_close fd ;; ret (-1) else
  let! ok := write_all fd blob in
  if negb ok then sys_close fd ;; ret (-1) else
  sys_fsync fd ;; sys_close fd ;;
  write_OSIP osip.

Definition write_stitch_image_ex (data : bytes) (size osii_index : Z) (large_image : bool) : M Z :=
  if truthy (check_index_outofbound osii_index) then ret (-1) else
  let! cracked := crack_stitched_image data in
  match cracked with
  | None => ret (-1)
  | Some (osii, blob) =>
    if negb (u32 (size_of_os_image osii * LBA_SIZE) =? u32 (size - LBA_SIZE)) then ret (-1) else
    let! (r, osip) := read_OSIP in
    if truthy r then ret (-1) else
    destroy_the_osip_backup ;;
    let! slot := choose_slot (attribute osii) large_image osip in
    match slot with
    | None => ret (-1)
    | Some (lba, max_size_lba) =>
      let osii := set_logical_start_block lba osii in
      if lba =? 0 then ret (-1) else
      if max_size_lba <? size_of_os_image osii then ret (-1) else
      let! (osip, osii) := place_osii osip osii osii_index in
      if Z.of_nat (length data) <? size then undefined else
      store_image osip osii (take (Z.to_nat (u32 (size - LBA_SIZE))) blob)
    end
  end.

Definition write_stitch_image (data : bytes) (size osii_index : Z) : M Z :=
  write_stitch_image_ex data size osii_index false.

(** ** Finding an image by name *)

(** The attribute of a destination and the instance it sets; [None]: unknown. *)
Definition get_named_osii_attr (destination : string) : option (Z * option Z) :=
  if String.eqb destination "boot" then Some (ATTR_SIGNED_KERNEL, None)
  else if String.eqb destination "recovery" then Some (ATTR_SIGNED_ROS, None)
  else if String.eqb destination "fastboot" then Some (ATTR_SIGNED_POS, None)
  else if String.eqb destination "droidboot" then Some (ATTR_SIGNED_POS, None)
  else if String.eqb destination "splashscreen" then Some (ATTR_SIGNED_SPLASHSCREEN, None)
  else if String.eqb destination "splashscreen2" then Some (ATTR_SIGNED_SPLASHSCREEN, Some 2)
  else if String.eqb destination "splashscreen3" then Some (ATTR_SIGNED_SPLASHSCREEN, Some 3)
  else if String.eqb destination "splashscreen4" then Some (ATTR_SIGNED_SPLASHSCREEN, Some 4)
  else if String.eqb destination "silentlake" then Some (ATTR_SIGNED_FW, None)
  else if String.eqb destination "ramdump" then Some (ATTR_SIGNED_RAMDUMPOS, None)
  else None.

(** The loop of [get_attribute_osii_index]: the index found, or the instance reached. *)
Fixpoint find_instance (fuel : nat) (i : Z) (attr instance current_instance : Z) (osip : bytes)
    : M (Z + Z) :=
  match fuel with
  | O => ret (inr current_instance)
  | S fuel =>
      let! o := get_desc osip i in
      if without_sign (attribute o) =? attr then
        if current_instance =? instance then ret (inl i)
        else find_instance fuel (i + 1) attr instance (current_instance + 1) osip
      else find_instance fuel (i + 1) attr instance current_instance osip
  end.

Definition get_attribute_osii_index (attr instance : Z) (operation : osip_operation_type) : M Z :=
  let! (r, osip) := read_OSIP in
  if truthy r then ret (-1) else
  let! found := find_instance (Z.to_nat (num_pointers osip)) 0 attr instance 1 osip in
  match found with
  | inl i => ret i
  | inr current_instance =>
      match operation with
      | WRITE_OSIP_HEADER => ret (if current_instance =? instance then num_pointers osip else -1)
      | READ_OSIP_HEADER => ret (-1)
      end
  end.

Definition get_named_osii_index (destination : option string) (operation : osip_operation_type) : M Z :=
  match destination with
  | None => ret (-1)
  | Some destination =>
      match get_named_osii_attr destination with
      | None => ret (-1)
      | Some (attr, instance) => get_attribute_osii_index attr (default 1 instance) operation
      end
  end.

Definition update_osii (destination : option string) (ddr entry : Z) : M Z :=
  let! osii_index := get_named_osii_index destination READ_OSIP_HEADER in
  if truthy (check_index_outofbound osii_index) then ret (-1) else
  let! (r, osip) := read_OSIP in
  if truthy r then ret (-1) else
  let! o := get_desc osip osii_index in
  let! osip := put_desc osip osii_index (set_entry_point entry (set_ddr_load_address ddr o)) in
  write_OSIP osip.

Definition invalidate_osii (destination : option string) : M Z := update_osii destination 0 0.
Definition restore_osii (destination : option string) : M Z := update_osii destination DDR_LOAD_ADDX ENTRY_POINT.

Definition default_osip : bytes :=
  set_num_images 1 (set_num_pointers 1 (set_header_rev_major 1 (set_sig OSIP_SIG (replicate sizeof_OSIP 0)))).

(** The header is static, but its checksum is computed again before it is written. *)
Definition oem_write_osip_header : M Z :=
  write_OSIP (set_header_checksum (get_osip_crc default_osip) default_osip) ;;
  restore_osii (Some "boot"%string) ;;
  restore_osii (Some "recovery"%string) ;;
  restore_osii (Some "fastboot"%string) ;;
  ret 0.

Definition oem_erase_osip_header : M Z := write_OSIP (replicate sizeof_OSIP 0) ;; ret 0.

Definition get_named_osii_logical_start_block (destination : option string) : M Z :=
  let! osii_index := get_named_osii_index destination READ_OSIP_HEADER in
  if truthy (check_index_outofbound osii_index) then ret (-1) else
  let! (r, osip) := read_OSIP in
  if truthy r then ret (-1) else
  let! o := get_desc osip osii_index in ret (logical_start_block o).

(** ** Reading an image back *)

(** The header in front of an image that was read back. *)
Definition file_header (osii : bytes) : bytes :=
  let h := set_num_images 1 (set_num_pointers 1 (set_header_rev_major 1 (set_header_rev_minor 0
             (set_sig OSIP_SIG (replicate sizeof_OSIP 0))))) in
  let h := set_header_size (size_for (num_pointers h)) h in
  let o := set_logical_start_block 1 osii in
  let o := if negb (attribute o =? ATTR_SIGNED_FW) && negb (attribute o =? ATTR_UNSIGNED_FW)
           then set_ddr_load_address DDR_LOAD_ADDX (set_entry_point ENTRY_POINT o) else o in
  update_checksum (set_desc 0 o h).

(** The first block: the header, a run of 0xFF over its rear part, 70 bytes as the allocator
    left them, and the magic of a boot record. *)
Definition first_block (osii fresh : bytes) : bytes :=
  splice 510 [0x55; 0xAA] (splice 0x38 (replicate 384 0xFF) (splice 0 (file_header osii) fresh)).

(** [heap n] is what an allocation of [n] bytes contains.  The return value, the size and the
    data; the size is stored before the allocation is checked. *)
Definition read_osimage_data (heap : Z -> bytes) (osii_index : Z) : M (Z * option Z * option bytes) :=
  let! (r, osip) := read_OSIP in
  if truthy r then ret (-1, None, None) else
  let! osii := get_desc osip osii_index in
  let blob_size := u32 (u32 (size_of_os_image osii + 1) * LBA_SIZE) in
  let! ok := sys_malloc blob_size in
  if negb ok then ret (-1, Some blob_size, None) else
  if blob_size <? LBA_SIZE then undefined else
  let first := first_block osii (heap blob_size) in
  let! fd := sys_open MMC_DEV_POS O_RDONLY in
  if fd <? 0 then ret (-1, Some blob_size, None) else
  let! r := sys_lseek fd (s32 (u32 (logical_start_block osii * LBA_SIZE))) in
  if r <? 0 then sys_close fd ;; ret (-1, Some blob_size, None) else
  let! (r, b) := safe_read fd (blob_size - LBA_SIZE) in
  sys_close fd ;;
  if truthy r then ret (-1, Some blob_size, None)
  else ret (0, Some blob_size, Some (splice 512 b first)).

(** ** flash_osip/bootimage.c *)

Definition is_osip : M bool := let! (_, osip) := read_OSIP in ret (sig osip =? OSIP_SIG).

Definition read_image_osip (heap : Z -> bytes) (name : option string) : M (Z * option bytes) :=
  let! index := get_named_osii_index name READ_OSIP_HEADER in
  if truthy (check_index_outofbound index) then ret (-1, None) else
  let! (r, size, data) := read_osimage_data heap index in
  if truthy r then ret (-1, None) else ret (s32 (default 0 size), data).

(** The descriptor of the package is corrected in place before the image is written. *)
Definition flash_image_osip (data : bytes) (sz : Z) (name : string) : M Z :=
  if String.eqb name "testos" then oem_write_osip_header ;; write_stitch_image_ex data sz 0 true else
  let! index := get_named_osii_index (Some name) WRITE_OSIP_HEADER in
  let attr := match get_named_osii_attr name with Some (attr, _) => attr | None => -1 end in
  if (length data <? 53)%nat then undefined else
  let header := desc 0 data in
  let signed_image := Z.land (attribute header) ATTR_UNSIGNED_KERNEL in
  let data := set_desc 0 (set_attribute (attr + signed_image) header) data in
  if truthy (check_index_outofbound index) then ret (-1) else
  write_stitch_image data sz index.

Definition OSIP_SIG_SIZE : Z := 480.

(** [osip] is the content of a local variable that is never set. *)
Definition read_image_signature_osip (osip : bytes) (name : option string) : M (Z * option bytes) :=
  let! image_index := get_named_osii_index name READ_OSIP_HEADER in
  if truthy (check_index_outofbound image_index) then ret (-1, None) else
  let! fd := sys_open MMC_DEV_POS O_RDONLY in
  if fd <? 0 then ret (-1, None) else
  let! o := get_desc osip image_index in
  let! r := sys_lseek fd (s32 (u32 (logical_start_block o * LBA_SIZE))) in
  if r <? 0 then sys_close fd ;; ret (-1, None) else
  let! ok := sys_malloc OSIP_SIG_SIZE in
  if negb ok then sys_close fd ;; ret (-1, None) else
  let! (r, b) := safe_read fd OSIP_SIG_SIZE in
  sys_close fd ;;
  if truthy r then ret (-1, None) else ret (OSIP_SIG_SIZE, Some b).

Definition is_image_signed_osip : M Z :=
  let! (r, osip) := read_OSIP in
  if truthy r then ret (-1) else
  let! recovery_index := get_named_osii_index (Some "recovery"%string) READ_OSIP_HEADER in
  if truthy (check_index_outofbound recovery_index) then ret (-1) else
  let! o := get_desc osip recovery_index in
  ret (if truthy (Z.land (attribute o) ATTR_UNSIGNED_KERNEL) then 0 else 1).
