(* ===== verification/GetoptSpec.v ===== *)
(** * Theorems about options and numbers

    The loop over the options ends, a list of options followed by a word is read back, and so are
    the numbers that [printf] prints. *)

From stdpp Require Import base list numbers gmap strings.
From Stdlib Require Import ZArith Lia.
From S2P Require Import Prelude GuidStr Posix CLib.

(** ** The loop ends *)

(** The characters that [getopt] may still look at. *)
Definition ahead (argv : list bytes) (st : getopt_state) : nat :=
  match place st with
  | [] => sum_list_with (fun w : bytes => S (length w)) (drop (optind st) argv)
  | l => (length l + sum_list_with (fun w : bytes => S (length w)) (drop (S (optind st)) argv))%nat
  end.

Lemma ahead_next argv i w : argv !! i = Some w ->
  sum_list_with (fun w : bytes => S (length w)) (drop i argv) =
  (S (length w) + sum_list_with (fun w : bytes => S (length w)) (drop (S i) argv))%nat.
Proof. intros H. by rewrite (drop_S _ _ _ H). Qed.

Lemma ahead_drop argv i : (sum_list_with (fun w : bytes => S (length w)) (drop (S i) argv) <=
  sum_list_with (fun w : bytes => S (length w)) (drop i argv))%nat.
Proof.
  destruct (argv !! i) as [w|] eqn:E; [rewrite (ahead_next _ _ _ E); lia|].
  apply lookup_ge_None in E. rewrite !drop_ge by lia. simpl. lia.
Qed.

Lemma getopt_char_ahead argv options i c rest o st :
  getopt_char argv options i c rest = (o, st) -> o <> EndOpts -> i <> 0%nat ->
  (ahead argv st <= length rest + sum_list_with (fun w : bytes => S (length w)) (drop (S i) argv))%nat /\
  optind st <> 0%nat.
Proof.
  intros H Ho Hi. pose proof (ahead_drop argv i) as D1. pose proof (ahead_drop argv (S i)) as D2.
  unfold getopt_char in H. destruct ((c =? 58) || (c =? 45) && negb (is_null rest)) eqn:Eb; [|destruct (option_of options c) as [[]|]].
  - destruct ((c =? 45) && is_null rest); injection H as <- <-; [done|]. unfold ahead. destruct rest; simpl in *; lia.
  - destruct rest as [|x rest]; simpl in H.
    + destruct (argv !! S i) eqn:E; injection H as <- <-; unfold ahead; simpl in *; lia.
    + injection H as <- <-. unfold ahead; simpl in *; lia.
  - injection H as <- <-. unfold ahead. destruct rest; simpl in *; lia.
  - destruct ((c =? 45) && is_null rest); injection H as <- <-; [done|]. unfold ahead. destruct rest; simpl in *; lia.
Qed.

(** Where a call starts: [optind] 0 resets everything. *)
Definition getopt_from (st : getopt_state) : getopt_state := if (optind st =? 0)%nat then mkGetopt 1 [] else st.

Lemma getopt_ahead argv options st o st' :
  getopt argv options st = (o, st') -> o <> EndOpts ->
  (ahead argv st' < ahead argv (getopt_from st))%nat /\ optind st' <> 0%nat.
Proof.
  intros H Ho. unfold getopt in H. fold (getopt_from st) in H.
  assert (Hi : optind (getopt_from st) <> 0%nat) by (unfold getopt_from; destruct (Nat.eqb_spec (optind st) 0); [done|done]).
  revert H Hi. generalize (getopt_from st). clear st. intros [i pl] H Hi. simpl in *. destruct pl as [|c rest].
  - destruct (argv !! i) as [w|] eqn:E; [|by injection H as <- <-]. unfold ahead at 2. simpl. rewrite (ahead_next _ _ _ E).
    assert (G : forall c' rest', (S (length rest') < length w)%nat -> getopt_char argv options i c' rest' = (o, st') ->
      (ahead argv st' < S (length w + sum_list_with (fun w : bytes => S (length w)) (drop (S i) argv)))%nat /\ optind st' <> 0%nat).
    { intros c' rest' Hl Hg. pose proof (ahead_next _ _ _ E) as Hn. destruct (getopt_char_ahead _ _ _ _ _ _ _ Hg Ho Hi) as [G1 G2].
      split; [lia|done]. }
    destruct w as [|d [|c rest]]; [by injection H as <- <-|by injection H as <- <-|].
    destruct (d =? 45); cbn [negb] in H; [|by injection H as <- <-].
    destruct ((c =? 45) && is_null rest); [by injection H as <- <-|]. eapply G; [|done]. simpl. lia.
  - destruct (getopt_char_ahead _ _ _ _ _ _ _ H Ho Hi) as [G1 G2]. split; [|done]. unfold ahead at 2. simpl.
    lia.
Qed.

(** Enough rounds give the result; more do not change it. *)
Lemma getopt_loop_fuel {P} argv options (case : Z -> bytes -> parse P -> M (parse P)) n m st s w :
  (ahead argv (getopt_from st) < n)%nat -> (ahead argv (getopt_from st) < m)%nat ->
  getopt_loop n argv options case st s w = getopt_loop m argv options case st s w.
Proof.
  revert m st s w. induction n as [|n IH]; intros m st s w Hn Hm; [lia|]. destruct m as [|m]; [lia|]. simpl.
  destruct (getopt argv options st) as [o st'] eqn:E.
  assert (Hnext : o <> EndOpts -> (ahead argv (getopt_from st') < n)%nat /\ (ahead argv (getopt_from st') < m)%nat).
  { intros Ho. destruct (getopt_ahead _ _ _ _ _ E Ho) as [G1 G2].
    assert (getopt_from st' = st') as -> by (unfold getopt_from; by apply Nat.eqb_neq in G2 as ->). lia. }
  destruct o as [|c optarg| |].
  - done.
  - destruct (c =? 104); [done|]. unfold bind. destruct (case c optarg s w) as [[s'|x|] w']; [|done|done].
    apply IH; by apply Hnext.
  - apply IH; by apply Hnext.
  - apply IH; by apply Hnext.
Qed.

Lemma sum_drop_le argv i : (sum_list_with (fun w : bytes => S (length w)) (drop i argv) <= sum_list_with (fun w : bytes => S (length w)) argv)%nat.
Proof. revert i. induction argv as [|w argv IH]; intros [|i]; simpl; [lia|lia|lia|]. specialize (IH i). lia. Qed.

Lemma getopt_fuel_enough argv st : (ahead argv (getopt_from st) < getopt_fuel argv st)%nat.
Proof.
  unfold ahead, getopt_fuel, getopt_from. pose proof (sum_drop_le argv 1) as H1. pose proof (sum_drop_le argv (optind st)) as H2.
  pose proof (sum_drop_le argv (S (optind st))) as H3.
  destruct (optind st =? 0)%nat; [simpl in *; lia|]. destruct (place st); simpl in *; lia.
Qed.

Lemma parse_options_fuel {P} argv options (case : Z -> bytes -> parse P -> M (parse P)) st p w n :
  (ahead argv (getopt_from st) < n)%nat ->
  parse_options argv options case st p w = getopt_loop n argv options case st (mkParse p 0 None) w.
Proof. intros H. apply getopt_loop_fuel; [apply getopt_fuel_enough|done]. Qed.


(** ** Numbers are read back *)

Lemma dec_digits_first n v : 0 < v < 10 ^ Z.of_nat n -> exists c l, dec_digits n v = c :: l /\ 49 <= c <= 57.
Proof.
  revert v. induction n as [|n IH]; intros v Hv; [simpl in Hv; lia|]. simpl. destruct (Z.ltb_spec v 10).
  - exists (48 + v mod 10), []. split; [done|]. rewrite Z.mod_small; lia.
  - destruct (IH (v / 10)) as (c & l & -> & Hc).
    { rewrite Nat2Z.inj_succ, Z.pow_succ_r in Hv by lia. lia. }
    by exists c, (l ++ [48 + v mod 10]).
Qed.

Lemma strto_dec_digits n v acc some l : (0 < n)%nat -> 0 <= v < 10 ^ Z.of_nat n ->
  strto_digits 10 (dec_digits n v ++ l) acc some =
  strto_digits 10 l (acc * 10 ^ Z.of_nat (length (dec_digits n v)) + v) true.
Proof.
  assert (Hstep : forall d acc some l, 0 <= d < 10 -> strto_digits 10 ((48 + d) :: l) acc some = strto_digits 10 l (acc * 10 + d) true).
  { intros d a b k Hd. cbn [strto_digits]. unfold digit. replace ((48 <=? 48 + d) && (48 + d <=? 57)) with true by lia.
    replace (48 + d - 48) with d by lia. by replace (d <? 10) with true by lia. }
  revert v acc some l. induction n as [|n IH]; intros v acc some l Hn Hv; [lia|]. cbn [dec_digits].
  destruct (Z.ltb_spec v 10) as [Hlt|Hge].
  - cbn [app length]. rewrite Hstep by lia. f_equal. rewrite Z.mod_small by lia. lia.
  - rewrite Nat2Z.inj_succ, Z.pow_succ_r in Hv by lia. destruct n as [|n]; [simpl in Hv; lia|].
    rewrite <-app_assoc. cbn [app]. rewrite IH by lia. rewrite Hstep by lia. f_equal.
    rewrite length_app, Nat.add_1_r, Nat2Z.inj_succ, Z.pow_succ_r by lia. lia.
Qed.

(** A number that [printf] prints is read back to its end. *)
Lemma strtou_fmt_d w v : 0 <= v < 2 ^ w -> v < 10 ^ 20 -> strtou w (fmt_d v) = (v, []).
Proof.
  intros Hv H20. unfold fmt_d. replace (v <? 0) with false by lia. unfold strtou, strto.
  destruct (Z.eq_dec v 0) as [->|Hne].
  - transitivity ((if 2 ^ w <=? 0 then 2 ^ w - 1 else 0, []) : Z * bytes); [reflexivity|].
    by replace (2 ^ w <=? 0) with false by lia.
  - destruct (dec_digits_first 20 v) as (c & l & E & Hc); [simpl; lia|].
    pose proof (strto_dec_digits 20 v 0 false [] ltac:(lia) ltac:(simpl; lia)) as Hd. rewrite app_nil_r, E in Hd.
    rewrite E. cbn [skip_space]. replace (is_space c) with false by (unfold is_space; lia).
    replace (c =? 45) with false by lia. replace (c =? 43) with false by lia.
    assert (strto_base (c :: l) = (10, c :: l)) as ->.
    { assert (c = 49 \/ c = 50 \/ c = 51 \/ c = 52 \/ c = 53 \/ c = 54 \/ c = 55 \/ c = 56 \/ c = 57) as D by lia.
      repeat destruct D as [->|D]; subst; reflexivity. }
    rewrite Z.mul_0_l, Z.add_0_l in Hd. rewrite Hd. cbn [strto_digits mbind option_bind].
    by replace (2 ^ w <=? v) with false by lia.
Qed.

Lemma dec_digits_chars n v : 0 <= v -> Forall (fun c => 48 <= c <= 57) (dec_digits n v).
Proof.
  revert v. induction n as [|n IH]; intros v Hv; [by apply Forall_nil|]. cbn [dec_digits]. apply Forall_app. split.
  - destruct (v <? 10); [by apply Forall_nil|]. apply IH. lia.
  - apply Forall_singleton. lia.
Qed.

Lemma fmt_d_chars v : 0 <= v -> Forall (fun c => 48 <= c <= 57) (fmt_d v).
Proof. intros Hv. unfold fmt_d. replace (v <? 0) with false by lia. by apply dec_digits_chars. Qed.

Lemma fmt_d_not_null v : is_null (fmt_d v) = false.
Proof. unfold fmt_d. destruct (v <? 0); [done|]. cbn [dec_digits]. by destruct (if v <? 10 then _ else _). Qed.

(** ** Options are read back *)

(** The words of options that take an argument. *)
Definition option_words (l : list (Z * bytes)) : list bytes := concat (map (fun o => [[45; o.1]; o.2]) l).

Lemma length_option_words l : length (option_words l) = (2 * length l)%nat.
Proof. unfold option_words. induction l as [|o l IH]; [done|]. cbn [map concat app length]. rewrite IH. lia. Qed.

(** The cases accept the options one after the other and do nothing else. *)
Inductive reads {P} (options : bytes) (case : Z -> bytes -> parse P -> M (parse P)) : list (Z * bytes) -> parse P -> parse P -> Prop :=
| reads_nil s : reads options case [] s s
| reads_cons c a l s s1 s2 :
    c <> 58 -> c <> 45 -> c <> 104 -> option_of options c = Some true -> (forall w, case c a s w = (Ret s1, w)) ->
    reads options case l s1 s2 -> reads options case ((c, a) :: l) s s2.

Lemma reads_app {P} options (case : Z -> bytes -> parse P -> M (parse P)) l1 l2 s1 s2 s3 :
  reads options case l1 s1 s2 -> reads options case l2 s2 s3 -> reads options case (l1 ++ l2) s1 s3.
Proof. intros Ha Hb. induction Ha; simpl; [done|]. econstructor; eauto. Qed.

(** A word that is not an option. *)
Definition is_word (l : bytes) : Prop := match l with c :: _ :: _ => c <> 45 | _ => True end.

Lemma getopt_loop_reads {P} options (case : Z -> bytes -> parse P -> M (parse P)) l s s' :
  reads options case l s s' -> forall fuel pre post w,
  (length l < fuel)%nat -> pre <> [] -> match post with x :: _ => is_word x | [] => True end ->
  getopt_loop fuel (pre ++ option_words l ++ post) options case (mkGetopt (length pre) []) s w =
  (Ret (Some s', mkGetopt (length pre + 2 * length l) []), w).
Proof.
  induction 1 as [s|c a l s s1 s2 H1 H2 H3 Ho Hc _ IH]; intros fuel pre post w Hf Hp Hpost.
  - destruct fuel as [|fuel]; [simpl in Hf; lia|]. simpl. rewrite Nat.add_0_r. unfold getopt. simpl.
    replace (length pre =? 0)%nat with false by (destruct pre; done). simpl.
    rewrite lookup_app_r, Nat.sub_diag by lia. destruct post as [|x post]; simpl; [done|].
    destruct x as [|d [|y x]]; try done. simpl in Hpost. by replace (d =? 45) with false by lia.
  - destruct fuel as [|fuel]; [simpl in Hf; lia|]. cbn [getopt_loop]. unfold getopt. cbn [optind place].
    replace (length pre =? 0)%nat with false by (destruct pre; done). cbn [optind place].
    unfold option_words. cbn [map concat app]. fold (option_words l). cbn [fst snd app].
    rewrite lookup_app_r, Nat.sub_diag by lia. cbn [lookup list_lookup]. cbn [Z.eqb Pos.eqb negb].
    replace (c =? 45) with false by lia. cbn [andb]. unfold getopt_char. cbn [is_null].
    replace (c =? 58) with false by lia. replace (c =? 45) with false by lia. cbn [orb andb]. rewrite Ho. cbn [negb].
    rewrite lookup_app_r by lia. replace (S (length pre) - length pre)%nat with 1%nat by lia. cbn [lookup list_lookup].
    replace (c =? 104) with false by lia. unfold bind. rewrite Hc.
    specialize (IH fuel (pre ++ [[45; c]; a]) post w). rewrite length_app in IH. simpl length in IH.
    replace (length pre + 2 + 2 * length l)%nat with (length pre + 2 * S (length l))%nat in IH by lia.
    replace (length pre + 2)%nat with (S (S (length pre))) in IH by lia. rewrite <-app_assoc in IH. cbn [app] in IH.
    cbn [length] in *. apply IH; [lia| |done]. by destruct pre.
Qed.

(** A command whose first word is its name, with options and further words. *)
Lemma parse_options_reads {P} options (case : Z -> bytes -> parse P -> M (parse P)) name l post pl p s w :
  reads options case l (mkParse p 0 None) s -> match post with x :: _ => is_word x | [] => True end ->
  parse_options (name :: option_words l ++ post) options case (mkGetopt 0 pl) p w =
  (Ret (Some s, mkGetopt (1 + 2 * length l) []), w).
Proof.
  intros Hr Hp. set (argv := name :: option_words l ++ post).
  pose proof (getopt_fuel_enough argv (mkGetopt 0 pl)) as Hf. unfold getopt_from in Hf. cbn [optind Nat.eqb] in Hf.
  assert (Hl : (length l < S (ahead argv (mkGetopt 1 [])))%nat).
  { unfold ahead, argv. cbn [place optind drop]. clear. induction l as [|[c a] l IH]; [simpl; lia|].
    unfold option_words in *. cbn [map concat app length]. rewrite drop_0 in *. simpl. lia. }
  pose proof (getopt_loop_reads options case l _ s Hr (S (ahead argv (mkGetopt 1 []))) [name] post w Hl ltac:(done) Hp) as H.
  cbn [length app] in H. fold argv in H. rewrite <-H.
  rewrite (parse_options_fuel argv options case (mkGetopt 0 pl) p w (S (ahead argv (mkGetopt 1 [])))) by (unfold getopt_from; simpl; lia).
  reflexivity.
Qed.
