(* ===== verification/CgptCmd.v ===== *)
(** * The command lines of cgpt (gpt/lib/cmd_*.c)

    Every command reads its options with [getopt] and calls the function of the library with the
    parameters it built.  The answer is the exit code; messages and what the functions print are
    left out.  [int] and [unsigned long] have 32 bits. *)

From stdpp Require Import base list numbers gmap strings.
From Stdlib Require Import ZArith Lia.
From S2P Require Import Prelude GptTypes GptLib Posix Drive CgptCommon Utf GuidStr CgptCreate CgptAdd CgptPrioritize CgptShow.
From S2P Require Import CgptBoot CLib CgptFind.

(** A command gets its words, the first one its name, and the state of [getopt]. *)
Definition command : Type := list bytes -> getopt_state -> M (Z * getopt_state).

(** The words behind the options: [usage] is called with none. *)
Definition run_command {P} (options : bytes) (case : Z -> bytes -> parse P -> M (parse P)) (p : P)
  (body : P -> option bytes -> M Z) : command := fun argv st =>
  let! (s, st) := parse_options argv options case st p in
  match s with
  | None => ret (CGPT_OK, st)
  | Some s =>
      if truthy (errorcnt s) then ret (CGPT_FAILED, st) else
      let! r := body (params s) (argv !! optind st) in ret (r, st)
  end.

(** A case that only changes the parameters. *)
Definition just {P} (s : parse P) : M (parse P) := ret s.

(** ** cmd_create.c, cmd_repair.c, cmd_legacy.c *)

Definition create_case (c : Z) (optarg : bytes) (s : parse bool) : M (parse bool) :=
  if c =? 122 (* z *) then just (set_params true s) else just (err s).

Definition cmd_create : command :=
  run_command (str ":hz") create_case false (fun zap drive =>
    match drive with
    | None => ret CGPT_FAILED
    | Some drive => cgpt_create (Some cgpt_uuid_generate) (Some (mkCreate (string_of drive) zap))
    end).

(** The words are in a new array of pointers; the one behind the last was never set. *)
Definition repair_case (c : Z) (optarg : bytes) (s : parse Z) : M (parse Z) :=
  if c =? 118 (* v *) then just (set_params (params s + 1) s) else just (err s).

Definition cmd_repair : command :=
  run_command (str ":hv") repair_case 0 (fun _ drive =>
    match drive with
    | None => undefined
    | Some drive => cgpt_repair (Some (string_of drive))
    end).

Definition legacy_case (c : Z) (optarg : bytes) (s : parse bool) : M (parse bool) :=
  if c =? 101 (* e *) then just (set_params true s) else just (err s).

Definition cmd_legacy : command :=
  run_command (str ":he") legacy_case false (fun efipart drive =>
    match drive with
    | None => ret CGPT_FAILED
    | Some drive => cgpt_legacy (Some (mkLegacy (string_of drive) efipart))
    end).

(** ** cmd_boot.c *)

Definition boot_case (c : Z) (optarg : bytes) (s : parse CgptBootParams) : M (parse CgptBootParams) :=
  let p := params s in
  if c =? 105 (* i *) then
    let '(v, e) := strtoul optarg in just (check_number optarg (set_e e (set_params (set_boot_partition v p) s)))
  else if c =? 98 (* b *) then
    just (set_params (mkBoot (bo_drive_name p) (bo_partition p) (Some (string_of optarg)) (bo_create_pmbr p)) s)
  else if c =? 112 (* p *) then
    just (set_params (mkBoot (bo_drive_name p) (bo_partition p) (bo_bootfile p) true) s)
  else just (err s).

Definition cmd_bootable : command :=
  run_command (str ":hi:b:p") boot_case (mkBoot "" 0 None false) (fun p drive =>
    match drive with
    | None => ret CGPT_FAILED
    | Some drive =>
        let! (r, _) := cgpt_boot (Some (mkBoot (string_of drive) (bo_partition p) (bo_bootfile p) (bo_create_pmbr p))) in ret r
    end).

(** ** cmd_prioritize.c *)

Definition prioritize_case (c : Z) (optarg : bytes) (s : parse CgptPrioritizeParams) : M (parse CgptPrioritizeParams) :=
  let p := params s in
  if c =? 105 (* i *) then
    let '(v, e) := strtoul optarg in
    just (check_number optarg (set_e e
      (set_params (mkPrioritize (pr_drive_name p) v (pr_set_friends p) (pr_max_priority p) (pr_orig_priority p)) s)))
  else if c =? 102 (* f *) then
    just (set_params (mkPrioritize (pr_drive_name p) (pr_set_partition p) true (pr_max_priority p) (pr_orig_priority p)) s)
  else if c =? 80 (* P *) then
    let '(v, e) := strtol optarg in
    let s := check_number optarg (set_e e
      (set_params (mkPrioritize (pr_drive_name p) (pr_set_partition p) (pr_set_friends p) v (pr_orig_priority p)) s)) in
    just (if (v <? 1) || (15 <? v) then err s else s)
  else just (err s).

Definition cmd_prioritize : command :=
  run_command (str ":hi:fP:") prioritize_case (mkPrioritize "" 0 false 0 0) (fun p drive =>
    if pr_set_friends p && negb (truthy (pr_set_partition p)) then ret CGPT_FAILED else
    match drive with
    | None => ret CGPT_FAILED
    | Some drive =>
        let! (r, _) := cgpt_prioritize (Some (mkPrioritize (string_of drive) (pr_set_partition p) (pr_set_friends p)
          (pr_max_priority p) (pr_orig_priority p))) in ret r
    end).

(** ** cmd_show.c *)

Definition show_case (c : Z) (optarg : bytes) (s : parse CgptShowParams) : M (parse CgptShowParams) :=
  let '(mkShow dn num verb quick part single debug np) := params s in
  if c =? 110 (* n *) then just (set_params (mkShow dn true verb quick part single debug np) s)
  else if c =? 118 (* v *) then just (set_params (mkShow dn num true quick part single debug np) s)
  else if c =? 113 (* q *) then just (set_params (mkShow dn num verb true part single debug np) s)
  else if c =? 105 (* i *) then
    let '(v, e) := strtoul optarg in
    just (check_number optarg (set_e e (set_params (mkShow dn num verb quick v single debug np) s)))
  else if bool_decide (c ∈ str "bstulSTPA") then just (set_params (mkShow dn num verb quick part c debug np) s)
  else if c =? 100 (* d *) then just (set_params (mkShow dn num verb quick part single true np) s)
  else just (err s).

Definition cmd_show : command :=
  run_command (str ":hnvqi:bstulSTPAd") show_case (mkShow "" false false false 0 0 false 0) (fun p drive =>
    match drive with
    | None => ret CGPT_FAILED
    | Some drive =>
        let! (r, _) := cgpt_show (Some (mkShow (string_of drive) (sh_numeric p) (sh_verbose p) (sh_quick p) (sh_partition p)
          (sh_single_item p) (sh_debug p) (sh_num_partitions p))) in ret r
    end).

(** ** cmd_reload.c *)

Definition STORAGE_BASE_PATH : string := "/dev/block/mmcblk0".

(** [ioctl(fd, BLKRRPART, 0)] *)
Definition sys_blkrrpart (fd : Z) : M Z :=
  let! f := next_fault in
  match f with
  | Ferr e => sys_fail e
  | _ => fun w => match fd_file w fd with Some (_, mkFile (Block _) _) => (Ret 0, w) | _ => sys_fail ENOTTY w end
  end.

Definition reload_case (c : Z) (optarg : bytes) (s : parse unit) : M (parse unit) := just (err s).

Definition cmd_reload : command :=
  run_command (str ":hv") reload_case tt (fun _ drive =>
    let drive := match drive with Some drive => string_of drive | None => STORAGE_BASE_PATH end in
    let! fd := sys_open drive (mkOflags true true true false false) in
    if fd =? -1 then ret 1 else
    let! errorcnt := sys_blkrrpart fd in
    sys_close fd ;; ret errorcnt).

(** ** cmd_add.c *)

(** The number of blocks of 512 bytes. *)
Definition _lba_count (blk_device : string) : M Z :=
  let! fd := sys_open blk_device O_RDONLY in
  if fd =? -1 then ret 0 else
  let! (_, numblocks) := sys_blkgetsize64 fd in
  sys_close fd ;; ret (numblocks / 512).

(** The distance from the end that ["$calc($lba_end-NUM)"] asks for; the parenthesis need not be closed. *)
Definition parse_lba_end (line : bytes) : option Z :=
  line ← strstr line (str "$calc(");
  let prefix := str "$calc($lba_end-" in
  if bool_decide (take (length prefix) line = prefix) then '(v, _) ← scan_llu (drop (length prefix) line); Some v
  else None.

Definition zero_guid : Guid := replicate GUID_SIZE 0.
Definition zero_add : CgptAddParams :=
  mkAdd "" 0 0 0 zero_guid zero_guid None 0 0 0 0 false false false false false false false false.

(** A number between 0 and [max]. *)
Definition small_number {P} (max v : Z) (optarg e : bytes) (s : parse P) : parse P :=
  let s := check_number optarg (set_e e s) in if (v <? 0) || (max <? v) then err s else s.

(** [(int)(uint32_t)strtoul(optarg, &e, 0)] *)
Definition strtoul_int (optarg : bytes) : Z * bytes := let '(v, e) := strtoul optarg in (s32 v, e).

Definition add_case (argv : list bytes) (c : Z) (optarg : bytes) (s : parse CgptAddParams) : M (parse CgptAddParams) :=
  let '(mkAdd dn part begin size ty un label succ tries prio raw sb ss st su sS sT sP sA) := params s in
  if c =? 105 (* i *) then
    let '(v, e) := strtoul optarg in
    just (check_number optarg (set_e e (set_params (mkAdd dn v begin size ty un label succ tries prio raw sb ss st su sS sT sP sA) s)))
  else if c =? 98 (* b *) then
    let '(v, e) := strtoull optarg in
    just (check_number optarg (set_e e (set_params (mkAdd dn part v size ty un label succ tries prio raw true ss st su sS sT sP sA) s)))
  else if c =? 115 (* s *) then
    match parse_lba_end optarg with
    | Some lba_end =>
        let! n := _lba_count (string_of (default [] (last argv))) in
        just (check_number optarg (set_params
          (mkAdd dn part begin (u64 (u64 (n - begin) - lba_end)) ty un label succ tries prio raw sb true st su sS sT sP sA) s))
    | None =>
        let '(v, e) := strtoull optarg in
        just (check_number optarg (set_e e (set_params
          (mkAdd dn part begin v ty un label succ tries prio raw sb true st su sS sT sP sA) s)))
    end
  else if c =? 116 (* t *) then
    match SupportedType (string_of optarg), StrToGuid optarg with
    | Some g, _ | None, Some g => just (set_params (mkAdd dn part begin size g un label succ tries prio raw sb ss true su sS sT sP sA) s)
    | None, None => just (err (set_params (mkAdd dn part begin size ty un label succ tries prio raw sb ss true su sS sT sP sA) s))
    end
  else if c =? 117 (* u *) then
    match StrToGuid optarg with
    | Some g => just (set_params (mkAdd dn part begin size ty g label succ tries prio raw sb ss st true sS sT sP sA) s)
    | None => just (err (set_params (mkAdd dn part begin size ty un label succ tries prio raw sb ss st true sS sT sP sA) s))
    end
  else if c =? 108 (* l *) then
    just (set_params (mkAdd dn part begin size ty un (Some optarg) succ tries prio raw sb ss st su sS sT sP sA) s)
  else if c =? 83 (* S *) then
    let '(v, e) := strtoul_int optarg in
    just (small_number 1 v optarg e (set_params (mkAdd dn part begin size ty un label v tries prio raw sb ss st su true sT sP sA) s))
  else if c =? 84 (* T *) then
    let '(v, e) := strtoul_int optarg in
    just (small_number 15 v optarg e (set_params (mkAdd dn part begin size ty un label succ v prio raw sb ss st su sS true sP sA) s))
  else if c =? 80 (* P *) then
    let '(v, e) := strtoul_int optarg in
    just (small_number 15 v optarg e (set_params (mkAdd dn part begin size ty un label succ tries v raw sb ss st su sS sT true sA) s))
  else if c =? 65 (* A *) then
    let '(v, e) := strtoull optarg in
    just (check_number optarg (set_e e (set_params
      (mkAdd dn part begin size ty un label succ tries prio (u16 v) sb ss st su sS sT sP true) s)))
  else just (err s).

Definition set_drive (drive : string) (p : CgptAddParams) : CgptAddParams :=
  let '(mkAdd _ part begin size ty un label succ tries prio raw sb ss st su sS sT sP sA) := p in
  mkAdd drive part begin size ty un label succ tries prio raw sb ss st su sS sT sP sA.

Definition cmd_add : command := fun argv =>
  run_command (str ":hi:b:s:t:u:l:S:T:P:A:") (add_case argv) zero_add (fun p drive =>
    match drive with
    | None => ret CGPT_FAILED
    | Some drive => let! (r, _) := cgpt_add (Some cgpt_uuid_generate) (Some (set_drive (string_of drive) p)) in ret r
    end) argv.

(** ** cmd_find.c *)

Section Find.
(** What [malloc] returns. *)
Context (heap : Z -> bytes).

(** The buffer, empty for NULL, and the size when it was stored. *)
Definition ReadFile (filename : string) : M (bytes * option Z) :=
  let! f := fopen filename mode_r in
  match f with
  | None => ret ([], None)
  | Some f =>
      let! (_, f) := fseek_end f in
      let! size := ftell f in
      let size := u64 size in
      let! (_, f) := fseek f 0 in
      let! ok := sys_malloc (u32 size) in
      if negb ok then fclose f ;; ret ([], Some size) else
      let! (f, b) := fread f (u32 size) in
      fclose f ;;
      ret (if negb (Z.of_nat (length b) =? u32 size) then [] else b, Some size)
  end.

(** The parameters of the search, and [oneonly]. *)
Definition find_params : Type := CgptFindParams * bool.

Definition find_case (c : Z) (optarg : bytes) (s : parse find_params) : M (parse find_params) :=
  let '(mkFind verb su st sl num mb ml mo cb un ty label hits mp, one) := params s in
  if c =? 118 (* v *) then just (set_params (mkFind (verb + 1) su st sl num mb ml mo cb un ty label hits mp, one) s)
  else if c =? 110 (* n *) then just (set_params (mkFind verb su st sl true mb ml mo cb un ty label hits mp, one) s)
  else if c =? 49 (* 1 *) then just (set_params (mkFind verb su st sl num mb ml mo cb un ty label hits mp, true) s)
  else if c =? 108 (* l *) then just (set_params (mkFind verb su st true num mb ml mo cb un ty optarg hits mp, one) s)
  else if c =? 116 (* t *) then
    match SupportedType (string_of optarg), StrToGuid optarg with
    | Some g, _ | None, Some g => just (set_params (mkFind verb su true sl num mb ml mo cb un g label hits mp, one) s)
    | None, None => just (err (set_params (mkFind verb su true sl num mb ml mo cb un ty label hits mp, one) s))
    end
  else if c =? 117 (* u *) then
    match StrToGuid optarg with
    | Some g => just (set_params (mkFind verb true st sl num mb ml mo cb g ty label hits mp, one) s)
    | None => just (err (set_params (mkFind verb true st sl num mb ml mo cb un ty label hits mp, one) s))
    end
  else if c =? 77 (* M *) then
    let! (mb, size) := ReadFile (string_of optarg) in
    let ml := default ml size in
    let s := if is_null mb || negb (truthy ml) then err s else s in
    let! ok := sys_malloc (u32 ml) in
    let s := if ok : bool then s else err s in
    just (set_params (mkFind verb su st sl num mb ml mo (if ok : bool then heap (u32 ml) else []) un ty label hits mp, one) s)
  else if c =? 79 (* O *) then
    let '(v, e) := strtoull optarg in
    just (check_number optarg (set_e e (set_params (mkFind verb su st sl num mb ml v cb un ty label hits mp, one) s)))
  else just (err s).

Fixpoint find_drives (p : CgptFindParams) (drives : list bytes) : M CgptFindParams :=
  match drives with
  | [] => ret p
  | drive :: drives => let! (p, _) := cgpt_find p (Some (string_of drive)) in find_drives p drives
  end.

Definition zero_find : CgptFindParams := mkFind 0 false false false false [] 0 0 [] zero_guid zero_guid [] 0 0.

Definition cmd_find : command := fun argv st =>
  let! (s, st) := parse_options argv (str ":hv1nt:u:l:M:O:") find_case st (zero_find, false) in
  match s with
  | None => ret (CGPT_OK, st)
  | Some s =>
      let '(p, oneonly) := params s in
      let s := if negb (fi_set_unique p) && negb (fi_set_type p) && negb (fi_set_label p) then err s else s in
      if truthy (errorcnt s) then ret (CGPT_FAILED, st) else
      let! p := if (optind st <? length argv)%nat then find_drives p (drop (optind st) argv)
                else let! (p, _) := cgpt_find p None in ret p in
      ret (if (oneonly && negb (fi_hits p =? 1)) || negb (truthy (fi_match_partnum p)) then CGPT_FAILED else CGPT_OK, st)
  end.
End Find.
