(* ===== verification/CgptCmdSpec.v ===== *)
(** * Theorems about the command lines of cgpt

    The words that ask for a change are read back to exactly that change, and what happens when
    words are missing or in another order. *)

From stdpp Require Import base list numbers gmap strings.
From Stdlib Require Import ZArith Lia.
From S2P Require Import Prelude GptTypes GptLib Posix Drive CgptCommon Utf GuidStr CgptCreate CgptAdd CgptPrioritize CgptShow.
From S2P Require Import CgptBoot CLib GetoptSpec CgptFind CgptCmd.

(** ** cmd_add *)

Definition add_letters : bytes := str ":hi:b:s:t:u:l:S:T:P:A:".

(** The options that ask for the fields that are set in [p]. *)
Definition add_options (p : CgptAddParams) : list (Z * bytes) :=
  [(105, fmt_d (ad_partition p))] ++
  (if ad_set_begin p then [(98, fmt_d (ad_begin p))] else []) ++
  (if ad_set_size p then [(115, fmt_d (ad_size p))] else []) ++
  (if ad_set_type p then [(116, guid_text (ad_type_guid p))] else []) ++
  (if ad_set_unique p then [(117, guid_text (ad_unique_guid p))] else []) ++
  (match ad_label p with Some l => [(108, l)] | None => [] end) ++
  (if ad_set_successful p then [(83, fmt_d (ad_successful p))] else []) ++
  (if ad_set_tries p then [(84, fmt_d (ad_tries p))] else []) ++
  (if ad_set_priority p then [(80, fmt_d (ad_priority p))] else []) ++
  (if ad_set_raw p then [(65, fmt_d (ad_raw_value p))] else []).

(** A value that is in range when it is set, and zero otherwise. *)
Definition set_or_zero (set : bool) (max v : Z) : Prop := if set then 0 <= v <= max else v = 0.
Definition guid_or_zero (set : bool) (g : Guid) : Prop := if set then bytes_ok g /\ length g = 16%nat else g = zero_guid.

Record add_request (p : CgptAddParams) : Prop := {
  ar_drive : ad_drive_name p = ""%string;
  ar_partition : 0 <= ad_partition p < 2 ^ 32;
  ar_begin : set_or_zero (ad_set_begin p) (2 ^ 64 - 1) (ad_begin p);
  ar_size : set_or_zero (ad_set_size p) (2 ^ 64 - 1) (ad_size p);
  ar_type : guid_or_zero (ad_set_type p) (ad_type_guid p);
  ar_unique : guid_or_zero (ad_set_unique p) (ad_unique_guid p);
  ar_successful : set_or_zero (ad_set_successful p) 1 (ad_successful p);
  ar_tries : set_or_zero (ad_set_tries p) 15 (ad_tries p);
  ar_priority : set_or_zero (ad_set_priority p) 15 (ad_priority p);
  ar_raw : set_or_zero (ad_set_raw p) (2 ^ 16 - 1) (ad_raw_value p)
}.

(** Reading options that are all accepted: no error is counted, and the last number ended its word. *)
Definition adds (argv : list bytes) (l : list (Z * bytes)) (p p' : CgptAddParams) : Prop :=
  forall e, default [] e = [] ->
  exists e', default [] e' = [] /\ reads add_letters (add_case argv) l (mkParse p 0 e) (mkParse p' 0 e').

Lemma adds_nil argv p : adds argv [] p p.
Proof. intros e He. exists e. split; [done|constructor]. Qed.

Lemma adds_app argv l1 l2 p1 p2 p3 : adds argv l1 p1 p2 -> adds argv l2 p2 p3 -> adds argv (l1 ++ l2) p1 p3.
Proof.
  intros H1 H2 e He. destruct (H1 e He) as (e1 & He1 & R1). destruct (H2 e1 He1) as (e2 & He2 & R2).
  exists e2. split; [done|]. by eapply reads_app.
Qed.

Lemma adds_one argv c a p p' :
  c <> 58 -> c <> 45 -> c <> 104 -> option_of add_letters c = Some true ->
  (forall e, default [] e = [] -> exists e', default [] e' = [] /\ forall w, add_case argv c a (mkParse p 0 e) w = (Ret (mkParse p' 0 e'), w)) ->
  adds argv [(c, a)] p p'.
Proof.
  intros H1 H2 H3 Ho H e He. destruct (H e He) as (e' & He' & Hw). exists e'. split; [done|].
  econstructor; try done. constructor.
Qed.

Lemma check_number_ok {P} a (p : P) n e : is_null a = false -> default [] e = [] ->
  check_number a (mkParse p n e) = mkParse p n e.
Proof. intros Ha He. unfold check_number. rewrite Ha. simpl. by rewrite He. Qed.

Lemma strtoul_small v : 0 <= v < 2 ^ 32 -> strtoul (fmt_d v) = (v, []).
Proof. intros H. apply strtou_fmt_d; lia. Qed.

Lemma strtoull_small v : 0 <= v < 2 ^ 64 -> strtoull (fmt_d v) = (v, []).
Proof. intros H. apply strtou_fmt_d; lia. Qed.

Lemma strtoul_int_small v : 0 <= v <= 15 -> strtoul_int (fmt_d v) = (v, []).
Proof.
  intros H. unfold strtoul_int. rewrite strtoul_small by lia. f_equal. unfold s32, to_signed.
  rewrite Z.mod_small by lia. by replace (v <? 2 ^ (32 - 1)) with true by lia.
Qed.

(** Digits do not look like "$calc(". *)
Lemma parse_lba_end_digits l : Forall (fun c => 48 <= c <= 57) l -> parse_lba_end l = None.
Proof.
  intros H. unfold parse_lba_end. assert (strstr l (str "$calc(") = None) as ->; [|done].
  induction H as [|c l Hc _ IH]; [done|]. cbn [strstr]. rewrite IH. rewrite bool_decide_eq_false_2; [done|].
  intros E. change (str "$calc(") with (36 :: [99; 97; 108; 99; 40]) in E. cbn [length take] in E. injection E as E _. lia.
Qed.

Lemma c_string_nonzero l : Forall (fun c => c <> 0) l -> c_string l = l.
Proof. induction 1 as [|c l Hc _ IH]; simpl; [done|]. rewrite (proj2 (Z.eqb_neq _ _)) by done. by rewrite IH. Qed.

(** A GUID is not the name of a type. *)
Lemma SupportedType_guid g : bytes_ok g -> length g = 16%nat -> SupportedType (string_of (guid_text g)) = None.
Proof.
  intros Hg Hl. unfold SupportedType. apply bind_None. left. apply list_find_None. apply Forall_forall. intros t Ht E.
  assert (F : length (str t.1.2) = 36%nat).
  { rewrite E. unfold str, string_of. rewrite String.list_ascii_of_string_of_list_ascii, !length_map. by apply length_guid_text. }
  unfold supported_types in Ht. rewrite !elem_of_cons, elem_of_nil in Ht.
  destruct Ht as [->|[->|[->|[->|[->|[->|[->|[]]]]]]]]; discriminate F.
Qed.

Lemma StrToGuid_text g : bytes_ok g -> length g = 16%nat -> StrToGuid (guid_text g) = Some g.
Proof. intros Hg Hl. apply sscanf_guid_text; [done|done|]. apply c_string_nonzero. by apply guid_text_nonzero. Qed.

Lemma number_read {P} v (p p' : P) e w :
  just (check_number (fmt_d v) (set_e [] (set_params p' (mkParse p 0 e)))) w = (Ret (mkParse p' 0 (Some [])), w).
Proof.
  unfold just, set_e, set_params. cbn [params errorcnt]. by rewrite check_number_ok by (done || apply fmt_d_not_null).
Qed.

Lemma small_number_read {P} max v (p p' : P) e w : 0 <= v <= max ->
  just (small_number max v (fmt_d v) [] (set_params p' (mkParse p 0 e))) w = (Ret (mkParse p' 0 (Some [])), w).
Proof.
  intros Hv. unfold just, small_number, set_e, set_params. cbn [params errorcnt].
  rewrite check_number_ok by (done || apply fmt_d_not_null). by replace ((v <? 0) || (max <? v)) with false by lia.
Qed.

Section Add.
Context (argv : list bytes).

#[local] Abbreviation case := (add_case argv).

Ltac one_option := apply adds_one; [done|done|done|reflexivity|]; intros e He; unfold add_case; cbn [params Z.eqb Pos.eqb].

(** The record of parameters after the options up to one field. *)
Lemma adds_request p : add_request p -> adds argv (add_options p) zero_add p.
Proof using Type.
  destruct p as [dn part begin size ty un label succ tries prio raw sb ss st su sS sT sP sA].
  intros [H1 H2 H3 H4 H5 H6 H7 H8 H9 H10]. simpl in *. subst dn. unfold add_options, zero_add. cbn -[option_of fmt_d guid_text].
  apply (adds_app _ [_] _ _ (mkAdd "" part 0 0 zero_guid zero_guid None 0 0 0 0 false false false false false false false false)).
  { one_option. rewrite strtoul_small by done. exists (Some []). split; [done|]. intros w. apply number_read. }
  apply (adds_app _ _ _ _ (mkAdd "" part begin 0 zero_guid zero_guid None 0 0 0 0 sb false false false false false false false)).
  { destruct sb; [|rewrite H3; apply adds_nil]. one_option. simpl in H3. rewrite strtoull_small by lia. exists (Some []). split; [done|].
    intros w. apply number_read. }
  apply (adds_app _ _ _ _ (mkAdd "" part begin size zero_guid zero_guid None 0 0 0 0 sb ss false false false false false false)).
  { destruct ss; [|rewrite H4; apply adds_nil]. one_option. simpl in H4. rewrite parse_lba_end_digits by (apply fmt_d_chars; lia).
    rewrite strtoull_small by lia. exists (Some []). split; [done|].
    intros w. apply number_read. }
  apply (adds_app _ _ _ _ (mkAdd "" part begin size ty zero_guid None 0 0 0 0 sb ss st false false false false false)).
  { destruct st; [|rewrite H5; apply adds_nil]. destruct H5 as [Hg Hl]. one_option.
    rewrite SupportedType_guid, StrToGuid_text by done. by exists e. }
  apply (adds_app _ _ _ _ (mkAdd "" part begin size ty un None 0 0 0 0 sb ss st su false false false false)).
  { destruct su; [|rewrite H6; apply adds_nil]. destruct H6 as [Hg Hl]. one_option. rewrite StrToGuid_text by done. by exists e. }
  apply (adds_app _ _ _ _ (mkAdd "" part begin size ty un label 0 0 0 0 sb ss st su false false false false)).
  { destruct label; [|apply adds_nil]. one_option. by exists e. }
  apply (adds_app _ _ _ _ (mkAdd "" part begin size ty un label succ 0 0 0 sb ss st su sS false false false)).
  { destruct sS; [|rewrite H7; apply adds_nil]. one_option. simpl in H7. rewrite strtoul_int_small by lia. exists (Some []). split; [done|].
    intros w. by apply small_number_read. }
  apply (adds_app _ _ _ _ (mkAdd "" part begin size ty un label succ tries 0 0 sb ss st su sS sT false false)).
  { destruct sT; [|rewrite H8; apply adds_nil]. one_option. simpl in H8. rewrite strtoul_int_small by lia. exists (Some []). split; [done|].
    intros w. by apply small_number_read. }
  apply (adds_app _ _ _ _ (mkAdd "" part begin size ty un label succ tries prio 0 sb ss st su sS sT sP false)).
  { destruct sP; [|rewrite H9; apply adds_nil]. one_option. simpl in H9. rewrite strtoul_int_small by lia. exists (Some []). split; [done|].
    intros w. by apply small_number_read. }
  destruct sA; [|rewrite H10; apply adds_nil]. one_option. simpl in H10. rewrite strtoull_small by lia. exists (Some []). split; [done|].
  intros w. unfold u16. rewrite Z.mod_small by lia. apply number_read.
Qed.
End Add.

Lemma last_word (x : bytes) l y : (x :: l ++ [y]) !! S (length l) = Some y.
Proof. by apply list_lookup_middle. Qed.

(** C9: The words that ask for a request are read back to exactly that request: [cmd_add] on them
    does what [cgpt_add] does on the request and the drive, for every schedule of system calls. *)
Theorem cmd_add_reads_request p drive pl w :
  add_request p -> is_word (str drive) ->
  cmd_add (str "add" :: option_words (add_options p) ++ [str drive]) (mkGetopt 0 pl) w =
  (let! (r, _) := cgpt_add (Some cgpt_uuid_generate) (Some (set_drive drive p)) in
   ret (r, mkGetopt (1 + 2 * length (add_options p)) [])) w.
Proof.
  intros Hp Hd. unfold cmd_add, run_command. set (argv := str "add" :: _).
  destruct (adds_request argv p Hp None eq_refl) as (e & He & Hr).
  pose proof (parse_options_reads add_letters (add_case argv) (str "add") _ [str drive] pl zero_add _ w Hr Hd) as E.
  fold argv in E. fold add_letters. unfold bind at 1. rewrite E. cbn [errorcnt truthy Z.eqb negb params optind].
  unfold argv. replace (1 + 2 * length (add_options p))%nat with (S (length (option_words (add_options p)))).
  - rewrite last_word, string_of_str.
    unfold bind. destruct (cgpt_add _ _ w) as [[[r x]|x|] w']; reflexivity.
  - by rewrite length_option_words.
Qed.
