(* ===== verification/CgptTool.v ===== *)
(** * Scripts of cgpt commands (gpt/gfdisk/cgpt.c)

    The tool reads a file whose first line names the kind of the table and whose other lines are
    commands.  A line is read into a buffer of 256 bytes.  Messages are left out. *)

From stdpp Require Import base list numbers gmap strings.
From Stdlib Require Import ZArith Lia.
From S2P Require Import Prelude GptTypes GptLib Posix Drive CgptCommon GuidStr CLib CgptCmd.

Definition K_MAX_ARGS : nat := 256.
Definition K_MAX_ARG_LEN : Z := 256.

(** ** Words *)

(** Every word is copied to memory of its own; without memory the rest is dropped. *)
Fixpoint copy_tokens (n : nat) (toks : list bytes) : M (list bytes) :=
  match n, toks with
  | S n, token :: toks =>
      let! ok := sys_malloc (K_MAX_ARG_LEN + 1) in
      if ok : bool then let! rest := copy_tokens n toks in ret (take (Z.to_nat K_MAX_ARG_LEN) token :: rest)
      else ret []
  | _, _ => ret []
  end.

(** [None] for NULL. *)
Definition str_to_array (s : bytes) : M (option (list bytes)) :=
  let! ok := sys_malloc (4 * Z.of_nat K_MAX_ARGS) in
  if ok : bool then let! argv := copy_tokens K_MAX_ARGS (tokens s) in ret (Some argv) else ret None.

(** [buffer[strlen(buffer) - 1] = '\\0'], which is outside the buffer when the string is empty. *)
Definition chop (buffer : bytes) : option bytes :=
  let s := c_string buffer in if is_null s then None else Some (removelast s).

(** [sscanf(buffer, "%*[^=]=%255s", partition_type) == 1] *)
Fixpoint span_eq (l : bytes) : bytes :=
  match l with
  | c :: l' => if c =? 61 then l else span_eq l'
  | [] => []
  end.

Fixpoint scan_word (n : nat) (l : bytes) : bytes :=
  match n, l with
  | S n, c :: l => if is_space c then [] else c :: scan_word n l
  | _, _ => []
  end.

Definition partition_type (buffer : bytes) : option bytes :=
  match buffer, span_eq buffer with
  | 61 :: _, _ => None
  | _, _ :: l => let w := scan_word 255 (skip_space l) in if is_null w then None else Some w
  | _, [] => None
  end.

(** [!strncmp(name, s, strlen(s))]: [s] begins [name]. *)
Definition begins (name : string) (s : bytes) : bool := bool_decide (take (length s) (str name) = s).

(** ** Commands *)

Definition cmd_start_partitioning : command := fun _ st => ret (0, st).
Definition cmd_stop_partitioning : command := fun _ st => ret (0, st).

(** An exact match ends the search; otherwise a match that is unique is taken: the number of
    matches, and the last one. *)
Fixpoint match_command (cmds : list (string * command)) (name : bytes) (count : Z) (found : option command)
  : Z * option command :=
  match cmds with
  | [] => (count, found)
  | (n, fp) :: cmds =>
      if bool_decide (str n = name) then (1, Some fp)
      else if begins n name then match_command cmds name (count + 1) (Some fp)
      else match_command cmds name count found
  end.

Section Tool.
(** What [malloc] returns. *)
Context (heap : Z -> bytes).

Definition cmds : list (string * command) :=
  [("create", cmd_create); ("add", cmd_add); ("show", cmd_show); ("repair", cmd_repair); ("boot", cmd_bootable);
   ("find", cmd_find heap); ("prioritize", cmd_prioritize); ("legacy", cmd_legacy); ("start", cmd_start_partitioning);
   ("reload", cmd_reload); ("end", cmd_stop_partitioning)]%string.

(** The first word of an empty line was never set. *)
Definition _oem_partition_gpt_sub_command : command := fun argv st =>
  match argv with
  | [] => undefined
  | name :: _ =>
      match match_command cmds name 0 None with
      | (1, Some fp) => fp argv (mkGetopt 0 (place st))
      | _ => ret (-1, mkGetopt 0 (place st))
      end
  end.

(** The loop over the lines; the results are combined with [|]. *)
Fixpoint gpt_lines (fuel : nat) (fp : FILE) (st : getopt_state) (r : Z) : M (Z * getopt_state) :=
  match fuel with
  | O => undefined
  | S fuel =>
      let! buffer := fgets K_MAX_ARG_LEN fp in
      match buffer with
      | None => ret (r, st)
      | Some buffer =>
          match chop buffer with
          | None => undefined
          | Some buffer =>
              let! argv := str_to_array buffer in
              match argv with
              | None => undefined
              | Some argv =>
                  let! (r', st) := _oem_partition_gpt_sub_command argv st in
                  gpt_lines fuel fp st (Z.lor r r')
              end
          end
      end
  end.

Definition oem_partition_gpt_handler (fp : FILE) (st : getopt_state) : M (Z * getopt_state) :=
  let! n := file_rounds fp in gpt_lines n fp st 0.

Definition oem_partition_mbr_handler (fp : FILE) : M Z := ret 0.

(** [main]: the words on its command line, and the exit code. *)
Definition cgpt_main (argv : list string) : M Z :=
  match argv with
  | [_; file] =>
      let! fp := fopen file mode_r in
      match fp with
      | None => ret (-1)
      | Some fp =>
          let! buffer := fgets K_MAX_ARG_LEN fp in
          match buffer with
          | None => ret (-1)
          | Some buffer =>
              match chop buffer with
              | None => undefined
              | Some buffer =>
                  match partition_type buffer with
                  | None => ret (-1)
                  | Some type =>
                      let! r := if begins "gpt" type then let! (r, _) := oem_partition_gpt_handler fp getopt_start in ret r
                                else ret (-1) in
                      let! r := if begins "mbr" type then oem_partition_mbr_handler fp else ret r in
                      fclose fp ;; ret r
                  end
              end
          end
      end
  | _ => ret (-1)
  end.
End Tool.
