(* ===== verification/OemPartition.v ===== *)
(** * Partitioning commands of the boot loader (oem_partition.c)

    The script of cgpt commands again, with another list of commands and other answers to failures,
    and the commands that erase, repartition and retrieve.  The service of system properties, the
    function that unmounts everything and the one that partitions with an MBR are state or
    parameters; the table of volumes belongs to the recovery program. *)

From stdpp Require Import base list numbers gmap strings.
From Stdlib Require Import ZArith Lia.
From S2P Require Import Prelude GptTypes GptLib Posix Drive CgptCommon GuidStr CLib Util CgptCmd CgptTool.

(** ** State of the module and of the process *)

Record ufdisk := mkUfdisk { umount_all : option (M unit); create_partition : option (M Z) }.

Definition fake_umount_all : M unit := ret tt.
Definition fake_create_partition : M Z := ret (-1).

(** [indirected_cmd_reload], [ufdisk], the variables of [getopt] and the properties. *)
Record oem_state := mkOem {
  reload_enabled : bool;
  oem_ufdisk : M unit * M Z;
  oem_getopt : getopt_state;
  properties : gmap string bytes
}.

Definition oem_start (properties : gmap string bytes) : oem_state :=
  mkOem true (fake_umount_all, fake_create_partition) getopt_start properties.

Definition set_getopt (st : getopt_state) (s : oem_state) : oem_state :=
  mkOem (reload_enabled s) (oem_ufdisk s) st (properties s).
Definition property_set (key : string) (value : bytes) (s : oem_state) : oem_state :=
  mkOem (reload_enabled s) (oem_ufdisk s) (oem_getopt s) (<[key := value]> (properties s)).

(** The value of a property without a default: an empty string when it is not set. *)
Definition property_get (key : string) (s : oem_state) : bytes := default [] (properties s !! key).

Definition cmd_noop : command := fun _ st => ret (0, st).

Definition oem_partition_disable_cmd_reload (s : oem_state) : oem_state :=
  mkOem false (oem_ufdisk s) (oem_getopt s) (properties s).

Definition oem_partition_init (new_ufdisk : option ufdisk) (s : oem_state) : oem_state :=
  match new_ufdisk with
  | None => s
  | Some u => mkOem (reload_enabled s) (default fake_umount_all (umount_all u), default fake_create_partition (create_partition u))
                (oem_getopt s) (properties s)
  end.

(** ** Scripts *)

Definition str_to_array : bytes -> M (option (list bytes)) := CgptTool.str_to_array.

(** The first command whose name begins with the word. *)
Fixpoint first_command (cmds : list (string * command)) (name : bytes) : option command :=
  match cmds with
  | [] => None
  | (n, fp) :: cmds => if begins n name then Some fp else first_command cmds name
  end.

Section Oem.
(** What [malloc] returns. *)
Context (heap : Z -> bytes).

Definition oem_cmds (s : oem_state) : list (string * command) :=
  [("create", cmd_create); ("add", cmd_add); ("dump", cmd_show); ("repair", cmd_repair); ("boot", cmd_bootable);
   ("find", cmd_find heap); ("prioritize", cmd_prioritize); ("legacy", cmd_legacy);
   ("reload", if reload_enabled s then cmd_reload else cmd_noop)]%string.

Definition oem_partition_gpt_sub_command (argv : list bytes) (s : oem_state) : M (Z * oem_state) :=
  match argv with
  | [] => undefined
  | name :: _ =>
      let st := mkGetopt 0 (place (oem_getopt s)) in
      match first_command (oem_cmds s) name with
      | None => ret (-1, set_getopt st s)
      | Some fp => let! (r, st) := fp argv st in ret (r, set_getopt st s)
      end
  end.

(** The end of the line is removed when it was read. *)
Definition chop_newline (buffer : bytes) : option bytes :=
  let s := c_string buffer in
  match last s with
  | None => None
  | Some c => Some (if c =? 10 then removelast s else s)
  end.

Fixpoint oem_gpt_lines (fuel : nat) (fp : FILE) (s : oem_state) : M (Z * oem_state) :=
  match fuel with
  | O => undefined
  | S fuel =>
      let! buffer := fgets K_MAX_ARG_LEN fp in
      match buffer with
      | None => ret (0, s)
      | Some buffer =>
          match chop_newline buffer with
          | None => undefined
          | Some buffer =>
              let! argv := str_to_array buffer in
              match argv with
              | None => ret (-1, s)
              | Some argv =>
                  let! (r, s) := oem_partition_gpt_sub_command argv s in
                  if truthy r then ret (-1, s) else oem_gpt_lines fuel fp s
              end
          end
      end
  end.

Definition partitioning_started (s : oem_state) : bool := bool_decide (c_string (property_get "sys.partitioning" s) = str "1").

Definition oem_partition_gpt_handler (fp : FILE) (s : oem_state) : M (Z * oem_state) :=
  if negb (partitioning_started s) then ret (-1, s) else
  let! n := file_rounds fp in oem_gpt_lines n fp s.

Definition oem_partition_mbr_handler (s : oem_state) : M Z := (oem_ufdisk s).2.

(** The stream stays open when the first line is not what it should be. *)
Definition oem_partition_cmd_handler (argv : list bytes) (s : oem_state) : M (Z * oem_state) :=
  match argv with
  | [_; file] =>
      let! fp := fopen (string_of file) mode_r in
      match fp with
      | None => ret (-1, s)
      | Some fp =>
          let! buffer := fgets K_MAX_ARG_LEN fp in
          match buffer with
          | None => ret (-1, s)
          | Some buffer =>
              match chop buffer with
              | None => undefined
              | Some buffer =>
                  match partition_type buffer with
                  | None => ret (-1, s)
                  | Some type =>
                      let! (r, s) := if begins "gpt" type then oem_partition_gpt_handler fp s else ret (-1, s) in
                      let! r := if begins "mbr" type then oem_partition_mbr_handler s else ret r in
                      fclose fp ;; ret (r, s)
                  end
              end
          end
      end
  | _ => ret (-1, s)
  end.

Definition oem_partition_start_handler (s : oem_state) : M (Z * oem_state) :=
  let s := property_set "sys.partitioning" (str "1") s in
  (oem_ufdisk s).1 ;; ret (0, s).

Definition oem_repart_partition (argc : Z) (s : oem_state) : M Z :=
  if negb (argc =? 1) then ret (-1) else (oem_ufdisk s).2.

(** [optind] is not reset here; the first word of both command lines was never set, and is not looked at. *)
Definition oem_retrieve_partitions (argc : Z) (s : oem_state) : M (Z * oem_state) :=
  if negb (argc =? 1) then ret (-1, s) else
  if negb (partitioning_started s) then ret (-1, s) else
  let drive := str STORAGE_BASE_PATH in
  let! (r, st) := cmd_bootable [[]; str "-p"; drive] (oem_getopt s) in
  if truthy r then ret (r, set_getopt st s) else
  let! (r, st) := cmd_reload [[]; drive] st in
  ret (r, set_getopt st s).

(** ** Erasing a volume *)

Record Volume := mkVolume { fs_type : string; mount_point : string; device : string }.

Context (volume_for_path : string -> option Volume) (ensure_path_unmounted format_volume : string -> M Z).

Definition oem_partition_stop_handler (s : oem_state) : M (Z * oem_state) :=
  ensure_path_unmounted "/factory" ;; ret (0, property_set "sys.partitioning" (str "0") s).

(** Writing [pbuf] until less than all of it is taken: the last result and the number of writes.
    A whole write moves on, so the device ends the loop. *)
Fixpoint nuke_write (fuel : nat) (fd : Z) (pbuf : bytes) (count : Z) : M (Z * Z) :=
  match fuel with
  | O => undefined
  | S fuel =>
      let! r := sys_write fd pbuf in
      if r =? -1 then ret (r, count) else
      if r =? Z.of_nat (length pbuf) then nuke_write fuel fd pbuf (count + 1) else ret (r, count + 1)
  end.

(** Reading into [pbufRead] and comparing all of it: what is returned at once, or the number of reads. *)
Fixpoint nuke_read (fuel : nat) (fd : Z) (pbuf pbufRead : bytes) (count : Z) : M (Z + Z) :=
  match fuel with
  | O => undefined
  | S fuel =>
      let! (r, b) := sys_read fd (Z.of_nat (length pbuf)) in
      if r <=? 0 then ret (inl r) else
      let pbufRead := splice 0 b pbufRead in
      if negb (bool_decide (pbuf = pbufRead)) then ret (inl (-1)) else
      if r =? Z.of_nat (length pbuf) then nuke_read fuel fd pbuf pbufRead (count + 1) else ret (inr (count + 1))
  end.

(** Rounds that moving through a device cannot exceed. *)
Definition device_rounds (fd : Z) : M nat := fun w =>
  (Ret (match fd_file w fd with Some (_, file) => (length (f_data file) + length (w_faults w) + 2)%nat | None => 1%nat end), w).

Definition nuke_device (fd bufferSize : Z) : M Z :=
  let! ok := sys_malloc bufferSize in
  if negb ok then ret (-1) else
  let! ok := sys_malloc bufferSize in
  if negb ok then ret (-1) else
  let pbuf := replicate (Z.to_nat bufferSize) 255 in
  let! size := sys_lseek_end fd in
  if size =? -1 then ret (-1) else
  let! offset := sys_lseek fd 0 in
  if offset =? -1 then ret (-1) else
  let! n := device_rounds fd in
  let! (r, count_w) := nuke_write n fd pbuf 0 in
  if r =? -1 then ret (-1) else
  let! offset := sys_lseek fd 0 in
  if offset =? -1 then ret r else
  let! n := device_rounds fd in
  let! res := nuke_read n fd pbuf (heap bufferSize) 0 in
  match res with
  | inl r => ret r
  | inr count => ret (if count =? count_w then 0 else -1)
  end.

Definition nuke_volume (volume : string) (bufferSize : Z) : M Z :=
  match volume_for_path volume with
  | None => ret (-1)
  | Some v =>
      if bool_decide (fs_type v = "ramdisk"%string) then ret (-1) else
      if negb (bool_decide (mount_point v = volume)) then ret (-1) else
      let! r := ensure_path_unmounted volume in
      if truthy r then ret (-1) else
      let! fd := sys_open (device v) O_RDWR in
      if fd =? -1 then ret (-1) else
      let! r := nuke_device fd bufferSize in
      sys_close fd ;; ret r
  end.

Definition MOUNT_POINT_SIZE : Z := 50.
Definition BUFFER_SIZE : Z := 4000000.

(** The mount point, [None] for -1. *)
Definition get_mountpoint (name : bytes) : option bytes :=
  match name with
  | 47 :: _ => if MOUNT_POINT_SIZE - 1 <? Z.of_nat (length name) then None else Some name
  | _ => if bool_decide (name = str "userdata") then Some (str "/data")
         else if MOUNT_POINT_SIZE - 1 <? Z.of_nat (length name) + 1 then None else Some (47 :: name)
  end.

Definition oem_erase_partition (argv : list bytes) : M Z :=
  match argv with
  | [_; name] =>
      match get_mountpoint name with
      | None => ret (-1)
      | Some mnt_point =>
          let mnt_point := string_of mnt_point in
          let! r := nuke_volume mnt_point BUFFER_SIZE in
          if truthy r then ret r else format_volume mnt_point
      end
  | _ => ret (-1)
  end.

Definition oem_wipe_partition (argv : list bytes) : M Z :=
  match argv with
  | [_; name] =>
      match get_mountpoint name with
      | None => ret (-1)
      | Some mnt_point => nuke_volume (string_of mnt_point) BUFFER_SIZE
      end
  | _ => ret (-1)
  end.
End Oem.
