(* ===== verification/OemSpec.v ===== *)
(** * Theorems about scripts of cgpt commands and the partitioning commands of the boot loader

    Which command a word chooses in the two programs, what a missing word does, how a command that
    is called outside of a script depends on the one before it, what retrieving the partitions
    depends on, and when erasing a volume reports success. *)

From stdpp Require Import base list numbers gmap strings.
From Stdlib Require Import ZArith Lia.
From S2P Require Import Prelude GptTypes GptLib Posix Drive CgptCommon GuidStr CgptBoot CLib GetoptSpec CgptCmd CgptTool.
From S2P Require Import OemPartition.

(** ** The choice of a command *)

Definition exact_name (name : bytes) (c : string * command) : Prop := str c.1 = name.
Definition has_prefix (name : bytes) (c : string * command) : Prop := begins c.1 name = true.

#[local] Instance exact_name_dec name c : Decision (exact_name name c) := decide (str c.1 = name).
#[local] Instance has_prefix_dec name c : Decision (has_prefix name c) := decide (begins c.1 name = true).

(** The command with the name, or the only one whose name it begins. *)
Definition choose (cmds : list (string * command)) (name : bytes) : option command :=
  match filter (exact_name name) cmds with
  | (_, fp) :: _ => Some fp
  | [] => match filter (has_prefix name) cmds with [(_, fp)] => Some fp | _ => None end
  end.

Lemma match_command_exact cmds name n fp l : filter (exact_name name) cmds = (n, fp) :: l ->
  forall count found, match_command cmds name count found = (1, Some fp).
Proof.
  induction cmds as [|[n' fp'] cmds IH]; intros H count found; [done|]. rewrite filter_cons in H. cbn [match_command].
  destruct (decide (exact_name name (n', fp'))) as [Hx|Hx].
  - injection H as -> -> _. unfold exact_name in Hx. cbn [fst] in Hx. by rewrite bool_decide_eq_true_2.
  - unfold exact_name in Hx. cbn [fst] in Hx. rewrite bool_decide_eq_false_2 by done. destruct (begins n' name); by apply IH.
Qed.

Lemma match_command_prefix cmds name : filter (exact_name name) cmds = [] ->
  forall count found, match_command cmds name count found =
    (count + Z.of_nat (length (filter (has_prefix name) cmds)),
     match last (filter (has_prefix name) cmds) with Some (_, fp) => Some fp | None => found end).
Proof.
  induction cmds as [|[n' fp'] cmds IH]; intros H count found; [simpl; by rewrite Z.add_0_r|].
  rewrite filter_cons in H. cbn [match_command]. destruct (decide (exact_name name (n', fp'))) as [Hx|Hx]; [done|].
  unfold exact_name in Hx. cbn [fst] in Hx. rewrite bool_decide_eq_false_2 by done. rewrite filter_cons.
  destruct (decide (has_prefix name (n', fp'))) as [Hb|Hb]; unfold has_prefix in Hb; cbn [fst] in Hb.
  - rewrite Hb. rewrite IH by done. cbn [length]. f_equal; [lia|]. rewrite last_cons.
    by destruct (last (filter (has_prefix name) cmds)) as [[]|].
  - apply not_true_is_false in Hb as ->. by apply IH.
Qed.

(** A line of the tool runs the command that its first word names, or the only command whose
    name begins with that word, with [optind] reset; with no or several such commands it answers -1
    and does nothing. *)
Theorem sub_command_runs_choice heap name args st w :
  _oem_partition_gpt_sub_command heap (name :: args) st w =
  (match choose (cmds heap) name with
   | Some fp => fp (name :: args) (mkGetopt 0 (place st))
   | None => ret (-1, mkGetopt 0 (place st))
   end) w.
Proof.
  unfold _oem_partition_gpt_sub_command, choose. generalize (cmds heap). intros l.
  destruct (filter (exact_name name) l) as [|[n fp] l'] eqn:E.
  - rewrite (match_command_prefix _ _ E). destruct (filter (has_prefix name) l) as [|[n fp] [|[n' fp'] l']]; [done|done|].
    cbn [length]. destruct (last _) as [[n'' fp'']|]; [|by destruct (0 + _) as [|[]|]].
    remember (0 + Z.of_nat (S (S (length l')))) as k eqn:Hk. assert (2 <= k) by lia. by destruct k as [|[]|].
  - by rewrite (match_command_exact _ _ _ _ _ E).
Qed.

(** In the boot loader the first command in the list is taken. *)
Lemma oem_first_command cmds name :
  first_command cmds name = match filter (has_prefix name) cmds with (_, fp) :: _ => Some fp | [] => None end.
Proof.
  induction cmds as [|[n fp] cmds IH]; [done|]. rewrite filter_cons. cbn [first_command].
  destruct (decide (has_prefix name (n, fp))) as [Hb|Hb]; unfold has_prefix in Hb; cbn [fst] in Hb; [by rewrite Hb|].
  by apply not_true_is_false in Hb as ->.
Qed.

(** The same word may be refused by one program and run a command in the other. *)
Example ambiguous_words heap s :
  choose (cmds heap) (str "re") = None /\ first_command (oem_cmds heap s) (str "re") = Some cmd_repair /\
  choose (cmds heap) (str "show") = Some cmd_show /\ first_command (oem_cmds heap s) (str "show") = None.
Proof. split; [reflexivity|]. split; [reflexivity|]. split; reflexivity. Qed.

(** ** A missing word *)

(** [cmd_repair] looks at the word behind the last one, which was never set. *)
Lemma repair_without_drive heap st w : (_oem_partition_gpt_sub_command heap [str "repair"] st w).1 = Undefined.
Proof. rewrite sub_command_runs_choice. reflexivity. Qed.

(** An empty line has no first word. *)
Lemma empty_line heap st w : _oem_partition_gpt_sub_command heap [] st w = (Undefined, w).
Proof. reflexivity. Qed.

(** ** Retrieving partitions *)

Lemma set_getopt_same s : set_getopt (oem_getopt s) s = s.
Proof. by destruct s. Qed.

(** C39: After commands that left [optind] behind the third word, [oem_retrieve_partitions] fails
    without a system call, although nothing is wrong; in a fresh process it creates the protective
    record on the storage device and reloads its table. *)
Theorem oem_retrieve_reads_stale_optind s w :
  partitioning_started s = true -> place (oem_getopt s) = [] ->
  ((3 <= optind (oem_getopt s))%nat -> oem_retrieve_partitions 1 s w = (Ret (CGPT_FAILED, s), w)) /\
  (optind (oem_getopt s) = 1%nat ->
   oem_retrieve_partitions 1 s w =
   (let! (r, _) := cgpt_boot (Some (mkBoot STORAGE_BASE_PATH 0 None true)) in
    if truthy r then ret (r, set_getopt (mkGetopt 2 []) s) else
    let! (r, _) := cmd_reload [[]] getopt_start in ret (r, set_getopt (mkGetopt 2 []) s)) w).
Proof.
  intros Hs Hp. destruct s as [re uf [i pl] props]. simpl in Hp. subst pl. unfold oem_retrieve_partitions. rewrite Hs. cbn [Z.eqb Pos.eqb negb oem_getopt optind].
  split; intros Hi.
  - do 3 (destruct i as [|i]; [lia|]). reflexivity.
  - subst i. unfold bind. cbv zeta. set (d := str STORAGE_BASE_PATH).
    assert (E : forall v, cmd_bootable [[]; str "-p"; d] (mkGetopt 1 []) v =
      (let! (r, _) := cgpt_boot (Some (mkBoot STORAGE_BASE_PATH 0 None true)) in ret (r, mkGetopt 2 [])) v).
    { intros v. unfold cmd_bootable, run_command, bind.
      assert (F : parse_options [[]; str "-p"; d] (str ":hi:b:p") boot_case (mkGetopt 1 []) (mkBoot "" 0 None false) v =
        (Ret (Some (mkParse (mkBoot "" 0 None true) 0 None), mkGetopt 2 []), v)) by reflexivity.
      rewrite F. cbn [errorcnt truthy Z.eqb negb params optind lookup list_lookup bo_partition bo_bootfile bo_create_pmbr].
      unfold d. rewrite string_of_str. by destruct (cgpt_boot _ v) as [[[r x]|x|] v']. }
    rewrite E. unfold bind. destruct (cgpt_boot _ w) as [[[r x]|x|] w']; [|done|done]. unfold ret at 1. destruct (truthy r); [done|].
    unfold cmd_reload, run_command, bind.
    assert (F : forall l st, (l, st) = ([[]; d], mkGetopt 2 []) \/ (l, st) = ([[]], getopt_start) ->
      parse_options l (str ":hv") reload_case st tt w' = (Ret (Some (mkParse tt 0 None), mkGetopt (length l) []), w')).
    { intros l st [E'|E']; injection E' as -> ->; reflexivity. }
    rewrite (F [[]; d] (mkGetopt 2 [])) by (by left). rewrite (F [[]] getopt_start) by (by right).
    cbn [errorcnt truthy Z.eqb negb params optind length lookup list_lookup].
    destruct (sys_open _ _ w') as [[fd|x'|] v]; [|done|done]. destruct (fd =? -1); [done|].
    destruct (sys_blkrrpart fd v) as [[n|x'|] v']; [|done|done]. by destruct (sys_close fd v') as [[k|x'|] v''].
Qed.

(** ** Erasing a volume *)

(** A schedule in which calls fail but never transfer less than they could. *)
Definition no_short (w : world) : Prop := Forall (fun f => match f with Fshort _ => False | _ => True end) (w_faults w).

Section Nuke.
Context (path : string) (s fd : Z) (w0 : world).

(** The device is open at [off] and holds [data]; nothing else changed since [w0]. *)
Record at_off (data : bytes) (off : Z) (w : world) : Prop := {
  ao_files : w_files w = <[path := mkFile (Block s) data]> (w_files w0);
  ao_fds : w_fds w = <[fd := mkFd path off true true]> (w_fds w0);
  ao_range : 0 <= off <= Z.of_nat (length data);
  ao_short : no_short w;
  ao_quiet : quiet w0 -> quiet w
}.

Lemma ao_fd data off w : at_off data off w -> fd_file w fd = Some (mkFd path off true true, mkFile (Block s) data).
Proof using Type. intros [E1 E2 _ _ _]. unfold fd_file. rewrite E2, lookup_insert_eq. simpl. by rewrite E1, lookup_insert_eq. Qed.

Lemma ao_unmoved data off w w' : at_off data off w -> unmoved w w' -> no_short w' -> at_off data off w'.
Proof using Type. intros [E1 E2 E3 E4 E5] (F1 & F2 & F3) Hs. split; [congruence|congruence|done|done|auto]. Qed.

(** A call takes one entry of the schedule. *)
Ltac schedule Hw :=
  let Hq := fresh "Hq" in let Hn := fresh "Hn" in
  pose proof (ao_quiet _ _ _ Hw) as Hq; pose proof (ao_short _ _ _ Hw) as Hn; pose proof (ao_fd _ _ _ Hw) as Hfd;
  unfold no_short, quiet in *;
  match type of Hn with Forall _ (w_faults ?w) => destruct (w_faults w) as [|[|err|k] fs] eqn:Ef end;
  cbn; try (unfold fd_file in *; cbn; rewrite Hfd; cbn);
  [|apply Forall_cons in Hn as [_ Hn]|apply Forall_cons in Hn as [_ Hn]|by apply Forall_cons in Hn as [[] _]].

(** Writing on the device: all that fits behind the position, or an error at the end. *)
Lemma wp_write_block {B} (Q : outcome B -> world -> Prop) kont buf data off w :
  buf <> [] -> at_off data off w ->
  (forall w', at_off data off w' -> (quiet w0 -> off = Z.of_nat (length data)) -> wp Q (kont (-1)) w') ->
  (forall w' m, m = Nat.min (length buf) (length data - Z.to_nat off) -> (0 < m)%nat ->
     at_off (splice (Z.to_nat off) (take m buf) data) (off + Z.of_nat m) w' -> wp Q (kont (Z.of_nat m)) w') ->
  wp Q (bind (sys_write fd buf) kont) w.
Proof using Type.
  intros Hb Hw H1 H2. pose proof Hw as [E1 E2 E3 _ _]. assert (Hl : (0 < length buf)%nat) by (destruct buf; simpl in *; [done|lia]).
  apply wp_bind. unfold wp at 1, sys_write, bind, next_fault, sys_fail, ret.
  assert (Hgo : forall v, w_files v = w_files w -> w_fds v = w_fds w -> no_short v -> (quiet w0 -> quiet v) ->
    let avail := Z.max 0 (Z.of_nat (length data) - off) in let n := Z.min (Z.of_nat (length buf)) avail in
    let step := if (avail =? 0) && (0 <? Z.of_nat (length buf)) then (Ret (-1), set_errno ENOSPC v)
      else (Ret n, set_off fd (mkFd path off true true) (off + n) (set_files (<[path :=
        mkFile (Block s) (write_at (Z.to_nat off) (take (Z.to_nat n) buf) data)]> (w_files v)) v)) in
    match step.1 with Ret a => wp Q (kont a) step.2 | Exit c => Q (Exit c) step.2 | Undefined => Q Undefined step.2 end).
  { intros v F1 F2 F3 F4 avail n. cbv zeta. destruct (Z.eqb_spec avail 0) as [Ha|Ha].
    - replace (0 <? Z.of_nat (length buf)) with true by lia. cbn [andb fst snd]. apply H1; [|intros _; subst avail; lia].
      split; simpl; [congruence|congruence|done|done|done].
    - cbn [andb fst snd]. assert (Hn : n = Z.of_nat (Nat.min (length buf) (length data - Z.to_nat off))) by (subst n avail; lia).
      rewrite Hn. apply H2; [done|lia|]. split; simpl.
      + rewrite F1, E1, insert_insert_eq. do 2 f_equal. unfold write_at. rewrite Nat2Z.id.
        replace (_ - length data)%nat with 0%nat by len. by rewrite app_nil_r.
      + by rewrite F2, E2, insert_insert_eq.
      + rewrite length_splice; len.
      + done.
      + done. }
  schedule Hw.
  - exact (Hgo w eq_refl eq_refl ltac:(by unfold no_short; rewrite Ef) ltac:(done)).
  - exact (Hgo (set_faults fs w) eq_refl eq_refl Hn ltac:(intros H; specialize (Hq H); done)).
  - apply H1; [|intros H; specialize (Hq H); done]. split; simpl; [done|done|done|done|]. intros H. specialize (Hq H). done.
Qed.
(** Reading from the device: all that is there, up to [n] bytes. *)
Lemma wp_read_block {B} (Q : outcome B -> world -> Prop) kont n data off w :
  0 < n -> at_off data off w ->
  (forall w', at_off data off w' -> ~ quiet w0 -> wp Q (kont (-1, [])) w') ->
  (forall w' m, m = Nat.min (Z.to_nat n) (length data - Z.to_nat off) ->
     at_off data (off + Z.of_nat m) w' -> wp Q (kont (Z.of_nat m, slice (Z.to_nat off) m data)) w') ->
  wp Q (bind (sys_read fd n) kont) w.
Proof using Type.
  intros Hn0 Hw H1 H2. pose proof Hw as [E1 E2 E3 _ _]. apply wp_bind. unfold wp at 1, sys_read, bind, next_fault, sys_fail, ret.
  set (m := Nat.min (Z.to_nat n) (length data - Z.to_nat off)).
  assert (Hm : Z.min (Z.max 0 n) (Z.max 0 (Z.of_nat (length data) - off)) = Z.of_nat m) by (subst m; lia).
  assert (Hgo : forall v, w_files v = w_files w -> w_fds v = w_fds w -> no_short v -> (quiet w0 -> quiet v) ->
    wp Q (kont (Z.of_nat m, slice (Z.to_nat off) (Z.to_nat (Z.of_nat m)) data)) (set_off fd (mkFd path off true true) (off + Z.of_nat m) v)).
  { intros v F1 F2 F3 F4. rewrite Nat2Z.id. apply H2; [done|]. split; simpl; [congruence|by rewrite F2, E2, insert_insert_eq|lia|done|done]. }
  schedule Hw.
  - rewrite Hm. exact (Hgo w eq_refl eq_refl ltac:(by unfold no_short; rewrite Ef) ltac:(done)).
  - rewrite Hm. exact (Hgo (set_faults fs w) eq_refl eq_refl Hn ltac:(intros H; specialize (Hq H); done)).
  - apply H1; [|intros H; specialize (Hq H); done]. split; simpl; [done|done|done|done|]. intros H. specialize (Hq H). done.
Qed.

Lemma wp_rewind_block {B} (Q : outcome B -> world -> Prop) kont data off w :
  at_off data off w -> (forall w', at_off data off w' -> ~ quiet w0 -> wp Q (kont (-1)) w') ->
  (forall w', at_off data 0 w' -> wp Q (kont 0) w') -> wp Q (bind (sys_lseek fd 0) kont) w.
Proof using Type.
  intros Hw H1 H2. pose proof Hw as [E1 E2 E3 _ _]. apply wp_bind. unfold wp at 1, sys_lseek, bind, next_fault, sys_fail.
  assert (Hgo : forall v, w_files v = w_files w -> w_fds v = w_fds w -> no_short v -> (quiet w0 -> quiet v) ->
    wp Q (kont 0) (set_off fd (mkFd path off true true) 0 v)).
  { intros v F1 F2 F3 F4. apply H2. split; simpl; [congruence|by rewrite F2, E2, insert_insert_eq|lia|done|done]. }
  schedule Hw.
  - exact (Hgo w eq_refl eq_refl ltac:(by unfold no_short; rewrite Ef) ltac:(done)).
  - exact (Hgo (set_faults fs w) eq_refl eq_refl Hn ltac:(intros H; specialize (Hq H); done)).
  - apply H1; [|intros H; specialize (Hq H); done]. split; simpl; [done|done|done|done|]. intros H. specialize (Hq H). done.
Qed.

Lemma wp_end_block {B} (Q : outcome B -> world -> Prop) kont data off w :
  at_off data off w -> (forall w', at_off data off w' -> ~ quiet w0 -> wp Q (kont (-1)) w') ->
  (forall w', at_off data (Z.of_nat (length data)) w' -> wp Q (kont (Z.of_nat (length data))) w') ->
  wp Q (bind (sys_lseek_end fd) kont) w.
Proof using Type.
  intros Hw H1 H2. pose proof Hw as [E1 E2 E3 _ _]. apply wp_bind. unfold wp at 1, sys_lseek_end, bind, next_fault, sys_fail.
  assert (Hgo : forall v, w_files v = w_files w -> w_fds v = w_fds w -> no_short v -> (quiet w0 -> quiet v) ->
    wp Q (kont (Z.of_nat (length data))) (set_off fd (mkFd path off true true) (Z.of_nat (length data)) v)).
  { intros v F1 F2 F3 F4. apply H2. split; simpl; [congruence|by rewrite F2, E2, insert_insert_eq|lia|done|done]. }
  schedule Hw.
  - exact (Hgo w eq_refl eq_refl ltac:(by unfold no_short; rewrite Ef) ltac:(done)).
  - exact (Hgo (set_faults fs w) eq_refl eq_refl Hn ltac:(intros H; specialize (Hq H); done)).
  - apply H1; [|intros H; specialize (Hq H); done]. split; simpl; [done|done|done|done|]. intros H. specialize (Hq H). done.
Qed.

Lemma wp_malloc_block {B} (Q : outcome B -> world -> Prop) kont n data off w :
  0 <= n -> at_off data off w -> (forall w', at_off data off w' -> ~ quiet w0 -> wp Q (kont false) w') ->
  (forall w', at_off data off w' -> wp Q (kont true) w') -> wp Q (bind (sys_malloc n) kont) w.
Proof using Type.
  intros Hn0 Hw H1 H2. pose proof Hw as [E1 E2 E3 _ _]. apply wp_bind. unfold wp at 1, sys_malloc, bind, next_fault, ret.
  schedule Hw; try replace (0 <=? n) with true by lia.
  - by apply H2.
  - apply H2. split; simpl; [done|done|done|done|]. intros H. specialize (Hq H). done.
  - apply H1; [|intros H; specialize (Hq H); done]. split; simpl; [done|done|done|done|]. intros H. specialize (Hq H). done.
Qed.

(** ** The two loops *)

Definition ff (k : nat) : bytes := replicate k 255.

(** [data] with its first [k] bytes erased. *)
Definition erased (k : nat) (data : bytes) : bytes := ff k ++ drop k data.

Lemma length_erased k data : (k <= length data)%nat -> length (erased k data) = length data.
Proof using Type. intros H. unfold erased, ff. rewrite length_app, length_replicate, length_drop. lia. Qed.

Lemma erased_step n k m data : (k + m <= length data)%nat -> (m <= n)%nat ->
  splice k (take m (ff n)) (erased k data) = erased (k + m) data.
Proof using Type.
  intros H Hm. unfold splice, erased, ff. rewrite take_app_le, take_replicate, Nat.min_id by (rewrite length_replicate; lia).
  rewrite take_replicate, Nat.min_l, length_replicate by lia. rewrite app_assoc, <-replicate_add. f_equal.
  rewrite drop_app_ge by (rewrite length_replicate; lia). rewrite length_replicate, drop_drop. f_equal. lia.
Qed.

Lemma erased_all data : erased (length data) data = ff (length data).
Proof using Type. unfold erased. by rewrite drop_ge, app_nil_r by lia. Qed.

Context (n : nat) (Hn : (0 < n)%nat).

(** After a result that is not -1 the whole device is erased. *)
Lemma wp_nuke_write {B} (Q : outcome B -> world -> Prop) kont data : forall fuel c k w,
  (k = c * n)%nat -> (k <= length data)%nat -> (length data - k < fuel)%nat -> at_off (erased k data) (Z.of_nat k) w ->
  (forall w' d off c', at_off d off w' -> length d = length data -> (quiet w0 -> (length data mod n = 0)%nat) -> wp Q (kont (-1, c')) w') ->
  (forall w', (length data mod n <> 0)%nat -> at_off (ff (length data)) (Z.of_nat (length data)) w' ->
     wp Q (kont (Z.of_nat (length data mod n), Z.of_nat (S (length data / n)))) w') ->
  wp Q (bind (nuke_write fuel fd (ff n) (Z.of_nat c)) kont) w.
Proof using Hn.
  induction fuel as [|fuel IH]; intros c k w Hk Hle Hf Hw H1 H2; [lia|]. cbn [nuke_write]. apply wp_assoc.
  eapply (wp_write_block); [|exact Hw| |].
  { destruct n; [lia|done]. }
  - intros w' Hw' Hq. cbn [Z.eqb Pos.eqb]. apply wp_bind, wp_ret. eapply H1; [exact Hw'|by apply length_erased|].
    intros H. specialize (Hq H). rewrite length_erased in Hq by done. replace (length data) with (c * n)%nat by lia. apply Nat.Div0.mod_mul.
  - intros w' m Hm Hm0 Hw'. rewrite length_erased in Hm by done. unfold ff in Hm at 1. rewrite length_replicate, Nat2Z.id in Hm.
    rewrite Nat2Z.id, erased_step in Hw' by lia.
    replace (Z.of_nat m =? -1) with false by lia. unfold ff at 1. rewrite length_replicate.
    destruct (Z.eqb_spec (Z.of_nat m) (Z.of_nat n)) as [E|E].
    + replace (Z.of_nat c + 1) with (Z.of_nat (S c)) by lia. eapply (IH (S c) (k + m)%nat w'); [lia|lia|lia| |done|done].
      by rewrite Nat2Z.inj_add.
    + apply wp_bind, wp_ret. assert (Hmod : (length data mod n = m /\ length data / n = c)%nat).
      { assert (length data = n * c + m)%nat as E' by lia. split; symmetry; [apply (Nat.mod_unique _ _ c m)|apply (Nat.div_unique _ _ c m)]; lia. }
      destruct Hmod as [Hmod Hdiv]. specialize (H2 w'). rewrite Hmod, Hdiv in H2.
      replace (Z.of_nat c + 1) with (Z.of_nat (S c)) by lia. apply H2; [lia|].
      replace (k + m)%nat with (length data) in Hw' by lia. rewrite erased_all in Hw'.
      by replace (Z.of_nat k + Z.of_nat m) with (Z.of_nat (length data)) in Hw' by lia.
Qed.
(** Reading an erased device back; [buf] holds what the last read left. *)
Lemma wp_nuke_read {B} (Q : outcome B -> world -> Prop) kont L : forall fuel c buf w,
  (c * n <= L)%nat -> (L - c * n < fuel)%nat -> length buf = n -> (0 < c -> buf = ff n)%nat ->
  at_off (ff L) (Z.of_nat (c * n)) w ->
  (forall w' off r, at_off (ff L) off w' -> (quiet w0 -> (L mod n = 0)%nat \/ (L < n)%nat) -> wp Q (kont (inl r)) w') ->
  (forall w' off, at_off (ff L) off w' -> wp Q (kont (inr (Z.of_nat (S (L / n))))) w') ->
  wp Q (bind (nuke_read fuel fd (ff n) buf (Z.of_nat c)) kont) w.
Proof using Hn.
  induction fuel as [|fuel IH]; intros c buf w Hle Hf Hb Hc Hw H1 H2; [lia|]. cbn [nuke_read]. apply wp_assoc.
  assert (Hln : Z.of_nat (length (ff n)) = Z.of_nat n) by (unfold ff; by rewrite length_replicate). rewrite Hln.
  eapply (wp_read_block); [|exact Hw| |]; [lia| |].
  { intros w' Hw' Hq. cbn [Z.leb Z.compare]. apply wp_bind, wp_ret. eapply H1; [exact Hw'|done]. }
  intros w' m Hm Hw'. unfold ff in Hm at 1. rewrite length_replicate, !Nat2Z.id in Hm.
  assert (Hsl : slice (Z.to_nat (Z.of_nat (c * n))) m (ff L) = ff m).
  { unfold slice, ff. rewrite Nat2Z.id, drop_replicate, take_replicate. f_equal. lia. }
  rewrite Hsl. assert (HL : L = (n * (L / n) + L mod n)%nat) by (apply Nat.div_mod; lia).
  pose proof (Nat.mod_upper_bound L n ltac:(lia)) as Hmod.
  destruct (Z.leb_spec (Z.of_nat m) 0) as [Hz|Hp].
  { apply wp_bind, wp_ret. eapply H1; [exact Hw'|]. intros _. left. replace L with (c * n)%nat by lia. apply Nat.Div0.mod_mul. }
  assert (Hsp : (n <= L)%nat -> splice 0 (ff m) buf = ff n).
  { intros HnL. unfold splice. rewrite take_0. simpl. unfold ff. rewrite length_replicate.
    destruct (decide (m = n)) as [->|Hne]; [by rewrite drop_ge, app_nil_r by lia|].
    rewrite Hc by (destruct c; lia). unfold ff. rewrite drop_replicate, <-replicate_add. f_equal. lia. }
  case_bool_decide as Heq; cbn [negb].
  2:{ apply wp_bind, wp_ret. eapply H1; [exact Hw'|]. intros _. right.
      destruct (le_lt_dec n L) as [HnL|]; [|done]. by rewrite Hsp in Heq. }
  destruct (Z.eqb_spec (Z.of_nat m) (Z.of_nat n)) as [E|E].
  - replace (Z.of_nat c + 1) with (Z.of_nat (S c)) by lia. eapply IH; [lia|lia| | | |done|done].
    + rewrite <-Heq. unfold ff. apply length_replicate.
    + by rewrite <-Heq.
    + by replace (Z.of_nat (S c * n)) with (Z.of_nat (c * n) + Z.of_nat m) by lia.
  - apply wp_bind, wp_ret. replace (Z.of_nat c + 1) with (Z.of_nat (S (L / n))); [by eapply H2|].
    rewrite <-(Nat.div_unique L n c m) by lia. lia.
Qed.

(** Erasing an open device. *)
Lemma wp_nuke_device heap data w :
  length (heap (Z.of_nat n)) = n -> at_off data 0 w ->
  wp (fun o w' => exists r d off, o = Ret r /\ at_off d off w' /\ length d = length data /\ (r = 0 -> d = ff (length data)) /\
        (quiet w0 -> (n <= length data)%nat -> (r = 0 <-> (length data mod n <> 0)%nat)))
    (nuke_device heap fd (Z.of_nat n)) w.
Proof using Hn.
  intros Hh Hw. unfold nuke_device.
  assert (Hbad : forall w' d off r, at_off d off w' -> length d = length data -> r <> 0 ->
    (quiet w0 -> (length data mod n = 0)%nat) ->
    exists r' d' off', Ret r = Ret r' /\ at_off d' off' w' /\ length d' = length data /\ (r' = 0 -> d' = ff (length data)) /\
      (quiet w0 -> (n <= length data)%nat -> (r' = 0 <-> (length data mod n <> 0)%nat))).
  { intros w' d off r H1 H2 H3 H4. exists r, d, off. split_and!; try done. intros Hq _. specialize (H4 Hq). split; [done|]. intros H. by rewrite H4 in H. }
  eapply (wp_malloc_block); [|exact Hw| |]; [lia| |].
  { intros w' Hw' Hq. apply wp_ret. by eapply Hbad. }
  intros w1 Hw1. cbn [negb]. eapply (wp_malloc_block); [|exact Hw1| |]; [lia| |].
  { intros w' Hw' Hq. apply wp_ret. by eapply Hbad. }
  intros w2 Hw2. cbn [negb]. rewrite Nat2Z.id. eapply (wp_end_block); [exact Hw2| |].
  { intros w' Hw' Hq. apply wp_ret. by eapply Hbad. }
  intros w3 Hw3. rewrite (proj2 (Z.eqb_neq (Z.of_nat (length data)) (-1))) by lia. eapply (wp_rewind_block); [exact Hw3| |].
  { intros w' Hw' Hq. apply wp_ret. by eapply Hbad. }
  intros w4 Hw4. cbn [Z.eqb]. apply wp_bind. unfold wp at 1, device_rounds. rewrite (ao_fd _ _ _ Hw4). cbn [fst snd f_data].
  eapply (wp_nuke_write _ _ data _ 0 0); [lia|lia|lia| | |].
  { unfold erased. rewrite drop_0. exact Hw4. }
  { intros w' d off c' Hw' Hl Hq. cbn [Z.eqb Pos.eqb]. apply wp_ret. by eapply Hbad. }
  intros w5 Hmod Hw5. rewrite (proj2 (Z.eqb_neq (Z.of_nat (length data mod n)) (-1))) by lia.
  assert (Hend : forall w' off r, at_off (ff (length data)) off w' -> (quiet w0 -> (n <= length data)%nat -> r = 0) ->
    exists r' d' off', Ret r = Ret r' /\ at_off d' off' w' /\ length d' = length data /\ (r' = 0 -> d' = ff (length data)) /\
      (quiet w0 -> (n <= length data)%nat -> (r' = 0 <-> (length data mod n <> 0)%nat))).
  { intros w' off r H1 H2. exists r, (ff (length data)), off. split_and!; try done; [unfold ff; apply length_replicate|].
    intros Hq HnL. split; [done|]. intros _. auto. }
  eapply (wp_rewind_block); [exact Hw5| |].
  { intros w' Hw' Hq. apply wp_ret. by eapply Hend. }
  intros w6 Hw6. cbn [Z.eqb]. apply wp_bind. unfold wp at 1, device_rounds. rewrite (ao_fd _ _ _ Hw6). cbn [fst snd f_data].
  eapply (wp_nuke_read _ _ (length data) _ 0); [lia| |exact Hh|lia|exact Hw6| |].
  { unfold ff. rewrite length_replicate. lia. }
  { intros w' off r Hw' Hq. apply wp_ret. eapply Hend; [exact Hw'|]. intros H HnL. destruct (Hq H); lia. }
  intros w' off Hw'. apply wp_ret. rewrite Z.eqb_refl. by eapply Hend.
Qed.
End Nuke.

