(* ===== verification/CommandSample.v ===== *)
(** * Commands and command lines on a concrete drive

    The theorems about the commands of cgpt, their options and the OEM partitions applied to a drive
    in memory, and what the code does on lines that are not well formed. *)

From stdpp Require Import base list numbers gmap strings.
From Stdlib Require Import ZArith Lia.
From S2P Require Import Prelude Crc32 GptTypes GptLib GptSanity GptSample Posix Drive DriveSpec CgptCommon CommitSpec GuidStr.
From S2P Require Import GuidStr CommandSpec CgptCreate CgptAdd CgptAddSpec CgptPrioritize PrioritizeSpec CgptShow CgptBoot CLib.
From S2P Require Import CLib CgptFind QuerySpec BootSpec FindSpec GetoptSpec CgptCmd CgptCmdSpec CgptTool OemPartition.
From S2P Require Import OemSpec.

Definition drive_header : bytes :=
  set_h_size_of_entry 128 (set_h_number_of_entries 128 (set_h_entries_lba 2
    (set_h_last_usable_lba 266 (set_h_first_usable_lba 34 (set_h_alternate_lba 299
      (set_h_my_lba 1 (set_h_size 92 (set_h_revision GPT_HEADER_REVISION
        (set_h_signature GPT_HEADER_SIGNATURE zero_header))))))))).

Definition drive_table : GptData :=
  mkGptData drive_header zero_header sample_table sample_table 512 300 0 0 0 0 0.

Definition blank_image : bytes := replicate (Z.to_nat (300 * 512)) 0.

Definition drive_image : bytes := write_back (commit drive_table) blank_image.

Lemma blank_sectors : disk_sectors blank_image = 300.
Proof. unfold disk_sectors, blank_image. rewrite length_replicate, Z2Nat.id by lia. reflexivity. Qed.

Lemma blank_ok : disk_ok blank_image.
Proof.
  split; [apply bytes_ok_zeros|rewrite blank_sectors|rewrite blank_sectors; lia|];
    unfold blank_image; rewrite length_replicate, Z2Nat.id by lia; lia.
Qed.

Lemma drive_header_ok : hdr_ok drive_header.
Proof.
  unfold drive_header. autounfold with hdr. repeat (apply hdr_ok_put; [|lia]).
  apply hdr_ok_splice; [exact zero_header_ok|by apply bytes_okb_ok|simpl; lia].
Qed.

Lemma drive_header_wf : header_wf drive_header 300.
Proof. split; vm_compute; try reflexivity; try discriminate; split; (reflexivity || discriminate). Qed.

Lemma drive_table_wf : table_wf sample_table (h_first_usable_lba drive_header)
  (h_last_usable_lba drive_header).
Proof.
  replace (h_first_usable_lba drive_header) with 34 by (vm_compute; reflexivity).
  replace (h_last_usable_lba drive_header) with 266 by (vm_compute; reflexivity).
  split.
  - intros i Hi Hu. destruct (sample_used i Hu Hi) as [-> | ->]; vm_compute; repeat split; discriminate.
  - intros i j Hi Hj Hne Hu Hv.
    destruct (sample_used i Hu Hi) as [-> | ->], (sample_used j Hv Hj) as [-> | ->];
      [done|left; vm_compute; reflexivity|right; vm_compute; reflexivity|done].
  - intros i j Hi Hj Hne Hu Hv.
    destruct (sample_used i Hu Hi) as [-> | ->], (sample_used j Hv Hj) as [-> | ->];
      [done|vm_compute; discriminate..|done].
Qed.

Lemma drive_table_ok : gpt_ok drive_table.
Proof.
  split; [exact drive_header_ok|exact zero_header_ok|exact sample_table_ok|exact sample_table_ok|cbn; lia|cbn; lia].
Qed.

Lemma drive_image_spec :
  valid_disk drive_image /\ primary_entries (disk_gpt drive_image) = sample_table /\
  ordinary drive_image /\ disk_ok drive_image /\ disk_sectors drive_image = 300.
Proof.
  unfold drive_image. pose proof blank_ok as Hb. pose proof drive_table_ok as Ht.
  pose proof drive_header_wf as Hw. pose proof drive_table_wf as Htw. pose proof blank_sectors as Hs.
  revert Hb Hs. generalize blank_image. intros data Hb Hs.
  assert (Hds : drive_sectors drive_table = disk_sectors data) by (by rewrite Hs).
  destruct (commit_written drive_table data Ht Hb eq_refl Hds eq_refl Hw Htw) as [Hv He].
  destruct (commit_written_disk drive_table data Ht Hb eq_refl Hds eq_refl Hw) as (D1 & D2 & D3).
  split; [exact Hv|]. split; [exact He|]. split; [exact D3|]. split; [exact D1|].
  rewrite D2. exact Hs.
Qed.

#[local] Opaque drive_image blank_image.

(** The world: the drive, a source of random bytes, nothing open, no failure to come. *)
Definition drive_path : string := "/dev/block/mmcblk0".

Definition drive_block : file := mkFile (Block 512) drive_image.

Definition drive_world : world :=
  mkWorld (<[ drive_path := drive_block ]>
    (<[ "/dev/urandom"%string := mkFile Other (replicate 16 7) ]> ∅)) ∅ [] 0.

Definition blank_world : world :=
  mkWorld (<[ drive_path := mkFile Regular blank_image ]>
    (<[ "/dev/urandom"%string := mkFile Other (replicate 16 7) ]> ∅)) ∅ [] 0.

Lemma drive_world_file : drive_file drive_world drive_path drive_block.
Proof.
  split; [|by right|exact (proj1 (proj2 (proj2 (proj2 drive_image_spec))))].
  unfold drive_world. cbn [w_files]. apply lookup_insert_eq.
Qed.

Lemma blank_world_file : drive_file blank_world drive_path (mkFile Regular blank_image).
Proof.
  split; [|by left|exact blank_ok]. unfold blank_world. cbn [w_files]. apply lookup_insert_eq.
Qed.

(** Both worlds hold nothing but bytes. *)
Lemma sample_world_ok kind image w :
  bytes_ok image ->
  w_files w = <[ drive_path := mkFile kind image ]>
    (<[ "/dev/urandom"%string := mkFile Other (replicate 16 7) ]> ∅) -> world_ok w.
Proof.
  intros Hb E p f H. rewrite E in H. apply lookup_insert_Some in H as [[_ <-]|[_ H]]; [exact Hb|].
  apply lookup_insert_Some in H as [[_ <-]|[_ H]]; [|by rewrite lookup_empty in H].
  by apply bytes_okb_ok.
Qed.

Lemma drive_world_ok w : w_files w = w_files drive_world -> world_ok w.
Proof.
  exact (sample_world_ok (Block 512) drive_image w
    (di_bytes _ (proj1 (proj2 (proj2 (proj2 drive_image_spec)))))).
Qed.

Lemma blank_world_ok w : w_files w = w_files blank_world -> world_ok w.
Proof. exact (sample_world_ok Regular blank_image w (di_bytes _ blank_ok)). Qed.

(** ** The commands at work on these drives *)


Lemma cgpt_repair_repairs_witness :
  (GptSanityCheck (disk_gpt drive_image)).1 = GPT_SUCCESS /\
  wp (command_post drive_path drive_block drive_world (fun rc data' =>
        (GptSanityCheck (disk_gpt drive_image)).1 = GPT_SUCCESS /\ rc = CGPT_OK /\ valid_disk data' \/
        (GptSanityCheck (disk_gpt drive_image)).1 <> GPT_SUCCESS /\ rc = CGPT_OK /\ data' = drive_image \/
        rc = CGPT_FAILED /\ ~ quiet drive_world))
     (cgpt_repair (Some drive_path)) drive_world.
Proof.
  split; [exact (proj1 (proj1 drive_image_spec))|].
  exact (cgpt_repair_repairs drive_path drive_block drive_world drive_world_file).
Defined.

(** A request for partition 2, and one for a new partition. *)
Definition edit_request : CgptAddParams :=
  mkAdd drive_path 2 0 0 (replicate 16 0) (replicate 16 0) None 1 5 15 0
    false false false false true true true false.

Definition new_request : CgptAddParams :=
  mkAdd drive_path 0 256 8 GPT_ENT_TYPE_LINUX_DATA (replicate 16 9) (Some [0x41; 0x42; 0]) 1 5 15 0
    true true true true false false false false.

Lemma requests_ok : params_ok edit_request /\ params_ok new_request.
Proof.
  split; split; try (apply bytes_okb_ok; reflexivity); cbn; try lia;
    try (split; [by apply bytes_okb_ok|reflexivity]); unfold att_in_range; cbn; repeat split; lia.
Qed.

Lemma cgpt_set_attributes_sets_attributes_witness :
  ordinary drive_image /\
  wp (command_post drive_path drive_block drive_world (fun rc data' =>
        rc = CGPT_OK /\ valid_disk data' /\
          (exists i, (i < 128)%nat /\ ad_partition edit_request = Z.of_nat i + 1 /\
             let t := primary_entries (disk_gpt drive_image) in
             primary_entries (disk_gpt data') =
               set_e_gpt_att (entry_off i) (new_att edit_request (e_gpt_att (entry_off i) t)) t) \/
        rc = CGPT_FAILED /\ (data' = drive_image \/ ~ quiet drive_world)))
     (cgpt_set_attributes (Some edit_request)) drive_world.
Proof.
  split; [exact (proj1 (proj2 (proj2 drive_image_spec)))|].
  exact (cgpt_set_attributes_sets_attributes drive_path drive_block drive_world edit_request
    drive_world_file eq_refl (proj1 (proj2 (proj2 drive_image_spec))) (pa_att _ (proj1 requests_ok))
    (pa_partition _ (proj1 requests_ok))).
Defined.


Lemma cgpt_get_partition_details_reads_entry_witness :
  0 <= ad_partition edit_request /\
  wp (command_post drive_path drive_block drive_world (details_result edit_request drive_block drive_world))
     (cgpt_get_partition_details (Some edit_request)) drive_world.
Proof.
  split; [exact (pa_partition _ (proj1 requests_ok))|].
  exact (cgpt_get_partition_details_reads_entry drive_path drive_block drive_world edit_request
    drive_world_file eq_refl (pa_partition _ (proj1 requests_ok))).
Defined.

(** Partition 2 to the front. *)
Definition front_request : CgptPrioritizeParams := mkPrioritize drive_path 2 false 0 0.

Lemma front_request_ok : prioritize_ok sample_table front_request.
Proof. split; cbn; [intros _; split; [lia|vm_compute; reflexivity]|lia]. Qed.


#[local] Transparent blank_image.

Lemma blank_rejected : (GptSanityCheck (disk_gpt blank_image)).1 <> GPT_SUCCESS.
Proof. vm_compute. discriminate. Qed.

#[local] Opaque blank_image.

Lemma cgpt_prioritize_leaks_descriptor_witness :
  wp (fun o w' => o = Ret (CGPT_FAILED, Some front_request) /\ w_files w' = w_files blank_world /\
        exists fd, w_fds blank_world !! fd = None /\ is_Some (w_fds w' !! fd))
     (cgpt_prioritize (Some front_request)) blank_world.
Proof.
  exact (cgpt_prioritize_leaks_descriptor drive_path (mkFile Regular blank_image) blank_world front_request
    blank_world_file eq_refl eq_refl blank_rejected).
Defined.

(** Reading commands. *)
Definition boot_request : CgptBootParams := mkBoot drive_path 0 None false.

Definition show_request : CgptShowParams := mkShow drive_path false false false 0 0 false 0.

Lemma cgpt_get_boot_partition_number_finds_witness :
  w_fds drive_world = ∅ /\
  wp (command_post drive_path drive_block drive_world (boot_number_result boot_request drive_block drive_world))
     (cgpt_get_boot_partition_number (Some boot_request)) drive_world.
Proof.
  split; [reflexivity|].
  exact (cgpt_get_boot_partition_number_finds drive_path drive_block drive_world boot_request
    drive_world_file eq_refl).
Defined.

Lemma cgpt_get_num_non_empty_partitions_counts_witness :
  length (used_entries sample_table all_idx) = 2%nat /\
  wp (command_post drive_path drive_block drive_world (count_result show_request drive_block drive_world))
     (cgpt_get_num_non_empty_partitions (Some show_request)) drive_world.
Proof.
  split; [vm_compute; reflexivity|].
  exact (cgpt_get_num_non_empty_partitions_counts drive_path drive_block drive_world show_request
    drive_world_file eq_refl).
Defined.

(** Partition 2 boots. *)
Definition choose_request : CgptBootParams := mkBoot drive_path 2 None true.

Lemma cgpt_boot_edits_the_record_witness :
  boot_writes choose_request = true /\
  wp (record_post drive_path drive_block drive_world (boot_result choose_request drive_image drive_world))
     (cgpt_boot (Some choose_request)) drive_world.
Proof.
  split; [reflexivity|].
  exact (cgpt_boot_edits_the_record drive_path drive_block drive_world choose_request drive_world_file
    (drive_world_ok drive_world eq_refl) ltac:(cbn; lia) eq_refl).
Defined.

Lemma drive_choice j : (j < 1)%nat ->
  GuidEqual (e_guid (disk_table drive_image) j) (e_guid (disk_table drive_image) 1) = false.
Proof.
  intros Hj. destruct drive_image_spec as (Hv & He & _ & Hok & _).
  rewrite (disk_table_valid _ Hok Hv), He. replace j with 0%nat by lia. vm_compute. reflexivity.
Qed.

Lemma cgpt_boot_choice_read_back_witness :
  GuidEqual (e_guid (disk_table drive_image) 0) (e_guid (disk_table drive_image) 1) = false /\
  wp (fun o w' => match o with
        | Ret (Some (rc, q')) => rc = CGPT_FAILED \/
            rc = CGPT_OK /\ q' = Some (set_boot_partition 2 boot_request)
        | Ret None | Exit _ => True
        | Undefined => False
        end)
    (let! (rc, _) := cgpt_boot (Some choose_request) in
     if negb (rc =? 0) then ret None else
     let! r := cgpt_get_boot_partition_number (Some boot_request) in ret (Some r)) drive_world.
Proof.
  split; [apply drive_choice; lia|].
  exact (cgpt_boot_choice_read_back drive_path drive_block drive_world choose_request boot_request
    drive_world_file (drive_world_ok drive_world eq_refl) eq_refl eq_refl ltac:(cbn; lia) drive_choice).
Defined.

(** The kernel partitions. *)
Definition find_request : CgptFindParams :=
  mkFind 0 false true false true [] 0 0 [] (replicate 16 0) GPT_ENT_TYPE_CHROMEOS_KERNEL [] 0 0.

Lemma do_search_finds_matches_witness :
  find_ok find_request /\
  wp (command_post drive_path drive_block drive_world (find_report find_request drive_image drive_world))
     (do_search find_request drive_path) drive_world.
Proof.
  assert (H : find_ok find_request) by (split; cbn; lia). split; [exact H|].
  exact (do_search_finds_matches drive_path find_request drive_block drive_world drive_world_file H
    ltac:(intros [=])).
Defined.

Definition empty_world : world := mkWorld ∅ ∅ [] 0.


(** "-zx" sets the flag and counts an error; "--" ends the options. *)
Example bundled_options :
  parse_options [str "create"; str "-zx"; str "--"; str "/dev/sda"] (str ":hz") create_case (mkGetopt 0 []) false empty_world =
  (Ret (Some (mkParse true 1 None), mkGetopt 3 []), empty_world).
Proof. reflexivity. Qed.

(** Partition 2, 2048 blocks from block 40 on, of type EFI, with a label. *)
Definition a_request : CgptAddParams :=
  mkAdd "" 2 40 2048 GPT_ENT_TYPE_EFI zero_guid (Some (str "ESP")) 1 0 15 0 true true true false true false true false.

Lemma a_request_ok : add_request a_request.
Proof.
  split; simpl; try lia; try done; split; try done; by apply bytes_okb_ok.
Qed.

Lemma cmd_add_reads_request_witness :
  cmd_add (map str ["add"; "-i"; "2"; "-b"; "40"; "-s"; "2048"; "-t"; "C12A7328-F81F-11D2-BA4B-00A0C93EC93B"; "-l"; "ESP";
                    "-S"; "1"; "-P"; "15"; "/dev/sda"]%string) (mkGetopt 0 []) empty_world =
  (let! (r, _) := cgpt_add (Some cgpt_uuid_generate) (Some (set_drive "/dev/sda" a_request)) in ret (r, mkGetopt 15 [])) empty_world.
Proof. exact (cmd_add_reads_request a_request "/dev/sda" [] empty_world a_request_ok ltac:(vm_compute; discriminate)). Defined.

(** ** The order of the options *)

Definition big_device : world := mkWorld {["/dev/sda"%string := mkFile (Block 512) (replicate (10 * 512) 0)]} ∅ [] 0.

(** What [cmd_add] passes on. *)
Definition add_parse (words : list string) : option CgptAddParams :=
  match (parse_options (map str words) add_letters (add_case (map str words)) (mkGetopt 0 []) zero_add big_device).1 with
  | Ret (Some s, _) => if errorcnt s =? 0 then Some (params s) else None
  | _ => None
  end.

(** The device has 10 blocks.  A size that is counted from the end takes the beginning into account
    only when it is given before: the same request for blocks 4 to 8 reaches behind the device. *)
Example size_before_begin :
  ad_size <$> add_parse ["add"; "-b"; "4"; "-s"; "$calc($lba_end-2)"; "/dev/sda"] = Some 4 /\
  ad_size <$> add_parse ["add"; "-s"; "$calc($lba_end-2)"; "-b"; "4"; "/dev/sda"] = Some 8.
Proof. split; vm_compute; reflexivity. Qed.

(** The attribute is cut to 16 bits. *)
Example raw_attribute_is_cut : ad_raw_value <$> add_parse ["add"; "-A"; "0x10001"; "/dev/sda"] = Some 1.
Proof. vm_compute. reflexivity. Qed.

(** ** The boot loader *)

Definition started : gmap string bytes := {["sys.partitioning"%string := str "1"]}.

Lemma oem_retrieve_reads_stale_optind_witness :
  oem_retrieve_partitions 1 (mkOem true (fake_umount_all, fake_create_partition) (mkGetopt 5 []) started) big_device =
  (Ret (CGPT_FAILED, mkOem true (fake_umount_all, fake_create_partition) (mkGetopt 5 []) started), big_device).
Proof.
  exact (proj1 (oem_retrieve_reads_stale_optind (mkOem true (fake_umount_all, fake_create_partition) (mkGetopt 5 []) started)
    big_device eq_refl eq_refl) ltac:(simpl; lia)).
Defined.

(** The words of the last command of a script leave [optind] behind them. *)
Example script_leaves_optind :
  (cmd_add (map str ["add"; "-i"; "2"; "/dev/none"]%string) (mkGetopt 0 []) empty_world).1 = Ret (1, mkGetopt 3 []).
Proof. reflexivity. Qed.

Definition a_volume (path : string) : option Volume := Some (mkVolume "ext4" "/data" "/dev/block/data").
Definition volume_world : world := mkWorld {["/dev/block/data"%string := mkFile (Block 512) [1; 2; 3; 4; 5]]} ∅ [] 0.


Example whole_buffers_fail :
  (nuke_volume (fun n => replicate (Z.to_nat n) 0) a_volume (fun _ => ret 0) "/data" 5 volume_world).1 = Ret (-1).
Proof. vm_compute. reflexivity. Qed.
