(* ===== verification/UtilSpec.v ===== *)
(** * The transfer loops (theorems about util.c)

    Without [EINTR] the loops of [safe_read] and [file_write] end, stay inside their buffers and
    move exactly the bytes asked for; with it they do not.  [file_write] on a block device leaves the
    new bytes when 0 is returned and some first part of them otherwise, changes nothing else, and
    leaves no descriptor open. *)

From stdpp Require Import base list numbers gmap strings.
From Stdlib Require Import ZArith Lia.
From S2P Require Import Prelude Posix Drive DriveSpec GuidStr Util.

(** ** Schedules without [EINTR] *)

Record steady (w : world) : Prop := {
  st_faults : Forall (fun f => f <> Ferr EINTR) (w_faults w);
  st_errno : w_errno w <> EINTR
}.

(** What a call does to the schedule and to [errno]. *)
Definition advanced (w w' : world) : Prop :=
  w_faults w' = tail (w_faults w) /\ (steady w -> w_errno w' <> EINTR).

Lemma advanced_steady w w' : advanced w w' -> steady w -> steady w'.
Proof.
  intros [E H] Hs. split; [|auto]. rewrite E. destruct Hs as [Hf _].
  destruct (w_faults w); [done|]. by inversion Hf.
Qed.

Lemma quiet_steady w : quiet w -> w_errno w <> EINTR -> steady w.
Proof. intros H E. split; [by rewrite H|done]. Qed.

Lemma wp_and {A} (Q : outcome A -> world -> Prop) (R : world -> Prop) m w :
  wp Q m w -> R (m w).2 -> wp (fun o w' => Q o w' /\ R w') m w.
Proof. done. Qed.

(** Runs a call on every kind of event and compares the schedules. *)
Ltac run_call :=
  match goal with |- advanced ?w _ =>
    unfold advanced; unfold bind, next_fault, sys_fail, ret;
    let fs := fresh "fs" in let E := fresh "E" in
    destruct (w_faults w) as [|[|e|k] fs] eqn:E; simpl;
    repeat (case_match; simpl in *; simplify_eq); (split; [done|]);
    intros [Hf He]; try done; try (by rewrite E in Hf; inversion Hf as [|? ? Hn _]; congruence)
  end.

Lemma advanced_read fd n w : advanced w (sys_read fd n w).2.
Proof. unfold sys_read. run_call. Qed.

Lemma advanced_write fd b w : advanced w (sys_write fd b w).2.
Proof. unfold sys_write. run_call. Qed.

Lemma advanced_lseek fd n w : advanced w (sys_lseek fd n w).2.
Proof. unfold sys_lseek. run_call. Qed.

Lemma advanced_fsync fd w : advanced w (sys_fsync fd w).2.
Proof. unfold sys_fsync. run_call. Qed.

Lemma advanced_malloc n w : advanced w (sys_malloc n w).2.
Proof. unfold sys_malloc. run_call. Qed.

Lemma advanced_open path fl w : advanced w (sys_open path fl w).2.
Proof. unfold sys_open, put_file, add_fd. run_call. Qed.

Lemma steady_close fd w : steady w -> steady (sys_close fd w).2.
Proof. intros [H1 H2]. unfold sys_close, sys_fail. case_match; split; simpl; done. Qed.

(** ** Writing everything *)

Section Write.
Context (fd : Z) (path : string) (r : bool) (k : fkind) (w0 : world) (off : nat) (buf : bytes).

(** The state after [pos] bytes. *)
Definition written (data : bytes) (pos : nat) (w : world) : Prop :=
  w_files w = <[ path := mkFile k (splice off (take pos buf) data) ]> (w_files w0) /\
  delete fd (w_fds w) = delete fd (w_fds w0) /\ (quiet w0 -> quiet w) /\ steady w /\
  w_fds w !! fd = Some (mkFd path (Z.of_nat (off + pos)) r true).

Lemma splice_extend (data : bytes) pos n : (off + length buf <= length data)%nat -> (pos + n <= length buf)%nat ->
  splice (off + pos) (take n (drop pos buf)) (splice off (take pos buf) data) = splice off (take (pos + n) buf) data.
Proof using Type.
  intros Hl Hn. assert (Hlen : length (splice off (take pos buf) data) = length data) by (apply length_splice; len).
  apply list_eq. intros i. unfold splice at 1 3.
  assert (E : take (off + pos) (splice off (take pos buf) data) = take off data ++ take pos buf).
  { unfold splice. rewrite app_assoc, take_app_le by len. apply take_ge. len. }
  rewrite E, <-app_assoc. f_equal. f_equal. rewrite app_assoc. f_equal.
  - by rewrite take_take_drop.
  - rewrite !length_take, length_drop.
    replace (off + pos + n `min` (length buf - pos))%nat with (off + (pos + n))%nat by lia.
    replace ((pos + n) `min` length buf)%nat with (pos + n)%nat by lia.
    unfold splice. rewrite app_assoc, drop_app_ge by len.
    rewrite drop_drop. f_equal. len.
Qed.

(** One write from position [pos]. *)
Lemma wp_write_step {B} (Q : outcome B -> world -> Prop) kont data pos w :
  (off + length buf <= length data)%nat -> (pos < length buf)%nat -> written data pos w ->
  (forall w', written data pos w' -> w_faults w' = tail (w_faults w) -> w_faults w <> [] -> ~ quiet w0 -> wp Q (kont (-1)) w') ->
  (forall w' n, (pos + n <= length buf)%nat -> written data (pos + n) w' -> w_faults w' = tail (w_faults w) ->
     (w_faults w = [] -> (pos + n)%nat = length buf) -> wp Q (kont (Z.of_nat n)) w') ->
  wp Q (bind (sys_write fd (drop pos buf)) kont) w.
Proof using Type.
  intros Hl Hp (E1 & E2 & E3 & E4 & E5) H1 H2. set (data' := splice off (take pos buf) data) in *.
  assert (Hlen : length data' = length data) by (apply length_splice; len).
  assert (Hfd : fd_file w fd = Some (mkFd path (Z.of_nat (off + pos)) r true, mkFile k data')).
  { unfold fd_file. rewrite E5. simpl. by rewrite E1, lookup_insert_eq. }
  assert (Hc : wp (fun o w' => (o = Ret (-1) /\ unmoved w w' /\ ~ quiet w) \/
      exists n, o = Ret (Z.of_nat n) /\ (n <= length (drop pos buf))%nat /\
        (quiet w -> n = length (drop pos buf)) /\
        w_files w' = <[ path := mkFile k (splice (off + pos) (take n (drop pos buf)) data') ]> (w_files w) /\
        w_fds w' = <[ fd := mkFd path (Z.of_nat (off + pos + n)) r true ]> (w_fds w) /\ (quiet w -> quiet w'))
    (sys_write fd (drop pos buf)) w).
  { eapply wp_write; [exact Hfd|..]; cbn [fd_write fd_off f_data f_kind fd_path fd_read]; try done.
    - lia.
    - intros E. apply (f_equal length) in E. len. simpl in E. lia.
    - len.
    - intros w' Hu Hq. left. done.
    - intros w' m Hn Hq F1 F2 F3. right. exists m. rewrite Nat2Z.id in F1.
      split; [done|]. split; [done|]. split; [done|]. split; [done|]. split; [|done].
      rewrite F2. do 2 f_equal. lia. }
  apply wp_bind. eapply wp_mono; [apply (wp_and _ (advanced w) _ _ Hc), advanced_write|].
  intros o w' [Ho Ha]. pose proof (advanced_steady _ _ Ha E4) as Hs'. destruct Ha as [At _].
  destruct Ho as [(-> & (U1 & U2 & U3) & Hq)|(n & -> & Hn & Hnq & F1 & F2 & F3)].
  - apply H1; [|done|exact Hq|auto].
    split; [by rewrite U1|]. split; [by rewrite U2|]. split; [auto|]. split; [done|]. by rewrite U2.
  - rewrite length_drop in *. apply H2; [lia| |done|intros E; specialize (Hnq E); lia].
    split; [rewrite F1, E1, insert_insert_eq; unfold data'; by rewrite splice_extend by lia|].
    split; [by rewrite F2, delete_insert_eq|]. split; [auto|]. split; [done|].
    rewrite F2, lookup_insert_eq. do 2 f_equal. lia.
Qed.

Lemma wp_write_loop data fuel pos w :
  (off + length buf <= length data)%nat -> (pos <= length buf)%nat ->
  written data pos w -> (length (w_faults w) < fuel)%nat ->
  wp (fun o w' => exists b j, o = Ret b /\ (pos <= j <= length buf)%nat /\ written data j w' /\
        (b = true -> j = length buf) /\ (quiet w0 -> b = true)) (write_loop fuel fd buf (Z.of_nat pos)) w.
Proof using Type.
  intros Hl. revert pos w. induction fuel as [|fuel IH]; intros pos w Hp Hw Hf; [lia|]. simpl.
  destruct (Z.eqb_spec (Z.of_nat (length buf) - Z.of_nat pos) 0) as [E0|E0].
  { apply wp_ret. exists true, pos. split_and!; try done; lia. }
  replace (Z.of_nat pos <? 0) with false by lia. rewrite Nat2Z.id.
  assert (Hno : forall j w', written data j w' -> (w_errno w' =? EINTR) = false).
  { intros j w' (_ & _ & _ & Hs & _). apply Z.eqb_neq, (st_errno _ Hs). }
  apply (wp_write_step _ _ data); [done|lia|done|..].
  - intros w' Hw' _ _ Hq. apply wp_bind. unfold get_errno, wp at 1. simpl. rewrite (Hno _ _ Hw'). simpl. apply wp_ret.
    exists false, pos. by split_and!.
  - intros w' n Hn Hw' At Hfull. apply wp_bind. unfold get_errno, wp at 1. simpl.
    rewrite (Hno _ _ Hw'). destruct Hw as (_ & _ & E3 & _ & _).
    destruct (Z.leb_spec (Z.of_nat n) 0); simpl.
    + apply wp_ret. exists false, (pos + n)%nat. split; [done|]. split; [lia|]. split; [done|].
      split; [done|]. intros Hq. specialize (Hfull (E3 Hq)). lia.
    + rewrite <-Nat2Z.inj_add. destruct (decide (w_faults w = [])) as [Ef|Ef].
      * specialize (Hfull Ef).
        assert (Hall : (Z.of_nat (length buf) - Z.of_nat (pos + n) =? 0) = true) by (apply Z.eqb_eq; clear - Hfull; lia).
        assert (Hr : write_loop fuel fd buf (Z.of_nat (pos + n)) = ret true)
          by (destruct fuel; simpl; by rewrite Hall).
        rewrite Hr. apply wp_ret. exists true, (pos + n)%nat. split_and!; try done; clear - Hfull; lia.
      * eapply wp_mono; [apply IH; [lia|done|]|].
        { rewrite At. destruct (w_faults w); simpl in *; [done|lia]. }
        intros o' w'' (b & j & -> & Hj & J1 & J2 & J3). exists b, j. split_and!; try done; lia.
Qed.

Lemma wp_write_all data w :
  (off + length buf <= length data)%nat -> written data 0 w ->
  wp (fun o w' => exists b j, o = Ret b /\ (j <= length buf)%nat /\ written data j w' /\
        (b = true -> j = length buf) /\ (quiet w0 -> b = true)) (write_all fd buf) w.
Proof using Type.
  intros Hl Hw. unfold write_all, rounds. apply wp_bind. unfold wp at 1. simpl.
  eapply wp_mono; [apply (wp_write_loop data _ 0); [done|lia|done|lia]|].
  intros o w' (b & j & -> & Hj & H). exists b, j. split; [done|]. split; [lia|done].
Qed.
End Write.

(** ** Reading everything *)

Section Read.
Context (fd : Z) (path : string) (wr : bool) (w0 : world) (f : file).
Context (Hf : w_files w0 !! path = Some f) (off : nat).

(** The state after [pos] bytes. *)
Definition reading (pos : nat) (w : world) : Prop :=
  session fd path true wr w0 w /\ steady w /\
  fd_file w fd = Some (mkFd path (Z.of_nat (off + pos)) true wr, f).

Definition read_post (size : Z) (o : outcome (Z * bytes)) (w : world) : Prop :=
  session fd path true wr w0 w /\ steady w /\ exists rc b, o = Ret (rc, b) /\
    Z.of_nat (length b) <= size /\ b = slice off (length b) (f_data f) /\
    (rc = 0 /\ Z.of_nat (length b) = size /\
       fd_file w fd = Some (mkFd path (Z.of_nat off + size) true wr, f) \/
     rc = -1 /\ (quiet w0 -> Z.of_nat (length (f_data f)) < Z.of_nat off + size)).

Lemma slice_extend pos n : (n <= length (f_data f) - (off + pos))%nat ->
  slice off pos (f_data f) ++ slice (off + pos) n (f_data f) = slice off (pos + n) (f_data f).
Proof using Type.
  intros Hn. unfold slice. rewrite <-drop_drop. apply take_take_drop.
Qed.

Lemma wp_read_loop size fuel pos w :
  0 <= size -> Z.of_nat pos <= size -> reading pos w -> (pos <= length (f_data f) - off)%nat ->
  (length (w_faults w) + (if decide (pos = length (f_data f) - off) then 0 else 1) < fuel)%nat ->
  wp (read_post size) (read_loop fuel fd size (slice off pos (f_data f))) w.
Proof using Hf.
  intros Hsz. revert pos w. induction fuel as [|fuel IH]; intros pos w Hp Hw Hpos Hfuel; [lia|].
  cbn [read_loop]. assert (Hlen : length (slice off pos (f_data f)) = pos) by (rewrite length_slice; lia).
  rewrite Hlen. destruct Hw as (Hs & Hst & Hfd).
  destruct (Z.eqb_spec (size - Z.of_nat pos) 0) as [E0|E0].
  { apply wp_ret. split; [done|]. split; [done|]. exists 0, (slice off pos (f_data f)). rewrite Hlen.
    split; [done|]. split; [lia|]. split; [done|]. left. split; [done|]. split; [lia|].
    rewrite Hfd. do 3 f_equal. lia. }
  assert (Hc : wp (fun o w' => (o = Ret (-1, []) /\ unmoved w w' /\ ~ quiet w) \/
      exists n, o = Ret (Z.of_nat n, slice (off + pos) n (f_data f)) /\
        Z.of_nat n <= size - Z.of_nat pos /\ (n <= length (f_data f) - (off + pos))%nat /\
        (quiet w -> Z.of_nat n = Z.min (size - Z.of_nat pos) (Z.of_nat (length (f_data f) - (off + pos)))) /\
        moved fd w (mkFd path (Z.of_nat (off + pos)) true wr) (Z.of_nat (off + pos + n)) w')
    (sys_read fd (size - Z.of_nat pos)) w).
  { eapply wp_read; [exact Hfd|done|cbn; lia| |].
    - intros w' Hu Hq. by left.
    - intros w' n avail Hn1 Hn2 Hnq Hm. subst avail. cbn [fd_off] in *. right. exists (Z.to_nat n).
      rewrite Z2Nat.id by lia. rewrite Nat2Z.id. split; [done|]. split; [lia|]. split; [lia|].
      split; [intros Hq; specialize (Hnq Hq); lia|].
      replace (Z.of_nat (off + pos + Z.to_nat n)) with (Z.of_nat (off + pos) + n) by lia. done. }
  apply wp_bind. eapply wp_mono; [apply (wp_and _ (advanced w) _ _ Hc), advanced_read|].
  intros o w' [Ho Ha]. pose proof (advanced_steady _ _ Ha Hst) as Hs'. destruct Ha as [At _].
  destruct Ho as [(-> & Hu & Hq)|(n & -> & Hn & Hna & Hnq & Hm)].
  - apply wp_bind. unfold get_errno, wp at 1. cbn [fst snd].
    destruct (Z.eqb_spec (w_errno w') EINTR) as [E|_]; [by destruct (st_errno _ Hs')|].
    apply wp_ret. split; [by eapply session_unmoved|]. split; [done|].
    exists (-1), (slice off pos (f_data f)). rewrite Hlen. split; [done|]. split; [lia|]. split; [done|].
    right. split; [done|]. intros H. destruct Hq. by apply (se_quiet _ _ _ _ _ _ Hs).
  - assert (Hs2 : session fd path true wr w0 w').
    { eapply session_moved; [exact Hs| | | | |exact Hm]; cbn; first [lia|done]. }
    apply wp_bind. unfold get_errno, wp at 1. cbn [fst snd].
    destruct (Z.eqb_spec (w_errno w') EINTR) as [E|_]; [by destruct (st_errno _ Hs')|].
    destruct (Z.leb_spec (Z.of_nat n) 0) as [Hn0|Hn0]; cbn [negb andb].
    + apply wp_ret. split; [done|]. split; [done|]. exists (-1), (slice off pos (f_data f)). rewrite Hlen.
      split; [done|]. split; [lia|]. split; [done|]. right. split; [done|]. intros H.
      apply (se_quiet _ _ _ _ _ _ Hs) in H. specialize (Hnq H). lia.
    + replace (Z.of_nat n <? 0) with false by lia. rewrite slice_extend by done.
      assert (Hr : reading (pos + n) w').
      { split; [done|]. split; [done|]. destruct Hm as (M1 & M2 & _). unfold fd_file.
        rewrite M2, lookup_insert_eq. cbn. rewrite M1, (se_files _ _ _ _ _ _ Hs), Hf. cbn.
        do 3 f_equal. lia. }
      destruct (decide (w_faults w = [])) as [Ef|Ef].
      * assert (Et : w_faults w' = []) by (by rewrite At, Ef). specialize (Hnq Ef).
        destruct (decide (Z.of_nat (pos + n) = size)) as [Eq|Ne].
        -- assert (Hl2 : length (slice off (pos + n) (f_data f)) = (pos + n)%nat) by (rewrite length_slice; lia).
           assert (Hr0 : read_loop fuel fd size (slice off (pos + n) (f_data f)) =
             ret (0, slice off (pos + n) (f_data f))).
           { destruct fuel; cbn [read_loop]; rewrite Hl2; by rewrite (proj2 (Z.eqb_eq _ 0)) by lia. }
           rewrite Hr0. apply wp_ret. split; [done|]. split; [done|]. exists 0, (slice off (pos + n) (f_data f)).
           rewrite Hl2. split; [done|]. split; [lia|]. split; [done|]. left. split; [done|].
           split; [lia|]. destruct Hr as (_ & _ & ->). do 3 f_equal. lia.
        -- apply (IH (pos + n)%nat w'); [lia|done|lia|]. rewrite Et. cbn [length].
           rewrite decide_True by lia. rewrite Ef, decide_False in Hfuel by lia. cbn [length] in Hfuel. lia.
      * apply (IH (pos + n)%nat w'); [lia|done|lia|]. rewrite At.
        destruct (w_faults w); [done|]. cbn [length tail] in *. destruct (decide _), (decide _); lia.
Qed.

Lemma wp_safe_read size w :
  0 <= size -> reading 0 w -> wp (read_post size) (safe_read fd size) w.
Proof using Hf.
  intros Hsz Hw. unfold safe_read, rounds. apply wp_bind. unfold wp at 1. cbn [fst snd].
  pose proof (wp_read_loop size (length (w_faults w) + 2)%nat 0 w Hsz ltac:(lia) Hw ltac:(lia)) as H.
  unfold slice in H. rewrite take_0 in H. apply H. destruct (decide _); lia.
Qed.
End Read.

(** The device [path] holds [data]; nothing else changed since [w0] and nothing was left open. *)
Record device (path : string) (k : fkind) (w0 : world) (data : bytes) (w : world) : Prop := {
  dv_files : w_files w = <[ path := mkFile k data ]> (w_files w0);
  dv_fds : w_fds w = w_fds w0;
  dv_steady : steady w;
  dv_quiet : quiet w0 -> quiet w
}.

Lemma device_self path k data w : w_files w !! path = Some (mkFile k data) -> steady w -> device path k w data w.
Proof. intros H Hs. split; [by rewrite insert_id|done|done|done]. Qed.

Lemma device_trans path k w0 d1 w1 d2 w2 :
  device path k w0 d1 w1 -> device path k w1 d2 w2 -> device path k w0 d2 w2.
Proof.
  intros [E1 E2 E3 E4] [F1 F2 F3 F4]. split; [by rewrite F1, E1, insert_insert_eq|congruence|done|auto].
Qed.

Section Device.
Context (path : string) (k : fkind) (w0 : world).

Lemma device_file data w : device path k w0 data w -> w_files w !! path = Some (mkFile k data).
Proof using Type. intros [-> _ _ _]. apply lookup_insert_eq. Qed.

Lemma device_unmoved data w w' : device path k w0 data w -> unmoved w w' -> steady w' -> device path k w0 data w'.
Proof using Type. intros [E1 E2 _ E4] (F1 & F2 & F3) Hs. split; [congruence|congruence|done|auto]. Qed.

(** The descriptor of an open device. *)
Record open_device (fd : Z) (rd wr : bool) (data : bytes) (w : world) : Prop := {
  od_files : w_files w = <[ path := mkFile k data ]> (w_files w0);
  od_fds : delete fd (w_fds w) = w_fds w0;
  od_open : exists off, 0 <= off /\ w_fds w !! fd = Some (mkFd path off rd wr);
  od_fresh : w_fds w0 !! fd = None;
  od_steady : steady w;
  od_quiet : quiet w0 -> quiet w
}.

(** Devices and the files of /sys are neither links nor truncated. *)
Definition fixed_file : Prop := k <> Regular /\ k <> Symlink.

(** Opening a block device neither creates nor truncates anything. *)
Lemma wp_open_device {B} (Q : outcome B -> world -> Prop) kont fl data w :
  k <> Symlink -> (o_trunc fl = true -> k <> Regular) -> device path k w0 data w ->
  (forall w', device path k w0 data w' -> ~ quiet w0 -> wp Q (kont (-1)) w') ->
  (forall fd w', 2 < fd -> open_device fd (o_read fl) (o_write fl) data w' ->
     w_fds w' !! fd = Some (mkFd path 0 (o_read fl) (o_write fl)) -> wp Q (kont fd) w') ->
  wp Q (bind (sys_open path fl) kont) w.
Proof using Type.
  intros Hk1 Hk2 Hw H1 H2. pose proof (device_file _ _ Hw) as Hf. destruct Hw as [E1 E2 E3 E4].
  pose proof (advanced_steady _ _ (advanced_open path fl w) E3) as Hs.
  apply wp_bind. unfold wp at 1. revert Hs. unfold sys_open, bind, next_fault.
  pose proof (fresh_fd_spec (w_fds w)) as [Hfd Hn].
  assert (Hgo : forall w', w_files w' = w_files w -> w_fds w' = w_fds w -> (quiet w -> quiet w') -> steady (add_fd path fl w').2 ->
    wp Q (kont (fresh_fd (w_fds w'))) (add_fd path fl w').2).
  { intros w' F1 F2 F3 Hs. rewrite F2. apply H2; [done| |unfold add_fd; simpl; by rewrite F2, lookup_insert_eq].
    unfold add_fd in *. simpl in *. split; simpl; rewrite ?F1, ?F2; try done.
    - by rewrite delete_insert_id.
    - exists 0. by rewrite lookup_insert_eq.
    - by rewrite <-E2.
    - destruct Hs. by split.
    - intros Hq. specialize (F3 (E4 Hq)). exact F3. }
  destruct (w_faults w) as [|[|e|n] fs] eqn:Ef; simpl; try rewrite Hf; simpl.
  all: try (destruct k; try done; destruct (o_trunc fl); try (by destruct (Hk2 eq_refl)); intros Hs; apply Hgo; try done; unfold quiet; rewrite ?Ef; done).
  intros Hs. apply H1.
  - split; simpl; [done|done|done|]. intros Hq. specialize (E4 Hq). unfold quiet in E4. by rewrite Ef in E4.
  - intros Hq. specialize (E4 Hq). unfold quiet in E4. by rewrite Ef in E4.
Qed.

Lemma wp_close_device {B} (Q : outcome B -> world -> Prop) kont fd rd wr data w :
  open_device fd rd wr data w -> (forall w' r, device path k w0 data w' -> wp Q (kont r) w') ->
  wp Q (bind (sys_close fd) kont) w.
Proof using Type.
  intros [E1 E2 (off & Ho & E3) E4 E5 E6] H. apply wp_bind. unfold wp at 1, sys_close. rewrite E3. simpl.
  apply H. split; simpl; [done|done| |done]. destruct E5. by split.
Qed.

Lemma open_device_unmoved fd rd wr data w w' : open_device fd rd wr data w -> unmoved w w' -> steady w' ->
  open_device fd rd wr data w'.
Proof using Type. intros [] (F1 & F2 & F3) Hs. split; rewrite ?F1, ?F2; auto. Qed.

Lemma wp_fsync_device {B} (Q : outcome B -> world -> Prop) kont fd rd wr data w :
  open_device fd rd wr data w -> (forall w' r, open_device fd rd wr data w' -> r = 0 \/ r = -1 /\ ~ quiet w0 -> wp Q (kont r) w') ->
  wp Q (bind (sys_fsync fd) kont) w.
Proof using Type.
  intros Hw H. apply wp_bind. unfold wp at 1.
  assert (Hu : unmoved w (sys_fsync fd w).2 /\ exists r, (sys_fsync fd w).1 = Ret r /\ (r = 0 \/ r = -1 /\ ~ quiet w)).
  { unfold sys_fsync, bind, next_fault, unmoved, quiet.
    destruct (w_faults w) as [|[|e|n] fs] eqn:E; cbn; split; try (by split_and!); eexists; split; try done; auto. }
  destruct Hu as (Hu & r & Er & Hr). rewrite Er. apply H.
  - eapply open_device_unmoved; [done|done|]. eapply advanced_steady; [apply advanced_fsync|apply Hw].
  - destruct Hr as [->|[-> Hq]]; [by left|right]. split; [done|]. intros H0. by apply Hq, (od_quiet _ _ _ _ _ Hw).
Qed.

Lemma wp_malloc_device {B} (Q : outcome B -> world -> Prop) kont n fd rd wr data w :
  open_device fd rd wr data w -> 0 <= n ->
  (forall w', open_device fd rd wr data w' -> ~ quiet w0 -> wp Q (kont false) w') ->
  (forall w', open_device fd rd wr data w' -> w_fds w' = w_fds w -> wp Q (kont true) w') ->
  wp Q (bind (sys_malloc n) kont) w.
Proof using Type.
  intros Hw Hn H1 H2. apply wp_bind.
  assert (Hc : wp (fun o w' => unmoved w w' /\ (o = Ret true \/ o = Ret false /\ ~ quiet w)) (sys_malloc n) w).
  { apply wp_malloc; [intros w' Hu Hq|by intros w' Hu _; split; [|left]].
    split; [done|]. right. split; [done|]. intros H. specialize (Hq H). lia. }
  eapply wp_mono; [apply (wp_and _ (advanced w) _ _ Hc), advanced_malloc|].
  intros o w' [[Hu Ho] Ha]. pose proof (advanced_steady _ _ Ha (od_steady _ _ _ _ _ Hw)) as Hs.
  pose proof (open_device_unmoved _ _ _ _ _ _ Hw Hu Hs) as Hw'. destruct Ho as [->|[-> Hq]].
  - apply H2; [done|]. apply Hu.
  - apply H1; [done|]. intros H. apply Hq. by apply (od_quiet _ _ _ _ _ Hw).
Qed.

(** What [file_write] returns and leaves on the device. *)
Definition write_post (buf data : bytes) (o : outcome Z) (w : world) : Prop :=
  o = Ret 0 /\ device path k w0 (splice 0 buf data) w \/
  o = Ret (-1) /\ ~ quiet w0 /\ exists j, (j <= length buf)%nat /\ device path k w0 (splice 0 (take j buf) data) w.

Lemma splice_take_0 (buf data : bytes) : splice 0 (take 0 buf) data = data.
Proof using Type. unfold splice. by rewrite take_0, drop_0. Qed.

Lemma wp_file_write buf data w :
  fixed_file -> (length buf <= length data)%nat -> device path k w0 data w ->
  wp (write_post buf data) (file_write path buf) w.
Proof using Type.
  intros [Hk1 Hk2] Hl Hw. unfold file_write. eapply wp_open_device; [exact Hk2|done|exact Hw| |].
  { intros w' Hw' Hq. apply wp_ret. right. split; [done|]. split; [done|]. exists 0%nat. split; [lia|].
    by rewrite splice_take_0. }
  intros fd w1 Hfd Hod Hop. simpl in Hop. replace (fd <? 0) with false by lia.
  pose proof Hod as [E1 E2 _ E4 E5 E6]. apply wp_bind. eapply wp_mono.
  { apply (wp_write_all fd path true k w1 0 buf data w1 Hl). split.
    - by rewrite splice_take_0, E1, insert_insert_eq.
    - split; [done|]. split; [done|]. split; [done|]. exact Hop. }
  intros o w2 (b & j & -> & Hj & (F1 & F2 & F3 & F4 & F5) & Hb1 & Hb2).
  assert (Hod2 : open_device fd true true (splice 0 (take j buf) data) w2).
  { split; [by rewrite F1, E1, insert_insert_eq|congruence| |done|done|auto].
    eexists; split; [|exact F5]. lia. }
  destruct b; cbn [negb].
  - rewrite take_ge in Hod2 by (rewrite (Hb1 eq_refl); lia).
    eapply wp_fsync_device; [exact Hod2|]. intros w3 r Hod3 _.
    eapply wp_close_device; [exact Hod3|]. intros w4 r' Hw4. apply wp_ret. by left.
  - eapply wp_close_device; [exact Hod2|]. intros w4 r Hw4. apply wp_ret. right. split; [done|].
    split; [|by exists j]. intros Hq. specialize (Hb2 (E6 Hq)). done.
Qed.

(** Reading [size] bytes from offset 0 of an open device. *)
Lemma wp_read_device {B} (Q : outcome B -> world -> Prop) kont fd wr data size w :
  0 <= size -> open_device fd true wr data w -> w_fds w !! fd = Some (mkFd path 0 true wr) ->
  (forall w', open_device fd true wr data w' -> size <= Z.of_nat (length data) ->
     wp Q (kont (0, take (Z.to_nat size) data)) w') ->
  (forall w' b, open_device fd true wr data w' -> (quiet w0 -> Z.of_nat (length data) < size) ->
     wp Q (kont (-1, b)) w') ->
  wp Q (bind (safe_read fd size) kont) w.
Proof using Type.
  intros Hs [E1 E2 E3 E4 E5 E6] Hop H1 H2. apply wp_bind.
  assert (Hf : w_files w !! path = Some (mkFile k data)) by (rewrite E1; apply lookup_insert_eq).
  eapply wp_mono.
  { apply (wp_safe_read fd path wr w (mkFile k data) Hf 0 size w Hs). split; [|split].
    - split; [done|done|done|]. by exists 0.
    - done.
    - unfold fd_file. rewrite Hop. simpl. by rewrite Hf. }
  intros o w' ([F1 F2 F3 F4] & Hst & rc & b & -> & Hb1 & Hb2 & Hrc). simpl in *.
  assert (Hod : open_device fd true wr data w') by (split; [congruence|congruence|done|done|done|auto]).
  assert (Hle : (length b <= length data)%nat) by (rewrite Hb2, length_slice; lia).
  destruct Hrc as [(-> & Hl & _)|[-> Hq]].
  - replace b with (take (Z.to_nat size) data); [apply H1; [done|lia]|].
    rewrite Hb2. unfold slice. rewrite drop_0. f_equal. lia.
  - apply H2; [done|]. intros H. specialize (Hq (E6 H)). lia.
Qed.
End Device.

Lemma wp_malloc_any {B} (Q : outcome B -> world -> Prop) kont n w :
  steady w ->
  (forall w' ok, unmoved w w' -> steady w' -> (quiet w -> 0 <= n -> ok = true) -> wp Q (kont ok) w') ->
  wp Q (bind (sys_malloc n) kont) w.
Proof.
  intros Hs H. apply wp_bind.
  assert (Hc : wp (fun o w' => exists ok, o = Ret ok /\ unmoved w w' /\ (quiet w -> 0 <= n -> ok = true)) (sys_malloc n) w).
  { apply wp_malloc; intros w' Hu Hq; eexists; split; [done| |done|]; split; try done. intros Hw Hn. specialize (Hq Hw). lia. }
  eapply wp_mono; [apply (wp_and _ (advanced w) _ _ Hc), advanced_malloc|].
  intros o w' [(ok & -> & Hu & Hq) Ha]. apply H; [done| |done]. by eapply advanced_steady.
Qed.

Lemma advanced_stat path w : advanced w (sys_stat path w).2.
Proof. unfold sys_stat. run_call. Qed.

(** Reading a regular file: its content, or -1 after a failure; nothing changes. *)
Lemma wp_file_read {B} (Q : outcome B -> world -> Prop) kont path data w :
  steady w -> w_files w !! path = Some (mkFile Regular data) ->
  (forall w', device path Regular w data w' -> wp Q (kont (0, Some data)) w') ->
  (forall w', device path Regular w data w' -> ~ quiet w -> wp Q (kont (-1, None)) w') ->
  wp Q (bind (file_read path true) kont) w.
Proof.
  intros Hs Hf H1 H2. pose proof (device_self _ _ _ _ Hf Hs) as Hd. unfold file_read. apply wp_assoc.
  assert (Hc : wp (fun o w' => unmoved w w' /\ (o = Ret (0, Z.of_nat (length data)) \/ o = Ret (-1, 0) /\ ~ quiet w)) (sys_stat path) w).
  { unfold wp, sys_stat, bind, next_fault, sys_fail, unmoved, quiet, ret.
    destruct (w_faults w) as [|[|e|n] fs] eqn:E; simpl; rewrite ?Hf; simpl; rewrite ?E; (split; [split_and!; done|]);
      first [by left|right; by split]. }
  apply wp_bind. eapply wp_mono; [apply (wp_and _ (advanced w) _ _ Hc), advanced_stat|].
  intros o w1 [[Hu Ho] Ha]. pose proof (advanced_steady _ _ Ha Hs) as Hs1.
  pose proof (device_unmoved _ _ _ _ _ _ Hd Hu Hs1) as Hd1. destruct Ho as [->|[-> Hq]]; cbn [truthy Z.eqb negb].
  2:{ apply wp_bind, wp_ret. by apply H2. }
  apply wp_assoc. eapply (wp_open_device path Regular w); [done|intros H; discriminate H|exact Hd1| |].
  { intros w' Hd' Hq. cbn [Z.ltb Z.compare]. apply wp_bind, wp_ret. by apply H2. }
  intros fd w2 Hfd Hod Hop. replace (fd <? 0) with false by lia. apply wp_assoc. cbn [negb].
  eapply wp_malloc_device; [exact Hod|lia| |].
  - intros w3 Hod3 Hq. destruct (Z.eqb_spec (Z.of_nat (length data)) 0) as [E0|E0].
    + apply wp_assoc, wp_bind, wp_ret. apply wp_assoc. eapply wp_close_device; [exact Hod3|]. intros w4 r Hd4.
      cbn [truthy Z.eqb negb]. apply wp_bind, wp_ret. destruct data; [by apply H1|done].
    + apply wp_assoc, wp_assoc, wp_bind. unfold wp at 1, sys_fail. simpl. apply wp_bind, wp_ret. apply wp_assoc.
      eapply wp_close_device.
      * eapply (open_device_unmoved _ _ _ _ _ _ _ w3); [exact Hod3|done|]. split; [apply Hod3|done].
      * intros w4 r Hd4. cbn [truthy Z.eqb negb]. apply wp_bind, wp_ret. by apply H2.
  - intros w3 Hod3 Ef. assert (Hop3 : w_fds w3 !! fd = Some (mkFd path 0 true false)) by (by rewrite Ef).
    apply wp_assoc. eapply wp_read_device; [|exact Hod3|exact Hop3| |]; [lia| |].
    + intros w4 Hod4 _. apply wp_assoc. eapply wp_close_device; [exact Hod4|]. intros w5 r Hd5.
      cbn [truthy Z.eqb negb]. apply wp_bind, wp_ret. rewrite Nat2Z.id, take_ge by lia. by apply H1.
    + intros w4 b Hod4 Hq. apply wp_assoc. eapply wp_close_device; [exact Hod4|]. intros w5 r Hd5.
      cbn [truthy Z.eqb negb]. apply wp_bind, wp_ret. apply H2; [done|]. intros H. specialize (Hq H). lia.
Qed.

Lemma block_fixed s : fixed_file (Block s).
Proof. done. Qed.

(** ** Calls when nothing fails *)

Section Still.
Context (files : gmap string file) (e : Z).

#[local] Abbreviation still fds := (mkWorld files fds [] e).

Lemma sys_open_still path fl k data fds : files !! path = Some (mkFile k data) -> k <> Symlink -> o_trunc fl = false ->
  sys_open path fl (still fds) = (Ret (fresh_fd fds), still (<[fresh_fd fds := mkFd path 0 (o_read fl) (o_write fl)]> fds)).
Proof using Type. intros Hf Hk Ht. unfold sys_open, bind, next_fault. cbn. rewrite Hf. by destruct k; try done; rewrite Ht. Qed.

Lemma sys_close_still fd d fds : fds !! fd = Some d -> sys_close fd (still fds) = (Ret 0, still (delete fd fds)).
Proof using Type. intros H. unfold sys_close. cbn. by rewrite H. Qed.

Lemma sys_read_still fd count path off wr k data fds :
  files !! path = Some (mkFile k data) -> fds !! fd = Some (mkFd path (Z.of_nat off) true wr) -> 0 <= count ->
  let n := Z.min count (Z.max 0 (Z.of_nat (length data) - Z.of_nat off)) in
  sys_read fd count (still fds) =
  (Ret (n, slice off (Z.to_nat n) data), still (<[fd := mkFd path (Z.of_nat off + n) true wr]> fds)).
Proof using Type.
  intros Hf Hfd Hc. unfold sys_read, bind, next_fault, fd_file. cbn [w_faults w_fds w_files]. rewrite Hfd.
  cbn [mbind option_bind fd_path]. rewrite Hf. cbn. by rewrite Nat2Z.id, (Z.max_r 0 count) by done.
Qed.
End Still.
