(* ===== verification/OsipSpec.v ===== *)
(** * The OS image profile is kept consistent (theorems about update_osip.c) *)

From stdpp Require Import base list numbers gmap strings.
From Stdlib Require Import ZArith Lia.
From S2P Require Import Prelude Xor GuidStr Posix Drive DriveSpec Util Osip UtilSpec.

(** ** The checksum *)

Definition header_ok (h : bytes) : Prop := bytes_ok h /\ length h = sizeof_OSIP.

Lemma get_osip_crc_all h : length h = sizeof_OSIP -> get_osip_crc h = xor_all h.
Proof.
  intros H. unfold get_osip_crc. rewrite xor_all_fold. unfold sizeof_OSIP in *.
  destruct h as [|a [|b h]]; try discriminate.
  assert (E : slice 2 (224 - 2) (a :: b :: h) = h).
  { unfold slice. cbn [drop]. apply take_ge. cbn [length] in H. lia. }
  rewrite E. unfold getn, slice. cbn. by rewrite !Z.add_0_r, <-Z.lxor_assoc.
Qed.

Lemma header_ok_put n off v h : header_ok h -> (off + n <= 224)%nat -> header_ok (putn n off v h).
Proof.
  intros [B L] H. unfold sizeof_OSIP in *. split; [by apply bytes_ok_putn|]. unfold sizeof_OSIP. rewrite length_putn; lia.
Qed.

(** The checksum byte makes the whole header sum to zero. *)
Lemma update_checksum_valid h : header_ok h -> get_osip_crc (update_checksum h) = 0.
Proof.
  intros H. unfold update_checksum. set (z := set_header_checksum 0 h).
  assert (Hz : header_ok z) by (apply header_ok_put; [done|lia]). destruct Hz as [Bz Lz].
  unfold set_header_checksum at 1. set (c := get_osip_crc z).
  assert (Hc : is_byte c) by (unfold c; rewrite get_osip_crc_all by done; by apply xor_all_byte).
  rewrite get_osip_crc_all by (by apply header_ok_put; [|lia]).
  unfold putn. unfold sizeof_OSIP in *. rewrite xor_all_splice by (rewrite length_le_enc; lia).
  rewrite length_le_enc.
  assert (E : slice 7 1 z = [0]).
  { unfold z, set_header_checksum, putn. destruct H as [_ L]. unfold sizeof_OSIP in *.
    pose proof (slice_splice_eq 7 (le_enc 1 0) h) as E. rewrite length_le_enc in E. by rewrite E by lia. }
  rewrite E. cbn [le_enc]. unfold is_byte in Hc. rewrite Z.mod_small by lia.
  unfold xor_all at 2 3. cbn [fold_right]. rewrite !Z.lxor_0_r, Z.lxor_0_l.
  unfold c. rewrite get_osip_crc_all by done. apply Z.lxor_nilpotent.
Qed.

Lemma update_checksum_ok h : header_ok h -> header_ok (update_checksum h).
Proof. intros H. by repeat (apply header_ok_put; [|lia]). Qed.

Lemma crc_detects_byte h off b :
  header_ok h -> get_osip_crc h = 0 -> (off < 224)%nat -> is_byte b -> getn 1 off h <> b ->
  get_osip_crc (splice off [b] h) <> 0.
Proof.
  intros [B L] H0 Ho Hb Hne. unfold sizeof_OSIP in *. rewrite get_osip_crc_all in H0 by done.
  rewrite get_osip_crc_all by (rewrite length_splice; cbn [length]; [done|lia]).
  rewrite xor_all_splice by (cbn [length]; lia). rewrite H0, Z.lxor_0_l. cbn [length].
  unfold getn in Hne. destruct (slice off 1 h) as [|x [|]] eqn:E;
    apply (f_equal length) in E as El; rewrite length_slice in El; cbn [length] in El; try lia.
  cbn in Hne |- *. rewrite !Z.lxor_0_r. intros Hx. apply Z.lxor_eq in Hx. lia.
Qed.

(** ** The storage *)

(** The storage holds [data]; nothing else changed since [w0] and nothing is open. *)
Record on_storage (k : fkind) (w0 : world) (data : bytes) (w : world) : Prop := {
  os_files : w_files w = <[ MMC_DEV_POS := mkFile k data ]> (w_files w0);
  os_fds : w_fds w = w_fds w0;
  os_steady : steady w;
  os_quiet : quiet w0 -> quiet w
}.

Definition storage_kind (k : fkind) : Prop := k = Regular \/ exists s, k = Block s.

Section Storage.
Context (k : fkind) (w0 : world) (Hk : storage_kind k).

Lemma kind_not_link : k <> Symlink.
Proof using Hk. destruct Hk as [->|[s ->]]; done. Qed.

Lemma on_storage_file data w : on_storage k w0 data w -> w_files w !! MMC_DEV_POS = Some (mkFile k data).
Proof using Type. intros [-> _ _ _]. apply lookup_insert_eq. Qed.

Lemma on_storage_unmoved data w w' : on_storage k w0 data w -> unmoved w w' -> steady w' -> on_storage k w0 data w'.
Proof using Type. intros [E1 E2 _ E4] (F1 & F2 & F3) Hs. split; [congruence|congruence|done|auto]. Qed.

(** Opening the storage. *)
Lemma wp_open_storage {B} (Q : outcome B -> world -> Prop) kont fl data w :
  o_creat fl = false -> o_trunc fl = false -> on_storage k w0 data w ->
  (forall w', on_storage k w0 data w' -> ~ quiet w0 -> wp Q (kont (-1)) w') ->
  (forall fd w1, 2 < fd -> w_fds w0 !! fd = None ->
     w_files w1 = <[ MMC_DEV_POS := mkFile k data ]> (w_files w0) ->
     w_fds w1 = <[ fd := mkFd MMC_DEV_POS 0 (o_read fl) (o_write fl) ]> (w_fds w0) ->
     steady w1 -> (quiet w0 -> quiet w1) -> wp Q (kont fd) w1) ->
  wp Q (bind (sys_open MMC_DEV_POS fl) kont) w.
Proof using Hk.
  intros Hc Ht Hw H1 H2. pose proof (on_storage_file _ _ Hw) as Hf. apply wp_bind.
  assert (Ho : wp (fun o w' => (o = Ret (-1) /\ unmoved w w' /\ ~ quiet w) \/
    exists fd, o = Ret fd /\ w_fds w !! fd = None /\ 2 < fd /\ w_files w' = w_files w /\
      w_fds w' = <[ fd := mkFd MMC_DEV_POS 0 (o_read fl) (o_write fl) ]> (w_fds w) /\ (quiet w -> quiet w'))
    (sys_open MMC_DEV_POS fl) w).
  { apply wp_open; [done|done| |].
    - intros w' Hu Hq. left. split; [done|]. split; [done|]. intros H. destruct (Hq H) as [E|[d E]];
        rewrite Hf in E; [done|]. injection E as E _. by apply kind_not_link.
    - intros w' fd f _ _ Hfr Hfd E1 E2 E3. right. by exists fd. }
  eapply wp_mono; [apply (wp_and _ (advanced w) _ _ Ho), advanced_open|].
  destruct Hw as [E1 E2 E3 E4].
  intros o w' [[(-> & Hu & Hq)|(fd & -> & Hfr & Hfd & F1 & F2 & F3)] Ha];
    pose proof (advanced_steady _ _ Ha E3) as Hs.
  - apply H1; [|auto]. by eapply on_storage_unmoved.
  - apply H2; try done; [by rewrite <-E2|congruence|by rewrite F2, E2|auto].
Qed.

(** Closing it again. *)
Lemma wp_close_storage {B} (Q : outcome B -> world -> Prop) kont fd data w d :
  w_fds w0 !! fd = None ->
  w_files w = <[ MMC_DEV_POS := mkFile k data ]> (w_files w0) ->
  delete fd (w_fds w) = w_fds w0 -> w_fds w !! fd = Some d -> fd_path d = MMC_DEV_POS ->
  steady w -> (quiet w0 -> quiet w) ->
  (forall w' r, on_storage k w0 data w' -> wp Q (kont r) w') ->
  wp Q (bind (sys_close fd) kont) w.
Proof using Type.
  intros Hfr E1 E2 E3 E4 Hs Hq H. apply wp_bind.
  assert (Hc : wp (fun o w' => exists r, o = Ret r /\ w_files w' = w_files w /\
    w_fds w' = delete fd (w_fds w) /\ (quiet w -> quiet w')) (sys_close fd) w).
  { eapply (wp_close fd w d (mkFile k data)).
    - unfold fd_file. rewrite E3. cbn. by rewrite E4, E1, lookup_insert_eq.
    - intros w' F1 F2 F3. by exists 0. }
  eapply wp_mono; [apply (wp_and _ steady _ _ Hc), steady_close, Hs|].
  intros o w' [(r & -> & F1 & F2 & F3) Hs']. apply H. split; [congruence|congruence|done|auto].
Qed.
End Storage.

(** ** Reading and writing the header *)

Definition header_of (data : bytes) : bytes := slice 0 sizeof_OSIP data.

Lemma session_storage k w0 fd data w1 rd wr :
  w_files w1 = <[ MMC_DEV_POS := mkFile k data ]> (w_files w0) ->
  w_fds w1 = <[ fd := mkFd MMC_DEV_POS 0 rd wr ]> (w_fds w0) ->
  session fd MMC_DEV_POS rd wr w1 w1 /\ w_files w1 !! MMC_DEV_POS = Some (mkFile k data) /\
  fd_file w1 fd = Some (mkFd MMC_DEV_POS 0 rd wr, mkFile k data).
Proof.
  intros E1 E2. split; [|split].
  - split; [done|done|done|]. exists 0. by rewrite E2, lookup_insert_eq.
  - by rewrite E1, lookup_insert_eq.
  - unfold fd_file. rewrite E2, lookup_insert_eq. cbn. by rewrite E1, lookup_insert_eq.
Qed.

Lemma wp_read_OSIP {B} (Q : outcome B -> world -> Prop) kont k w0 data w :
  storage_kind k -> bytes_ok data -> (sizeof_OSIP <= length data)%nat -> on_storage k w0 data w ->
  (forall w', on_storage k w0 data w' -> get_osip_crc (header_of data) = 0 ->
     wp Q (kont (0, header_of data)) w') ->
  (forall w' osip, on_storage k w0 data w' -> header_ok osip ->
     (quiet w0 -> get_osip_crc (header_of data) <> 0) -> wp Q (kont (-1, osip)) w') ->
  wp Q (bind read_OSIP kont) w.
Proof.
  intros Hk Hb Hlen Hw H1 H2. unfold read_OSIP. apply wp_assoc.
  assert (Hz : header_ok (replicate sizeof_OSIP 0)).
  { split; [apply bytes_ok_zeros|apply length_replicate]. }
  set (zero := replicate sizeof_OSIP 0) in *.
  eapply (wp_open_storage _ _ Hk); [done|done|exact Hw| |].
  { intros w' Hw' Hq. cbn [Z.ltb Z.compare]. apply wp_bind, wp_ret, H2; [done|done|]. intros H. by destruct Hq. }
  intros fd w1 Hfd Hfr E1 E2 Hs Hq. replace (fd <? 0) with false by lia.
  destruct (session_storage _ _ _ _ _ _ _ E1 E2) as (Hse & Hf1 & Hfd1).
  apply wp_assoc, wp_bind. eapply wp_mono.
  { apply (wp_safe_read fd MMC_DEV_POS false w1 (mkFile k data) Hf1 0 (Z.of_nat sizeof_OSIP) w1); [lia|].
    split; [done|]. split; [done|]. exact Hfd1. }
  intros o w2 (Hse2 & Hs2 & rc & b & -> & Hbl & Hbe & Hrc). cbv zeta. cbn [f_data] in *.
  apply wp_assoc. destruct Hse2 as [S1 S2 S3 (off & _ & S4)].
  eapply (wp_close_storage k w0 _ _ fd data w2); [done|congruence| |exact S4|done|done|auto|].
  { rewrite S2, E2. by apply delete_insert_id. }
  intros w3 r Hw3. apply wp_bind, wp_ret.
  assert (Hok : header_ok (splice 0 b zero)).
  { destruct Hz as [Bz Lz]. split.
    - apply bytes_ok_splice; [rewrite Hbe; by apply bytes_ok_slice|done].
    - rewrite length_splice; [done|]. rewrite Lz. lia. }
  destruct Hrc as [(-> & Hl & _)|[-> Hshort]].
  - assert (Eh : splice 0 b zero = header_of data).
    { rewrite splice_all by (rewrite (proj2 Hz); lia). rewrite Hbe. unfold header_of. f_equal. lia. }
    rewrite Eh in *. cbn [Z.ltb Z.compare].
    destruct (Z.eqb_spec (get_osip_crc (header_of data)) 0) as [Ec|Ec]; cbn [negb]; [by apply H1|].
    apply H2; [done|done|]. done.
  - cbn [Z.ltb Z.compare]. apply H2; [done|done|]. intros H. specialize (Hshort (Hq H)). lia.
Qed.

(** A buffer written from the current offset, then anything that closes the storage. *)
Lemma wp_put_all {B} (Q : outcome B -> world -> Prop) kont k w0 rd data fd w off buf :
  w_files w = <[ MMC_DEV_POS := mkFile k data ]> (w_files w0) ->
  delete fd (w_fds w) = w_fds w0 -> w_fds w !! fd = Some (mkFd MMC_DEV_POS (Z.of_nat off) rd true) ->
  w_fds w0 !! fd = None -> steady w -> (quiet w0 -> quiet w) -> (off + length buf <= length data)%nat ->
  (forall j b w', (j <= length buf)%nat -> (b = true -> j = length buf) -> (b = false -> ~ quiet w0) ->
     w_files w' = <[ MMC_DEV_POS := mkFile k (splice off (take j buf) data) ]> (w_files w0) ->
     delete fd (w_fds w') = w_fds w0 -> (exists d, w_fds w' !! fd = Some d /\ fd_path d = MMC_DEV_POS) ->
     steady w' -> (quiet w0 -> quiet w') -> wp Q (kont b) w') ->
  wp Q (bind (write_all fd buf) kont) w.
Proof.
  intros E1 E2 E3 Hfr Hs Hq Hl H. apply wp_bind.
  assert (H0 : splice off (take 0 buf) data = data).
  { unfold splice. rewrite take_0. cbn. rewrite Nat.add_0_r. apply take_drop. }
  eapply wp_mono.
  { apply (wp_write_all fd MMC_DEV_POS rd k w off buf data w Hl). split.
    - rewrite H0, E1, insert_insert_eq. done.
    - split; [done|]. split; [done|]. split; [done|]. by rewrite Nat.add_0_r. }
  intros o w' (b & j & -> & Hj & (F1 & F2 & F3 & F4 & F5) & Hb1 & Hb2).
  apply (H j b w'); [done|done| | |congruence|eexists; split; [exact F5|done]|done|auto].
  - intros -> Hw. specialize (Hb2 (Hq Hw)). done.
  - by rewrite F1, E1, insert_insert_eq.
Qed.

Lemma wp_fsync_storage {B} (Q : outcome B -> world -> Prop) kont fd w :
  (forall w' r, unmoved w w' -> (steady w -> steady w') -> wp Q (kont r) w') ->
  wp Q (bind (sys_fsync fd) kont) w.
Proof.
  intros H. apply wp_bind. unfold wp at 1.
  assert (Hu : unmoved w (sys_fsync fd w).2 /\ exists r, (sys_fsync fd w).1 = Ret r).
  { unfold sys_fsync, bind, next_fault, unmoved, quiet.
    destruct (w_faults w) as [|[|e|n] fs] eqn:E; cbn; split; try (by eexists); by split_and!. }
  destruct Hu as [Hu [r Er]]. rewrite Er. apply H; [done|].
  intros Hs. eapply advanced_steady; [apply advanced_fsync|done].
Qed.

(** The header on the storage after [write_OSIP osip]: all of it, or a part after a failure. *)
Lemma wp_write_OSIP k w0 data w osip (P : outcome Z -> world -> Prop) :
  storage_kind k -> header_ok osip -> (sizeof_OSIP <= length data)%nat -> on_storage k w0 data w ->
  (forall w', on_storage k w0 (splice 0 (update_checksum osip) data) w' -> P (Ret 0) w') ->
  (forall j w', (j <= sizeof_OSIP)%nat -> on_storage k w0 (splice 0 (take j (update_checksum osip)) data) w' ->
     ~ quiet w0 -> P (Ret (-1)) w') ->
  wp P (write_OSIP osip) w.
Proof.
  intros Hk Hok Hlen Hw H1 H2. unfold write_OSIP.
  destruct (update_checksum_ok _ Hok) as [_ Lu]. set (h := update_checksum osip) in *.
  eapply (wp_open_storage _ _ Hk); [done|done|exact Hw| |].
  { intros w' Hw' Hq. cbn [Z.ltb Z.compare]. apply wp_ret. apply (H2 0%nat); [lia| |done].
    by assert (splice 0 (take 0 h) data = data) as -> by (unfold splice; by rewrite take_0, drop_0). }
  intros fd w1 Hfd Hfr E1 E2 Hs Hq. replace (fd <? 0) with false by lia.
  eapply (wp_put_all _ _ k w0 true data fd w1 0 h); [done| | |done|done|done|lia|].
  { rewrite E2. by apply delete_insert_id. }
  { by rewrite E2, lookup_insert_eq. }
  intros j b w2 Hj Hb1 Hb2 F1 F2 (d & F3 & F4) F5 F6. destruct b; cbn [negb].
  - rewrite (Hb1 eq_refl), take_ge in F1 by lia.
    apply wp_fsync_storage. intros w3 r (U1 & U2 & U3) Hs3.
    eapply (wp_close_storage k w0 _ _ fd _ w3 d); [done|by rewrite U1|by rewrite U2|by rewrite U2|done|auto|auto|].
    intros w4 r' Hw4. apply wp_ret, H1, Hw4.
  - eapply (wp_close_storage k w0 _ _ fd _ w2 d); [done|exact F1|done|done|done|done|auto|].
    intros w4 r' Hw4. apply wp_ret. apply (H2 j); [lia|done|auto].
Qed.

Lemma header_of_splice h data : length h = sizeof_OSIP -> (sizeof_OSIP <= length data)%nat ->
  header_of (splice 0 h data) = h.
Proof.
  intros H Hl. unfold header_of. rewrite <-H. apply slice_splice_eq. lia.
Qed.

Lemma header_of_ok data : bytes_ok data -> (sizeof_OSIP <= length data)%nat -> header_ok (header_of data).
Proof. intros Hb Hl. split; [by apply bytes_ok_slice|]. unfold header_of. rewrite length_slice. lia. Qed.

(** C22: what [write_OSIP] stores [read_OSIP] reads back: on a working storage the header comes
    back as it was written, with its checksum; when a call fails, either function reports it. *)
Theorem osip_round_trip k w data osip :
  storage_kind k -> bytes_ok data -> (sizeof_OSIP <= length data)%nat ->
  w_files w !! MMC_DEV_POS = Some (mkFile k data) -> steady w -> header_ok osip ->
  wp (fun o w' => match o with
        | Ret (rc, Some (rc', h)) => rc = 0 /\ w_fds w' = w_fds w /\
            (rc' = 0 /\ h = update_checksum osip \/ rc' = -1 /\ ~ quiet w)
        | Ret (rc, None) => rc = -1 /\ w_fds w' = w_fds w /\ ~ quiet w
        | _ => False
        end)
    (let! rc := write_OSIP osip in
     if truthy rc then ret (rc, None) else
     let! r := read_OSIP in ret (rc, Some r)) w.
Proof.
  intros Hk Hb Hlen Hf Hs Hok.
  assert (Hw : on_storage k w data w) by (split; [by rewrite insert_id|done|done|done]).
  destruct (update_checksum_ok _ Hok) as [Bu Lu].
  apply wp_bind. eapply wp_write_OSIP; [done|done|done|exact Hw| |].
  - intros w' Hw'. cbn [truthy Z.eqb negb].
    assert (Eh : header_of (splice 0 (update_checksum osip) data) = update_checksum osip)
      by (by apply header_of_splice).
    eapply wp_read_OSIP; [done| | |exact Hw'| |].
    + by apply bytes_ok_splice.
    + rewrite length_splice; lia.
    + intros w2 Hw2 _. apply wp_ret. split; [done|]. split; [apply Hw2|]. left. by rewrite Eh.
    + intros w2 h Hw2 _ Hq. apply wp_ret. split; [done|]. split; [apply Hw2|]. right. split; [done|].
      intros H. apply (Hq H). rewrite Eh. by apply update_checksum_valid.
  - intros j w' Hj Hw' Hq. change (truthy (-1)) with true. cbv iota. apply wp_ret. split; [done|]. split; [apply Hw'|done].
Qed.

Lemma wp_unit {A} (Q : outcome A -> world -> Prop) m w : wp Q (bind m ret) w -> wp Q m w.
Proof. unfold wp, bind, ret. by destruct (m w) as [[a|c|] w']. Qed.

(** when one byte of a valid header on the storage has changed, [read_OSIP] reports -1. *)
Theorem read_OSIP_refuses_corruption k w data off b :
  storage_kind k -> bytes_ok data -> (sizeof_OSIP <= length data)%nat ->
  get_osip_crc (header_of data) = 0 -> (off < 224)%nat -> is_byte b -> getn 1 off data <> b ->
  w_files w !! MMC_DEV_POS = Some (mkFile k (splice off [b] data)) -> steady w ->
  wp (fun o w' => w_files w' = w_files w /\ w_fds w' = w_fds w /\ exists h, o = Ret (-1, h)) read_OSIP w.
Proof.
  intros Hk Hb Hlen Hc Ho Hbb Hne Hf Hs. unfold sizeof_OSIP in *.
  set (data' := splice off [b] data) in *.
  assert (Hl' : length data' = length data) by (apply length_splice; cbn [length]; lia).
  assert (Hw : on_storage k w data' w) by (split; [by rewrite insert_id|done|done|done]).
  assert (Eh : header_of data' = splice off [b] (header_of data)).
  { unfold header_of, slice, sizeof_OSIP. rewrite !drop_0. unfold data', splice. cbn [length].
    rewrite take_app, length_take, Nat.min_l by lia. rewrite take_take, Nat.min_r by lia.
    rewrite take_take, Nat.min_l by lia. f_equal.
    replace (224 - off)%nat with (S (224 - (off + 1))) by lia. cbn [app take]. f_equal.
    rewrite skipn_firstn_comm. done. }
  apply wp_unit. eapply wp_read_OSIP; [done| | |exact Hw| |].
  - apply bytes_ok_splice; [apply bytes_ok_cons; split; [done|constructor]|done].
  - unfold sizeof_OSIP. lia.
  - intros w' _ Hc'. exfalso. rewrite Eh in Hc'. revert Hc'. apply crc_detects_byte; try done.
    + by apply header_of_ok.
    + unfold getn, header_of, sizeof_OSIP. rewrite slice_slice_0 by lia. exact Hne.
  - intros w' h Hw' _ _. apply wp_ret. destruct Hw' as [F1 F2 _ _].
    split; [by rewrite F1, insert_id|]. split; [done|]. by exists h.
Qed.

(** ** Slots *)

Definition descs (osip : bytes) : list bytes :=
  map (fun k => desc (Z.of_nat k) osip) (seq 0 (Z.to_nat (num_pointers osip))).

(** The first slot no descriptor occupies. *)
Definition free_slot (slots : list Z) (slot_size : Z) (osip : bytes) : Z :=
  default 0 (head (filter (fun slot => existsb (occupies slot slot_size) (descs osip) = false) slots)).

Lemma slot_used_spec n i slot slot_size osip w : 0 <= i -> i + Z.of_nat n <= 8 ->
  slot_used n i slot slot_size osip w =
  (Ret (existsb (occupies slot slot_size) (map (fun k => desc (Z.of_nat k) osip) (seq (Z.to_nat i) n))), w).
Proof.
  revert i. induction n as [|n IH]; intros i Hi Hn; [done|].
  cbn [slot_used seq map existsb]. unfold bind, get_desc, in_range, MAX_OSIP_DESC.
  replace ((0 <=? i) && (i <? 8)) with true by lia. unfold ret at 1. rewrite Z2Nat.id by done.
  destruct (occupies slot slot_size (desc i osip)); [done|].
  rewrite IH by lia. by replace (Z.to_nat (i + 1)) with (S (Z.to_nat i)) by lia.
Qed.

Lemma get_free_lba_spec slots slot_size osip w : 0 <= num_pointers osip <= 8 ->
  get_free_lba slots slot_size osip w = (Ret (free_slot slots slot_size osip), w).
Proof.
  intros Hn. unfold free_slot. induction slots as [|slot slots IH]; [done|].
  cbn [get_free_lba]. unfold bind. rewrite slot_used_spec by lia. fold (descs osip).
  rewrite filter_cons. change (seq (Z.to_nat 0)) with (seq 0). fold (descs osip).
  destruct (existsb _ (descs osip)) eqn:E; [by rewrite decide_False|]. by rewrite decide_True.
Qed.

Lemma elem_of_descs o osip : o ∈ descs osip <->
  exists k, (Z.of_nat k < num_pointers osip) /\ o = desc (Z.of_nat k) osip.
Proof.
  unfold descs. rewrite list_elem_of_fmap. split.
  - intros (k & -> & H). exists k. apply elem_of_seq in H. split; [lia|done].
  - intros (k & H & ->). exists k. split; [done|]. apply elem_of_seq. lia.
Qed.

Lemma free_slot_some slots slot_size osip : free_slot slots slot_size osip <> 0 ->
  free_slot slots slot_size osip ∈ slots /\
  forall o, o ∈ descs osip -> occupies (free_slot slots slot_size osip) slot_size o = false.
Proof.
  unfold free_slot. set (l := filter _ slots). destruct l as [|s l'] eqn:E; [done|]. intros _. cbn [head default].
  assert (Hin : s ∈ l) by (rewrite E; by left). unfold l in Hin. apply list_elem_of_filter in Hin as [He Hs].
  split; [done|]. intros o Ho. apply not_true_iff_false. intros Eo.
  assert (Ht : existsb (occupies s slot_size) (descs osip) = true).
  { apply existsb_exists. exists o. split; [by apply list_elem_of_In|done]. }
  congruence.
Qed.

(** An image from block [lba] to [lba + 1 + size] that is no longer than a slot. *)
Definition fits_slot (slot_size : Z) (o : bytes) : Prop :=
  0 <= logical_start_block o /\ 0 <= size_of_os_image o /\ size_of_os_image o + 1 <= slot_size /\
  logical_start_block o + 1 + size_of_os_image o < 2 ^ 32.

Definition apart (slot slot_size : Z) (o : bytes) : Prop :=
  logical_start_block o + 1 + size_of_os_image o < slot \/ slot + slot_size <= logical_start_block o.

Lemma occupies_apart slot slot_size o : fits_slot slot_size o -> 0 < slot -> slot + slot_size < 2 ^ 32 ->
  occupies slot slot_size o = false -> apart slot slot_size o.
Proof.
  intros (H1 & H2 & H3 & H4) Hs Hm Ho. unfold occupies, u32 in Ho.
  rewrite !Z.mod_small in Ho by lia. unfold apart. lia.
Qed.

Lemma os_slots_spec s : s ∈ os_lba_slots <-> exists j, 0 <= j <= 8 /\ s = 4050 + 32000 * j.
Proof.
  unfold os_lba_slots. rewrite list_elem_of_fmap.
  assert (E : forall j, OS_START_OFFSET + OS_MAX_LBA * j = 4050 + 32000 * j) by done.
  split.
  - intros (j & -> & Hj). exists j. split; [|done]. revert Hj. rewrite !elem_of_cons, elem_of_nil. lia.
  - intros (j & Hj & ->). exists j. split; [done|]. rewrite !elem_of_cons, elem_of_nil. lia.
Qed.

(** the slot that is chosen for an update holds no block of an installed image, as long as no
    image is longer than a slot. *)
Theorem free_os_slot_is_free osip w :
  0 <= num_pointers osip <= 8 -> (forall o, o ∈ descs osip -> fits_slot OS_MAX_LBA o) ->
  wp (fun o w' => w' = w /\ exists slot, o = Ret slot /\
        (slot = 0 \/ slot ∈ os_lba_slots /\ forall d, d ∈ descs osip -> apart slot OS_MAX_LBA d))
     (get_free_os_lba osip) w.
Proof.
  intros Hn Hfit. unfold get_free_os_lba, wp. rewrite get_free_lba_spec by done. cbn [fst snd].
  split; [done|]. exists (free_slot os_lba_slots OS_MAX_LBA osip). split; [done|].
  set (slot := free_slot _ _ _). destruct (decide (slot = 0)) as [E|E]; [by left|]. right.
  destruct (free_slot_some os_lba_slots OS_MAX_LBA osip E) as [H1 H2]. fold slot in H1, H2.
  split; [done|]. intros d Hd. apply occupies_apart; auto.
  - apply os_slots_spec in H1 as (j & Hj & ->). lia.
  - apply os_slots_spec in H1 as (j & Hj & ->). unfold OS_MAX_LBA. lia.
Qed.

(** A descriptor in a slot of its own. *)
Definition in_slot (o : bytes) : Prop :=
  logical_start_block o ∈ os_lba_slots /\ 0 <= size_of_os_image o < OS_MAX_LBA - 1.

Lemma occupies_own s o : in_slot o -> s ∈ os_lba_slots -> occupies s OS_MAX_LBA o = true ->
  logical_start_block o = s.
Proof.
  intros [Ho Hsz] Hs. apply os_slots_spec in Ho as (i & Hi & Ei), Hs as (j & Hj & ->).
  unfold occupies, u32, OS_MAX_LBA in *. rewrite !Z.mod_small by lia. rewrite Ei. intros H.
  assert (i = j) by lia. lia.
Qed.


(** ** Storing an image *)

(** The storage is open at [fd] with offset [o]. *)
Record opened (k : fkind) (w0 : world) (fd : Z) (rd wr : bool) (data : bytes) (o : Z) (w : world) : Prop := {
  op_files : w_files w = <[ MMC_DEV_POS := mkFile k data ]> (w_files w0);
  op_fds : delete fd (w_fds w) = w_fds w0;
  op_fd : w_fds w !! fd = Some (mkFd MMC_DEV_POS o rd wr);
  op_off : 0 <= o;
  op_steady : steady w;
  op_quiet : quiet w0 -> quiet w
}.

Section Opened.
Context (k : fkind) (w0 : world) (fd : Z) (rd wr : bool) (Hfr : w_fds w0 !! fd = None).

Lemma opened_fd_file data o w : opened k w0 fd rd wr data o w ->
  fd_file w fd = Some (mkFd MMC_DEV_POS o rd wr, mkFile k data).
Proof using Type. intros [E1 _ E3 _ _ _]. unfold fd_file. rewrite E3. cbn. by rewrite E1, lookup_insert_eq. Qed.

Lemma opened_unmoved data o w w' : opened k w0 fd rd wr data o w -> unmoved w w' -> steady w' ->
  opened k w0 fd rd wr data o w'.
Proof using Type. intros [] (U1 & U2 & U3) Hs. split; rewrite ?U1, ?U2; auto. Qed.

Lemma opened_moved data o o' w w' : opened k w0 fd rd wr data o w -> 0 <= o' ->
  moved fd w (mkFd MMC_DEV_POS o rd wr) o' w' -> steady w' -> opened k w0 fd rd wr data o' w'.
Proof using Type.
  intros [] Ho (M1 & M2 & M3) Hs. split; rewrite ?M1, ?M2; auto.
  - by rewrite delete_insert_eq.
  - by rewrite lookup_insert_eq.
Qed.

Lemma wp_lseek_opened {B} (Q : outcome B -> world -> Prop) kont data o w off :
  opened k w0 fd rd wr data o w -> 0 <= off < 2 ^ 31 ->
  (forall w', opened k w0 fd rd wr data off w' -> wp Q (kont off) w') ->
  (forall w', opened k w0 fd rd wr data o w' -> ~ quiet w0 -> wp Q (kont (-1)) w') ->
  wp Q (bind (sys_lseek fd off) kont) w.
Proof using Type.
  intros Hw Hoff H1 H2. apply wp_bind. pose proof (opened_fd_file _ _ _ Hw) as Hfd.
  assert (Es : s64 off = off) by (apply s64_small; lia).
  assert (Hc : wp (fun x w' => exists r, x = Ret r /\ (r = -1 /\ unmoved w w' /\ ~ quiet w \/
    r = off /\ moved fd w (mkFd MMC_DEV_POS o rd wr) off w')) (sys_lseek fd off) w).
  { eapply wp_lseek; [exact Hfd| |]; rewrite Es.
    - intros w' Hu Hq. exists (-1). split; [done|]. left. split; [done|]. split; [done|].
      intros Hw0. specialize (Hq Hw0). lia.
    - intros w' _ Hm. exists off. split; [done|]. by right. }
  eapply wp_mono; [apply (wp_and _ (advanced w) _ _ Hc), advanced_lseek|].
  intros x w2 [(r & -> & Hr) Ha]. pose proof (advanced_steady _ _ Ha (op_steady _ _ _ _ _ _ _ _ Hw)) as Hs2.
  destruct Hr as [(-> & Hu & Hq)|(-> & Hm)].
  - apply H2; [by eapply opened_unmoved|]. intros H. apply Hq. by apply (op_quiet _ _ _ _ _ _ _ _ Hw).
  - apply H1. eapply opened_moved; [exact Hw|lia|exact Hm|exact Hs2].
Qed.

Lemma wp_close_opened {B} (Q : outcome B -> world -> Prop) kont data o w :
  opened k w0 fd rd wr data o w ->
  (forall w' r, on_storage k w0 data w' -> wp Q (kont r) w') -> wp Q (bind (sys_close fd) kont) w.
Proof using Hfr. intros [] H. by eapply (wp_close_storage k w0 _ _ fd data w). Qed.
End Opened.

Lemma wp_open_rw {B} (Q : outcome B -> world -> Prop) kont k w0 fl data w :
  storage_kind k -> o_creat fl = false -> o_trunc fl = false -> on_storage k w0 data w ->
  (forall w', on_storage k w0 data w' -> ~ quiet w0 -> wp Q (kont (-1)) w') ->
  (forall fd w1, 2 < fd -> w_fds w0 !! fd = None ->
     opened k w0 fd (o_read fl) (o_write fl) data 0 w1 -> wp Q (kont fd) w1) ->
  wp Q (bind (sys_open MMC_DEV_POS fl) kont) w.
Proof.
  intros Hk Hc Ht Hw H1 H2. eapply (wp_open_storage _ _ Hk); [done|done|exact Hw|done|].
  intros fd w1 Hfd Hfr E1 E2 Hs Hq. apply H2; [done|done|]. split; [done| | |lia|done|done].
  - rewrite E2. by apply delete_insert_id.
  - by rewrite E2, lookup_insert_eq.
Qed.

Lemma splice_nil off (l : bytes) : splice off [] l = l.
Proof. unfold splice. cbn. rewrite Nat.add_0_r. apply take_drop. Qed.

(** What [destroy_the_osip_backup] may store: at most four bytes in the first block, at the place
    of the backup header when no call fails. *)
Definition patched (w0 : world) (data data' : bytes) : Prop :=
  exists p b, data' = splice p b data /\ (length b <= 4)%nat /\ (p <= 228)%nat /\ bytes_ok b /\
    (quiet w0 -> p = 224%nat).

Lemma patched_refl w0 data : patched w0 data data.
Proof. exists 224%nat, []. rewrite splice_nil. split_and!; try done; cbn; try lia. constructor. Qed.

(** The write itself, from offset [o]. *)
Lemma wp_patch k w0 fd data o w :
  bytes_ok data -> (512 <= length data)%nat -> opened k w0 fd true true data o w -> o <= 228 ->
  (quiet w0 -> o = 224) ->
  wp (fun x w' => exists r data' o', x = Ret r /\ patched w0 data data' /\
        opened k w0 fd true true data' o' w') (sys_write fd (le_enc 4 0xffffffff)) w.
Proof.
  intros Hb Hlen Hop Hle Hqq. pose proof (op_off _ _ _ _ _ _ _ _ Hop) as Hpos.
  pose proof (opened_fd_file _ _ _ _ _ _ _ _ Hop) as Hfd.
  assert (Hc : wp (fun x w' => (x = Ret (-1) /\ unmoved w w') \/
    exists n, x = Ret (Z.of_nat n) /\
      w_files w' = <[ MMC_DEV_POS := mkFile k (splice (Z.to_nat o) (take n (le_enc 4 0xffffffff)) data) ]> (w_files w) /\
      w_fds w' = <[ fd := mkFd MMC_DEV_POS (o + Z.of_nat n) true true ]> (w_fds w) /\ (quiet w -> quiet w'))
    (sys_write fd (le_enc 4 0xffffffff)) w).
  { eapply wp_write; [exact Hfd|done|done|done|cbn; lia| |].
    - intros w' Hu _. by left.
    - intros w' n _ _ F1 F2 F3. right. by exists n. }
  eapply wp_mono; [apply (wp_and _ (advanced w) _ _ Hc), advanced_write|].
  intros x w' [Hx Ha]. pose proof (advanced_steady _ _ Ha (op_steady _ _ _ _ _ _ _ _ Hop)) as Hs.
  destruct Hx as [[-> Hu]|(n & -> & F1 & F2 & F3)].
  - exists (-1), data, o. split; [done|]. split; [apply patched_refl|]. by eapply opened_unmoved.
  - exists (Z.of_nat n), (splice (Z.to_nat o) (take n (le_enc 4 0xffffffff)) data), (o + Z.of_nat n).
    split; [done|]. split.
    + exists (Z.to_nat o), (take n (le_enc 4 0xffffffff)). split; [done|].
      split; [rewrite length_take, length_le_enc; lia|]. split; [lia|].
      split; [apply bytes_ok_take, le_enc_ok|]. intros Hw0. specialize (Hqq Hw0). lia.
    + destruct Hop as [P1 P2 P3 P4 P5 P6]. split; [by rewrite F1, P1, insert_insert_eq| | |lia|done|auto].
      * by rewrite F2, delete_insert_eq.
      * by rewrite F2, lookup_insert_eq.
Qed.

(** From the first seek on, which leaves the offset at 0 when it fails. *)
Lemma wp_destroy_from {B} (Q : outcome B -> world -> Prop) kont k w0 fd data o w :
  bytes_ok data -> (512 <= length data)%nat -> w_fds w0 !! fd = None ->
  opened k w0 fd true true data o w -> o = 0 \/ o = 224 -> (o = 0 -> ~ quiet w0) ->
  (forall w' r data', on_storage k w0 data' w' -> patched w0 data data' -> wp Q (kont r) w') ->
  wp Q (bind (let! (r, b) := safe_read fd 4 in
    if truthy r then sys_close fd ;; ret (-1) else
    (if le_dec b =? OSIP_SIG then
       sys_lseek fd OSIP_BACKUP_OFFSET ;; sys_write fd (le_enc 4 0xffffffff) ;; ret tt
     else ret tt) ;;
    sys_close fd ;; ret 0) kont) w.
Proof.
  intros Hb Hlen Hfr Hop Ho Hnq H. apply wp_assoc, wp_bind.
  pose proof (opened_fd_file _ _ _ _ _ _ _ _ Hop) as Hfd.
  assert (Hf : w_files w !! MMC_DEV_POS = Some (mkFile k data))
    by (rewrite (op_files _ _ _ _ _ _ _ _ Hop); apply lookup_insert_eq).
  eapply wp_mono.
  { apply (wp_safe_read fd MMC_DEV_POS true w (mkFile k data) Hf (Z.to_nat o) 4 w); [lia|].
    split; [|split; [apply Hop|]].
    - split; [done|done|done|]. exists o. split; [lia|]. apply Hop.
    - rewrite Nat.add_0_r, Z2Nat.id by lia. exact Hfd. }
  intros x w3 (Hs3 & Hst3 & rc & b & -> & Hbl & Hbe & Hrc). destruct Hs3 as [S1 S2 S3 (o3 & Ho3 & S4)].
  assert (Hop3 : opened k w0 fd true true data o3 w3).
  { destruct Hop as [P1 P2 P3 P4 P5 P6]. split; [congruence|congruence|done|done|done|auto]. }
  assert (Hclose : forall o4 data' w4 (r : Z), opened k w0 fd true true data' o4 w4 -> patched w0 data data' ->
    wp Q (bind (sys_close fd ;; ret r) kont) w4).
  { intros o4 data' w4 r Hop4 Hpt. apply wp_assoc. eapply wp_close_opened; [done|exact Hop4|].
    intros w5 r' Hw5. apply wp_bind, wp_ret. by eapply H. }
  destruct Hrc as [(-> & Hl & Hfd3)|[-> _]]; cbn [truthy Z.eqb negb]; cycle 1.
  { eapply Hclose; [exact Hop3|apply patched_refl]. }
  assert (E3 : o3 = o + 4).
  { unfold fd_file in Hfd3. rewrite S4 in Hfd3. cbn in Hfd3. rewrite S1, Hf in Hfd3.
    injection Hfd3 as E3. lia. }
  apply wp_assoc. destruct (le_dec b =? OSIP_SIG); cycle 1.
  { apply wp_bind, wp_ret. eapply Hclose; [exact Hop3|apply patched_refl]. }
  assert (Hwrite : forall o4 w4, opened k w0 fd true true data o4 w4 -> o4 <= 228 -> (quiet w0 -> o4 = 224) ->
    wp Q (let! _ := (let! _ := sys_write fd (le_enc 4 0xffffffff) in ret tt) in
          bind (sys_close fd ;; ret 0) kont) w4).
  { intros o4 w4 Hop4 Hle Hqq. apply wp_assoc, wp_bind. eapply wp_mono; [by eapply wp_patch|].
    intros x w5 (r & data' & o5 & -> & Hpt & Hop5). apply wp_bind, wp_ret. by eapply Hclose. }
  apply wp_assoc. change OSIP_BACKUP_OFFSET with 224.
  eapply wp_lseek_opened; [exact Hop3|lia| |].
  - intros w4 Hop4. apply (Hwrite 224 w4); [exact Hop4|lia|done].
  - intros w4 Hop4 Hq4. apply (Hwrite o3 w4); [exact Hop4|lia|done].
Qed.

Lemma wp_destroy_backup {B} (Q : outcome B -> world -> Prop) kont k w0 data w :
  storage_kind k -> bytes_ok data -> (512 <= length data)%nat -> on_storage k w0 data w ->
  (forall w' r data', on_storage k w0 data' w' -> patched w0 data data' -> wp Q (kont r) w') ->
  wp Q (bind destroy_the_osip_backup kont) w.
Proof.
  intros Hk Hb Hlen Hw H. unfold destroy_the_osip_backup. apply wp_assoc.
  eapply wp_open_rw; [done|done|done|exact Hw| |].
  { intros w' Hw' Hq. cbn [Z.ltb Z.compare]. apply wp_bind, wp_ret. eapply H; [exact Hw'|apply patched_refl]. }
  intros fd w1 Hfd Hfr Hop. replace (fd <? 0) with false by lia. cbn [o_read o_write O_RDWR] in Hop.
  apply wp_assoc. change OSIP_BACKUP_OFFSET with 224 at 1.
  eapply wp_lseek_opened; [exact Hop|lia| |].
  - intros w2 Hop2. by eapply (wp_destroy_from _ _ k w0 fd data 224 w2); [..|right|lia|].
  - intros w2 Hop2 Hq. by eapply (wp_destroy_from _ _ k w0 fd data 0 w2); [..|left| |].
Qed.

(** ** Writing a stitched image *)

(** [blob] stored from block [lba] on, then the header. *)
Lemma wp_store_image k w0 data w osip osii blob (P : outcome Z -> world -> Prop) :
  storage_kind k -> header_ok osip -> (sizeof_OSIP <= length data)%nat -> on_storage k w0 data w ->
  0 <= logical_start_block osii < 2 ^ 22 ->
  (Z.to_nat (logical_start_block osii * 512) + length blob <= length data)%nat ->
  (forall w', on_storage k w0 (splice 0 (update_checksum osip)
     (splice (Z.to_nat (logical_start_block osii * 512)) blob data)) w' -> P (Ret 0) w') ->
  (forall i j w', (i <= length blob)%nat -> (j <= sizeof_OSIP)%nat ->
     on_storage k w0 (splice 0 (take j (update_checksum osip))
       (splice (Z.to_nat (logical_start_block osii * 512)) (take i blob) data)) w' ->
     ~ quiet w0 -> P (Ret (-1)) w') ->
  wp P (store_image osip osii blob) w.
Proof.
  intros Hk Hok Hlen Hw Hlba Hfit H1 H2. unfold store_image.
  assert (Hoff : s32 (u32 (logical_start_block osii * LBA_SIZE)) = logical_start_block osii * 512).
  { unfold LBA_SIZE, s32, u32, to_signed. rewrite Zmod_mod, Z.mod_small by lia.
    change (2 ^ (32 - 1)) with (2 ^ 31). destruct (Z.ltb_spec (logical_start_block osii * 512) (2 ^ 31)); lia. }
  rewrite Hoff. set (off := logical_start_block osii * 512) in *.
  assert (Hstop : forall w', on_storage k w0 data w' -> ~ quiet w0 -> P (Ret (-1)) w').
  { intros w' Hw' Hq. apply (H2 0%nat 0%nat); [lia|unfold sizeof_OSIP; lia| |done].
    by rewrite !take_0, !splice_nil. }
  eapply wp_open_rw; [done|done|done|exact Hw| |].
  { intros w' Hw' Hq. cbn [Z.ltb Z.compare]. by apply wp_ret, Hstop. }
  intros fd w1 Hfd Hfr Hop. replace (fd <? 0) with false by lia. cbn [o_read o_write O_RDWR] in Hop.
  eapply wp_lseek_opened; [exact Hop|lia| |].
  2:{ intros w2 Hop2 Hq. cbn [Z.ltb Z.compare]. eapply wp_close_opened; [done|exact Hop2|].
      intros w3 r Hw3. by apply wp_ret, Hstop. }
  intros w2 Hop2. replace (off <? 0) with false by lia. destruct Hop2 as [P1 P2 P3 P4 P5 P6].
  eapply (wp_put_all _ _ k w0 true data fd w2 (Z.to_nat off) blob); [done|done| |done|done|done|lia|].
  { by rewrite Z2Nat.id by lia. }
  intros i b w3 Hi Hb1 Hb2 F1 F2 (d & F3 & F4) F5 F6. destruct b; cbn [negb].
  - rewrite (Hb1 eq_refl), take_ge in F1 by lia.
    apply wp_fsync_storage. intros w4 r (U1 & U2 & U3) Hs4.
    eapply (wp_close_storage k w0 _ _ fd _ w4 d); [done|by rewrite U1|by rewrite U2|by rewrite U2|done|auto|auto|].
    intros w5 r' Hw5. eapply wp_write_OSIP; [done|done| |exact Hw5|done|].
    + rewrite length_splice; lia.
    + intros j w6 Hj Hw6 Hq. apply (H2 (length blob) j); [lia|done| |done]. by rewrite (take_ge blob) by lia.
  - eapply (wp_close_storage k w0 _ _ fd _ w3 d); [done|exact F1|done|done|done|done|auto|].
    intros w5 r' Hw5. apply wp_ret. apply (H2 i 0%nat); [done|unfold sizeof_OSIP; lia| |by apply Hb2].
    by rewrite take_0, splice_nil.
Qed.

(** ** The header after an update *)

Definition osii_ok (o : bytes) : Prop := bytes_ok o /\ length o = sizeof_OSII.

Lemma desc_ok i h : header_ok h -> 0 <= i < 8 -> osii_ok (desc i h).
Proof.
  intros [B L] Hi. unfold sizeof_OSIP in *. split; [by apply bytes_ok_slice|].
  unfold desc, desc_off, sizeof_OSII. rewrite length_slice. lia.
Qed.

Lemma set_desc_ok i o h : header_ok h -> osii_ok o -> 0 <= i < 8 -> header_ok (set_desc i o h).
Proof.
  intros [B L] [Bo Lo] Hi. unfold sizeof_OSIP, sizeof_OSII in *. unfold set_desc, desc_off, sizeof_OSII.
  split; [by apply bytes_ok_splice|]. unfold sizeof_OSIP. rewrite length_splice; lia.
Qed.

Lemma desc_set_same i o h : header_ok h -> osii_ok o -> 0 <= i < 8 -> desc i (set_desc i o h) = o.
Proof.
  intros [B L] [Bo Lo] Hi. unfold sizeof_OSIP, sizeof_OSII in *. unfold desc, set_desc.
  replace sizeof_OSII with (length o). apply slice_splice_eq. unfold desc_off, sizeof_OSII. lia.
Qed.

Lemma desc_put i n off v h : header_ok h -> (off + n <= 32)%nat -> 0 <= i < 8 ->
  desc i (putn n off v h) = desc i h.
Proof.
  intros [B L] Ho Hi. unfold sizeof_OSIP in *. unfold desc, desc_off, sizeof_OSII. apply slice_putn_ne; lia.
Qed.

Lemma num_pointers_desc i o h : header_ok h -> osii_ok o -> 0 <= i < 8 ->
  num_pointers (set_desc i o h) = num_pointers h.
Proof.
  intros [B L] [Bo Lo] Hi. unfold sizeof_OSIP, sizeof_OSII in *. unfold num_pointers, set_desc, desc_off, sizeof_OSII.
  apply getn_splice_ne; lia.
Qed.

Lemma set_pointers_ok n h : header_ok h -> header_ok (set_pointers n h).
Proof. intros H. unfold set_pointers. by repeat (apply header_ok_put; [|lia]). Qed.

Lemma num_pointers_set n h : header_ok h -> 0 <= n < 256 -> num_pointers (set_pointers n h) = n.
Proof.
  intros [B L] Hn. unfold sizeof_OSIP in *. unfold num_pointers, set_pointers, set_header_size, set_num_pointers.
  rewrite getn_putn_ne by (rewrite ?length_putn; lia). apply getn_putn_small; [lia|done].
Qed.

Lemma desc_set_pointers i n h : header_ok h -> 0 <= i < 8 -> desc i (set_pointers n h) = desc i h.
Proof.
  intros H Hi. unfold set_pointers, set_header_size, set_num_pointers.
  rewrite desc_put; [|apply header_ok_put; [done|lia]|lia|done]. apply desc_put; [done|lia|done].
Qed.

Lemma update_checksum_keeps i h : header_ok h -> 0 <= i < 8 ->
  desc i (update_checksum h) = desc i h /\ num_pointers (update_checksum h) = num_pointers h.
Proof.
  intros H Hi. unfold update_checksum, set_header_checksum. split.
  - rewrite desc_put; [|apply header_ok_put; [done|lia]|lia|done]. apply desc_put; [done|lia|done].
  - destruct H as [B L]. unfold sizeof_OSIP in *. unfold num_pointers.
    rewrite !getn_putn_ne by (rewrite ?length_putn; lia). done.
Qed.

(** A descriptor of another kind is moved to the end of the list, where there must be room. *)
Definition has_room (osip osii : bytes) (idx : Z) : Prop :=
  let old := attribute (desc idx osip) in
  is_os_attr old || (without_sign old =? without_sign ATTR_NOTUSED) ||
    (without_sign old =? without_sign (attribute osii)) = true \/
  Z.max (num_pointers osip) (idx + 1) < 8.

Lemma osii_field_put n off v o m o2 : osii_ok o -> (off + n <= 24)%nat -> (o2 + m <= off \/ off + n <= o2)%nat ->
  getn m o2 (putn n off v o) = getn m o2 o.
Proof. intros [B L] H1 H2. unfold sizeof_OSII in *. apply getn_putn_ne; lia. Qed.

Lemma osii_ok_put n off v o : osii_ok o -> (off + n <= 24)%nat -> osii_ok (putn n off v o).
Proof.
  intros [B L] H. unfold sizeof_OSII in *. split; [by apply bytes_ok_putn|]. unfold sizeof_OSII. rewrite length_putn; lia.
Qed.

(** What the new header says about descriptor [idx]. *)
Definition placed (osii : bytes) (idx : Z) (osip' osii' : bytes) : Prop :=
  header_ok osip' /\ desc idx osip' = osii' /\ 0 <= idx < num_pointers osip' /\
  logical_start_block osii' = logical_start_block osii /\
  size_of_os_image osii' = size_of_os_image osii /\ attribute osii' = attribute osii.

Lemma put_desc_eq h i o : 0 <= i < 8 -> put_desc h i o = ret (set_desc i o h).
Proof. intros H. unfold put_desc, in_range, MAX_OSIP_DESC. by replace ((0 <=? i) && (i <? 8)) with true by lia. Qed.

Lemma get_desc_eq h i : 0 <= i < 8 -> get_desc h i = ret (desc i h).
Proof. intros H. unfold get_desc, in_range, MAX_OSIP_DESC. by replace ((0 <=? i) && (i <? 8)) with true by lia. Qed.

Lemma wp_place_osii {B} (Q : outcome B -> world -> Prop) kont osip osii idx w :
  header_ok osip -> osii_ok osii -> 0 <= num_pointers osip <= 8 -> 0 <= idx < 8 -> has_room osip osii idx ->
  (forall osip' osii', placed osii idx osip' osii' -> wp Q (kont (osip', osii')) w) ->
  wp Q (bind (place_osii osip osii idx) kont) w.
Proof.
  intros Hh Ho Hn Hi Hroom H. unfold place_osii. rewrite get_desc_eq by done. set (old := desc idx osip) in *.
  apply wp_assoc, wp_bind, wp_ret.
  set (s := if num_pointers osip <=? idx then _ else _).
  assert (Hs : exists h o, s = (h, o) /\ header_ok h /\ osii_ok o /\ desc idx h = old /\
    idx < num_pointers h /\ num_pointers h = Z.max (num_pointers osip) (idx + 1) /\
    logical_start_block o = logical_start_block osii /\ size_of_os_image o = size_of_os_image osii /\
    attribute o = attribute osii).
  { unfold s. destruct (Z.leb_spec (num_pointers osip) idx).
    - exists (set_pointers (idx + 1) osip), osii. split; [done|]. split; [by apply set_pointers_ok|].
      split; [done|]. split; [by apply desc_set_pointers|]. rewrite num_pointers_set by (done || lia).
      split_and!; try done; lia.
    - destruct ((ddr_load_address old =? 0) && (entry_point old =? 0)).
      + exists osip. eexists. split; [done|]. split; [done|].
        split; [apply osii_ok_put; [apply osii_ok_put; [done|lia]|lia]|]. split; [done|]. split; [lia|]. split; [lia|].
        unfold logical_start_block, size_of_os_image, attribute, set_entry_point, set_ddr_load_address.
        rewrite !osii_field_put; (done || lia || (by apply osii_ok_put; [|lia])).
      + exists osip, osii. split_and!; try done; lia. }
  destruct Hs as (h & o & -> & Hh' & Ho' & Hold & Hlt & Hmax & E1 & E2 & E3).
  assert (Hroom' : is_os_attr (attribute old) || (without_sign (attribute old) =? without_sign ATTR_NOTUSED) ||
     (without_sign (attribute old) =? without_sign (attribute o)) = true \/ num_pointers h < 8).
  { rewrite E3, Hmax. exact Hroom. }
  destruct (is_os_attr (attribute old) || _ || _).
  - rewrite put_desc_eq by done. apply wp_assoc, wp_bind, wp_ret, wp_bind, wp_ret, H.
    split; [by apply set_desc_ok|]. split; [by apply desc_set_same|]. rewrite num_pointers_desc by done.
    split_and!; try done; lia.
  - destruct Hroom' as [?|Hr]; [done|]. rewrite put_desc_eq by lia.
    apply wp_assoc, wp_bind, wp_ret. rewrite put_desc_eq by done. apply wp_assoc, wp_bind, wp_ret, wp_bind, wp_ret, H.
    assert (Hold' : osii_ok old) by (by apply desc_ok).
    assert (K1 : header_ok (set_desc (num_pointers h) old h)) by (apply set_desc_ok; (done || lia)).
    assert (K2 : header_ok (set_desc idx o (set_desc (num_pointers h) old h))) by (by apply set_desc_ok).
    split; [by apply set_pointers_ok|]. split; [rewrite desc_set_pointers by done; by apply desc_set_same|].
    rewrite num_pointers_set; [|done|]; rewrite !num_pointers_desc by (done || lia); [|lia].
    split_and!; try done; lia.
Qed.

(** ** The update as a whole *)

(** An installed image does not stretch over a whole slot and beyond on both sides. *)
Definition covers (slot slot_size : Z) (o : bytes) : Prop :=
  logical_start_block o < slot /\ slot + slot_size <= logical_start_block o + 1 + size_of_os_image o.

Record installed_ok (o : bytes) : Prop := {
  in_width : logical_start_block o + 1 + size_of_os_image o < 2 ^ 32;
  in_os s : s ∈ os_lba_slots -> ~ covers s OS_MAX_LBA o;
  in_fw s : s ∈ fw_lba_slots -> ~ covers s FW_MAX_LBA o
}.

Lemma fw_slots_spec s : s ∈ fw_lba_slots <-> s = 50 \/ s = 2050.
Proof. unfold fw_lba_slots. rewrite !elem_of_cons, elem_of_nil. change (FW_START_OFFSET + FW_MAX_LBA * 0) with 50.
  change (FW_START_OFFSET + FW_MAX_LBA * 1) with 2050. lia. Qed.

(** A slot away from every installed image. *)
Definition free_for (osip : bytes) (slot slot_size : Z) : Prop :=
  50 <= slot < 2 ^ 22 /\ slot + slot_size <= 292050 /\ 0 <= slot_size <= OS_MAX_LBA /\
  forall o, o ∈ descs osip -> apart slot slot_size o.

Lemma uncovered_apart slot slot_size o : osii_ok o ->
  logical_start_block o + 1 + size_of_os_image o < 2 ^ 32 -> ~ covers slot slot_size o ->
  0 < slot -> 0 <= slot_size -> slot + slot_size < 2 ^ 32 -> occupies slot slot_size o = false ->
  apart slot slot_size o.
Proof.
  intros [B _] Hw Hc Hs H0 Hm Ho. pose proof (getn_bound 4 4 o B) as H1. pose proof (getn_bound 4 16 o B) as H2.
  unfold occupies, covers, apart, u32, logical_start_block, size_of_os_image in *.
  rewrite !Z.mod_small in Ho by lia. lia.
Qed.

Lemma descs_ok o osip : header_ok osip -> num_pointers osip <= 8 -> o ∈ descs osip -> osii_ok o.
Proof. intros H Hn Ho. apply elem_of_descs in Ho as (k & Hk & ->). apply desc_ok; [done|lia]. Qed.

Lemma free_slot_for slots slot_size osip :
  header_ok osip -> num_pointers osip <= 8 -> (forall o, o ∈ descs osip -> installed_ok o) ->
  (slots = os_lba_slots /\ slot_size = OS_MAX_LBA \/ slots = fw_lba_slots /\ slot_size = FW_MAX_LBA) ->
  free_slot slots slot_size osip <> 0 -> free_for osip (free_slot slots slot_size osip) slot_size.
Proof.
  intros Hh Hn Hin Hk H. destruct (free_slot_some _ _ _ H) as [H1 H2].
  revert H H1 H2. generalize (free_slot slots slot_size osip). intros slot H H1 H2.
  assert (Hb : 50 <= slot < 2 ^ 22 /\ slot + slot_size <= 292050 /\ 0 <= slot_size <= OS_MAX_LBA).
  { unfold OS_MAX_LBA, FW_MAX_LBA in *. destruct Hk as [[-> ->]|[-> ->]].
    - clear - H1. apply os_slots_spec in H1 as (j & Hj & ->). lia.
    - clear - H1. apply fw_slots_spec in H1. lia. }
  destruct Hb as (B1 & B2 & B3). split; [done|]. split; [done|]. split; [done|]. intros o Ho.
  destruct (Hin o Ho) as [I1 I2 I3]. apply uncovered_apart; [by eapply descs_ok|done| |lia|lia|lia|by apply H2].
  destruct Hk as [[-> ->]|[-> ->]]; auto.
Qed.

Lemma wp_choose_slot {B} (Q : outcome B -> world -> Prop) kont attr osip w :
  header_ok osip -> 0 <= num_pointers osip <= 8 -> (forall o, o ∈ descs osip -> installed_ok o) ->
  (forall r, (forall slot max, r = Some (slot, max) -> slot = 0 \/ free_for osip slot max) -> wp Q (kont r) w) ->
  wp Q (bind (choose_slot attr false osip) kont) w.
Proof.
  intros Hh Hn Hin H. unfold choose_slot.
  destruct (is_os_attr attr || _).
  - apply wp_assoc, wp_bind. unfold get_free_os_lba, wp at 1. rewrite get_free_lba_spec by done. cbn [fst snd].
    apply wp_bind, wp_ret, H. intros slot max [= <- <-].
    destruct (decide (free_slot os_lba_slots OS_MAX_LBA osip = 0)) as [E|E]; [by left|right].
    apply free_slot_for; (done || lia || auto).
  - destruct (is_fw_attr attr).
    + apply wp_assoc, wp_bind. unfold get_free_fw_lba, wp at 1. rewrite get_free_lba_spec by done. cbn [fst snd].
      apply wp_bind, wp_ret, H. intros slot max [= <- <-].
      destruct (decide (free_slot fw_lba_slots FW_MAX_LBA osip = 0)) as [E|E]; [by left|right].
      apply free_slot_for; (done || lia || auto).
    + apply wp_bind, wp_ret, H. done.
Qed.

(** The blocks of an image. *)
Definition image_of (o data : bytes) : bytes :=
  slice (Z.to_nat (logical_start_block o * 512)) (Z.to_nat ((size_of_os_image o + 1) * 512)) data.

(** Storage the size of all slots whose header, if valid, describes at most eight images. *)
Record storage_ok (data : bytes) : Prop := {
  sg_bytes : bytes_ok data;
  sg_size : 292050 * 512 <= Z.of_nat (length data);
  sg_pointers : get_osip_crc (header_of data) = 0 -> num_pointers (header_of data) <= 8;
  sg_images o : get_osip_crc (header_of data) = 0 -> o ∈ descs (header_of data) -> installed_ok o
}.

(** A package with one image, as long as it says. *)
Record package_ok (pkg : bytes) : Prop := {
  pk_bytes : bytes_ok pkg;
  pk_size : 512 <= Z.of_nat (length pkg) < 2 ^ 31;
  pk_single : num_pointers pkg = 1
}.

Definition update_result (w : world) (data pkg : bytes) (idx rc : Z) (data' : bytes) : Prop :=
  length data' = length data /\
  (get_osip_crc (header_of data) = 0 -> forall o, o ∈ descs (header_of data) ->
     1 <= logical_start_block o -> image_of o data' = image_of o data) /\
  (rc = 0 /\ get_osip_crc (header_of data') = 0 /\ 0 <= idx < num_pointers (header_of data') /\
     (let o := desc idx (header_of data') in
      attribute o = attribute (desc 0 pkg) /\
      slice (Z.to_nat (logical_start_block o * 512)) (Z.to_nat (size_of_os_image o * 512)) data' = drop 512 pkg) \/
   rc = -1 /\ (quiet w -> header_of data' = header_of data)).

Lemma image_splice o off new data : 0 <= logical_start_block o -> 0 <= size_of_os_image o ->
  (off + length new <= length data)%nat ->
  (Z.of_nat (off + length new) <= logical_start_block o * 512 \/
   (logical_start_block o + 1 + size_of_os_image o) * 512 <= Z.of_nat off) ->
  image_of o (splice off new data) = image_of o data.
Proof. intros H1 H2 Hl Hd. unfold image_of. apply slice_splice_ne; lia. Qed.

(** Whatever part of the image and of the header is written, the installed images stay. *)
Lemma images_kept w data data1 h blob slot slot_size o :
  storage_ok data -> patched w data data1 -> (length h <= 224)%nat ->
  50 <= slot -> slot + slot_size <= 292050 -> Z.of_nat (length blob) <= slot_size * 512 ->
  osii_ok o -> 1 <= logical_start_block o -> apart slot slot_size o ->
  image_of o (splice 0 h (splice (Z.to_nat (slot * 512)) blob data1)) = image_of o data.
Proof.
  intros [Hb Hsz _ _] (p & b & -> & Lb & Hp & _ & _) Hh Hs He Hl [Bo _] Ho Ha.
  pose proof (getn_bound 4 16 o Bo) as H2. unfold size_of_os_image in *.
  set (d1 := splice p b data).
  assert (L1 : length d1 = length data) by (apply length_splice; lia).
  set (d2 := splice (Z.to_nat (slot * 512)) blob d1).
  assert (L2 : length d2 = length data) by (unfold d2; rewrite length_splice; lia).
  unfold apart, size_of_os_image in Ha.
  rewrite image_splice; unfold size_of_os_image; [|lia..].
  unfold d2. rewrite image_splice; unfold size_of_os_image; [|lia|lia|rewrite L1; lia|lia].
  unfold d1. apply image_splice; unfold size_of_os_image; lia.
Qed.

Lemma patched_header w data data1 : quiet w -> (512 <= length data)%nat -> patched w data data1 ->
  header_of data1 = header_of data.
Proof.
  intros Hq Hl (p & b & -> & Lb & Hp & _ & Hp'). rewrite (Hp' Hq). unfold header_of, sizeof_OSIP.
  apply slice_splice_ne; lia.
Qed.

Lemma patched_length w data data1 : (512 <= length data)%nat -> patched w data data1 -> length data1 = length data.
Proof. intros Hl (p & b & -> & Lb & Hp & _). apply length_splice. lia. Qed.

(** The storage after a complete update. *)
Lemma update_done w data data1 pkg idx slot slot_size osip' osii' :
  storage_ok data -> package_ok pkg -> patched w data data1 ->
  free_for (header_of data) slot slot_size -> get_osip_crc (header_of data) = 0 ->
  size_of_os_image (desc 0 pkg) <= slot_size ->
  size_of_os_image (desc 0 pkg) * 512 = Z.of_nat (length pkg) - 512 ->
  0 <= idx < 8 -> placed (set_logical_start_block slot (desc 0 pkg)) idx osip' osii' ->
  update_result w data pkg idx 0 (splice 0 (update_checksum osip')
    (splice (Z.to_nat (slot * 512)) (drop 512 pkg) data1)).
Proof.
  intros Hst Hpk Hpt (F1 & F2 & F3 & F4) Hc Hn Hlen Hi (Q1 & Q2 & Q3 & Q4 & Q5 & Q6).
  pose proof (sg_size _ Hst) as Hsz. pose proof (patched_length w data data1 ltac:(lia) Hpt) as L1.
  pose proof (pk_size _ Hpk) as Hps.
  destruct (update_checksum_ok _ Q1) as [Bu Lu]. unfold sizeof_OSIP in Lu.
  assert (Hp0 : osii_ok (desc 0 pkg)).
  { split; [apply bytes_ok_slice, Hpk|]. unfold desc, desc_off, sizeof_OSII. rewrite length_slice. lia. }
  assert (Lb : Z.of_nat (length (drop 512 pkg)) = size_of_os_image (desc 0 pkg) * 512) by (rewrite length_drop; lia).
  set (d2 := splice (Z.to_nat (slot * 512)) (drop 512 pkg) data1).
  assert (L2 : length d2 = length data) by (unfold d2; rewrite length_splice; lia).
  assert (Hhead : header_of (splice 0 (update_checksum osip') d2) = update_checksum osip').
  { apply header_of_splice; unfold sizeof_OSIP; lia. }
  split; [rewrite length_splice; lia|]. split.
  - intros _ o Ho Hlba. eapply images_kept; try done; [lia|lia|lia| |by apply F4].
    eapply descs_ok; [|by apply (sg_pointers _ Hst)|done].
    apply header_of_ok; [apply Hst|unfold sizeof_OSIP; lia].
  - left. rewrite Hhead. destruct (update_checksum_keeps idx osip' Q1 Hi) as [K1 K2].
    split; [done|]. split; [by apply update_checksum_valid|]. rewrite K2. split; [done|]. rewrite K1, Q2. cbv zeta.
    rewrite Q6, Q4, Q5.
    unfold set_logical_start_block, attribute, logical_start_block, size_of_os_image in *.
    rewrite !(osii_field_put _ _ _ (desc 0 pkg)) by (done || lia).
    split; [done|].
    assert (Esize : getn 4 16 (putn 4 4 slot (desc 0 pkg)) = getn 4 16 (desc 0 pkg))
      by (apply osii_field_put; [done|lia|lia]).
    assert (Eslot : getn 4 4 (putn 4 4 slot (desc 0 pkg)) = slot).
    { apply getn_putn_small; [destruct Hp0 as [_ L0]; unfold sizeof_OSII in L0; lia|lia]. }
    rewrite Eslot, Esize, slice_splice_ne by lia.
    pose proof (slice_splice_eq (Z.to_nat (slot * 512)) (drop 512 pkg) data1 ltac:(lia)) as E. fold d2 in E.
    replace (Z.to_nat (getn 4 16 (desc 0 pkg) * 512)) with (length (drop 512 pkg)) by lia. exact E.
Qed.

(** After a failure. *)
Lemma update_failed w data data1 pkg idx h blob slot slot_size :
  storage_ok data -> patched w data data1 -> (length h <= 224)%nat ->
  (get_osip_crc (header_of data) = 0 -> free_for (header_of data) slot slot_size) ->
  50 <= slot -> slot + slot_size <= 292050 ->
  Z.of_nat (length blob) <= slot_size * 512 -> ~ quiet w \/ h = [] /\ blob = [] ->
  update_result w data pkg idx (-1) (splice 0 h (splice (Z.to_nat (slot * 512)) blob data1)).
Proof.
  intros Hst Hpt Hh Hf H50 Hend Hb Hq. pose proof (sg_size _ Hst) as Hsz.
  pose proof (patched_length w data data1 ltac:(lia) Hpt) as L1.
  assert (L2 : length (splice (Z.to_nat (slot * 512)) blob data1) = length data) by (rewrite length_splice; lia).
  split; [rewrite length_splice; lia|]. split.
  - intros Hc o Ho Hlba. destruct (Hf Hc) as (_ & _ & _ & F4).
    eapply images_kept; try done; [|by apply F4].
    eapply descs_ok; [|by apply (sg_pointers _ Hst)|done].
    apply header_of_ok; [apply Hst|unfold sizeof_OSIP; lia].
  - right. split; [done|]. intros Hw. destruct Hq as [Hq|[-> ->]]; [done|]. rewrite !splice_nil.
    eapply patched_header; [done| |done]. lia.
Qed.

Lemma update_stopped w data data1 pkg idx : storage_ok data -> patched w data data1 ->
  update_result w data pkg idx (-1) data1.
Proof.
  intros Hst Hpt. pose proof (sg_size _ Hst) as Hsz.
  split; [apply (patched_length w data data1); [lia|done]|]. split.
  - intros Hc o Ho Hlba. assert (Hok : osii_ok o).
    { eapply descs_ok; [|by apply (sg_pointers _ Hst)|done].
      apply header_of_ok; [apply Hst|unfold sizeof_OSIP; lia]. }
    destruct Hpt as (p & b & -> & Lb & Hp & _). destruct Hok as [Bo _].
    pose proof (getn_bound 4 16 o Bo). apply image_splice; unfold size_of_os_image; lia.
  - right. split; [done|]. intros Hw. apply (patched_header w); [done|lia|done].
Qed.

Lemma crack_single pkg w : package_ok pkg ->
  crack_stitched_image pkg w = (Ret (Some (desc 0 pkg, drop 512 pkg)), w).
Proof.
  intros [_ Hl Hs]. unfold crack_stitched_image, dump_osip_header. rewrite Hs.
  destruct pkg as [|x pkg]; [cbn in Hl; lia|]. cbn [is_null].
  assert (E1 : (length (x :: pkg) <? 12)%nat = false) by (apply Nat.ltb_ge; lia). rewrite E1.
  assert (E2 : (0 <? 1) && (Z.of_nat (length (x :: pkg)) <? 29 + 24 * 1) = false) by lia. rewrite E2. done.
Qed.

Definition update_post (k : fkind) (w : world) (data pkg : bytes) (idx : Z) (o : outcome Z) (w' : world) : Prop :=
  exists rc data', o = Ret rc /\ w_files w' = <[ MMC_DEV_POS := mkFile k data' ]> (w_files w) /\
    w_fds w' = w_fds w /\ update_result w data pkg idx rc data'.

Lemma update_post_intro k w data pkg idx data1 rc w' : on_storage k w data1 w' ->
  update_result w data pkg idx rc data1 -> update_post k w data pkg idx (Ret rc) w'.
Proof. intros [E1 E2 _ _] H. by exists rc, data1. Qed.

Lemma package_desc pkg : package_ok pkg -> osii_ok (desc 0 pkg).
Proof.
  intros [B Hs _]. split; [by apply bytes_ok_slice|]. unfold desc, desc_off, sizeof_OSII. rewrite length_slice. lia.
Qed.

Lemma storage_header data : storage_ok data -> header_ok (header_of data).
Proof. intros [B Hs _ _]. apply header_of_ok; [done|unfold sizeof_OSIP; lia]. Qed.

(** The update from the choice of the slot on. *)
Lemma wp_install_image k w data data1 pkg idx slot max w2 :
  storage_kind k -> storage_ok data -> package_ok pkg -> 0 <= idx < 8 ->
  has_room (header_of data) (desc 0 pkg) idx -> get_osip_crc (header_of data) = 0 ->
  on_storage k w data1 w2 -> patched w data data1 -> free_for (header_of data) slot max ->
  size_of_os_image (desc 0 pkg) <= max ->
  size_of_os_image (desc 0 pkg) * 512 = Z.of_nat (length pkg) - 512 ->
  wp (update_post k w data pkg idx)
    (let! (osip, osii) := place_osii (header_of data) (set_logical_start_block slot (desc 0 pkg)) idx in
     if Z.of_nat (length pkg) <? Z.of_nat (length pkg) then undefined else
     store_image osip osii (take (Z.to_nat (u32 (Z.of_nat (length pkg) - LBA_SIZE))) (drop 512 pkg))) w2.
Proof.
  intros Hk Hst Hpk Hi Hroom Hc Hw2 Hpt Hfree Hmax Hsize.
  pose proof (sg_size _ Hst) as Hsz. pose proof (pk_size _ Hpk) as Hps. pose proof Hfree as (F1 & F2 & F3 & F4).
  pose proof (package_desc _ Hpk) as Hosii. pose proof (storage_header _ Hst) as Hh. set (osii := desc 0 pkg) in *.
  assert (Hn : 0 <= num_pointers (header_of data) <= 8).
  { split; [|by apply Hst]. apply (getn_bound 1 8), Hh. }
  apply wp_place_osii; [done|by apply osii_ok_put; [|lia]|done|done| |].
  { unfold has_room in *. assert (Ea : attribute (set_logical_start_block slot osii) = attribute osii)
      by (apply osii_field_put; [done|lia|lia]). by rewrite Ea. }
  intros osip' osii' Hpl. replace (Z.of_nat (length pkg) <? Z.of_nat (length pkg)) with false by lia.
  assert (Eblob : take (Z.to_nat (u32 (Z.of_nat (length pkg) - LBA_SIZE))) (drop 512 pkg) = drop 512 pkg).
  { apply take_ge. rewrite length_drop. unfold u32, LBA_SIZE. rewrite Z.mod_small by lia. lia. }
  rewrite Eblob. pose proof Hpl as (Q1 & _ & _ & Q4 & _ & _).
  assert (Elba : logical_start_block osii' = slot).
  { rewrite Q4. apply getn_putn_small; [destruct Hosii as [_ L0]; unfold sizeof_OSII in L0; lia|lia]. }
  pose proof (patched_length w data data1 ltac:(lia) Hpt) as L1.
  eapply (wp_store_image k w data1); [done|exact Q1|unfold sizeof_OSIP; lia|exact Hw2|rewrite Elba; lia| | |];
    rewrite Elba.
  - rewrite length_drop. lia.
  - intros w3 Hw3. eapply update_post_intro; [exact Hw3|]. eapply update_done; try done; lia.
  - intros i j w3 Hi' Hj Hw3 Hq. eapply update_post_intro; [exact Hw3|]. unfold sizeof_OSIP in Hj.
    eapply (update_failed _ _ _ _ _ _ _ slot max); try done; try lia; [rewrite length_take; lia| |by left].
    rewrite length_take, length_drop in *. lia.
Qed.

