(* ===== verification/OsipQuery.v ===== *)
(** * Finding, invalidating and reading images (theorems about update_osip.c, flash_osip/bootimage.c) *)

From stdpp Require Import base list numbers gmap strings.
From Stdlib Require Import ZArith Lia.
From S2P Require Import Prelude GuidStr Posix Drive DriveSpec Util Osip UtilSpec OsipSpec.

(** ** Instances of an attribute *)

(** The indices of the images with attribute [attr], in order. *)
Definition instances (attr : Z) (h : bytes) (idx : list Z) : list Z :=
  filter (fun i => without_sign (attribute (desc i h)) = attr) idx.

Lemma find_instance_spec n i attr instance current h w :
  0 <= i -> i + Z.of_nat n <= 8 -> current <= instance ->
  let l := instances attr h (seqZ i (Z.of_nat n)) in
  find_instance n i attr instance current h w =
  (Ret (match l !! Z.to_nat (instance - current) with
        | Some j => inl j
        | None => inr (current + Z.of_nat (length l))
        end), w).
Proof.
  cbv zeta. revert i current. induction n as [|n IH]; intros i current Hi Hn Hc.
  { cbn. by rewrite Z.add_0_r. }
  cbn [find_instance]. unfold bind. rewrite get_desc_eq by lia. unfold ret at 1.
  rewrite seqZ_cons by lia. unfold instances. rewrite filter_cons. fold (instances attr h).
  replace (Z.pred (Z.of_nat (S n))) with (Z.of_nat n) by lia. rewrite <-Z.add_1_r.
  destruct (Z.eqb_spec (without_sign (attribute (desc i h))) attr) as [E|E].
  - rewrite decide_True by done. destruct (Z.eqb_spec current instance) as [->|Hne].
    + rewrite Z.sub_diag. done.
    + rewrite IH by lia. replace (Z.to_nat (instance - current)) with (S (Z.to_nat (instance - (current + 1)))) by lia.
      fold (instances attr h (seqZ (i + 1) (Z.of_nat n))). set (l := instances _ _ _).
      change ((i :: l) !! S (Z.to_nat (instance - (current + 1)))) with (l !! Z.to_nat (instance - (current + 1))).
      cbn [length].
      destruct (l !! _); [done|]. do 3 f_equal. lia.
  - rewrite decide_False by done. by rewrite IH by lia.
Qed.

(** The index the program answers for the [instance]-th image of [attr]. *)
Definition index_of (attr instance : Z) (operation : osip_operation_type) (h : bytes) : Z :=
  let l := instances attr h (seqZ 0 (num_pointers h)) in
  match l !! Z.to_nat (instance - 1) with
  | Some j => j
  | None => match operation with
            | WRITE_OSIP_HEADER => if Z.of_nat (length l) + 1 =? instance then num_pointers h else -1
            | READ_OSIP_HEADER => -1
            end
  end.

Record osip_storage (data : bytes) : Prop := {
  sp_bytes : bytes_ok data;
  sp_size : (sizeof_OSIP <= length data)%nat;
  sp_count : get_osip_crc (header_of data) = 0 -> num_pointers (header_of data) <= 8
}.

Lemma wp_get_attribute_index {B} (Q : outcome B -> world -> Prop) kont k w0 data w attr instance operation :
  storage_kind k -> osip_storage data -> on_storage k w0 data w -> 1 <= instance ->
  (forall w', on_storage k w0 data w' -> get_osip_crc (header_of data) = 0 ->
     wp Q (kont (index_of attr instance operation (header_of data))) w') ->
  (forall w', on_storage k w0 data w' -> (quiet w0 -> get_osip_crc (header_of data) <> 0) -> wp Q (kont (-1)) w') ->
  wp Q (bind (get_attribute_osii_index attr instance operation) kont) w.
Proof.
  intros Hk [Hb Hsz Hn] Hw Hi H1 H2. unfold get_attribute_osii_index. apply wp_assoc.
  eapply wp_read_OSIP; [done|done|done|exact Hw| |].
  2:{ intros w1 h Hw1 _ Hq. cbn [truthy Z.eqb negb]. by apply wp_bind, wp_ret, H2. }
  intros w1 Hw1 Hc. cbn [truthy Z.eqb negb]. specialize (Hn Hc).
  assert (H0 : 0 <= num_pointers (header_of data)).
  { apply (getn_bound 1 8). by apply bytes_ok_slice. }
  apply wp_assoc, wp_bind. unfold wp at 1. rewrite find_instance_spec by lia. cbn [fst snd].
  rewrite Z2Nat.id by done. specialize (H1 w1 Hw1 Hc). unfold index_of in H1. revert H1.
  set (l := instances _ _ _). destruct (l !! Z.to_nat (instance - 1)); intros H1; [by apply wp_bind, wp_ret|].
  rewrite (Z.add_comm 1). destruct operation; by apply wp_bind, wp_ret.
Qed.

(** the index found for an attribute is that of the requested instance, counting images of
    that attribute from 1 whatever their signature; for an update the index after the last image
    is answered when exactly the next instance is asked for.  The storage is only read. *)
Theorem get_attribute_osii_index_finds k w data attr instance operation :
  storage_kind k -> osip_storage data -> w_files w !! MMC_DEV_POS = Some (mkFile k data) -> steady w ->
  1 <= instance ->
  wp (fun o w' => w_files w' = w_files w /\ w_fds w' = w_fds w /\ exists i, o = Ret i /\
        (get_osip_crc (header_of data) = 0 /\ i = index_of attr instance operation (header_of data) \/
         i = -1 /\ (quiet w -> get_osip_crc (header_of data) <> 0)))
     (get_attribute_osii_index attr instance operation) w.
Proof.
  intros Hk Hs Hf Hst Hi. assert (Hw : on_storage k w data w) by (split; [by rewrite insert_id|done|done|done]).
  apply wp_unit. eapply wp_get_attribute_index; [done|done|exact Hw|done| |].
  - intros w' [E1 E2 _ _] Hc. apply wp_ret. split; [by rewrite E1, insert_id|]. split; [done|].
    eexists. split; [done|]. by left.
  - intros w' [E1 E2 _ _] Hq. apply wp_ret. split; [by rewrite E1, insert_id|]. split; [done|].
    eexists. split; [done|]. by right.
Qed.

(** ** Invalidating and restoring *)

Definition set_pointers_of (ddr entry : Z) (o : bytes) : bytes := set_entry_point entry (set_ddr_load_address ddr o).

(** The header with the pointers of image [i] set. *)
Definition with_image_pointers (i ddr entry : Z) (h : bytes) : bytes :=
  update_checksum (set_desc i (set_pointers_of ddr entry (desc i h)) h).

Definition update_osii_result (w : world) (data : bytes) (name : string) (ddr entry rc : Z) (data' : bytes) : Prop :=
  (exists attr inst i, rc = 0 /\ get_named_osii_attr name = Some (attr, inst) /\
     i = index_of attr (default 1 inst) READ_OSIP_HEADER (header_of data) /\ 0 <= i < 8 /\
     data' = splice 0 (with_image_pointers i ddr entry (header_of data)) data) \/
  (rc = -1 /\ (quiet w -> data' = data /\
     (get_osip_crc (header_of data) = 0 -> forall attr inst, get_named_osii_attr name = Some (attr, inst) ->
        index_of attr (default 1 inst) READ_OSIP_HEADER (header_of data) = -1))).

Lemma named_instance name attr inst : get_named_osii_attr name = Some (attr, inst) -> 1 <= default 1 inst.
Proof.
  unfold get_named_osii_attr.
  repeat match goal with |- (if ?b then _ else _) = _ -> _ => destruct b; [intros [= <- <-]; cbn; lia|] end. done.
Qed.

Lemma index_of_range attr inst h : 0 <= num_pointers h <= 8 ->
  let i := index_of attr inst READ_OSIP_HEADER h in i = -1 \/ 0 <= i < 8.
Proof.
  intros Hn. cbv zeta. unfold index_of. destruct (_ !! _) as [j|] eqn:E; [right|by left].
  apply list_elem_of_lookup_2 in E. unfold instances in E. apply list_elem_of_filter in E as [_ E].
  apply elem_of_seqZ in E. lia.
Qed.

Lemma splice_0_nil (data : bytes) : splice 0 [] data = data.
Proof. apply splice_nil. Qed.

Lemma update_osii_correct k w data name ddr entry :
  storage_kind k -> osip_storage data -> w_files w !! MMC_DEV_POS = Some (mkFile k data) -> steady w ->
  wp (fun o w' => exists rc data', o = Ret rc /\ w_fds w' = w_fds w /\
        w_files w' = <[ MMC_DEV_POS := mkFile k data' ]> (w_files w) /\
        drop 224 data' = drop 224 data /\ update_osii_result w data name ddr entry rc data')
     (update_osii (Some name) ddr entry) w.
Proof.
  intros Hk Hs Hf Hst. assert (Hw : on_storage k w data w) by (split; [by rewrite insert_id|done|done|done]).
  pose proof Hs as [Hb Hsz Hn]. unfold sizeof_OSIP in Hsz.
  assert (Hstop : forall w', on_storage k w data w' ->
    (quiet w -> get_osip_crc (header_of data) = 0 -> forall attr inst, get_named_osii_attr name = Some (attr, inst) ->
        index_of attr (default 1 inst) READ_OSIP_HEADER (header_of data) = -1) ->
    exists rc data', Ret (-1) = Ret rc /\ w_fds w' = w_fds w /\
        w_files w' = <[ MMC_DEV_POS := mkFile k data' ]> (w_files w) /\
        drop 224 data' = drop 224 data /\ update_osii_result w data name ddr entry rc data').
  { intros w' [E1 E2 _ _] H. exists (-1), data. split_and!; try done. right. split; [done|]. auto. }
  unfold update_osii, get_named_osii_index. destruct (get_named_osii_attr name) as [[attr inst]|] eqn:Ea.
  2:{ apply wp_bind, wp_ret. cbn. apply wp_ret, Hstop; [done|]. congruence. }
  eapply wp_get_attribute_index; [done|done|exact Hw|by eapply named_instance| |].
  2:{ intros w1 Hw1 Hq. cbn. apply wp_ret, Hstop; [done|]. intros Hqq Hc. by destruct (Hq Hqq). }
  intros w1 Hw1 Hc. set (i := index_of _ _ _ _).
  assert (H0 : 0 <= num_pointers (header_of data)).
  { apply (getn_bound 1 8). by apply bytes_ok_slice. }
  specialize (Hn Hc). pose proof (index_of_range attr (default 1 inst) (header_of data) ltac:(lia)) as Hr.
  cbv zeta in Hr. fold i in Hr. unfold check_index_outofbound, MAX_OSIP_DESC.
  destruct Hr as [Ei|Hi].
  { rewrite Ei. cbn. apply wp_ret, Hstop; [done|]. intros _ _ attr' inst' [= <- <-]. exact Ei. }
  replace ((i <? 0) || (8 <=? i)) with false by lia. cbn [truthy Z.eqb negb].
  eapply wp_read_OSIP; [done|done|done|exact Hw1| |].
  2:{ intros w2 h Hw2 _ Hq. cbn [truthy Z.eqb negb]. apply wp_ret, Hstop; [done|]. intros Hqq _. by destruct (Hq Hqq). }
  intros w2 Hw2 _. cbn [truthy Z.eqb negb]. rewrite get_desc_eq by done.
  apply wp_bind, wp_ret. rewrite put_desc_eq by done. apply wp_bind, wp_ret.
  assert (Hh : header_ok (header_of data)) by (by apply header_of_ok).
  pose proof (desc_ok i _ Hh Hi) as Ho.
  assert (Hok : header_ok (set_desc i (set_pointers_of ddr entry (desc i (header_of data))) (header_of data))).
  { apply set_desc_ok; [done| |done]. apply osii_ok_put; [apply osii_ok_put; [done|lia]|lia]. }
  destruct (update_checksum_ok _ Hok) as [_ Lu]. unfold sizeof_OSIP in Lu.
  assert (Hdrop : forall n, (n <= 224)%nat -> forall u : bytes, length u = n -> drop 224 (splice 0 u data) = drop 224 data).
  { intros n Hn' u Hu. unfold splice. rewrite take_0. cbn [app]. rewrite drop_app_ge by lia.
    rewrite drop_drop, Hu. f_equal. lia. }
  eapply wp_write_OSIP; [done|exact Hok|done|exact Hw2| |].
  - intros w3 [E1 E2 _ _]. exists 0. eexists. split; [done|]. split; [done|]. split; [exact E1|].
    split; [by apply (Hdrop 224%nat)|]. left. exists attr, inst, i. split_and!; done || lia.
  - intros j w3 Hj [E1 E2 _ _] Hq. exists (-1). eexists. split; [done|]. split; [done|]. split; [exact E1|].
    split; [apply (Hdrop j); [unfold sizeof_OSIP in Hj; lia|apply length_take_le; exact (eq_ind_r (fun n => (j <= n)%nat) Hj Lu)]|].
    right. split; [done|]. tauto.
Qed.

(** [invalidate_osii] and [restore_osii] touch nothing but the header: on success the load
    address and the entry point of the named image are set and the checksum renewed, every other
    field and every image stays; when no call fails they refuse only an image the header does not
    list. *)
Theorem invalidate_and_restore_osii k w data name (restore : bool) :
  storage_kind k -> osip_storage data -> w_files w !! MMC_DEV_POS = Some (mkFile k data) -> steady w ->
  wp (fun o w' => exists rc data', o = Ret rc /\ w_fds w' = w_fds w /\
        w_files w' = <[ MMC_DEV_POS := mkFile k data' ]> (w_files w) /\
        drop 224 data' = drop 224 data /\
        update_osii_result w data name (if restore then 0x01100000 else 0) (if restore then 0x01101000 else 0) rc data')
     (if restore then restore_osii (Some name) else invalidate_osii (Some name)) w.
Proof. intros Hk Hs Hf Hst. destruct restore; by apply update_osii_correct. Qed.
