(* ===== verification/OsipSample.v ===== *)
(** * Concrete OS image profiles

    Storages and headers on which the theorems of [OsipSpec] apply, and headers on which the code
    does something else than its comments say. *)

From stdpp Require Import base list numbers gmap strings.
From Stdlib Require Import ZArith Lia.
From S2P Require Import Prelude GuidStr Posix Drive DriveSpec Util Osip UtilSpec OsipSpec OsipQuery.

(** A descriptor of [size] blocks from block [lba] on. *)
Definition an_osii (attr lba size : Z) : bytes :=
  le_enc 2 0 ++ le_enc 2 0 ++ le_enc 4 lba ++ le_enc 4 DDR_LOAD_ADDX ++ le_enc 4 ENTRY_POINT ++
  le_enc 4 size ++ [attr; 0; 0; 0].

(** A header with these descriptors. *)
Definition an_osip (l : list bytes) : bytes :=
  let h := set_pointers (Z.of_nat (length l)) (set_sig OSIP_SIG (replicate sizeof_OSIP 0)) in
  update_checksum (splice 32 (concat l) h).

(** Two images: a kernel in the first slot, a recovery in the second. *)
Definition two_images : bytes :=
  an_osip [an_osii ATTR_SIGNED_KERNEL 4050 20; an_osii ATTR_SIGNED_ROS 36050 30].

Lemma two_images_ok : header_ok two_images.
Proof. split; [apply bytes_okb_ok; vm_compute; reflexivity|vm_compute; reflexivity]. Qed.

(** A storage the size of all slots. *)
Definition blank_storage : bytes := replicate (Z.to_nat (292050 * 512)) 0.

Definition storage_image : bytes := splice 0 two_images blank_storage.

Lemma storage_length : Z.of_nat (length storage_image) = 292050 * 512.
Proof.
  unfold storage_image, blank_storage. rewrite length_splice.
  - rewrite length_replicate. lia.
  - rewrite length_replicate, (proj2 two_images_ok). unfold sizeof_OSIP. lia.
Qed.

Lemma storage_header_eq : header_of storage_image = two_images.
Proof.
  apply header_of_splice; [apply two_images_ok|]. unfold blank_storage. rewrite length_replicate.
  unfold sizeof_OSIP. lia.
Qed.

Lemma storage_image_ok : storage_ok storage_image.
Proof.
  split.
  - apply bytes_ok_splice; [apply two_images_ok|apply bytes_ok_zeros].
  - rewrite storage_length. lia.
  - intros _. rewrite storage_header_eq. vm_compute. discriminate.
  - intros o _. rewrite storage_header_eq.
    assert (E : descs two_images = [an_osii ATTR_SIGNED_KERNEL 4050 20; an_osii ATTR_SIGNED_ROS 36050 30])
      by (vm_compute; reflexivity).
    rewrite E, !elem_of_cons, elem_of_nil.
    assert (H : forall attr lba size, logical_start_block (an_osii attr lba size) = lba mod 2 ^ 32 /\
      size_of_os_image (an_osii attr lba size) = size mod 2 ^ 32).
    { intros attr lba size. split; [apply (le_dec_enc 4)|apply (le_dec_enc 4)]. }
    intros [->|[->|[]]]; split; unfold covers;
      try (intros s Hs; first [apply os_slots_spec in Hs as (j & Hj & ->)|apply fw_slots_spec in Hs]);
      rewrite ?(proj1 (H _ _ _)), ?(proj2 (H _ _ _)); unfold OS_MAX_LBA, FW_MAX_LBA; lia.
Qed.

#[local] Opaque storage_image.

Definition storage_world : world :=
  mkWorld (<[ MMC_DEV_POS := mkFile (Block 512) storage_image ]> ∅) ∅ [] 0.

Lemma storage_world_steady : steady storage_world.
Proof. by apply quiet_steady. Qed.

(** A kernel of one block. *)
Definition kernel_package : bytes :=
  splice 0 (an_osip [an_osii ATTR_SIGNED_KERNEL 1 1]) (replicate 1024 7).

Lemma kernel_package_ok : package_ok kernel_package.
Proof.
  split; [apply bytes_okb_ok; vm_compute; reflexivity| |vm_compute; reflexivity].
  assert (E : length kernel_package = 1024%nat) by (vm_compute; reflexivity). rewrite E. lia.
Qed.

Lemma kernel_has_room : has_room (header_of storage_image) (desc 0 kernel_package) 0.
Proof. left. rewrite storage_header_eq. vm_compute. reflexivity. Qed.


(** A storage of one header. *)
Definition small_world (image : bytes) : world :=
  mkWorld (<[ MMC_DEV_POS := mkFile (Block 512) image ]> ∅) ∅ [] 0.

Lemma small_world_steady image : steady (small_world image).
Proof. by apply quiet_steady. Qed.

Lemma osip_round_trip_witness :
  header_ok two_images /\
  wp (fun o w' => match o with
        | Ret (rc, Some (rc', h)) => rc = 0 /\ w_fds w' = ∅ /\
            (rc' = 0 /\ h = update_checksum two_images \/ rc' = -1 /\ ~ quiet (small_world (replicate 224 0)))
        | Ret (rc, None) => rc = -1 /\ w_fds w' = ∅ /\ ~ quiet (small_world (replicate 224 0))
        | _ => False
        end)
    (let! rc := write_OSIP two_images in
     if truthy rc then ret (rc, None) else
     let! r := read_OSIP in ret (rc, Some r)) (small_world (replicate 224 0)).
Proof.
  split; [exact two_images_ok|].
  exact (osip_round_trip (Block 512) (small_world (replicate 224 0)) (replicate 224 0) two_images
    (or_intror (ex_intro _ 512 eq_refl)) (bytes_ok_zeros 224) ltac:(vm_compute; lia) (lookup_insert_eq _ _ _)
    (small_world_steady _) two_images_ok).
Defined.

Lemma read_OSIP_refuses_corruption_witness :
  get_osip_crc (header_of two_images) = 0 /\
  wp (fun o w' => w_files w' = w_files (small_world (splice 40 [77] two_images)) /\
        w_fds w' = w_fds (small_world (splice 40 [77] two_images)) /\ exists h, o = Ret (-1, h))
    read_OSIP (small_world (splice 40 [77] two_images)).
Proof.
  split; [vm_compute; reflexivity|].
  exact (read_OSIP_refuses_corruption (Block 512) (small_world (splice 40 [77] two_images)) two_images 40 77
    (or_intror (ex_intro _ 512 eq_refl)) (proj1 two_images_ok) ltac:(vm_compute; lia)
    ltac:(vm_compute; reflexivity) ltac:(lia) ltac:(unfold is_byte; lia) ltac:(vm_compute; discriminate)
    (lookup_insert_eq _ _ _) (small_world_steady _)).
Defined.

Lemma two_images_descs o : o ∈ descs two_images ->
  o = an_osii ATTR_SIGNED_KERNEL 4050 20 \/ o = an_osii ATTR_SIGNED_ROS 36050 30.
Proof.
  assert (E : descs two_images = [an_osii ATTR_SIGNED_KERNEL 4050 20; an_osii ATTR_SIGNED_ROS 36050 30])
    by (vm_compute; reflexivity).
  rewrite E, !elem_of_cons, elem_of_nil. tauto.
Qed.

Lemma free_os_slot_is_free_witness :
  num_pointers two_images = 2 /\
  wp (fun o w' => w' = storage_world /\ exists slot, o = Ret slot /\
        (slot = 0 \/ slot ∈ os_lba_slots /\ forall d, d ∈ descs two_images -> apart slot OS_MAX_LBA d))
     (get_free_os_lba two_images) storage_world.
Proof.
  split; [vm_compute; reflexivity|].
  apply (free_os_slot_is_free two_images storage_world).
  - vm_compute. split; discriminate.
  - intros o Ho. destruct (two_images_descs o Ho) as [-> | ->]; vm_compute; repeat split; discriminate.
Defined.


Lemma two_images_storage : osip_storage two_images.
Proof.
  split; [apply two_images_ok|rewrite (proj2 two_images_ok); done|].
  intros _. vm_compute. discriminate.
Qed.

Lemma get_attribute_osii_index_finds_witness :
  index_of ATTR_SIGNED_ROS 1 READ_OSIP_HEADER (header_of two_images) = 1 /\
  wp (fun o w' => w_files w' = w_files (small_world two_images) /\ w_fds w' = w_fds (small_world two_images) /\
        exists i, o = Ret i /\
        (get_osip_crc (header_of two_images) = 0 /\
           i = index_of ATTR_SIGNED_ROS 1 READ_OSIP_HEADER (header_of two_images) \/
         i = -1 /\ (quiet (small_world two_images) -> get_osip_crc (header_of two_images) <> 0)))
     (get_attribute_osii_index ATTR_SIGNED_ROS 1 READ_OSIP_HEADER) (small_world two_images).
Proof.
  split; [vm_compute; reflexivity|].
  exact (get_attribute_osii_index_finds (Block 512) (small_world two_images) two_images ATTR_SIGNED_ROS 1
    READ_OSIP_HEADER (or_intror (ex_intro _ 512 eq_refl)) two_images_storage (lookup_insert_eq _ _ _)
    (small_world_steady _) ltac:(lia)).
Defined.

Lemma invalidate_and_restore_osii_witness :
  get_osip_crc (header_of two_images) = 0 /\
  wp (fun o w' => exists rc data', o = Ret rc /\ w_fds w' = w_fds (small_world two_images) /\
        w_files w' = <[ MMC_DEV_POS := mkFile (Block 512) data' ]> (w_files (small_world two_images)) /\
        drop 224 data' = drop 224 two_images /\
        update_osii_result (small_world two_images) two_images "recovery" 0 0 rc data')
     (invalidate_osii (Some "recovery"%string)) (small_world two_images).
Proof.
  split; [vm_compute; reflexivity|].
  exact (invalidate_and_restore_osii (Block 512) (small_world two_images) two_images "recovery" false
    (or_intror (ex_intro _ 512 eq_refl)) two_images_storage (lookup_insert_eq _ _ _) (small_world_steady _)).
Defined.

(** ** Where the code and its comments part *)

(** Eight images of the largest size [verify_osip_sizes] accepts, each in its slot. *)
Definition full_osip : bytes :=
  an_osip (map (fun k => an_osii ATTR_SIGNED_KERNEL (4050 + 32000 * k) 32000) [0; 1; 2; 3; 4; 5; 6; 7]).

(** eight images of the largest size that [verify_osip_sizes] accepts leave no slot free,
    although there are nine slots so that one is always available: an image of the full size is
    taken to reach into the next slot. *)
Theorem full_size_images_leave_no_slot w :
  get_osip_crc full_osip = 0 /\ verify_osip_sizes full_osip w = (Ret 0, w) /\
  get_free_os_lba full_osip w = (Ret 0, w).
Proof.
  split; [vm_compute; reflexivity|]. split.
  - vm_compute. reflexivity.
  - unfold get_free_os_lba. rewrite get_free_lba_spec by (vm_compute; split; discriminate).
    by assert (free_slot os_lba_slots OS_MAX_LBA full_osip = 0) as -> by (vm_compute; reflexivity).
Qed.

(** One image from block 4000 to block 44001, of a kind whose size is not checked. *)
Definition wide_osip : bytes := an_osip [an_osii ATTR_SIGNED_SPLASHSCREEN 4000 40000].

(** an image that starts before a slot and ends after it is overlooked: the slot in its middle
    is offered for the next update. *)
Theorem covered_slot_is_offered w :
  verify_osip_sizes wide_osip w = (Ret 0, w) /\ get_free_os_lba wide_osip w = (Ret 4050, w) /\
  covers 4050 OS_MAX_LBA (desc 0 wide_osip).
Proof.
  split; [vm_compute; reflexivity|]. split.
  - unfold get_free_os_lba. rewrite get_free_lba_spec by (vm_compute; split; discriminate).
    by assert (free_slot os_lba_slots OS_MAX_LBA wide_osip = 4050) as -> by (vm_compute; reflexivity).
  - vm_compute. split; [reflexivity|discriminate].
Qed.

(** [fixup_osip] refuses a header that starts with a file system image: clearing the lowest
    bit of the attribute makes the case for it unreachable. *)
Theorem fixup_osip_refuses_filesystem osip ptn_lba w :
  0 < num_pointers osip -> attribute (desc 0 osip) = ATTR_FILESYSTEM ->
  fixup_osip osip ptn_lba w = (Ret (-1, osip), w).
Proof.
  intros Hn Ha. unfold fixup_osip, bind at 1. destruct (Z.to_nat (num_pointers osip)) as [|n] eqn:E; [lia|].
  cbn [each_desc]. unfold bind at 1. rewrite get_desc_eq by lia. unfold ret at 1.
  unfold fixup_desc. rewrite Ha. reflexivity.
Qed.

Lemma fixup_osip_refuses_filesystem_witness :
  fixup_osip (an_osip [an_osii ATTR_FILESYSTEM 0 10]) 7 storage_world =
    (Ret (-1, an_osip [an_osii ATTR_FILESYSTEM 0 10]), storage_world).
Proof.
  apply (fixup_osip_refuses_filesystem (an_osip [an_osii ATTR_FILESYSTEM 0 10]) 7 storage_world);
    vm_compute; reflexivity.
Defined.

(** A full header whose first image is a splash screen. *)
Definition splash_osip : bytes :=
  an_osip (map (fun k => an_osii ATTR_SIGNED_SPLASHSCREEN (4050 + 32000 * k) 10) [0; 1; 2; 3; 4; 5; 6; 7]).

(** replacing a splash screen by a kernel in a full header stores a descriptor past the end of
    the array. *)
Theorem place_osii_overflows w :
  place_osii splash_osip (an_osii ATTR_SIGNED_KERNEL 292050 10) 0 w = (Undefined, w).
Proof. vm_compute. reflexivity. Qed.

(** a header that claims more than eight images, with a valid checksum, makes the search for
    an image leave the array of descriptors. *)
Theorem osip_count_is_trusted w : exists h,
  header_ok h /\ get_osip_crc h = 0 /\ num_pointers h = 9 /\
  find_instance (Z.to_nat (num_pointers h)) 0 ATTR_SIGNED_ROS 1 1 h w = (Undefined, w).
Proof.
  exists (update_checksum (set_num_pointers 9 full_osip)).
  split; [split; [apply bytes_okb_ok|]; vm_compute; reflexivity|].
  split; [vm_compute; reflexivity|]. split; vm_compute; reflexivity.
Qed.
