(* ===== verification/BootToolsSpec.v ===== *)
(** * Packing and unpacking (theorems about intel-boot-tools)

    On regular files and when no call fails, [pack_main] builds the image its header describes
    and [unpack_main] takes the kernel and the ramdisk out again. *)

From stdpp Require Import base list numbers gmap strings.
From Stdlib Require Import ZArith Lia.
From S2P Require Import Prelude Xor Posix CLib Util BootTools.

(** ** Streams when no call fails *)

Record calm (F : gmap string file) (D : gmap Z fdesc) (w : world) : Prop := {
  cm_files : w_files w = F;
  cm_fds : w_fds w = D;
  cm_quiet : quiet w
}.

Definition stream (fd : Z) : FILE := mkFILE fd false false.

Lemma wp_fopen_r Q F D w path d : calm F D w -> F !! path = Some (mkFile Regular d) ->
  (forall fd w', D !! fd = None -> calm F (<[ fd := mkFd path 0 true false ]> D) w' -> Q (Ret (Some (stream fd))) w') ->
  wp Q (fopen path mode_r) w.
Proof.
  intros [E1 E2 E3] Hf H. unfold fopen. apply wp_bind. eapply wp_open; [done|done|..].
  - intros w' Hu Hq. destruct (Hq E3) as [Hn|[? Hn]]; rewrite E1, Hf in Hn; done.
  - intros w' fd f _ _ Hfd Hgt F1 F2 F3. apply wp_ret. replace (fd <? 0) with false by lia.
    apply H; [by rewrite <-E2|]. split; [congruence|by rewrite F2, E2|auto].
Qed.

(** Opening for writing creates the file or empties it. *)
Lemma wp_fopen_w Q F D w path : calm F D w ->
  (F !! path = None \/ exists d, F !! path = Some (mkFile Regular d)) ->
  (forall fd w', D !! fd = None ->
     calm (<[ path := mkFile Regular [] ]> F) (<[ fd := mkFd path 0 false true ]> D) w' -> Q (Ret (Some (stream fd))) w') ->
  wp Q (fopen path mode_w) w.
Proof.
  intros [<- <- E3] Hf H. unfold fopen, wp, sys_open, bind, next_fault. rewrite E3.
  pose proof (fresh_fd_spec (w_fds w)) as [Hfd Hn].
  assert (E : (fresh_fd (w_fds w) <? 0) = false) by lia.
  destruct Hf as [Hf|[d Hf]]; rewrite Hf; simpl; rewrite E; apply H; done.
Qed.

Lemma wp_fread_calm Q F D w f fd path off wr k d n : calm F D w -> fl_fd f = fd ->
  D !! fd = Some (mkFd path off true wr) -> F !! path = Some (mkFile k d) -> 0 <= off -> 0 <= n ->
  (forall w' f', fl_fd f' = fd -> let b := slice (Z.to_nat off) (Z.to_nat n) d in
     calm F (<[ fd := mkFd path (off + Z.of_nat (length b)) true wr ]> D) w' -> Q (Ret (f', b)) w') ->
  wp Q (fread f n) w.
Proof.
  intros [E1 E2 E3] <- Hd Hf Ho Hn H. eapply (wp_fread f w (mkFd path off true wr) (mkFile k d)).
  - unfold fd_file. rewrite E2, Hd. cbn. by rewrite E1, Hf.
  - done.
  - done.
  - done.
  - intros w' _ Hq. by destruct Hq.
  - cbn [fd_off f_data]. intros w' (F1 & F2 & F3).
    apply H; [done|]. split; [congruence|by rewrite F2, E2|auto].
Qed.

Lemma wp_fwrite_calm Q F D w f fd path rd out b : calm F D w -> fl_fd f = fd ->
  D !! fd = Some (mkFd path (Z.of_nat (length out)) rd true) -> F !! path = Some (mkFile Regular out) ->
  (forall w', calm (<[ path := mkFile Regular (out ++ b) ]> F)
       (<[ fd := mkFd path (Z.of_nat (length (out ++ b))) rd true ]> D) w' -> Q (Ret (Z.of_nat (length b))) w') ->
  wp Q (fwrite f b) w.
Proof.
  intros [E1 E2 E3] <- Hd Hf H.
  eapply (wp_fwrite f w (mkFd path (Z.of_nat (length out)) rd true) (mkFile Regular out)).
  - unfold fd_file. rewrite E2, Hd. cbn. by rewrite E1, Hf.
  - done.
  - done.
  - done.
  - intros w' _ Hq. by destruct Hq.
  - cbn [fd_path f_data fd_read fd_write]. intros w' F1 F2 F3.
    apply H. split; [by rewrite F1, E1|by rewrite F2, E2|auto].
Qed.

Lemma wp_fseek_calm Q F D w f fd path off rd wr file off' : calm F D w -> fl_fd f = fd ->
  D !! fd = Some (mkFd path off rd wr) -> F !! path = Some file -> 0 <= off' < 2 ^ 63 ->
  (forall w' f', fl_fd f' = fd -> calm F (<[ fd := mkFd path off' rd wr ]> D) w' -> Q (Ret (0, f')) w') ->
  wp Q (fseek f off') w.
Proof.
  intros [E1 E2 E3] <- Hd Hf Ho H. unfold fseek. apply wp_bind.
  assert (Es : s64 off' = off').
  { unfold s64, to_signed. rewrite Z.mod_small by lia. case_match; lia. }
  eapply (wp_lseek (fl_fd f) w (mkFd path off rd wr) file).
  - unfold fd_file. rewrite E2, Hd. cbn. by rewrite E1, Hf.
  - intros w' _ Hq. specialize (Hq E3). lia.
  - intros w' _ (F1 & F2 & F3). apply wp_ret. rewrite Es in *. replace (off' <? 0) with false by lia.
    apply H; [done|]. split; [congruence|by rewrite F2, E2|auto].
Qed.

Lemma wp_stat_calm Q F D w path d : calm F D w -> F !! path = Some (mkFile Regular d) ->
  Q (Ret (0, Z.of_nat (length d))) w -> wp Q (sys_stat path) w.
Proof.
  intros [E1 E2 E3] Hf H. unfold wp, sys_stat, bind, next_fault. rewrite E3, E1, Hf. simpl. done.
Qed.

(** ** Copying *)

(** The files and the descriptors after a copy. *)
Definition copied_files (q : string) (out : bytes) (F : gmap string file) : gmap string file :=
  <[ q := mkFile Regular out ]> F.
Definition copied_fds (fin fout : Z) (p q : string) (pos : nat) (out : bytes) (wr rd : bool) (D : gmap Z fdesc) : gmap Z fdesc :=
  <[ fout := mkFd q (Z.of_nat (length out)) rd true ]> (<[ fin := mkFd p (Z.of_nat pos) true wr ]> D).

Section Copy.
Context (fin fout : Z) (p q : string) (k : fkind) (d : bytes) (wr rd : bool) (f0 t0 : FILE).
Context (Hne : fin <> fout) (Hpq : p <> q).

(** The input at [off] and what is written so far. *)
Definition copying (F : gmap string file) (D : gmap Z fdesc) (off : nat) (out : bytes) (w : world) : Prop :=
  F !! p = Some (mkFile k d) /\ calm (copied_files q out F) (copied_fds fin fout p q off out wr rd D) w.

(** One chunk of at most [n] bytes. *)
Lemma wp_chunk {B} (Q : outcome B -> world -> Prop) F D off out w n from to (k1 : FILE -> M B) (k2 : FILE -> bytes -> M B) :
  copying F D off out w -> fl_fd from = fin -> fl_fd to = fout -> 0 < n -> (off <= length d)%nat ->
  (forall from' w', fl_fd from' = fin -> off = length d -> copying F D off out w' -> wp Q (k1 from') w') ->
  (forall from' w', let b := slice off (Z.to_nat n) d in fl_fd from' = fin -> b <> [] ->
     copying F D (off + length b) (out ++ b) w' -> wp Q (k2 from' b) w') ->
  wp Q (let! (from, buf) := fread from n in
        if is_null buf then k1 from else fwrite to buf ;; k2 from buf) w.
Proof using Hne Hpq.
  intros [Hp Hw] Hf Ht Hn Hoff H1 H2. apply wp_bind.
  eapply (wp_fread_calm _ _ _ w from fin p); [exact Hw|done|..].
  - unfold copied_fds. rewrite lookup_insert_ne by done. apply lookup_insert_eq.
  - unfold copied_files. rewrite lookup_insert_ne by done. exact Hp.
  - lia.
  - lia.
  - intros w1 from' Hfrom. rewrite Nat2Z.id. intros b Hw1. rewrite <-Nat2Z.inj_add in Hw1.
    assert (Hfds : <[fin := mkFd p (Z.of_nat (off + length b)) true wr]> (copied_fds fin fout p q off out wr rd D) =
      copied_fds fin fout p q (off + length b) out wr rd D).
    { unfold copied_fds. by rewrite (insert_insert_ne _ fin fout), insert_insert_eq by done. }
    rewrite Hfds in Hw1. specialize (H2 from'). cbv zeta in H2. fold b in H2.
    assert (Hl : length b = (Z.to_nat n `min` (length d - off))%nat) by apply length_slice.
    destruct b as [|x b'] eqn:Eb.
    + cbn [is_null]. apply H1; [done|cbn in Hl; lia|]. split; [done|]. by rewrite Nat.add_0_r in Hw1.
    + rewrite <-Eb in *. assert (is_null b = false) as -> by (by rewrite Eb). apply wp_bind.
      eapply (wp_fwrite_calm _ _ _ w1 to fout q); [exact Hw1|done|..].
      * apply lookup_insert_eq.
      * apply lookup_insert_eq.
      * intros w2 Hw2. apply H2; [done|by rewrite Eb|]. split; [done|].
        unfold copied_files, copied_fds in *. by rewrite !insert_insert_eq in Hw2.
Qed.

Lemma slice_drop off n : slice off n d ++ drop (off + length (slice off n d)) d = drop off d.
Proof using Type.
  rewrite <-drop_drop. unfold slice. set (x := drop off d).
  destruct (Nat.le_gt_cases n (length x)).
  - rewrite length_take, Nat.min_l by done. apply take_drop.
  - rewrite take_ge by lia. by rewrite drop_all, app_nil_r.
Qed.

(** The copy ends at the end of the input. *)
Lemma wp_copy_loop F D off out w fuel from to (Q : outcome unit -> world -> Prop) :
  copying F D off out w -> fl_fd from = fin -> fl_fd to = fout -> (off <= length d)%nat ->
  (length d - off < fuel)%nat ->
  (forall w', copying F D (length d) (out ++ drop off d) w' -> Q (Ret tt) w') ->
  wp Q (copy_loop fuel from to) w.
Proof using Hne Hpq.
  revert off out w from. induction fuel as [|fuel IH]; intros off out w from Hw Hf Ht Hoff Hfuel H; [lia|].
  cbn [copy_loop].
  apply (wp_chunk Q F D off out w BUFSIZ from to (fun _ => ret tt) (fun from _ => copy_loop fuel from to));
    [done|done|done|done|done|..].
  - intros from' w' _ -> Hw'. apply wp_ret, H. by rewrite drop_all, app_nil_r.
  - intros from' w' b Hf' Hb Hw'.
    assert (Hl : length b = (Z.to_nat BUFSIZ `min` (length d - off))%nat) by apply length_slice.
    assert (0 < length b)%nat by (destruct b; [done|cbn; lia]).
    eapply IH; [exact Hw'|done|done|lia|lia|]. intros w2 Hw2. apply H.
    pose proof (slice_drop off (Z.to_nat BUFSIZ)) as Es. fold b in Es. by rewrite <-app_assoc, Es in Hw2.
Qed.

(** What is missing is extracted when the input still has it. *)
Lemma wp_extract_loop F D off out w fuel missing from to (Q : outcome unit -> world -> Prop) :
  copying F D off out w -> fl_fd from = fin -> fl_fd to = fout ->
  0 <= missing -> (off + Z.to_nat missing <= length d)%nat -> (Z.to_nat missing <= fuel)%nat ->
  (forall w', copying F D (off + Z.to_nat missing) (out ++ slice off (Z.to_nat missing) d) w' -> Q (Ret tt) w') ->
  wp Q (extract_loop fuel missing from to) w.
Proof using Hne Hpq.
  revert off out w from missing. induction fuel as [|fuel IH]; intros off out w from missing Hw Hf Ht H0 Hoff Hfuel H.
  { cbn [extract_loop]. replace (missing <=? 0) with true by lia. apply wp_ret, H.
    replace (Z.to_nat missing) with 0%nat by lia. rewrite Nat.add_0_r. unfold slice. by rewrite take_0, app_nil_r. }
  cbn [extract_loop]. destruct (Z.leb_spec missing 0) as [Hz|Hz].
  { apply wp_ret, H. replace (Z.to_nat missing) with 0%nat by lia. rewrite Nat.add_0_r. unfold slice. by rewrite take_0, app_nil_r. }
  set (n := if BUFSIZ <? missing then BUFSIZ else missing).
  assert (Hn : 0 < n <= missing) by (unfold n, BUFSIZ; destruct (Z.ltb_spec 8192 missing); lia).
  apply (wp_chunk Q F D off out w n from to (fun from => extract_loop fuel missing from to)
    (fun from buf => extract_loop fuel (missing - Z.of_nat (length buf)) from to)); [done|done|done|lia|lia|..].
  - intros from' w' _ -> Hw'. lia.
  - intros from' w' b Hf' Hb Hw'.
    assert (Hl : length b = (Z.to_nat n `min` (length d - off))%nat) by apply length_slice.
    assert (0 < length b)%nat by (destruct b; [done|cbn; lia]).
    eapply IH; [exact Hw'|done|done|lia|lia|lia|]. intros w2 Hw2. apply H.
    rewrite <-app_assoc in Hw2.
    replace (off + length b + Z.to_nat (missing - Z.of_nat (length b)))%nat with (off + Z.to_nat missing)%nat in Hw2 by lia.
    assert (Es : b ++ slice (off + length b) (Z.to_nat (missing - Z.of_nat (length b))) d = slice off (Z.to_nat missing) d).
    { unfold b, slice. rewrite <-drop_drop. set (x := drop off d).
      assert (Hx : length x = (length d - off)%nat) by apply length_drop.
      assert (Eb : length (take (Z.to_nat n) x) = Z.to_nat n) by (rewrite length_take; lia). rewrite Eb.
      rewrite take_take_drop. f_equal. lia. }
    by rewrite Es in Hw2.
Qed.
End Copy.

Lemma copying_intro F D fin fout p q k d wr rd off out w : calm F D w ->
  F !! p = Some (mkFile k d) -> F !! q = Some (mkFile Regular out) ->
  D !! fin = Some (mkFd p (Z.of_nat off) true wr) -> D !! fout = Some (mkFd q (Z.of_nat (length out)) rd true) ->
  copying fin fout p q k d wr rd F D off out w.
Proof.
  intros [E1 E2 E3] Hp Hq Hi Ho. split; [done|]. split; [|unfold copied_fds|done].
  - rewrite E1. symmetry. by apply insert_id.
  - rewrite E2, (insert_id D) by done. symmetry. by apply insert_id.
Qed.

(** The new descriptors differ from the open ones. *)
Ltac fresh_fds :=
  repeat match goal with
  | H : <[ _ := _ ]> _ !! _ = None |- _ => apply lookup_insert_None in H as [H ?]
  end.

Ltac maps := unfold copied_fds, copied_files in *; cbn [fl_fd stream];
  repeat first [rewrite lookup_insert_eq | rewrite lookup_insert_ne by congruence]; first [reflexivity | eassumption].

Lemma wp_copy_stream F D fin fout p q k d wr rd out w from to (Q : outcome unit -> world -> Prop) :
  calm F D w -> fin <> fout -> p <> q -> fl_fd from = fin -> fl_fd to = fout ->
  F !! p = Some (mkFile k d) -> F !! q = Some (mkFile Regular out) ->
  D !! fin = Some (mkFd p 0 true wr) -> D !! fout = Some (mkFd q (Z.of_nat (length out)) rd true) ->
  (forall w', calm (copied_files q (out ++ d) F) (copied_fds fin fout p q (length d) (out ++ d) wr rd D) w' -> Q (Ret tt) w') ->
  wp Q (copy_stream (Some from) to) w.
Proof.
  intros Hw Hne Hpq Hf Ht Hp Hq Hi Ho H. unfold copy_stream, left_of. apply wp_bind. unfold wp at 1. cbn [fst snd].
  assert (Hff : fd_file w (fl_fd from) = Some (mkFd p 0 true wr, mkFile k d)).
  { destruct Hw as [E1 E2 _]. unfold fd_file. rewrite E2, Hf, Hi. cbn. by rewrite E1, Hp. }
  rewrite Hff. cbn [f_data].
  eapply (wp_copy_loop fin fout p q k d wr rd Hne Hpq F D 0 out); [by apply copying_intro|done|done|lia|lia|].
  intros w' [_ Hw']. by apply H.
Qed.

(** ** The image *)

Definition image_size (b r : bytes) : Z := Z.of_nat sizeof_bootheader + Z.of_nat (length b) + Z.of_nat (length r).

(** The first bytes of the image the header is taken from, with the sizes of the parts. *)
Definition packed_header (o b r : bytes) : bytes :=
  (patch_header (take sizeof_bootheader o) (Z.of_nat (length b)) (Z.of_nat (length r))).1.

Definition boot_image (o b r : bytes) : bytes :=
  packed_header o b r ++ b ++ r ++ replicate (Z.to_nat (512 - image_size b r mod 512)) 0xff.

Lemma sizeof_bootheader_eq : sizeof_bootheader = Z.to_nat 13280.
Proof. vm_compute. reflexivity. Qed.

Lemma CMDLINE_END_eq : CMDLINE_END = Z.to_nat 2016.
Proof. vm_compute. reflexivity. Qed.

#[local] Opaque sizeof_bootheader CMDLINE_END.

Ltac layout := rewrite ?sizeof_bootheader_eq, ?CMDLINE_END_eq in *; unfold HEADER_SIZE, MAGIC_SIZE, ID_SIZE in *; lia.

Lemma lookup_putn_ne n off v l i : (off + n <= length l)%nat -> ~ (off <= i < off + n)%nat -> putn n off v l !! i = l !! i.
Proof.
  intros Hl Hi. unfold putn, splice. destruct (decide (i < off)%nat).
  - rewrite lookup_app_l by len. apply lookup_take_lt. lia.
  - rewrite lookup_app_r by len. rewrite lookup_app_r by len. rewrite lookup_drop. f_equal. len.
Qed.

Section Header.
Context (o b r : bytes).
Context (Ho : (sizeof_bootheader <= length o)%nat) (Hsize : image_size b r < 2 ^ 32 - 512).

Lemma part_sizes : Z.of_nat (length b) < 2 ^ 32 /\ Z.of_nat (length r) < 2 ^ 32.
Proof using Hsize. clear Ho. unfold image_size in Hsize. lia. Qed.

Lemma u32_total : u32 (u32 (u32 (Z.of_nat (length b)) + Z.of_nat sizeof_bootheader) + u32 (Z.of_nat (length r))) =
  image_size b r.
Proof using Hsize.
  clear Ho. destruct part_sizes as [H1 H2]. unfold image_size in *.
  rewrite (u32_small (Z.of_nat (length b))), (u32_small (Z.of_nat (length r))) by lia.
  rewrite (u32_small (_ + Z.of_nat sizeof_bootheader)) by lia. rewrite u32_small by lia. lia.
Qed.

Lemma patch_padding : (patch_header (take sizeof_bootheader o) (Z.of_nat (length b)) (Z.of_nat (length r))).2 =
  if image_size b r mod 512 =? 0 then None else Some (512 - image_size b r mod 512).
Proof using All.
  unfold patch_header, SECTOR_SIZE. cbn [snd]. rewrite u32_total. change 0x200 with 512. set (n := _ mod 512).
  clear Ho Hsize. destruct (Z.ltb_spec 0 n), (Z.eqb_spec n 0); try done; unfold n in *; lia.
Qed.

Lemma length_packed_header : length (packed_header o b r) = sizeof_bootheader.
Proof using Ho.
  assert (L : length (take sizeof_bootheader o) = sizeof_bootheader) by (rewrite length_take; lia).
  unfold packed_header, patch_header. cbn [fst].
  unfold set_xor, set_sectors, set_initrdSize, set_bzImageSize.
  do 4 (apply length_putn_eq; [|layout]). done.
Qed.

(** The offsets of the fields the program stores. *)
Definition stored_field (i : nat) : Prop := (i = 7 \/ 48 <= i < 52 \/ 2016 <= i < 2024)%nat.

(** The header has the sizes, the number of sectors after the first and a checksum that makes its
    first 56 bytes sum to zero; the rest is that of the origin. *)
Lemma packed_header_fields : bytes_ok o ->
  bzImageSize (packed_header o b r) = Z.of_nat (length b) /\
  initrdSize (packed_header o b r) = Z.of_nat (length r) /\
  sectors (packed_header o b r) = (image_size b r + 511) / 512 - 1 /\
  xor_all (slice 0 HEADER_SIZE (packed_header o b r)) = 0 /\
  (forall i, (i < sizeof_bootheader)%nat -> ~ stored_field i -> packed_header o b r !! i = o !! i).
Proof using All.
  intros Bo.
  assert (L : length (take sizeof_bootheader o) = sizeof_bootheader) by (rewrite length_take; lia).
  assert (Bt : bytes_ok (take sizeof_bootheader o)) by auto with bytes.
  assert (Hl : forall i, (i < sizeof_bootheader)%nat -> take sizeof_bootheader o !! i = o !! i)
    by (intros; by apply lookup_take_lt).
  pose proof patch_padding as Hpad. unfold packed_header, patch_header in *. cbn [fst snd] in *.
  rewrite Hpad. clear Hpad.
  set (t := take sizeof_bootheader o) in *.
  assert (Et : u32 (u32 (u32 (Z.of_nat (length b)) + Z.of_nat sizeof_bootheader) + u32 (Z.of_nat (length r))) = image_size b r).
  { apply u32_total. }
  rewrite Et. clear Et.
  assert (Es : u32 (u32 (image_size b r + default 0 (if image_size b r mod 512 =? 0 then None else Some (512 - image_size b r mod 512))) / SECTOR_SIZE - 1) =
    (image_size b r + 511) / 512 - 1).
  { assert (Hi : 13280 <= image_size b r) by (unfold image_size; layout). unfold u32, SECTOR_SIZE.
    clear - Hi Hsize. set (n := image_size b r) in *. clearbody n.
    set (m := n + default 0 _). assert (Hm : m = (n + 511) / 512 * 512).
    { unfold m. destruct (Z.eqb_spec (n mod 512) 0); unfold default, id; lia. }
    clearbody m. rewrite (Z.mod_small m) by lia. rewrite (Z.mod_small (m / 512 - 1)) by lia. lia. }
  rewrite Es. clear Es. unfold image_size in Hsize.
  set (h1 := set_bzImageSize _ t). set (h2 := set_initrdSize _ h1). set (h3 := set_sectors _ h2).
  assert (L1 : length h1 = sizeof_bootheader) by (apply length_putn_eq; [done|layout]).
  assert (L2 : length h2 = sizeof_bootheader) by (apply length_putn_eq; [done|layout]).
  assert (L3 : length h3 = sizeof_bootheader) by (apply length_putn_eq; [done|layout]).
  assert (B3 : bytes_ok h3) by (by repeat apply bytes_ok_putn).
  assert (Bal : xor_all (slice 0 HEADER_SIZE (set_xor (calculate_checksum h3) h3)) = 0)
    by (apply xor_byte_balanced; [done|layout|layout]).
  unfold bzImageSize, initrdSize, sectors, set_xor, h3, set_sectors, h2, set_initrdSize, h1, set_bzImageSize in *.
  destruct part_sizes as [P1 P2]. split_and!.
  - rewrite !getn_putn_ne by layout. rewrite getn_putn_eq by layout. rewrite u32_small by lia. apply Z.mod_small. lia.
  - rewrite !getn_putn_ne by layout. rewrite getn_putn_eq by layout. rewrite u32_small by lia. apply Z.mod_small. lia.
  - rewrite !getn_putn_ne by layout. rewrite getn_putn_eq by layout. apply Z.mod_small.
    unfold image_size. layout.
  - exact Bal.
  - intros i Hi Hn. unfold stored_field in Hn. rewrite <-Hl by done.
    rewrite !lookup_putn_ne; try done; layout.
Qed.
End Header.

(** ** The programs *)

(** The files given to [pack_main]: the output is none of the inputs. *)
Record packable (F : gmap string file) (origin bz rd out : string) (o b r : bytes) : Prop := {
  pb_origin : F !! origin = Some (mkFile Regular o);
  pb_kernel : F !! bz = Some (mkFile Regular b);
  pb_ramdisk : F !! rd = Some (mkFile Regular r);
  pb_out : F !! out = None \/ exists d, F !! out = Some (mkFile Regular d);
  pb_apart : out <> origin /\ out <> bz /\ out <> rd;
  pb_header : (sizeof_bootheader <= length o)%nat;
  pb_bytes : bytes_ok o;
  pb_size : image_size b r < 2 ^ 32 - 512
}.

(** Both programs start by opening their files. *)
Lemma wp_pack F D w origin bz rd out o b r (Q : outcome Z -> world -> Prop) :
  calm F D w -> packable F origin bz rd out o b r ->
  (forall D' w', image_size b r mod 512 <> 0 ->
     calm (<[ out := mkFile Regular (boot_image o b r) ]> F) D' w' -> Q (Ret 0) w') ->
  (forall D' w', image_size b r mod 512 = 0 ->
     calm (<[ out := mkFile Regular (packed_header o b r ++ b ++ r) ]> F) D' w' -> Q Undefined w') ->
  wp Q (pack_main [origin; bz; rd; out]) w.
Proof.
  intros Hw [H1 H2 H3 H4 (N1 & N2 & N3) Hl Bo Hsz] HQ HU. unfold pack_main.
  apply wp_bind. eapply (wp_fopen_r _ F D w origin); [exact Hw|done|]. intros fa w1 Fa Hw1.
  apply wp_bind. eapply (wp_fopen_r _ F _ w1 bz); [exact Hw1|done|]. intros fb w2 Fb Hw2.
  apply wp_bind. eapply (wp_fopen_r _ F _ w2 rd); [exact Hw2|done|]. intros fr w3 Fr Hw3.
  apply wp_bind. eapply (wp_fopen_w _ F _ w3 out); [exact Hw3|done|]. intros fo w4 Fo Hw4.
  fresh_fds. apply wp_bind, wp_malloc.
  { intros w' _ Hq. destruct Hw4 as [_ _ Hw4]. specialize (Hq Hw4). lia. }
  intros w5 Hu _. cbn [negb].
  assert (Hw5 : calm _ _ w5) by (destruct Hw4 as [E1 E2 E3], Hu as (U1 & U2 & U3); split; [by rewrite U1|by rewrite U2|auto]).
  clear Hw4 Hu. apply wp_bind.
  eapply (wp_fread_calm _ _ _ w5 (stream fa) fa origin 0 false Regular o); [exact Hw5|done|maps|maps|lia|lia|].
  intros w6 f6 _. cbv zeta. rewrite Nat2Z.id. change (Z.to_nat 0) with 0%nat.
  assert (Et : slice 0 sizeof_bootheader o = take sizeof_bootheader o) by (unfold slice; by rewrite drop_0). rewrite Et.
  assert (Lt : length (take sizeof_bootheader o) = sizeof_bootheader) by (rewrite length_take; lia). rewrite Lt.
  intros Hw6. replace (sizeof_bootheader <? sizeof_bootheader)%nat with false by (symmetry; apply Nat.ltb_ge; lia).
  apply wp_bind. eapply (wp_stat_calm _ _ _ w6 bz b); [exact Hw6|maps|]. cbn [Z.eqb negb].
  apply wp_bind. eapply (wp_stat_calm _ _ _ w6 rd r); [exact Hw6|maps|]. cbn [Z.eqb negb].
  assert (Ep : patch_header (take sizeof_bootheader o) (Z.of_nat (length b)) (Z.of_nat (length r)) =
    (packed_header o b r, if image_size b r mod 512 =? 0 then None else Some (512 - image_size b r mod 512))).
  { rewrite <-(patch_padding o b r Hl Hsz). apply surjective_pairing. }
  rewrite Ep. clear Ep. set (h := packed_header o b r).
  assert (Lh : length h = sizeof_bootheader) by (apply length_packed_header; done).
  apply wp_bind. eapply (wp_fwrite_calm _ _ _ w6 (stream fo) fo out false []); [exact Hw6|done|maps|maps|].
  cbn [app]. intros w7 Hw7. rewrite Lh, Z.ltb_irrefl.
  apply wp_bind. eapply (wp_copy_stream _ _ fb fo bz out Regular b false false h w7 (stream fb) (stream fo));
    [exact Hw7|congruence|congruence|done|done|maps|maps|maps|rewrite lookup_insert_eq; by rewrite Lh|].
  intros w8 Hw8.
  apply wp_bind. eapply (wp_copy_stream _ _ fr fo rd out Regular r false false (h ++ b) w8 (stream fr) (stream fo));
    [exact Hw8|congruence|congruence|done|done|maps|maps|maps|maps|].
  intros w9 Hw9. unfold copied_files, copied_fds in *.
  destruct (Z.eqb_spec (image_size b r mod 512) 0) as [Ez|Ez].
  - unfold undefined, wp. cbn [fst snd]. eapply HU; [done|]. rewrite !insert_insert_eq, <-app_assoc in Hw9. exact Hw9.
  - apply wp_bind. eapply (wp_fwrite_calm _ _ _ w9 (stream fo) fo out false ((h ++ b) ++ r)); [exact Hw9|done|maps|maps|].
    intros w10 Hw10. rewrite length_replicate, Z2Nat.id by lia. rewrite Z.ltb_irrefl. apply wp_ret.
    eapply HQ; [done|]. rewrite !insert_insert_eq, <-!app_assoc in Hw10. exact Hw10.
Qed.

(** The kernel and the ramdisk of an image, where its header says they are. *)
Definition kernel_of (d : bytes) : bytes := slice sizeof_bootheader (Z.to_nat (bzImageSize d)) d.
Definition ramdisk_of (d : bytes) : bytes :=
  slice (sizeof_bootheader + Z.to_nat (bzImageSize d)) (Z.to_nat (initrdSize d)) d.

Record unpackable (F : gmap string file) (img p q : string) (d : bytes) : Prop := {
  ub_image : F !! img = Some (mkFile Regular d);
  ub_kernel : F !! p = None \/ exists x, F !! p = Some (mkFile Regular x);
  ub_ramdisk : F !! q = None \/ exists x, F !! q = Some (mkFile Regular x);
  ub_apart : p <> img /\ q <> img /\ p <> q;
  ub_bytes : bytes_ok d
}.

Lemma wp_read_length {B} (Q : outcome B -> world -> Prop) kont F D w f fd img pos wr d off :
  calm F D w -> fl_fd f = fd -> D !! fd = Some (mkFd img pos true wr) -> F !! img = Some (mkFile Regular d) ->
  (off + 4 <= length d)%nat -> (off < Z.to_nat (2 ^ 62))%nat ->
  (forall w' f', fl_fd f' = fd -> calm F (<[ fd := mkFd img (Z.of_nat (off + 4)) true wr ]> D) w' ->
     wp Q (kont (Some (f', getn 4 off d))) w') ->
  wp Q (bind (read_length f (Z.of_nat off)) kont) w.
Proof.
  intros Hw Hf Hd Hi Hlen Ho H. unfold read_length. apply wp_assoc, wp_bind.
  eapply (wp_fseek_calm _ F D w f fd img pos true wr); [done|done|done|done|lia|].
  intros w1 f1 Hf1 Hw1. cbn [Z.eqb]. apply wp_assoc, wp_bind.
  eapply (wp_fread_calm _ F _ w1 f1 fd img (Z.of_nat off) wr Regular d); [exact Hw1|done|maps|done|lia|lia|].
  intros w2 f2 Hf2. cbv zeta. rewrite Nat2Z.id. change (Z.to_nat 4) with 4%nat. intros Hw2.
  assert (El : length (slice off 4 d) = 4%nat) by (rewrite length_slice; lia). rewrite El.
  apply wp_bind, wp_ret. cbn [Nat.ltb Nat.leb]. apply H; [done|].
  rewrite El, insert_insert_eq, <-Nat2Z.inj_add in Hw2. exact Hw2.
Qed.

Lemma wp_extract F D fin fout p q k d wr rd off out w missing from to (Q : outcome unit -> world -> Prop) :
  calm F D w -> fin <> fout -> p <> q -> fl_fd from = fin -> fl_fd to = fout ->
  F !! p = Some (mkFile k d) -> F !! q = Some (mkFile Regular out) ->
  D !! fin = Some (mkFd p (Z.of_nat off) true wr) -> D !! fout = Some (mkFd q (Z.of_nat (length out)) rd true) ->
  0 <= missing -> (off + Z.to_nat missing <= length d)%nat ->
  (forall w', calm (copied_files q (out ++ slice off (Z.to_nat missing) d) F)
     (copied_fds fin fout p q (off + Z.to_nat missing) (out ++ slice off (Z.to_nat missing) d) wr rd D) w' -> Q (Ret tt) w') ->
  wp Q (extract missing from to) w.
Proof.
  intros Hw Hne Hpq Hf Ht Hp Hq Hi Ho H0 Hle H. unfold extract, wp at 1.
  change (wp Q (extract_loop (Z.to_nat missing + length (w_faults w)) missing from to) w).
  eapply (wp_extract_loop fin fout p q k d wr rd Hne Hpq F D off out);
    [by apply copying_intro|done|done|done|done|lia|].
  intros w' [_ Hw']. by apply H.
Qed.

Lemma insert_overwritten (F : gmap string file) p q a b x y : p <> q ->
  <[ q := b ]> (<[ p := a ]> (<[ q := y ]> (<[ p := x ]> F))) = <[ q := b ]> (<[ p := a ]> F).
Proof. intros H. by rewrite (insert_insert_ne _ q p), insert_insert_eq, (insert_insert_ne _ p q), insert_insert_eq by done. Qed.

Lemma wp_unpack F D w img p q d (Q : outcome Z -> world -> Prop) :
  calm F D w -> unpackable F img p q d ->
  Z.of_nat sizeof_bootheader + bzImageSize d + initrdSize d <= Z.of_nat (length d) ->
  (forall D' w', calm (<[ q := mkFile Regular (ramdisk_of d) ]> (<[ p := mkFile Regular (kernel_of d) ]> F)) D' w' ->
     Q (Ret 0) w') ->
  wp Q (unpack_main [img; p; q]) w.
Proof.
  intros Hw [H1 H2 H3 (N1 & N2 & N3) Bd] Hlen HQ. unfold unpack_main.
  pose proof (getn_bound 4 CMDLINE_END d Bd) as Hb. pose proof (getn_bound 4 (CMDLINE_END + 4) d Bd) as Hr.
  unfold bzImageSize, initrdSize in Hlen. change (2 ^ (8 * Z.of_nat 4)) with (2 ^ 32) in *.
  apply wp_bind. eapply (wp_fopen_r _ F D w img); [exact Hw|done|]. intros fi w1 Fi Hw1.
  apply wp_bind. eapply (wp_fopen_w _ F _ w1 p); [exact Hw1|done|]. intros fp w2 Fp Hw2.
  apply wp_bind. eapply (wp_fopen_w _ _ _ w2 q); [exact Hw2|by rewrite lookup_insert_ne|]. intros fq w3 Fq Hw3.
  fresh_fds. rewrite CMDLINE_END_eq, sizeof_bootheader_eq in *.
  change (Z.to_nat 2016 + 4)%nat with (Z.to_nat 2020) in *.
  eapply (wp_read_length _ _ _ _ w3 (stream fi) fi img 0 false d); [exact Hw3|done|maps|maps|lia|lia|].
  intros w4 f4 Hf4 Hw4.
  eapply (wp_read_length _ _ _ _ w4 f4 fi img _ false d); [exact Hw4|done|maps|maps|lia|lia|].
  intros w5 f5 Hf5 Hw5.
  apply wp_bind. eapply (wp_fseek_calm _ _ _ w5 f5 fi img _ true false); [exact Hw5|done|maps|maps|lia|].
  intros w6 f6 Hf6 Hw6. cbn [Z.eqb].
  apply wp_bind.
  eapply (wp_extract _ _ fi fp img p Regular d false false (Z.to_nat 13280) [] w6);
    [exact Hw6|congruence|congruence|done|done|maps|maps|maps|maps|lia|lia|].
  intros w7 Hw7. cbn [app] in Hw7. unfold copied_files, copied_fds in Hw7.
  apply wp_bind. eapply (wp_fseek_calm _ _ _ w7 f6 fi img _ true false); [exact Hw7|done|maps|maps|lia|].
  intros w8 f8 Hf8 Hw8. cbn [Z.eqb].
  apply wp_bind.
  eapply (wp_extract _ _ fi fq img q Regular d false false (Z.to_nat 13280 + Z.to_nat (getn 4 (Z.to_nat 2016) d)) [] w8);
    [exact Hw8|congruence|congruence|done|done|maps|maps| |maps|lia|lia|].
  { rewrite lookup_insert_eq. do 2 f_equal. lia. }
  intros w9 Hw9. cbn [app] in Hw9. apply wp_ret. eapply HQ.
  unfold copied_files in Hw9. unfold ramdisk_of, kernel_of, bzImageSize, initrdSize.
  rewrite sizeof_bootheader_eq, CMDLINE_END_eq in *.
  rewrite insert_overwritten in Hw9 by done. exact Hw9.
Qed.

(** when no call fails, [pack_main] writes the header with the sizes, the kernel, the ramdisk
    and the filling up to a whole sector, and touches no other file; the header sums to zero over
    its first 56 bytes and is otherwise that of the origin. *)
Theorem pack_builds_image w origin bz rd out o b r :
  quiet w -> packable (w_files w) origin bz rd out o b r -> image_size b r mod 512 <> 0 ->
  wp (fun res w' => res = Ret 0 /\
        w_files w' = <[ out := mkFile Regular (boot_image o b r) ]> (w_files w) /\
        length (boot_image o b r) = (512 * Z.to_nat (sectors (boot_image o b r) + 1))%nat /\
        bzImageSize (boot_image o b r) = Z.of_nat (length b) /\ initrdSize (boot_image o b r) = Z.of_nat (length r) /\
        xor_all (slice 0 HEADER_SIZE (boot_image o b r)) = 0 /\
        forall i, (i < sizeof_bootheader)%nat -> ~ stored_field i -> boot_image o b r !! i = o !! i)
     (pack_main [origin; bz; rd; out]) w.
Proof.
  intros Hq Hp Hm. pose proof Hp as [_ _ _ _ _ Hl Bo Hsz].
  eapply (wp_pack (w_files w) (w_fds w)); [done|exact Hp| |done].
  intros D' w' _ [E1 _ _]. split; [done|]. split; [done|].
  pose proof (length_packed_header o b r Hl) as Lh.
  destruct (packed_header_fields o b r Hl Hsz Bo) as (P1 & P2 & P3 & P4 & P5).
  assert (Hget : forall n off, (off + n <= sizeof_bootheader)%nat ->
    slice off n (boot_image o b r) = slice off n (packed_header o b r)).
  { intros n off Hn. unfold boot_image, slice. rewrite drop_app_le by lia. apply take_app_le. rewrite length_drop. lia. }
  unfold sectors, bzImageSize, initrdSize, getn in *. rewrite !Hget by layout.
  split_and!; try done.
  - rewrite P3. unfold boot_image. rewrite !length_app, length_replicate, Lh.
    clear - Hsz Hm. unfold image_size in *. layout.
  - intros i Hi Hn. unfold boot_image. rewrite lookup_app_l by lia. by apply P5.
Qed.

Lemma boot_image_parts o b r : (sizeof_bootheader <= length o)%nat -> image_size b r < 2 ^ 32 - 512 -> bytes_ok o ->
  bzImageSize (boot_image o b r) = Z.of_nat (length b) /\ initrdSize (boot_image o b r) = Z.of_nat (length r) /\
  kernel_of (boot_image o b r) = b /\ ramdisk_of (boot_image o b r) = r /\
  Z.of_nat sizeof_bootheader + Z.of_nat (length b) + Z.of_nat (length r) <= Z.of_nat (length (boot_image o b r)).
Proof.
  intros Hl Hsz Bo. pose proof (length_packed_header o b r Hl) as Lh.
  destruct (packed_header_fields o b r Hl Hsz Bo) as (P1 & P2 & _).
  assert (Hget : forall n off, (off + n <= sizeof_bootheader)%nat ->
    getn n off (boot_image o b r) = getn n off (packed_header o b r)).
  { intros n off Hn. unfold boot_image, getn, slice. rewrite drop_app_le by lia. f_equal. apply take_app_le.
    rewrite length_drop. lia. }
  assert (Q1 : bzImageSize (boot_image o b r) = Z.of_nat (length b)) by (unfold bzImageSize; rewrite Hget by layout; done).
  assert (Q2 : initrdSize (boot_image o b r) = Z.of_nat (length r)) by (unfold initrdSize; rewrite Hget by layout; done).
  unfold kernel_of, ramdisk_of. rewrite Q1, Q2, !Nat2Z.id. split_and!; try done.
  - unfold boot_image, slice. rewrite drop_app_length' by done. apply take_app_length.
  - unfold boot_image, slice. rewrite <-drop_drop, drop_app_length' by done. rewrite drop_app_length. apply take_app_length.
  - unfold boot_image. rewrite !length_app. lia.
Qed.

(** C21: unpacking a packed image gives back the kernel and the ramdisk. *)
Theorem pack_unpack_round_trip w origin bz rd out p q o b r :
  quiet w -> packable (w_files w) origin bz rd out o b r -> image_size b r mod 512 <> 0 ->
  bytes_ok b -> bytes_ok r -> p <> out -> q <> out -> p <> q ->
  (w_files w !! p = None \/ exists x, w_files w !! p = Some (mkFile Regular x)) ->
  (w_files w !! q = None \/ exists x, w_files w !! q = Some (mkFile Regular x)) ->
  wp (fun res w' => res = Ret 0 /\ w_files w' !! p = Some (mkFile Regular b) /\
        w_files w' !! q = Some (mkFile Regular r))
     (pack_main [origin; bz; rd; out] ;; unpack_main [out; p; q]) w.
Proof.
  intros Hq Hp Hm Bb Br N1 N2 N3 Fp Fq. pose proof Hp as [_ _ _ _ _ Hl Bo Hsz].
  destruct (boot_image_parts o b r Hl Hsz Bo) as (Q1 & Q2 & Q3 & Q4 & Q5).
  apply wp_bind. eapply (wp_pack (w_files w) (w_fds w)); [done|exact Hp| |done].
  intros D' w' _ Hw'. eapply (wp_unpack _ D' w' out p q (boot_image o b r)); [exact Hw'| |by rewrite Q1, Q2|].
  - split; [apply lookup_insert_eq|by rewrite lookup_insert_ne by done..|done|].
    unfold boot_image, packed_header, patch_header. cbn [fst].
    rewrite !bytes_ok_app. split_and!; [|done|done|].
    + unfold set_xor, set_sectors, set_initrdSize, set_bzImageSize. auto 10 with bytes.
    + apply Forall_replicate. unfold is_byte. lia.
  - intros D2 w2 [E1 _ _]. split; [done|]. rewrite E1, Q3, Q4.
    split; [rewrite lookup_insert_ne by done|]; apply lookup_insert_eq.
Qed.

(** when kernel, ramdisk and header fill whole sectors, [pack_main] decides how to fill the
    last one by a variable it never set. *)
Theorem pack_reads_unset_padding w origin bz rd out o b r :
  quiet w -> packable (w_files w) origin bz rd out o b r -> image_size b r mod 512 = 0 ->
  wp (fun res w' => res = Undefined) (pack_main [origin; bz; rd; out]) w.
Proof.
  intros Hq Hp Hm. by eapply (wp_pack (w_files w) (w_fds w)).
Qed.

(** extracting more than the input holds never ends: however many rounds are run, bytes are
    still missing. *)
Theorem extract_never_ends F D fin fout p q k d wr rd off out w fuel missing from to :
  fin <> fout -> p <> q -> copying fin fout p q k d wr rd F D off out w ->
  fl_fd from = fin -> fl_fd to = fout -> (off <= length d)%nat ->
  Z.of_nat (length d - off) < missing ->
  wp (fun res w' => res = Undefined) (extract_loop fuel missing from to) w.
Proof.
  intros Hne Hpq Hw Hf Ht Hoff Hm.
  revert off out w from missing Hw Hf Hoff Hm.
  induction fuel as [|fuel IH]; intros off out w from missing Hw Hf Hoff Hm;
    cbn [extract_loop]; replace (missing <=? 0) with false by lia; [done|].
  set (n := if BUFSIZ <? missing then BUFSIZ else missing).
  assert (Hn : 0 < n <= missing) by (unfold n, BUFSIZ; destruct (Z.ltb_spec 8192 missing); lia).
  eapply (wp_chunk fin fout p q k d wr rd Hne Hpq _ F D off out w n from to
    (fun from => extract_loop fuel missing from to)
    (fun from buf => extract_loop fuel (missing - Z.of_nat (length buf)) from to)); [done|done|done|lia|lia|..].
  - intros from' w' Hf' Heq Hw'. by eapply IH.
  - intros from' w' b Hf' Hb Hw'.
    assert (Hl : length b = (Z.to_nat n `min` (length d - off))%nat) by apply length_slice.
    eapply IH; [exact Hw'|done|lia|lia].
Qed.

Definition an_origin : bytes := replicate sizeof_bootheader 9.
Definition a_kernel : bytes := [1; 2; 3; 4; 5; 6; 7; 8; 9; 10].
Definition a_ramdisk : bytes := [11; 12; 13; 14; 15].

(** The files of a working directory; [r] is the ramdisk. *)
Definition tool_files (r : bytes) : gmap string file :=
  <[ "boot.img"%string := mkFile Regular an_origin ]> (<[ "bzImage"%string := mkFile Regular a_kernel ]>
  (<[ "ramdisk"%string := mkFile Regular r ]> ∅)).

Definition tool_world (r : bytes) : world := mkWorld (tool_files r) ∅ [] 0.

Lemma tool_packable r : image_size a_kernel r < 2 ^ 32 - 512 ->
  packable (tool_files r) "boot.img" "bzImage" "ramdisk" "new.img" an_origin a_kernel r.
Proof.
  intros H. split.
  - apply lookup_insert_eq.
  - unfold tool_files. rewrite lookup_insert_ne by done. apply lookup_insert_eq.
  - unfold tool_files. rewrite !lookup_insert_ne by done. apply lookup_insert_eq.
  - left. unfold tool_files. by rewrite !lookup_insert_ne, lookup_empty by done.
  - done.
  - unfold an_origin. rewrite length_replicate. done.
  - apply Forall_replicate. unfold is_byte. lia.
  - exact H.
Qed.

Lemma pack_builds_image_witness :
  image_size a_kernel a_ramdisk = 13295 /\
  wp (fun res w' => res = Ret 0 /\
        w_files w' = <[ "new.img"%string := mkFile Regular (boot_image an_origin a_kernel a_ramdisk) ]> (tool_files a_ramdisk) /\
        length (boot_image an_origin a_kernel a_ramdisk) =
          (512 * Z.to_nat (sectors (boot_image an_origin a_kernel a_ramdisk) + 1))%nat /\
        bzImageSize (boot_image an_origin a_kernel a_ramdisk) = Z.of_nat (length a_kernel) /\
        initrdSize (boot_image an_origin a_kernel a_ramdisk) = Z.of_nat (length a_ramdisk) /\
        xor_all (slice 0 HEADER_SIZE (boot_image an_origin a_kernel a_ramdisk)) = 0 /\
        forall i, (i < sizeof_bootheader)%nat -> ~ stored_field i ->
          boot_image an_origin a_kernel a_ramdisk !! i = an_origin !! i)
     (pack_main ["boot.img"; "bzImage"; "ramdisk"; "new.img"]%string) (tool_world a_ramdisk).
Proof.
  split; [vm_compute; reflexivity|].
  exact (pack_builds_image (tool_world a_ramdisk) "boot.img" "bzImage" "ramdisk" "new.img" an_origin a_kernel a_ramdisk
    eq_refl (tool_packable a_ramdisk ltac:(vm_compute; reflexivity)) ltac:(vm_compute; discriminate)).
Defined.

Lemma pack_unpack_round_trip_witness :
  image_size a_kernel a_ramdisk = 13295 /\
  wp (fun res w' => res = Ret 0 /\ w_files w' !! "kernel.out"%string = Some (mkFile Regular a_kernel) /\
        w_files w' !! "bzImage"%string = Some (mkFile Regular a_ramdisk))
     (pack_main ["boot.img"; "bzImage"; "ramdisk"; "new.img"]%string ;;
      unpack_main ["new.img"; "kernel.out"; "bzImage"]%string) (tool_world a_ramdisk).
Proof.
  split; [vm_compute; reflexivity|].
  apply (pack_unpack_round_trip (tool_world a_ramdisk) "boot.img" "bzImage" "ramdisk" "new.img" "kernel.out" "bzImage"
    an_origin a_kernel a_ramdisk); try done.
  - apply tool_packable. vm_compute. reflexivity.
  - apply bytes_okb_ok. vm_compute. reflexivity.
  - apply bytes_okb_ok. vm_compute. reflexivity.
  - left. unfold tool_world, tool_files. cbn [w_files]. by rewrite !lookup_insert_ne, lookup_empty by done.
  - right. exists a_kernel. unfold tool_world, tool_files. cbn [w_files].
    rewrite lookup_insert_ne by done. apply lookup_insert_eq.
Defined.

Definition aligned_ramdisk : bytes := replicate 22 7.

Lemma pack_reads_unset_padding_witness :
  image_size a_kernel aligned_ramdisk mod 512 = 0 /\
  wp (fun res w' => res = Undefined) (pack_main ["boot.img"; "bzImage"; "ramdisk"; "new.img"]%string)
     (tool_world aligned_ramdisk).
Proof.
  split; [vm_compute; reflexivity|].
  exact (pack_reads_unset_padding (tool_world aligned_ramdisk) "boot.img" "bzImage" "ramdisk" "new.img"
    an_origin a_kernel aligned_ramdisk eq_refl (tool_packable aligned_ramdisk ltac:(vm_compute; reflexivity))
    ltac:(vm_compute; reflexivity)).
Defined.

(** Two open streams: three bytes to read, ten to copy. *)
Definition short_files : gmap string file := <[ "in"%string := mkFile Regular [1; 2; 3] ]> ∅.

Definition short_world : world :=
  mkWorld (copied_files "out" [] short_files) (copied_fds 3 4 "in" "out" 0 [] false false ∅) [] 0.

Lemma extract_never_ends_witness :
  Z.of_nat (length [1; 2; 3] - 0) < 10 /\
  wp (fun res w' => res = Undefined) (extract_loop 1000 10 (stream 3) (stream 4)) short_world.
Proof.
  split; [vm_compute; reflexivity|].
  apply (extract_never_ends short_files ∅ 3 4 "in" "out" Regular [1; 2; 3] false false 0 [] short_world 1000 10
    (stream 3) (stream 4)); try done.
  cbn. lia.
Defined.
