(* ===== verification/FwVersionSpec.v ===== *)
(** * Firmware versions (theorems about fw_version_check.c) *)

From stdpp Require Import base list numbers gmap strings.
From Stdlib Require Import ZArith Lia.
From S2P Require Import Prelude Xor GuidStr Posix CLib BootToolsSpec FwVersion.

(** ** Comparing *)

Definition version_ok (v : fw_version) : Prop := is_byte (major v) /\ is_byte (minor v).

(** versions are compared by their major numbers, and by their minor numbers when those agree. *)
Theorem fw_vercmp_lexicographic v1 v2 : version_ok (ifwi v1) -> version_ok (ifwi v2) ->
  fw_vercmp v1 v2 = match major (ifwi v1) ?= major (ifwi v2) with
                    | Lt => -1
                    | Gt => 1
                    | Eq => match minor (ifwi v1) ?= minor (ifwi v2) with Lt => -1 | Eq => 0 | Gt => 1 end
                    end.
Proof.
  unfold version_ok, is_byte. intros [H1 H2] [H3 H4]. unfold fw_vercmp, u16. rewrite !Z.shiftl_mul_pow2 by lia.
  rewrite !Z.mod_small by lia.
  destruct (Z.compare_spec (major (ifwi v1)) (major (ifwi v2))), (Z.compare_spec (minor (ifwi v1)) (minor (ifwi v2)));
    repeat (match goal with |- context [?a <? ?b] => destruct (Z.ltb_spec a b) end); lia.
Qed.

(** ** The FIP headers of an image *)

Definition is_nil {A} (l : list A) : bool := match l with [] => true | _ => false end.

#[export] Instance fw_version_eq_dec : EqDecision fw_version.
Proof. solve_decision. Defined.

(** Where a header of [sizeof_fip] bytes may start in [sz] bytes: every fourth byte. *)
Definition places (sizeof_fip : nat) (sz : Z) : nat :=
  if sz <? Z.of_nat sizeof_fip then 0%nat else S (Z.to_nat ((sz - Z.of_nat sizeof_fip) / 4)).

Definition has_magic (d : bytes) : Prop := getn 4 0 d = FIP_PATTERN.
#[export] Instance has_magic_dec d : Decision (has_magic d) := decide (getn 4 0 d = FIP_PATTERN).

(** The rests of the image from every fourth byte on, and those that start with a header. *)
Definition rests (n : nat) (data : bytes) : list bytes := map (fun j => drop (4 * j) data) (seq 0 n).
Definition headers (sizeof_fip : nat) (data : bytes) (sz : Z) : list bytes :=
  filter has_magic (rests (places sizeof_fip sz) data).


Lemma rests_cons n data : rests (S n) data = data :: rests n (drop 4 data).
Proof.
  unfold rests. cbn [seq map]. f_equal. rewrite <-seq_shift, map_map. apply map_ext.
  intros j. rewrite drop_drop. f_equal. lia.
Qed.

Section Scan.
Context (sizeof_fip : nat) (Hfip : (4 <= sizeof_fip)%nat).

Lemma places_0 sz : places sizeof_fip sz = 0%nat <-> sz < Z.of_nat sizeof_fip.
Proof using Hfip. unfold places. destruct (Z.ltb_spec sz (Z.of_nat sizeof_fip)); split; intros; lia. Qed.

Lemma places_S sz n : places sizeof_fip sz = S n -> Z.of_nat sizeof_fip <= sz /\ places sizeof_fip (sz - 4) = n.
Proof using Hfip.
  unfold places. destruct (Z.ltb_spec sz (Z.of_nat sizeof_fip)); [done|]. intros [= <-]. split; [done|].
  destruct (Z.ltb_spec (sz - 4) (Z.of_nat sizeof_fip)); lia.
Qed.

(** The first header among the rests, as the inner loop finds it. *)
Lemma find_magic_spec fuel n data sz : places sizeof_fip sz = n -> (n <= fuel)%nat -> sz <= Z.of_nat (length data) ->
  (Forall (fun d => ~ has_magic d) (rests n data) /\
   exists data' sz', find_magic sizeof_fip fuel data sz = Some (false, data', sz') /\ sz' < Z.of_nat sizeof_fip) \/
  (exists j d sz', (j < n)%nat /\ find_magic sizeof_fip fuel data sz = Some (true, d, sz') /\ has_magic d /\
     Z.of_nat sizeof_fip <= sz' <= Z.of_nat (length d) /\ places sizeof_fip (sz' - 4) = (n - S j)%nat /\
     filter has_magic (rests n data) = d :: filter has_magic (rests (n - S j) (drop 4 d))).
Proof using Hfip.
  revert n data sz. induction fuel as [|fuel IH]; intros n data sz Hn Hf Hsz;
    (destruct n as [|n]; [left; split; [constructor|]; apply places_0 in Hn; exists data, sz;
       split; [|done]; cbn [find_magic]; by replace (Z.of_nat sizeof_fip <=? sz) with false by lia|]); [lia|].
  destruct (places_S _ _ Hn) as [Hle Hn']. cbn [find_magic]. replace (Z.of_nat sizeof_fip <=? sz) with true by lia.
  assert ((length data <? 4)%nat = false) as -> by (apply Nat.ltb_ge; lia).
  rewrite rests_cons. destruct (Z.eqb_spec (getn 4 0 data) FIP_PATTERN) as [E|E].
  - right. exists 0%nat, data, sz. split_and!; try done; try lia.
    rewrite filter_cons_True by done. do 3 f_equal. lia.
  - destruct (IH n (drop 4 data) (sz - 4) Hn') as [(Hall & data' & sz' & Hfm & Hlt)|(j & d & sz' & Hj & Hfm & Hd & Hs & Hp & Hfil)];
      [lia|rewrite length_drop; lia| |].
    + left. split; [by constructor|]. eauto.
    + right. exists (S j), d, sz'. split_and!; try done; try lia. by rewrite filter_cons_False.
Qed.

(** Both loops together apply the update to every header in turn. *)
Lemma scan_image_spec {V} (update : bytes -> V -> V) fuel data sz mf v :
  (places sizeof_fip sz = 0 \/ places sizeof_fip sz < fuel)%nat -> sz <= Z.of_nat (length data) ->
  let hs := headers sizeof_fip data sz in
  scan_image sizeof_fip update fuel data sz mf v =
  Some (if (places sizeof_fip sz =? 0)%nat || mf || negb (is_nil hs) then 0 else -1,
        fold_left (fun v d => update d v) hs v).
Proof using Hfip.
  cbv zeta. unfold headers. revert data sz mf v. induction fuel as [|fuel IH]; intros data sz mf v Hp Hsz;
    (destruct (places sizeof_fip sz) as [|n] eqn:En;
     [apply places_0 in En; cbn [scan_image]; by replace (Z.of_nat sizeof_fip <=? sz) with false by lia|]); [lia|].
  destruct (places_S _ _ En) as [Hle Hn']. cbn [scan_image]. replace (Z.of_nat sizeof_fip <=? sz) with true by lia.
  destruct (find_magic_spec fuel (S n) data sz En) as [(Hall & data' & sz' & Hfm & Hlt)|(j & d & sz' & Hj & Hfm & Hd & Hs & Hpl & Hfil)];
    [lia|done|rewrite Hfm|rewrite Hfm, Hfil].
  - assert (filter has_magic (rests (S n) data) = []) as ->.
    { clear -Hall. induction Hall as [|x l Hx _ IH]; [done|]. by rewrite filter_cons_False. }
    cbn [is_nil negb fold_left]. rewrite !orb_false_r. destruct mf; [|done]. cbn [orb negb Nat.eqb].
    by replace (sz' <? Z.of_nat sizeof_fip) with true by lia.
  - rewrite orb_true_r. cbn [negb]. replace (sz' <? Z.of_nat sizeof_fip) with false by lia.
    assert ((length d <? sizeof_fip)%nat = false) as -> by (apply Nat.ltb_ge; lia).
    rewrite IH, Hpl; [|lia|rewrite length_drop; lia]. cbn [is_nil negb fold_left]. rewrite !orb_true_r. done.
Qed.
End Scan.

(** The last value that is not null, and 0 when there is none. *)
Definition last_nonnull (l : list Z) : Z := default 0 (last (filter (fun x => x <> 0) l)).

(** The version at [major_off] and [minor_off] of the last headers that have one. *)
Definition latest (hs : list bytes) (major_off minor_off width : nat) : fw_version :=
  mkVersion (last_nonnull (map (getn width major_off) hs)) (last_nonnull (map (getn width minor_off) hs)).

Lemma last_nonnull_snoc l x : last_nonnull (l ++ [x]) = nonnull x (last_nonnull l).
Proof.
  unfold last_nonnull, nonnull. rewrite filter_app, filter_cons, filter_nil.
  destruct (Z.eqb_spec x 0) as [->|Hx]; [rewrite decide_False by congruence; by rewrite app_nil_r|].
  rewrite decide_True by done. by rewrite last_snoc.
Qed.

Lemma latest_snoc hs d a b n : latest (hs ++ [d]) a b n = update_version d a b n (latest hs a b n).
Proof. unfold latest, update_version. rewrite !map_app. cbn [map major minor]. by rewrite !last_nonnull_snoc. Qed.

Definition image_versions (hs : list bytes) : firmware_versions :=
  mkFirmware (latest hs 41 40 1) (latest hs 26 25 1) (latest hs 18 17 1) (latest hs 14 13 1) (latest hs 10 9 1)
    (latest hs 22 21 1) (latest hs 30 29 1) (latest hs 34 33 1) (latest hs 38 37 1).

Definition image_versions_long (hs : list bytes) : firmware_versions_long :=
  mkFirmwareLong zero_version (latest hs 62 60 2) (latest hs 86 84 2) (latest hs 94 92 2) (latest hs 346 344 2)
    (latest hs 38 36 2) (latest hs 78 76 2).

Lemma fold_snoc {V} (update : bytes -> V -> V) (f : list bytes -> V) hs :
  (forall l d, f (l ++ [d]) = update d (f l)) -> fold_left (fun v d => update d v) hs (f []) = f hs.
Proof.
  intros H. induction hs as [|d hs IH] using rev_ind; [done|]. rewrite fold_left_app. cbn [fold_left]. by rewrite H, IH.
Qed.

(** The return value for an image of [sz] bytes with these headers. *)
Definition scan_result (sizeof_fip : nat) (sz : Z) (hs : list bytes) : Z :=
  if (sz <? Z.of_nat sizeof_fip) || negb (is_nil hs) then 0 else -1.

Lemma scan_image_from_zero {V} sizeof_fip (update : bytes -> V -> V) (f : list bytes -> V) data sz :
  (4 <= sizeof_fip)%nat -> 0 <= sz <= Z.of_nat (length data) -> (forall l d, f (l ++ [d]) = update d (f l)) ->
  scan_image sizeof_fip update (Z.to_nat sz) data sz false (f []) =
  Some (scan_result sizeof_fip sz (headers sizeof_fip data sz), f (headers sizeof_fip data sz)).
Proof.
  intros Hs Hsz Hf. rewrite scan_image_spec; [|done| |lia].
  2:{ unfold places. destruct (Z.ltb_spec sz (Z.of_nat sizeof_fip)); lia. }
  rewrite (fold_snoc update f) by done. unfold scan_result. rewrite orb_false_r.
  do 3 f_equal. unfold places. by destruct (Z.ltb_spec sz (Z.of_nat sizeof_fip)).
Qed.

(** the versions of an image are, component by component, the last that is not null among
    the FIP headers at every fourth byte; the scan fails when the image is large enough for a
    header and has none.  This holds for both kinds of headers. *)
Theorem get_image_fw_rev_takes_last_nonnull data sz : 0 <= sz <= Z.of_nat (length data) ->
  get_image_fw_rev data sz true =
    Some (scan_result sizeof_FIP sz (headers sizeof_FIP data sz), image_versions (headers sizeof_FIP data sz)) /\
  get_image_fw_rev_long data sz true =
    Some (scan_result sizeof_FIP_long sz (headers sizeof_FIP_long data sz),
          image_versions_long (headers sizeof_FIP_long data sz)).
Proof.
  intros H. unfold get_image_fw_rev, get_image_fw_rev_long. cbn [negb]. split.
  - change zero_firmware with (image_versions []). apply scan_image_from_zero; [unfold sizeof_FIP; lia|done|].
    intros l d. unfold image_versions, update_firmware. rewrite !latest_snoc. done.
  - change zero_firmware_long with (image_versions_long []).
    apply scan_image_from_zero; [unfold sizeof_FIP_long; lia|done|].
    intros l d. unfold image_versions_long, update_firmware_long. rewrite !latest_snoc. done.
Qed.

(** ** The versions of the running firmware *)

(** The text the kernel reports: two digits for each byte, separated by blanks. *)
Definition reported (l : list Z) : bytes := concat (map (fun b => fmt_X 2 b ++ [32]) l).

Lemma hex_char_not_blank d : 0 <= d < 16 -> hex_char d <> 32 /\ hex_char d <> 0.
Proof. unfold hex_char. case_match; lia. Qed.

Lemma fmt_X_2 b : is_byte b -> fmt_X 2 b = [hex_char (b / 16); hex_char (b mod 16)].
Proof.
  intros H. unfold is_byte in H. rewrite fmt_X_digits by (change (16 ^ Z.of_nat 2) with 256; lia). cbn [hex_digits app].
  rewrite (Z.mod_small (b / 16)) by lia. done.
Qed.

Lemma tokens_reported l rest : Forall is_byte l ->
  tokens (reported l ++ rest) = map (fmt_X 2) l ++ tokens rest.
Proof.
  unfold tokens. induction 1 as [|b l Hb _ IH]; [done|]. cbn [reported map concat].
  fold (reported l). rewrite fmt_X_2 by done. unfold is_byte in Hb.
  destruct (hex_char_not_blank (b / 16)), (hex_char_not_blank (b mod 16)); [lia..|].
  cbn [app tokens_from]. rewrite !(proj2 (Z.eqb_neq _ _)) by done. cbn [app tokens_from].
  change (32 =? 32) with true. cbn [is_null app]. f_equal. exact IH.
Qed.

Lemma c_string_reported l : Forall is_byte l -> c_string (reported l) = reported l.
Proof.
  induction 1 as [|b l Hb _ IH]; [done|]. cbn [reported map concat]. fold (reported l).
  rewrite fmt_X_2 by done. unfold is_byte in Hb.
  destruct (hex_char_not_blank (b / 16)), (hex_char_not_blank (b mod 16)); [lia..|].
  cbn [app c_string]. rewrite !(proj2 (Z.eqb_neq _ _)) by done. change (32 =? 0) with false. by rewrite IH.
Qed.

Lemma length_reported l : Forall is_byte l -> length (reported l) = (3 * length l)%nat.
Proof.
  induction 1 as [|b l Hb _ IH]; [done|]. cbn [reported map concat]. fold (reported l).
  rewrite fmt_X_2 by done. cbn [app length]. lia.
Qed.

Lemma sscanf_x_fmt b : is_byte b -> sscanf_x (fmt_X 2 b) = (1, Some b).
Proof.
  intros Hb. unfold is_byte in Hb. unfold sscanf_x.
  assert (L : length (fmt_X 2 b) = 2%nat) by (by rewrite fmt_X_2).
  pose proof (scan_X_fmt 2 b [] ltac:(change (16 ^ Z.of_nat 2) with 256; lia) ltac:(lia) ltac:(lia)) as E.
  rewrite app_nil_r in E. rewrite L, E.
  pose proof (skip_digits 2 b [] ltac:(lia) ltac:(lia)) as Es. rewrite app_nil_r in Es.
  rewrite fmt_X_digits, Es by (change (16 ^ Z.of_nat 2) with 256; lia).
  assert (L2 : length (hex_digits 2 b) = 2%nat) by apply length_hex_digits.
  by destruct (hex_digits 2 b).
Qed.

Lemma parse_reported l pre n : Forall is_byte l ->
  parse_revisions (map (fmt_X 2) l) (length pre + n) (length pre) (pre ++ replicate n 0) =
  (0, pre ++ take n l ++ replicate (n - length l) 0).
Proof.
  intros Hl. revert pre n. induction Hl as [|b l Hb _ IH]; intros pre n.
  { cbn. by rewrite take_nil, Nat.sub_0_r. }
  cbn [map parse_revisions]. destruct n as [|n].
  - assert ((length pre <? length pre + 0)%nat = false) as -> by (apply Nat.ltb_ge; lia). done.
  - assert ((length pre <? length pre + S n)%nat = true) as -> by (apply Nat.ltb_lt; lia).
    rewrite sscanf_x_fmt by done.
    assert (E : <[length pre := b]> (pre ++ replicate (S n) 0) = (pre ++ [b]) ++ replicate n 0).
    { rewrite <-(Nat.add_0_r (length pre)), insert_app_r, <-app_assoc. done. }
    rewrite E. specialize (IH (pre ++ [b]) n). rewrite length_app in IH. cbn [length] in IH.
    replace (length pre + 1 + n)%nat with (length pre + S n)%nat in IH by lia.
    replace (length pre + 1)%nat with (S (length pre)) in IH by lia. rewrite IH.
    cbn [take length Nat.sub app]. by rewrite <-app_assoc.
Qed.

(** The file that reports the versions is read through the first name, or through the second. *)
Definition reports (w : world) (text : bytes) : Prop :=
  w_files w !! DEVICE_NAME = Some (mkFile Regular text) \/
  w_files w !! DEVICE_NAME = None /\ w_files w !! DEVICE_NAME_ALT = Some (mkFile Regular text).

Lemma wp_read_revision {B} (Q : outcome B -> world -> Prop) kont len w text :
  quiet w -> reports w text ->
  (forall w', w_files w' = w_files w -> w_fds w' = w_fds w ->
     wp Q (kont (parse_revisions (tokens (c_string (take 255 text))) len 0 (replicate len 0))) w') ->
  wp Q (bind (read_fw_revision len) kont) w.
Proof.
  intros Hq Ht H. unfold read_fw_revision.
  assert (Hrest : forall fd path w1, 0 <= fd -> w_files w1 = w_files w -> quiet w1 ->
    w_files w !! path = Some (mkFile Regular text) -> delete fd (w_fds w1) = w_fds w ->
    w_fds w1 !! fd = Some (mkFd path 0 true false) ->
    wp Q (bind (if fd <? 0 then ret (fd, replicate len 0) else
      let! (r, buf) := sys_read fd (READ_SZ - 1) in
      let '(r, fw_revision) :=
        if r <? 0 then (r, replicate len 0) else parse_revisions (tokens (c_string buf)) len 0 (replicate len 0) in
      sys_close fd ;; ret (r, fw_revision)) kont) w1).
  { intros fd path w1 Hfd E1 Hq1 Hp E2 E3. replace (fd <? 0) with false by lia.
    assert (Hff : fd_file w1 fd = Some (mkFd path 0 true false, mkFile Regular text))
      by (unfold fd_file; rewrite E3; cbn; by rewrite E1, Hp).
    apply wp_assoc, wp_bind. eapply wp_read; [exact Hff|done|done|by intros ? _ []|].
    cbn [fd_off f_data]. intros w2 n. cbv zeta. intros Hn1 Hn2 Hn3 (M1 & M2 & M3). specialize (Hn3 Hq1).
    replace (n <? 0) with false by lia.
    assert (Es : slice (Z.to_nat 0) (Z.to_nat n) text = take 255 text).
    { unfold slice. rewrite drop_0. unfold READ_SZ in Hn3.
      destruct (Nat.le_gt_cases 255 (length text)); [f_equal; lia|]. rewrite !take_ge by lia. done. }
    rewrite Es. set (res := parse_revisions _ _ _ _) in *. destruct res as [r fw] eqn:Er.
    apply wp_assoc, wp_bind. eapply wp_close.
    { unfold fd_file. rewrite M2, lookup_insert_eq. cbn. by rewrite M1, E1, Hp. }
    intros w3 F1 F2 _. apply wp_bind, wp_ret. apply H; [congruence|].
    by rewrite F2, M2, delete_insert_eq. }
  apply wp_assoc, wp_bind. destruct Ht as [Hp|[Hn Hp]].
  - eapply wp_open; [done|done|intros w' _ Hf; destruct (Hf Hq) as [?|[? ?]]; congruence|].
    intros w1 fd f _ _ Hfd Hgt F1 F2 F3. apply wp_assoc, wp_bind. replace (fd <? 0) with false by lia. apply wp_ret.
    eapply Hrest; [lia|done|auto|exact Hp|by rewrite F2, delete_insert_id|by rewrite F2, lookup_insert_eq].
  - eapply wp_open; [done|done| |intros; congruence].
    intros w1 (U1 & U2 & U3) _. apply wp_assoc, wp_bind. cbn [Z.ltb Z.compare].
    eapply wp_open; [done|done|intros w' _ Hf; destruct (Hf (U3 Hq)) as [?|[? ?]]; congruence|].
    intros w2 fd f _ _ Hfd Hgt F1 F2 F3.
    eapply Hrest; [lia|congruence|auto|exact Hp|rewrite F2, delete_insert_id; congruence|by rewrite F2, lookup_insert_eq].
Qed.

(** when the kernel reports the bytes [l], sixteen or thirty-two of them, [get_current_fw_rev]
    and [get_current_fw_rev_long] answer the versions made of them, whichever of the two files
    reports them; no descriptor stays open. *)
Theorem get_current_fw_rev_reads w l :
  quiet w -> Forall is_byte l -> reports w (reported l) ->
  (length l = 16%nat -> wp (fun o w' => o = Ret (0, Some (current_versions l)) /\ w_files w' = w_files w /\ w_fds w' = w_fds w)
     get_current_fw_rev w) /\
  (length l = 32%nat -> wp (fun o w' => o = Ret (0, Some (current_versions_long l)) /\ w_files w' = w_files w /\ w_fds w' = w_fds w)
     get_current_fw_rev_long w).
Proof.
  intros Hq Hl Hr.
  assert (E : forall n, length l = n -> (n <= 32)%nat ->
    parse_revisions (tokens (c_string (take 255 (reported l)))) n 0 (replicate n 0) = (0, l)).
  { intros n Hn Hle. assert (Hlen : (length (reported l) <= 255)%nat) by (rewrite length_reported by done; lia).
    rewrite take_ge by exact Hlen. rewrite c_string_reported by done.
    pose proof (tokens_reported l [] Hl) as Et. rewrite !app_nil_r in Et. rewrite Et.
    pose proof (parse_reported l [] n Hl) as Ep. cbn [length app Nat.add] in Ep. rewrite Ep.
    rewrite take_ge by lia. rewrite Hn, Nat.sub_diag. by rewrite app_nil_r. }
  split; intros Hn; eapply wp_read_revision; try done; intros w' E1 E2;
    (rewrite E; [by apply wp_ret|exact Hn|unfold SCU_IPC_VERSION_LEN, SCU_IPC_VERSION_LEN_LONG; lia]).
Qed.

(** A character that neither ends nor starts a number. *)
Definition not_numeric (c : Z) : Prop := is_space c = false /\ hex_value c = None /\ c <> 43 /\ c <> 45 /\ c <> 0.

Lemma sscanf_x_refuses c s : not_numeric c -> sscanf_x (c :: s) = (0, None).
Proof.
  intros (Hs & Hh & H1 & H2 & _). unfold sscanf_x. cbn [skip_space]. rewrite Hs. cbn [is_null length].
  unfold scan_X. cbn [skip_space]. rewrite Hs. cbn [scan_loop]. unfold scan_char. rewrite Hh.
  rewrite !(proj2 (Z.eqb_neq _ _)) by done. cbn [orb andb sc_signok sc_pfxok sc_count sc_havesign bool_to_Z].
  change (0 =? 1 + 0) with false. rewrite !andb_false_r. done.
Qed.

Lemma tokens_from_cons c s : exists t ts, tokens_from s [c] = (c :: t) :: ts.
Proof.
  assert (H : forall cur, cur <> [] -> exists t ts, tokens_from s cur = (cur ++ t) :: ts).
  { induction s as [|x s IH]; intros cur Hc.
    - exists [], []. cbn. destruct cur; [done|]. by rewrite app_nil_r.
    - cbn [tokens_from]. destruct (x =? 32).
      + exists [], (tokens_from s []). destruct cur; [done|]. by rewrite app_nil_r.
      + destruct (IH (cur ++ [x])) as (t & ts & E); [by destruct cur|].
        exists (x :: t), ts. by rewrite E, <-app_assoc. }
  destruct (H [c]) as (t & ts & E); [done|]. by exists t, ts.
Qed.

(** a report that does not start with a number is taken for one of zeros: the conversion that
    fails returns 0, which is what success returns. *)
Theorem unreadable_report_is_success w c text :
  quiet w -> not_numeric c -> reports w (c :: text) ->
  wp (fun o w' => o = Ret (0, Some (current_versions (replicate 16 0)))) get_current_fw_rev w.
Proof.
  intros Hq Hc Hr. eapply wp_read_revision; [done|exact Hr|]. intros w' _ _.
  destruct Hc as (Hs & Hc). assert (Hc0 : c <> 0) by tauto. assert (H32 : c <> 32).
  { intros ->. done. }
  cbn [take c_string]. rewrite (proj2 (Z.eqb_neq _ _)) by done. unfold tokens. cbn [tokens_from].
  rewrite (proj2 (Z.eqb_neq _ _)) by done. cbn [app].
  destruct (tokens_from_cons c (c_string (take 254 text))) as (t & ts & ->).
  cbn [parse_revisions]. rewrite sscanf_x_refuses by done. by apply wp_ret.
Qed.

(** ** Firmware files *)

(** The pattern stands at offset [q]. *)
Definition match_at (pattern : Z) (d : bytes) (q : nat) : Prop := (q + 4 <= length d)%nat /\ getn 4 q d = pattern.

Section File.
Context (F : gmap string file) (D0 : gmap Z fdesc) (fd : Z) (path : string) (d : bytes).
Context (HF : F !! path = Some (mkFile Regular d)) (Hsmall : Z.of_nat (length d) < 2 ^ 31).

(** The file is open at [pos]; [D0] are the other descriptors. *)
Definition at_pos (pos : nat) (w : world) : Prop :=
  exists D, calm F D w /\ D !! fd = Some (mkFd path (Z.of_nat pos) true false) /\ delete fd D = D0.

Lemma wp_fread_at {B} (Q : outcome B -> world -> Prop) kont f n pos w :
  at_pos pos w -> fl_fd f = fd -> fl_err f = false -> fl_eof f = false -> 0 < n ->
  (forall f' w', fl_fd f' = fd -> ferror_or_eof f' = false -> (pos + Z.to_nat n <= length d)%nat ->
     at_pos (pos + Z.to_nat n) w' -> fl_err f' = false -> fl_eof f' = false -> wp Q (kont (f', slice pos (Z.to_nat n) d)) w') ->
  (forall f' w' b p, fl_fd f' = fd -> ferror_or_eof f' = true -> (length d < pos + Z.to_nat n)%nat ->
     at_pos p w' -> wp Q (kont (f', b)) w') ->
  wp Q (bind (fread f n) kont) w.
Proof using HF.
  intros (D & [E1 E2 E3] & Hd & HD) Hf Herr Heof Hn H1 H2. apply wp_bind.
  eapply (wp_fread f w (mkFd path (Z.of_nat pos) true false) (mkFile Regular d)).
  - unfold fd_file. rewrite Hf, E2, Hd. cbn. by rewrite E1, HF.
  - done.
  - cbn. lia.
  - lia.
  - intros w' _ Hq. by destruct Hq.
  - cbn [fd_off f_data fl_fd fl_eof fl_err]. cbv zeta. rewrite Nat2Z.id, Hf, Herr, Heof. cbn [orb].
    set (b := slice pos (Z.to_nat n) d). intros w' (M1 & M2 & M3).
    assert (Hl : length b = (Z.to_nat n `min` (length d - pos))%nat) by apply length_slice.
    assert (Hat : at_pos (pos + length b) w').
    { exists (w_fds w'). split; [split; [congruence|done|auto]|]. rewrite M2. cbn [fd_path fd_read fd_write].
      rewrite lookup_insert_eq, Nat2Z.inj_add. split; [done|]. by rewrite delete_insert_eq, E2. }
    destruct (Z.ltb_spec (Z.of_nat (length b)) n).
    + eapply H2; [done|done|lia|exact Hat].
    + apply H1; [done|done|lia| |done|done]. by replace (pos + Z.to_nat n)%nat with (pos + length b)%nat by lia.
Qed.

Lemma wp_fseek_at {B} (Q : outcome B -> world -> Prop) kont f off pos w :
  at_pos pos w -> fl_fd f = fd -> fl_err f = false -> 0 <= off < 2 ^ 62 ->
  (forall f' w', fl_fd f' = fd -> fl_err f' = false -> fl_eof f' = false -> at_pos (Z.to_nat off) w' -> wp Q (kont (0, f')) w') ->
  wp Q (bind (fseek f off) kont) w.
Proof using HF.
  intros (D & [E1 E2 E3] & Hd & HD) Hf Herr Ho H. apply wp_bind. unfold fseek. apply wp_bind. rewrite Hf.
  assert (Es : s64 off = off).
  { unfold s64, to_signed. rewrite Z.mod_small by lia. case_match; lia. }
  eapply (wp_lseek fd w (mkFd path (Z.of_nat pos) true false) (mkFile Regular d)).
  - unfold fd_file. rewrite E2, Hd. cbn. by rewrite E1, HF.
  - intros w' _ Hq. specialize (Hq E3). lia.
  - intros w' _ (M1 & M2 & M3). apply wp_ret. rewrite Es in *. replace (off <? 0) with false by lia.
    apply H; [done|done|done|]. exists (w_fds w'). split; [split; [congruence|done|auto]|].
    rewrite M2. cbn [fd_path fd_read fd_write]. rewrite lookup_insert_eq, Z2Nat.id by lia. split; [done|].
    by rewrite delete_insert_eq, E2.
Qed.

Lemma wp_ftell_at {B} (Q : outcome B -> world -> Prop) kont f pos w :
  at_pos pos w -> fl_fd f = fd -> wp Q (kont (Z.of_nat pos)) w -> wp Q (bind (ftell f) kont) w.
Proof using Type.
  intros (D & [E1 E2 E3] & Hd & HD) Hf H. apply wp_bind. unfold ftell, wp at 1. cbn [fst snd]. by rewrite Hf, E2, Hd.
Qed.

Lemma wp_fclose_at {B} (Q : outcome B -> world -> Prop) kont f pos w :
  at_pos pos w -> fl_fd f = fd -> (forall r w', calm F D0 w' -> wp Q (kont r) w') -> wp Q (bind (fclose f) kont) w.
Proof using HF.
  intros (D & [E1 E2 E3] & Hd & HD) Hf H. apply wp_bind. unfold fclose. rewrite Hf.
  eapply (wp_close fd w (mkFd path (Z.of_nat pos) true false) (mkFile Regular d)).
  - unfold fd_file. rewrite E2, Hd. cbn. by rewrite E1, HF.
  - intros w' M1 M2 M3. apply H. split; [congruence|by rewrite M2, E2|auto].
Qed.

(** The first match at or after [pos]. *)
Lemma wp_seek_pattern {B} (Q : outcome B -> world -> Prop) kont fuel pattern f tmp pos w :
  at_pos pos w -> fl_fd f = fd -> fl_err f = false -> fl_eof f = false -> tmp <> pattern ->
  (pos <= length d)%nat -> (length d - pos < fuel)%nat ->
  (forall f' q w', fl_fd f' = fd -> fl_err f' = false -> fl_eof f' = false -> (pos <= q)%nat -> match_at pattern d q ->
     (forall q', (pos <= q' < q)%nat -> ~ match_at pattern d q') -> at_pos (q + 1) w' -> wp Q (kont (Some f')) w') ->
  (forall w', (forall q', (pos <= q')%nat -> ~ match_at pattern d q') -> forall p, at_pos p w' -> wp Q (kont None) w') ->
  wp Q (bind (seek_pattern fuel pattern f tmp) kont) w.
Proof using HF Hsmall.
  intros Hw Hf Herr Heof Htmp Hpos Hfuel H1 H2. revert f tmp pos w Hw Hf Herr Heof Htmp Hpos Hfuel H1 H2.
  induction fuel as [|fuel IH]; intros f tmp pos w Hw Hf Herr Heof Htmp Hpos Hfuel H1 H2; [lia|].
  cbn [seek_pattern]. rewrite (proj2 (Z.eqb_neq _ _)) by done. apply wp_assoc.
  eapply wp_fread_at; [exact Hw|done|done|done|lia| |]; change (Z.to_nat 4) with 4%nat.
  2:{ intros f1 w1 b p Hf1 -> Hl Hw1. apply wp_bind, wp_ret. eapply H2; [|exact Hw1]. intros q' Hq' [Hm _]. lia. }
  intros f1 w1 Hf1 Hfe Hl Hw1 He1 He2. rewrite Hfe. apply wp_assoc.
  eapply wp_ftell_at; [exact Hw1|done|]. apply wp_assoc.
  eapply wp_fseek_at; [exact Hw1|done|done|lia|]. intros f2 w2 Hf2 Herr2 Heof2 Hw2.
  replace (Z.to_nat (Z.of_nat (pos + 4) - 4 + 1)) with (pos + 1)%nat in Hw2 by lia.
  destruct (Z.eq_dec (le_dec (slice pos 4 d)) pattern) as [E|E].
  - assert (Hdone : seek_pattern fuel pattern f2 (le_dec (slice pos 4 d)) = ret (Some f2)).
    { rewrite E. destruct fuel; cbn [seek_pattern]; by rewrite Z.eqb_refl. }
    rewrite Hdone. apply wp_bind, wp_ret. eapply (H1 f2 pos); try done; intros; lia.
  - eapply (IH f2 _ (pos + 1)%nat); [exact Hw2|done|done|done|exact E|lia|lia| |].
    + intros f' q w' G1 G2 G3 G4 G5 G6 G7. eapply H1; [done|done|done| |exact G5| |exact G7]; [lia|].
      intros q' Hq'. destruct (decide (q' = pos)) as [->|]; [by intros [_ ?]|apply G6; lia].
    + intros w' G1 p G2. eapply H2; [|exact G2]. intros q' Hq'. destruct (decide (q' = pos)) as [->|]; [by intros [_ ?]|apply G1; lia].
Qed.
End File.

(** The firmware version of the header at [q]. *)
Definition version_at (d : bytes) (q : nat) : fw_version := mkVersion (getn 1 (q + 41) d) (getn 1 (q + 40) d).

(** The pattern at [q] is passed over: it stands in a header without a version. *)
Definition passed_over (d : bytes) (q : nat) : Prop :=
  exists c, match_at FIP_PATTERN d c /\ (c <= q < c + 44)%nat /\ version_at d c = zero_version.

Definition crack_post (d : bytes) (rc : Z) (v : fw_version) : Prop :=
  rc = 0 /\ v <> zero_version /\ (exists q, match_at FIP_PATTERN d q /\ (q + 44 <= length d)%nat /\ v = version_at d q /\
    forall q', (q' < q)%nat -> match_at FIP_PATTERN d q' -> passed_over d q') \/
  rc = -1 /\ v = zero_version /\
    forall q', match_at FIP_PATTERN d q' -> passed_over d q' \/ (length d < q' + 44)%nat.

Section Crack.
Context (F : gmap string file) (D0 : gmap Z fdesc) (fd : Z) (path : string) (d : bytes).
Context (HF : F !! path = Some (mkFile Regular d)) (Hsmall : Z.of_nat (length d) < 2 ^ 31).

Lemma getn_slice_at n o q : (o + n <= 44)%nat -> getn n o (slice q 44 d) = getn n (q + o) d.
Proof using Type.
  intros H. unfold getn. f_equal. unfold slice. rewrite !skipn_firstn_comm, drop_drop, take_take. f_equal. lia.
Qed.

Lemma wp_crack_loop fuel rounds f v pos w :
  at_pos F D0 fd path pos w -> fl_fd f = fd -> fl_err f = false -> fl_eof f = false ->
  (pos <= length d)%nat -> (length d - pos < fuel)%nat -> (length d < rounds)%nat -> v = zero_version ->
  (forall q', (q' < pos)%nat -> match_at FIP_PATTERN d q' -> passed_over d q') ->
  wp (fun o w' => calm F D0 w' /\ exists rc v, o = Ret (rc, v) /\ crack_post d rc v)
     (crack_loop fuel rounds f v) w.
Proof using HF Hsmall.
  intros Hw Hf Herr Heof Hpos Hfuel Hr -> Hpast. revert f pos w Hw Hf Herr Heof Hpos Hfuel Hpast.
  induction fuel as [|fuel IH]; intros f pos w Hw Hf Herr Heof Hpos Hfuel Hpast; [lia|].
  cbn [crack_loop zero_version minor major]. change ((0 =? 0) && (0 =? 0)) with true. cbv iota.
  eapply (wp_seek_pattern F D0 fd path d HF Hsmall); [exact Hw|done|done|done|done|done|lia| |].
  2:{ intros w1 Hnone p Hw1. eapply (wp_fclose_at F D0 fd path d HF); [exact Hw1|done|]. intros r w2 Hw2.
      apply wp_ret. split; [done|]. exists (-1), zero_version. split; [done|]. right. split_and!; try done.
      intros q' Hq'. left. destruct (decide (q' < pos)%nat); [by apply Hpast|]. by destruct (Hnone q' ltac:(lia)). }
  intros f1 q w1 Hf1 Herr1 Heof1 Hle Hq Hfirst Hw1.
  assert (Hupto : forall q', (q' < q)%nat -> match_at FIP_PATTERN d q' -> passed_over d q').
  { intros q' Hlt Hm. destruct (decide (q' < pos)%nat); [by apply Hpast|]. by destruct (Hfirst q' ltac:(lia)). }
  pose proof (proj1 Hq) as Hql.
  eapply (wp_ftell_at F D0 fd path); [exact Hw1|done|].
  eapply (wp_fseek_at F D0 fd path d HF); [exact Hw1|done|done|lia|]. intros f2 w2 Hf2 Herr2 Heof2 Hw2.
  replace (Z.to_nat (Z.of_nat (q + 1) - 1)) with q in Hw2 by lia. unfold sizeof_FIP.
  eapply (wp_fread_at F D0 fd path d HF); [exact Hw2|done|done|done|lia| |]; rewrite !Nat2Z.id.
  2:{ intros f3 w3 b p Hf3 -> Hlen Hw3. eapply (wp_fclose_at F D0 fd path d HF); [exact Hw3|done|]. intros r w4 Hw4.
      apply wp_ret. split; [done|]. exists (-1), zero_version. split; [done|]. right. split_and!; try done.
      intros q' Hq'. destruct (decide (q' < q)%nat); [left; by apply Hupto|right; lia]. }
  intros f3 w3 Hf3 Hfe Hlen Hw3 Herr3 Heof3. rewrite Hfe, !getn_slice_at by lia. fold (version_at d q).
  destruct (decide (version_at d q = zero_version)) as [Ez|Ez].
  - rewrite Ez. eapply IH; [exact Hw3|done|done|done|lia|lia|].
    intros q' Hlt Hm. destruct (decide (q' < q)%nat); [by apply Hupto|]. exists q. split_and!; try done; lia.
  - assert (Hexit : crack_loop fuel rounds f3 (version_at d q) = (fclose f3 ;; ret (0, version_at d q))).
    { assert (Hc : (minor (version_at d q) =? 0) && (major (version_at d q) =? 0) = false).
      { apply andb_false_iff. rewrite !Z.eqb_neq. unfold version_at, zero_version in *. cbn [minor major] in *.
        destruct (Z.eq_dec (getn 1 (q + 40) d) 0) as [E1|]; [|by left]. right. intros E2. by rewrite E1, E2 in Ez. }
      destruct fuel; cbn [crack_loop]; by rewrite Hc. }
    rewrite Hexit. eapply (wp_fclose_at F D0 fd path d HF); [exact Hw3|done|]. intros r w4 Hw4.
    apply wp_ret. split; [done|]. exists 0, (version_at d q). split; [done|]. left. split_and!; try done.
    exists q. by split_and!.
Qed.
End Crack.

Lemma wp_open_file {B} (Q : outcome B -> world -> Prop) kont w path d :
  quiet w -> w_files w !! path = Some (mkFile Regular d) ->
  (forall fd w', at_pos (w_files w) (w_fds w) fd path 0 w' -> wp Q (kont (Some (stream fd))) w') ->
  wp Q (bind (fopen path mode_r) kont) w.
Proof.
  intros Hq Hf H. apply wp_bind. eapply (wp_fopen_r _ (w_files w) (w_fds w) w path d); [done|done|].
  intros fd w' Hfd Hw'. apply H. eexists. split; [exact Hw'|]. split; [apply lookup_insert_eq|].
  by rewrite delete_insert_id.
Qed.

Lemma wp_file_rounds {B} (Q : outcome B -> world -> Prop) kont F D0 fd path d f pos w :
  F !! path = Some (mkFile Regular d) -> at_pos F D0 fd path pos w -> fl_fd f = fd ->
  wp Q (kont (S (length d))) w -> wp Q (bind (file_rounds f) kont) w.
Proof.
  intros HF (D & [E1 E2 E3] & Hd & _) Hf H. apply wp_bind. unfold file_rounds, wp at 1. cbn [fst snd].
  unfold fd_file. rewrite Hf, E2, Hd. cbn. by rewrite E1, HF.
Qed.

(** [crack_update_fw] ends, leaves nothing open, and answers the version of a FIP header of the
    file that is not null, passing over no header but those without a version (and what stands
    inside them); it fails only when every header is passed over or cut off by the end of the file. *)
Theorem crack_update_fw_finds_version w path d v0 :
  quiet w -> w_files w !! path = Some (mkFile Regular d) -> Z.of_nat (length d) < 2 ^ 31 ->
  wp (fun o w' => w_files w' = w_files w /\ w_fds w' = w_fds w /\
        exists rc v, o = Ret (rc, v) /\ crack_post d rc v) (crack_update_fw path v0) w.
Proof.
  intros Hq Hf Hs. unfold crack_update_fw. eapply wp_open_file; [done|done|]. intros fd w1 Hw1.
  eapply wp_file_rounds; [done|exact Hw1|done|].
  eapply wp_mono; [eapply (wp_crack_loop _ _ fd path d Hf Hs _ _ _ _ 0); try done; try lia|].
  intros o w' [[E1 E2 _] H]. by split_and!.
Qed.

(** [crack_update_fw_pti_field] answers the byte at its fixed distance behind the first SMIP
    pattern of the file, wherever the pattern stands, and fails when there is no such byte. *)
Theorem crack_update_fw_pti_field_reads w path d p0 :
  quiet w -> w_files w !! path = Some (mkFile Regular d) -> Z.of_nat (length d) < 2 ^ 31 ->
  wp (fun o w' => w_files w' = w_files w /\ w_fds w' = w_fds w /\ exists rc p, o = Ret (rc, p) /\
        (rc = 0 /\ (exists q, match_at SMIP_PATTERN d q /\ (forall q', (q' < q)%nat -> ~ match_at SMIP_PATTERN d q') /\
            (q + 780 < length d)%nat /\ p = getn 1 (q + 780) d) \/
         rc = -1 /\ p = 0 /\ forall q, (q + 780 < length d)%nat -> (forall q', (q' < q)%nat -> ~ match_at SMIP_PATTERN d q') ->
            ~ match_at SMIP_PATTERN d q))
     (crack_update_fw_pti_field path p0) w.
Proof.
  intros Hq Hf Hs. unfold crack_update_fw_pti_field. eapply wp_open_file; [done|done|]. intros fd w1 Hw1.
  eapply wp_file_rounds; [done|exact Hw1|done|].
  eapply (wp_seek_pattern _ _ fd path d Hf Hs); [exact Hw1|done|done|done|done|lia|lia| |].
  2:{ intros w2 Hnone p Hw2. eapply (wp_fclose_at _ _ fd path d Hf); [exact Hw2|done|]. intros r w3 [E1 E2 _].
      apply wp_ret. split_and!; try done. exists (-1), 0. split; [done|]. right. split_and!; try done.
      intros q _ _. apply Hnone. lia. }
  intros f1 q w2 Hf1 Herr1 Heof1 _ Hm Hfirst Hw2. pose proof (proj1 Hm) as Hql.
  assert (Honly : forall q2, (forall q', (q' < q2)%nat -> ~ match_at SMIP_PATTERN d q') -> match_at SMIP_PATTERN d q2 -> q2 = q).
  { intros q2 H2 Hm2. destruct (Nat.lt_trichotomy q q2) as [H|[H|H]]; [by destruct (H2 q H)|done|].
    by destruct (Hfirst q2 ltac:(lia)). }
  eapply (wp_ftell_at _ _ fd path); [exact Hw2|done|].
  eapply (wp_fseek_at _ _ fd path d Hf); [exact Hw2|done|done|unfold PTI_FIELD_OFFSET; lia|].
  intros f2 w3 Hf2 Herr2 Heof2 Hw3. unfold ferror_or_eof at 1. rewrite Herr2, Heof2. cbn [orb].
  replace (Z.to_nat (Z.of_nat (q + 1) - 1 + PTI_FIELD_OFFSET)) with (q + 780)%nat in Hw3 by (unfold PTI_FIELD_OFFSET; lia).
  eapply (wp_fread_at _ _ fd path d Hf); [exact Hw3|done|done|done|lia| |]; change (Z.to_nat 1) with 1%nat.
  - intros f3 w4 Hf3 Hfe Hlen Hw4 _ _. rewrite Hfe. eapply (wp_fclose_at _ _ fd path d Hf); [exact Hw4|done|].
    intros r w5 [E1 E2 _]. apply wp_ret. split_and!; try done. exists 0, (getn 1 (q + 780) d).
    split; [do 2 f_equal; unfold getn, slice; by rewrite drop_0, take_take|]. left. split; [done|]. exists q. split_and!; try done; [intros q2 Hq2; apply Hfirst; lia|lia].
  - intros f3 w4 b p Hf3 -> Hlen Hw4. eapply (wp_fclose_at _ _ fd path d Hf); [exact Hw4|done|].
    intros r w5 [E1 E2 _]. apply wp_ret. split_and!; try done. exists (-1), 0. split; [done|]. right. split_and!; try done.
    intros q2 Hq2 H2 Hm2. rewrite (Honly q2 H2 Hm2) in Hq2. lia.
Qed.
