(* ===== verification/IfwiEmmcSpec.v ===== *)
(** * Checksums and updates of the boot partitions (theorems about flash_scu_emmc/ifwi.c) *)

From stdpp Require Import base list numbers gmap strings.
From Stdlib Require Import ZArith Lia.
From S2P Require Import Prelude Xor Posix CLib Util FwVersion IfwiEmmc BootToolsSpec.

(** ** Sums of words *)

Lemma xor_words_acc n p x : xor_words n p x = Z.lxor x (xor_words n p 0).
Proof.
  revert p x. induction n as [|n IH]; intros p x; cbn [xor_words]; [by rewrite Z.lxor_0_r|].
  rewrite IH, (IH _ (Z.lxor 0 _)), Z.lxor_0_l. by rewrite Z.lxor_assoc.
Qed.

Lemma xor_words_S n p : xor_words (S n) p 0 = Z.lxor (le_dec (take 4 p)) (xor_words n (drop 4 p) 0).
Proof. cbn [xor_words]. by rewrite xor_words_acc, Z.lxor_0_l. Qed.

(** Only the words themselves matter. *)
Lemma xor_words_take n p q : take (4 * n) p = take (4 * n) q -> xor_words n p 0 = xor_words n q 0.
Proof.
  revert p q. induction n as [|n IH]; intros p q H; [done|]. rewrite !xor_words_S.
  assert (E4 : take 4 p = take 4 q).
  { apply (f_equal (take 4)) in H. rewrite !take_take, !Nat.min_l in H by lia. exact H. }
  rewrite E4. f_equal. apply IH. rewrite !take_drop_commute.
  replace (4 + 4 * n)%nat with (4 * S n)%nat by lia. by rewrite H.
Qed.

Lemma putn_drop k n off v p : (k <= off)%nat -> (off + n <= length p)%nat ->
  drop k (putn n off v p) = putn n (off - k) v (drop k p).
Proof.
  intros H1 H2. unfold putn, splice. rewrite drop_app_le by len. rewrite !length_le_enc, !drop_drop.
  rewrite skipn_firstn_comm. do 3 f_equal. lia.
Qed.

Lemma take_putn k n off v p : (k <= off)%nat -> (off + n <= length p)%nat -> take k (putn n off v p) = take k p.
Proof. intros H1 H2. unfold putn, splice. rewrite take_app_le by len. rewrite take_take. f_equal. lia. Qed.

(** Storing a word replaces it in the sum. *)
Lemma xor_words_put n j v p : (j < n)%nat -> (4 * j + 4 <= length p)%nat ->
  xor_words n (putn 4 (4 * j) v p) 0 = Z.lxor (Z.lxor (xor_words n p 0) (getn 4 (4 * j) p)) (v mod 2 ^ 32).
Proof.
  revert n p. induction j as [|j IH]; intros n p Hj Hl; (destruct n as [|n]; [lia|]); rewrite !xor_words_S.
  - rewrite Nat.mul_0_r.
    assert (E1 : le_dec (take 4 (putn 4 0 v p)) = v mod 2 ^ 32).
    { pose proof (getn_putn_eq 4 0 v p ltac:(lia)) as E. unfold getn, slice in E. by rewrite drop_0 in E. }
    assert (E2 : drop 4 (putn 4 0 v p) = drop 4 p).
    { unfold putn, splice. rewrite length_le_enc, take_0. cbn [app]. by rewrite drop_app_length' by (by rewrite length_le_enc). }
    assert (E3 : getn 4 0 p = le_dec (take 4 p)) by (unfold getn, slice; by rewrite drop_0).
    rewrite E1, E2, E3. xor_bits.
  - rewrite putn_drop, take_putn by lia. replace (4 * S j - 4)%nat with (4 * j)%nat by lia.
    rewrite IH by (rewrite ?length_drop; lia).
    assert (E : getn 4 (4 * j) (drop 4 p) = getn 4 (4 * S j) p).
    { unfold getn, slice. rewrite drop_drop. do 3 f_equal. lia. }
    rewrite E. by rewrite !Z.lxor_assoc.
Qed.

(** The folded sum of words is the sum of bytes. *)
Lemma land_lxor a b m : Z.land (Z.lxor a b) m = Z.lxor (Z.land a m) (Z.land b m).
Proof.
  apply Z.bits_inj'. intros i _. rewrite Z.lxor_spec, !Z.land_spec, Z.lxor_spec.
  by destruct (Z.testbit a i), (Z.testbit b i), (Z.testbit m i).
Qed.

Lemma xor_factorize_lxor a b : xor_factorize (Z.lxor a b) = Z.lxor (xor_factorize a) (xor_factorize b).
Proof. unfold xor_factorize. rewrite !Z.shiftr_lxor, !land_lxor. xor_bits. Qed.

Lemma land_ff x : Z.land x 0xff = x mod 256.
Proof. change 0xff with (Z.ones 8). by rewrite Z.land_ones by lia. Qed.

Lemma xor_factorize_word l : bytes_ok l -> length l = 4%nat -> xor_factorize (le_dec l) = xor_all l.
Proof.
  intros B L. destruct l as [|a [|b [|c [|e [|]]]]]; try discriminate.
  apply bytes_ok_cons in B as [Ha B]. apply bytes_ok_cons in B as [Hb B].
  apply bytes_ok_cons in B as [Hc B]. apply bytes_ok_cons in B as [He _]. unfold is_byte in *.
  unfold xor_factorize. rewrite !land_ff, !Z.shiftr_div_pow2 by lia. cbn [le_dec].
  replace ((a + 256 * (b + 256 * (c + 256 * (e + 256 * 0)))) mod 256) with a by lia.
  replace ((a + 256 * (b + 256 * (c + 256 * (e + 256 * 0)))) / 2 ^ 8 mod 256) with b by lia.
  replace ((a + 256 * (b + 256 * (c + 256 * (e + 256 * 0)))) / 2 ^ 16 mod 256) with c by lia.
  replace ((a + 256 * (b + 256 * (c + 256 * (e + 256 * 0)))) / 2 ^ 24 mod 256) with e by lia.
  unfold xor_all. cbn [fold_right]. xor_bits.
Qed.

Lemma xor_factorize_words n p : bytes_ok p -> (4 * n <= length p)%nat ->
  xor_factorize (xor_words n p 0) = xor_all (take (4 * n) p).
Proof.
  revert p. induction n as [|n IH]; intros p B H; [done|]. rewrite xor_words_S, xor_factorize_lxor.
  rewrite IH by (rewrite ?length_drop; (auto with bytes || lia)).
  rewrite xor_factorize_word by (rewrite ?length_take; (auto with bytes || lia)).
  rewrite <-xor_all_app. f_equal. replace (4 * S n)%nat with (4 + 4 * n)%nat by lia. apply take_take_drop.
Qed.

(** ** The three kinds of checksums *)

(** Offsets where [xor_update] stores. *)
Definition checksum_byte (o : nat) : Prop :=
  (o = 7 \/ 8 <= o < 512)%nat \/ (Z.to_nat BOOT_IFWI_XOR_OFFSET <= o < Z.to_nat BOOT_IFWI_XOR_OFFSET + 4)%nat.

Definition sector_sum (i : Z) (p : bytes) : Z :=
  xor_compute (drop (Z.to_nat (i * BOOT_UMIP_SECTOR_SIZE)) p) BOOT_UMIP_SECTOR_SIZE.

Lemma xor_words_bound n p : bytes_ok p -> 0 <= xor_words n p 0 < 2 ^ 32.
Proof.
  revert p. induction n as [|n IH]; intros p B; [cbn; lia|]. rewrite xor_words_S.
  assert (Hw : 0 <= le_dec (take 4 p) < 2 ^ 32).
  { pose proof (getn_bound 4 0 p B) as H. unfold getn, slice in H. by rewrite drop_0 in H. }
  specialize (IH (drop 4 p) ltac:(auto with bytes)).
  set (a := le_dec _) in *. set (b := xor_words n _ 0) in *. clearbody a b.
  split; [apply Z.lxor_nonneg; lia|].
  assert (H : Z.lxor a b mod 2 ^ 32 = Z.lxor a b); [|lia].
  rewrite <-(Z.mod_small a (2 ^ 32)), <-(Z.mod_small b (2 ^ 32)) by lia.
  rewrite <-!Z.land_ones by lia. rewrite <-land_lxor, <-Z.land_assoc, Z.land_diag. done.
Qed.

Lemma sector_sum_eq i p q : take 512 (drop (Z.to_nat (i * 512)) p) = take 512 (drop (Z.to_nat (i * 512)) q) ->
  sector_sum i p = sector_sum i q.
Proof.
  intros H. unfold sector_sum, xor_compute, BOOT_UMIP_SECTOR_SIZE. apply xor_words_take.
  change (4 * Z.to_nat (512 / 4))%nat with 512%nat. exact H.
Qed.

Lemma update_sector_eq q i : update_sector q i = putn 4 (Z.to_nat (4 * i)) (sector_sum i q) q.
Proof. unfold update_sector, sector_sum. reflexivity. Qed.

(** The image after the checksums of the sectors. *)
Definition sectors_summed (p : bytes) : bytes := fold_left update_sector (seqZ 2 126) p.

Section Update.
Context (p : bytes) (Hb : bytes_ok p) (Hl : length p = Z.to_nat BOOT_IFWI_SIZE).

(** What the sums of the sectors up to [i] leave. *)
Definition sums_done (i : Z) (q : bytes) : Prop :=
  bytes_ok q /\ length q = length p /\ drop 512 q = drop 512 p /\ take 8 q = take 8 p /\
  forall k, 2 <= k < i -> getn 4 (Z.to_nat (4 * k)) q = sector_sum k p.

Lemma sums_step i q : 2 <= i < 128 -> sums_done i q -> sums_done (i + 1) (update_sector q i).
Proof using Hb Hl.
  intros Hi (B & L & D & T & S). unfold BOOT_IFWI_SIZE in Hl. rewrite update_sector_eq.
  assert (Es : sector_sum i q = sector_sum i p).
  { apply sector_sum_eq. replace (Z.to_nat (i * 512)) with (512 + Z.to_nat (i * 512 - 512))%nat by lia.
    by rewrite <-(drop_drop q), <-(drop_drop p), D. }
  rewrite Es. split_and!.
  - auto with bytes.
  - rewrite length_putn; lia.
  - rewrite <-D. unfold putn, splice. rewrite length_le_enc, drop_app_ge by len.
    rewrite drop_app_ge by len. rewrite drop_drop. f_equal. len.
  - by rewrite take_putn by lia.
  - intros k Hk. destruct (Z.eq_dec k i) as [->|Hne].
    + rewrite getn_putn_eq by lia. apply Z.mod_small. apply xor_words_bound. auto with bytes.
    + rewrite getn_putn_ne by lia. apply S. lia.
Qed.

Lemma sums_all : sums_done 128 (sectors_summed p).
Proof using Hb Hl.
  unfold sectors_summed.
  assert (H : forall n i q, 2 <= i -> i + Z.of_nat n <= 128 -> sums_done i q ->
    sums_done (i + Z.of_nat n) (fold_left update_sector (seqZ i (Z.of_nat n)) q)).
  { clear -Hb Hl. induction n as [|n IH]; intros i q H1 H2 Hq.
    - by rewrite Z.add_0_r.
    - rewrite seqZ_cons by lia. cbn [fold_left]. replace (Z.pred (Z.of_nat (S n))) with (Z.of_nat n) by lia.
      replace (i + Z.of_nat (S n)) with (Z.succ i + Z.of_nat n) by lia.
      apply IH; [lia|lia|]. apply sums_step; [lia|done]. }
  apply (H 126%nat 2 p); [lia|lia|]. split_and!; try done. intros k Hk. lia.
Qed.
End Update.

(** Storing the sum of the others into a word makes the sum zero. *)
Lemma xor_word_balanced n j q : bytes_ok q -> (j < n)%nat -> (4 * j + 4 <= length q)%nat -> getn 4 (4 * j) q = 0 ->
  xor_words n (putn 4 (4 * j) (xor_words n q 0) q) 0 = 0.
Proof.
  intros B Hj Hl E. pose proof (xor_words_bound n q B) as Hv.
  rewrite xor_words_put, E, Z.lxor_0_r, Z.mod_small by done. apply Z.lxor_nilpotent.
Qed.

(** The word of the checksum of the image. *)
Lemma ifwi_word : Z.to_nat BOOT_IFWI_XOR_OFFSET = (4 * Z.to_nat (BOOT_IFWI_XOR_OFFSET / 4))%nat /\
  (Z.to_nat (BOOT_IFWI_XOR_OFFSET / 4) < Z.to_nat (BOOT_IFWI_SIZE / 4))%nat /\
  (Z.to_nat BOOT_IFWI_XOR_OFFSET + 4 <= Z.to_nat BOOT_IFWI_SIZE)%nat.
Proof. unfold BOOT_IFWI_XOR_OFFSET, BOOT_IFWI_SIZE. split_and!; lia. Qed.

#[local] Opaque Z.to_nat.

Lemma ifwi_words : (4 * Z.to_nat (BOOT_IFWI_SIZE / 4))%nat = Z.to_nat BOOT_IFWI_SIZE /\ 0 <= BOOT_IFWI_SIZE.
Proof. unfold BOOT_IFWI_SIZE. split; lia. Qed.

(** The bytes of the UMIP lie before that word. *)
Lemma umip_range : (4 * Z.to_nat (BOOT_UMIP_SIZE / 4))%nat = Z.to_nat BOOT_UMIP_SIZE /\
  (7 < Z.to_nat BOOT_UMIP_SIZE)%nat /\ (Z.to_nat BOOT_UMIP_SIZE <= Z.to_nat BOOT_IFWI_SIZE)%nat /\
  (Z.to_nat BOOT_UMIP_SIZE <= Z.to_nat BOOT_IFWI_XOR_OFFSET)%nat.
Proof. unfold BOOT_UMIP_SIZE, BOOT_IFWI_SIZE, BOOT_IFWI_XOR_OFFSET. split_and!; lia. Qed.

(** The stages of [xor_update]. *)
Section Stages.
Context (p : bytes) (Hb : bytes_ok p) (Hl : length p = Z.to_nat BOOT_IFWI_SIZE).

Definition after_clear : bytes := putn 1 7 0 (sectors_summed p).
Definition umip_sum : Z := xor_factorize (xor_compute after_clear BOOT_UMIP_SIZE).
Definition after_umip : bytes := putn 1 7 umip_sum after_clear.
Definition after_clear2 : bytes := putn 4 (Z.to_nat BOOT_IFWI_XOR_OFFSET) 0 after_umip.

Lemma xor_update_eq : xor_update p =
  putn 4 (Z.to_nat BOOT_IFWI_XOR_OFFSET) (xor_compute after_clear2 BOOT_IFWI_SIZE) after_clear2.
Proof using Type. unfold xor_update, after_clear2, after_umip, umip_sum, after_clear, sectors_summed. reflexivity. Qed.

Lemma stages_ok :
  (bytes_ok (sectors_summed p) /\ length (sectors_summed p) = length p) /\
  (bytes_ok after_clear /\ length after_clear = length p) /\
  (bytes_ok after_umip /\ length after_umip = length p) /\ (bytes_ok after_clear2 /\ length after_clear2 = length p).
Proof using Hb Hl.
  destruct (sums_all p Hb Hl) as (B & L & _).
  unfold BOOT_IFWI_SIZE in Hl. unfold after_clear2, after_umip, after_clear, BOOT_IFWI_XOR_OFFSET.
  split_and!; auto with bytes.
  - rewrite length_putn; lia.
  - rewrite !length_putn; rewrite ?length_putn; lia.
  - rewrite !length_putn; rewrite ?length_putn; rewrite ?length_putn; lia.
Qed.

Lemma umip_sum_eq : umip_sum = fold_left Z.lxor (slice 0 (Z.to_nat BOOT_UMIP_SIZE) after_clear) (getn 1 7 after_clear).
Proof using Hb Hl.
  destruct stages_ok as ((B1 & L1) & (B & L) & _). destruct umip_range as (En & H7 & Hu & _).
  unfold umip_sum, xor_compute. rewrite xor_factorize_words; [|exact B|rewrite En, L, Hl; exact Hu].
  assert (E7 : getn 1 7 after_clear = 0).
  { unfold after_clear. rewrite getn_putn_eq; [done|]. rewrite L1, Hl. lia. }
  by rewrite E7, xor_all_fold, Z.lxor_0_l, En, slice_0.
Qed.

Lemma umip_balanced : xor_factorize (xor_compute (xor_update p) BOOT_UMIP_SIZE) = 0.
Proof using Hb Hl.
  destruct stages_ok as ((B1 & L1) & (B2 & L2) & (B3 & L3) & (B4 & L4)).
  destruct umip_range as (En & H7 & Hu & Ho). destruct ifwi_word as (_ & _ & Hlen).
  rewrite xor_update_eq. generalize (xor_compute after_clear2 BOOT_IFWI_SIZE) as v. intros v.
  unfold xor_compute. rewrite xor_factorize_words; [|auto with bytes|].
  2:{ rewrite length_putn by (rewrite L4, Hl; exact Hlen). rewrite En, L4, Hl. exact Hu. }
  rewrite En, take_putn; [|exact Ho|rewrite L4, Hl; exact Hlen].
  unfold after_clear2. rewrite take_putn; [|exact Ho|rewrite L3, Hl; exact Hlen].
  unfold after_umip. rewrite umip_sum_eq, <-slice_0. apply xor_byte_balanced; [exact B2|exact H7|].
  rewrite L2, Hl. exact Hu.
Qed.

Lemma ifwi_balanced : xor_compute (xor_update p) BOOT_IFWI_SIZE = 0.
Proof using Hb Hl.
  destruct stages_ok as (_ & _ & (B3 & L3) & (B4 & L4)). rewrite xor_update_eq. unfold xor_compute.
  destruct ifwi_word as (Ej & Hj & Hlen).
  assert (E0 : getn 4 (Z.to_nat BOOT_IFWI_XOR_OFFSET) after_clear2 = 0).
  { unfold after_clear2. rewrite getn_putn_eq; [done|]. rewrite L3, Hl. exact Hlen. }
  rewrite Ej in *. apply xor_word_balanced; [exact B4|exact Hj| |exact E0]. rewrite L4, Hl. exact Hlen.
Qed.

(** A range away from the checksums keeps its bytes. *)
Lemma slice_xor_update o n : (512 <= o)%nat -> (o + n <= Z.to_nat BOOT_IFWI_XOR_OFFSET \/ Z.to_nat BOOT_IFWI_XOR_OFFSET + 4 <= o)%nat ->
  slice o n (xor_update p) = slice o n p.
Proof using Hb Hl.
  intros Ho Hn. destruct stages_ok as ((B1 & L1) & (B2 & L2) & (B3 & L3) & (B4 & L4)).
  destruct (sums_all p Hb Hl) as (_ & _ & D & _).
  unfold BOOT_IFWI_XOR_OFFSET, BOOT_IFWI_SIZE in *. rewrite xor_update_eq.
  unfold BOOT_IFWI_XOR_OFFSET. rewrite slice_putn_ne by lia. unfold after_clear2, BOOT_IFWI_XOR_OFFSET.
  rewrite slice_putn_ne by lia. unfold after_umip. rewrite slice_putn_ne by lia.
  unfold after_clear. rewrite slice_putn_ne by lia.
  unfold slice. replace o with (512 + (o - 512))%nat by lia. by rewrite <-(drop_drop (sectors_summed p)), <-(drop_drop p), D.
Qed.

Lemma sector_balanced i : 2 <= i < 128 -> getn 4 (Z.to_nat (4 * i)) (xor_update p) = sector_sum i (xor_update p).
Proof using Hb Hl.
  intros Hi. destruct stages_ok as ((B1 & L1) & (B2 & L2) & (B3 & L3) & (B4 & L4)).
  destruct (sums_all p Hb Hl) as (_ & _ & _ & _ & S).
  assert (Es : sector_sum i (xor_update p) = sector_sum i p).
  { apply sector_sum_eq. apply (slice_xor_update (Z.to_nat (i * 512)) 512); [lia|left].
    unfold BOOT_IFWI_XOR_OFFSET. lia. }
  rewrite Es, <-S by lia. rewrite xor_update_eq.
  unfold BOOT_IFWI_XOR_OFFSET, BOOT_IFWI_SIZE in *.
  rewrite getn_putn_ne by lia. unfold after_clear2, BOOT_IFWI_XOR_OFFSET.
  rewrite getn_putn_ne by lia. unfold after_umip. rewrite getn_putn_ne by lia.
  unfold after_clear. by rewrite getn_putn_ne by lia.
Qed.

Lemma length_xor_update : length (xor_update p) = length p.
Proof using Hb Hl.
  destruct stages_ok as (_ & _ & _ & (B4 & L4)). rewrite xor_update_eq, length_putn, L4; [done|].
  unfold BOOT_IFWI_XOR_OFFSET, BOOT_IFWI_SIZE in *. lia.
Qed.

Lemma bytes_xor_update : bytes_ok (xor_update p).
Proof using Hb Hl. destruct stages_ok as (_ & _ & _ & (B4 & L4)). rewrite xor_update_eq. auto with bytes. Qed.

Lemma take_xor_update : take 7 (xor_update p) = take 7 p.
Proof using Hb Hl.
  destruct stages_ok as ((B1 & L1) & (B2 & L2) & (B3 & L3) & (B4 & L4)).
  destruct (sums_all p Hb Hl) as (_ & _ & _ & T & _).
  apply (f_equal (take 7)) in T. rewrite !take_take in T. cbn [Nat.min] in T.
  rewrite xor_update_eq. unfold BOOT_IFWI_XOR_OFFSET, BOOT_IFWI_SIZE in *.
  rewrite take_putn by lia. unfold after_clear2, BOOT_IFWI_XOR_OFFSET.
  rewrite take_putn by lia. unfold after_umip. rewrite take_putn by lia. unfold after_clear. by rewrite take_putn by lia.
Qed.
End Stages.

(** after [xor_update] all checksums hold: those of the sectors of the UMIP, that of the UMIP
    and that of the whole image; apart from them nothing changed. *)
Theorem xor_update_balances p : bytes_ok p -> length p = Z.to_nat BOOT_IFWI_SIZE ->
  xor_compute (xor_update p) BOOT_IFWI_SIZE = 0 /\
  xor_factorize (xor_compute (xor_update p) BOOT_UMIP_SIZE) = 0 /\
  (forall i, 2 <= i < 128 -> getn 4 (Z.to_nat (4 * i)) (xor_update p) = sector_sum i (xor_update p)) /\
  take 7 (xor_update p) = take 7 p /\
  (forall o n, (512 <= o)%nat ->
     (o + n <= Z.to_nat BOOT_IFWI_XOR_OFFSET \/ Z.to_nat BOOT_IFWI_XOR_OFFSET + 4 <= o)%nat ->
     slice o n (xor_update p) = slice o n p).
Proof.
  intros Hb Hl. split_and!; [by apply ifwi_balanced|by apply umip_balanced|by apply sector_balanced|by apply take_xor_update|].
  by apply slice_xor_update.
Qed.

(** ** Updating a partition *)

(** Writing to a regular file, wherever its end is. *)
Lemma wp_write_regular fd w d data Q buf : fd_file w fd = Some (d, mkFile Regular data) -> fd_write d = true -> 0 <= fd_off d ->
  (forall w', unmoved w w' -> ~ quiet w -> Q (Ret (-1)) w') ->
  (forall w' n data', (n <= length buf)%nat -> (quiet w -> n = length buf) ->
     w_files w' = <[ fd_path d := mkFile Regular data' ]> (w_files w) ->
     w_fds w' = <[ fd := mkFd (fd_path d) (fd_off d + Z.of_nat n) (fd_read d) (fd_write d) ]> (w_fds w) ->
     (quiet w -> quiet w') -> Q (Ret (Z.of_nat n)) w') ->
  wp Q (sys_write fd buf) w.
Proof.
  intros Hff Hw Ho H1 H2. unfold wp, sys_write, bind, next_fault, sys_fail, unmoved, quiet in *.
  destruct (w_faults w) as [|[|e|k] fs] eqn:Ef; cbn [fst snd]; unfold fd_file in *; cbn [w_files w_fds set_faults] in *;
    try (rewrite Hff, Hw; cbn [negb f_kind]); try (apply H1; [by cbn|done]).
  all: cbn [fst snd f_data].
  all: match goal with |- _ (Ret ?n) _ =>
    assert (Hn : 0 <= n <= Z.of_nat (length buf)) by (unfold transfer; lia);
    assert (Hfull : w_faults w = [] -> n = Z.of_nat (length buf)) by (unfold transfer; congruence);
    set (m := n) in *; clearbody m end.
  all: rewrite <-(Z2Nat.id m) at 1 by lia; eapply H2; [lia|intros E; rewrite Hfull by congruence; lia|reflexivity| |done].
  all: rewrite Z2Nat.id by lia; reflexivity.
Qed.

(** [force_rw] touches nothing but its file and leaves nothing open. *)
Lemma wp_force_rw {B} (Q : outcome B -> world -> Prop) kont name w c :
  w_files w !! name = Some (mkFile Regular c) ->
  (forall r w' c', r = 0 \/ r = -1 -> w_files w' = <[ name := mkFile Regular c' ]> (w_files w) ->
     w_fds w' = w_fds w -> (quiet w -> quiet w' /\ r = 0) -> wp Q (kont r) w') ->
  wp Q (bind (force_rw name) kont) w.
Proof.
  intros Hf H. unfold force_rw. apply wp_assoc, wp_bind. eapply wp_open; [done|done| |].
  { intros w' (U1 & U2 & U3) Hq. cbn [Z.ltb Z.compare]. apply wp_bind, wp_ret. eapply (H _ _ c).
    - by right.
    - by rewrite insert_id.
    - done.
    - intros Hqq. destruct (Hq Hqq) as [?|[? ?]]; congruence. }
  intros w1 fd f Hf1 _ Hfd Hgt F1 F2 F3. rewrite Hf in Hf1. injection Hf1 as <-.
  replace (fd <? 0) with false by lia. apply wp_assoc, wp_bind.
  assert (Hopen : w_fds w1 !! fd = Some (mkFd name 0 false true)) by (by rewrite F2, lookup_insert_eq).
  assert (Hclose : forall w2 c' off, w_files w2 = <[ name := mkFile Regular c' ]> (w_files w) ->
    w_fds w2 = <[ fd := mkFd name off false true ]> (w_fds w) -> forall r, r = 0 \/ r = -1 -> (quiet w -> quiet w2 /\ r = 0) ->
    wp Q (bind (sys_close fd) (fun _ => kont r)) w2).
  { intros w2 c' off E1 E2 r Hr Hq. apply wp_bind.
    eapply (wp_close fd w2 (mkFd name off false true) (mkFile Regular c')).
    - unfold fd_file. rewrite E2, lookup_insert_eq. cbn. by rewrite E1, lookup_insert_eq.
    - intros w3 G1 G2 G3. eapply H; [exact Hr|by rewrite G1, E1|by rewrite G2, E2, delete_insert_id|].
      intros Hqq. destruct (Hq Hqq). auto. }
  eapply (wp_write_regular fd w1 (mkFd name 0 false true) c); [|done|by cbn|..].
  { unfold fd_file. rewrite Hopen. cbn. by rewrite F1, Hf. }
  - intros w2 (U1 & U2 & U3) Hq. cbn [Z.leb Z.compare]. apply wp_assoc.
    eapply (Hclose w2 c 0); [by rewrite U1, F1, insert_id|by rewrite U2, F2|by right|]. intros Hqq. by destruct (Hq (F3 Hqq)).
  - cbn [fd_path fd_off fd_read fd_write]. intros w2 n c' Hn Hq E1 E2 E3.
    assert (Hlen : length FORCE_RW_OPT = 2%nat) by (vm_compute; reflexivity).
    rewrite F1 in E1. rewrite F2, insert_insert_eq in E2.
    destruct (Z.leb_spec (Z.of_nat n) 0); apply wp_assoc.
    + eapply (Hclose w2 c' (0 + Z.of_nat n)); [done|done|lia|]. intros Hqq. specialize (Hq (F3 Hqq)). lia.
    + eapply (Hclose w2 c' (0 + Z.of_nat n)); [done|done|by left|]. auto.
Qed.

Lemma wp_err_boot1 {B} (Q : outcome B -> world -> Prop) kont fd w :
  (forall w', w_files w' = w_files w -> w_fds w' = delete fd (w_fds w) -> wp Q (kont (-1)) w') ->
  wp Q (bind (err_boot1 fd) kont) w.
Proof.
  intros H. unfold err_boot1, wp, bind, sys_close, sys_fail, ret.
  destruct (w_fds w !! fd) eqn:E; cbn; apply H; try done. symmetry. by apply delete_id.
Qed.

Lemma wp_mmap fd w d file size Q : fd_file w fd = Some (d, file) -> fd_read d = true -> fd_write d = true ->
  size <= Z.of_nat (length (f_data file)) ->
  (forall w', unmoved w w' -> ~ quiet w -> Q (Ret None) w') ->
  (forall w', unmoved w w' -> Q (Ret (Some (take (Z.to_nat size) (f_data file)))) w') ->
  wp Q (sys_mmap fd size) w.
Proof.
  intros Hff Hr Hw Hs H1 H2. unfold wp, sys_mmap, bind, next_fault, sys_fail, ret, unmoved, quiet in *.
  destruct (w_faults w) as [|[|e|k] fs] eqn:Ef; cbn [fst snd]; unfold fd_file in *; cbn [w_files w_fds set_faults] in *;
    try (rewrite Hff, Hr, Hw; cbn [negb andb]; replace (_ <? size) with false by lia); cbn [fst snd].
  all: first [apply H2; by cbn | apply H1; [by cbn|done]].
Qed.

(** The content of a partition after [new] was stored at [addr]. *)
Definition updated (addr : Z) (new d : bytes) : bytes :=
  splice 0 (umip_content addr new (take (Z.to_nat BOOT_IFWI_SIZE) d)) d.

Section Partition.
Context (w : world) (i : Z) (k : fkind) (d c : bytes).
Context (Hpart : w_files w !! boot_partition i = Some (mkFile k d)) (Hk : k <> Symlink).
Context (Hro : w_files w !! boot_partition_force_ro i = Some (mkFile Regular c)).
Context (Hne : boot_partition i <> boot_partition_force_ro i) (Hd : BOOT_IFWI_SIZE <= Z.of_nat (length d)).

Lemma wp_boot_partition {B} (Q : outcome B -> world -> Prop) kont addr data size boot_fd new :
  0 <= addr -> 0 <= size -> addr + size <= BOOT_IFWI_SIZE -> source data size = Some new ->
  (forall w' fd c', w_files w' = <[ boot_partition i := mkFile k (updated addr new d) ]>
       (<[ boot_partition_force_ro i := mkFile Regular c' ]> (w_files w)) ->
     w_fds w' = w_fds w -> w_fds w !! fd = None -> (quiet w -> quiet w') -> wp Q (kont (0, fd)) w') ->
  (forall w' fd c' x, w_files w' = <[ boot_partition_force_ro i := mkFile Regular c' ]> (w_files w) ->
     w_fds w' = delete x (w_fds w) -> x = boot_fd \/ x < 0 \/ w_fds w !! x = None -> ~ quiet w -> wp Q (kont (-1, fd)) w') ->
  wp Q (bind (write_boot_partition addr data size i boot_fd) kont) w.
Proof using All.
  intros Ha Hs Has Hsrc H1 H2. unfold write_boot_partition. apply wp_assoc.
  eapply wp_force_rw; [exact Hro|]. intros r w1 c1 Hr F1 D1 Q1.
  destruct (truthy r) eqn:Er.
  { apply wp_assoc, wp_err_boot1. intros w2 E1 E2. apply wp_bind, wp_ret.
    eapply (H2 _ _ c1 boot_fd); [by rewrite E1|by rewrite E2, D1|by left|].
    intros Hq. destruct (Q1 Hq) as [_ ->]. done. }
  assert (Hp1 : w_files w1 !! boot_partition i = Some (mkFile k d)) by (by rewrite F1, lookup_insert_ne).
  apply wp_assoc, wp_bind. eapply wp_open; [done|done| |].
  { intros w2 (U1 & U2 & U3) Hq. cbn [Z.ltb Z.compare]. apply wp_assoc, wp_err_boot1. intros w3 E1 E2.
    apply wp_bind, wp_ret. eapply (H2 _ _ c1 (-1)); [by rewrite E1, U1|by rewrite E2, U2, D1|right; by left|].
    intros Hqq. destruct (Q1 Hqq) as [Hq1 _]. destruct (Hq Hq1) as [E|[? E]]; rewrite Hp1 in E; [done|]. by injection E as ->. }
  intros w2 fd f Hf2 _ Hfd Hgt F2 D2 Q2. rewrite Hp1 in Hf2. injection Hf2 as <-.
  replace (fd <? 0) with false by lia. rewrite D1 in Hfd, D2.
  assert (Hff : forall w' d', w_files w' !! boot_partition i = Some (mkFile k d') -> w_fds w' = w_fds w2 ->
    fd_file w' fd = Some (mkFd (boot_partition i) 0 true true, mkFile k d')).
  { intros w' d' G1 G2. unfold fd_file. rewrite G2, D2, lookup_insert_eq. cbn. by rewrite G1. }
  apply wp_assoc, wp_bind. eapply (wp_mmap fd w2); [apply Hff; [by rewrite F2|done]|done|done|exact Hd| |].
  { intros w3 (U1 & U2 & U3) Hq. apply wp_assoc, wp_err_boot1. intros w4 E1 E2. apply wp_bind, wp_ret.
    eapply (H2 _ _ c1 fd).
    - by rewrite E1, U1, F2.
    - by rewrite E2, U2, D2, delete_insert_eq.
    - right. by right.
    - intros Hqq. apply Hq, Q2. by destruct (Q1 Hqq). }
  cbn [f_data]. intros w3 (U1 & U2 & U3). set (ptr := take (Z.to_nat BOOT_IFWI_SIZE) d).
  rewrite u32_small by (unfold BOOT_IFWI_SIZE in *; lia). replace (addr + size <=? BOOT_IFWI_SIZE) with true by lia.
  rewrite Hsrc.
  assert (Hnew : length new = Z.to_nat size).
  { unfold source in Hsrc. destruct data as [dd|].
    - destruct (Z.ltb_spec (Z.of_nat (length dd)) size); [done|]. injection Hsrc as <-. rewrite length_take. lia.
    - injection Hsrc as <-. apply length_replicate. }
  assert (Hptr : length ptr = Z.to_nat BOOT_IFWI_SIZE) by (unfold ptr; rewrite length_take; lia).
  assert (Hfits : (length ptr <? Z.to_nat addr + length new)%nat = false)
    by (apply Nat.ltb_ge; rewrite Hptr, Hnew; clear - Ha Hs Has; lia).
  rewrite Hfits. apply wp_assoc, wp_bind.
  unfold wp at 1, store_mapping. rewrite (Hff w3 d) by (by rewrite ?U1, ?F2). cbn [fst snd fd_path f_kind f_data].
  apply wp_assoc, wp_bind.
  eapply (wp_close fd _ (mkFd (boot_partition i) 0 true true)).
  { apply Hff; cbn [w_files w_fds set_files]; [apply lookup_insert_eq|by rewrite U2]. }
  intros w4 E1 E2 E3. apply wp_bind, wp_ret. eapply (H1 _ _ c1).
  - rewrite E1. cbn [w_files set_files]. by rewrite U1, F2, F1.
  - rewrite E2. cbn [w_fds set_files]. by rewrite U2, D2, delete_insert_id.
  - done.
  - intros Hq. apply E3. unfold quiet in *. cbn [w_faults set_files]. apply U3, Q2. by destruct (Q1 Hq).
Qed.
End Partition.

(** ** Both partitions *)

(** A device with two boot partitions and their switches. *)
Record boot_device (w : world) (k0 k1 : fkind) (d0 d1 : bytes) : Prop := {
  bd_part0 : w_files w !! boot_partition 0 = Some (mkFile k0 d0);
  bd_part1 : w_files w !! boot_partition 1 = Some (mkFile k1 d1);
  bd_kinds : k0 <> Symlink /\ k1 <> Symlink;
  bd_switch0 : exists c, w_files w !! boot_partition_force_ro 0 = Some (mkFile Regular c);
  bd_switch1 : exists c, w_files w !! boot_partition_force_ro 1 = Some (mkFile Regular c);
  bd_sizes : BOOT_IFWI_SIZE <= Z.of_nat (length d0) /\ BOOT_IFWI_SIZE <= Z.of_nat (length d1)
}.

(** The files an update may touch. *)
Definition boot_files : list string :=
  [boot_partition 0; boot_partition 1; boot_partition_force_ro 0; boot_partition_force_ro 1].

(** The size of the update: a whole image is cut off at the size of the partition. *)
Definition clamped (addr size : Z) : Z :=
  if (addr =? IFWI_OFFSET) && (BOOT_IFWI_SIZE <? size) then BOOT_IFWI_SIZE else size.

Definition boot_post (w : world) (k0 k1 : fkind) (d0 d1 : bytes) (addr : Z) (new : bytes)
    (o : outcome Z) (w' : world) : Prop :=
  exists rc d0' d1', o = Ret rc /\
    w_files w' !! boot_partition 0 = Some (mkFile k0 d0') /\ w_files w' !! boot_partition 1 = Some (mkFile k1 d1') /\
    (exists c, w_files w' !! boot_partition_force_ro 0 = Some (mkFile Regular c)) /\ (quiet w -> quiet w') /\
    (forall path, path ∉ boot_files -> w_files w' !! path = w_files w !! path) /\
    (rc = 0 /\ d0' = updated addr new d0 /\ d1' = updated addr new d1 /\ w_fds w' = w_fds w \/
     rc = -1 /\ ~ quiet w /\ d1' = d1 /\ (d0' = d0 \/ d0' = updated addr new d0) /\
     exists x, w_fds w' = delete x (w_fds w)).

Lemma not_boot_file path : path ∉ boot_files ->
  boot_partition 0 <> path /\ boot_partition 1 <> path /\ boot_partition_force_ro 0 <> path /\ boot_partition_force_ro 1 <> path.
Proof. unfold boot_files. set_solver. Qed.

Ltac boot_lookups := repeat first [rewrite lookup_insert_eq | rewrite lookup_insert_ne by done].

Lemma write_umip_correct w k0 k1 d0 d1 addr data size new :
  boot_device w k0 k1 d0 d1 -> 0 <= addr -> 0 <= size -> addr + clamped addr size <= BOOT_IFWI_SIZE ->
  source data (clamped addr size) = Some new ->
  wp (boot_post w k0 k1 d0 d1 addr new) (write_umip_emmc addr data size) w.
Proof.
  intros [P0 P1 [K0 K1] [c0 S0] [c1 S1] [L0 L1]] Ha Hs Has Hsrc. unfold write_umip_emmc.
  fold (clamped addr size).
  assert (Hcs : 0 <= clamped addr size) by (unfold clamped, BOOT_IFWI_SIZE; destruct (_ && _); lia).
  assert (Hstart : forall w1, unmoved w w1 ->
    wp (boot_post w k0 k1 d0 d1 addr new)
      (let! (r, boot_fd) := write_boot_partition addr data (clamped addr size) 0 0 in
       if truthy r then ret r else
       let! (r, boot_fd) := write_boot_partition addr data (clamped addr size) 1 boot_fd in ret r) w1).
  { intros w1 (U1 & U2 & U3).
    eapply (wp_boot_partition w1 0 k0 d0 c0); try done; try (by rewrite U1).
    - intros w2 fd c' F2 D2 Hfd Q2. change (truthy 0) with false. cbv iota.
      eapply (wp_boot_partition w2 1 k1 d1 c1); try done; try (by rewrite F2; boot_lookups; rewrite U1).
      + intros w3 fd2 c2 F3 D3 _ Q3. apply wp_ret. exists 0, (updated addr new d0), (updated addr new d1).
        split; [done|]. split; [rewrite F3, F2; by boot_lookups|]. split; [rewrite F3; by boot_lookups|].
        split; [exists c'; rewrite F3, F2; by boot_lookups|]. split; [auto|]. split.
        * intros path Hp. destruct (not_boot_file path Hp) as (N1 & N2 & N3 & N4).
          by rewrite F3, F2, !lookup_insert_ne, U1 by done.
        * left. split_and!; try done. by rewrite D3, D2, U2.
      + intros w3 fd2 c2 x F3 D3 _ Hq. apply wp_ret. exists (-1), (updated addr new d0), d1.
        split; [done|]. split; [rewrite F3, F2; by boot_lookups|].
        split; [rewrite F3, F2; boot_lookups; by rewrite U1|].
        split; [exists c'; rewrite F3, F2; by boot_lookups|]. split; [intros Hqq; destruct Hq; auto|]. split.
        * intros path Hp. destruct (not_boot_file path Hp) as (N1 & N2 & N3 & N4).
          by rewrite F3, F2, !lookup_insert_ne, U1 by done.
        * right. split_and!; try done; [auto|by right|]. exists x. by rewrite D3, D2, U2.
    - intros w2 fd c' x F2 D2 _ Hq. change (truthy (-1)) with true. cbv iota. apply wp_ret.
      exists (-1), d0, d1. split; [done|]. split; [rewrite F2; boot_lookups; by rewrite U1|].
      split; [rewrite F2; boot_lookups; by rewrite U1|].
      split; [exists c'; rewrite F2; by boot_lookups|]. split; [intros Hqq; destruct Hq; auto|]. split.
      + intros path Hp. destruct (not_boot_file path Hp) as (N1 & N2 & N3 & N4).
        by rewrite F2, !lookup_insert_ne, U1 by done.
      + right. split_and!; try done; [auto|by left|]. exists x. by rewrite D2, U2. }
  apply wp_bind. destruct (addr =? IFWI_OFFSET).
  - apply wp_malloc; [|intros w1 Hu _; cbn [negb]; by apply Hstart].
    intros w1 (U1 & U2 & U3) Hq. cbn [negb]. apply wp_ret. exists (-1), d0, d1.
    split_and!; try done; [by rewrite U1|by rewrite U1|exists c0; by rewrite U1|intros; by rewrite U1|].
    right. split_and!; try done; [intros Hqq; specialize (Hq Hqq); unfold TOKEN_UMIP_AREA_SIZE in Hq; lia|by left|].
    exists (fresh_fd (w_fds w)). rewrite U2. symmetry. apply delete_id, fresh_fd_spec.
  - apply wp_ret. cbn [negb]. by apply Hstart.
Qed.


(** The bytes of the token area. *)
Definition token_area (d : bytes) : bytes :=
  slice (Z.to_nat TOKEN_UMIP_AREA_OFFSET) (Z.to_nat TOKEN_UMIP_AREA_SIZE) d.

Lemma area_range : (512 <= Z.to_nat TOKEN_UMIP_AREA_OFFSET)%nat /\
  (Z.to_nat TOKEN_UMIP_AREA_OFFSET + Z.to_nat TOKEN_UMIP_AREA_SIZE <= Z.to_nat BOOT_IFWI_XOR_OFFSET)%nat /\
  (Z.to_nat TOKEN_UMIP_AREA_OFFSET + Z.to_nat TOKEN_UMIP_AREA_SIZE <= Z.to_nat BOOT_IFWI_SIZE)%nat.
Proof. unfold TOKEN_UMIP_AREA_OFFSET, TOKEN_UMIP_AREA_SIZE, BOOT_IFWI_XOR_OFFSET, BOOT_IFWI_SIZE. split_and!; lia. Qed.

Section Image.
Context (new d : bytes) (Hn : bytes_ok new) (Hd : bytes_ok d).
Context (Hln : (length new <= Z.to_nat BOOT_IFWI_SIZE)%nat) (Hld : (Z.to_nat BOOT_IFWI_SIZE <= length d)%nat).

Definition mapped : bytes := take (Z.to_nat BOOT_IFWI_SIZE) d.
Definition with_tokens : bytes := splice (Z.to_nat TOKEN_UMIP_AREA_OFFSET) (token_area mapped) (splice 0 new mapped).

Lemma mapped_ok : bytes_ok mapped /\ length mapped = Z.to_nat BOOT_IFWI_SIZE.
Proof using Hn Hd Hln Hld. unfold mapped. split; [auto with bytes|]. rewrite length_take. lia. Qed.

Lemma token_length : length (token_area mapped) = Z.to_nat TOKEN_UMIP_AREA_SIZE.
Proof using Hn Hd Hln Hld.
  destruct mapped_ok as [_ L], area_range as (_ & _ & A). unfold token_area. rewrite length_slice, L. lia.
Qed.

Lemma with_tokens_ok : bytes_ok with_tokens /\ length with_tokens = Z.to_nat BOOT_IFWI_SIZE.
Proof using Hn Hd Hln Hld.
  destruct mapped_ok as [B L], area_range as (_ & _ & A). pose proof token_length as T.
  assert (L1 : length (splice 0 new mapped) = Z.to_nat BOOT_IFWI_SIZE) by (rewrite length_splice; lia).
  unfold with_tokens. split; [unfold token_area; auto with bytes|]. rewrite length_splice; lia.
Qed.

Lemma umip_content_eq : umip_content IFWI_OFFSET new mapped = xor_update with_tokens.
Proof using Type. unfold umip_content, with_tokens, token_area. rewrite Z.eqb_refl. reflexivity. Qed.

(** What a whole image leaves on a partition: the old tokens, and checksums that hold. *)
Lemma updated_image : token_area (updated IFWI_OFFSET new d) = token_area d /\
  xor_compute (updated IFWI_OFFSET new d) BOOT_IFWI_SIZE = 0 /\ length (updated IFWI_OFFSET new d) = length d.
Proof using Hn Hd Hln Hld.
  destruct mapped_ok as [B L], with_tokens_ok as [B1 L1], area_range as (A1 & A2 & A3). pose proof token_length as T.
  unfold updated. fold mapped. rewrite umip_content_eq.
  pose proof (length_xor_update with_tokens B1 L1) as Lx. rewrite L1 in Lx.
  assert (Hrange : forall o n, (o + n <= Z.to_nat BOOT_IFWI_SIZE)%nat ->
    slice o n (splice 0 (xor_update with_tokens) d) = slice o n (xor_update with_tokens)).
  { intros o n H. rewrite slice_splice_in by lia. by rewrite Nat.sub_0_r. }
  split_and!.
  - unfold token_area at 1. rewrite Hrange by exact A3. rewrite slice_xor_update by (done || (left; exact A2)).
    unfold with_tokens. rewrite <-T at 1. rewrite slice_splice_eq.
    + unfold token_area, mapped. by rewrite slice_take.
    + rewrite T, length_splice, L by lia. exact A3.
  - transitivity (xor_compute (xor_update with_tokens) BOOT_IFWI_SIZE); [|by apply ifwi_balanced].
    unfold xor_compute. apply xor_words_take. rewrite (proj1 ifwi_words), <-!slice_0. by apply Hrange.
  - rewrite length_splice; lia.
Qed.
End Image.

(** flashing a firmware image never changes the token area of a boot partition, whatever call
    fails; when it succeeds the image checksum of both partitions holds. *)
Theorem update_ifwi_keeps_tokens w k0 k1 d0 d1 data size :
  boot_device w k0 k1 d0 d1 -> bytes_ok d0 -> bytes_ok d1 -> bytes_ok data -> 0 <= size <= Z.of_nat (length data) ->
  wp (fun o w' => exists rc d0' d1', o = Ret rc /\
        w_files w' !! boot_partition 0 = Some (mkFile k0 d0') /\ w_files w' !! boot_partition 1 = Some (mkFile k1 d1') /\
        token_area d0' = token_area d0 /\ token_area d1' = token_area d1 /\
        (rc = 0 /\ xor_compute d0' BOOT_IFWI_SIZE = 0 /\ xor_compute d1' BOOT_IFWI_SIZE = 0 \/ rc = -1 /\ ~ quiet w))
     (update_ifwi_file_scu_emmc data size) w.
Proof.
  intros Hdev B0 B1 Bd Hs. pose proof (bd_sizes _ _ _ _ _ Hdev) as [L0 L1].
  assert (Hc : 0 <= clamped 0 size <= BOOT_IFWI_SIZE /\ clamped 0 size <= Z.of_nat (length data)).
  { unfold clamped, IFWI_OFFSET. rewrite Z.eqb_refl, andb_true_l. destruct (Z.ltb_spec BOOT_IFWI_SIZE size);
      unfold BOOT_IFWI_SIZE in *; lia. }
  set (new := take (Z.to_nat (clamped 0 size)) data).
  assert (Hln : (length new <= Z.to_nat BOOT_IFWI_SIZE)%nat) by (unfold new; rewrite length_take; lia).
  assert (Bn : bytes_ok new) by (unfold new; auto with bytes).
  destruct (updated_image new d0 Bn B0 Hln ltac:(lia)) as (T0 & X0 & _).
  destruct (updated_image new d1 Bn B1 Hln ltac:(lia)) as (T1 & X1 & _).
  eapply wp_mono; [apply (write_umip_correct w k0 k1 d0 d1 IFWI_OFFSET (Some data) size new Hdev)|].
  - done.
  - lia.
  - unfold IFWI_OFFSET. lia.
  - unfold source, IFWI_OFFSET. replace (Z.of_nat (length data) <? clamped 0 size) with false by lia. done.
  - intros o w' (rc & d0' & d1' & -> & F0 & F1 & _ & _ & _ & [(-> & -> & -> & _)|(-> & Hq & -> & Hd & _)]).
    + exists 0, (updated IFWI_OFFSET new d0), (updated IFWI_OFFSET new d1).
      exact (conj eq_refl (conj F0 (conj F1 (conj T0 (conj T1 (or_introl (conj eq_refl (conj X0 X1)))))))).
    + exists (-1), d0', d1.
      assert (T : token_area d0' = token_area d0) by (destruct Hd as [-> | ->]; [reflexivity|exact T0]).
      exact (conj eq_refl (conj F0 (conj F1 (conj T (conj eq_refl (or_intror (conj eq_refl Hq))))))).
Qed.
