(* ===== verification/Bootloader.v ===== *)
(** * Bootloader packages (bootloader.c, bootloader.h)

    A package is a header followed by components, each behind a header of its own with a magic,
    a size and a flag.  Pointers have 32 bits: the pointer to a component is kept as its distance
    from the start of the package, which wraps around like the pointer does.  Messages, and
    [something_flashed], which only chooses one, are left out. *)

From stdpp Require Import base list numbers gmap strings.
From Stdlib Require Import ZArith Lia.
From S2P Require Import Prelude GuidStr Posix.

(** ** Layout *)

Definition BOOTLOADER_MAGIC : bytes := str "BOOTLDR!".
Definition BOOTLOADER_MAGIC_SIZE : nat := 8.
Definition COMPONENT_MAGIC_SIZE : nat := 8.
Definition FLAG_FLASH : Z := 1.

Definition sizeof_bootloader_hdr : Z := 16.
Definition sizeof_component_hdr : Z := 16.

Definition IFWI_MAGIC : bytes := str "IFWI!!!!".
Definition DROIDBOOT_MAGIC : bytes := str "DROIDBT!".
Definition SPLASHSCREEN_MAGIC : bytes := str "SPLASHS!".
Definition CAPSULE_MAGIC : bytes := str "CAPSULE!".
Definition ESP_MAGIC : bytes := str "ESP!!!!!".

(** Names of flash.h *)
Definition ANDROID_OS_NAME : string := "boot".
Definition RECOVERY_OS_NAME : string := "recovery".
Definition FASTBOOT_OS_NAME : string := "fastboot".
Definition DROIDBOOT_OS_NAME : string := "droidboot".
Definition TEST_OS_NAME : string := "testos".
Definition BOOTLOADER_NAME : string := "bootloader".
Definition IFWI_NAME : string := "ifwi".
Definition SPLASHSCREEN_NAME : string := "splashscreen".
Definition SPLASHSCREEN_NAME1 : string := "splashscreen1".
Definition SPLASHSCREEN_NAME2 : string := "splashscreen2".
Definition SPLASHSCREEN_NAME3 : string := "splashscreen3".
Definition SPLASHSCREEN_NAME4 : string := "splashscreen4".
Definition ESP_PART_NAME : string := "ESP".
Definition SILENT_BINARY_NAME : string := "silentlake".
Definition RAMDUMP_OS_NAME : string := "ramdump".
Definition ESP_UPDATE_NAME : string := "esp_update".
Definition CAPSULE_NAME : string := "capsule".

Definition EPERM : Z := 1.

(** ** Memory

    The package is the bytes at [data]; reading behind them has no defined result. *)

Definition field (n off : nat) (data : bytes) : option Z :=
  if (off + n <=? length data)%nat then Some (getn n off data) else None.

(** [!strncmp(mem, s, strlen(s))]: characters are compared up to the first difference. *)
Fixpoint strncmp_same (mem s : bytes) : option bool :=
  match s, mem with
  | [], _ => Some true
  | c :: s, b :: mem => if b =? c then strncmp_same mem s else Some false
  | _ :: _, [] => None
  end.

(** ** Walking through the components *)

(** The new pointer, and whether it points into the package. *)
Definition next_component (data : bytes) (c_hdr : option Z) (sz : Z) : option (Z * bool) :=
  match c_hdr with
  | None => Some (sizeof_bootloader_hdr, true)
  | Some c =>
      size ← field 4 (Z.to_nat c + COMPONENT_MAGIC_SIZE) data;
      let c := u32 (c + sizeof_component_hdr + size) in
      Some (c, c <? sz)
  end.

(** The condition of the loop: the magic is that of [filter], and the flag is set. *)
Definition component_matches (data : bytes) (c : Z) (filter : bytes) : option bool :=
  same ← strncmp_same (drop (Z.to_nat c) data) filter;
  if negb same then Some false else
  flags ← field 1 (Z.to_nat c + COMPONENT_MAGIC_SIZE + 4) data;
  Some (truthy (Z.land flags FLAG_FLASH)).

(** A round that is not the last moves on to another component. *)
Fixpoint next_component_filter (fuel : nat) (data : bytes) (c_hdr : option Z) (sz : Z) (filter : bytes)
  : option (Z * bool) :=
  match fuel with
  | O => None
  | S fuel =>
      '(c, more) ← next_component data c_hdr sz;
      if negb more then Some (c, false) else
      found ← component_matches data c filter;
      if (found : bool) then Some (c, true) else next_component_filter fuel data (Some c) sz filter
  end.

Definition lift_option {A} (x : option A) : M A := match x with Some a => ret a | None => undefined end.

(** ** Flashing

    [aboot_flash name buffer] is the function of droidboot that looks up the command registered
    for [name]; the buffer is [None] when it does not lie in the package. *)
Section Flash.
Context (aboot_flash : string -> option bytes -> M Z).

Definition component_data (data : bytes) (c size : Z) : option bytes :=
  if (Z.to_nat (c + sizeof_component_hdr + size) <=? length data)%nat
  then Some (slice (Z.to_nat (c + sizeof_component_hdr)) (Z.to_nat size) data) else None.

(** The components of one kind: [inl ret] when the function returns [ret], or [present], [flashed]
    and [ret] behind the loop. *)
Fixpoint flash_loop (fuel : nat) (data : bytes) (sz : Z) (magic : bytes) (name : string) (c_hdr : option Z)
  (present flashed : bool) (r : Z) : M (Z + bool * bool * Z) :=
  match fuel with
  | O => undefined
  | S fuel' =>
      let! (c, found) := lift_option (next_component_filter fuel data c_hdr sz magic) in
      if negb found then ret (inr (present, flashed, r)) else
      let! size := lift_option (field 4 (Z.to_nat c + COMPONENT_MAGIC_SIZE) data) in
      let! r := aboot_flash name (component_data data c size) in
      if negb (r =? 0) && negb (r =? - EPERM) then ret (inl r) else
      flash_loop fuel' data sz magic name (Some c) true (flashed || (r =? 0)) r
  end.

Definition kinds : list (bytes * string) :=
  [(DROIDBOOT_MAGIC, FASTBOOT_OS_NAME); (IFWI_MAGIC, IFWI_NAME); (SPLASHSCREEN_MAGIC, SPLASHSCREEN_NAME);
   (CAPSULE_MAGIC, CAPSULE_NAME); (ESP_MAGIC, ESP_UPDATE_NAME)].

Fixpoint flash_kinds (fuel : nat) (data : bytes) (sz : Z) (ks : list (bytes * string)) (r : Z) : M Z :=
  match ks with
  | [] => ret 0
  | (magic, name) :: ks =>
      let! res := flash_loop fuel data sz magic name None false false r in
      match res with
      | inl r => ret r
      | inr (present, flashed, r) =>
          if present && negb flashed && bool_decide (name = FASTBOOT_OS_NAME) then ret r
          else flash_kinds fuel data sz ks r
      end
  end.

Definition flash_bootloader (fuel : nat) (data : bytes) (sz : Z) : M Z :=
  if sz <? sizeof_bootloader_hdr then ret (-1) else
  let! same := lift_option (strncmp_same data BOOTLOADER_MAGIC) in
  if negb same then ret (-1) else
  flash_kinds fuel data sz kinds (-1).
End Flash.
