(* ===== verification/BootloaderSpec.v ===== *)
(** * Theorems about bootloader packages

    The walk over the bytes of a package is the walk over its list of components; a component
    whose size wraps around the address space stops the walk from ending. *)

From stdpp Require Import base list numbers gmap strings.
From Stdlib Require Import ZArith Lia.
From S2P Require Import Prelude GuidStr Posix Bootloader.

(** ** Packages as lists of components *)

Record component := mkComponent { k_magic : bytes; k_flags : Z; k_reserved : bytes; k_body : bytes }.

Definition encode_component (c : component) : bytes :=
  k_magic c ++ le_enc 4 (Z.of_nat (length (k_body c))) ++ [k_flags c] ++ k_reserved c ++ k_body c.

Definition components (cs : list component) : bytes := concat (encode_component <$> cs).

Definition package (hdr : bytes) (cs : list component) : bytes := hdr ++ components cs.

Definition component_ok (c : component) : Prop :=
  length (k_magic c) = 8%nat /\ length (k_reserved c) = 3%nat /\ is_byte (k_flags c).

Record package_ok (hdr : bytes) (cs : list component) : Prop := {
  pk_hdr : length hdr = 16%nat;
  pk_magic : take 8 hdr = BOOTLOADER_MAGIC;
  pk_ok : Forall component_ok cs;
  pk_some : cs <> [];
  pk_size : Z.of_nat (length (package hdr cs)) < 2 ^ 32
}.

(** ** The walk over the list *)

Definition wanted (magic : bytes) (c : component) : bool :=
  bool_decide (k_magic c = magic) && Z.testbit (k_flags c) 0.

Section Install.
Context (aboot_flash : string -> option bytes -> M Z).

Fixpoint install_each (name : string) (cs : list component) (present flashed : bool) (r : Z)
  : M (Z + bool * bool * Z) :=
  match cs with
  | [] => ret (inr (present, flashed, r))
  | c :: cs =>
      let! r := aboot_flash name (Some (k_body c)) in
      if decide (r = 0) then install_each name cs true true r
      else if decide (r = - EPERM) then install_each name cs true flashed r
      else ret (inl r)
  end.

Fixpoint install_kinds (cs : list component) (ks : list (bytes * string)) (r : Z) : M Z :=
  match ks with
  | [] => ret 0
  | (magic, name) :: ks =>
      let! res := install_each name (List.filter (wanted magic) cs) false false r in
      match res with
      | inl r => ret r
      | inr (present, flashed, r) =>
          if present && negb flashed && bool_decide (name = FASTBOOT_OS_NAME) then ret r
          else install_kinds cs ks r
      end
  end.

(** Every kind in its order, and of each kind the components that are to be flashed, in theirs. *)
Definition install (cs : list component) : M Z := install_kinds cs kinds (-1).
End Install.

Lemma strncmp_same_take s mem : (length s <= length mem)%nat ->
  strncmp_same mem s = Some (bool_decide (take (length s) mem = s)).
Proof.
  revert mem. induction s as [|c s IH]; intros [|b mem] H; simpl in *; try lia; try done.
  destruct (Z.eqb_spec b c) as [->|].
  - rewrite IH by lia. f_equal. apply bool_decide_ext. split; congruence.
  - symmetry. f_equal. apply bool_decide_eq_false. congruence.
Qed.

Lemma length_encode c : component_ok c -> length (encode_component c) = (16 + length (k_body c))%nat.
Proof. intros (H1 & H2 & _). unfold encode_component. rewrite !length_app, length_le_enc. simpl. lia. Qed.

Lemma field_getn n off data : (off + n <= length data)%nat -> field n off data = Some (getn n off data).
Proof. intros. unfold field. by rewrite (proj2 (Nat.leb_le _ _)). Qed.

Lemma drop_slice_app (a b : bytes) off n : slice (length a + off) n (a ++ b) = slice off n b.
Proof. unfold slice. rewrite <-drop_drop. by rewrite drop_app_length. Qed.

Section Walk.
Context (hdr : bytes) (cs : list component) (Hok : package_ok hdr cs).

#[local] Abbreviation data := (package hdr cs).
#[local] Abbreviation sz := (Z.of_nat (length data)).

(** Where the component behind [pre] starts. *)
Definition position (pre : list component) : Z := Z.of_nat (length (hdr ++ components pre)).

Lemma package_at pre c post : cs = pre ++ c :: post ->
  data = (hdr ++ components pre) ++ encode_component c ++ components post.
Proof using Hok. intros ->. unfold package, components. rewrite fmap_app, concat_app. simpl. by rewrite !app_assoc. Qed.

Lemma in_package pre c post : cs = pre ++ c :: post ->
  component_ok c /\ position pre + 16 + Z.of_nat (length (k_body c)) + Z.of_nat (length (components post)) = sz /\
  sz < 2 ^ 32.
Proof using Hok.
  intros E. pose proof (pk_ok _ _ Hok) as H. rewrite E in H. apply Forall_app in H as [_ H].
  apply Forall_cons in H as [Hc _]. split; [done|]. split; [|apply (pk_size _ _ Hok)].
  rewrite (package_at _ _ _ E). unfold position. pose proof (length_encode c Hc). len.
Qed.

Lemma slice_at pre c post off n : cs = pre ++ c :: post -> (off + n <= length (encode_component c))%nat ->
  slice (Z.to_nat (position pre) + off) n data = slice off n (encode_component c).
Proof using Hok.
  intros E H. rewrite (package_at _ _ _ E). unfold position. rewrite Nat2Z.id, drop_slice_app.
  unfold slice. rewrite drop_app_le by lia. rewrite take_app_le by len. done.
Qed.

Lemma field_at pre c post off n : cs = pre ++ c :: post -> (off + n <= 16)%nat ->
  field n (Z.to_nat (position pre) + off) data = Some (getn n off (encode_component c)).
Proof using Hok.
  intros E H. destruct (in_package _ _ _ E) as (Hc & Hp & _). pose proof (length_encode c Hc).
  unfold position in *. rewrite field_getn by lia. f_equal. unfold getn. f_equal.
  apply (slice_at _ _ _ off n E). lia.
Qed.

Lemma size_field c : component_ok c -> Z.of_nat (length (k_body c)) < 2 ^ 32 ->
  getn 4 8 (encode_component c) = Z.of_nat (length (k_body c)).
Proof using Hok.
  intros (H1 & _ & _) H2. unfold getn, encode_component, slice. rewrite drop_app_length' by done.
  rewrite take_app_length' by len. rewrite le_dec_enc. apply Z.mod_small. lia.
Qed.

Lemma size_at pre c post : cs = pre ++ c :: post ->
  field 4 (Z.to_nat (position pre) + COMPONENT_MAGIC_SIZE) data = Some (Z.of_nat (length (k_body c))).
Proof using Hok.
  intros E. destruct (in_package _ _ _ E) as (Hc & Hp & Hs).
  rewrite (field_at pre c post) by (done || (unfold COMPONENT_MAGIC_SIZE; lia)).
  f_equal. apply size_field; [done|]. unfold position in Hp. lia.
Qed.

Lemma matches_at pre c post magic : cs = pre ++ c :: post -> length magic = 8%nat ->
  component_matches data (position pre) magic = Some (wanted magic c).
Proof using Hok.
  intros E Hm. destruct (in_package _ _ _ E) as (Hc & Hp & Hs). pose proof (length_encode c Hc) as Hl.
  destruct Hc as (H1 & H2 & H3). unfold component_matches.
  rewrite strncmp_same_take by (unfold position in *; len).
  assert (Hmag : take (length magic) (drop (Z.to_nat (position pre)) data) = k_magic c).
  { pose proof (slice_at pre c post 0 8 E ltac:(lia)) as Hsl. rewrite Nat.add_0_r in Hsl. unfold slice in Hsl.
    rewrite Hm, Hsl. unfold encode_component. rewrite drop_0. by rewrite take_app_length'. }
  rewrite Hmag. simpl. unfold wanted. destruct (decide (k_magic c = magic)) as [Ed|Ed].
  2:{ by rewrite bool_decide_eq_false_2. }
  rewrite bool_decide_eq_true_2 by done. simpl.
  replace (Z.to_nat (position pre) + COMPONENT_MAGIC_SIZE + 4)%nat with (Z.to_nat (position pre) + 12)%nat
    by (unfold COMPONENT_MAGIC_SIZE; lia).
  rewrite (field_at pre c post) by (done || lia). simpl. f_equal.
  assert (Hf : getn 1 12 (encode_component c) = k_flags c).
  { unfold getn, encode_component, slice. rewrite app_assoc, drop_app_length' by len. simpl. lia. }
  rewrite Hf. unfold truthy, FLAG_FLASH. change 1 with (Z.ones 1). rewrite Z.land_ones by lia.
  rewrite Zodd_mod. change (2 ^ 1) with 2.
  destruct (Z.eqb_spec (k_flags c mod 2) 1) as [->|]; [done|].
  by replace (k_flags c mod 2) with 0 by lia.
Qed.

(** The step from one component to the next, or behind the last. *)
Lemma next_at pre c post : cs = pre ++ c :: post ->
  next_component data (Some (position pre)) sz =
  Some (position (pre ++ [c]), negb (bool_decide (post = []))).
Proof using Hok.
  intros E. destruct (in_package _ _ _ E) as (Hc & Hp & Hs). unfold next_component.
  rewrite (size_at pre c post E). simpl. unfold sizeof_component_hdr.
  assert (Hn : u32 (position pre + 16 + Z.of_nat (length (k_body c))) = position (pre ++ [c])).
  { rewrite u32_small by (unfold position in *; lia). unfold position, components in *.
    pose proof (length_encode c Hc). rewrite fmap_app, concat_app. simpl. rewrite app_nil_r, !length_app in *. lia. }
  rewrite Hn. f_equal. f_equal.
  assert (Hq : position (pre ++ [c]) + Z.of_nat (length (components post)) = sz).
  { rewrite <-Hn, u32_small by (unfold position in *; lia). lia. }
  destruct post as [|d post].
  - simpl in Hq. rewrite bool_decide_eq_true_2 by done. simpl. lia.
  - rewrite bool_decide_eq_false_2 by done. simpl.
    assert (Ed : cs = (pre ++ [c]) ++ d :: post) by (by rewrite <-app_assoc).
    destruct (in_package _ _ _ Ed) as (Hd & _). unfold components in Hq. simpl in Hq.
    rewrite length_app, (length_encode d Hd) in Hq. lia.
Qed.

(** [cur] stands before the components [post]. *)
Definition before (cur : option Z) (pre post : list component) : Prop :=
  cs = pre ++ post /\ next_component data cur sz = Some (position pre, negb (bool_decide (post = []))).

Lemma before_start : before None [] cs.
Proof using Hok.
  split; [done|]. unfold next_component, sizeof_bootloader_hdr, position. simpl.
  rewrite app_nil_r, (pk_hdr _ _ Hok), bool_decide_eq_false_2; [done|]. apply (pk_some _ _ Hok).
Qed.

Lemma before_step cur pre c post : before cur pre (c :: post) -> before (Some (position pre)) (pre ++ [c]) post.
Proof using Hok. intros [E _]. split; [by rewrite <-app_assoc|]. by apply next_at. Qed.

(** The search stops at the first component wanted, or behind the last. *)
Lemma filter_spec magic post fuel cur pre :
  length magic = 8%nat -> before cur pre post -> (length post < fuel)%nat ->
  match List.filter (wanted magic) post with
  | [] => exists c, next_component_filter fuel data cur sz magic = Some (c, false)
  | k :: ks => exists mid rest, post = mid ++ k :: rest /\ List.filter (wanted magic) rest = ks /\
      next_component_filter fuel data cur sz magic = Some (position (pre ++ mid), true)
  end.
Proof using Hok.
  intros Hm. revert fuel cur pre. induction post as [|c post IH]; intros [|fuel] cur pre Hb Hf; simpl in Hf; try lia.
  { destruct Hb as [_ Hb]. cbn [next_component_filter List.filter]. rewrite Hb. simpl. eauto. }
  pose proof (before_step _ _ _ _ Hb) as Hs. destruct Hb as [E Hb].
  cbn [next_component_filter List.filter]. rewrite Hb. simpl. rewrite (matches_at pre c post magic E Hm). simpl.
  destruct (wanted magic c).
  { exists [], post. by rewrite app_nil_r. }
  specialize (IH fuel _ _ Hs ltac:(lia)). destruct (List.filter (wanted magic) post) as [|k ks]; [done|].
  destruct IH as (mid & rest & -> & <- & ->). exists (c :: mid), rest. by rewrite <-app_assoc.
Qed.

Section Loops.
Context (aboot_flash : string -> option bytes -> M Z).

Lemma component_data_at pre c post : cs = pre ++ c :: post ->
  component_data data (position pre) (Z.of_nat (length (k_body c))) = Some (k_body c).
Proof using Hok.
  intros E. destruct (in_package _ _ _ E) as (Hc & Hp & _). pose proof (length_encode c Hc) as Hl.
  unfold component_data, sizeof_component_hdr. unfold position in Hp |- *.
  rewrite (proj2 (Nat.leb_le _ _)) by lia. f_equal. rewrite Nat2Z.id.
  replace (Z.to_nat (Z.of_nat (length (hdr ++ components pre)) + 16)) with (length (hdr ++ components pre) + 16)%nat by lia.
  pose proof (slice_at pre c post 16 (length (k_body c)) E ltac:(lia)) as Hsl.
  unfold position in Hsl. rewrite Nat2Z.id in Hsl. rewrite Hsl.
  destruct Hc as (H1 & H2 & _). unfold encode_component, slice.
  rewrite !app_assoc, drop_app_length' by (rewrite !length_app, length_le_enc; simpl; lia).
  by apply take_ge.
Qed.

Lemma flash_loop_spec magic name post fuel cur pre present flashed r w :
  length magic = 8%nat -> before cur pre post -> (length post < fuel)%nat ->
  flash_loop aboot_flash fuel data sz magic name cur present flashed r w =
  install_each aboot_flash name (List.filter (wanted magic) post) present flashed r w.
Proof using Hok.
  intros Hm. remember (length post) as n eqn:En. revert post En fuel cur pre present flashed r w.
  induction n as [n IH] using lt_wf_ind. intros post -> [|fuel] cur pre present flashed r w Hb Hf; [lia|].
  pose proof (filter_spec magic post _ cur pre Hm Hb Hf) as Hs. cbn [flash_loop].
  destruct (List.filter (wanted magic) post) as [|k ks].
  { destruct Hs as [c Hs]. rewrite Hs. unfold bind, lift_option, ret. done. }
  destruct Hs as (mid & rest & -> & <- & Hs). rewrite Hs. destruct Hb as [E _].
  assert (Ek : cs = (pre ++ mid) ++ k :: rest) by (by rewrite <-app_assoc).
  unfold bind, lift_option, ret. cbn [negb]. rewrite (size_at _ _ _ Ek). cbn [install_each].
  rewrite (component_data_at _ _ _ Ek). unfold bind.
  destruct (aboot_flash name (Some (k_body k)) w) as [[r'|?|] w']; [|done..].
  assert (Hrec : forall b, flash_loop aboot_flash fuel data sz magic name (Some (position (pre ++ mid))) true b r' w' =
    install_each aboot_flash name (List.filter (wanted magic) rest) true b r' w').
  { intros b. rewrite length_app in Hf, IH. simpl in Hf, IH.
    apply (IH (length rest) ltac:(lia) rest eq_refl fuel _ ((pre ++ mid) ++ [k])); [|lia].
    split; [by rewrite <-!app_assoc|]. by apply next_at. }
  destruct (decide (r' = 0)) as [->|Hr].
  - simpl. rewrite Hrec. by rewrite orb_true_r.
  - destruct (Z.eqb_spec r' 0) as [|_]; [done|]. simpl. destruct (decide (r' = - EPERM)) as [->|Hp].
    + rewrite Z.eqb_refl. simpl. rewrite Hrec. by rewrite orb_false_r.
    + by destruct (Z.eqb_spec r' (- EPERM)).
Qed.
End Loops.
End Walk.

(** C11: A package made of a header and a list of components, whose length fits 32 bits, is
    installed as the list says: kind by kind, and of each kind exactly the components that carry
    the flag, in their order, each with exactly its bytes, up to the first failure that is not
    [-EPERM]; a round for each component is enough. *)
Theorem flash_bootloader_installs_components aboot_flash hdr cs fuel w :
  package_ok hdr cs -> (length cs < fuel)%nat ->
  flash_bootloader aboot_flash fuel (package hdr cs) (Z.of_nat (length (package hdr cs))) w =
  install aboot_flash cs w.
Proof.
  intros Hok Hf. unfold flash_bootloader, install.
  pose proof (pk_hdr _ _ Hok) as Hh. pose proof (pk_magic _ _ Hok) as Hm.
  destruct (Z.ltb_spec (Z.of_nat (length (package hdr cs))) sizeof_bootloader_hdr) as [Hs|_].
  { unfold package, sizeof_bootloader_hdr in Hs. len. }
  rewrite strncmp_same_take by (unfold package; rewrite length_app, Hh; simpl; lia).
  rewrite bool_decide_eq_true_2 by (unfold package; rewrite take_app_le by (simpl; lia); exact Hm).
  unfold bind at 1, lift_option, ret at 1. cbn [negb].
  assert (Hall : Forall (fun k => length k.1 = 8%nat) kinds) by (by repeat constructor).
  revert Hall. generalize (-1). generalize kinds. intros ks. revert w.
  induction ks as [|[magic name] ks IH]; intros w r Hall; [done|].
  apply Forall_cons in Hall as [Hmag Hall]. simpl in Hmag. cbn [flash_kinds install_kinds]. unfold bind.
  rewrite (flash_loop_spec hdr cs Hok aboot_flash magic name cs fuel None [] _ _ _ _ Hmag (before_start hdr cs Hok) Hf).
  destruct (install_each _ _ _ _ _ _ w) as [[[r'|[[p f] r']]|?|] w']; try done.
  destruct (p && negb f && bool_decide (name = FASTBOOT_OS_NAME)); [done|]. by apply IH.
Qed.

(** A component whose size is 2^32 - 16 ends where it starts.  When it is not to be flashed the
    search for the next component finds it again in every round and never ends; when it is, every
    search answers the same component, which is flashed over and over until a flash fails. *)
Theorem wrapping_component_is_found_again data sz c filter fuel :
  0 <= c < sz -> sz < 2 ^ 32 ->
  field 4 (Z.to_nat c + COMPONENT_MAGIC_SIZE) data = Some (2 ^ 32 - sizeof_component_hdr) ->
  (component_matches data c filter = Some false -> next_component_filter fuel data (Some c) sz filter = None) /\
  (component_matches data c filter = Some true ->
   next_component_filter (S fuel) data (Some c) sz filter = Some (c, true)).
Proof.
  intros Hc Hs Hf.
  assert (Hn : next_component data (Some c) sz = Some (c, true)).
  { unfold next_component. rewrite Hf. simpl.
    replace (c + sizeof_component_hdr + (2 ^ 32 - sizeof_component_hdr)) with (c + 1 * 2 ^ 32) by lia.
    unfold u32. rewrite Z_mod_plus_full, Z.mod_small by lia. by replace (c <? sz) with true by lia. }
  split; intros Hm.
  - induction fuel as [|fuel IH]; [done|]. cbn [next_component_filter]. rewrite Hn. simpl. by rewrite Hm.
  - cbn [next_component_filter]. rewrite Hn. simpl. by rewrite Hm.
Qed.

(** A package that ends behind its header is searched all the same. *)
Theorem header_alone_is_overread aboot_flash fuel hdr w :
  length hdr = 16%nat -> take 8 hdr = BOOTLOADER_MAGIC ->
  (flash_bootloader aboot_flash (S fuel) hdr 16 w).1 = Undefined.
Proof.
  intros Hl Hm. unfold flash_bootloader. simpl (16 <? sizeof_bootloader_hdr).
  rewrite strncmp_same_take by (rewrite Hl; simpl; lia). change (length BOOTLOADER_MAGIC) with 8%nat. rewrite Hm, bool_decide_eq_true_2 by done.
  cbn [lift_option]. unfold bind at 1, ret at 1. cbn [negb kinds flash_kinds flash_loop next_component_filter next_component].
  unfold component_matches, sizeof_bootloader_hdr. simpl. rewrite drop_ge by lia. done.
Qed.
