(* ===== verification/GptImage.v ===== *)
(** * Images on labelled partitions (flash_gpt/bootimage.c)

    An image is stored on the block device that a directory of links names after it.  The format
    of Android boot images belongs to bootimg.h of the platform: the header is a parameter.  An
    [int] and an [ssize_t] have 32 bits. *)

From stdpp Require Import base list numbers gmap strings.
From Stdlib Require Import ZArith Lia.
From S2P Require Import Prelude GuidStr Posix CLib Util Bootloader.

#[local] Open Scope string_scope.

Definition BY_NAME_DIR : string := "/dev/block/by-name".
Definition DISK_BY_LABEL_DIR : string := "/dev/disk/by-label".
Definition BASE_PLATFORM_INTEL_LABEL : string := "/dev/block/platform/intel/by-label".

Definition PREFIXES : list string := [BY_NAME_DIR; DISK_BY_LABEL_DIR; BASE_PLATFORM_INTEL_LABEL].

#[local] Close Scope string_scope.

(** [asprintf(&path, "%s/%s", prefix, name)], which fails when there is no memory. *)
Definition path_in (prefix name : string) : string := prefix +:+ "/" +:+ name.
Definition asprintf_path (prefix name : string) : M (option string) :=
  let! f := next_fault in
  ret (match f with Ferr _ => None | _ => Some (path_in prefix name) end).

Definition try_prefix (prefix name : string) : M (option string) :=
  let! path := asprintf_path prefix name in
  match path with
  | None => ret None
  | Some path =>
      let! (r, blk) := sys_stat_blk path in
      ret (if (r =? 0) && blk then Some path else None)
  end.

Fixpoint try_prefixes (prefixes : list string) (name : string) : M (option string) :=
  match prefixes with
  | [] => ret None
  | prefix :: prefixes =>
      let! tmp := try_prefix prefix name in
      match tmp with Some path => ret (Some path) | None => try_prefixes prefixes name end
  end.

(** The path stored when 0 is returned, [None] for -1. *)
Definition get_device_path (name : option string) : M (option string) :=
  match name with None => ret None | Some name => try_prefixes PREFIXES name end.

(** The pointer is not reset when the path is released, and only compared with NULL. *)
Definition has_device (name : string) : M bool :=
  let! path := get_device_path (Some name) in ret (bool_decide (is_Some path)).

Definition is_gpt : M bool := has_device "fastboot".

Definition flash_image_gpt (data : bytes) (name : string) : M Z :=
  let name := if bool_decide (name = TEST_OS_NAME) then ANDROID_OS_NAME else name in
  let! block_dev := get_device_path (Some name) in
  match block_dev with
  | None => ret (-1)
  | Some block_dev => file_write block_dev data
  end.

Definition open_bootimage (name : string) : M Z :=
  let! block_dev := get_device_path (Some name) in
  match block_dev with
  | None => ret (-1)
  | Some block_dev => sys_open block_dev O_RDONLY
  end.

(** ** The format of boot images *)

(** [struct boot_img_hdr]: its size, its magic, and the fields the code uses, all [unsigned]. *)
Record boot_img_format := {
  sizeof_boot_img_hdr : nat;
  BOOT_MAGIC : bytes;
  hdr_magic : bytes -> bytes;
  page_size : bytes -> Z;
  kernel_size : bytes -> Z;
  ramdisk_size : bytes -> Z;
  second_size : bytes -> Z
}.

Section Format.
Context (fmt : boot_img_format).

(** Dividing by a page size of zero is undefined. *)
Definition pages (hdr : bytes) (blob_size : Z) : option Z :=
  if page_size fmt hdr =? 0 then None
  else Some (s32 (u32 (blob_size + page_size fmt hdr - 1) / page_size fmt hdr)).

(** The sum of [int]s, which must not overflow, is multiplied as an [unsigned]. *)
Definition image_size (hdr : bytes) : option Z :=
  k ← pages hdr (kernel_size fmt hdr);
  r ← pages hdr (ramdisk_size fmt hdr);
  s ← pages hdr (second_size fmt hdr);
  let n := 1 + k + r + s in
  if decide (- 2 ^ 31 <= 1 + k < 2 ^ 31 /\ - 2 ^ 31 <= 1 + k + r < 2 ^ 31 /\ - 2 ^ 31 <= n < 2 ^ 31)
  then Some (s32 (u32 (n * page_size fmt hdr))) else None.

Definition bootimage_size (fd : Z) : M Z :=
  let! (r, hdr) := safe_read fd (Z.of_nat (sizeof_boot_img_hdr fmt)) in
  if truthy r then ret (-1) else
  if negb (bool_decide (hdr_magic fmt hdr = BOOT_MAGIC fmt)) then ret (-1) else
  lift_option (image_size hdr).

(** The return value and the buffer handed back, [None] when there is none; a buffer that could not
    be filled was released.  [fd] stays open when the size is wrong or the seek fails. *)
Definition read_image_gpt (name : string) : M (Z * option bytes) :=
  let! fd := open_bootimage name in
  if fd <? 0 then ret (-1, None) else
  let! size := bootimage_size fd in
  if size <=? 0 then ret (-1, None) else
  let! r := sys_lseek fd 0 in
  if r <? 0 then ret (-1, None) else
  let! data := sys_malloc size in
  if negb data then sys_close fd ;; ret (-1, None) else
  let! (r, b) := safe_read fd size in
  sys_close fd ;;
  ret (if truthy r then (r, None) else (size, Some b)).
End Format.

Definition read_image_signature_gpt (name : string) : M (Z * option bytes) := ret (-1, None).

Definition is_image_signed_gpt (name : string) : M Z := ret 0.
