(* ===== verification/ImageStore.v ===== *)
(** * What the tools rely on in a store of images

    The recovery updater, the OTA updater and the flash tool read and write images by name; which
    backend holds them is chosen when the call is made.  A backend promises the laws of a finite
    map from names to images: flashing replaces one image, or loses it when a call fails, and
    reading answers what was flashed.  [canonical] maps the names that stand for another image. *)

From stdpp Require Import base list numbers gmap strings.
From Stdlib Require Import ZArith Lia.
From S2P Require Import Prelude Posix Drive DriveSpec Util UtilSpec.

Class ImageStore (flash : bytes -> string -> M Z) (read : string -> M (Z * option bytes)) := {
  (** the images a state holds *)
  holds : world -> gmap string bytes -> Prop;
  (** the images that may be stored under a name *)
  accepts : world -> string -> bytes -> Prop;
  canonical : string -> string;
  holds_steady w m : holds w m -> steady w;
  (** only the files matter *)
  holds_files w w' m : w_files w' = w_files w -> steady w' -> holds w m -> holds w' m;
  accepts_files w w' name img : w_files w' = w_files w -> accepts w name img -> accepts w' name img;
  holds_subset w m m' : holds w m -> m' ⊆ m -> holds w m';
  flash_refines w m name img :
    holds w m -> accepts w name img ->
    wp (fun o w' => exists r, o = Ret r /\ (quiet w -> quiet w') /\
          (r = 0 /\ holds w' (<[canonical name := img]> m) \/
           r = -1 /\ ~ quiet w /\ holds w' (delete (canonical name) m))) (flash img name) w;
  read_refines w m name img :
    holds w m -> m !! name = Some img ->
    wp (fun o w' => exists r b, o = Ret (r, b) /\ (quiet w -> quiet w') /\ holds w' m /\ w_files w' = w_files w /\
          (r = Z.of_nat (length img) /\ b = Some img \/ r = -1 /\ b = None /\ ~ quiet w)) (read name) w
}.

Section Laws.
Context {flash : bytes -> string -> M Z} {read : string -> M (Z * option bytes)} {store : ImageStore flash read}.

(** Writing an image and reading it back under the name it stands for. *)
Lemma flash_then_read w m name img :
  holds w m -> accepts w name img ->
  wp (fun o w' => exists b, o = Ret b /\ (quiet w -> b = Some img) /\ (b = Some img \/ b = None) /\
        holds w' (delete (canonical name) m))
    (let! r := flash img name in
     if r =? 0 then let! (_, b) := read (canonical name) in ret b else ret None) w.
Proof using Type.
  intros Hm Ha. apply wp_bind. eapply wp_mono; [by apply flash_refines|].
  intros o w1 (r & -> & Hq1 & [[-> H1]|(-> & Hnq & H1)]); simpl.
  2:{ apply wp_ret. eexists. split; [done|]. split; [done|]. split; [by right|done]. }
  apply wp_bind. eapply wp_mono; [eapply read_refines; [exact H1|apply lookup_insert_eq]|].
  intros o w2 (r & b & -> & Hq2 & H2 & _ & Hrb). apply wp_ret. eexists. split; [done|].
  assert (Hrest : holds w2 (delete (canonical name) m)).
  { eapply holds_subset; [exact H2|]. rewrite <-(delete_insert_eq m (canonical name) img). apply delete_subseteq. }
  destruct Hrb as [[-> ->]|(-> & -> & Hnq)].
  - split; [done|]. split; [by left|done].
  - split; [intros Hq; destruct Hnq; auto|]. split; [by right|done].
Qed.
End Laws.
