(* ===== verification/GptImageSpec.v ===== *)
(** * Theorems about images on labelled partitions

    The device found for a name, what flashing does to it, and the backend as an [ImageStore]. *)

From stdpp Require Import base list numbers gmap strings.
From Stdlib Require Import ZArith Lia.
From S2P Require Import Prelude Posix CLib Drive DriveSpec Util UtilSpec Bootloader GptImage ImageStore.

(** ** Finding the device *)

Definition block_device (w : world) (path : string) : Prop :=
  exists s d, w_files w !! path = Some (mkFile (Block s) d).

#[global] Instance block_device_dec w path : Decision (block_device w path).
Proof.
  destruct (w_files w !! path) as [[[|s| |] d]|] eqn:E.
  2: left; by exists s, d.
  all: right; intros (s' & d' & E'); congruence.
Defined.

Definition candidates (name : string) : list string := (fun prefix => path_in prefix name) <$> PREFIXES.

(** The first candidate that is a block device. *)
Definition device_of (w : world) (name : string) : option string :=
  head (filter (block_device w) (candidates name)).

Lemma block_device_unmoved w w' path : unmoved w w' -> block_device w' path <-> block_device w path.
Proof. intros (E & _). unfold block_device. by rewrite E. Qed.

Lemma advanced_stat_blk path w : advanced w (sys_stat_blk path w).2.
Proof. unfold sys_stat_blk. run_call. Qed.

Lemma advanced_asprintf prefix name w : advanced w (asprintf_path prefix name w).2.
Proof. unfold asprintf_path. run_call. Qed.

Lemma try_prefix_spec prefix name w : steady w ->
  exists r w', try_prefix prefix name w = (Ret r, w') /\ unmoved w w' /\ steady w' /\
    (r = None \/ r = Some (path_in prefix name) /\ block_device w (path_in prefix name)) /\
    (quiet w -> is_Some r <-> block_device w (path_in prefix name)).
Proof.
  intros Hs. pose proof (advanced_steady _ _ (advanced_asprintf prefix name w) Hs) as Hs1.
  unfold try_prefix, asprintf_path, bind, next_fault, ret in *.
  assert (Hgo : forall w1, steady w1 -> unmoved w w1 -> exists r w',
    (let (o, w'0) := sys_stat_blk (path_in prefix name) w1 in
     match o with
     | Ret a => (let '(r, blk) := a in fun w0 => (Ret (if (r =? 0) && blk then Some (path_in prefix name) else None), w0)) w'0
     | Exit c => (Exit c, w'0)
     | Undefined => (Undefined, w'0)
     end) = (Ret r, w') /\ unmoved w w' /\ steady w' /\
    (r = None \/ r = Some (path_in prefix name) /\ block_device w (path_in prefix name)) /\
    (quiet w -> is_Some r <-> block_device w (path_in prefix name))).
  { intros w1 Hs2 Hu. pose proof (advanced_steady _ _ (advanced_stat_blk (path_in prefix name) w1) Hs2) as Hs3.
    pose proof (block_device_unmoved w w1 (path_in prefix name) Hu) as Hb. destruct Hu as (E1 & E2 & E3).
    revert Hs3. unfold sys_stat_blk, bind, next_fault, sys_fail, ret.
    destruct (w_faults w1) as [|[|e|n] fs] eqn:Ef; simpl.
    all: try (destruct (w_files w1 !! path_in prefix name) as [[[|s| |] d]|] eqn:Ep; simpl).
    all: intros Hs3; eexists _, _; split; [reflexivity|]; simpl.
    all: split; [split_and!; try done; intros Hq; specialize (E3 Hq); unfold quiet in E3; by rewrite Ef in E3|].
    all: split; [done|].
    all: try (split; [by left|]; intros Hq; split; [by intros [? ?]|]; rewrite <-Hb; intros (s' & d' & E'); congruence).
    all: try (assert (block_device w (path_in prefix name)) by (apply Hb; by exists s, d);
              split; [by right|]; intros _; by split; [|eauto]).
    split; [by left|]. intros Hq. specialize (E3 Hq). unfold quiet in E3. by rewrite Ef in E3. }
  destruct (w_faults w) as [|[|e|n] fs] eqn:Ef; simpl in *.
  1,2,4: apply Hgo; [done|]; split_and!; unfold quiet; rewrite ?Ef; done.
  eexists _, _. split; [reflexivity|]. split; [split_and!; unfold quiet; rewrite ?Ef; done|]. split; [done|].
  split; [by left|]. unfold quiet. by rewrite Ef.
Qed.

Lemma try_prefixes_spec ps name w : steady w ->
  exists r w', try_prefixes ps name w = (Ret r, w') /\ unmoved w w' /\ steady w' /\
    (forall q, r = Some q -> block_device w q /\ q ∈ (fun p => path_in p name) <$> ps) /\
    (quiet w -> r = head (filter (block_device w) ((fun p => path_in p name) <$> ps))).
Proof.
  revert w. induction ps as [|p ps IH]; intros w Hs.
  { exists None, w. split; [done|]. split; [apply unmoved_refl|]. split; [done|]. by split. }
  destruct (try_prefix_spec p name w Hs) as (r & w1 & E & Hu & Hs1 & Hr & Hq). cbn [try_prefixes].
  unfold bind at 1. rewrite E. destruct r as [q|].
  - exists (Some q), w1. split; [done|]. split; [done|]. split; [done|]. destruct Hr as [?|[[= ->] Hb]]; [done|].
    split; [intros q' [= <-]; split; [done|]; by left|]. intros H. simpl. by rewrite filter_cons_True.
  - destruct (IH w1 Hs1) as (r' & w2 & E' & Hu' & Hs2 & Hr' & Hq'). exists r', w2. split; [done|].
    split; [by eapply unmoved_trans|]. split; [done|]. split.
    + intros q ->. destruct (Hr' q eq_refl) as [Hb Hin]. split; [by apply (block_device_unmoved w w1)|]. by right.
    + intros H. simpl. rewrite filter_cons_False by (intros Hb; apply (Hq H) in Hb as [? ?]; done).
      destruct Hu as (E1 & E2 & E3). rewrite (Hq' (E3 H)). f_equal. apply list_filter_iff.
      intros q. unfold block_device. by rewrite E1.
Qed.

Lemma get_device_path_spec name w : steady w ->
  exists r w', get_device_path (Some name) w = (Ret r, w') /\ unmoved w w' /\ steady w' /\
    (forall q, r = Some q -> block_device w q /\ q ∈ candidates name) /\ (quiet w -> r = device_of w name).
Proof. apply try_prefixes_spec. Qed.

(** Whatever fails, [get_device_path] changes nothing and answers a block device that one of the
    three directories names; when nothing fails it answers the first one, and -1 only when there is
    none. *)
Theorem get_device_path_finds name w : steady w ->
  exists r w', get_device_path (Some name) w = (Ret r, w') /\ unmoved w w' /\ steady w' /\
    (forall q, r = Some q -> block_device w q /\ q ∈ candidates name) /\ (quiet w -> r = device_of w name).
Proof. apply try_prefixes_spec. Qed.

(** ** The backend as a store of images *)

Lemma path_in_inj p q n m : p ∈ PREFIXES -> q ∈ PREFIXES -> path_in p n = path_in q m -> n = m.
Proof.
  intros Hp Hq. unfold PREFIXES in *. rewrite !elem_of_cons, elem_of_nil in Hp, Hq.
  destruct Hp as [->|[->|[->|[]]]], Hq as [->|[->|[->|[]]]]; vm_compute; congruence.
Qed.

Lemma candidates_disjoint n m p : p ∈ candidates n -> p ∈ candidates m -> n = m.
Proof.
  unfold candidates. rewrite !list_elem_of_fmap. intros (a & -> & Ha) (b & E & Hb).
  by apply (path_in_inj a b).
Qed.

(** The name that [flash_image_gpt] looks up. *)
Definition gpt_name (name : string) : string := if bool_decide (name = TEST_OS_NAME) then ANDROID_OS_NAME else name.

(** Exactly one directory names a block device [name]; it holds [data]. *)
Definition located (w : world) (name path : string) (s : Z) (data : bytes) : Prop :=
  path ∈ candidates name /\ w_files w !! path = Some (mkFile (Block s) data) /\
  forall q, q ∈ candidates name -> block_device w q -> q = path.

Lemma located_files w w' name path s data : w_files w' = w_files w -> located w name path s data -> located w' name path s data.
Proof. intros E (H1 & H2 & H3). unfold located, block_device in *. by rewrite E. Qed.

Lemma located_path w name path s data q : located w name path s data -> block_device w q -> q ∈ candidates name -> q = path.
Proof. intros (_ & _ & H). auto. Qed.

Lemma located_device w name path s data : located w name path s data -> device_of w name = Some path.
Proof.
  intros (H1 & H2 & H3). unfold device_of.
  destruct (filter (block_device w) (candidates name)) as [|q qs] eqn:E.
  - assert (Hin : path ∈ filter (block_device w) (candidates name)).
    { apply list_elem_of_filter. split; [by exists s, data|done]. }
    rewrite E in Hin. by apply elem_of_nil in Hin.
  - simpl. f_equal. assert (Hin : q ∈ filter (block_device w) (candidates name)) by (rewrite E; by left).
    apply list_elem_of_filter in Hin as [? ?]. auto.
Qed.

(** Looking for a device that is there. *)
Lemma wp_get_device_path {B} (Q : outcome B -> world -> Prop) kont w name path s data :
  steady w -> located w name path s data ->
  (forall w', unmoved w w' -> steady w' -> ~ quiet w -> wp Q (kont None) w') ->
  (forall w', device path (Block s) w data w' -> wp Q (kont (Some path)) w') ->
  wp Q (bind (get_device_path (Some name)) kont) w.
Proof.
  intros Hs Hl H1 H2. destruct (get_device_path_spec name w Hs) as (r & w' & E & Hu & Hs' & Hr & Hq).
  apply wp_bind. unfold wp at 1. rewrite E. simpl. destruct r as [q|].
  - destruct (Hr q eq_refl) as [Hb Hin]. rewrite (located_path _ _ _ _ _ q Hl Hb Hin). apply H2.
    destruct Hu as (F1 & F2 & F3), Hl as (_ & Hf & _). split; [by rewrite insert_id|done|done|done].
  - apply H1; [done|done|]. intros H. rewrite (located_device _ _ _ _ _ Hl) in Hq. specialize (Hq H). done.
Qed.

Section Store.
Context (fmt : boot_img_format).

(** An image whose header says how long it is. *)
Record boot_image (img : bytes) : Prop := {
  bi_hdr : (sizeof_boot_img_hdr fmt <= length img)%nat;
  bi_magic : hdr_magic fmt (take (sizeof_boot_img_hdr fmt) img) = BOOT_MAGIC fmt;
  bi_size : image_size fmt (take (sizeof_boot_img_hdr fmt) img) = Some (Z.of_nat (length img));
  bi_some : (0 < length img)%nat
}.

Definition gpt_holds (w : world) (m : gmap string bytes) : Prop :=
  steady w /\ forall name img, m !! name = Some img ->
    name <> TEST_OS_NAME /\ boot_image img /\ exists path s rest, located w name path s (img ++ rest).

Definition gpt_accepts (w : world) (name : string) (img : bytes) : Prop :=
  boot_image img /\ exists path s data, located w (gpt_name name) path s data /\ (length img <= length data)%nat.

Lemma gpt_holds_subset w m m' : gpt_holds w m -> m' ⊆ m -> gpt_holds w m'.
Proof using Type. intros [H1 H2] Hs. split; [done|]. intros name img E. apply H2. by eapply lookup_weaken. Qed.

Lemma gpt_holds_files w w' m : w_files w' = w_files w -> steady w' -> gpt_holds w m -> gpt_holds w' m.
Proof using Type.
  intros E Hs [_ H]. split; [done|]. intros name img Hn. destruct (H name img Hn) as (H1 & H2 & p & s & rest & Hl).
  split; [done|]. split; [done|]. exists p, s, rest. by eapply located_files.
Qed.

(** The block devices stay the same. *)
Lemma device_blocks w path s data data' w' q :
  w_files w !! path = Some (mkFile (Block s) data) -> device path (Block s) w data' w' ->
  block_device w' q <-> block_device w q.
Proof using Type.
  intros Hf [E _ _ _]. unfold block_device. rewrite E. destruct (decide (q = path)) as [->|Hne].
  - rewrite lookup_insert_eq. split; intros _; by eauto.
  - by rewrite lookup_insert_ne.
Qed.

(** Changing the device of one name leaves the images of the others alone. *)
Lemma gpt_holds_write w w' m name path s data data' :
  gpt_holds w m -> located w name path s data -> device path (Block s) w data' w' ->
  gpt_holds w' (delete name m) /\ located w' name path s data'.
Proof using Type.
  intros [_ H] Hl Hd. pose proof Hd as [E _ Hs _]. pose proof Hl as (L1 & L2 & L3).
  assert (Hb : forall q, block_device w' q -> block_device w q) by (intros q Hq; by apply (device_blocks w path s data data' w' q)).
  split.
  - split; [done|]. intros n img Hn. apply lookup_delete_Some in Hn as [Hne Hn].
    destruct (H n img Hn) as (H1 & H2 & p & s' & rest & P1 & P2 & P3). split; [done|]. split; [done|].
    exists p, s', rest. split; [done|]. split; [|intros q Hq Hbq; auto]. rewrite E, lookup_insert_ne; [done|].
    intros ->. apply Hne. by eapply candidates_disjoint.
  - split; [done|]. split; [by rewrite E, lookup_insert_eq|]. intros q Hq Hbq. auto.
Qed.

Lemma gpt_flash_refines w m name img :
  gpt_holds w m -> gpt_accepts w name img ->
  wp (fun o w' => exists r, o = Ret r /\ (quiet w -> quiet w') /\ (forall q, block_device w' q <-> block_device w q) /\
        (r = 0 /\ gpt_holds w' (<[gpt_name name := img]> m) \/
         r = -1 /\ ~ quiet w /\ gpt_holds w' (delete (gpt_name name) m))) (flash_image_gpt img name) w.
Proof using Type.
  intros Hm [Hi (path & s & data & Hl & Hlen)]. unfold flash_image_gpt. fold (gpt_name name).
  assert (Hnt : gpt_name name <> TEST_OS_NAME) by (unfold gpt_name; by case_bool_decide).
  eapply wp_get_device_path; [apply Hm|exact Hl| |].
  { intros w' (U1 & U2 & U3) Hs Hq. apply wp_ret. exists (-1). split; [done|]. split; [done|].
    split; [intros q; by apply block_device_unmoved|]. right.
    split; [done|]. split; [done|]. eapply gpt_holds_subset; [|apply delete_subseteq]. by eapply gpt_holds_files. }
  intros w1 Hd. eapply wp_mono; [apply (wp_file_write path (Block s) w img data w1 (block_fixed s) Hlen Hd)|].
  intros o w2 [[-> Hd2]|(-> & Hq & j & Hj & Hd2)]; 
    pose proof (gpt_holds_write _ _ _ _ _ _ _ _ Hm Hl Hd2) as [Hm2 Hl2];
    pose proof (fun q => device_blocks _ _ _ _ _ _ q (proj1 (proj2 Hl)) Hd2) as Hbl.
  - exists 0. split; [done|]. split; [apply Hd2|]. split; [done|]. left. split; [done|]. destruct Hm2 as [Hs2 Hm2]. split; [done|].
    intros n i Hn. apply lookup_insert_Some in Hn as [[<- <-]|[Hne Hn]].
    + split; [done|]. split; [done|]. exists path, s, (drop (length img) data).
      replace (img ++ drop (length img) data) with (splice 0 img data); [done|]. unfold splice. by rewrite take_0.
    + apply Hm2. by rewrite lookup_delete_ne.
  - exists (-1). split; [done|]. split; [apply Hd2|]. split; [done|]. by right.
Qed.

(** Seeking to the start of an open device. *)
Lemma wp_rewind_device {B} (Q : outcome B -> world -> Prop) kont path s w0 fd rd wr data w :
  open_device path (Block s) w0 fd rd wr data w ->
  (forall w', open_device path (Block s) w0 fd rd wr data w' -> ~ quiet w0 -> wp Q (kont (-1)) w') ->
  (forall w', open_device path (Block s) w0 fd rd wr data w' -> w_fds w' !! fd = Some (mkFd path 0 rd wr) -> wp Q (kont 0) w') ->
  wp Q (bind (sys_lseek fd 0) kont) w.
Proof using Type.
  intros Hod H1 H2. pose proof Hod as [E1 E2 (off & Ho & E3) E4 E5 E6]. apply wp_bind.
  assert (Hf : fd_file w fd = Some (mkFd path off rd wr, mkFile (Block s) data)).
  { unfold fd_file. rewrite E3. simpl. by rewrite E1, lookup_insert_eq. }
  assert (Hc : wp (fun o w' => (o = Ret (-1) /\ unmoved w w' /\ ~ quiet w) \/
      (o = Ret 0 /\ moved fd w (mkFd path off rd wr) 0 w')) (sys_lseek fd 0) w).
  { apply (wp_lseek fd w _ _ Hf).
    - intros w' Hu Hq. left. split; [done|]. split; [done|]. intros H. specialize (Hq H). vm_compute in Hq. done.
    - intros w' _ Hmv. by right. }
  eapply wp_mono; [apply (wp_and _ (advanced w) _ _ Hc), advanced_lseek|].
  intros o w' [[(-> & Hu & Hq)|[-> (F1 & F2 & F3)]] Ha]; pose proof (advanced_steady _ _ Ha E5) as Hs.
  - apply H1; [by eapply open_device_unmoved|]. auto.
  - simpl in F2. assert (Hn : w_fds w' !! fd = Some (mkFd path 0 rd wr)) by (by rewrite F2, lookup_insert_eq).
    apply H2; [|done]. split; [congruence|by rewrite F2, delete_insert_eq|by exists 0|done|done|auto].
Qed.

Lemma open_device_same path s w fd rd wr data w' name :
  open_device path (Block s) w fd rd wr data w' -> located w name path s data -> w_files w' = w_files w.
Proof using Type. intros [-> _ _ _ _ _] (_ & Hf & _). by apply insert_id. Qed.

Lemma device_same path s w data w' name :
  device path (Block s) w data w' -> located w name path s data -> w_files w' = w_files w.
Proof using Type. intros [-> _ _ _] (_ & Hf & _). by apply insert_id. Qed.

Lemma gpt_read_refines w m name img :
  gpt_holds w m -> m !! name = Some img ->
  wp (fun o w' => exists r b, o = Ret (r, b) /\ (quiet w -> quiet w') /\ gpt_holds w' m /\
        w_files w' = w_files w /\
        (r = Z.of_nat (length img) /\ b = Some img \/ r = -1 /\ b = None /\ ~ quiet w))
    (read_image_gpt fmt name) w.
Proof using Type.
  intros Hm Hn. pose proof (proj2 Hm name img Hn) as (_ & [B1 B2 B3 B4] & path & s & rest & Hl).
  assert (Hend : forall w' r b, w_files w' = w_files w -> steady w' -> (quiet w -> quiet w') ->
    (r = Z.of_nat (length img) /\ b = Some img \/ r = -1 /\ b = None /\ ~ quiet w) ->
    exists r' b', Ret (r, b) = Ret (r', b') /\ (quiet w -> quiet w') /\ gpt_holds w' m /\
      w_files w' = w_files w /\
      (r' = Z.of_nat (length img) /\ b' = Some img \/ r' = -1 /\ b' = None /\ ~ quiet w)).
  { intros w' r b E Hs Hq H. exists r, b. split; [done|]. split; [done|]. split; [by eapply gpt_holds_files|].
    by split. }
  assert (Hbad : forall w', w_files w' = w_files w -> steady w' -> ~ quiet w -> _) by
    (intros w' E Hs Hq; apply (Hend w' (-1) None E Hs); [done|by right]).
  unfold read_image_gpt, open_bootimage. apply wp_assoc.
  eapply wp_get_device_path; [apply Hm|exact Hl| |].
  { intros w' (U1 & U2 & U3) Hs Hq. apply wp_bind, wp_ret. apply wp_ret. by apply Hbad. }
  intros w1 Hd. eapply (wp_open_device path (Block s) w); [done|done|exact Hd| |].
  { intros w' Hd' Hq. apply wp_ret. apply Hbad; [by eapply device_same|apply Hd'|done]. }
  intros fd w2 Hfd Hod Hop. replace (fd <? 0) with false by lia. unfold bootimage_size. apply wp_assoc.
  assert (Hlen : (length img <= length (img ++ rest))%nat) by len.
  eapply wp_read_device; [|exact Hod|exact Hop| |]; [lia| |].
  2:{ intros w3 b Hod3 Hq. cbn [truthy Z.eqb negb]. apply wp_bind, wp_ret. apply wp_ret.
      apply Hbad; [by eapply open_device_same|apply Hod3|]. intros H. specialize (Hq H). lia. }
  intros w3 Hod3 _. cbn [truthy Z.eqb negb]. rewrite Nat2Z.id.
  rewrite take_app_le by done. rewrite B2, bool_decide_eq_true_2 by done. cbn [negb]. rewrite B3. cbn [lift_option].
  apply wp_bind, wp_ret. replace (Z.of_nat (length img) <=? 0) with false by lia.
  eapply wp_rewind_device; [exact Hod3| |].
  { intros w4 Hod4 Hq. apply wp_ret. apply Hbad; [by eapply open_device_same|apply Hod4|done]. }
  intros w4 Hod4 Hop4. simpl (0 <? 0). cbn iota.
  eapply wp_malloc_device; [exact Hod4|lia| |].
  { intros w5 Hod5 Hq. cbn [negb]. eapply wp_close_device; [exact Hod5|]. intros w6 r Hd6. apply wp_ret.
    apply Hbad; [by eapply device_same|apply Hd6|done]. }
  intros w5 Hod5 Ef. cbn [negb]. assert (Hop5 : w_fds w5 !! fd = Some (mkFd path 0 true false)) by (by rewrite Ef).
  eapply wp_read_device; [|exact Hod5|exact Hop5| |]; [lia| |].
  - intros w6 Hod6 _. eapply wp_close_device; [exact Hod6|]. intros w7 r Hd7. apply wp_ret.
    cbn [truthy Z.eqb negb]. rewrite Nat2Z.id, take_app_length.
    apply Hend; [by eapply device_same|apply Hd7|apply Hd7|by left].
  - intros w6 b Hod6 Hq. eapply wp_close_device; [exact Hod6|]. intros w7 r Hd7. apply wp_ret.
    cbn [truthy Z.eqb negb]. apply Hbad; [by eapply device_same|apply Hd7|intros H; specialize (Hq H); lia].
Qed.

(** C3: The partitions refine a map from names to boot images, under any schedule of failing or
    short system calls without [EINTR]: flashing replaces the image of the name ("testos" stands
    for "boot") and keeps all others, a failed flash loses at most that image, and reading answers
    the image stored or fails without changing anything. *)
Theorem gpt_refines_image_store w m name img :
  gpt_holds w m ->
  (gpt_accepts w name img ->
   wp (fun o w' => exists r, o = Ret r /\ (quiet w -> quiet w') /\
         (r = 0 /\ gpt_holds w' (<[gpt_name name := img]> m) \/
          r = -1 /\ ~ quiet w /\ gpt_holds w' (delete (gpt_name name) m))) (flash_image_gpt img name) w) /\
  (m !! name = Some img ->
   wp (fun o w' => exists r b, o = Ret (r, b) /\ (quiet w -> quiet w') /\ gpt_holds w' m /\ w_files w' = w_files w /\
         (r = Z.of_nat (length img) /\ b = Some img \/ r = -1 /\ b = None /\ ~ quiet w))
     (read_image_gpt fmt name) w).
Proof using Type.
  intros Hm. split; intros Ha.
  - eapply wp_mono; [by apply gpt_flash_refines|]. intros o w' (r & -> & Hq & _ & H). by exists r.
  - eapply wp_mono; [by apply gpt_read_refines|]. intros o w' (r & b & -> & Hq & H1 & Hf & H2). by exists r, b.
Qed.

#[global, refine] Instance gpt_store : ImageStore flash_image_gpt (read_image_gpt fmt) :=
  {| holds := gpt_holds; accepts := gpt_accepts; canonical := gpt_name |}.
Proof.
  - intros w m H. apply H.
  - apply gpt_holds_files.
  - intros w w' name img E (Hi & p & s & d & Hl & Hd). split; [done|]. exists p, s, d. split; [by eapply located_files|done].
  - apply gpt_holds_subset.
  - intros w m name img Hm Ha. eapply wp_mono; [by apply gpt_flash_refines|].
    intros o w' (r & -> & Hq & _ & H). by exists r.
  - intros w m name img Hm Hn. eapply wp_mono; [by apply gpt_read_refines|].
    intros o w' (r & b & -> & Hq & H1 & Hf & H2). by exists r, b.
Defined.
End Store.
