(* ===== verification/Capsule.v ===== *)
(** * Firmware capsules (flash_fdk/capsule.c, flash_fdk/capsule.h)

    A capsule is written to a partition from which the firmware updates itself, unless all version
    tags in it name the versions that run.  A pointer into the capsule is kept as its distance from
    the start; reading behind the data has no defined result.  Messages are left out. *)

From stdpp Require Import base list numbers gmap strings.
From Stdlib Require Import ZArith Lia.
From S2P Require Import Prelude GuidStr Posix CLib Util Bootloader GptImage.

Definition CAPSULE_PARTITION_LABEL : string := "FWUP".
Definition CAPSULE_UPDATE_FLAG_PATH : string := "/sys/firmware/osnib/fw_update".
Definition CAPSULE_FW_VERSION_TAG : Z := 0x244d4e32.
Definition CAPSULE_FW_VERSION_OFFSET : Z := 5.

(** ** Layout *)

(** [sizeof(struct capsule_signature)] and [sizeof(struct capsule_header)] *)
Definition sizeof_capsule_signature : Z := 4 + 32 + 516.
Definition sizeof_capsule_header : Z := sizeof_capsule_signature + 24 + 32.

(** [struct capsule_refs], behind the signature and the versions: the field [i]. *)
Definition refs_field (i : nat) (c : bytes) : Z := getn 4 (Z.to_nat sizeof_capsule_signature + 24 + 4 * i) c.
Definition iafw_stage2_offset : bytes -> Z := refs_field 2.
Definition iafw_stage2_size : bytes -> Z := refs_field 3.
Definition pdr_offset : bytes -> Z := refs_field 4.
Definition pdr_size : bytes -> Z := refs_field 5.
Definition sec_offset : bytes -> Z := refs_field 6.
Definition sec_size : bytes -> Z := refs_field 7.

(** The [int]s of [sec_version_t]; one that was never set is [None]. *)
Record sec_version_t := mkSec { val_0 : option Z; val_1 : option Z; val_2 : option Z }.

(** ** Reading tags *)

Definition byte_at (data : bytes) (pos : Z) : option Z := data !! Z.to_nat pos.

(** The loop from [ptr] to [end_ptr]: whether a tag was found, and the pointer. *)
Fixpoint scan_tag (n : nat) (data : bytes) (ptr patt : Z) : option (Z * bool) :=
  match n with
  | O => Some (ptr, false)
  | S n =>
      b ← byte_at data ptr;
      let patt := Z.lor (u32 (Z.shiftl patt 8)) b in
      if patt =? CAPSULE_FW_VERSION_TAG then Some (ptr + CAPSULE_FW_VERSION_OFFSET, true)
      else scan_tag n data (ptr + 1) patt
  end.

Definition get_fw_version_tag_offset (data : bytes) (ptr end_ptr : Z) : option (Z * bool) :=
  scan_tag (Z.to_nat (end_ptr - ptr)) data ptr 0.

(** [MN2_VER_BYTESREORDER(data)] *)
Definition MN2_VER_BYTESREORDER (data : bytes) (ptr : Z) : option Z :=
  b1 ← byte_at data (ptr + 1); b0 ← byte_at data ptr; b3 ← byte_at data (ptr + 3); b2 ← byte_at data (ptr + 2);
  Some (Z.lor (Z.lor (Z.lor (u32 (Z.shiftl b1 24)) (Z.shiftl b0 16)) (Z.shiftl b3 8)) b2).

Definition half_at (data : bytes) (ptr : Z) : option Z :=
  b1 ← byte_at data (ptr + 1); b0 ← byte_at data ptr; Some (Z.lor (Z.shiftl b1 8) b0).

Definition sec_version_at (data : bytes) (ptr : Z) : option (Z * Z * Z) :=
  v2 ← MN2_VER_BYTESREORDER data ptr; v1 ← half_at data (ptr + 4); v0 ← half_at data (ptr + 6);
  Some (s32 v2, v1, v0).

(** ** Comparing versions *)

(** A region with one tag: [Some true] when the update is requested at once, [Some false] when the
    versions match, [None] inside when there is no tag. *)
Definition check_region (data : bytes) (offset size version : Z) : option (option bool) :=
  if size =? 0 then Some None else
  let ptr := offset + sizeof_capsule_signature in
  '(ptr, found) ← get_fw_version_tag_offset data ptr (ptr + size);
  if (found : bool) then v ← MN2_VER_BYTESREORDER data ptr; Some (Some (negb (v =? version)))
  else Some None.

(** [a != b || ...] on a value that may never have been set. *)
Definition sec_differs (v : Z * Z * Z) (sec_version : sec_version_t) : option bool :=
  let '(v2, v1, v0) := v in
  c0 ← val_0 sec_version;
  if negb (v0 =? c0) then Some true else
  c1 ← val_1 sec_version;
  if negb (v1 =? c1) then Some true else
  c2 ← val_2 sec_version;
  Some (negb (v2 =? c2)).

(** The loop over the tags of the security firmware; every round moves on. *)
Fixpoint check_sec (fuel : nat) (data : bytes) (ptr end_ptr : Z) (sec_version : sec_version_t) (match_ : bool) : option bool :=
  match fuel with
  | O => None
  | S fuel =>
      '(ptr, found) ← get_fw_version_tag_offset data ptr end_ptr;
      if (found : bool) then
        v ← sec_version_at data ptr;
        differs ← sec_differs v sec_version;
        if (differs : bool) then Some true else check_sec fuel data ptr end_ptr sec_version true
      else Some (negb match_)
  end.

(** The scan of the security firmware ends at [sec_size], counted from the start of the capsule. *)
Definition check_capsule (c : bytes) (iafw_version : Z) (sec_version : sec_version_t) (pdr_version : Z) : option bool :=
  pdr ← check_region c (pdr_offset c) (pdr_size c) pdr_version;
  if bool_decide (pdr = Some true) then Some true else
  iafw ← check_region c (iafw_stage2_offset c) (iafw_stage2_size c) iafw_version;
  if bool_decide (iafw = Some true) then Some true else
  let match_ := bool_decide (is_Some pdr) || bool_decide (is_Some iafw) in
  if sec_size c =? 0 then Some (negb match_) else
  check_sec (S (Z.to_nat (sec_size c))) c (sec_offset c + sizeof_capsule_signature) (sec_size c) sec_version match_.

(** ** Current versions *)

(** [sscanf(s, "%x.%x", &msb, &v); v |= msb << 16], both initially 0. *)
Definition hex_version (s : bytes) : Z :=
  let vs := GuidStr.sscanf [Hex (length s); Lit 46; Hex (length s)] s in
  Z.lor (nth 1 vs 0) (u32 (Z.shiftl (nth 0 vs 0) 16)).

Definition lit_dot (l : bytes) : option bytes :=
  match l with c :: l => if c =? 46 then Some l else None | [] => None end.

(** [.%d], repeated: the values stored before a mismatch. *)
Fixpoint dotted (n : nat) (l : bytes) : list Z :=
  match n with
  | O => []
  | S n => match l ← lit_dot l; scan_d l with
           | Some (v, rest) => v :: dotted n rest
           | None => []
           end
  end.

(** [sscanf(s, "%*d.%d.%d.%d", &val_2, &val_1, &val_0)] *)
Definition sec_version_of (s : bytes) : sec_version_t :=
  let vs := match scan_d s with Some (_, rest) => dotted 3 rest | None => [] end in
  mkSec (vs !! 2%nat) (vs !! 1%nat) (vs !! 0%nat).

(** ** Flashing *)

Definition is_fdk : M bool := has_device CAPSULE_PARTITION_LABEL.

Section Flash.
Context (property_get : string -> bytes -> bytes).

(** [data] may be NULL. *)
Definition flash_capsule_fdk (data : option bytes) (sz : Z) : M Z :=
  let iafw_version := hex_version (property_get "sys.ia32.version"%string (str "00.00")) in
  let sec_version := sec_version_of (property_get "sys.chaabi.version"%string (str "00.00")) in
  let pdr_version := hex_version (property_get "sys.pdr.version"%string (str "00.00")) in
  match data with
  | None => ret (-1)
  | Some data =>
      if sz <=? sizeof_capsule_header then ret (-1) else
      let! capsule_update := lift_option (check_capsule data iafw_version sec_version pdr_version) in
      if negb capsule_update then ret 0 else
      let! dev_path := get_device_path (Some CAPSULE_PARTITION_LABEL) in
      match dev_path with
      | None => ret (-1)
      | Some dev_path =>
          if Z.of_nat (length data) <? sz then undefined else
          let! ret_status := file_write dev_path (take (Z.to_nat sz) data) in
          if truthy ret_status then ret ret_status else
          file_write CAPSULE_UPDATE_FLAG_PATH (str "1")
      end
  end.
End Flash.
