(* ===== verification/CapsuleSpec.v ===== *)
(** * Theorems about capsules

    The scan finds the first tag, and a capsule is installed exactly when it has no version tag or
    one that differs from the versions that run. *)

From stdpp Require Import base list numbers gmap strings.
From Stdlib Require Import ZArith Lia.
From S2P Require Import Prelude GuidStr Posix CLib Drive DriveSpec Util UtilSpec Bootloader GptImage GptImageSpec Capsule.

(** ** The pattern register *)

(** "$MN2" *)
Definition tag : bytes := [0x24; 0x4d; 0x4e; 0x32].

Definition shift_in (patt b : Z) : Z := Z.lor (u32 (Z.shiftl patt 8)) b.
Definition pattern (l : bytes) : Z := fold_left shift_in l 0.

(** Bits below the lowest of [a]. *)
Lemma lor_add n a b : 0 <= n -> 0 <= b < 2 ^ n -> Z.lor (a * 2 ^ n) b = a * 2 ^ n + b.
Proof.
  intros Hn Hb. rewrite <-Z.shiftl_mul_pow2 by done. symmetry.
  rewrite Z.add_nocarry_lxor; [|]; rewrite ?Z.lxor_lor; try done.
  all: apply Z.bits_inj'; intros m Hm; rewrite Z.land_spec, Z.bits_0.
  all: destruct (Z.lt_ge_cases m n); [rewrite Z.shiftl_spec_low by lia; done|].
  all: destruct (Z.eq_dec b 0) as [->|]; [by rewrite Z.bits_0, andb_false_r|].
  all: rewrite (Z.bits_above_log2 b m), andb_false_r; [done|lia|].
  all: apply Z.log2_lt_pow2; [lia|]; apply Z.lt_le_trans with (2 ^ n); [lia|apply Z.pow_le_mono_r; lia].
Qed.

Lemma pattern_last4 l : bytes_ok l -> pattern l = le_dec (take 4 (rev l)).
Proof.
  induction l as [|b l IH] using rev_ind; intros Hok; [done|].
  apply bytes_ok_app in Hok as [Hl Hb]. apply bytes_ok_cons in Hb as [Hb _].
  unfold pattern. rewrite fold_left_app. simpl fold_left. fold (pattern l). rewrite IH by done.
  rewrite rev_app_distr. simpl rev. cbn [app]. unfold shift_in, u32. rewrite Z.shiftl_mul_pow2 by lia.
  assert (Hr : bytes_ok (rev l)) by (unfold bytes_ok; by apply Forall_rev).
  assert (Hm : (le_dec (take 4 (rev l)) * 2 ^ 8) mod 2 ^ 32 = 256 * le_dec (take 3 (rev l))).
  { clear - Hr. revert Hr. generalize (rev l). intros r Hr.
    destruct r as [|x0 [|x1 [|x2 [|x3 r]]]]; rewrite ?bytes_ok_cons in Hr; unfold is_byte in Hr; simpl take; simpl le_dec; lia. }
  rewrite Hm, (Z.mul_comm 256). change 256 with (2 ^ 8). rewrite lor_add by (unfold is_byte in Hb; lia). simpl. lia.
Qed.

Lemma pattern_is_tag l : bytes_ok l -> pattern l = CAPSULE_FW_VERSION_TAG <-> take 4 (rev l) = rev tag.
Proof.
  intros Hok. rewrite pattern_last4 by done.
  assert (Hr : bytes_ok (take 4 (rev l))) by (apply bytes_ok_take; unfold bytes_ok; by apply Forall_rev).
  split; [|intros ->; done]. intros E.
  assert (Hlen : length (take 4 (rev l)) = 4%nat).
  { pose proof (le_dec_bound _ Hr) as [_ Hb]. rewrite E in Hb. unfold CAPSULE_FW_VERSION_TAG in Hb.
    rewrite length_take in *. destruct (Nat.min 4 (length (rev l))) as [|[|[|[|[|n]]]]] eqn:En; simpl in Hb; lia. }
  apply le_dec_inj; [done|apply bytes_okb_ok; reflexivity|done|]. rewrite E. done.
Qed.

(** ** The first tag *)

Fixpoint find_tag (region : bytes) : option nat :=
  match region with
  | [] => None
  | _ :: rest => if decide (take 4 region = tag) then Some 0%nat else S <$> find_tag rest
  end.

Lemma find_tag_Some region i : slice i 4 region = tag -> (forall j, (j < i)%nat -> slice j 4 region <> tag) ->
  find_tag region = Some i.
Proof.
  revert i. induction region as [|b region IH]; intros i H1 H2.
  { unfold slice in H1. by rewrite drop_nil in H1. }
  cbn [find_tag]. destruct i as [|i].
  { unfold slice in H1. rewrite drop_0 in H1. by rewrite decide_True. }
  rewrite decide_False; [|exact (H2 0%nat ltac:(lia))]. rewrite (IH i); [done|exact H1|].
  intros j Hj. apply (H2 (S j)). lia.
Qed.

Lemma find_tag_None region : (forall j, slice j 4 region <> tag) -> find_tag region = None.
Proof.
  induction region as [|b region IH]; intros H; [done|]. cbn [find_tag].
  rewrite decide_False by exact (H 0%nat). rewrite IH; [done|]. intros j. apply (H (S j)).
Qed.

Lemma find_tag_spec region i : find_tag region = Some i -> slice i 4 region = tag /\ (i + 4 <= length region)%nat.
Proof.
  revert i. induction region as [|b region IH]; intros i H; [done|]. cbn [find_tag] in H.
  destruct (decide _) as [E|_].
  - injection H as <-. split; [done|]. apply (f_equal length) in E. rewrite length_take in E. simpl length in *. lia.
  - destruct (find_tag region) as [k|] eqn:Ek; [|done]. injection H as <-. destruct (IH k eq_refl) as [H1 H2].
    split; [done|]. simpl. lia.
Qed.

(** No tag lies within the bytes taken so far. *)
Definition untagged (l : bytes) : Prop := forall j, (j + 4 <= length l)%nat -> slice j 4 l <> tag.

Lemma scan_tag_spec data n ptr l :
  bytes_ok data -> bytes_ok l -> untagged l -> (ptr + n <= length data)%nat ->
  scan_tag n data (Z.of_nat ptr) (pattern l) =
  Some (match find_tag (l ++ slice ptr n data) with
        | Some i => (Z.of_nat ptr - Z.of_nat (length l) + Z.of_nat i + 8, true)
        | None => (Z.of_nat (ptr + n), false)
        end).
Proof.
  intros Hd. revert ptr l. induction n as [|n IH]; intros ptr l Hl Hu Hle.
  { simpl scan_tag. unfold slice. rewrite take_0, app_nil_r, find_tag_None; [by rewrite Nat.add_0_r|].
    intros j E. apply (Hu j); [|done]. apply (f_equal length) in E. rewrite length_slice in E. change (length tag) with 4%nat in E. lia. }
  destruct (lookup_lt_is_Some_2 data ptr) as [b Hb]; [lia|]. cbn [scan_tag]. unfold byte_at. rewrite Nat2Z.id, Hb. simpl.
  fold (shift_in (pattern l) b). assert (Ep : shift_in (pattern l) b = pattern (l ++ [b])) by (unfold pattern; by rewrite fold_left_app).
  rewrite Ep. assert (Hby : is_byte b) by (eapply Forall_lookup_1; [exact Hd|exact Hb]).
  assert (Hok : bytes_ok (l ++ [b])) by (apply bytes_ok_app; split; [done|]; by apply Forall_singleton).
  assert (Es : l ++ slice ptr (S n) data = (l ++ [b]) ++ slice (S ptr) n data).
  { rewrite <-app_assoc. f_equal. unfold slice. by rewrite (drop_S _ _ _ Hb). }
  rewrite Es. destruct (Z.eqb_spec (pattern (l ++ [b])) CAPSULE_FW_VERSION_TAG) as [E|E].
  - apply pattern_is_tag in E; [|done]. set (l' := l ++ [b]) in *.
    assert (Hl4 : (4 <= length l')%nat).
    { apply (f_equal length) in E. rewrite length_take, length_rev in E. change (length (rev tag)) with 4%nat in E. lia. }
    assert (Hsl : slice (length l' - 4) 4 l' = tag).
    { rewrite List.firstn_rev in E. apply (f_equal (@rev Z)) in E. rewrite !rev_involutive in E.
      unfold slice. rewrite take_ge by len. exact E. }
    rewrite (find_tag_Some _ (length l' - 4)).
    + f_equal. f_equal. unfold CAPSULE_FW_VERSION_OFFSET, l' in *. rewrite length_app in *. simpl in *. lia.
    + unfold slice in *. rewrite drop_app_le by lia. rewrite take_app_le by len. done.
    + intros j Hj. assert (Hj' : (j + 4 <= length l)%nat) by (unfold l' in Hj; rewrite length_app in Hj; simpl in Hj; lia).
      specialize (Hu j Hj'). unfold slice, l' in *. rewrite <-app_assoc, drop_app_le by lia. by rewrite take_app_le by len.
  - replace (Z.of_nat ptr + 1) with (Z.of_nat (S ptr)) by lia. rewrite IH; [|done| |lia].
    + rewrite length_app. simpl length. destruct (find_tag _); f_equal; f_equal; lia.
    + intros j Hj Ej. destruct (decide (j + 4 <= length l)%nat) as [Hjl|Hjl].
      * apply (Hu j Hjl). unfold slice in *. rewrite drop_app_le in Ej by lia. by rewrite take_app_le in Ej by len.
      * apply E, pattern_is_tag; [done|]. rewrite length_app in Hj. simpl in Hj.
        assert (Hk : j = (length (l ++ [b]) - 4)%nat) by (rewrite length_app; simpl; lia).
        rewrite List.firstn_rev, <-Hk. f_equal. rewrite <-Ej. unfold slice. rewrite take_ge by (rewrite length_drop, length_app; simpl; lia). done.
Qed.

Lemma tag_found data ptr end_ptr :
  bytes_ok data -> (ptr + Z.to_nat (end_ptr - Z.of_nat ptr) <= length data)%nat ->
  get_fw_version_tag_offset data (Z.of_nat ptr) end_ptr =
  Some (match find_tag (slice ptr (Z.to_nat (end_ptr - Z.of_nat ptr)) data) with
        | Some i => (Z.of_nat (ptr + i + 8), true)
        | None => (Z.of_nat (ptr + Z.to_nat (end_ptr - Z.of_nat ptr)), false)
        end).
Proof.
  intros Hd Hle. unfold get_fw_version_tag_offset.
  change 0 with (pattern []) at 1. rewrite scan_tag_spec; [|done|by apply Forall_nil| |done].
  - simpl app. simpl length. destruct (find_tag _); f_equal; f_equal; lia.
  - intros j Hj. simpl in Hj. lia.
Qed.

(** In a region of the capsule, [get_fw_version_tag_offset] finds the first "$MN2" and answers the
    position eight bytes behind its start, and the end of the region when there is none. *)
Theorem get_fw_version_tag_offset_finds data ptr n :
  bytes_ok data -> (ptr + n <= length data)%nat ->
  get_fw_version_tag_offset data (Z.of_nat ptr) (Z.of_nat (ptr + n)) =
  Some (match find_tag (slice ptr n data) with
        | Some i => (Z.of_nat (ptr + i + 8), true)
        | None => (Z.of_nat (ptr + n), false)
        end).
Proof.
  intros Hd Hle. rewrite tag_found by (done || lia).
  by replace (Z.to_nat (Z.of_nat (ptr + n) - Z.of_nat ptr)) with n by lia.
Qed.

(** ** Versions *)

(** Two little-endian halves, the high one first. *)
Definition mn2 (data : bytes) (p : nat) : Z := getn 2 p data * 2 ^ 16 + getn 2 (p + 2) data.

Lemma byte_at_lookup data p b : data !! p = Some b -> byte_at data (Z.of_nat p) = Some b.
Proof. unfold byte_at. by rewrite Nat2Z.id. Qed.

Lemma half_bytes data p : bytes_ok data -> (p + 2 <= length data)%nat ->
  exists b0 b1, data !! p = Some b0 /\ data !! (p + 1)%nat = Some b1 /\ is_byte b0 /\ is_byte b1 /\
    getn 2 p data = b1 * 256 + b0.
Proof.
  intros Hd Hl. destruct (lookup_lt_is_Some_2 data p) as [b0 H0]; [lia|].
  destruct (lookup_lt_is_Some_2 data (p + 1)) as [b1 H1]; [lia|]. exists b0, b1. split; [done|]. split; [done|].
  split; [eapply Forall_lookup_1; [exact Hd|exact H0]|]. split; [eapply Forall_lookup_1; [exact Hd|exact H1]|].
  unfold getn, slice. rewrite (drop_S _ _ _ H0). rewrite Nat.add_1_r in H1. rewrite (drop_S _ _ _ H1). simpl. lia.
Qed.

Lemma half_at_spec data p : bytes_ok data -> (p + 2 <= length data)%nat -> half_at data (Z.of_nat p) = Some (getn 2 p data).
Proof.
  intros Hd Hl. destruct (half_bytes data p Hd Hl) as (b0 & b1 & H0 & H1 & B0 & B1 & ->). unfold half_at.
  replace (Z.of_nat p + 1) with (Z.of_nat (p + 1)) by lia. rewrite (byte_at_lookup _ _ _ H1), (byte_at_lookup _ _ _ H0). simpl.
  rewrite Z.shiftl_mul_pow2, lor_add by (unfold is_byte in *; lia). done.
Qed.

Lemma MN2_spec data p : bytes_ok data -> (p + 4 <= length data)%nat ->
  MN2_VER_BYTESREORDER data (Z.of_nat p) = Some (mn2 data p).
Proof.
  intros Hd Hl. unfold mn2. destruct (half_bytes data p Hd ltac:(lia)) as (b0 & b1 & H0 & H1 & B0 & B1 & ->).
  destruct (half_bytes data (p + 2) Hd ltac:(lia)) as (b2 & b3 & H2 & H3 & B2 & B3 & ->). unfold MN2_VER_BYTESREORDER.
  replace (Z.of_nat p + 1) with (Z.of_nat (p + 1)) by lia. replace (Z.of_nat p + 2) with (Z.of_nat (p + 2)) by lia.
  replace (Z.of_nat p + 3) with (Z.of_nat (p + 2 + 1)) by lia.
  rewrite (byte_at_lookup _ _ _ H1), (byte_at_lookup _ _ _ H0), (byte_at_lookup _ _ _ H3), (byte_at_lookup _ _ _ H2). simpl.
  unfold is_byte in *. rewrite !Z.shiftl_mul_pow2 by lia. rewrite u32_small by lia. f_equal.
  rewrite (lor_add 24) by lia. replace (b1 * 2 ^ 24 + b0 * 2 ^ 16) with ((b1 * 2 ^ 8 + b0) * 2 ^ 16) by lia.
  rewrite (lor_add 16) by lia. replace ((b1 * 2 ^ 8 + b0) * 2 ^ 16 + b3 * 2 ^ 8) with (((b1 * 2 ^ 8 + b0) * 2 ^ 8 + b3) * 2 ^ 8) by lia.
  rewrite (lor_add 8) by lia. lia.
Qed.

Definition sec_triple (data : bytes) (p : nat) : Z * Z * Z := (s32 (mn2 data p), getn 2 (p + 4) data, getn 2 (p + 6) data).

Lemma sec_version_at_spec data p : bytes_ok data -> (p + 8 <= length data)%nat ->
  sec_version_at data (Z.of_nat p) = Some (sec_triple data p).
Proof.
  intros Hd Hl. unfold sec_version_at. rewrite MN2_spec by (done || lia). simpl.
  replace (Z.of_nat p + 4) with (Z.of_nat (p + 4)) by lia. replace (Z.of_nat p + 6) with (Z.of_nat (p + 6)) by lia.
  rewrite !half_at_spec by (done || lia). done.
Qed.

(** ** The decision *)

(** The versions named in a capsule. *)
Inductive found := Pdr (v : Z) | Iafw (v : Z) | Sec (v : Z * Z * Z).

Definition region_version (data : bytes) (offset size : Z) : option Z :=
  let s := Z.to_nat (offset + sizeof_capsule_signature) in
  (fun i => mn2 data (s + i + 8)) <$> find_tag (slice s (Z.to_nat size) data).

Fixpoint sec_versions (fuel : nat) (data : bytes) (s : nat) (e : Z) : list (Z * Z * Z) :=
  match fuel with
  | O => []
  | S fuel =>
      match find_tag (slice s (Z.to_nat (e - Z.of_nat s)) data) with
      | Some i => sec_triple data (s + i + 8) :: sec_versions fuel data (s + i + 8) e
      | None => []
      end
  end.

Definition versions (c : bytes) : list found :=
  (Pdr <$> option_list (region_version c (pdr_offset c) (pdr_size c))) ++
  (Iafw <$> option_list (region_version c (iafw_stage2_offset c) (iafw_stage2_size c))) ++
  (Sec <$> sec_versions (S (Z.to_nat (sec_size c))) c (Z.to_nat (sec_offset c + sizeof_capsule_signature)) (sec_size c)).

(** The versions that run. *)
Record current := mkCurrent { cur_iafw : Z; cur_pdr : Z; cur_sec : Z * Z * Z }.

Definition running (cur : current) (f : found) : bool :=
  match f with
  | Pdr v => v =? cur_pdr cur
  | Iafw v => v =? cur_iafw cur
  | Sec v => bool_decide (v = cur_sec cur)
  end.

Definition update_wanted (cur : current) (vs : list found) : bool :=
  match vs with [] => true | _ => existsb (fun v => negb (running cur v)) vs end.

(** The regions, and the version behind a tag at the end of one, lie in the capsule. *)
Record capsule_ok (c : bytes) : Prop := {
  co_bytes : bytes_ok c;
  co_pdr : pdr_offset c + sizeof_capsule_signature + pdr_size c + 8 <= Z.of_nat (length c);
  co_iafw : iafw_stage2_offset c + sizeof_capsule_signature + iafw_stage2_size c + 8 <= Z.of_nat (length c);
  co_sec : sec_offset c + sizeof_capsule_signature <= Z.of_nat (length c) /\ sec_size c + 12 <= Z.of_nat (length c)
}.

Lemma refs_field_bound i c : bytes_ok c -> 0 <= refs_field i c < 2 ^ 32.
Proof. intros H. apply (getn_bound 4). done. Qed.

Lemma tag_end region i n : find_tag region = Some i -> (length region <= n)%nat -> (i + 4 <= n)%nat.
Proof. intros H Hl. apply find_tag_spec in H as [_ H]. lia. Qed.

Lemma check_region_spec data offset size version :
  bytes_ok data -> 0 <= offset -> 0 <= size -> offset + sizeof_capsule_signature + size + 8 <= Z.of_nat (length data) ->
  check_region data offset size version = Some ((fun v => negb (v =? version)) <$> region_version data offset size).
Proof.
  intros Hd Ho Hs Hl. unfold check_region, region_version. unfold sizeof_capsule_signature in *.
  set (s := Z.to_nat (offset + (4 + 32 + 516))). destruct (Z.eqb_spec size 0) as [->|Hnz].
  { unfold slice. rewrite take_0. done. }
  replace (offset + (4 + 32 + 516)) with (Z.of_nat s) by lia.
  assert (En : Z.to_nat (Z.of_nat s + size - Z.of_nat s) = Z.to_nat size) by lia.
  rewrite tag_found by (done || lia). rewrite En.
  destruct (find_tag (slice s (Z.to_nat size) data)) as [i|] eqn:Ei; simpl; [|done].
  assert (Hi : (i + 4 <= Z.to_nat size)%nat) by (eapply tag_end; [exact Ei|rewrite length_slice; lia]).
  rewrite MN2_spec by (done || lia). done.
Qed.

Definition set_sec (v : Z * Z * Z) : sec_version_t := let '(v2, v1, v0) := v in mkSec (Some v0) (Some v1) (Some v2).

Lemma sec_differs_spec v cur : sec_differs v (set_sec cur) = Some (negb (bool_decide (v = cur))).
Proof.
  destruct v as [[v2 v1] v0], cur as [[c2 c1] c0]. unfold sec_differs, set_sec. simpl.
  destruct (Z.eqb_spec v0 c0) as [->|]; simpl; [|by rewrite bool_decide_eq_false_2 by congruence].
  destruct (Z.eqb_spec v1 c1) as [->|]; simpl; [|by rewrite bool_decide_eq_false_2 by congruence].
  f_equal. destruct (Z.eqb_spec v2 c2) as [->|]; simpl; [by rewrite bool_decide_eq_true_2|by rewrite bool_decide_eq_false_2 by congruence].
Qed.

#[local] Arguments sec_differs : simpl never.

Lemma check_sec_spec fuel data s e cur m :
  bytes_ok data -> (s <= length data)%nat -> e + 12 <= Z.of_nat (length data) -> (Z.to_nat (e - Z.of_nat s) < fuel)%nat ->
  let vs := sec_versions fuel data s e in
  check_sec fuel data (Z.of_nat s) e (set_sec cur) m =
  Some (existsb (fun v => negb (bool_decide (v = cur))) vs || negb (m || negb (bool_decide (vs = [])))).
Proof.
  intros Hd. revert s m. induction fuel as [|fuel IH]; intros s m Hs He Hf; [lia|]. cbn [check_sec sec_versions].
  rewrite tag_found by (done || lia).
  destruct (find_tag (slice s (Z.to_nat (e - Z.of_nat s)) data)) as [i|] eqn:Ei; simpl.
  2:{ by rewrite orb_false_r. }
  assert (Hi : (i + 4 <= Z.to_nat (e - Z.of_nat s))%nat) by (eapply tag_end; [exact Ei|rewrite length_slice; lia]).
  rewrite sec_version_at_spec by (done || lia). simpl. rewrite sec_differs_spec. simpl.
  destruct (bool_decide (sec_triple data (s + i + 8) = cur)) eqn:Eb; simpl; [|done].
  rewrite IH by lia. f_equal. rewrite orb_true_r, orb_true_l. simpl. done.
Qed.

Lemma sec_versions_empty fuel data s : sec_versions fuel data s 0 = [].
Proof.
  destruct fuel; [done|]. cbn [sec_versions]. replace (Z.to_nat (0 - Z.of_nat s)) with 0%nat by lia.
  unfold slice. by rewrite take_0.
Qed.

#[local] Arguments running : simpl never.
#[local] Arguments check_sec : simpl never.
#[local] Arguments sec_versions : simpl never.


(** ** Flashing *)

Lemma flag_is_no_candidate p : p ∈ candidates CAPSULE_PARTITION_LABEL -> p <> CAPSULE_UPDATE_FLAG_PATH.
Proof.
  unfold candidates, PREFIXES. cbn [fmap list_fmap]. rewrite !elem_of_cons, elem_of_nil.
  intros [->|[->|[->|[]]]]; vm_compute; congruence.
Qed.

(** C13: Under any schedule of failing or short system calls without [EINTR]: only the capsule
    partition and the update flag change, no descriptor stays open, the flag changes only when the
    partition holds the whole capsule, nothing changes when no update is wanted, 0 means that the
    request was carried out, and without a failing call 0 is returned. *)
Theorem flash_capsule_fdk_flags_last property_get capsule sz w path s data flag b :
  steady w -> located w CAPSULE_PARTITION_LABEL path s data ->
  w_files w !! CAPSULE_UPDATE_FLAG_PATH = Some (mkFile Other flag) -> (1 <= length flag)%nat ->
  sizeof_capsule_header < sz <= Z.of_nat (length capsule) -> sz <= Z.of_nat (length data) ->
  check_capsule capsule (hex_version (property_get "sys.ia32.version"%string (str "00.00")))
    (sec_version_of (property_get "sys.chaabi.version"%string (str "00.00")))
    (hex_version (property_get "sys.pdr.version"%string (str "00.00"))) = Some b ->
  let written := splice 0 (take (Z.to_nat sz) capsule) data in
  wp (fun o w' => exists r d f, o = Ret r /\ w_fds w' = w_fds w /\
        w_files w' = <[CAPSULE_UPDATE_FLAG_PATH := mkFile Other f]> (<[path := mkFile (Block s) d]> (w_files w)) /\
        (quiet w -> r = 0) /\ (f <> flag -> b = true /\ d = written) /\ (b = false -> d = data) /\
        (b = true -> r = 0 -> d = written /\ f = splice 0 (str "1") flag))
    (flash_capsule_fdk property_get (Some capsule) sz) w.
Proof.
  intros Hs Hl Hf Hlf Hsz Hsd Hb written. pose proof (flag_is_no_candidate path ltac:(apply Hl)) as Hne.
  assert (Hsame : <[CAPSULE_UPDATE_FLAG_PATH := mkFile Other flag]> (<[path := mkFile (Block s) data]> (w_files w)) = w_files w).
  { rewrite (insert_id (w_files w) path) by apply Hl. by apply insert_id. }
  unfold flash_capsule_fdk. replace (sz <=? sizeof_capsule_header) with false by lia. rewrite Hb. cbn [lift_option].
  apply wp_bind, wp_ret. destruct b; cbn [negb].
  2:{ apply wp_ret. exists 0, data, flag. by rewrite Hsame. }
  eapply wp_get_device_path; [done|exact Hl| |].
  { intros w' (U1 & U2 & U3) Hs' Hq. apply wp_ret. exists (-1), data, flag. rewrite Hsame. by split_and!. }
  intros w1 Hd. replace (Z.of_nat (length capsule) <? sz) with false by lia. apply wp_bind.
  eapply wp_mono; [apply (wp_file_write path (Block s) w (take (Z.to_nat sz) capsule) data w1 (block_fixed s)); [len|exact Hd]|].
  intros o w2 [[-> Hd2]|(-> & Hq & j & Hj & Hd2)]; pose proof Hd2 as [E1 E2 E3 E4].
  2:{ apply wp_ret. eexists (-1), _, flag. split; [done|]. split; [done|]. split.
      { rewrite E1, insert_insert_ne by done. rewrite (insert_id (w_files w) CAPSULE_UPDATE_FLAG_PATH) by done. reflexivity. }
      by split_and!. }
  cbn [truthy Z.eqb negb]. fold written in Hd2, E1.
  assert (Hfl : device CAPSULE_UPDATE_FLAG_PATH Other w2 flag w2).
  { apply device_self; [|done]. by rewrite E1, lookup_insert_ne by done. }
  eapply wp_mono; [apply (wp_file_write CAPSULE_UPDATE_FLAG_PATH Other w2 (str "1") flag w2); [done|exact Hlf|exact Hfl]|].
  intros o w3 [[-> [F1 F2 F3 F4]]|(-> & Hq & j & Hj & [F1 F2 F3 F4])]; eexists _, written, _;
    (split; [done|]); (split; [congruence|]); (split; [rewrite F1, E1; reflexivity|]).
  - by split_and!.
  - split; [intros Hw; destruct Hq; auto|]. by split_and!.
Qed.
