(* ===== verification/FirmwareSample.v ===== *)
(** * Firmware, packages and capsules on concrete inputs

    The theorems about firmware versions, the boot partitions, boot loader packages and capsules
    applied to small files and devices, and what the code does on malformed ones. *)

From stdpp Require Import base list numbers gmap strings.
From Stdlib Require Import ZArith Lia.
From S2P Require Import Prelude Posix Drive DriveSpec GuidStr CLib Util FwVersion IfwiEmmc UtilSpec FwVersionSpec IfwiEmmcSpec.
From S2P Require Import UtilSpec Bootloader BootloaderSpec GptImage GptImageSpec Capsule CapsuleSpec.

(** A FIP header with these firmware versions, everything else being zero. *)
Definition a_fip (major minor : Z) : bytes :=
  le_enc 4 FIP_PATTERN ++ replicate 36 0 ++ [minor; major; 0; 0].

(** Padding, a header without a version, and one with version 1.2. *)
Definition an_ifwi : bytes := replicate 8 7 ++ a_fip 0 0 ++ [9; 9; 9; 9] ++ a_fip 1 2.

Definition zero_but_ifwi (v : fw_version) : firmware_versions :=
  mkFirmware v zero_version zero_version zero_version zero_version zero_version zero_version zero_version zero_version.

Lemma fw_vercmp_lexicographic_witness :
  fw_vercmp (zero_but_ifwi (mkVersion 1 255)) (zero_but_ifwi (mkVersion 2 0)) =
  match 1 ?= 2 with Lt => -1 | Gt => 1 | Eq => match 255 ?= 0 with Lt => -1 | Eq => 0 | Gt => 1 end end.
Proof.
  apply (fw_vercmp_lexicographic (zero_but_ifwi (mkVersion 1 255)) (zero_but_ifwi (mkVersion 2 0)));
    split; unfold is_byte; cbn; lia.
Defined.

Lemma get_image_fw_rev_takes_last_nonnull_witness :
  image_versions (headers sizeof_FIP an_ifwi 100) = zero_but_ifwi (mkVersion 1 2) /\
  get_image_fw_rev an_ifwi 100 true =
    Some (scan_result sizeof_FIP 100 (headers sizeof_FIP an_ifwi 100), image_versions (headers sizeof_FIP an_ifwi 100)) /\
  get_image_fw_rev_long an_ifwi 100 true =
    Some (scan_result sizeof_FIP_long 100 (headers sizeof_FIP_long an_ifwi 100),
          image_versions_long (headers sizeof_FIP_long an_ifwi 100)).
Proof.
  split; [vm_compute; reflexivity|].
  apply (get_image_fw_rev_takes_last_nonnull an_ifwi 100). vm_compute. split; discriminate.
Defined.

(** Sixteen bytes reported through the second name. *)
Definition some_revisions : list Z := [1; 2; 3; 4; 5; 6; 7; 8; 9; 10; 11; 12; 13; 14; 0x80; 0x30].

Definition report_world (text : bytes) : world :=
  mkWorld (<[ DEVICE_NAME_ALT := mkFile Regular text ]> ∅) ∅ [] 0.

Lemma report_world_reports text : reports (report_world text) text.
Proof.
  right. unfold report_world. cbn [w_files]. split; [by rewrite lookup_insert_ne, lookup_empty|apply lookup_insert_eq].
Qed.

Lemma get_current_fw_rev_reads_witness :
  ifwi (current_versions some_revisions) = mkVersion 0x30 0x80 /\
  (length some_revisions = 16%nat ->
     wp (fun o w' => o = Ret (0, Some (current_versions some_revisions)) /\
         w_files w' = w_files (report_world (reported some_revisions)) /\ w_fds w' = w_fds (report_world (reported some_revisions)))
     get_current_fw_rev (report_world (reported some_revisions))) /\
  (length some_revisions = 32%nat ->
     wp (fun o w' => o = Ret (0, Some (current_versions_long some_revisions)) /\
         w_files w' = w_files (report_world (reported some_revisions)) /\ w_fds w' = w_fds (report_world (reported some_revisions)))
     get_current_fw_rev_long (report_world (reported some_revisions))).
Proof.
  split; [vm_compute; reflexivity|].
  apply (get_current_fw_rev_reads (report_world (reported some_revisions)) some_revisions);
    [done|apply bytes_okb_ok; vm_compute; reflexivity|apply report_world_reports].
Defined.

Lemma unreadable_report_is_success_witness :
  str "unknown" = 117 :: str "nknown" /\
  wp (fun o w' => o = Ret (0, Some (current_versions (replicate 16 0)))) get_current_fw_rev
    (report_world (117 :: str "nknown")).
Proof.
  split; [vm_compute; reflexivity|].
  apply (unreadable_report_is_success (report_world (117 :: str "nknown")) 117 (str "nknown"));
    [done|by vm_compute|apply report_world_reports].
Defined.

Definition firmware_world (d : bytes) : world :=
  mkWorld (<[ "ifwi.bin"%string := mkFile Regular d ]> ∅) ∅ [] 0.

Lemma crack_update_fw_finds_version_witness :
  length an_ifwi = 100%nat /\
  wp (fun o w' => w_files w' = w_files (firmware_world an_ifwi) /\ w_fds w' = w_fds (firmware_world an_ifwi) /\
        exists rc v, o = Ret (rc, v) /\ crack_post an_ifwi rc v)
     (crack_update_fw "ifwi.bin" zero_version) (firmware_world an_ifwi).
Proof.
  split; [vm_compute; reflexivity|].
  exact (crack_update_fw_finds_version (firmware_world an_ifwi) "ifwi.bin" an_ifwi zero_version eq_refl
    (lookup_insert_eq _ _ _) ltac:(vm_compute; reflexivity)).
Defined.

Definition a_smip : bytes := [1] ++ le_enc 4 SMIP_PATTERN ++ replicate 776 0 ++ [42].

Lemma crack_update_fw_pti_field_reads_witness :
  length a_smip = 782%nat /\
  wp (fun o w' => w_files w' = w_files (firmware_world a_smip) /\ w_fds w' = w_fds (firmware_world a_smip) /\
        exists rc p, o = Ret (rc, p) /\
        (rc = 0 /\ (exists q, match_at SMIP_PATTERN a_smip q /\ (forall q', (q' < q)%nat -> ~ match_at SMIP_PATTERN a_smip q') /\
            (q + 780 < length a_smip)%nat /\ p = getn 1 (q + 780) a_smip) \/
         rc = -1 /\ p = 0 /\ forall q, (q + 780 < length a_smip)%nat ->
            (forall q', (q' < q)%nat -> ~ match_at SMIP_PATTERN a_smip q') -> ~ match_at SMIP_PATTERN a_smip q))
     (crack_update_fw_pti_field "ifwi.bin" 0) (firmware_world a_smip).
Proof.
  split; [vm_compute; reflexivity|].
  exact (crack_update_fw_pti_field_reads (firmware_world a_smip) "ifwi.bin" a_smip 0 eq_refl
    (lookup_insert_eq _ _ _) ltac:(vm_compute; reflexivity)).
Defined.

(** On these files the answers are a version and a field. *)
Example crack_an_ifwi : (crack_update_fw "ifwi.bin" zero_version (firmware_world an_ifwi)).1 = Ret (0, mkVersion 1 2).
Proof. vm_compute. reflexivity. Qed.

Example crack_a_smip : (crack_update_fw_pti_field "ifwi.bin" 0 (firmware_world a_smip)).1 = Ret (0, 42).
Proof. vm_compute. reflexivity. Qed.

#[local] Opaque Z.to_nat.

Definition blank_partition : bytes := replicate (Z.to_nat BOOT_IFWI_SIZE) 0.

Definition boot_world : world :=
  mkWorld (<[ boot_partition 0 := mkFile (Block 512) blank_partition ]>
    (<[ boot_partition 1 := mkFile (Block 512) blank_partition ]>
    (<[ boot_partition_force_ro 0 := mkFile Regular [49; 10] ]>
    (<[ boot_partition_force_ro 1 := mkFile Regular [49; 10] ]> ∅)))) ∅ [] 0.

Lemma blank_partition_size : BOOT_IFWI_SIZE <= Z.of_nat (length blank_partition).
Proof. unfold blank_partition. rewrite length_replicate. destruct ifwi_words. lia. Qed.

Lemma blank_partition_length : length blank_partition = Z.to_nat BOOT_IFWI_SIZE.
Proof. apply length_replicate. Qed.

Lemma boot_world_device : boot_device boot_world (Block 512) (Block 512) blank_partition blank_partition.
Proof.
  split; unfold boot_world; cbn [w_files].
  - apply lookup_insert_eq.
  - rewrite lookup_insert_ne by done. apply lookup_insert_eq.
  - done.
  - exists [49; 10]. rewrite !lookup_insert_ne by done. apply lookup_insert_eq.
  - exists [49; 10]. rewrite !lookup_insert_ne by done. apply lookup_insert_eq.
  - split; apply blank_partition_size.
Qed.

Lemma xor_update_balances_witness :
  length blank_partition = Z.to_nat BOOT_IFWI_SIZE /\ xor_compute (xor_update blank_partition) BOOT_IFWI_SIZE = 0 .
Proof.
  split; [exact blank_partition_length|].
  exact (proj1 (xor_update_balances blank_partition (bytes_ok_zeros _) blank_partition_length)).
Defined.


Lemma update_ifwi_keeps_tokens_witness :
  length [1; 2; 3; 4] = 4%nat /\
  wp (fun o w' => exists rc d0' d1', o = Ret rc /\
        w_files w' !! boot_partition 0 = Some (mkFile (Block 512) d0') /\
        w_files w' !! boot_partition 1 = Some (mkFile (Block 512) d1') /\
        token_area d0' = token_area blank_partition /\ token_area d1' = token_area blank_partition /\
        (rc = 0 /\ xor_compute d0' BOOT_IFWI_SIZE = 0 /\ xor_compute d1' BOOT_IFWI_SIZE = 0 \/ rc = -1 /\ ~ quiet boot_world))
     (update_ifwi_file_scu_emmc [1; 2; 3; 4] 4) boot_world.
Proof.
  split; [reflexivity|].
  exact (update_ifwi_keeps_tokens boot_world (Block 512) (Block 512) blank_partition blank_partition [1; 2; 3; 4] 4
    boot_world_device (bytes_ok_zeros _) (bytes_ok_zeros _) ltac:(apply bytes_okb_ok; vm_compute; reflexivity)
    ltac:(cbn; lia)).
Defined.

(** when the switch of the first partition cannot be opened, the failure closes descriptor 0,
    the standard input, which the function never opened. *)
Theorem write_umip_closes_stdin w addr data size d :
  quiet w -> addr <> IFWI_OFFSET -> w_files w !! boot_partition_force_ro 0 = None -> w_fds w !! 0 = Some d ->
  wp (fun o w' => o = Ret (-1) /\ w_fds w' = delete 0 (w_fds w)) (write_umip_emmc addr data size) w.
Proof.
  intros Hq Ha Hro Hfd. unfold write_umip_emmc. rewrite (proj2 (Z.eqb_neq _ _) Ha). apply wp_bind, wp_ret. cbn [negb andb].
  unfold write_boot_partition, force_rw. apply wp_assoc, wp_assoc, wp_bind.
  eapply wp_open; [done|done| |intros; congruence].
  intros w1 (U1 & U2 & U3) _. cbn [Z.ltb Z.compare]. apply wp_bind, wp_ret. change (truthy (-1)) with true. cbv iota.
  apply wp_assoc, wp_err_boot1. intros w2 E1 E2. apply wp_bind, wp_ret, wp_ret. by rewrite E2, U2.
Qed.

(** The standard input is open, the device has no switch. *)
Definition no_switch : world := mkWorld ∅ (<[ 0 := mkFd "/dev/console" 0 true true ]> ∅) [] 0.

Lemma write_umip_closes_stdin_witness :
  w_fds no_switch !! 0 = Some (mkFd "/dev/console" 0 true true) /\
  wp (fun o w' => o = Ret (-1) /\ w_fds w' = delete 0 (w_fds no_switch))
    (write_umip_emmc BOOT_DNX_TIMEOUT_OFFSET (Some [5]) 1) no_switch.
Proof.
  split; [reflexivity|].
  exact (write_umip_closes_stdin no_switch BOOT_DNX_TIMEOUT_OFFSET (Some [5]) 1 (mkFd "/dev/console" 0 true true)
    eq_refl ltac:(unfold BOOT_DNX_TIMEOUT_OFFSET, IFWI_OFFSET; lia) eq_refl eq_refl).
Defined.

Definition a_header : bytes := str "BOOTLDR!" ++ [1; 0; 1; 2; 0; 0; 0; 0].
Definition some_components : list component :=
  [mkComponent (str "IFWI!!!!") 1 [0; 0; 0] [1; 2; 3];
   mkComponent (str "SPLASHS!") 0 [0; 0; 0] [4];
   mkComponent (str "DROIDBT!") 1 [0; 0; 0] [5; 6]].

(** Stands for droidboot: the images are kept as files. *)
Definition recording_flash (name : string) (buffer : option bytes) : M Z :=
  match buffer with
  | Some b => put_file name (mkFile Regular b) ;; ret 0
  | None => undefined
  end.

Definition empty_world : world := mkWorld ∅ ∅ [] 0.

Lemma some_package_ok : package_ok a_header some_components.
Proof. split; [done|done| |done|done]. repeat constructor; unfold is_byte; simpl; lia. Qed.

Lemma flash_bootloader_installs_components_witness :
  flash_bootloader recording_flash 4 (package a_header some_components) 70 empty_world =
    install recording_flash some_components empty_world /\
  (flash_bootloader recording_flash 4 (package a_header some_components) 70 empty_world).1 = Ret 0 /\
  w_files (flash_bootloader recording_flash 4 (package a_header some_components) 70 empty_world).2 =
    <[IFWI_NAME := mkFile Regular [1; 2; 3]]> {[FASTBOOT_OS_NAME := mkFile Regular [5; 6]]}.
Proof.
  split; [|split; vm_compute; reflexivity].
  apply (flash_bootloader_installs_components recording_flash a_header some_components 4 empty_world);
    [apply some_package_ok|simpl; lia].
Defined.

(** The size of the component behind [a_header] is 2^32 - 16. *)
Definition wrapping_package : bytes := a_header ++ str "IFWI!!!!" ++ [240; 255; 255; 255; 0; 0; 0; 0].

Lemma wrapping_component_is_found_again_witness :
  next_component_filter 1000 wrapping_package (Some 16) 32 ESP_MAGIC = None.
Proof.
  apply (wrapping_component_is_found_again wrapping_package 32 16 ESP_MAGIC 1000); [lia|lia|reflexivity|reflexivity].
Defined.

Lemma header_alone_is_overread_witness : (flash_bootloader recording_flash 4 a_header 16 empty_world).1 = Undefined.
Proof. apply (header_alone_is_overread recording_flash 3 a_header empty_world); reflexivity. Defined.

(** "$MN2", four bytes, and the version 0x00010002 with the halves 3 and 4. *)
Definition a_tag : bytes := tag ++ [9; 9; 9; 9] ++ [1; 0; 2; 0; 3; 0; 4; 0].

(** A capsule with no PDR, an IAFW stage at 0 and security firmware behind it; [sec] is the size
    given for it. *)
Definition a_capsule (sec : Z) : bytes :=
  replicate 552 0 ++ replicate 24 0 ++
  concat (le_enc 4 <$> [0; 0; 56; 24; 0; 0; 80; sec]) ++ a_tag ++ replicate 8 0 ++ a_tag ++ replicate 24 0.

Definition same_versions : current := mkCurrent 0x10002 0 (0x10002, 3, 4).
Definition other_sec : current := mkCurrent 0x10002 0 (0x10002, 3, 5).

Lemma capsule_sample_ok sec : sec = 24 \/ sec = 656 -> capsule_ok (a_capsule sec).
Proof. intros [->| ->]; (split; [apply bytes_okb_ok; vm_compute; reflexivity|..]); vm_compute; repeat split; congruence. Qed.

Lemma get_fw_version_tag_offset_finds_witness :
  get_fw_version_tag_offset (a_capsule 24) 608 632 = Some (616, true).
Proof.
  apply (get_fw_version_tag_offset_finds (a_capsule 24) 608 24); [apply bytes_okb_ok; vm_compute; reflexivity|].
  vm_compute. lia.
Defined.


(** The end of the security firmware is counted from the start of the capsule instead of the start of
    the firmware: its 24 bytes at 632 are not scanned, and a capsule that brings other security
    firmware is taken for the one installed. *)
Example new_security_firmware_is_skipped :
  slice 632 16 (a_capsule 24) = a_tag /\ sec_triple (a_capsule 24) 640 <> cur_sec other_sec /\
  check_capsule (a_capsule 24) (cur_iafw other_sec) (set_sec (cur_sec other_sec)) (cur_pdr other_sec) = Some false.
Proof. split; [reflexivity|]. split; [vm_compute; congruence|reflexivity]. Qed.

(** With the default of the property only one of three numbers is set, and comparing them is undefined. *)
Example default_sec_version_is_unset :
  sec_version_of (str "00.00") = mkSec None None (Some 0) /\
  check_capsule (a_capsule 656) 0x10002 (sec_version_of (str "00.00")) 0 = None.
Proof. split; reflexivity. Qed.

(** The world of a device with the capsule partition. *)
Definition capsule_world : world :=
  mkWorld {["/dev/block/by-name/FWUP" := mkFile (Block 512) (replicate 700 7);
            CAPSULE_UPDATE_FLAG_PATH := mkFile Other [48]]} ∅ [] 0.

Definition some_properties (name : string) (default : bytes) : bytes :=
  if String.eqb name "sys.ia32.version" then str "1.2"
  else if String.eqb name "sys.chaabi.version" then str "4.65538.3.5" else default.

Lemma located_sample : located capsule_world CAPSULE_PARTITION_LABEL "/dev/block/by-name/FWUP" 512 (replicate 700 7).
Proof.
  split; [vm_compute; by left|]. split; [reflexivity|].
  intros q Hq (s & d & E). unfold candidates, PREFIXES in Hq. cbn [fmap list_fmap] in Hq.
  rewrite !elem_of_cons, elem_of_nil in Hq. destruct Hq as [->|[->|[->|[]]]]; [done|vm_compute in E; congruence..].
Qed.

Lemma flash_capsule_fdk_flags_last_witness :
  exists w' d, flash_capsule_fdk some_properties (Some (a_capsule 656)) 656 capsule_world = (Ret 0, w') /\
    w_files w' = <[CAPSULE_UPDATE_FLAG_PATH := mkFile Other [49]]> (<["/dev/block/by-name/FWUP"%string := mkFile (Block 512) d]>
      (w_files capsule_world)) /\ d = splice 0 (take 656 (a_capsule 656)) (replicate 700 7).
Proof.
  pose proof (flash_capsule_fdk_flags_last some_properties (a_capsule 656) 656 capsule_world "/dev/block/by-name/FWUP" 512
    (replicate 700 7) [48] true) as H.
  unfold wp in H. destruct (flash_capsule_fdk some_properties (Some (a_capsule 656)) 656 capsule_world) as [o w'].
  destruct H as (r & d & f & Ho & _ & Hfi & Hq & _ & _ & Hr).
  - split; [by apply Forall_nil|done].
  - apply located_sample.
  - reflexivity.
  - simpl. lia.
  - vm_compute. split; congruence.
  - vm_compute. congruence.
  - vm_compute. reflexivity.
  - simpl in Ho, Hfi. rewrite (Hq eq_refl) in Ho. destruct (Hr eq_refl (Hq eq_refl)) as [Hd Hf]. exists w', d.
    split; [by rewrite Ho|]. split; [|exact Hd]. rewrite Hfi, Hf. reflexivity.
Defined.
