(* ===== verification/ScuIpc.v ===== *)
(** * Firmware updates through the SCU (flash_scu_ipc/ifwi.c), capsules on the EFI system partition
    (flash_edk2/esp.c), and the ULPMC (ulpmc.c)

    A firmware image and its DNX loader are streamed to files of the kernel driver, which installs
    them.  Sending a whole image with one [ioctl] is a parameter; messages, [sync] and [sleep] are
    left out, and so is the check that the macro [CLVT] adds.  Making a directory and mounting a file
    system are calls of the kernel, and unpacking an archive belongs to minzip: parameters. *)

From stdpp Require Import base list numbers gmap strings.
From Stdlib Require Import ZArith Lia.
From S2P Require Import Prelude Posix GuidStr CLib Util FwVersion Bootloader GptImage.

#[local] Open Scope string_scope.

Definition DNX_SYSFS_INT : string := "/sys/devices/ipc/intel_fw_update.0/dnx".
Definition DNX_SYSFS_INT_ALT : string := "/sys/kernel/fw_update/dnx".
Definition IFWI_SYSFS_INT : string := "/sys/devices/ipc/intel_fw_update.0/ifwi".
Definition IFWI_SYSFS_INT_ALT : string := "/sys/kernel/fw_update/ifwi".
Definition IPC_DEVICE_NAME : string := "/dev/mid_ipc".
Definition BIN_DNX : string := "/tmp/__dnx.bin".
Definition BIN_IFWI : string := "/tmp/__ifwi.bin".

#[local] Close Scope string_scope.

Definition BUF_SIZ : Z := 4096.
Definition PTI_ENABLE_BIT : Z := 128.

(** [sizeof(struct update_info)] and the structure: the size, the flag and a reserved word. *)
Definition sizeof_update_info : Z := 12.
Definition update_info (ifwi_size reset_after_update : Z) : bytes :=
  le_enc 4 ifwi_size ++ le_enc 4 reset_after_update ++ le_enc 4 0.

Definition ifwi_downgrade_allowed (ifwi : string) : M Z :=
  let! (r, pti_field) := crack_update_fw_pti_field ifwi 0 in
  if truthy r then ret (-1) else
  ret (if truthy (Z.land pti_field PTI_ENABLE_BIT) then 1 else 0).

(** The loop, at most three times: the number of bytes written. *)
Fixpoint retry_loop (retries : nat) (buf : bytes) (w_bytes : Z) (f : FILE) : M Z :=
  if w_bytes <? Z.of_nat (length buf) then
    match retries with
    | O => ret w_bytes
    | S retries =>
        let! n := fwrite f (drop (Z.to_nat w_bytes) buf) in
        retry_loop retries buf (w_bytes + n) f
    end
  else ret w_bytes.

Definition retry_write (buf : bytes) (f : FILE) : M Z :=
  let! w_bytes := retry_loop 3 buf 0 f in
  ret (if w_bytes <? Z.of_nat (length buf) then -1 else 0).

(** [while ((cont = fread(buff, 1, sizeof(buff), f_src)) > 0)]: false after a write that failed.
    Every round but the last moves bytes. *)
Fixpoint stream_loop (fuel : nat) (f_src f_dst : FILE) : M bool :=
  match fuel with
  | O => undefined
  | S fuel =>
      let! (f_src, buff) := fread f_src BUF_SIZ in
      if is_null buff then ret true else
      let! r := retry_write buff f_dst in
      if r =? -1 then ret false else stream_loop fuel f_src f_dst
  end.

Definition open_alternative (path alt : string) : M (option FILE) :=
  let! f := fopen path mode_w in
  match f with Some f => ret (Some f) | None => fopen alt mode_w end.

(** One file streamed to the driver: 0, or -1 after everything that was opened is closed.  After a
    success the first file is closed before its target, the second one after it. *)
Definition stream_file (src_first : bool) (src path alt : string) : M Z :=
  let! f_src := fopen src mode_r in
  match f_src with
  | None => ret (-1)
  | Some f_src =>
      let! f_dst := open_alternative path alt in
      match f_dst with
      | None => fclose f_src ;; ret (-1)
      | Some f_dst =>
          let! rounds := file_rounds f_src in
          let! ok := stream_loop rounds f_src f_dst in
          if ok then
            if src_first then fclose f_src ;; fclose f_dst ;; ret 0 else fclose f_dst ;; fclose f_src ;; ret 0
          else fclose f_dst ;; fclose f_src ;; ret (-1)
      end
  end.

Definition update_ifwi_file_scu_ipc (dnx ifwi : string) : M Z :=
  let! (r, img_ifwi_rev) := crack_update_fw ifwi zero_version in
  if truthy r then ret (-1) else
  let! (r, dev_fw_rev) := get_current_fw_rev in
  match dev_fw_rev with
  | None => ret (-1)
  | Some dev_fw_rev =>
      let! ifwi_allowed := ifwi_downgrade_allowed ifwi in
      if ifwi_allowed =? -1 then ret (-1) else
      let dev := FwVersion.ifwi dev_fw_rev in
      if negb (major img_ifwi_rev =? major dev) then ret 0 else
      if (minor img_ifwi_rev <? minor dev) && (ifwi_allowed =? 0) then ret 0 else
      if minor img_ifwi_rev =? minor dev then ret 0 else
      let! r := stream_file true dnx DNX_SYSFS_INT DNX_SYSFS_INT_ALT in
      if truthy r then ret r else
      stream_file false ifwi IFWI_SYSFS_INT IFWI_SYSFS_INT_ALT
  end.

(** [access(path, F_OK)] *)
Definition sys_access (path : string) : M Z :=
  let! f := next_fault in
  match f with
  | Ferr e => sys_fail e
  | _ => fun w => match w_files w !! path with Some _ => (Ret 0, w) | None => sys_fail ENOENT w end
  end.

Section Device.
Context (ioctl_fw_upgrade : Z -> bytes -> M Z).

(** [data] holds [size] bytes; the size of the packet must not wrap around. *)
Definition update_ifwi_image_scu_ipc (data : bytes) (size reset_flag : Z) : M Z :=
  match get_image_fw_rev data size true with
  | None => undefined
  | Some (r, img_fw_rev) =>
      if truthy r then ret (-1) else
      let! (r, dev_fw_rev) := get_current_fw_rev in
      match dev_fw_rev with
      | None => ret (-1)
      | Some dev_fw_rev =>
          if negb (major (ifwi img_fw_rev) =? major (ifwi dev_fw_rev)) then ret (-1) else
          let! packet := sys_malloc (u32 (size + sizeof_update_info)) in
          if negb packet then ret (-1) else
          if (2 ^ 32 <=? size + sizeof_update_info) || (Z.of_nat (length data) <? size) then undefined else
          let packet := update_info size reset_flag ++ take (Z.to_nat size) data in
          let! fd := sys_open IPC_DEVICE_NAME O_RDWR in
          if fd <? 0 then ret (-1) else
          let! r := ioctl_fw_upgrade fd packet in
          sys_close fd ;; ret r
      end
  end.
End Device.

Definition flash_dnx_scu_ipc (data : bytes) : M Z :=
  let! r := file_write BIN_DNX data in ret (if truthy r then -1 else 0).

Definition flash_ifwi_scu_ipc (data : bytes) (sz : Z) : M Z :=
  let! r := sys_access BIN_DNX in
  if truthy r then ret (-1) else
  match get_image_fw_rev data sz true with
  | None => undefined
  | Some (r, img_fw_rev) =>
      if truthy r then ret (-1) else
      if Z.of_nat (length data) <? sz then undefined else
      let! r := file_write BIN_IFWI (take (Z.to_nat sz) data) in
      if truthy r then ret (-1) else
      let! r := update_ifwi_file_scu_ipc BIN_DNX BIN_IFWI in
      ret (if truthy r then -1 else 0)
  end.

(** [property_get] answers the text of a property, or the default. *)
Definition is_scu_ipc (property_get : string -> bytes -> bytes) : bool :=
  Z.of_nat (length (property_get "sys.mia.version"%string [])) =? 0.

#[local] Open Scope string_scope.

Definition ESP_LABEL : string := "ESP".
Definition ESP_MOUNT_POINT : string := "/" +:+ ESP_LABEL.
Definition CAPSULE_BIN_FILE : string := ESP_MOUNT_POINT +:+ "/BiosUpdate.fv".
Definition ESP_FS_TYPE : string := "vfat".
Definition ULPMC_PATH : string := "/dev/ulpmc-fwupdate".

#[local] Close Scope string_scope.

Definition EEXIST : Z := 17.
Definition EBUSY : Z := 16.

Definition is_edk2 : M bool := has_device ESP_LABEL.

Section Esp.
Context (sys_mkdir : string -> M Z) (sys_mount : string -> string -> string -> M Z).

Definition ensure_esp_mounted : M Z :=
  let! path := get_device_path (Some ESP_LABEL) in
  match path with
  | None => ret (-1)
  | Some path =>
      let! r := sys_mkdir ESP_MOUNT_POINT in
      let! errno := get_errno in
      if (r =? -1) && negb (errno =? EEXIST) then ret r else
      let! r := sys_mount path ESP_MOUNT_POINT ESP_FS_TYPE in
      let! errno := get_errno in
      if (r =? -1) && negb (errno =? EBUSY) then ret r
      else ret (if errno =? EBUSY then 0 else r)
  end.

Definition flash_capsule_esp (data : bytes) : M Z :=
  let! r := ensure_esp_mounted in
  if truthy r then ret r else
  let! r := file_write CAPSULE_BIN_FILE data in
  if truthy r then ret r else ret 0.

Section Zip.
Context {archive : Type} (mzOpenZipArchive : bytes -> M (Z * archive)) (mzExtractRecursive : archive -> string -> M bool).

Definition flash_esp_update (data : bytes) : M Z :=
  let! r := ensure_esp_mounted in
  if truthy r then ret r else
  let! (r, za) := mzOpenZipArchive data in
  if truthy r then ret r else
  let! success := mzExtractRecursive za ESP_MOUNT_POINT in
  ret (if success then 0 else 1).
End Zip.
End Esp.

Definition flash_ulpmc (data : bytes) : M Z :=
  let! r := file_write ULPMC_PATH data in ret (if truthy r then -1 else 0).
