(* ===== verification/Flash.v ===== *)
(** * Choosing a backend (flash.c, flash_ops.c, flash_ops.h and the tables of the backends)

    Every operation looks up the table of the backend that the device has and calls the function in
    it, or answers -1 when there is no backend or no function.  Which backends are compiled in is
    decided when the tools are built. *)

From stdpp Require Import base list numbers gmap strings.
From Stdlib Require Import ZArith Lia.
From S2P Require Import Prelude Posix Bootloader GptImage Capsule ScuIpc IfwiEmmc Osip.

(** ** Tables of operations; [None] is a null pointer *)

Record bootimage_operations := mkBootimageOps {
  op_flash_image : option (bytes -> string -> M Z);
  op_read_image : option (string -> M (Z * option bytes));
  op_read_image_signature : option (string -> M (Z * option bytes));
  op_is_image_signed : option (string -> M Z)
}.

Record ifwi_operations := mkIfwiOps {
  op_flash_ifwi : option (bytes -> M Z);
  op_flash_dnx : option (bytes -> M Z);
  op_update_ifwi_image : option (bytes -> Z -> M Z);
  op_update_ifwi_file : option (bytes -> M Z);
  op_check_ifwi_file : option (bytes -> M Z);
  op_flash_token_umip : option (bytes -> M Z);
  op_erase_token_umip : option (M Z);
  op_flash_custom_boot : option (bytes -> M Z);
  op_flash_dnx_timeout : option (bytes -> M Z);
  op_read_dnx_timeout : option (M Z)
}.

Record capsule_operations := mkCapsuleOps { op_flash_capsule : option (option bytes -> M Z) }.

Definition stub_operation : M Z := ret (-1).

(** [CONFIG_INTELPROV_...] *)
Record config := mkConfig {
  has_gpt : bool; has_osip : bool; has_scu_ipc : bool; has_scu_emmc : bool; has_edk2 : bool; has_fdk : bool
}.

Section Flash.
Context (cfg : config).
(** The format of boot images, the memory [malloc] returns and the bytes of unset variables. *)
Context (fmt : boot_img_format) (heap : Z -> bytes) (unset : bytes).
(** Calls of the kernel and properties of the system. *)
Context (property_get : string -> bytes -> bytes) (ioctl_fw_upgrade : Z -> bytes -> M Z).
Context (sys_mkdir : string -> M Z) (sys_mount : string -> string -> string -> M Z).

Definition size_of (data : bytes) : Z := Z.of_nat (length data).

(** A backend that is not compiled in is a set of stubs; its test answers false. *)
Definition gpt_bootimage_operations : bootimage_operations :=
  if has_gpt cfg then
    mkBootimageOps (Some flash_image_gpt) (Some (read_image_gpt fmt)) (Some read_image_signature_gpt) (Some is_image_signed_gpt)
  else
    mkBootimageOps (Some (fun _ _ => stub_operation)) (Some (fun _ => let! r := stub_operation in ret (r, None)))
      (Some (fun _ => let! r := stub_operation in ret (r, None))) (Some (fun _ => stub_operation)).

Definition osip_bootimage_operations : bootimage_operations :=
  if has_osip cfg then
    mkBootimageOps (Some (fun data name => flash_image_osip data (size_of data) name))
      (Some (fun name => read_image_osip heap (Some name))) (Some (fun name => read_image_signature_osip unset (Some name)))
      (Some (fun _ => is_image_signed_osip))
  else
    mkBootimageOps (Some (fun _ _ => stub_operation)) (Some (fun _ => let! r := stub_operation in ret (r, None)))
      (Some (fun _ => let! r := stub_operation in ret (r, None))) (Some (fun _ => stub_operation)).

Definition scu_ipc_ifwi_operations : ifwi_operations :=
  if has_scu_ipc cfg then
    mkIfwiOps (Some (fun data => flash_ifwi_scu_ipc data (size_of data))) (Some flash_dnx_scu_ipc)
      (Some (fun data reset_flag => update_ifwi_image_scu_ipc ioctl_fw_upgrade data (size_of data) reset_flag))
      None None None None None None None
  else mkIfwiOps (Some (fun _ => stub_operation)) (Some (fun _ => stub_operation)) (Some (fun _ _ => stub_operation))
         None None None None None None None.

(** Without the backend the file does not compile: its stubs are macros that are not expressions. *)
Definition scu_emmc_ifwi_operations : ifwi_operations :=
  mkIfwiOps (Some (fun data => flash_ifwi_scu_emmc data (size_of data))) (Some (fun data => flash_dnx_scu_emmc data (size_of data)))
    None (Some (fun data => update_ifwi_file_scu_emmc data (size_of data)))
    (Some (fun data => check_ifwi_file_scu_emmc data (size_of data)))
    (Some (fun data => flash_token_umip_scu_emmc data (size_of data))) (Some (erase_token_umip_scu_emmc [] 0))
    (Some (fun data => flash_custom_boot_scu_emmc data (size_of data)))
    (Some (fun data => flash_dnx_timeout_scu_emmc data (size_of data))) (Some read_dnx_timeout_scu_emmc).

Definition edk2_capsule_operations : capsule_operations :=
  mkCapsuleOps (Some (fun data => if has_edk2 cfg then flash_capsule_esp sys_mkdir sys_mount (default [] data) else stub_operation)).

Definition fdk_capsule_operations : capsule_operations :=
  mkCapsuleOps (Some (fun data => if has_fdk cfg
                                  then flash_capsule_fdk property_get data (size_of (default [] data)) else stub_operation)).

(** ** flash_ops.c *)

Definition test (compiled : bool) (probe : M bool) : M bool := if compiled then probe else ret false.

Definition bootimage_ops : M (option bootimage_operations) :=
  let! gpt := test (has_gpt cfg) is_gpt in
  if gpt then ret (Some gpt_bootimage_operations) else
  let! osip := test (has_osip cfg) is_osip in
  if osip then ret (Some osip_bootimage_operations) else ret None.

Definition ifwi_ops : option ifwi_operations :=
  if has_scu_ipc cfg && is_scu_ipc property_get then Some scu_ipc_ifwi_operations
  else if has_scu_emmc cfg && is_scu_emmc property_get then Some scu_emmc_ifwi_operations else None.

Definition capsule_ops : M (option capsule_operations) :=
  let! edk2 := test (has_edk2 cfg) is_edk2 in
  if edk2 then ret (Some edk2_capsule_operations) else
  let! fdk := test (has_fdk cfg) is_fdk in
  if fdk then ret (Some fdk_capsule_operations) else ret None.

(** ** flash.c *)

(** [ops_call(op, func, ...)] *)
Definition ops_call {O F A} (ops : option O) (func : O -> option F) (call : F -> M A) (stub : A) : M A :=
  match o ← ops; func o with
  | Some f => call f
  | None => ret stub
  end.

Definition flash_dnx_timeout (data : bytes) : M Z := ops_call ifwi_ops op_flash_dnx_timeout (fun f => f data) (-1).
Definition read_dnx_timeout : M Z := ops_call ifwi_ops op_read_dnx_timeout (fun f => f) (-1).
Definition erase_token_umip : M Z := ops_call ifwi_ops op_erase_token_umip (fun f => f) (-1).
Definition flash_custom_boot (data : bytes) : M Z := ops_call ifwi_ops op_flash_custom_boot (fun f => f data) (-1).
Definition flash_token_umip (data : bytes) : M Z := ops_call ifwi_ops op_flash_token_umip (fun f => f data) (-1).
Definition update_ifwi_image (data : bytes) (reset_flag : Z) : M Z :=
  ops_call ifwi_ops op_update_ifwi_image (fun f => f data reset_flag) (-1).
Definition update_ifwi_file (data : bytes) : M Z := ops_call ifwi_ops op_update_ifwi_file (fun f => f data) (-1).
Definition check_ifwi_file (data : bytes) : M Z := ops_call ifwi_ops op_check_ifwi_file (fun f => f data) (-1).
Definition flash_ifwi (data : bytes) : M Z := ops_call ifwi_ops op_flash_ifwi (fun f => f data) (-1).
Definition flash_dnx (data : bytes) : M Z := ops_call ifwi_ops op_flash_dnx (fun f => f data) (-1).

Definition flash_capsule (data : option bytes) : M Z :=
  let! ops := capsule_ops in ops_call ops op_flash_capsule (fun f => f data) (-1).

Definition flash_image (data : bytes) (name : string) : M Z :=
  let! ops := bootimage_ops in ops_call ops op_flash_image (fun f => f data name) (-1).
Definition read_image (name : string) : M (Z * option bytes) :=
  let! ops := bootimage_ops in ops_call ops op_read_image (fun f => f name) (-1, None).
Definition read_image_signature (name : string) : M (Z * option bytes) :=
  let! ops := bootimage_ops in ops_call ops op_read_image_signature (fun f => f name) (-1, None).
Definition is_image_signed (name : string) : M Z :=
  let! ops := bootimage_ops in ops_call ops op_is_image_signed (fun f => f name) (-1).

Definition flash_android_kernel (data : bytes) : M Z := flash_image data ANDROID_OS_NAME.
Definition flash_recovery_kernel (data : bytes) : M Z := flash_image data RECOVERY_OS_NAME.
Definition flash_fastboot_kernel (data : bytes) : M Z := flash_image data FASTBOOT_OS_NAME.
Definition flash_splashscreen_image1 (data : bytes) : M Z := flash_image data SPLASHSCREEN_NAME.
Definition flash_splashscreen_image2 (data : bytes) : M Z := flash_image data SPLASHSCREEN_NAME2.
Definition flash_splashscreen_image3 (data : bytes) : M Z := flash_image data SPLASHSCREEN_NAME3.
Definition flash_splashscreen_image4 (data : bytes) : M Z := flash_image data SPLASHSCREEN_NAME4.
Definition flash_silent_binary (data : bytes) : M Z := flash_image data SILENT_BINARY_NAME.
Definition flash_esp (data : bytes) : M Z := flash_image data ESP_PART_NAME.
Definition flash_testos (data : bytes) : M Z := flash_image data TEST_OS_NAME.
Definition flash_ramdump (data : bytes) : M Z := flash_image data RAMDUMP_OS_NAME.
End Flash.
