(* ===== verification/FlashSpec.v ===== *)
(** * Theorems about the choice of a backend

    With the partitions as the only backend for images, the operations of flash.c are a store of
    images, too; an operation that no backend has answers -1. *)

From stdpp Require Import base list numbers gmap strings.
From Stdlib Require Import ZArith Lia.
From S2P Require Import Prelude Posix Util UtilSpec Bootloader GptImage ImageStore GptImageSpec Capsule ScuIpc IfwiEmmc Osip Flash.

Section Dispatch.
Context (cfg : config) (fmt : boot_img_format) (heap : Z -> bytes) (unset : bytes).
Context (Hgpt : has_gpt cfg = true) (Hosip : has_osip cfg = false).

#[local] Abbreviation flash := (flash_image cfg fmt heap unset).
#[local] Abbreviation read := (read_image cfg fmt heap unset).

(** The partition that tells the backend is there. *)
Definition probed (w : world) : Prop := exists q, q ∈ candidates "fastboot" /\ block_device w q.

Lemma probed_device w : probed w -> is_Some (device_of w "fastboot").
Proof using Type.
  intros (q & Hq & Hb). unfold device_of.
  assert (Hin : q ∈ filter (block_device w) (candidates "fastboot")) by (by apply list_elem_of_filter).
  destruct (filter _ _) as [|x xs]; [by apply elem_of_nil in Hin|]. by exists x.
Qed.

Lemma wp_bootimage_ops {B} (Q : outcome B -> world -> Prop) kont w :
  steady w -> probed w ->
  (forall w', unmoved w w' -> steady w' -> ~ quiet w -> wp Q (kont None) w') ->
  (forall w', unmoved w w' -> steady w' -> wp Q (kont (Some (gpt_bootimage_operations cfg fmt))) w') ->
  wp Q (bind (bootimage_ops cfg fmt heap unset) kont) w.
Proof using Hgpt Hosip.
  intros Hs Hp H1 H2. unfold bootimage_ops, test. rewrite Hgpt, Hosip. unfold is_gpt, has_device. apply wp_assoc, wp_assoc.
  destruct (get_device_path_spec "fastboot" w Hs) as (r & w' & E & Hu & Hs' & _ & Hq).
  apply wp_bind. unfold wp at 1. rewrite E. simpl. apply wp_bind, wp_ret. destruct r as [q|]; simpl.
  - apply wp_bind, wp_ret. by apply H2.
  - apply wp_assoc, wp_bind, wp_ret. apply wp_bind, wp_ret. apply H1; [done|done|].
    intros H. destruct (probed_device w Hp) as [x Hx]. specialize (Hq H). congruence.
Qed.

Definition flash_holds (w : world) (m : gmap string bytes) : Prop := gpt_holds fmt w m /\ probed w.

Lemma flash_holds_unmoved w w' m : unmoved w w' -> steady w' -> flash_holds w m -> flash_holds w' m.
Proof using Type.
  intros Hu Hs [Hm (q & Hq & Hb)]. split; [by eapply gpt_holds_files; [apply Hu|..]|].
  exists q. split; [done|]. by apply (block_device_unmoved w w').
Qed.

Lemma quiet_unmoved w w' : unmoved w w' -> ~ quiet w' -> ~ quiet w.
Proof using Type. intros (_ & _ & H) Hn Hq. auto. Qed.

Lemma gpt_accepts_unmoved w w' name img : unmoved w w' -> gpt_accepts fmt w name img -> gpt_accepts fmt w' name img.
Proof using Type.
  intros (E & _) (Hi & p & s & d & Hl & Hd). split; [done|]. exists p, s, d. split; [by eapply located_files|done].
Qed.

Lemma flash_image_refines w m name img :
  flash_holds w m -> gpt_accepts fmt w name img ->
  wp (fun o w' => exists r, o = Ret r /\ (quiet w -> quiet w') /\
        (r = 0 /\ flash_holds w' (<[gpt_name name := img]> m) \/
         r = -1 /\ ~ quiet w /\ flash_holds w' (delete (gpt_name name) m))) (flash img name) w.
Proof using Hgpt Hosip.
  intros [Hm Hp] Ha. unfold flash_image. apply wp_bootimage_ops; [apply Hm|done| |].
  - intros w' Hu Hs Hq. apply wp_ret. exists (-1). split; [done|]. split; [apply Hu|]. right. split; [done|]. split; [done|].
    apply (flash_holds_unmoved w); [done|done|]. split; [|done]. eapply gpt_holds_subset; [done|]. apply delete_subseteq.
  - intros w1 Hu Hs. unfold ops_call, gpt_bootimage_operations. rewrite Hgpt. simpl.
    destruct (flash_holds_unmoved w w1 m Hu Hs (conj Hm Hp)) as [Hm1 (q & Hq & Hb)].
    eapply wp_mono; [apply (gpt_flash_refines fmt w1 m name img Hm1), (gpt_accepts_unmoved w); done|].
    intros o w2 (r & -> & Hq2 & Hbl & Hr). exists r. split; [done|]. split; [intros H; apply Hq2; by apply Hu|].
    assert (Hp2 : probed w2) by (exists q; split; [done|]; by apply Hbl).
    destruct Hr as [[-> H]|(-> & Hnq & H)]; [by left|]. right. split; [done|]. split; [by eapply quiet_unmoved|done].
Qed.

Lemma read_image_refines w m name img :
  flash_holds w m -> m !! name = Some img ->
  wp (fun o w' => exists r b, o = Ret (r, b) /\ (quiet w -> quiet w') /\ flash_holds w' m /\ w_files w' = w_files w /\
        (r = Z.of_nat (length img) /\ b = Some img \/ r = -1 /\ b = None /\ ~ quiet w)) (read name) w.
Proof using Hgpt Hosip.
  intros [Hm Hp] Hn. unfold read_image. apply wp_bootimage_ops; [apply Hm|done| |].
  - intros w' Hu Hs Hq. apply wp_ret. exists (-1), None. split; [done|]. split; [apply Hu|].
    split; [by apply (flash_holds_unmoved w)|]. split; [apply Hu|by right].
  - intros w1 Hu Hs. unfold ops_call, gpt_bootimage_operations. rewrite Hgpt. simpl.
    destruct (flash_holds_unmoved w w1 m Hu Hs (conj Hm Hp)) as [Hm1 (q & Hq & Hb)].
    eapply wp_mono; [by apply (gpt_read_refines fmt w1 m name img Hm1)|].
    intros o w2 (r & b & -> & Hq2 & Hm2 & Hf & Hr). exists r, b. split; [done|]. split; [intros H; apply Hq2; by apply Hu|].
    split; [split; [done|]; exists q; split; [done|]; unfold block_device in *; by rewrite Hf|].
    split; [destruct Hu; congruence|].
    destruct Hr as [H|(-> & -> & Hnq)]; [by left|]. right. split; [done|]. split; [done|by eapply quiet_unmoved].
Qed.

#[global, refine] Instance dispatch_store : ImageStore flash read :=
  {| holds := flash_holds; accepts := gpt_accepts fmt; canonical := gpt_name |}.
Proof using Hgpt Hosip.
  - intros w m [Hm _]. apply Hm.
  - intros w w' m E Hs [Hm (q & Hq & Hb)]. split; [by eapply gpt_holds_files|]. exists q. split; [done|].
    unfold block_device in *. by rewrite E.
  - intros w w' name img E (Hi & p & s & d & Hl & Hd). split; [done|]. exists p, s, d. split; [by eapply located_files|done].
  - intros w m m' [Hm Hp] Hs. split; [by eapply gpt_holds_subset|done].
  - apply flash_image_refines.
  - apply read_image_refines.
Defined.

End Dispatch.

(** An operation of the firmware that no backend of the device has answers -1 and does nothing. *)
Lemma missing_operation {O F A} (ops : option O) (func : O -> option F) (call : F -> M A) stub w :
  (o ← ops; func o) = None -> ops_call ops func call stub w = (Ret stub, w).
Proof. unfold ops_call. by intros ->. Qed.
