(* ===== verification/Recovery.v ===== *)
(** * Updating the recovery image (update_recovery.c)

    The recovery image is made from the boot image by a patch when its digest is not the one
    expected.  The digest, the parser of digests and the patch engine belong to other libraries and
    are parameters; so are the options, which [getopt_long] has parsed, and the operations on images,
    which are those of flash.c.  [ssize_t] and [unsigned] have 32 bits; log messages are left out. *)

From stdpp Require Import base list numbers gmap strings.
From Stdlib Require Import ZArith Lia.
From S2P Require Import Prelude Posix Util Bootloader Osip.

Definition TGT_SIZE_MAX : Z := LBA_SIZE * OS_MAX_LBA.

(** ** The sink of the patch engine *)

Record MemorySinkInfo := mkSink { buffer : bytes; size : Z; pos : Z }.

(** The number of bytes taken, or -1 when they do not fit. *)
Definition MemorySink (msi : MemorySinkInfo) (data : bytes) : MemorySinkInfo * Z :=
  let len := Z.of_nat (length data) in
  if size msi - pos msi <? len then (msi, -1)
  else (mkSink (splice (Z.to_nat (pos msi)) data (buffer msi)) (size msi) (pos msi + len), len).

(** The options. *)
Record options := mkOptions {
  src_sha1 : option string; tgt_sha1 : option string; check_sha1 : option string; patch_file : option string; tgt_size : Z
}.

Section Recovery.
(** flash.c *)
Context (flash_image : bytes -> string -> M Z) (read_image : string -> M (Z * option bytes)).
Context (read_image_signature : string -> M (Z * option bytes)) (is_image_signed : string -> M Z).
(** mincrypt and applypatch: digests have 20 bytes; the engine reads the source and the patch and
    passes what it makes to the sink. *)
Context (SHA_hash : bytes -> bytes) (ParseSha1 : string -> option bytes).
Context (ApplyImagePatch : bytes -> bytes -> forall token, (token -> bytes -> token * Z) -> token -> token * Z).
(** What [malloc] returns. *)
Context (heap : Z -> bytes).

Definition flash_recovery_kernel (data : bytes) : M Z := flash_image data RECOVERY_OS_NAME.

(** The return value and [needs_patching], which is set when the value is 0. *)
Definition check_recovery_header (tgt_sha1 : string) : M (Z * bool) :=
  match ParseSha1 tgt_sha1 with
  | None => ret (-1, false)
  | Some tgt_digest =>
      let! (sig_size, buf) := read_image_signature RECOVERY_OS_NAME in
      if sig_size =? -1 then ret (-1, false) else
      match buf with
      | None => undefined
      | Some buf => ret (0, negb (bool_decide (SHA_hash (take (Z.to_nat sig_size) buf) = tgt_digest)))
      end
  end.

Definition check_recovery_image (tgt_sha1 : string) : M (Z * bool) :=
  match ParseSha1 tgt_sha1 with
  | None => ret (-1, false)
  | Some expected_tgt_digest =>
      let! (sz, data) := read_image RECOVERY_OS_NAME in
      if sz =? -1 then ret (0, true) else
      match data with
      | None => undefined
      | Some data => ret (0, negb (bool_decide (SHA_hash (take (Z.to_nat sz) data) = expected_tgt_digest)))
      end
  end.

(** Behind the label [out] the function returns 0, whatever happened.  The image that is read from
    the recovery partition is not used. *)
Definition patch_recovery (src_sha1 tgt_sha1 : string) (tgt_size : Z) (patchfile : string) : M Z :=
  match ParseSha1 src_sha1, ParseSha1 tgt_sha1 with
  | Some expected_src_digest, Some expected_tgt_digest =>
      let! (src_size, src_data) := read_image ANDROID_OS_NAME in
      let! _ := read_image RECOVERY_OS_NAME in
      if src_size =? -1 then ret (-1) else
      match src_data with
      | None => undefined
      | Some src_data =>
          let src_data := take (Z.to_nat src_size) src_data in
          if negb (bool_decide (SHA_hash src_data = expected_src_digest)) then ret 0 else
          if TGT_SIZE_MAX <? tgt_size then ret 0 else
          let! ok := sys_malloc tgt_size in
          if negb ok then ret 0 else
          let msi := mkSink (heap tgt_size) tgt_size 0 in
          let! (r, patchval) := file_read patchfile true in
          if truthy r then ret 0 else
          let '(msi, r) := ApplyImagePatch src_data (default [] patchval) MemorySinkInfo MemorySink msi in
          if truthy r then ret 0 else
          let image := take (Z.to_nat (size msi)) (buffer msi) in
          if negb (bool_decide (SHA_hash image = expected_tgt_digest)) then ret 0 else
          flash_recovery_kernel image ;; ret 0
      end
  | _, _ => ret (-1)
  end.

(** [main], behind the options. *)
Definition update_recovery (o : options) : M Z :=
  let! signed_image := is_image_signed RECOVERY_OS_NAME in
  if signed_image =? -1 then exit 1 else
  let! needs_patching :=
    match check_sha1 o with
    | Some check_sha1 =>
        if signed_image =? 0 then
          match tgt_sha1 o with
          | Some tgt_sha1 => let! (r, needs) := check_recovery_image tgt_sha1 in if truthy r then exit 1 else ret needs
          | None => exit 1
          end
        else let! (r, needs) := check_recovery_header check_sha1 in if truthy r then exit 1 else ret needs
    | None =>
        match tgt_sha1 o with
        | Some tgt_sha1 => let! (r, needs) := check_recovery_image tgt_sha1 in if truthy r then exit 1 else ret needs
        | None => exit 1
        end
    end in
  match src_sha1 o, tgt_sha1 o, patch_file o with
  | Some src_sha1, Some tgt_sha1, Some patch_file =>
      if negb (tgt_size o =? 0) && needs_patching then
        let! r := patch_recovery src_sha1 tgt_sha1 (tgt_size o) patch_file in
        if truthy r then exit 1 else ret 0
      else ret 0
  | _, _, _ => ret 0
  end.
End Recovery.
