(* ===== verification/RecoverySpec.v ===== *)
(** * Theorems about updating the recovery image

    Proved for any store of images, and used with the one of flash.c. *)

From stdpp Require Import base list numbers gmap strings.
From Stdlib Require Import ZArith Lia.
From S2P Require Import Prelude Posix Drive DriveSpec Util UtilSpec Bootloader Osip GptImage ImageStore Recovery.

(** ** The sink *)

(** The sink never leaves its buffer. *)
Definition sink_ok (n : nat) (msi : MemorySinkInfo) : Prop :=
  length (buffer msi) = n /\ size msi = Z.of_nat n /\ 0 <= pos msi <= Z.of_nat n.

(** [MemorySink] takes data exactly when it fits behind what was taken before, never writes
    outside its buffer, appends what it takes, and changes nothing when it refuses. *)
Theorem MemorySink_appends n msi data :
  sink_ok n msi ->
  let '(msi', r) := MemorySink msi data in
  sink_ok n msi' /\
  (if decide (pos msi + Z.of_nat (length data) <= size msi)
   then r = Z.of_nat (length data) /\ take (Z.to_nat (pos msi')) (buffer msi') = take (Z.to_nat (pos msi)) (buffer msi) ++ data
   else r = -1 /\ msi' = msi).
Proof.
  intros (H1 & H2 & H3). unfold MemorySink.
  destruct (Z.ltb_spec (size msi - pos msi) (Z.of_nat (length data))) as [Hlt|Hge].
  - split; [done|]. rewrite decide_False by lia. done.
  - rewrite decide_True by lia. split; [split; [|simpl; lia]|split; [done|]].
    + simpl. rewrite length_splice; lia.
    + simpl. unfold splice. rewrite app_assoc, take_app_le by len. apply take_ge. len.
Qed.

(** ** Patching *)

Section Patch.
Context {flash : bytes -> string -> M Z} {read : string -> M (Z * option bytes)} {store : ImageStore flash read}.
Context (SHA_hash : bytes -> bytes) (ParseSha1 : string -> option bytes).
Context (ApplyImagePatch : bytes -> bytes -> forall token, (token -> bytes -> token * Z) -> token -> token * Z).
Context (heap : Z -> bytes).

#[local] Abbreviation patch := (patch_recovery flash read SHA_hash ParseSha1 ApplyImagePatch heap).

(** The image that the patch makes of [boot], when its digest is the one expected. *)
Definition patched (boot patch target : bytes) (n : Z) : option bytes :=
  let '(msi, r) := ApplyImagePatch boot patch MemorySinkInfo MemorySink (mkSink (heap n) n 0) in
  let image := take (Z.to_nat (size msi)) (buffer msi) in
  if decide (r = 0 /\ SHA_hash image = target) then Some image else None.

Lemma patched_digest boot p target n image : patched boot p target n = Some image -> SHA_hash image = target.
Proof using Type. unfold patched. destruct (ApplyImagePatch _ _ _ _ _) as [msi r]. case_decide as H; [|done]. intros [= <-]. apply H. Qed.

(** One of the images is read. *)
Lemma wp_read_stored {B} (Q : outcome B -> world -> Prop) kont w m name img :
  holds w m -> m !! name = Some img ->
  (forall w', holds w' m -> w_files w' = w_files w -> (quiet w -> quiet w') ->
     wp Q (kont (Z.of_nat (length img), Some img)) w') ->
  (forall w', holds w' m -> w_files w' = w_files w -> ~ quiet w -> wp Q (kont (-1, None)) w') ->
  wp Q (bind (read name) kont) w.
Proof using Type.
  intros Hm Hn H1 H2. apply wp_bind. eapply wp_mono; [by apply (read_refines w m name img)|].
  intros o w' (r & b & -> & Hq & Hm' & Hf & [[-> ->]|(-> & -> & Hnq)]); auto.
Qed.

Lemma TGT_SIZE_MAX_pos : 0 < TGT_SIZE_MAX.
Proof using Type. done. Qed.

(** What is left behind the label [out]: 0 is returned, and either nothing was flashed, for one of
    the reasons, or the recovery image was replaced or lost. *)
Definition patch_post (w : world) (m : gmap string bytes) (boot p source target : bytes) (n : Z) (o : outcome Z) (w' : world) : Prop :=
  exists r, o = Ret r /\ (r = 0 \/ r = -1 /\ ~ quiet w) /\
    ((holds w' m /\ (quiet w -> SHA_hash boot <> source \/ TGT_SIZE_MAX < n \/ patched boot p target n = None)) \/
     exists image, SHA_hash boot = source /\ n <= TGT_SIZE_MAX /\ patched boot p target n = Some image /\
       (holds w' (<[canonical "recovery" := image]> m) \/ ~ quiet w /\ holds w' (delete (canonical "recovery") m))).

Lemma patch_post_none w m boot p source target n r w' :
  holds w' m -> (r = 0 \/ r = -1 /\ ~ quiet w) ->
  (quiet w -> SHA_hash boot <> source \/ TGT_SIZE_MAX < n \/ patched boot p target n = None) ->
  patch_post w m boot p source target n (Ret r) w'.
Proof using Type. intros Hm Hr H. exists r. split; [done|]. split; [done|]. by left. Qed.

(** The second half: the patch is read and applied, and the result flashed. *)
Lemma wp_apply_patch w w1 m boot source target n patchfile p :
  holds w1 m -> w_files w1 !! patchfile = Some (mkFile Regular p) -> (quiet w -> quiet w1) ->
  SHA_hash boot = source -> 0 <= n <= TGT_SIZE_MAX ->
  (forall w' image, w_files w' = w_files w1 -> patched boot p target n = Some image -> accepts w' "recovery" image) ->
  wp (patch_post w m boot p source target n)
    (let! (r, patchval) := file_read patchfile true in
     if truthy r then ret 0 else
     let '(msi, r) := ApplyImagePatch boot (default [] patchval) MemorySinkInfo MemorySink (mkSink (heap n) n 0) in
     if truthy r then ret 0 else
     let image := take (Z.to_nat (size msi)) (buffer msi) in
     if negb (bool_decide (SHA_hash image = target)) then ret 0 else
     flash_recovery_kernel flash image ;; ret 0) w1.
Proof using Type.
  clear ParseSha1. intros Hm Hp Hq Hsrc Hn Hacc. apply (wp_file_read _ _ patchfile p); [by eapply holds_steady|done| |].
  - intros w2 Hd. cbn [truthy Z.eqb negb default]. 
    assert (Hf : w_files w2 = w_files w1) by (destruct Hd as [-> _ _ _]; by apply insert_id).
    assert (Hm2 : holds w2 m) by (eapply holds_files; [exact Hf|apply Hd|done]).
    specialize (Hacc w2). unfold patch_post, patched in *. simpl default.
    destruct (ApplyImagePatch _ _ _ _ _) as [msi r]. unfold truthy. destruct (Z.eqb_spec r 0) as [->|Hr]; cbn [negb].
    2:{ apply wp_ret. exists 0. split; [done|]. split; [by left|]. left. split; [done|]. intros _. right. right.
        by rewrite decide_False by tauto. }
    case_bool_decide as Hsha; cbn [negb].
    2:{ apply wp_ret. exists 0. split; [done|]. split; [by left|]. left. split; [done|]. intros _. right. right.
        by rewrite decide_False by tauto. }
    rewrite decide_True in * by done. specialize (Hacc _ Hf eq_refl). apply wp_bind.  unfold flash_recovery_kernel.
    eapply wp_mono; [by apply (flash_refines w2 m)|]. intros o w3 (r & -> & _ & Hr). apply wp_ret.
    exists 0. split; [done|]. split; [by left|]. right. eexists. split; [done|]. split; [lia|]. split; [done|].
    destruct Hr as [[_ H]|(_ & Hnq & H)]; [by left|right]. split; [|done]. intros H0. apply Hnq, Hd, Hq, H0.
  - intros w2 Hd Hnq. apply wp_ret. apply patch_post_none; [|by left|intros H; destruct Hnq; auto].
    eapply holds_files; [|apply Hd|exact Hm]. destruct Hd as [-> _ _ _]. by apply insert_id.
Qed.

(** C6: Whatever fails, the only image [patch_recovery] replaces is the recovery image, and only by
    the one that the patch makes of the boot image, when the boot image has the digest of the source
    and the result that of the target; without a failing call it does so whenever these conditions
    hold and the image is not too large.  Once the boot image was read, 0 is returned in any case. *)
Theorem patch_recovery_installs_target w m boot old src_sha1 tgt_sha1 source target n patchfile p :
  holds w m -> m !! "boot"%string = Some boot -> m !! "recovery"%string = Some old ->
  ParseSha1 src_sha1 = Some source -> ParseSha1 tgt_sha1 = Some target -> 0 <= n ->
  w_files w !! patchfile = Some (mkFile Regular p) ->
  (forall w' image, w_files w' = w_files w -> patched boot p target n = Some image -> accepts w' "recovery" image) ->
  wp (patch_post w m boot p source target n) (patch src_sha1 tgt_sha1 n patchfile) w.
Proof using Type.
  intros Hm Hb Hr Hps Hpt Hn Hp Hacc. unfold patch_recovery. rewrite Hps, Hpt.
  eapply wp_read_stored; [exact Hm|exact Hb| |].
  2:{ intros w1 Hm1 Hf1 Hq1. apply wp_bind. eapply wp_mono; [by apply (read_refines w1 m "recovery" old)|].
      intros o w2 (r & b & -> & _ & Hm2 & _). apply wp_ret. apply patch_post_none; [done|by right|done]. }
  intros w1 Hm1 Hf1 Hq1. apply wp_bind. eapply wp_mono; [by apply (read_refines w1 m "recovery" old)|].
  intros o w2 (r & b & -> & Hq2 & Hm2 & Hf2 & _). rewrite (proj2 (Z.eqb_neq (Z.of_nat (length boot)) (-1))) by lia.
  rewrite Nat2Z.id, firstn_all.
  case_bool_decide as Hsrc; cbn [negb].
  2:{ apply wp_ret. apply patch_post_none; [done|by left|by left]. }
  destruct (Z.ltb_spec TGT_SIZE_MAX n) as [Hbig|Hsmall].
  { apply wp_ret. apply patch_post_none; [done|by left|by right; left]. }
  apply wp_malloc_any; [by eapply holds_steady|]. intros w3 ok Hu Hs3 Hok.
  assert (Hf3 : w_files w3 = w_files w) by (destruct Hu; congruence).
  assert (Hm3 : holds w3 m) by (eapply holds_files; [apply Hu|done|done]).
  assert (Hq3 : quiet w -> quiet w3) by (destruct Hu as (_ & _ & H); auto).
  destruct ok; cbn [negb].
  - eapply (wp_apply_patch w w3); try done; [by rewrite Hf3|]. intros w' image E. apply Hacc. congruence.
  - apply wp_ret. apply patch_post_none; [done|by left|]. intros H. assert (false = true) by auto. done.
Qed.
End Patch.
