(* ===== verification/FlashSample.v ===== *)
(** * Images on a concrete device

    The theorems about images on labelled partitions, flash.c and update_recovery.c applied to a
    device with links to its partitions and to a patch engine that copies the patch. *)

From stdpp Require Import base list numbers gmap strings.
From Stdlib Require Import ZArith Lia.
From S2P Require Import Prelude Posix GuidStr Util Osip UtilSpec Bootloader GptImage ImageStore GptImageSpec Flash FlashSpec.
From S2P Require Import Recovery RecoverySpec.

(** The header of bootimg.h. *)
Definition aosp_format : boot_img_format := {|
  sizeof_boot_img_hdr := 608; BOOT_MAGIC := str "ANDROID!"; hdr_magic := take 8;
  page_size := getn 4 36; kernel_size := getn 4 8; ramdisk_size := getn 4 16; second_size := getn 4 24
|}.

(** One page of header and one of kernel, of 1024 bytes each; [fill] is the kernel. *)
Definition a_boot_image (fill : Z) : bytes :=
  str "ANDROID!" ++ le_enc 4 700 ++ replicate 24 0 ++ le_enc 4 1024 ++ replicate 984 0 ++ replicate 1024 fill.

Definition device_world : world :=
  mkWorld {["/dev/block/by-name/fastboot"%string := mkFile (Block 512) (replicate 16 0);
            "/dev/block/by-name/boot"%string := mkFile (Block 512) (a_boot_image 1 ++ replicate 100 9);
            "/dev/disk/by-label/recovery"%string := mkFile (Block 512) (a_boot_image 2)]} ∅ [] 0.

Definition device_images : gmap string bytes :=
  {["boot"%string := a_boot_image 1; "recovery"%string := a_boot_image 2]}.

Lemma a_boot_image_ok fill : boot_image aosp_format (a_boot_image fill).
Proof.
  split.
  - change (length (a_boot_image fill)) with 2048%nat. simpl. lia.
  - reflexivity.
  - change (length (a_boot_image fill)) with 2048%nat. reflexivity.
  - change (length (a_boot_image fill)) with 2048%nat. lia.
Qed.

(** The only device that has a name. *)
Ltac locate :=
  split; [vm_compute; set_solver|]; split; [reflexivity|];
  intros q Hq (s & d & E); unfold candidates, PREFIXES in Hq; cbn [fmap list_fmap] in Hq;
  rewrite !elem_of_cons, elem_of_nil in Hq; destruct Hq as [->|[->|[->|[]]]];
  first [done | exfalso; clear - E; apply (f_equal (fun o => bool_decide (is_Some o))) in E; vm_compute in E; congruence].

Lemma boot_located : located device_world "boot" "/dev/block/by-name/boot" 512 (a_boot_image 1 ++ replicate 100 9).
Proof. locate. Qed.

Lemma recovery_located : located device_world "recovery" "/dev/disk/by-label/recovery" 512 (a_boot_image 2 ++ []).
Proof. rewrite app_nil_r. locate. Qed.

Lemma device_holds : gpt_holds aosp_format device_world device_images.
Proof.
  split; [split; [by apply Forall_nil|done]|]. intros name img H. unfold device_images in H.
  apply lookup_insert_Some in H as [[<- <-]|[_ H]].
  - split; [done|]. split; [apply a_boot_image_ok|]. eexists _, _, _. apply boot_located.
  - apply lookup_singleton_Some in H as [<- <-]. split; [done|]. split; [apply a_boot_image_ok|].
    eexists _, _, _. apply recovery_located.
Qed.

Lemma testos_accepted : gpt_accepts aosp_format device_world "testos" (a_boot_image 3).
Proof.
  split; [apply a_boot_image_ok|]. eexists _, _, _. split; [apply boot_located|].
  rewrite length_app. change (length (a_boot_image 3)) with 2048%nat. change (length (a_boot_image 1)) with 2048%nat. lia.
Qed.

Lemma get_device_path_finds_witness :
  exists w', get_device_path (Some "recovery"%string) device_world = (Ret (Some "/dev/disk/by-label/recovery"%string), w') /\
    w_files w' = w_files device_world.
Proof.
  destruct (get_device_path_finds "recovery" device_world) as (r & w' & E & (U & _) & _ & _ & Hq).
  { split; [by apply Forall_nil|done]. }
  exists w'. split; [|exact U]. rewrite E. do 2 f_equal. rewrite (Hq eq_refl). vm_compute. reflexivity.
Defined.

Lemma gpt_refines_image_store_witness :
  (exists w', flash_image_gpt (a_boot_image 3) "testos" device_world = (Ret 0, w') /\
     gpt_holds aosp_format w' (<["boot"%string := a_boot_image 3]> device_images)) /\
  exists w', read_image_gpt aosp_format "recovery" device_world = (Ret (2048, Some (a_boot_image 2)), w').
Proof.
  split.
  - pose proof (proj1 (gpt_refines_image_store aosp_format device_world device_images "testos" (a_boot_image 3) device_holds)
      testos_accepted) as H. unfold wp in H. destruct (flash_image_gpt _ _ _) as [o w'].
    destruct H as (r & Ho & _ & [[Hr H]|(_ & Hq & _)]); [|by destruct Hq]. exists w'. simpl in Ho. rewrite Ho, Hr.
    split; [reflexivity|exact H].
  - pose proof (proj2 (gpt_refines_image_store aosp_format device_world device_images "recovery" (a_boot_image 2) device_holds)
      eq_refl) as H. unfold wp in H. destruct (read_image_gpt _ _ _) as [o w'].
    destruct H as (r & b & Ho & _ & _ & _ & [[Hr H]|(_ & _ & Hq)]); [|by destruct Hq]. exists w'. simpl in Ho. rewrite Ho, Hr, H.
    reflexivity.
Defined.

(** A build with the partitions and one of the firmware backends. *)
Definition gpt_config : config := mkConfig true false true false false false.

Lemma device_flash_holds : flash_holds aosp_format device_world device_images.
Proof.
  split; [apply device_holds|]. exists "/dev/block/by-name/fastboot"%string. split; [vm_compute; by left|].
  by exists 512, (replicate 16 0).
Qed.


Lemma MemorySink_appends_witness :
  MemorySink (mkSink [0; 0; 0; 0] 4 1) [7; 8] = (mkSink [0; 7; 8; 0] 4 3, 2) /\
  take 3 [0; 7; 8; 0] = take 1 [0; 0; 0; 0] ++ [7; 8].
Proof.
  pose proof (MemorySink_appends 4 (mkSink [0; 0; 0; 0] 4 1) [7; 8]) as H.
  destruct H as [_ H]; [split; [done|split; [done|simpl; lia]]|]. cbn in H. split; [reflexivity|apply H].
Defined.

(** A refused byte changes nothing. *)
Example full_sink : MemorySink (mkSink [1; 2] 2 2) [3] = (mkSink [1; 2] 2 2, -1).
Proof. reflexivity. Qed.

Definition copy_patch (source patch : bytes) (token : Type) (sink : token -> bytes -> token * Z) (tok : token) : token * Z :=
  let '(tok, r) := sink tok patch in (tok, if r <? 0 then -1 else 0).

(** The digests expected are those of the boot image and of the image the patch makes. *)
Definition parse_digest (s : string) : option bytes :=
  if bool_decide (s = "boot"%string) then Some (a_boot_image 1)
  else if bool_decide (s = "new"%string) then Some (a_boot_image 5) else None.

Definition zeroed (n : Z) : bytes := replicate (Z.to_nat n) 0.

Definition patch_world : world :=
  mkWorld (<["/system/recovery-from-boot.p"%string := mkFile Regular (a_boot_image 5)]> (w_files device_world)) ∅ [] 0.

Lemma patch_makes_image : patched id copy_patch zeroed (a_boot_image 1) (a_boot_image 5) (a_boot_image 5) 2048 = Some (a_boot_image 5).
Proof. vm_compute. reflexivity. Qed.

Lemma patch_file_no_device name : "/system/recovery-from-boot.p"%string ∉ candidates name.
Proof.
  unfold candidates, PREFIXES. cbn [fmap list_fmap]. rewrite !elem_of_cons, elem_of_nil.
  intros [E|[E|[E|[]]]]; discriminate E.
Qed.

(** Another file does not change which devices there are. *)
Lemma located_patch_world name path s data : located device_world name path s data -> located patch_world name path s data.
Proof.
  intros (H1 & H2 & H3). pose proof (patch_file_no_device name) as Hn. split; [done|]. split.
  - simpl. rewrite lookup_insert_ne; [done|]. by intros <-.
  - intros q Hq (s' & d & E). simpl in E. rewrite lookup_insert_ne in E by (by intros <-). apply H3; [done|]. by exists s', d.
Qed.

Lemma patch_world_holds : flash_holds aosp_format patch_world device_images.
Proof.
  split.
  - split; [split; [by apply Forall_nil|done]|]. intros name img H.
    destruct (proj2 device_holds name img H) as (H1 & H2 & p & s & rest & Hl). split; [done|]. split; [done|].
    exists p, s, rest. by apply located_patch_world.
  - exists "/dev/block/by-name/fastboot"%string. split; [vm_compute; by left|]. by exists 512, (replicate 16 0).
Qed.

Lemma recovery_accepted w : w_files w = w_files patch_world -> gpt_accepts aosp_format w "recovery" (a_boot_image 5).
Proof.
  intros E. split; [apply a_boot_image_ok|]. eexists _, _, _. split.
  - eapply (located_files patch_world); [done|]. apply located_patch_world, recovery_located.
  - rewrite length_app. change (length (a_boot_image 5)) with 2048%nat. change (length (a_boot_image 2)) with 2048%nat. simpl. lia.
Qed.

Lemma patch_recovery_installs_target_witness :
  exists w', patch_recovery (flash_image gpt_config aosp_format zeroed []) (read_image gpt_config aosp_format zeroed [])
      id parse_digest copy_patch zeroed "boot" "new" 2048 "/system/recovery-from-boot.p" patch_world = (Ret 0, w') /\
    flash_holds aosp_format w' (<["recovery"%string := a_boot_image 5]> device_images).
Proof.
  pose proof (patch_recovery_installs_target (store := dispatch_store gpt_config aosp_format zeroed [] eq_refl eq_refl)
    id parse_digest copy_patch zeroed patch_world device_images (a_boot_image 1) (a_boot_image 2) "boot" "new"
    (a_boot_image 1) (a_boot_image 5) 2048 "/system/recovery-from-boot.p" (a_boot_image 5)
    patch_world_holds eq_refl eq_refl eq_refl eq_refl ltac:(lia) eq_refl) as H.
  unfold wp in H. destruct (patch_recovery _ _ _ _ _ _ _ _ _ _ _) as [o w']. destruct H as (r & Ho & Hr & H).
  { intros v image E Hp. rewrite patch_makes_image in Hp. injection Hp as <-. by apply recovery_accepted. }
  exists w'. simpl in Ho. rewrite Ho. destruct Hr as [->|[_ Hq]]; [|by destruct Hq]. split; [reflexivity|].
  destruct H as [[_ H]|(image & _ & _ & Hp & [H|[Hq _]])].
  - exfalso. destruct (H eq_refl) as [F|[F|F]]; [by apply F|done|]. rewrite patch_makes_image in F. discriminate F.
  - rewrite patch_makes_image in Hp. injection Hp as <-. exact H.
  - by destruct Hq.
Defined.
