(* ===== verification/TypeSpec.v ===== *)
(** * Worlds of bytes and devices of a fixed size

    A type system for computations: what they leave is again a world of bytes, in which every device
    is what it was and as large as it was, and what they answer has a type.  Nothing is assumed of
    the schedule, so this holds for every failing, short or interrupted call, and for runs that
    end without a defined result. *)

From stdpp Require Import base list numbers gmap strings.
From Stdlib Require Import ZArith Lia.
From S2P Require Import Prelude GuidStr Posix CLib Util Bootloader Osip GptImage Flash.

(** ** Well-typed worlds *)

Record well_typed (w : world) : Prop := {
  wt_files : map_Forall (fun _ f => bytes_ok (f_data f)) (w_files w);
  wt_fds : map_Forall (fun _ d => 0 <= fd_off d) (w_fds w)
}.

(** The same file, with other contents: only regular files change their size. *)
Definition same_file (f f' : file) : Prop :=
  f_kind f' = f_kind f /\ (f_kind f <> Regular -> length (f_data f') = length (f_data f)).

(** No file goes away, and new files are regular. *)
Definition same_shape (w w' : world) : Prop := forall p,
  match w_files w !! p, w_files w' !! p with
  | Some f, Some f' => same_file f f'
  | Some _, None => False
  | None, Some f' => f_kind f' = Regular
  | None, None => True
  end.

Lemma same_file_refl f : same_file f f.
Proof. by split. Qed.

Lemma same_file_trans f1 f2 f3 : same_file f1 f2 -> same_file f2 f3 -> same_file f1 f3.
Proof. intros [K1 L1] [K2 L2]. split; [congruence|]. intros H. rewrite L2, L1; congruence. Qed.

Lemma same_shape_refl w : same_shape w w.
Proof. intros p. destruct (w_files w !! p); [apply same_file_refl|done]. Qed.

Lemma same_shape_trans w1 w2 w3 : same_shape w1 w2 -> same_shape w2 w3 -> same_shape w1 w3.
Proof.
  intros H1 H2 p. specialize (H1 p). specialize (H2 p). destruct (w_files w1 !! p), (w_files w2 !! p), (w_files w3 !! p); try done.
  - by eapply same_file_trans.
  - destruct H2 as [-> _]. done.
Qed.

Lemma same_shape_insert w w' p f' : w_files w' = <[ p := f' ]> (w_files w) ->
  match w_files w !! p with Some f => same_file f f' | None => f_kind f' = Regular end -> same_shape w w'.
Proof.
  intros E H q. rewrite E. destruct (decide (q = p)) as [->|Hne].
  - rewrite lookup_insert_eq. destruct (w_files w !! p); exact H.
  - rewrite lookup_insert_ne by done. apply same_shape_refl.
Qed.

Lemma same_shape_files w w' : w_files w' = w_files w -> same_shape w w'.
Proof. intros E p. rewrite E. apply same_shape_refl. Qed.

(** ** Typing *)

Definition typed {A} (P : A -> Prop) (m : M A) : Prop := forall w, well_typed w ->
  well_typed (m w).2 /\ same_shape w (m w).2 /\ forall a, (m w).1 = Ret a -> P a.

Lemma typed_ret {A} (P : A -> Prop) a : P a -> typed P (ret a).
Proof. intros H w Hw. split; [done|]. split; [apply same_shape_refl|]. by intros ? [= <-]. Qed.

Lemma typed_undefined {A} (P : A -> Prop) : typed P undefined.
Proof. intros w Hw. split; [done|]. split; [apply same_shape_refl|done]. Qed.

Lemma typed_bind {A B} (P : A -> Prop) (Q : B -> Prop) m k :
  typed P m -> (forall a, P a -> typed Q (k a)) -> typed Q (bind m k).
Proof.
  intros Hm Hk w Hw. destruct (Hm w Hw) as (W1 & S1 & H1). unfold bind. destruct (m w) as [[a|c|] w1]; cbn [fst snd] in *.
  - destruct (Hk a (H1 a eq_refl) w1 W1) as (W2 & S2 & H2). split; [done|]. split; [by eapply same_shape_trans|done].
  - by split_and!.
  - by split_and!.
Qed.

Lemma typed_weaken {A} (P Q : A -> Prop) m : typed P m -> (forall a, P a -> Q a) -> typed Q m.
Proof. intros Hm H w Hw. destruct (Hm w Hw) as (? & ? & H1). split_and!; auto. Qed.

Lemma typed_any {A} (P : A -> Prop) m : typed P m -> typed (fun _ => True) m.
Proof. intros H. by eapply typed_weaken. Qed.

Lemma typed_lift_option {A} (P : A -> Prop) (x : option A) : (forall a, x = Some a -> P a) -> typed P (lift_option x).
Proof. intros H. destruct x; [apply typed_ret; auto|apply typed_undefined]. Qed.

(** A step that is done on the state. *)
Lemma typed_step {A} (P : A -> Prop) (m : M A) :
  (forall w, well_typed w -> exists a w', m w = (Ret a, w') /\ P a /\ well_typed w' /\ same_shape w w') -> typed P m.
Proof. intros H w Hw. destruct (H w Hw) as (a & w' & -> & HP & W & S). split_and!; try done. by intros ? [= <-]. Qed.

(** ** System calls *)

Lemma typed_next_fault : typed (fun _ => True) next_fault.
Proof.
  apply typed_step. intros w Hw. unfold next_fault. destruct (w_faults w); eexists _, _; (split; [done|]);
    (split; [done|]); (split; [|by apply same_shape_files]); [done|]. destruct Hw. by split.
Qed.

Lemma typed_fail e : typed (fun r => r = -1) (sys_fail e).
Proof. apply typed_step. intros w [W1 W2]. eexists _, _. split; [done|]. split; [done|]. split; [by split|by apply same_shape_files]. Qed.

Lemma typed_rounds : typed (fun _ => True) rounds.
Proof. apply typed_step. intros w Hw. eexists _, _. split; [done|]. split_and!; try done. by apply same_shape_files. Qed.

Lemma typed_errno : typed (fun _ => True) get_errno.
Proof. apply typed_step. intros w Hw. eexists _, _. split; [done|]. split_and!; try done. by apply same_shape_files. Qed.

Lemma set_off_typed fd d off w : well_typed w -> 0 <= off -> well_typed (set_off fd d off w).
Proof. intros [W1 W2] Ho. split; [done|]. cbn. by apply map_Forall_insert_2. Qed.

Lemma typed_add_fd path fl : typed (fun _ => True) (add_fd path fl).
Proof.
  apply typed_step. intros w [W1 W2]. eexists _, _. split; [done|]. split; [done|]. split; [|by apply same_shape_files].
  split; [done|]. cbn. by apply map_Forall_insert_2.
Qed.

Lemma put_file_typed path f w : well_typed w -> bytes_ok (f_data f) -> well_typed (set_files (<[ path := f ]> (w_files w)) w).
Proof. intros [W1 W2] Hf. split; [|done]. cbn. by apply map_Forall_insert_2. Qed.

Lemma typed_open path fl : typed (fun _ => True) (sys_open path fl).
Proof.
  unfold sys_open. eapply typed_bind; [apply typed_next_fault|]. intros f _.
  assert (Hgo : typed (fun _ => True) (fun w => match w_files w !! path with
    | None => if o_creat fl then (put_file path (mkFile Regular []) ;; add_fd path fl) w else sys_fail ENOENT w
    | Some (mkFile Symlink _) => sys_fail ELOOP w
    | Some (mkFile k d) => ((if o_trunc fl then match k with Regular => put_file path (mkFile k []) | _ => ret tt end else ret tt) ;; add_fd path fl) w
    end)).
  2:{ destruct f; [exact Hgo|by eapply typed_any, typed_fail|exact Hgo]. }
  intros w Hw.
  assert (Hput : forall k d, w_files w !! path = Some (mkFile k d) \/ w_files w !! path = None /\ k = Regular -> k = Regular ->
    forall w', (put_file path (mkFile k []) ;; add_fd path fl) w = (Ret (fresh_fd (w_fds w)), w') -> well_typed w' /\ same_shape w w').
  { intros k d Hk -> w' E. unfold bind, put_file in E. pose proof (put_file_typed path (mkFile Regular []) w Hw ltac:(constructor)) as W1.
    destruct (typed_add_fd path fl _ W1) as (W2 & S2 & _). rewrite E in W2, S2. cbn [snd] in *. split; [done|].
    eapply same_shape_trans; [|exact S2]. eapply same_shape_insert; [done|]. destruct Hk as [->|[-> _]]; by cbn. }
  destruct (w_files w !! path) as [[k d]|] eqn:Ef.
  - destruct k; try (by apply (typed_any _ _ (typed_fail _))).
    + destruct (o_trunc fl); [|by apply (typed_add_fd path fl)]. edestruct (Hput Regular d); [by left|done|reflexivity|]. by split_and!.
    + destruct (o_trunc fl); by apply (typed_add_fd path fl).
    + destruct (o_trunc fl); by apply (typed_add_fd path fl).
  - destruct (o_creat fl); [|by apply (typed_any _ _ (typed_fail _))].
    edestruct (Hput Regular []); [by right|done|reflexivity|]. by split_and!.
Qed.

Lemma typed_close fd : typed (fun _ => True) (sys_close fd).
Proof.
  intros w Hw. unfold sys_close. destruct (w_fds w !! fd) eqn:E; [|by apply (typed_any _ _ (typed_fail _))].
  destruct Hw as [W1 W2]. split; [|split; [by apply same_shape_files|done]]. split; [done|]. cbn. by apply map_Forall_delete.
Qed.

(** A call that fails when it is told to and otherwise works on the file of a descriptor. *)
Lemma typed_fd_call {A} (P : A -> Prop) (failed : Z -> M A) (body : fault -> M A) :
  (forall e, typed P (failed e)) -> (forall f, typed P (body f)) ->
  typed P (let! f := next_fault in match f with Ferr e => failed e | _ => body f end).
Proof. intros H1 H2. eapply typed_bind; [apply typed_next_fault|]. intros [| |] _; auto. Qed.

Lemma typed_fail_with {A} (P : A -> Prop) e (k : Z -> A) : P (k (-1)) -> typed P (let! r := sys_fail e in ret (k r)).
Proof. intros H. eapply typed_bind; [apply typed_fail|]. intros r ->. by apply typed_ret. Qed.

Lemma fd_file_typed w fd d f : well_typed w -> fd_file w fd = Some (d, f) ->
  0 <= fd_off d /\ bytes_ok (f_data f) /\ w_files w !! fd_path d = Some f.
Proof.
  intros [W1 W2] E. unfold fd_file in E. destruct (w_fds w !! fd) as [d'|] eqn:Ed; [|done]. cbn in E.
  destruct (w_files w !! fd_path d') as [f'|] eqn:Ef; [|done]. cbn in E. injection E as -> ->.
  split_and!; [exact (W2 fd d Ed)|exact (W1 _ f Ef)|done].
Qed.

Lemma typed_lseek fd off : typed (fun _ => True) (sys_lseek fd off).
Proof.
  apply (typed_fd_call _ sys_fail (fun _ w => match fd_file w fd with
    | None => sys_fail EBADF w
    | Some (d, _) => if s64 off <? 0 then sys_fail EINVAL w else (Ret (s64 off), set_off fd d (s64 off) w) end)).
  { intros e. apply (typed_any _ _ (typed_fail e)). }
  intros _ w Hw. destruct (fd_file w fd) as [[d f]|]; [|by apply (typed_any _ _ (typed_fail _))].
  destruct (Z.ltb_spec (s64 off) 0); [by apply (typed_any _ _ (typed_fail _))|].
  split_and!; [by apply set_off_typed|by apply same_shape_files|done].
Qed.

Lemma transfer_nonneg f n : 0 <= n -> 0 <= transfer f n <= n.
Proof. intros H. destruct f; cbn; lia. Qed.

Lemma typed_read fd count : typed (fun r => bytes_ok r.2) (sys_read fd count).
Proof.
  apply (typed_fd_call _ (fun e => let! r := sys_fail e in ret (r, [])) (fun f w => match fd_file w fd with
    | Some (d, fl) => if negb (fd_read d) then (let! r := sys_fail EBADF in ret (r, [])) w
        else let avail := Z.max 0 (Z.of_nat (length (f_data fl)) - fd_off d) in
             let n := transfer f (Z.min (Z.max 0 count) avail) in
             (Ret (n, slice (Z.to_nat (fd_off d)) (Z.to_nat n) (f_data fl)), set_off fd d (fd_off d + n) w)
    | None => (let! r := sys_fail EBADF in ret (r, [])) w end)).
  { intros e. apply (typed_fail_with _ e (fun r => (r, []))). constructor. }
  assert (Hbad : typed (fun r : Z * bytes => bytes_ok r.2) (let! r := sys_fail EBADF in ret (r, []))) by (apply (typed_fail_with _ _ (fun r => (r, []))); constructor).
  intros f w Hw. destruct (fd_file w fd) as [[d fl]|] eqn:Ef; [|by apply Hbad].
  destruct (fd_file_typed w fd d fl Hw Ef) as (Ho & Hb & _). destruct (fd_read d); [|by apply Hbad]. cbn [negb]. cbv zeta.
  pose proof (transfer_nonneg f (Z.min (Z.max 0 count) (Z.max 0 (Z.of_nat (length (f_data fl)) - fd_off d))) ltac:(lia)) as Ht.
  split; [apply set_off_typed; [done|lia]|]. split; [by apply same_shape_files|]. intros ? [= <-]. cbn. auto with bytes.
Qed.

Lemma bytes_ok_write_at off new data : bytes_ok new -> bytes_ok data -> bytes_ok (write_at off new data).
Proof. intros H1 H2. unfold write_at. apply bytes_ok_splice; [done|]. apply bytes_ok_app. split; [done|apply bytes_ok_zeros]. Qed.

Lemma length_write_at off new data : (off + length new <= length data)%nat -> length (write_at off new data) = length data.
Proof. intros H. unfold write_at. replace (off + length new - length data)%nat with 0%nat by lia. rewrite app_nil_r. by apply length_splice. Qed.

(** Writing to the file of a descriptor, at its position. *)
Lemma stored_typed w fd d f new n : well_typed w -> fd_file w fd = Some (d, f) -> bytes_ok new -> 0 <= n ->
  (f_kind f <> Regular -> Z.of_nat (length new) <= Z.max 0 (Z.of_nat (length (f_data f)) - fd_off d) /\
     (new <> [] \/ fd_off d <= Z.of_nat (length (f_data f)))) ->
  let w' := set_off fd d (fd_off d + n)
    (set_files (<[ fd_path d := mkFile (f_kind f) (write_at (Z.to_nat (fd_off d)) new (f_data f)) ]> (w_files w)) w) in
  well_typed w' /\ same_shape w w'.
Proof.
  intros Hw Ef Hb Hn Hl. destruct (fd_file_typed w fd d f Hw Ef) as (Ho & Hd & Ep). cbv zeta. split.
  - apply set_off_typed; [|lia]. apply put_file_typed; [done|]. by apply bytes_ok_write_at.
  - eapply same_shape_insert; [done|]. rewrite Ep. split; [done|]. intros Hk. destruct (Hl Hk) as [Hl1 Hl2]. cbn.
    apply length_write_at. destruct Hl2 as [Hne|?]; [|lia]. destruct new; [done|]. cbn [length] in *. lia.
Qed.

Lemma typed_write fd buf : bytes_ok buf -> buf <> [] -> typed (fun r => r <= Z.of_nat (length buf)) (sys_write fd buf).
Proof.
  intros Hb Hne. unfold sys_write.
  assert (Hfail : forall e, typed (fun r => r <= Z.of_nat (length buf)) (sys_fail e)).
  { intros e. eapply typed_weaken; [apply typed_fail|]. intros a ->. lia. }
  set (len := Z.of_nat (length buf)). assert (Hlen : 0 < len) by (unfold len; destruct buf; [done|cbn; lia]).
  apply (typed_fd_call _ sys_fail (fun f w => match fd_file w fd with
    | Some (d, fl) => if negb (fd_write d) then sys_fail EBADF w
        else let avail := Z.max 0 (Z.of_nat (length (f_data fl)) - fd_off d) in
             let store k n := (Ret n, set_off fd d (fd_off d + n)
               (set_files (<[ fd_path d := mkFile k (write_at (Z.to_nat (fd_off d)) (take (Z.to_nat n) buf) (f_data fl)) ]> (w_files w)) w)) in
             match f_kind fl with
             | Regular => store Regular (transfer f len)
             | k => if (avail =? 0) && (0 <? len) then sys_fail ENOSPC w else store k (transfer f (Z.min len avail))
             end
    | None => sys_fail EBADF w end)); [exact Hfail|].
  intros f w Hw. destruct (fd_file w fd) as [[d fl]|] eqn:Ef; [|by apply Hfail]. destruct (fd_write d); [|by apply Hfail].
  cbn [negb]. cbv zeta. set (avail := Z.max 0 (Z.of_nat (length (f_data fl)) - fd_off d)).
  assert (Hst : forall n, 0 <= n <= len -> (f_kind fl <> Regular -> n <= avail /\ 0 < avail) ->
    let w' := set_off fd d (fd_off d + n) (set_files (<[ fd_path d := mkFile (f_kind fl) (write_at (Z.to_nat (fd_off d)) (take (Z.to_nat n) buf) (f_data fl)) ]> (w_files w)) w) in
    well_typed w' /\ same_shape w w' /\ forall a, Ret n = Ret a -> a <= len).
  { intros n Hn Hk. destruct (stored_typed w fd d fl (take (Z.to_nat n) buf) n Hw Ef) as [H1 H2]; [auto with bytes|lia| |].
    - intros Hr. destruct (Hk Hr). rewrite length_take. unfold len, avail in *. split; [lia|right; lia].
    - split; [done|]. split; [done|]. intros a [= <-]. lia. }
  destruct (f_kind fl) eqn:Ek; try (destruct (Z.eqb_spec avail 0) as [Ea|Ea]; cbn [andb];
    [rewrite (proj2 (Z.ltb_lt 0 len)) by lia; by apply Hfail|]); cbn [fst snd].
  - pose proof (transfer_nonneg f len ltac:(lia)). apply (Hst (transfer f len)); [lia|done].
  - pose proof (transfer_nonneg f (Z.min len avail) ltac:(unfold avail; lia)). apply (Hst (transfer f (Z.min len avail))); [lia|]. unfold avail in *; lia.
  - pose proof (transfer_nonneg f (Z.min len avail) ltac:(unfold avail; lia)). apply (Hst (transfer f (Z.min len avail))); [lia|]. unfold avail in *; lia.
  - pose proof (transfer_nonneg f (Z.min len avail) ltac:(unfold avail; lia)). apply (Hst (transfer f (Z.min len avail))); [lia|]. unfold avail in *; lia.
Qed.

Lemma typed_malloc n : typed (fun _ => True) (sys_malloc n).
Proof. apply (typed_fd_call _ (fun _ => ret false) (fun _ => ret (0 <=? n))); intros ?; by apply typed_ret. Qed.

Lemma typed_fsync fd : typed (fun _ => True) (sys_fsync fd).
Proof. apply (typed_fd_call _ sys_fail (fun _ => ret 0)); intros ?; [apply (typed_any _ _ (typed_fail _))|by apply typed_ret]. Qed.

Lemma typed_stat_blk path : typed (fun _ => True) (sys_stat_blk path).
Proof.
  apply (typed_fd_call _ (fun e => let! r := sys_fail e in ret (r, false)) (fun _ w => match w_files w !! path with
    | None => (let! r := sys_fail ENOENT in ret (r, false)) w
    | Some (mkFile Symlink _) => (let! r := sys_fail ELOOP in ret (r, false)) w
    | Some (mkFile (Block _) _) => (Ret (0, true), w)
    | Some _ => (Ret (0, false), w) end)).
  { intros e. by apply (typed_fail_with _ e (fun r => (r, false))). }
  assert (Hr : forall b : bool, typed (fun _ => True) (ret (0, b))) by (intros b; by apply typed_ret).
  assert (Hf : forall e, typed (fun _ => True) (let! r := sys_fail e in ret (r, false))) by (intros e; by apply (typed_fail_with _ e (fun r => (r, false)))).
  intros _ w Hw. destruct (w_files w !! path) as [[[] d]|]; [exact (Hr false w Hw)|exact (Hr true w Hw)|exact (Hf ELOOP w Hw)|exact (Hr false w Hw)|exact (Hf ENOENT w Hw)].
Qed.

Create HintDb typed.
#[export] Hint Resolve typed_next_fault typed_rounds typed_errno typed_open typed_close typed_lseek typed_read typed_malloc
  typed_fsync typed_stat_blk : typed.

(** The steps of a computation one after the other; a call that is known has the type it is known
    with, and any other the type that says nothing. *)
Ltac typed :=
  cbv beta zeta;
  lazymatch goal with
  | |- typed _ (ret _) => apply typed_ret
  | |- typed _ undefined => apply typed_undefined
  | |- typed _ (bind _ _) =>
      first [eapply typed_bind; [solve [eauto with typed bytes]|intros ? ?; typed]
            |eapply (typed_bind (fun _ => True)); [solve [typed; done]|intros ? _; typed]
            |idtac]
  | |- typed _ (match ?x with _ => _ end) => let E := fresh "E" in destruct x eqn:E; cbn [fst snd] in *; typed
  | |- _ => try solve [eauto with typed bytes]
  end.

(** ** util.c *)

Lemma typed_read_loop fuel fd size filled : bytes_ok filled -> typed (fun r => bytes_ok r.2) (read_loop fuel fd size filled).
Proof.
  revert filled. induction fuel as [|fuel IH]; intros filled Hf; cbn [read_loop]; typed; try exact Hf.
  apply IH. by apply bytes_ok_app.
Qed.

Lemma typed_safe_read fd size : typed (fun r => bytes_ok r.2) (safe_read fd size).
Proof. unfold safe_read. typed. apply typed_read_loop. constructor. Qed.

Lemma typed_write_loop fuel fd buf pos : bytes_ok buf -> pos <= Z.of_nat (length buf) -> typed (fun _ => True) (write_loop fuel fd buf pos).
Proof.
  intros Hb. revert pos. induction fuel as [|fuel IH]; intros pos Hp; cbn [write_loop]; typed; try done.
  eapply typed_bind; [apply typed_write; [auto with bytes|]|].
  - intros E3. apply (f_equal length) in E3. rewrite length_drop in E3. cbn in E3. bprop. lia.
  - intros r Hr. rewrite length_drop in Hr. typed; try done. apply IH. bprop. lia.
Qed.

Lemma typed_write_all fd buf : bytes_ok buf -> typed (fun _ => True) (write_all fd buf).
Proof. intros Hb. unfold write_all. typed. apply typed_write_loop; [done|lia]. Qed.

#[export] Hint Resolve typed_safe_read typed_write_all : typed.

Lemma typed_file_write filename data : bytes_ok data -> typed (fun _ => True) (file_write filename data).
Proof. intros Hb. unfold file_write. typed; done. Qed.

#[export] Hint Resolve typed_file_write : typed.

(** ** Images on labelled partitions *)

Lemma typed_get_device_path name : typed (fun _ => True) (get_device_path name).
Proof.
  destruct name as [name|]; [|by apply typed_ret]. cbn [get_device_path]. induction PREFIXES as [|p ps IH]; cbn [try_prefixes]; [by apply typed_ret|].
  unfold try_prefix, asprintf_path. typed; done.
Qed.

#[export] Hint Resolve typed_get_device_path : typed.

Lemma typed_flash_image_gpt data name : bytes_ok data -> typed (fun _ => True) (flash_image_gpt data name).
Proof. intros Hb. unfold flash_image_gpt. typed; done. Qed.

Lemma typed_is_gpt : typed (fun _ => True) is_gpt.
Proof. unfold is_gpt, has_device. typed; done. Qed.

#[export] Hint Resolve typed_flash_image_gpt typed_is_gpt : typed.

(** ** The OS image profile *)

Lemma bytes_ok_set_desc i o h : bytes_ok o -> bytes_ok h -> bytes_ok (set_desc i o h).
Proof. apply bytes_ok_splice. Qed.

Lemma bytes_ok_update_checksum h : bytes_ok h -> bytes_ok (update_checksum h).
Proof. intros H. unfold update_checksum, set_header_checksum. auto with bytes. Qed.

Lemma bytes_ok_set_pointers n h : bytes_ok h -> bytes_ok (set_pointers n h).
Proof. intros H. unfold set_pointers, set_header_size, set_num_pointers. auto with bytes. Qed.

Lemma bytes_ok_set_load_address v o : bytes_ok o -> bytes_ok (set_ddr_load_address v o).
Proof. apply bytes_ok_putn. Qed.

Lemma bytes_ok_set_entry_point v o : bytes_ok o -> bytes_ok (set_entry_point v o).
Proof. apply bytes_ok_putn. Qed.

Lemma bytes_ok_set_start_block v o : bytes_ok o -> bytes_ok (set_logical_start_block v o).
Proof. apply bytes_ok_putn. Qed.

Lemma bytes_ok_set_attribute v o : bytes_ok o -> bytes_ok (set_attribute v o).
Proof. apply bytes_ok_putn. Qed.

Lemma bytes_ok_set_checksum v h : bytes_ok h -> bytes_ok (set_header_checksum v h).
Proof. apply bytes_ok_putn. Qed.

Lemma bytes_ok_default_osip : bytes_ok default_osip.
Proof. unfold default_osip, set_num_images, set_num_pointers, set_header_rev_major, set_sig. auto with bytes. Qed.

#[export] Hint Resolve bytes_ok_set_desc bytes_ok_update_checksum bytes_ok_set_pointers bytes_ok_set_load_address bytes_ok_set_entry_point
  bytes_ok_set_start_block bytes_ok_set_attribute bytes_ok_set_checksum bytes_ok_default_osip : bytes.

Lemma typed_get_desc h i : bytes_ok h -> typed bytes_ok (get_desc h i).
Proof. intros H. unfold get_desc, desc. typed. auto with bytes. Qed.

Lemma typed_put_desc h i o : bytes_ok h -> bytes_ok o -> typed bytes_ok (put_desc h i o).
Proof. intros H Ho. unfold put_desc. typed. auto with bytes. Qed.

#[export] Hint Resolve typed_get_desc typed_put_desc : typed.

Lemma typed_read_OSIP : typed (fun r => bytes_ok r.2) read_OSIP.
Proof. unfold read_OSIP. typed; apply bytes_ok_zeros || (apply bytes_ok_splice; [done|apply bytes_ok_zeros]). Qed.

Lemma typed_write_OSIP osip : bytes_ok osip -> typed (fun _ => True) (write_OSIP osip).
Proof. intros H. unfold write_OSIP. typed; done. Qed.

#[export] Hint Resolve typed_read_OSIP typed_write_OSIP : typed.

Lemma typed_find_instance fuel i attr instance current osip : bytes_ok osip ->
  typed (fun _ => True) (find_instance fuel i attr instance current osip).
Proof. intros H. revert i current. induction fuel as [|fuel IH]; intros i current; cbn [find_instance]; typed; done. Qed.

#[export] Hint Resolve typed_find_instance : typed.

Lemma typed_get_named_osii_index destination operation : typed (fun _ => True) (get_named_osii_index destination operation).
Proof. unfold get_named_osii_index, get_attribute_osii_index. typed; done. Qed.

#[export] Hint Resolve typed_get_named_osii_index : typed.

Lemma typed_restore_osii destination : typed (fun _ => True) (restore_osii destination).
Proof. unfold restore_osii, update_osii. typed; done. Qed.

#[export] Hint Resolve typed_restore_osii : typed.

Lemma typed_oem_write_osip_header : typed (fun _ => True) oem_write_osip_header.
Proof. unfold oem_write_osip_header. typed; done. Qed.

Lemma typed_get_free_lba slots slot_size osip : bytes_ok osip -> typed (fun _ => True) (get_free_lba slots slot_size osip).
Proof.
  intros H. assert (Hu : forall fuel i slot, typed (fun _ => True) (slot_used fuel i slot slot_size osip)).
  { induction fuel as [|fuel IH]; intros i slot; cbn [slot_used]; typed; done. }
  induction slots as [|slot slots IH]; cbn [get_free_lba]; typed; done.
Qed.

#[export] Hint Resolve typed_oem_write_osip_header typed_get_free_lba : typed.

Lemma typed_choose_slot attr large_image osip : bytes_ok osip -> typed (fun _ => True) (choose_slot attr large_image osip).
Proof. intros H. unfold choose_slot, get_free_os_lba, get_free_fw_lba. typed; done. Qed.

Lemma typed_place_osii osip osii i : bytes_ok osip -> bytes_ok osii -> typed (fun r => bytes_ok r.1 /\ bytes_ok r.2) (place_osii osip osii i).
Proof.
  intros H Ho. unfold place_osii. eapply typed_bind; [by apply typed_get_desc|]. intros old Hold. cbv beta.
  match goal with |- typed _ (let '(_, _) := ?p in _) =>
    assert (Hp : bytes_ok p.1 /\ bytes_ok p.2) by (repeat case_match; cbn [fst snd]; auto with bytes); destruct p end.
  cbn [fst snd] in Hp. destruct Hp. typed; split; cbn [fst snd]; auto with bytes.
Qed.

Lemma typed_store_image osip osii blob : bytes_ok osip -> bytes_ok blob -> typed (fun _ => True) (store_image osip osii blob).
Proof. intros H Hb. unfold store_image. typed; done. Qed.

Lemma typed_destroy_the_osip_backup : typed (fun _ => True) destroy_the_osip_backup.
Proof.
  unfold destroy_the_osip_backup.
  assert (Hw : forall fd, typed (fun _ => True) (sys_write fd (le_enc 4 0xffffffff))).
  { intros fd. eapply typed_any, typed_write; [apply le_enc_ok|done]. }
  typed; done.
Qed.

Lemma typed_crack_stitched_image data : bytes_ok data ->
  typed (fun r => forall osii blob, r = Some (osii, blob) -> bytes_ok osii /\ bytes_ok blob) (crack_stitched_image data).
Proof. intros H. unfold crack_stitched_image, desc. typed; try done. intros ? ? [= <- <-]. auto with bytes. Qed.

#[export] Hint Resolve typed_choose_slot typed_store_image typed_destroy_the_osip_backup : typed.

Lemma typed_write_stitch_image_ex data size i large_image : bytes_ok data ->
  typed (fun _ => True) (write_stitch_image_ex data size i large_image).
Proof.
  intros Hb. unfold write_stitch_image_ex. destruct (truthy (check_index_outofbound i)); [by apply typed_ret|].
  eapply typed_bind; [by apply typed_crack_stitched_image|]. intros [[osii blob]|] Hc; [|by apply typed_ret].
  destruct (Hc osii blob eq_refl) as [Ho Hblob]. clear Hc. typed; try done.
  eapply typed_bind; [apply typed_place_osii; auto with bytes|]. intros [osip osii'] [Hp1 Hp2]. cbn [fst snd] in *. typed; done.
Qed.

#[export] Hint Resolve typed_write_stitch_image_ex : typed.

Lemma typed_flash_image_osip data sz name : bytes_ok data -> typed (fun _ => True) (flash_image_osip data sz name).
Proof. intros Hb. unfold flash_image_osip, write_stitch_image, desc. typed; done. Qed.

Lemma typed_is_osip : typed (fun _ => True) is_osip.
Proof. unfold is_osip. typed; done. Qed.

#[export] Hint Resolve typed_flash_image_osip typed_is_osip : typed.

(** ** flash.c *)

Section Flash.
Context (cfg : config) (fmt : boot_img_format) (heap : Z -> bytes) (unset : bytes).

End Flash.
