(* ===== verification/Tee.v ===== *)
(** * Tokens of the security engine (tee_connector.c, teeprov.c, token.c, pmdb.c, pmdb-access-sep.c)

    The library of the engine is a record of operations.  What is printed is a list of texts, next
    to the descriptor of the output file; messages about errors are left out.  Of teeprov the
    function behind every option is here; finding the options is the work of [getopt_long].

    The field-replaceable-unit number is kept in an area of the engine, or in a token when the tools
    are built for TEE; the calls on areas are parameters. *)

From stdpp Require Import base list numbers gmap strings.
From Stdlib Require Import ZArith Lia.
From S2P Require Import Prelude Posix GuidStr CLib Util.

(** ** The library: a result, and what is stored when it is 0 *)

Record chaabi := mkChaabi {
  tee_token_sgids_get : Z -> Z -> M (Z * list Z);
  tee_token_itemids_get : Z -> Z -> Z -> M (Z * list Z);
  tee_token_item_size_get : Z -> Z -> Z -> Z -> M (Z * Z);
  tee_token_item_read : Z -> Z -> Z -> Z -> Z -> Z -> M (Z * bytes);
  tee_token_lifetimedata_get : M (Z * (bytes * bytes * bytes));
  tee_token_update_start : Z -> M Z;
  tee_token_update_cancel : Z -> M Z;
  tee_token_update_end : Z -> M Z;
  tee_partid_get : M (Z * bytes);
  tee_token_write : bytes -> Z -> M Z;
  tee_token_write_tmp : bytes -> Z -> M Z;
  tee_token_info_get : Z -> Z -> M (Z * Z);
  tee_token_read : Z -> Z -> Z -> M (Z * bytes);
  tee_token_remove : Z -> Z -> M Z;
  tee_token_cryptid_request : bytes -> M (Z * bytes);
  tee_token_gen_shared_ecc : M (Z * bytes);
  tee_token_gen_shared_rsa : M (Z * (bytes * bytes));
  tee_get_oem_id_public : M (Z * bytes)
}.

Definition EXIT_SUCCESS : Z := 0.
Definition EXIT_FAILURE : Z := 1.
Definition ERANGE : Z := 34.

(** ** Data *)

Record data_items := mkItem { it_name : string; subgroup_id : Z; item_id : Z; item_size : Z }.

Definition PAYLOAD_MAX_SIZE : Z := 32.
Definition PRINT_BUFFER_SIZE : Z := 1024.
Definition SPID_DATAGROUP : Z := 1.
Definition SERIAL_NUMBER_DATAGROUP : Z := 5.
Definition FRU_DATAGROUP : Z := 6.

Definition SPID_ITEMS : list data_items :=
  [mkItem "Customer ID" 11 1 2; mkItem "Vendor ID" 12 1 2; mkItem "Device Manufacturer ID" 12 2 2;
   mkItem "Platform Family ID" 10 1 2; mkItem "Product Line ID" 10 2 2; mkItem "Hardware Model ID" 10 3 2]%string.

Definition ssn_item : data_items := mkItem "System Serial Number" 11 1 32.

(** ** Output *)

Record tee_state := mkTee { output_fd : Z; printed : list bytes }.

Definition tee_start : tee_state := mkTee (-1) [].

(** One byte at a time; what [write] answers is not looked at. *)
Fixpoint write_bytes (fd : Z) (data : bytes) : M unit :=
  match data with [] => ret tt | b :: data => sys_write fd [b] ;; write_bytes fd data end.

Definition output_data (data : bytes) (s : tee_state) : M tee_state :=
  if negb (output_fd s =? -1) then write_bytes (output_fd s) data ;; ret s
  else match hexdump_buffer data (length data) with
       | None => undefined
       | Some rows => ret (mkTee (output_fd s) (printed s ++ rows))
       end.

(** [creat(path, S_IWUSR)] *)
Definition set_output_file (path : string) (s : tee_state) : M (Z * tee_state) :=
  let! fd := sys_open path (mkOflags false true false true true) in
  let s := mkTee fd (printed s) in
  ret (if fd =? -1 then EXIT_FAILURE else 0, s).

Definition close_output_file_when_open (s : tee_state) : M tee_state :=
  if output_fd s =? -1 then ret s else
  sys_close (output_fd s) ;; ret (mkTee (-1) (printed s)).

(** ** Numbers *)

(** [strtoul(arg, &end, 10)]: the value, the text at [end] and whether it was out of range. *)
Definition strtoul10 (s : bytes) : Z * bytes * bool :=
  let l := skip_space s in
  let '(neg, l) := match l with
                   | c :: l' => if c =? 45 then (true, l') else if c =? 43 then (false, l') else (false, l)
                   | [] => (false, l)
                   end in
  match scan_digits l 0 false with
  | None => (0, s, false)
  | Some (v, rest) => if 2 ^ 32 <=? v then (2 ^ 32 - 1, rest, true) else (if neg : bool then u32 (- v) else v, rest, false)
  end.

Definition parse_datagroup_id (arg : bytes) : Z :=
  let '(v, rest, out_of_range) := strtoul10 arg in
  if negb (is_null rest) || out_of_range then -1 else s32 v.

(** ** Operations *)

Section Tee.
Context (tee : chaabi).

(** The items of a subgroup: the result and what is behind the data so far. *)
Fixpoint read_items (dg sg flags : Z) (items : list Z) (print_data : bytes) : M (Z * bytes) :=
  match items with
  | [] => ret (0, print_data)
  | it :: items =>
      let! (r, payload_size) := tee_token_item_size_get tee dg sg it flags in
      if truthy r then ret (r, print_data) else
      if PAYLOAD_MAX_SIZE <? payload_size then ret (1, print_data) else
      let! (r, payload) := tee_token_item_read tee dg sg it 0 payload_size flags in
      if truthy r then ret (r, print_data) else
      if PRINT_BUFFER_SIZE <=? Z.of_nat (length print_data) + payload_size then ret (1, print_data) else
      let payload := take (Z.to_nat payload_size) (splice 0 payload (replicate (Z.to_nat PAYLOAD_MAX_SIZE) 0)) in
      read_items dg sg flags items (print_data ++ payload)
  end.

Fixpoint read_subgroups (dg flags : Z) (sgs : list Z) (print_data : bytes) : M (Z * bytes) :=
  match sgs with
  | [] => ret (0, print_data)
  | sg :: sgs =>
      let! (r, items) := tee_token_itemids_get tee dg sg flags in
      if truthy r then ret (r, print_data) else
      let! (r, print_data) := read_items dg sg flags items print_data in
      if truthy r then ret (r, print_data) else read_subgroups dg flags sgs print_data
  end.

(** The halves of a byte change places. *)
Definition swap_nibbles (b : Z) : Z := u8 (Z.lor (Z.shiftl b 4) (Z.shiftr b 4)).

(** The data read before a failure is put out as well. *)
Definition parse_token (dg flags : Z) (s : tee_state) : M (Z * tee_state) :=
  let! (r, sgs) := tee_token_sgids_get tee dg flags in
  let! (r, print_data) := if truthy r then ret (r, []) else read_subgroups dg flags sgs [] in
  if is_null print_data then ret (r, s) else
  let print_data := if u32 dg =? FRU_DATAGROUP then map swap_nibbles print_data else print_data in
  let! s := output_data print_data s in ret (r, s).

Definition get_lifetime (s : tee_state) : M (Z * tee_state) :=
  let! (r, (timestamp, nonce, mac)) := tee_token_lifetimedata_get tee in
  if truthy r then ret (r, s) else
  let! s := output_data timestamp s in
  let! s := output_data nonce s in
  let! s := output_data mac s in ret (r, s).

Definition get_ssn (s : tee_state) : M (Z * tee_state) :=
  let! (r, data) := tee_token_item_read tee SERIAL_NUMBER_DATAGROUP (subgroup_id ssn_item) (item_id ssn_item) 0 (item_size ssn_item) 0 in
  if truthy r then ret (r, s) else let! s := output_data data s in ret (r, s).

Definition start_update : M Z := tee_token_update_start tee 0.
Definition cancel_update : M Z := tee_token_update_cancel tee 0.
Definition finalize_update : M Z := tee_token_update_end tee 0.

Fixpoint read_spid (items : list data_items) (payload : bytes) : M (Z * bytes) :=
  match items with
  | [] => ret (0, payload)
  | i :: items =>
      let! (r, data) := tee_token_item_read tee SPID_DATAGROUP (subgroup_id i) (item_id i) 0 (item_size i) 0 in
      if truthy r then ret (r, payload) else read_spid items (payload ++ data)
  end.

Definition get_spid (s : tee_state) : M (Z * tee_state) :=
  let! ok := sys_malloc (foldr Z.add 0 (map item_size SPID_ITEMS)) in
  if negb ok then ret (EXIT_FAILURE, s) else
  let! (r, payload) := read_spid SPID_ITEMS [] in
  if truthy r then ret (r, s) else let! s := output_data payload s in ret (r, s).

Definition get_fru (s : tee_state) : M (Z * tee_state) := parse_token FRU_DATAGROUP 0 s.

Definition get_part_id (s : tee_state) : M (Z * tee_state) :=
  let! (r, partid_buf) := tee_partid_get tee in
  if truthy r then ret (r, s) else let! s := output_data partid_buf s in ret (r, s).

Definition write_token (data : bytes) : M Z := tee_token_write tee data 0.

(** Failing to read the token is not reported. *)
Definition read_token (argv : list bytes) (s : tee_state) : M (Z * tee_state) :=
  match argv with
  | [_; arg] =>
      let datagroup_id := parse_datagroup_id arg in
      if datagroup_id =? -1 then ret (EXIT_FAILURE, s) else
      let! (r, token_size) := tee_token_info_get tee datagroup_id 0 in
      if truthy r then ret (r, s) else
      if token_size =? 0 then ret (EXIT_FAILURE, s) else
      let! ok := sys_malloc (u32 (token_size * 4)) in
      if negb ok then ret (EXIT_FAILURE, s) else
      let! (r, buf) := tee_token_read tee datagroup_id (u32 (token_size * 4)) 0 in
      if truthy r then ret (EXIT_SUCCESS, s) else
      let! s := output_data buf s in ret (EXIT_SUCCESS, s)
  | _ => ret (EXIT_FAILURE, s)
  end.

Definition read_token_payload (argv : list bytes) (s : tee_state) : M (Z * tee_state) :=
  match argv with
  | [_; arg] =>
      let datagroup_id := parse_datagroup_id arg in
      if datagroup_id =? -1 then ret (EXIT_FAILURE, s) else parse_token datagroup_id 0 s
  | _ => ret (EXIT_FAILURE, s)
  end.

Definition remove_token (argv : list bytes) : M Z :=
  match argv with
  | [_; arg] =>
      let datagroup_id := parse_datagroup_id arg in
      if datagroup_id =? -1 then ret EXIT_FAILURE else tee_token_remove tee datagroup_id 0
  | _ => ret EXIT_FAILURE
  end.

Definition send_cryptid_request (data : bytes) (s : tee_state) : M (Z * tee_state) :=
  let! (r, response) := tee_token_cryptid_request tee data in
  if truthy r then ret (r, s) else let! s := output_data response s in ret (r, s).

Definition generate_shared_ecc (s : tee_state) : M (Z * tee_state) :=
  let! (r, pub_key) := tee_token_gen_shared_ecc tee in
  if truthy r then ret (r, s) else let! s := output_data pub_key s in ret (r, s).

Definition generate_shared_rsa (argv : list bytes) : M Z :=
  match argv with
  | [_; pub; prv] =>
      let! (r, (pub_key, prv_key)) := tee_token_gen_shared_rsa tee in
      if truthy r then ret r else
      let! w := file_write (string_of pub) pub_key in
      if w <? 0 then ret EXIT_FAILURE else
      let! w := file_write (string_of prv) prv_key in
      ret (if w <? 0 then EXIT_FAILURE else r)
  | _ => ret EXIT_FAILURE
  end.

Definition get_oem_id (s : tee_state) : M (Z * tee_state) :=
  let! (r, oemid_buf) := tee_get_oem_id_public tee in
  if truthy r then ret (r, s) else let! s := output_data oemid_buf s in ret (r, s).

(** ** teeprov.c *)

(** [chaabi_operation] on the contents of a file. *)
Definition write_chaabi_file (file_path : string) (chaabi_operation : bytes -> tee_state -> M (Z * tee_state)) (s : tee_state)
  : M (Z * tee_state) :=
  let! fd := sys_open file_path O_RDONLY in
  if fd =? -1 then ret (EXIT_FAILURE, s) else
  let! (r, _, size) := sys_fstat fd in
  let! (result, s, unmapped) :=
    if r =? -1 then ret (EXIT_FAILURE, s, true) else
    let! data := sys_mmap_read fd size in
    match data with
    | None => ret (EXIT_FAILURE, s, true)
    | Some data =>
        let! (result, s) := chaabi_operation data s in
        let! r := sys_munmap in
        ret (if truthy r && truthy result then r else result, s, r =? 0)
    end in
  if negb unmapped then ret (result, s) else
  let! r := sys_close fd in
  ret (if truthy r then r else result, s).

(** Two words of the command line from [optind - 2]. *)
Definition two_words (argv : list bytes) (optind : nat) : option (list bytes) :=
  a ← argv !! (optind - 2)%nat; b ← argv !! (optind - 1)%nat; if (optind <? 2)%nat then None else Some [a; b].

(** What is done for the option [c]: the process ends with the status on the left, or goes on. *)
Definition teeprov_case (c : Z) (optarg : bytes) (optind : nat) (argv : list bytes) (s : tee_state)
  : M ((Z + unit) * tee_state) :=
  let done (m : M (Z * tee_state)) : M ((Z + unit) * tee_state) := let! (r, s) := m in ret (inl r, s) in
  let simple (m : M Z) := done (let! r := m in ret (r, s)) in
  if c =? 115 (* s *) then done (get_spid s)
  else if c =? 102 (* f *) then done (get_fru s)
  else if c =? 112 (* p *) then done (get_part_id s)
  else if c =? 108 (* l *) then done (get_lifetime s)
  else if c =? 110 (* n *) then done (get_ssn s)
  else if c =? 117 (* u *) then simple start_update
  else if c =? 99 (* c *) then simple cancel_update
  else if c =? 122 (* z *) then simple finalize_update
  else if c =? 119 (* w *) then
    done (write_chaabi_file (string_of optarg) (fun data s => let! r := write_token data in ret (r, s)) s)
  else if c =? 114 (* r *) then
    match two_words argv optind with Some words => done (read_token words s) | None => undefined end
  else if c =? 82 (* R *) then
    match two_words argv optind with Some words => done (read_token_payload words s) | None => undefined end
  else if c =? 109 (* m *) then
    match two_words argv optind with Some words => simple (remove_token words) | None => undefined end
  else if c =? 121 (* y *) then done (write_chaabi_file (string_of optarg) send_cryptid_request s)
  else if c =? 101 (* e *) then done (generate_shared_ecc s)
  else if c =? 103 (* g *) then
    if negb ((optind =? 3)%nat && (length argv =? 4)%nat) then ret (inl EXIT_FAILURE, s) else simple (generate_shared_rsa (drop 1 argv))
  else if c =? 105 (* i *) then done (get_oem_id s)
  else if c =? 111 (* o *) then
    if negb (optind =? 3)%nat then ret (inl EXIT_FAILURE, s) else
    let! (r, s) := set_output_file (string_of optarg) s in ret (if truthy r then inl r else inr tt, s)
  else if c =? 104 (* h *) then exit EXIT_SUCCESS
  else ret (inl EXIT_FAILURE, s).

(** [main] on the options that [getopt_long] finds, each with its argument and [optind]; an exit
    closes the output file. *)
Fixpoint teeprov_options (options : list (Z * bytes * nat)) (argv : list bytes) (s : tee_state) : M (Z * tee_state) :=
  match options with
  | [] => if (length argv =? 1)%nat then ret (EXIT_FAILURE, s) else ret (EXIT_SUCCESS, s)
  | (c, optarg, optind) :: options =>
      let! (r, s) := teeprov_case c optarg optind argv s in
      match r with inl r => ret (r, s) | inr _ => teeprov_options options argv s end
  end.

Definition teeprov_main (options : list (Z * bytes * nat)) (argv : list bytes) : M (Z * list bytes) :=
  let! (r, s) := teeprov_options options argv tee_start in
  let! s := close_output_file_when_open s in ret (r, printed s).
End Tee.

(** ** token.c: the library of the engine without TEE *)

Section Token.
(** [sep_sectoken_consume_token], and the results that the library names. *)
Context (sep_sectoken_consume_token : bytes -> M Z) (sep_sectoken_request_token : M (Z * bytes)).
Context (ST_SUCCESSFUL ST_FAIL_SECURE_TOKEN_SIZE_TOO_SMALL_FAILURE : Z).

(** A token that is too small is taken for a dummy. *)
Definition flash_token (data : bytes) : M Z :=
  let! result := sep_sectoken_consume_token data in
  let result := if result =? ST_FAIL_SECURE_TOKEN_SIZE_TOO_SMALL_FAILURE then ST_SUCCESSFUL else result in
  ret (bool_to_Z (negb (result =? ST_SUCCESSFUL))).
End Token.

(** ** The provisioning database *)

Inductive pmdb_database := WO | WM.
Inductive sep_pmdb_area_t := SEP_PMDB_WRITE_ONCE | SEP_PMDB_WRITE_MANY.

Definition PMDB_FRU_SIZE : Z := 10.
Definition PMDB_FRU_OFFSET : Z := 0.
Definition CHECKSUM_SIZE : Z := 4.

(** ** pmdb-access-sep.c *)

Section Access.
(** The sizes of the areas and the calls: 0 is success, and the bytes read. *)
Context (SEP_PMDB_WRITE_ONCE_SIZE SEP_PMDB_WRITE_MANY_SIZE : Z).
Context (sep_pmdb_read : sep_pmdb_area_t -> Z -> M (Z * bytes)) (sep_pmdb_write : sep_pmdb_area_t -> bytes -> M Z).

Definition pmdb_area_size (type : sep_pmdb_area_t) : Z :=
  match type with SEP_PMDB_WRITE_ONCE => SEP_PMDB_WRITE_ONCE_SIZE | SEP_PMDB_WRITE_MANY => SEP_PMDB_WRITE_MANY_SIZE end.

Definition pmdb_read_modify_write (type : sep_pmdb_area_t) (data : bytes) (size offset : Z) : M Z :=
  if pmdb_area_size type <? u32 (offset + size) then ret (-1) else
  let! (res, buffer) := sep_pmdb_read type (pmdb_area_size type) in
  if truthy res then ret (-1) else
  let! res := sep_pmdb_write type (splice (Z.to_nat offset) (take (Z.to_nat size) data) buffer) in
  ret (if truthy res then -1 else 0).

Definition pmdb_access_write (buf : bytes) (db : pmdb_database) (offset size : Z) : M Z :=
  pmdb_read_modify_write (match db with WO => SEP_PMDB_WRITE_ONCE | WM => SEP_PMDB_WRITE_MANY end) buf size offset.

(** ** pmdb.c *)

Record pmdb_field_s := mkField { pf_name : string; pf_db : pmdb_database; pf_offset : Z; pf_size : Z }.

Definition pmdb_fields : list pmdb_field_s :=
  [mkField "fru" WM PMDB_FRU_OFFSET PMDB_FRU_SIZE; mkField "fru+cs" WM PMDB_FRU_OFFSET (PMDB_FRU_SIZE + CHECKSUM_SIZE)].

Definition pmdb_field (name : string) : option pmdb_field_s :=
  List.find (fun f => String.eqb (pf_name f) name) pmdb_fields.

Definition pmdb_write_field (name : string) (buf : bytes) (size : Z) : M Z :=
  match pmdb_field name with
  | None => ret (-4)
  | Some field => if negb (size =? pf_size field) then ret (-3) else pmdb_access_write buf (pf_db field) (pf_offset field) size
  end.

(** The checksum is one byte of the four that are kept for it. *)
Definition pmdb_write_fru (buf : bytes) (size : Z) : M Z :=
  let with_cs := replicate (Z.to_nat (PMDB_FRU_SIZE + CHECKSUM_SIZE)) 0 in
  let with_cs := splice 0 (take (Z.to_nat (Z.min size PMDB_FRU_SIZE)) buf) with_cs in
  match twoscomplement with_cs (Z.to_nat PMDB_FRU_SIZE) with
  | None => undefined
  | Some cs =>
      let with_cs := splice (Z.to_nat PMDB_FRU_SIZE) [cs] with_cs in
      pmdb_write_field "fru+cs" with_cs (Z.of_nat (length with_cs))
  end.
End Access.

(** With TEE the number goes into a temporary token: a tag of the library and a value of its size. *)
Section Token.
Context (tee : chaabi) (FRU_RAW_TAG : bytes) (fru_value_size : nat).

Definition pmdb_write_fru_tee (buf : bytes) (size : Z) : M Z :=
  let fru_value := splice 0 (take (Nat.min (Z.to_nat size) fru_value_size) buf) (replicate fru_value_size 0) in
  let! r := tee_token_write_tmp tee (FRU_RAW_TAG ++ fru_value) 0 in
  ret (bool_to_Z (negb (r =? 0))).
End Token.
