(* ===== verification/Droidboot.v ===== *)
(** * Commands of the boot loader (droidboot.c)

    The handlers of the fastboot commands, and the tables that [libintel_droidboot_init] registers
    them in.  A handler works on the properties of the system, sends replies to the host and writes
    on the screen; log messages are left out.  The battery, rebooting, mounting and what other
    processes do to the properties while a handler sleeps are parameters. *)

From stdpp Require Import base list numbers gmap strings.
From Stdlib Require Import ZArith Lia.
From S2P Require Import Prelude GuidStr Posix CLib Util FwVersion IfwiEmmc Osip Bootloader GptImage.
From S2P Require Import ScuIpc CLib Flash CgptTool OemPartition Tee.

(** ** State *)

Inductive reply := OKAY (msg : bytes) | FAIL (msg : bytes) | INFO (msg : bytes).

Record droidboot := mkDroid { oem : oem_state; replies : list reply; screen : list bytes }.

(** Computations on this state. *)
Definition D (A : Type) : Type := droidboot -> M (A * droidboot).
Definition dret {A} (a : A) : D A := fun s => ret (a, s).
Definition dbind {A B} (m : D A) (k : A -> D B) : D B := fun s => let! (a, s) := m s in k a s.
Definition lift {A} (m : M A) : D A := fun s => let! a := m in ret (a, s).
Definition in_oem {A} (m : oem_state -> M (A * oem_state)) : D A := fun s =>
  let! (a, o) := m (oem s) in ret (a, mkDroid o (replies s) (screen s)).
Definition send (r : reply) : D unit := fun s => ret (tt, mkDroid (oem s) (replies s ++ [r]) (screen s)).
Definition fastboot_okay (msg : string) : D unit := send (OKAY (str msg)).
Definition fastboot_fail (msg : string) : D unit := send (FAIL (str msg)).
Definition ui_print (text : bytes) : D unit := fun s => ret (tt, mkDroid (oem s) (replies s) (screen s ++ [text])).
Definition get_property (key : string) : D bytes := fun s => ret (property_get key (oem s), s).
Definition set_property (key : string) (value : bytes) : D unit := in_oem (fun o => ret (tt, property_set key value o)).

Notation "'do!' x ':=' m 'in' k" := (dbind m (fun x => k)) (at level 10, x pattern, m at level 99, k at level 200) : prog_scope.

(** The handlers take the words of the command, or the data downloaded. *)
Definition oem_cmd : Type := list bytes -> D Z.
Definition flash_cmd : Type := bytes -> D Z.

Definition fail_with {A} (msg : string) (r : A) : D A := do! _ := fastboot_fail msg in dret r.

Definition PARAMETER_VALUE_SIZE : Z := 20.
Definition OPTION_SIZE : Z := 4.

Definition TIMEOUT_INFINITE : Z := 0x3F.
Definition TIMEOUT_TEN : Z := 0x2D.
Definition TIMEOUT_THREE : Z := 0x1B.
Definition TIMEOUT_ZERO : Z := 0x00.

(** [snprintf(buf, size, "%s", s)], when all of [s] fits. *)
Definition fits (size : Z) (s : bytes) : bool := Z.of_nat (length s) <=? size - 1.

Section Droidboot.
Context (cfg : config) (fmt : boot_img_format) (heap : Z -> bytes) (unset : bytes).
Context (ioctl_fw_upgrade : Z -> bytes -> M Z).
Context (sys_mkdir : string -> M Z) (sys_mount : string -> string -> string -> M Z).
Context (volume_for_path : string -> option Volume) (ensure_path_unmounted format_volume : string -> M Z).

(** [property_get] with a default, for the operations of flash.c. *)
Definition props (s : droidboot) (key : string) (value : bytes) : bytes := default value (properties (oem s) !! key).

(** A command of flash.c as a command here. *)
Definition flash (f : (string -> bytes -> bytes) -> M Z) : D Z := fun s => let! r := f (props s) in ret (r, s).

(** ** Firmware settings *)

Definition oem_custom_boot : oem_cmd := fun argv =>
  match argv with
  | [_; arg] =>
      if negb (fits PARAMETER_VALUE_SIZE arg) then fail_with "Parameter size exceeds limit" (-1) else
      let '(value, _) := strtoul arg in
      if (EINVAL =? value) || (ERANGE =? value) then fail_with "Unable to read parameter" (-1) else
      do! r := flash (fun p => flash_custom_boot cfg p ioctl_fw_upgrade (le_enc 4 value)) in
      if negb (r =? 0) then fail_with "Fail write_umip" r else
      do! _ := fastboot_okay "" in dret r
  | _ => fail_with "oem custom_boot requires one argument" (-1)
  end.

Definition oem_erase_token : oem_cmd := fun argv =>
  if (1 <? length argv)%nat then fail_with "oem_erase_token requires no argument" (-1) else
  do! r := flash (fun p => erase_token_umip cfg p ioctl_fw_upgrade) in
  if negb (r =? 0) then fail_with "Fail erase_token_umip" r else
  do! _ := fastboot_okay "" in dret r.

(** The name of a timeout, and the timeout of a name. *)
Definition timeout_name (value : Z) : option string :=
  if value =? TIMEOUT_INFINITE then Some "infinite"%string
  else if value =? TIMEOUT_TEN then Some "tenseconds"%string
  else if value =? TIMEOUT_THREE then Some "threeseconds"%string
  else if value =? TIMEOUT_ZERO then Some "zeroseconds"%string else None.

Definition timeout_value (name : bytes) : option Z :=
  if bool_decide (str "infinite" = name) then Some TIMEOUT_INFINITE
  else if bool_decide (str "tenseconds" = name) then Some TIMEOUT_TEN
  else if bool_decide (str "threeseconds" = name) then Some TIMEOUT_THREE
  else if bool_decide (str "zeroseconds" = name) then Some TIMEOUT_ZERO else None.

Definition dnx_timeout_get : D Z :=
  do! value := flash (fun p => read_dnx_timeout cfg p ioctl_fw_upgrade) in
  match timeout_name (u32 value) with
  | None => fail_with "invalid timeout value" (-1)
  | Some name => do! _ := ui_print (str name ++ NL) in do! _ := fastboot_okay "" in dret 0
  end.

Definition dnx_timeout_set (value : Z) : D Z :=
  do! r := flash (fun p => flash_dnx_timeout cfg p ioctl_fw_upgrade (le_enc 4 value)) in
  if negb (r =? 0) then fail_with "Fail write_umip" r else
  do! _ := fastboot_okay "" in dret r.

Definition oem_dnx_timeout : oem_cmd := fun argv =>
  match argv with
  | _ :: option :: rest =>
      if (1 <? length rest)%nat then fail_with "oem_dnx_timeout requires one or two arguments" (-1) else
      if negb (fits OPTION_SIZE option) then fail_with "Option size exceeds limit" (-1) else
      if bool_decide (option = str "get") then dnx_timeout_get
      else if bool_decide (option = str "set") then
        match rest with
        | [arg] =>
            if negb (fits PARAMETER_VALUE_SIZE arg) then fail_with "Parameter size exceeds limit" (-1) else
            match timeout_value arg with
            | None => fail_with "invalid value, shall be infinite, tenseconds, threeseconds or zeroseconds" (-1)
            | Some value => dnx_timeout_set value
            end
        | _ => fail_with "oem_dnx_timeout set not enough arguments" (-1)
        end
      else fail_with "Option shall be get or set" (-1)
  | _ => fail_with "oem_dnx_timeout requires one or two arguments" (-1)
  end.

(** ** Properties *)

Section Properties.
(** What other processes do to the properties in the [i]-th second of waiting. *)
Context (elapse : nat -> gmap string bytes -> gmap string bytes).

Definition sleep (i : nat) : D unit := fun s =>
  ret (tt, mkDroid (mkOem (reload_enabled (oem s)) (oem_ufdisk (oem s)) (oem_getopt (oem s)) (elapse i (properties (oem s))))
             (replies s) (screen s)).

Fixpoint wait_loop (prop : string) (value : bytes) (n i : nat) : D Z :=
  match n with
  | O => dret (-1)
  | S n =>
      do! v := get_property prop in
      if bool_decide (c_string v = value) then dret 0 else
      do! _ := sleep i in wait_loop prop value n (S i)
  end.

Definition wait_property (prop : string) (value : bytes) (timeout_sec : nat) : D Z := wait_loop prop value timeout_sec 0.

Definition oem_backup_factory : oem_cmd := fun _ =>
  do! value := get_property "sys.backup_factory" in
  if negb (bool_decide (c_string value = str "done")) && negb (is_null value)
  then fail_with "Factory partition backing up failed!
" (-1) else
  do! _ := set_property "sys.backup_factory" (str "backup") in
  do! _ := ui_print (str "Backing up factory partition..." ++ NL) in
  do! r := wait_property "sys.backup_factory" (str "done") 60 in
  if truthy r then fail_with "Factory partition backing up timeout!
" (-1) else dret 0.

Definition oem_restore_factory : oem_cmd := fun _ =>
  do! value := get_property "sys.backup_factory" in
  if negb (bool_decide (c_string value = str "done")) then fail_with "Factory partition restoration failed!
" (-1) else
  do! _ := set_property "sys.backup_factory" (str "restore") in
  do! _ := ui_print (str "Restoring factory partition..." ++ NL) in
  do! r := wait_property "sys.backup_factory" (str "done") 60 in
  if truthy r then fail_with "Factory partition restore timeout!
" (-1) else dret 0.
End Properties.

Definition oem_fastboot2adb : oem_cmd := fun _ =>
  do! value := get_property "ro.debuggable" in
  if negb (is_null value) && bool_decide (c_string value = str "1") then
    do! _ := fastboot_okay "" in
    do! _ := set_property "sys.adb.config" (str "fastboot2adb") in dret 0
  else fail_with "property ro.debuggable must be set to activate adb." (-1).

(** ** The device *)

Section Device.
Context (get_battery_level : M Z) (android_reboot : bytes -> M Z).

(** The message is cut to the eleven characters of its buffer. *)
Definition oem_get_batt_info_handler : oem_cmd := fun _ =>
  do! batt_level := lift get_battery_level in
  if batt_level =? -1 then fail_with "Could not get battery level" (-1) else
  do! _ := send (INFO (take 11 (NL ++ str "level: " ++ fmt_d batt_level))) in
  do! _ := ui_print (str "Battery level at " ++ fmt_d batt_level ++ str "%" ++ NL) in
  dret 0.

Definition oem_reboot : oem_cmd := fun argv =>
  let go target :=
    do! _ := fastboot_okay "" in
    do! _ := ui_print (str "REBOOT in " ++ target ++ str "..." ++ NL) in
    lift (android_reboot target) in
  match argv with
  | [_] => go (str "android")
  | [_; target] => go target
  | _ => fail_with "Usage: reboot [target_os]" (- EINVAL)
  end.

Definition cmd_intel_reboot : D unit :=
  do! _ := fastboot_okay "" in
  do! _ := set_property "sys.forcecoldboot" (str "yes") in
  do! _ := ui_print (str "REBOOT..." ++ NL) in
  do! _ := lift (android_reboot (str "android")) in dret tt.

Definition cmd_intel_reboot_bootloader : D unit :=
  do! _ := fastboot_okay "" in
  do! _ := ui_print (str "REBOOT in BOOTLOADER..." ++ NL) in
  do! _ := lift (android_reboot (str "bootloader")) in dret tt.

Definition cmd_intel_boot : D unit :=
  do! _ := ui_print (str "boot command stubbed on this platform!" ++ NL) in fastboot_okay "".
End Device.

(** ** The FRU number *)

(** [!is_hex(tmp[0]) || !is_hex(tmp[1])] is only reported; a byte that is not converted keeps what
    was in memory.  Byte [i] of the number is read from characters [2 i + 1] and [2 i]. *)
Fixpoint fru_bytes (str fru : bytes) : D bytes :=
  match str, fru with
  | c0 :: c1 :: str, old :: fru =>
      do! _ := if is_hex c1 && is_hex c0 then dret tt else fastboot_fail "fru value have non hexadecimal characters
" in
      let byte := match scan_X 2 [c1; c0] with Some (v, _) => u8 v | None => old end in
      do! fru := fru_bytes str fru in dret (byte :: fru)
  | _, _ => dret []
  end.

Definition oem_fru_handler (pmdb_write_fru : bytes -> Z -> M Z) : oem_cmd := fun argv =>
  match argv with
  | [_; sub; value] =>
      if negb (bool_decide (sub = str "set")) then fail_with "unknown oem fru subcommand
" (-1) else
      if negb (Z.of_nat (length value) =? PMDB_FRU_SIZE * 2)
      then fail_with "fru value must be 20 4-bits nibbles in hexa format. Ex: 123456...
" (-1) else
      do! fru := fru_bytes value (take (Z.to_nat PMDB_FRU_SIZE) unset) in
      lift (pmdb_write_fru fru PMDB_FRU_SIZE)
  | _ =>
      do! _ := send (FAIL (str "oem fru must be called with " ++ [34] ++ str "set" ++ [34] ++ str " subcommand" ++ NL)) in dret (-1)
  end.

(** ** Files *)

Definition CONFIG_FILE : string := "/mnt/config/local_config".

Definition oem_config : oem_cmd := fun argv =>
  match argv with
  | [_; name] =>
      do! f := lift (fopen CONFIG_FILE mode_w) in
      match f with
      | None => dret (-1)
      | Some f =>
          do! written := lift (fwrite f name) in
          do! _ := lift (fclose f) in
          dret (if negb (written =? Z.of_nat (length name)) then -1 else 0)
      end
  | _ => fail_with "oem config must be called with 1 parameter
" (-1)
  end.

(** The result of a call that failed is the negated error. *)
Definition oem_mount : oem_cmd := fun argv =>
  match argv with
  | [_; name; fs_type] =>
      do! dev_path := lift (get_device_path (Some (string_of name))) in
      match dev_path with
      | None => fail_with "Unable to find the appropriate device path
" (-1)
      | Some dev_path =>
          do! mountpoint := lift (asprintf_path "/mnt" (string_of name)) in
          match mountpoint with
          | None => fail_with "asprintf mountpoint failed" (-1)
          | Some mountpoint =>
              do! r := lift (sys_mkdir mountpoint) in
              do! errno := lift get_errno in
              if (r =? -1) && negb (errno =? EEXIST) then fail_with "mkdir failed" (- errno) else
              do! r := lift (sys_mount dev_path mountpoint (string_of fs_type)) in
              do! errno := lift get_errno in
              if r =? -1 then fail_with "mount failed" (- errno) else dret r
          end
      end
  | _ => fail_with "Usage: mount <partition_name> <fs_type>" (- EINVAL)
  end.

(** ** What the screen asks for *)

Definition SERIAL_NUM_FILE : string := "/sys/class/android_usb/android0/iSerial".
Definition MAX_NAME_SIZE : Z := 128.
Definition BUF_SIZE : Z := 256.

Inductive info_type := IFWI_VERSION | PRODUCT_NAME | SERIAL_NUM | VARIANT | HW_VERSION | BOOTLOADER_VERSION | OTHER_INFO.

Definition toupper (c : Z) : Z := if (97 <=? c) && (c <=? 122) then c - 32 else c.
Definition strupr (s : bytes) : bytes := map toupper s.

(** The text behind [attr] and one more character, in the first line that contains [attr]; the
    answer is 0 even when there is none.  Text behind the end of the line is read when [attr] is the
    end of the line. *)
Fixpoint find_attr (fuel : nat) (f : FILE) (attr : bytes) : M (option bytes) :=
  match fuel with
  | O => undefined
  | S fuel =>
      let! buf := fgets BUF_SIZE f in
      match buf with
      | None => ret None
      | Some buf =>
          match strstr (c_string buf) attr with
          | None => find_attr fuel f attr
          | Some p =>
              if (length p <=? length attr)%nat then undefined
              else ret (Some (strupr (take (Z.to_nat (MAX_NAME_SIZE - 1)) (drop (length attr + 1) p))))
          end
      end
  end.

Definition read_from_file (file : string) (attr : bytes) : M (Z * option bytes) :=
  let! f := fopen file mode_r in
  match f with
  | None => ret (-1, None)
  | Some f => let! n := file_rounds f in let! value := find_attr n f attr in fclose f ;; ret (0, value)
  end.

(** [snprintf(info, sz, "%s", value)] *)
Definition property_info (key : string) (sz : Z) : D (Z * option bytes) :=
  do! value := get_property key in dret (0, Some (take (Z.to_nat (sz - 1)) (c_string value))).

Definition get_system_info (type : info_type) (sz : Z) : D (Z * option bytes) :=
  match type with
  | IFWI_VERSION => property_info "sys.ifwi.version" sz
  | PRODUCT_NAME => property_info "ro.product.device" sz
  | SERIAL_NUM => lift (
      let! f := fopen SERIAL_NUM_FILE mode_r in
      match f with
      | None => ret (-1, None)
      | Some f =>
          let! line := fgets sz f in
          fclose f ;; ret (match line with None => -1 | Some _ => 0 end, line)
      end)
  | VARIANT => property_info "ro.product.model" sz
  | HW_VERSION => property_info "sys.hw.version" sz
  | BOOTLOADER_VERSION => property_info "ro.bootloader" sz
  | OTHER_INFO => dret (-1, None)
  end.

Record property_format := mkFormat { pf_key : option string; pf_msg : string; pf_error_msg : option string }.

Definition properties_format : list property_format :=
  [mkFormat (Some "sys.ifwi.version") "         ifwi:" None;
   mkFormat None "---- components ----" None;
   mkFormat (Some "sys.scu.version") "          scu:" None;
   mkFormat (Some "sys.punit.version") "        punit:" None;
   mkFormat (Some "sys.valhooks.version") "    hooks/oem:" None;
   mkFormat (Some "sys.ia32.version") "         ia32:" None;
   mkFormat (Some "sys.suppia32.version") "     suppia32:" None;
   mkFormat (Some "sys.mia.version") "          mIA:" None;
   mkFormat (Some "sys.chaabi.version") "       chaabi:" (Some "CHAABI versions unreadable at runtime")]%string.

(** The lines printed. *)
Definition dump_format (s : droidboot) (f : property_format) : list bytes :=
  match pf_key f with
  | None => [str (pf_msg f) ++ NL]
  | Some name =>
      let property := c_string (property_get name (oem s)) in
      if negb (is_null property) then [str (pf_msg f) ++ [32] ++ property ++ NL]
      else match pf_error_msg f with Some msg => [str msg ++ NL] | None => [] end
  end.

Definition dump_system_versions (s : droidboot) : list bytes := concat (map (dump_format s) properties_format).

(** ** Registration *)

Section Registration.
(** The archives of minizip, the engine, the partition tool of the boot loader and the parameters of
    the sections above. *)
Context {archive : Type} (mzOpenZipArchive : bytes -> M (Z * archive)) (mzExtractRecursive : archive -> string -> M bool).
Context (tee : chaabi) (sep_sectoken_consume_token : bytes -> M Z) (sep_sectoken_request_token : M (Z * bytes)).
Context (ST_SUCCESSFUL ST_FAIL_SECURE_TOKEN_SIZE_TOO_SMALL_FAILURE : Z).
Context (pmdb_write_fru : bytes -> Z -> M Z) (elapse : nat -> gmap string bytes -> gmap string bytes).
Context (get_battery_level : M Z) (android_reboot : bytes -> M Z).
Context (ufdisk_umount_all : M unit) (ufdisk_create_partition : M Z).
(** What the program is built for, and the answers of the functions that register. *)
Context (TEE_FRAMEWORK EXTERNAL : bool) (aboot_register : string -> Z).

Record registry := mkRegistry { flash_cmds : list (string * flash_cmd); oem_cmds : list (string * oem_cmd);
                                fastboot_cmds : list (string * D unit) }.

(** The printed rows become replies. *)
Definition tee_cmd (f : tee_state -> M (Z * tee_state)) : oem_cmd := fun _ s =>
  let! (r, t) := f tee_start in
  ret (r, mkDroid (oem s) (replies s ++ map INFO (printed t)) (screen s)).

Definition aboot_write_token : flash_cmd := fun data => lift (write_token tee data).

(** [oem_uniqueid_handler] sends an OKAY after a failure as well. *)
Definition oem_uniqueid_handler : oem_cmd := fun _ =>
  do! (result, uniqueKey) := lift sep_sectoken_request_token in
  let retval := bool_to_Z (negb (result =? ST_SUCCESSFUL)) in
  do! _ := if truthy retval then fastboot_fail "cannot get uniqueid"
           else match hexdump_buffer uniqueKey 16 with
                | None => fun _ => undefined
                | Some rows => fun s => ret (tt, mkDroid (oem s) (replies s ++ map INFO rows) (screen s))
                end in
  do! _ := fastboot_okay "" in dret retval.

(** [libintel_droidboot_token_init] *)
Definition token_flash_cmds : list (string * flash_cmd) :=
  if TEE_FRAMEWORK then []
  else [("token"%string, fun data =>
           lift (flash_token sep_sectoken_consume_token ST_SUCCESSFUL ST_FAIL_SECURE_TOKEN_SIZE_TOO_SMALL_FAILURE data))].
Definition token_oem_cmds : list (string * oem_cmd) :=
  if TEE_FRAMEWORK then [] else [("uniqueid"%string, oem_uniqueid_handler)].

(** The commands that flash, apart from the one for packages. *)
Definition plain_flash_cmds : list (string * flash_cmd) :=
  let image f : flash_cmd := fun data => flash (fun p => f data) in
  [(TEST_OS_NAME, image (flash_testos cfg fmt heap unset)); (ANDROID_OS_NAME, image (flash_android_kernel cfg fmt heap unset));
   (RECOVERY_OS_NAME, image (Flash.flash_recovery_kernel cfg fmt heap unset)); (FASTBOOT_OS_NAME, image (flash_fastboot_kernel cfg fmt heap unset));
   (ESP_PART_NAME, image (flash_esp cfg fmt heap unset)); (SPLASHSCREEN_NAME, image (flash_splashscreen_image1 cfg fmt heap unset));
   (SPLASHSCREEN_NAME1, image (flash_splashscreen_image1 cfg fmt heap unset)); (SPLASHSCREEN_NAME2, image (flash_splashscreen_image2 cfg fmt heap unset));
   (SPLASHSCREEN_NAME3, image (flash_splashscreen_image3 cfg fmt heap unset)); (SPLASHSCREEN_NAME4, image (flash_splashscreen_image4 cfg fmt heap unset));
   ("dnx"%string, fun data => flash (fun p => flash_dnx cfg p ioctl_fw_upgrade data));
   ("ifwi"%string, fun data => flash (fun p => flash_ifwi cfg p ioctl_fw_upgrade data));
   ("token_umip"%string, fun data => flash (fun p => flash_token_umip cfg p ioctl_fw_upgrade data));
   ("capsule"%string, fun data => flash (fun p => flash_capsule cfg p sys_mkdir sys_mount (Some data)));
   ("ulpmc"%string, image flash_ulpmc); ("esp_update"%string, image (flash_esp_update sys_mkdir sys_mount mzOpenZipArchive mzExtractRecursive));
   (SILENT_BINARY_NAME, image (flash_silent_binary cfg fmt heap unset))] ++
  (if TEE_FRAMEWORK then [("token"%string, aboot_write_token)] else []) ++
  (if EXTERNAL then [] else token_flash_cmds ++ [(RAMDUMP_OS_NAME, image (flash_ramdump cfg fmt heap unset))]).

(** [aboot_flash(name, data, size)] on these commands: the one registered last for a name is called,
    and a name without a command is an error. *)
Definition lookup_cmd {A} (name : string) (cmds : list (string * A)) : option A :=
  snd <$> List.find (fun c => String.eqb (fst c) name) (reverse cmds).

Definition aboot_flash (s : droidboot) (name : string) (data : option bytes) : M Z :=
  match lookup_cmd name plain_flash_cmds, data with
  | Some cmd, Some data => let! (r, _) := cmd data s in ret r
  | Some _, None => undefined
  | None, _ => ret (-1)
  end.

(** A package has at most one component for every byte. *)
Definition flash_package : flash_cmd := fun data s =>
  let! r := flash_bootloader (aboot_flash s) (length data + 1) data (Z.of_nat (length data)) in ret (r, s).

Definition all_oem_cmds (build_type : bytes) : list (string * oem_cmd) :=
  let pure (m : M Z) : D Z := lift m in
  (if negb (bool_decide (c_string build_type = str "user"))
   then [("dnx_timeout", oem_dnx_timeout); ("custom_boot", oem_custom_boot); ("erase_token", oem_erase_token)] else []) ++
  [("erase", fun argv => pure (oem_erase_partition heap volume_for_path ensure_path_unmounted format_volume argv));
   ("repart", fun argv => in_oem (fun o => let! r := oem_repart_partition (Z.of_nat (length argv)) o in ret (r, o)));
   ("write_osip_header", fun _ => pure oem_write_osip_header); ("erase_osip_header", fun _ => pure oem_erase_osip_header);
   ("start_partitioning", fun _ => in_oem oem_partition_start_handler);
   ("partition", fun argv => in_oem (oem_partition_cmd_handler heap argv));
   ("retrieve_partitions", fun argv => in_oem (oem_retrieve_partitions (Z.of_nat (length argv))));
   ("stop_partitioning", fun _ => in_oem (oem_partition_stop_handler ensure_path_unmounted));
   ("get_batt_info", oem_get_batt_info_handler get_battery_level); ("reboot", oem_reboot android_reboot);
   ("wipe", fun argv => pure (oem_wipe_partition heap volume_for_path ensure_path_unmounted argv));
   ("config", oem_config); ("mount", oem_mount)]%string ++
  (if TEE_FRAMEWORK then
     [("get-spid", tee_cmd (get_spid tee)); ("get-fru", tee_cmd (get_fru tee)); ("get-part-id", tee_cmd (get_part_id tee));
      ("get-lifetime", tee_cmd (get_lifetime tee)); ("start-update", fun _ => pure (start_update tee));
      ("cancel-update", fun _ => pure (cancel_update tee)); ("finalize-update", fun _ => pure (finalize_update tee));
      ("remove-token", fun argv => pure (remove_token tee argv))]%string else []) ++
  (if EXTERNAL then [] else
     [("fru"%string, oem_fru_handler pmdb_write_fru)] ++ token_oem_cmds ++
     [("backup_factory", oem_backup_factory elapse); ("restore_factory", oem_restore_factory elapse);
      ("fastboot2adb", oem_fastboot2adb)]%string).

Definition all_fastboot_cmds : list (string * D unit) :=
  [("continue", cmd_intel_reboot android_reboot); ("reboot", cmd_intel_reboot android_reboot);
   ("reboot-bootloader", cmd_intel_reboot_bootloader android_reboot); ("boot", cmd_intel_boot)]%string.

(** The commands registered and the lines printed; the boot loader dies when one of the commands is
    refused. *)
Definition libintel_droidboot_init : D (registry * list bytes) := fun s =>
  let build_type_prop := property_get "ro.build.type" (oem s) in
  let s := mkDroid (oem_partition_init (Some (mkUfdisk (Some ufdisk_umount_all) (Some ufdisk_create_partition))) (oem s))
             (replies s) (screen s) in
  let flash_cmds := (BOOTLOADER_NAME, flash_package) :: plain_flash_cmds in
  let oem_cmds := all_oem_cmds build_type_prop in
  let r := foldr Z.lor 0 (map aboot_register (map fst flash_cmds ++ map fst oem_cmds)) in
  if truthy r then exit 1 else
  ret (mkRegistry flash_cmds oem_cmds all_fastboot_cmds, dump_system_versions s, s).
End Registration.
End Droidboot.
