(* ===== verification/DroidbootSpec.v ===== *)
(** * What the commands of the boot loader do

    A timeout that was set is the one that is shown, whatever calls fail on the way. *)

From stdpp Require Import base list numbers gmap strings.
From Stdlib Require Import ZArith Lia.
From S2P Require Import Prelude GuidStr Posix Util IfwiEmmc IfwiEmmcSpec ScuIpc Flash OemPartition Droidboot.

(** ** Reading a byte of the UMIP *)

Lemma wp_readbyte {B} (Q : outcome B -> world -> Prop) kont w k d c addr :
  w_files w !! boot_partition 0 = Some (mkFile k d) -> k <> Symlink ->
  w_files w !! boot_partition_force_ro 0 = Some (mkFile Regular c) ->
  BOOT_UMIP_SIZE <= Z.of_nat (length d) -> 0 <= addr < BOOT_UMIP_SIZE ->
  (forall w', ~ quiet w -> wp Q (kont (-1)) w') ->
  (forall w', (quiet w -> quiet w') -> wp Q (kont (to_signed 8 (getn 1 (Z.to_nat addr) d))) w') ->
  wp Q (bind (readbyte_umip_emmc addr) kont) w.
Proof.
  intros Hp Hk Hs Hl Ha H1 H2. unfold readbyte_umip_emmc. apply wp_assoc. eapply wp_force_rw; [exact Hs|].
  intros r w1 c1 Hr F1 D1 Q1. destruct (truthy r) eqn:Er.
  { apply wp_err_boot1. intros w2 _ _. apply H1. intros Hq. by destruct (Q1 Hq) as [_ ->]. }
  assert (Hp1 : w_files w1 !! boot_partition 0 = Some (mkFile k d)) by (by rewrite F1, lookup_insert_ne).
  change (boot_partition 0) with "/dev/block/mmcblk0boot0"%string in *.
  apply wp_assoc, wp_bind. eapply wp_open; [done|done| |].
  { intros w2 _ Hq. cbn [Z.ltb Z.compare]. apply wp_err_boot1. intros w3 _ _. apply H1. intros Hqq.
    destruct (Q1 Hqq) as [Hq1 _]. destruct (Hq Hq1) as [E|[? E]]; rewrite Hp1 in E; [done|]. by injection E as ->. }
  intros w2 fd f Hf2 _ Hfd Hgt F2 D2 Q2. rewrite Hp1 in Hf2. injection Hf2 as <-. replace (fd <? 0) with false by lia.
  assert (Hff : fd_file w2 fd = Some (mkFd "/dev/block/mmcblk0boot0" 0 true true, mkFile k d)).
  { unfold fd_file. rewrite D2, lookup_insert_eq. cbn. by rewrite F2, Hp1. }
  apply wp_assoc, wp_bind. eapply (wp_mmap fd w2); [exact Hff|done|done|exact Hl| |].
  { intros w3 _ Hq. apply wp_err_boot1. intros w4 _ _. apply H1. intros Hqq. apply Hq, Q2. by destruct (Q1 Hqq). }
  cbn [f_data]. intros w3 (U1 & U2 & U3). replace (addr <? BOOT_UMIP_SIZE) with true by lia.
  apply wp_assoc, wp_bind. eapply (wp_close fd w3); [unfold fd_file in *; rewrite U1, U2; exact Hff|].
  intros w4 _ _ Q4. apply wp_bind, wp_ret. rewrite getn_take by lia. apply H2.
  intros Hq. apply Q4, U3, Q2. by destruct (Q1 Hq).
Qed.

(** A byte that was stored is there, away from the checksums. *)
Lemma getn_updated addr v d : bytes_ok d -> 0 <= v < 256 -> BOOT_IFWI_SIZE <= Z.of_nat (length d) ->
  addr <> IFWI_OFFSET -> 512 <= addr < BOOT_IFWI_XOR_OFFSET ->
  getn 1 (Z.to_nat addr) (updated addr [v] d) = v /\ length (updated addr [v] d) = length d.
Proof.
  intros Bd Hv Hl Hne Ha. unfold updated, umip_content. rewrite (proj2 (Z.eqb_neq _ _) Hne).
  set (m := take (Z.to_nat BOOT_IFWI_SIZE) d). set (p := splice (Z.to_nat addr) [v] m).
  assert (Lm : length m = Z.to_nat BOOT_IFWI_SIZE) by (unfold m; rewrite length_take; lia).
  assert (Hfit : (Z.to_nat addr + 1 <= Z.to_nat BOOT_IFWI_SIZE)%nat) by (unfold BOOT_IFWI_XOR_OFFSET, BOOT_IFWI_SIZE in *; lia).
  assert (Lp : length p = Z.to_nat BOOT_IFWI_SIZE) by (unfold p; rewrite length_splice; cbn [length]; lia).
  assert (Bp : bytes_ok p).
  { unfold p, m. apply bytes_ok_splice; [apply bytes_ok_cons; split; [exact Hv|constructor]|auto with bytes]. }
  pose proof (length_xor_update p Bp Lp) as Lx.
  split.
  - unfold getn. rewrite slice_splice_in by lia. rewrite Nat.sub_0_r, slice_xor_update; [|done|done|lia|left; lia].
    unfold p. pose proof (slice_splice_eq (Z.to_nat addr) [v] m) as E. cbn [length] in E. rewrite E by lia. cbn. lia.
  - apply length_splice. lia.
Qed.

(** ** Timeouts *)

Section Timeout.
Context (cfg : config) (ioctl_fw_upgrade : Z -> bytes -> M Z).

(** The firmware is on the boot partitions. *)
Definition emmc_firmware (s : droidboot) : Prop :=
  has_scu_ipc cfg && is_scu_ipc (props s) = false /\ has_scu_emmc cfg && is_scu_emmc (props s) = true.

Lemma emmc_ops s : emmc_firmware s -> ifwi_ops cfg (props s) ioctl_fw_upgrade = Some scu_emmc_ifwi_operations.
Proof. intros [E1 E2]. unfold ifwi_ops. by rewrite E1, E2. Qed.

Definition timeouts : list string := ["infinite"; "tenseconds"; "threeseconds"; "zeroseconds"]%string.

(** What the name of a timeout stands for, at all widths it passes through. *)
Lemma timeout_named name : name ∈ timeouts -> exists v,
  timeout_value (str name) = Some v /\ timeout_name (u32 (to_signed 8 v)) = Some name /\
  source (Some (le_enc 4 v)) 1 = Some [v] /\ 0 <= v < 128 /\ fits PARAMETER_VALUE_SIZE (str name) = true.
Proof.
  unfold timeouts. rewrite !elem_of_cons, elem_of_nil.
  intros [-> | [-> | [-> | [-> | []]]]]; [exists 0x3F | exists 0x2D | exists 0x1B | exists 0]; vm_compute; intuition congruence.
Qed.

Lemma set_words name v : timeout_value (str name) = Some v -> fits PARAMETER_VALUE_SIZE (str name) = true ->
  oem_dnx_timeout cfg ioctl_fw_upgrade [str "dnx_timeout"; str "set"; str name] = dnx_timeout_set cfg ioctl_fw_upgrade v.
Proof.
  intros Ev Ef. transitivity (if negb (fits PARAMETER_VALUE_SIZE (str name)) then fail_with "Parameter size exceeds limit" (-1) else
    match timeout_value (str name) with
    | None => fail_with "invalid value, shall be infinite, tenseconds, threeseconds or zeroseconds" (-1)
    | Some value => dnx_timeout_set cfg ioctl_fw_upgrade value
    end); [reflexivity|by rewrite Ef, Ev].
Qed.

Lemma get_words : oem_dnx_timeout cfg ioctl_fw_upgrade [str "dnx_timeout"; str "get"] = dnx_timeout_get cfg ioctl_fw_upgrade.
Proof. reflexivity. Qed.

(** C14: A timeout that was set with success is the one shown afterwards; setting and showing it fail
    only when a call does, and then they say so. *)
Theorem dnx_timeout_read_back name s w k0 k1 d0 d1 :
  name ∈ timeouts -> emmc_firmware s -> boot_device w k0 k1 d0 d1 -> bytes_ok d0 ->
  wp (fun o w1 => exists r s1, o = Ret (r, s1) /\ (quiet w -> r = 0) /\
        (r = 0 -> replies s1 = replies s ++ [OKAY []] /\
           wp (fun o w2 => exists r s2, o = Ret (r, s2) /\ (quiet w -> r = 0) /\
                 (r = 0 -> screen s2 = screen s ++ [str name ++ NL] /\ replies s2 = replies s ++ [OKAY []; OKAY []]) /\
                 (r <> 0 -> r = -1 /\ screen s2 = screen s /\ replies s2 = replies s ++ [OKAY []; FAIL (str "invalid timeout value")]))
              (oem_dnx_timeout cfg ioctl_fw_upgrade [str "dnx_timeout"; str "get"] s1) w1) /\
        (r <> 0 -> replies s1 = replies s ++ [FAIL (str "Fail write_umip")]))
    (oem_dnx_timeout cfg ioctl_fw_upgrade [str "dnx_timeout"; str "set"; str name] s) w.
Proof.
  intros Hn Hfw Hdev Bd. destruct (timeout_named name Hn) as (v & Ev & En & Es & Hv & Ef).
  pose proof (bd_sizes _ _ _ _ _ Hdev) as [L0 _].
  rewrite (set_words name v Ev Ef), get_words. unfold dnx_timeout_set, dbind at 1, flash, flash_dnx_timeout, ops_call.
  rewrite emmc_ops by done. cbn [mbind option_bind op_flash_dnx_timeout scu_emmc_ifwi_operations].
  apply wp_bind, wp_bind. eapply wp_mono.
  { apply (write_umip_correct w k0 k1 d0 d1 BOOT_DNX_TIMEOUT_OFFSET (Some (le_enc 4 v)) 1 [v] Hdev); done. }
  intros o w1 (rc & d0' & d1' & -> & F0 & F1 & [c S0] & Hq1 & _ & [(-> & -> & _)|(-> & Hq & _)]); apply wp_ret.
  2:{ cbn. exists (-1), (mkDroid (oem s) (replies s ++ [FAIL (str "Fail write_umip")]) (screen s)).
      split; [done|]. split; [by intros|]. split; [done|]. by intros. }
  destruct (getn_updated BOOT_DNX_TIMEOUT_OFFSET v d0 Bd ltac:(lia) L0) as [Gv Lu]; [done|done|].
  unfold wp at 1. cbn [fst snd]. exists 0, (mkDroid (oem s) (replies s ++ [OKAY []]) (screen s)).
  split; [done|]. split; [done|]. split; [|done]. intros _. split; [done|].
  unfold dnx_timeout_get, dbind at 1, flash, read_dnx_timeout, ops_call.
  rewrite (emmc_ops (mkDroid (oem s) (replies s ++ [OKAY []]) (screen s))) by exact Hfw.
  cbn [mbind option_bind op_read_dnx_timeout scu_emmc_ifwi_operations]. apply wp_assoc.
  eapply (wp_readbyte _ _ w1 k0); [exact F0|apply Hdev|exact S0|rewrite Lu; unfold BOOT_UMIP_SIZE, BOOT_IFWI_SIZE in *; lia|done| |].
  - intros w2 Hq. unfold wp. cbn. eexists (-1), _. split; [done|]. split; [by intros; destruct Hq; auto|].
    split; [done|]. intros _. split_and!; [done|done|]. cbn. by rewrite <-app_assoc.
  - intros w2 Hq2. unfold read_dnx_timeout_scu_emmc. rewrite Gv. apply wp_bind, wp_ret. rewrite En. cbn.
    eexists 0, _. split; [done|]. split; [done|]. split; [|done]. intros _. split; [done|]. cbn. by rewrite <-app_assoc.
Qed.
End Timeout.
