(* ===== verification/TokenSpec.v ===== *)
(** * What is read from and written to the security engine

    Tokens are put out as their payloads, in order; the FRU number is stored with a checksum and read
    back as it was given. *)

From stdpp Require Import base list numbers gmap strings.
From Stdlib Require Import ZArith Lia.
From S2P Require Import Prelude GuidStr Posix CLib Util Flash OemPartition Tee Droidboot.

(** ** Payloads *)

Section Payloads.
Context (tee : chaabi) (dg flags : Z).
(** What the engine answers: subgroups, their items, and size and payload of an item. *)
Context (sgids : Z * list Z) (items : Z -> Z * list Z) (size : Z -> Z -> Z * Z) (payload : Z -> Z -> Z * bytes).

Record answers : Prop := {
  ans_sgids w : tee_token_sgids_get tee dg flags w = (Ret sgids, w);
  ans_items sg w : tee_token_itemids_get tee dg sg flags w = (Ret (items sg), w);
  ans_size sg it w : tee_token_item_size_get tee dg sg it flags w = (Ret (size sg it), w);
  ans_payload sg it n w : tee_token_item_read tee dg sg it 0 n flags w = (Ret (payload sg it), w);
  ans_length sg it : (payload sg it).1 = 0 -> (size sg it).1 = 0 -> Z.of_nat (length (payload sg it).2) = (size sg it).2
}.
Context (Hans : answers).

(** The items of all subgroups in order, and their payloads. *)
Definition all_items (sgs : list Z) : list (Z * Z) := concat (map (fun sg => map (pair sg) (items sg).2) sgs).
Definition payloads (its : list (Z * Z)) : bytes := concat (map (fun i => (payload i.1 i.2).2) its).

(** An item that can be read. *)
Definition item_ok (i : Z * Z) : Prop :=
  (size i.1 i.2).1 = 0 /\ (payload i.1 i.2).1 = 0 /\ (size i.1 i.2).2 <= PAYLOAD_MAX_SIZE.

(** The result and the data behind [old]: a part of the items was read, all of them when the result is 0,
    and it is 0 when every item can be read and the data fits. *)
Definition collected (its : list (Z * Z)) (groups_ok : Prop) (old : bytes) (res : Z * bytes) : Prop :=
  exists k, res.2 = old ++ payloads (take k its) /\ (res.1 = 0 -> payloads its = payloads (take k its)) /\
    (groups_ok -> Forall item_ok its -> Z.of_nat (length (old ++ payloads its)) < PRINT_BUFFER_SIZE -> res.1 = 0).

Lemma payload_kept sg it : item_ok (sg, it) ->
  take (Z.to_nat (size sg it).2) (splice 0 (payload sg it).2 (replicate (Z.to_nat PAYLOAD_MAX_SIZE) 0)) = (payload sg it).2.
Proof using Hans.
  intros (E1 & E2 & E3). cbn [fst snd] in *. pose proof (ans_length Hans sg it E2 E1) as El.
  unfold splice. rewrite take_0, app_nil_l. apply take_app_length'. lia.
Qed.

Lemma collected_fail its P old r : r <> 0 -> ~ (Forall item_ok its /\ Z.of_nat (length (old ++ payloads its)) < PRINT_BUFFER_SIZE) ->
  collected its P old (r, old).
Proof.
  intros Hr Hn. exists 0%nat. cbn [fst snd]. rewrite take_0, app_nil_r. split; [done|]. split; [done|]. tauto.
Qed.

Lemma read_items_collects sg its old w : exists res,
  read_items tee dg sg flags its old w = (Ret res, w) /\ collected (map (pair sg) its) True old res.
Proof using Hans.
  revert old. induction its as [|it its IH]; intros old.
  { exists (0, old). split; [done|]. exists 0%nat. cbn. by rewrite app_nil_r. }
  cbn [read_items map]. unfold bind at 1. rewrite (ans_size Hans).
  destruct (size sg it) as [r n] eqn:Es. destruct (truthy r) eqn:Er.
  { exists (r, old). split; [done|]. apply collected_fail; [by apply truthy_true|].
    intros [Hf _]. inversion Hf as [|? ? (H & _) _]; subst. cbn [fst snd] in H. rewrite Es in H. by apply truthy_true in Er. }
  apply truthy_false in Er. subst r. destruct (Z.ltb_spec PAYLOAD_MAX_SIZE n) as [Hn|Hn].
  { exists (1, old). split; [done|]. apply collected_fail; [done|].
    intros [Hf _]. inversion Hf as [|? ? (_ & _ & H) _]; subst. cbn [fst snd] in H. rewrite Es in H. cbn [snd] in H. lia. }
  unfold bind at 1. rewrite (ans_payload Hans). destruct (payload sg it) as [r p] eqn:Ep. destruct (truthy r) eqn:Er.
  { exists (r, old). split; [done|]. apply collected_fail; [by apply truthy_true|].
    intros [Hf _]. inversion Hf as [|? ? (_ & H & _) _]; subst. cbn [fst snd] in H. rewrite Ep in H. by apply truthy_true in Er. }
  apply truthy_false in Er. subst r.
  assert (Hok : item_ok (sg, it)) by (unfold item_ok; cbn [fst snd]; by rewrite Es, Ep).
  pose proof (payload_kept sg it Hok) as Hkept. rewrite Es, Ep in Hkept. cbn [snd] in Hkept.
  pose proof (ans_length Hans sg it) as El. rewrite Es, Ep in El. specialize (El eq_refl eq_refl). cbn [snd] in El.
  destruct (Z.leb_spec PRINT_BUFFER_SIZE (Z.of_nat (length old) + n)) as [Hb|Hb].
  { exists (1, old). split; [done|]. apply collected_fail; [done|]. intros [_ H]. unfold payloads in H. cbn [map concat fst snd] in H.
    rewrite Ep in H. cbn [snd] in H. rewrite !length_app in H. lia. }
  rewrite Hkept. destruct (IH (old ++ p)) as (res & Hres & k & E1 & E2 & E3). exists res. split; [done|].
  exists (S k). unfold payloads in *. cbn [take map concat fst snd]. rewrite Ep. cbn [snd]. rewrite app_assoc. split; [done|].
  split; [intros E; by rewrite (E2 E)|]. intros _ Hf. inversion Hf; subst. intros H. apply E3; [done|done|]. by rewrite <-app_assoc.
Qed.

Lemma read_subgroups_collects sgs old w : exists res,
  read_subgroups tee dg flags sgs old w = (Ret res, w) /\
  collected (all_items sgs) (Forall (fun sg => (items sg).1 = 0) sgs) old res.
Proof using Hans.
  revert old. induction sgs as [|sg sgs IH]; intros old.
  { exists (0, old). split; [done|]. exists 0%nat. cbn. by rewrite app_nil_r. }
  cbn [read_subgroups]. unfold bind at 1. rewrite (ans_items Hans). destruct (items sg) as [r its] eqn:Ei.
  destruct (truthy r) eqn:Er.
  { exists (r, old). split; [done|]. exists 0%nat. cbn [fst snd]. rewrite take_0, app_nil_r. apply truthy_true in Er.
    split; [done|]. split; [done|]. intros Hg. inversion Hg as [|? ? H _]; subst. by rewrite Ei in H. }
  unfold bind at 1. destruct (read_items_collects sg its old w) as ([r1 d1] & -> & k1 & E1 & E2 & E3). cbn [fst snd] in *.
  assert (Hall : all_items (sg :: sgs) = map (pair sg) its ++ all_items sgs) by (unfold all_items; cbn [map concat]; by rewrite Ei).
  assert (Hpay : forall a b, payloads (a ++ b) = payloads a ++ payloads b).
  { intros a b. unfold payloads. by rewrite map_app, concat_app. }
  destruct (truthy r1) eqn:Er1.
  { exists (r1, d1). split; [done|]. apply truthy_true in Er1. exists (k1 `min` length (map (pair sg) its))%nat. cbn [fst snd].
    rewrite Hall, <-take_take, take_app_length. split; [done|]. split; [done|].
    intros _ Hf Hl. apply Forall_app in Hf as [Hf _]. destruct Er1. apply E3; [done|done|].
      rewrite Hpay in Hl. rewrite !length_app in *. lia. }
  apply truthy_false in Er1. subst r1. destruct (IH d1) as (res & -> & k2 & F1 & F2 & F3). exists res. split; [done|].
  specialize (E2 eq_refl). exists (length (map (pair sg) its) + k2)%nat. rewrite Hall, take_app_add', Hpay, !Hpay by done.
  rewrite F1, E1, <-E2, app_assoc. split; [done|]. split; [intros E; by rewrite (F2 E)|].
  intros Hg Hf Hl. apply Forall_inv_tail in Hg. apply Forall_app in Hf as [_ Hf]. apply F3; [done|done|].
  rewrite E1, <-E2, <-app_assoc. exact Hl.
Qed.

End Payloads.

(** ** The FRU number *)

Definition tolower (c : Z) : Z := if (65 <=? c) && (c <=? 90) then c + 32 else c.

(** The number as it is printed: pairs of digits in lower case, each pair followed by a space. *)
Fixpoint spaced (value : bytes) : bytes :=
  match value with c0 :: c1 :: value => tolower c0 :: tolower c1 :: 32 :: spaced value | _ => [] end.

(** The byte that two digits are stored as. *)
Definition fru_byte (c0 c1 : Z) : Z := match scan_X 2 [c1; c0] with Some (v, _) => u8 v | None => 0 end.

Definition byte_ok (c0 c1 : Z) : bool :=
  negb (is_hex c0 && is_hex c1) ||
  bool_decide (is_Some (scan_X 2 [c1; c0])) && bool_decide (fmt_x 2 (swap_nibbles (fru_byte c0 c1)) = [tolower c0; tolower c1]) &&
  (0 <=? fru_byte c0 c1) && (fru_byte c0 c1 <? 256).

Definition hex_characters : list Z := seqZ 48 10 ++ seqZ 65 6 ++ seqZ 97 6.

Lemma all_bytes_ok : forallb (fun c0 => forallb (byte_ok c0) hex_characters) hex_characters = true.
Proof. vm_compute. reflexivity. Qed.

Lemma hex_bytes_ok c0 c1 : is_hex c0 = true -> is_hex c1 = true ->
  is_Some (scan_X 2 [c1; c0]) /\ fmt_x 2 (swap_nibbles (fru_byte c0 c1)) = [tolower c0; tolower c1] /\ is_byte (fru_byte c0 c1).
Proof.
  intros H0 H1. assert (Hr : forall c, is_hex c = true -> In c hex_characters).
  { intros c Hc. apply list_elem_of_In. unfold hex_characters. rewrite !elem_of_app, !elem_of_seqZ. unfold is_hex in Hc. bprop. lia. }
  pose proof all_bytes_ok as Hall. rewrite forallb_forall in Hall. specialize (Hall c0 (Hr c0 H0)). cbn beta in Hall.
  rewrite forallb_forall in Hall. specialize (Hall c1 (Hr c1 H1)). unfold byte_ok in Hall. rewrite H0, H1 in Hall.
  cbn [andb negb orb] in Hall. rewrite !andb_true_iff, !bool_decide_eq_true in Hall. unfold is_byte. intuition lia.
Qed.

(** The bytes of a number of digits, in pairs. *)
Fixpoint fru_of (value : bytes) : bytes :=
  match value with c0 :: c1 :: value => fru_byte c0 c1 :: fru_of value | _ => [] end.

Lemma pairs_ind (P : bytes -> Prop) : P [] -> (forall c, P [c]) -> (forall c0 c1 l, P l -> P (c0 :: c1 :: l)) -> forall l, P l.
Proof.
  intros H0 H1 H2. fix IH 1. intros [|c0 [|c1 l]]; [exact H0|apply H1|apply H2, IH].
Qed.

Lemma fru_bytes_reads value old s w : Forall (fun c => is_hex c = true) value -> length value = (2 * length old)%nat ->
  fru_bytes value old s w = (Ret (fru_of value, s), w).
Proof.
  revert old s w. induction value as [|c|c0 c1 value IH] using pairs_ind; intros old s w Hf Hl.
  - by destruct old.
  - destruct old; cbn in Hl; lia.
  - destruct old as [|b old]; [done|]. apply Forall_cons in Hf as [H0 Hf]. apply Forall_cons in Hf as [H1 Hf].
    destruct (hex_bytes_ok c0 c1 H0 H1) as [[[v rest] Es] _]. cbn [fru_bytes fru_of]. rewrite H0, H1. cbn [andb].
    unfold dbind at 1, dret at 1, bind at 1, ret at 1. unfold dbind, bind at 1. rewrite IH; [|done|cbn in Hl; lia].
    unfold dret, ret, fru_byte. by rewrite Es.
Qed.

Lemma snhexdump_spaced value size : Forall (fun c => is_hex c = true) value -> Nat.Even (length value) ->
  4 + 3 * Z.of_nat (length value) < size ->
  snhexdump size (map swap_nibbles (fru_of value)) (length (fru_of value)) = Some (spaced value).
Proof.
  revert size. induction value as [|c|c0 c1 value IH] using pairs_ind; intros size Hf He Hs.
  - done.
  - by destruct He as [[|k] Hk]; cbn in Hk; lia.
  - apply Forall_cons in Hf as [H0 Hf]. apply Forall_cons in Hf as [H1 Hf].
    destruct (hex_bytes_ok c0 c1 H0 H1) as (_ & Ef & _). cbn [fru_of length map snhexdump spaced].
    cbn [length] in Hs. replace (4 <? size) with true by lia. rewrite IH; [|done| |lia].
    + cbn. by rewrite Ef.
    + destruct He as [k Hk]. exists (k - 1)%nat. cbn in Hk. lia.
Qed.

Lemma length_fru_of value n : length value = (2 * n)%nat -> length (fru_of value) = n.
Proof.
  revert n. induction value as [|c|c0 c1 value IH] using pairs_ind; intros n Hl; cbn in *; [lia|lia|].
  rewrite (IH (n - 1)%nat); lia.
Qed.

(** Data that fits into the buffer is one row. *)
Lemma hexdump_one_row data text : data <> [] -> snhexdump 1023 data (length data) = Some text ->
  hexdump_buffer data (length data) = Some [text ++ NL].
Proof.
  intros Hd Ht. unfold hexdump_buffer. destruct data as [|b data]; [done|]. set (n := length (b :: data)) in *.
  assert (Hn : n = S (length data)) by done. clearbody n. rewrite Hn at 1. cbn [hexdump_rows].
  rewrite (proj2 (Nat.eqb_neq n 0)), Nat.ltb_irrefl by lia. cbn [mbind option_bind]. rewrite Ht, Nat.sub_diag.
  by destruct (length data).
Qed.

(** A number of twenty digits is accepted without a complaint, and what is stored for it is shown,
    with the halves of its bytes exchanged again, as the digits that were given. *)
Theorem fru_text_round_trip value old s w :
  Forall (fun c => is_hex c = true) value -> Z.of_nat (length value) = PMDB_FRU_SIZE * 2 -> length old = Z.to_nat PMDB_FRU_SIZE ->
  exists fru, fru_bytes value old s w = (Ret (fru, s), w) /\ length fru = Z.to_nat PMDB_FRU_SIZE /\ bytes_ok fru /\
    hexdump_buffer (map swap_nibbles fru) (length fru) = Some [spaced value ++ NL].
Proof.
  unfold PMDB_FRU_SIZE. intros Hf Hl Ho. exists (fru_of value). assert (length (fru_of value) = 10%nat) as Hn by (apply length_fru_of; lia).
  split; [apply fru_bytes_reads; [done|lia]|]. split; [done|]. split.
  - clear Hl Ho Hn. induction value as [|c|c0 c1 value IH] using pairs_ind; [constructor|constructor|].
    apply Forall_cons in Hf as [H0 Hf]. apply Forall_cons in Hf as [H1 Hf]. cbn [fru_of]. apply bytes_ok_cons. split; [|by apply IH].
    by apply hex_bytes_ok.
  - rewrite <-(length_map swap_nibbles (fru_of value)). apply hexdump_one_row.
    + intros E. apply (f_equal length) in E. rewrite length_map, Hn in E. done.
    + rewrite length_map. apply snhexdump_spaced; [done|exists 10%nat; lia|lia].
Qed.

Section Database.
Context (once many : Z) (read : sep_pmdb_area_t -> Z -> M (Z * bytes)) (write : sep_pmdb_area_t -> bytes -> M Z) (unset : bytes).

Definition sum_of (l : bytes) : Z := foldr Z.add 0 l.

(** The checksum of bytes is their sum, and the complement makes it vanish. *)
Lemma sum_bytes_sum l rest cs : 0 <= cs < 256 -> sum_bytes (l ++ rest) (length l) cs = Some (u8 (cs + sum_of l)).
Proof.
  revert cs. induction l as [|b l IH]; intros cs Hc; cbn [app length sum_bytes sum_of foldr].
  - transitivity (Some cs); [by destruct rest|]. unfold u8. by rewrite Z.add_0_r, Z.mod_small by lia.
  - fold (sum_of l). rewrite IH by (unfold u8; change (2 ^ 8) with 256; apply Z.mod_pos_bound; lia). f_equal. unfold u8.
    rewrite Zplus_mod_idemp_l. f_equal. lia.
Qed.

Lemma twoscomplement_balances l rest : exists cs, twoscomplement (l ++ rest) (length l) = Some cs /\ is_byte cs /\ (sum_of l + cs) mod 256 = 0.
Proof.
  unfold twoscomplement. rewrite sum_bytes_sum by lia. cbn [mbind option_bind]. eexists. split; [done|].
  unfold is_byte, u8. change (2 ^ 8) with 256. split; [apply Z.mod_pos_bound; lia|]. rewrite Zplus_mod_idemp_r. unfold Z.lnot.
  rewrite Z.add_0_l. pose proof (Z.div_mod (sum_of l) 256 ltac:(lia)) as E.
  replace (sum_of l + (Z.pred (- (sum_of l mod 256)) + 1)) with (sum_of l / 256 * 256) by lia. apply Z.mod_mul. lia.
Qed.

(** C25: [oem fru set] with twenty digits replaces the first fourteen bytes of the area that can be written
    many times: the number, a checksum that makes its bytes and itself add up to nothing, and zeros.
    The rest of the area stays as it is, and nothing is written when the area cannot be read.  A value
    of another length is refused. *)
Theorem oem_fru_handler_stores cmd value s w :
  14 <= many -> (Z.to_nat PMDB_FRU_SIZE <= length unset)%nat -> Forall (fun c => is_hex c = true) value ->
  (Z.of_nat (length value) = PMDB_FRU_SIZE * 2 -> exists fru cs,
     fru_bytes value (take (Z.to_nat PMDB_FRU_SIZE) unset) s w = (Ret (fru, s), w) /\ (sum_of fru + cs) mod 256 = 0 /\
     oem_fru_handler unset (pmdb_write_fru once many read write) [cmd; str "set"; value] s w =
     (let! (res, old) := read SEP_PMDB_WRITE_MANY many in
      if truthy res then ret (-1, s) else
      let! res := write SEP_PMDB_WRITE_MANY (fru ++ [cs; 0; 0; 0] ++ drop 14 old) in
      ret (if truthy res then -1 else 0, s)) w) /\
  (Z.of_nat (length value) <> PMDB_FRU_SIZE * 2 -> exists msg,
     oem_fru_handler unset (pmdb_write_fru once many read write) [cmd; str "set"; value] s w =
     (Ret (-1, mkDroid (oem s) (replies s ++ [FAIL msg]) (screen s)), w)).
Proof.
  intros Hm Hu Hf. unfold oem_fru_handler. rewrite bool_decide_eq_true_2 by done. cbn [negb]. split; intros Hl.
  2:{ eexists. rewrite (proj2 (Z.eqb_neq _ _) Hl). reflexivity. }
  rewrite (proj2 (Z.eqb_eq _ _) Hl). cbn [negb].
  assert (Hr : fru_bytes value (take (Z.to_nat PMDB_FRU_SIZE) unset) s w = (Ret (fru_of value, s), w)).
  { apply fru_bytes_reads; [done|]. rewrite length_take. unfold PMDB_FRU_SIZE in *. lia. }
  assert (Hn : length (fru_of value) = 10%nat) by (apply length_fru_of; unfold PMDB_FRU_SIZE in *; lia).
  destruct (twoscomplement_balances (fru_of value) [0; 0; 0; 0]) as (cs & Ec & _ & Es).
  exists (fru_of value), cs. split; [exact Hr|]. split; [exact Es|].
  unfold dbind, bind at 1. rewrite Hr. generalize dependent (fru_of value). intros fru _ Hn Ec _.
  unfold lift, pmdb_write_fru, PMDB_FRU_SIZE, CHECKSUM_SIZE.
  assert (E1 : splice 0 (take (Z.to_nat (Z.min 10 10)) fru) (replicate (Z.to_nat (10 + 4)) 0) = fru ++ [0; 0; 0; 0]).
  { unfold splice. change (Z.to_nat (Z.min 10 10)) with 10%nat. rewrite (take_ge fru) by (rewrite Hn; done). rewrite Hn. done. }
  rewrite E1. change (Z.to_nat 10) with 10%nat. rewrite <-Hn at 1. rewrite Ec.
  assert (E2 : splice 10 [cs] (fru ++ [0; 0; 0; 0]) = fru ++ [cs; 0; 0; 0]).
  { unfold splice. rewrite take_app_length', drop_app_ge by (cbn [length]; lia). cbn [length]. by replace (10 + 1 - length fru)%nat with 1%nat by lia. }
  rewrite E2. unfold pmdb_write_field. change (pmdb_field "fru+cs") with (Some (mkField "fru+cs" WM 0 14)).
  rewrite length_app, Hn. cbn [pf_size pf_db pf_offset]. unfold pmdb_access_write, pmdb_read_modify_write.
  change (Z.of_nat (10 + length [cs; 0; 0; 0])) with 14. change (negb (14 =? 14)) with false. cbv iota. change (u32 (0 + 14)) with 14.
  cbn [pmdb_area_size]. replace (many <? 14) with false by lia. unfold bind.
  destruct (read SEP_PMDB_WRITE_MANY many w) as [[[res old]|x|] w1]; [|done|done]. destruct (truthy res); [done|].
  assert (E3 : splice (Z.to_nat 0) (take (Z.to_nat 14) (fru ++ [cs; 0; 0; 0])) old = fru ++ [cs; 0; 0; 0] ++ drop 14 old).
  { change (Z.to_nat 14) with 14%nat. rewrite take_ge by (rewrite length_app, Hn; done). unfold splice. rewrite length_app, Hn. cbn [length]. by rewrite <-app_assoc. }
  rewrite E3. by destruct (write _ _ w1) as [[res'|x|] w2].
Qed.
End Database.
