(* ===== verification/Updater.v ===== *)
(** * Commands of update scripts (updater.c)

    The functions that edify scripts call.  Evaluating the arguments of a call belongs to edify, and
    reading archives to minizip: parameters.  A result is [None] for NULL, which stops the script, or
    a string; the messages of [ErrorAbort] and the memory that is not released are left out. *)

From stdpp Require Import base list numbers gmap strings.
From Stdlib Require Import ZArith Lia.
From S2P Require Import Prelude GptTypes GuidStr Posix CLib Util FwVersion Osip Bootloader GptImage ScuIpc Flash.
From S2P Require Import CgptTool OemPartition Tee.

Definition result : Type := option bytes.
Definition done : result := Some (str "t").
Definition empty : result := Some [].

(** A value of edify: a string, or a blob of bytes. *)
Inductive value_type := VAL_STRING | VAL_BLOB.
#[global] Instance value_type_eq_dec : EqDecision value_type.
Proof. solve_decision. Defined.

Record Value := mkValue { v_type : value_type; v_data : bytes }.

(** Writing from a mapping, which may be NULL. *)
Definition write_mapping (fd : Z) (data : option bytes) : M Z :=
  match data with
  | Some data => sys_write fd data
  | None => let! f := next_fault in match f with Ferr e => sys_fail e | _ => sys_fail EFAULT end
  end.

(** [for (; length; length -= ret, ptr += ret)]: a write that moves nothing is tried again. *)
Fixpoint write_from (fuel : nat) (fd : Z) (data : option bytes) (length : Z) : M bool :=
  if length =? 0 then ret true else
  match fuel with
  | O => undefined
  | S fuel =>
      let! r := write_mapping fd data in
      if r =? -1 then ret false else write_from fuel fd (drop (Z.to_nat r) <$> data) (length - r)
  end.

(** The end of [FlashImageAtOffset] and of [FlashImageAtPartition]: a file is mapped and written to
    the device at an offset.  [failed] is answered when the device cannot be written. *)
Definition flash_mapping (failed : result) (data : option bytes) (offset length : Z) : M result :=
  let! fd := sys_open MMC_DEV_POS O_WRONLY in
  if fd =? -1 then sys_munmap ;; ret None else
  let finish (r : result) : M result := sys_close fd ;; sys_munmap ;; ret r in
  let! r := sys_lseek fd offset in
  if r =? -1 then finish failed else
  let! n := rounds in
  let! ok := write_from n fd data length in
  if negb ok then finish failed else
  let! r := sys_fsync fd in
  if r =? -1 then finish failed else finish done.

Definition flash_file_at (failed : result) (filename : string) (offset : Z) : M result :=
  let! length := file_size filename in
  if length =? -1 then ret None else
  let! data := file_mmap filename length false in
  match data with
  | MapFailed => ret None
  | Mapped data => flash_mapping failed (Some data) offset length
  | MapNull => flash_mapping failed None offset length
  end.

Section Updater.
Context (cfg : config) (fmt : boot_img_format) (heap : Z -> bytes) (unset : bytes).
Context (property_get : string -> bytes -> bytes) (ioctl_fw_upgrade : Z -> bytes -> M Z).
Context (sys_mkdir : string -> M Z) (sys_mount : string -> string -> string -> M Z).

(** [ReadArgs]: the values of the first [n] arguments, [None] when one of them fails. *)
Context {Expr : Type} (ReadArgs : list Expr -> nat -> M (option (list bytes))).

(** A single string argument, or what is answered when it cannot be read. *)
Definition with_arg (argv : list Expr) (k : bytes -> M result) : M result :=
  let! args := ReadArgs argv 1 in
  match args with Some [filename] => k filename | _ => ret None end.

(** ** Images *)

(** [file_write] is asked for a negative answer. *)
Definition ExtractImageFn (argv : list Expr) : M result :=
  let! args := ReadArgs argv 2 in
  match args with
  | Some [filename; source] =>
      if is_null filename || is_null source then ret None else
      let! (size, data) := read_image cfg fmt heap unset (string_of source) in
      if size <? 0 then ret None else
      let! r := file_write (string_of filename) (default [] data) in
      if r <? 0 then ret None else ret done
  | _ => ret None
  end.

Definition ExecuteOsipFunction (action : option string -> M Z) (argv : list Expr) : M result :=
  with_arg argv (fun destination =>
    if is_null destination then ret None else
    let! r := action (Some (string_of destination)) in
    if r =? -1 then ret None else ret done).

Definition InvalidateOsFn : list Expr -> M result := ExecuteOsipFunction invalidate_osii.
Definition RestoreOsFn : list Expr -> M result := ExecuteOsipFunction restore_osii.

(** A file handed to one of the functions that flash. *)
Definition flash_file (f : bytes -> M Z) (argv : list Expr) : M result :=
  with_arg argv (fun filename =>
    if is_null filename then ret None else
    let! (r, data) := file_read (string_of filename) true in
    match data with
    | None => ret None
    | Some data => let! r := f data in if negb (r =? 0) then ret None else ret done
    end).

Definition FlashCapsuleFn : list Expr -> M result :=
  flash_file (fun data => flash_capsule cfg property_get sys_mkdir sys_mount (Some data)).
Definition FlashUlpmcFn : list Expr -> M result := flash_file flash_ulpmc.

(** What releasing the memory that [basename] returned does. *)
Context (free_basename : M unit).

Context (ReadValueArgs : list Expr -> nat -> M (option (list Value))).

(** The part of a path behind its last slash, without slashes at the end. *)
Fixpoint drop_slashes (l : bytes) : bytes :=
  match l with c :: l' => if c =? 47 then drop_slashes l' else l | [] => [] end.
Fixpoint until_slash (l : bytes) : bytes :=
  match l with c :: l' => if c =? 47 then [] else c :: until_slash l' | [] => [] end.
Definition basename (path : bytes) : bytes :=
  match path with
  | [] => str "."
  | _ => match drop_slashes (reverse path) with [] => str "/" | l => reverse (until_slash l) end
  end.

Definition FlashOSImage (argv : list Expr) : M result :=
  let! args := ReadValueArgs argv 2 in
  match args with
  | Some [contents; partition_value] =>
      if bool_decide (v_type partition_value = VAL_BLOB) then ret None else
      let partition := c_string (v_data partition_value) in
      if is_null partition then ret None else
      if bool_decide (v_type contents = VAL_STRING) && is_null (c_string (v_data contents)) then ret None else
      let! r := flash_image cfg fmt heap unset (v_data contents) (string_of (basename partition)) in
      free_basename ;;
      ret (if negb (r =? 0) then None else done)
  | _ => ret None
  end.

(** ** Firmware archives *)

Inductive flash_option_type := FLASH_IFWI_BINARY | FLASH_BOM_TOKEN_BINARY.

Definition IFWI_NAME : bytes := str "ifwi".
Definition BOM_TOKEN_NAME : bytes := str "bom-token".

Section Archive.
Context {archive entry : Type} (mzOpenZipArchive : bytes -> M (Z * archive)) (mzZipEntries : archive -> list entry).
Context (fileName : entry -> bytes) (mzGetZipEntryUncompLen : entry -> Z).
Context (mzExtractZipEntryToBuffer : archive -> entry -> M (option bytes)) (mzFindZipEntry : archive -> bytes -> option entry).
Context (TEE_FRAMEWORK : bool) (tee : chaabi).

(** An entry unpacked into memory. *)
Definition unpack (za : archive) (e : entry) : M (option bytes) :=
  let size := s32 (mzGetZipEntryUncompLen e) in
  if size <=? 0 then ret None else
  let! ok := sys_malloc size in
  if negb ok then ret None else mzExtractZipEntryToBuffer za e.

(** The token that goes with an image: [Some result] ends the loop. *)
Definition flash_bom_token (za : archive) (ifwi_name : bytes) : M (option result) :=
  if negb TEE_FRAMEWORK then ret None else
  let bom_token_name := BOM_TOKEN_NAME ++ take (128 - length BOM_TOKEN_NAME - 1) (drop (length IFWI_NAME) ifwi_name) in
  match mzFindZipEntry za bom_token_name with
  | None => ret None
  | Some e =>
      let! token := unpack za e in
      match token with
      | None => ret (Some None)
      | Some token =>
          let! r := write_token tee token in
          if r =? 0 then ret None else cancel_update tee ;; ret (Some (Some (str "fail")))
      end
  end.

(** What the update of the firmware answers is not looked at. *)
Fixpoint flash_entries (flash_option : flash_option_type) (za : archive) (entries : list entry) : M result :=
  match entries with
  | [] => ret done
  | e :: entries =>
      if (128 <=? length (fileName e) + 1)%nat then ret None else
      let ifwi_name := c_string (fileName e) in
      if negb (bool_decide (take (length IFWI_NAME) ifwi_name = IFWI_NAME)) then flash_entries flash_option za entries else
      let! buffer := unpack za e in
      match buffer with
      | None => ret None
      | Some buffer =>
          let! r := check_ifwi_file cfg property_get ioctl_fw_upgrade buffer in
          if r <? 1 then flash_entries flash_option za entries else
          match flash_option with
          | FLASH_BOM_TOKEN_BINARY =>
              let! stop := flash_bom_token za ifwi_name in
              match stop with Some r => ret r | None => flash_entries flash_option za entries end
          | FLASH_IFWI_BINARY =>
              update_ifwi_file cfg property_get ioctl_fw_upgrade buffer ;; flash_entries flash_option za entries
          end
      end
  end.

Definition FlashIfwiOrBomFn (flash_option : flash_option_type) (argv : list Expr) : M result :=
  with_arg argv (fun filename =>
    if is_null filename then ret None else
    let! (r, file_buf) := file_read (string_of filename) true in
    match file_buf with
    | None => ret None
    | Some file_buf =>
        let! (err, za) := mzOpenZipArchive file_buf in
        if truthy err then ret None else flash_entries flash_option za (mzZipEntries za)
    end).

Definition FlashIfwiFn : list Expr -> M result := FlashIfwiOrBomFn FLASH_IFWI_BINARY.
Definition FlashBomFn : list Expr -> M result := FlashIfwiOrBomFn FLASH_BOM_TOKEN_BINARY.

Context (mzExtractRecursive : archive -> string -> M bool).

Definition FlashEspUpdateFn : list Expr -> M result :=
  flash_file (flash_esp_update sys_mkdir sys_mount mzOpenZipArchive mzExtractRecursive).
End Archive.

(** ** Images at an offset *)

Definition FlashImageAtOffset (argv : list Expr) : M result :=
  if negb (length argv =? 2)%nat then ret None else
  let! args := ReadArgs argv 2 in
  match args with
  | Some [filename; offset_str] =>
      let '(offset, rest, out_of_range) := strtoul10 offset_str in
      let! errno := get_errno in
      if negb (is_null rest) || out_of_range || (errno =? ERANGE) then ret None else
      flash_file_at None (string_of filename) (s32 offset)
  | _ => ret None
  end.

(** ** Partition tables *)

(** [ReadVarArgs]: the values of all arguments. *)
Context (ReadVarArgs : list Expr -> M (option (list bytes))).

Definition CommandFunction (f : list bytes -> oem_state -> M (Z * oem_state)) (name : bytes) (argv : list Expr) (s : oem_state)
  : M (result * oem_state) :=
  let! args := ReadVarArgs argv in
  match args with
  | None => ret (None, s)
  | Some args => let! (r, s) := f (name :: args) s in ret (if negb (r =? 0) then None else done, s)
  end.

Definition FlashPartition (name : bytes) (argv : list Expr) (s : oem_state) : M (result * oem_state) :=
  let s := oem_partition_disable_cmd_reload s in
  let s := property_set "sys.partitioning" (str "1") s in
  let! (r, s) := CommandFunction (oem_partition_cmd_handler heap) name argv s in
  ret (r, property_set "sys.partitioning" (str "0") s).

Definition EraseOsipHeader (name : bytes) (argv : list Expr) (s : oem_state) : M (result * oem_state) :=
  CommandFunction (fun _ s => let! r := oem_erase_osip_header in ret (r, s)) name argv s.

Definition PARTITION_UPDATE : string := "/tmp/partition_update.tbl".

Definition update_partitions : list string := [ANDROID_OS_NAME; RECOVERY_OS_NAME; FASTBOOT_OS_NAME].

(** What an add command is for: whether it is to be changed, whether it is kept, and the start of
    the image in the OSIP; [None] when there is no such image. *)
Fixpoint catch_partition (words : list bytes) : M (option (bool * bool * Z)) :=
  match words with
  | [] => ret (Some (false, true, 0))
  | word :: words =>
      let keep := negb (begins "reserved" word) in
      if existsb (fun name => begins name word) update_partitions then
        let! osii_lba := get_named_osii_logical_start_block (Some (string_of word)) in
        ret (if osii_lba =? -1 then None else Some (true, keep, osii_lba))
      else if negb keep then ret (Some (false, false, 0)) else catch_partition words
  end.

(** The word behind word [i] replaced by a number, when word [i] begins [opt]; [None] when it is no
    number.  Behind the last word there is a pointer that was never set. *)
Definition replace_number (opt : string) (i : nat) (v : Z) (words : list bytes) : M (option (list bytes)) :=
  match words !! i, words !! S i with
  | Some word, Some number =>
      if negb (begins opt word) then ret (Some words)
      else if negb (is_null (strtoull number).2) then ret None
      else ret (Some (<[S i := fmt_d v]> words))
  | Some word, None => if begins opt word then undefined else ret (Some words)
  | None, _ => ret (Some words)
  end.

Fixpoint update_words (n i : nat) (osii_lba : Z) (words : list bytes) : M (option (list bytes)) :=
  match n with
  | O => ret (Some words)
  | S n =>
      let! words := replace_number "-s" i OS_MAX_LBA words in
      match words with
      | None => ret None
      | Some words =>
          let! words := replace_number "-b" i osii_lba words in
          match words with None => ret None | Some words => update_words n (S i) osii_lba words end
      end
  end.

(** The words of a line as they are written, if they are. *)
Definition update_line (words : list bytes) : M (option (option (list bytes))) :=
  match words with
  | [] => undefined
  | command :: _ =>
      if negb (begins "add" command) then ret (Some (Some words)) else
      let! caught := catch_partition words in
      match caught with
      | None => ret None
      | Some (need, keep, osii_lba) =>
          let! words := if need : bool then update_words (length words) 0 osii_lba words else ret (Some words) in
          ret (match words with None => None | Some words => Some (if keep : bool then Some words else None) end)
      end
  end.

Fixpoint write_words (fp : FILE) (words : list bytes) : M unit :=
  match words with
  | [] => fwrite fp NL ;; ret tt
  | word :: words => fwrite fp (word ++ [32]) ;; write_words fp words
  end.

(** False for the label [error]. *)
Fixpoint update_lines (fuel : nat) (fp fp_update : FILE) : M bool :=
  match fuel with
  | O => undefined
  | S fuel =>
      let! buffer := fgets K_MAX_ARG_LEN fp in
      match buffer with
      | None => ret true
      | Some buffer =>
          match chop_newline buffer with
          | None => undefined
          | Some buffer =>
              let! gpt_argv := OemPartition.str_to_array buffer in
              match gpt_argv with
              | None => update_lines fuel fp fp_update
              | Some words =>
                  let! line := update_line words in
                  match line with
                  | None => ret false
                  | Some None => update_lines fuel fp fp_update
                  | Some (Some words) => write_words fp_update words ;; update_lines fuel fp fp_update
                  end
              end
          end
      end
  end.

(** The update file written from the partition file; false for the label [error]. *)
Definition write_update (fp fp_update : FILE) : M bool :=
  let! buffer := fgets K_MAX_ARG_LEN fp in
  match buffer with
  | None => ret false
  | Some buffer =>
      match chop buffer with
      | None => undefined
      | Some buffer =>
          match partition_type buffer with
          | None => ret false
          | Some _ => fwrite fp_update (buffer ++ NL) ;; let! n := file_rounds fp in update_lines n fp fp_update
          end
      end
  end.

Definition FlashOsipToGPTPartition (argv : list Expr) (s : oem_state) : M (result * oem_state) :=
  let s := oem_partition_disable_cmd_reload s in
  if negb (length argv =? 1)%nat then ret (empty, s) else
  let! args := ReadArgs argv 1 in
  match args with
  | Some [filename] =>
      let! (_, osip) := read_OSIP in
      match dump_osip_header osip with
      | None => undefined
      | Some _ =>
          let! fp := fopen (string_of filename) mode_r in
          match fp with
          | None => ret (empty, s)
          | Some fp =>
              let! fp_update := fopen PARTITION_UPDATE (mkOflags true true false true true) in
              match fp_update with
              | None => fclose fp ;; ret (empty, s)
              | Some fp_update =>
                  let! ok := write_update fp fp_update in
                  fclose fp ;; fclose fp_update ;;
                  if negb ok then ret (empty, s) else
                  let s := property_set "sys.partitioning" (str "1") s in
                  let! (partret, s) := oem_partition_cmd_handler heap [[]; str PARTITION_UPDATE] s in
                  ret (if partret =? -1 then empty else done, property_set "sys.partitioning" (str "0") s)
              end
          end
      end
  | _ => ret (empty, s)
  end.

(** The offset behind "-b" in the words of a line; [None] when it is no number. *)
Fixpoint offset_of (words : list bytes) (offset : Z) : M (option Z) :=
  match words with
  | [] => ret (Some offset)
  | word :: words =>
      if negb (begins "-b" word) then offset_of words offset else
      match words with
      | [] => undefined
      | number :: _ =>
          let '(v, e) := strtoull number in
          if negb (is_null e) then ret None else offset_of words (s32 (u64 (v * 512)))
      end
  end.

(** The lines up to the one that adds [osname]: [Some offset] when there is one. *)
Fixpoint find_partition (fuel : nat) (fp : FILE) (osname : bytes) : M (option (option Z)) :=
  match fuel with
  | O => undefined
  | S fuel =>
      let! buffer := fgets K_MAX_ARG_LEN fp in
      match buffer with
      | None => ret (Some None)
      | Some buffer =>
          match chop_newline buffer with
          | None => undefined
          | Some buffer =>
              let! gpt_argv := OemPartition.str_to_array buffer in
              match gpt_argv with
              | None => find_partition fuel fp osname
              | Some [] => undefined
              | Some (command :: _ as words) =>
                  if begins "add" command && existsb (begins (string_of osname)) words then
                    let! offset := offset_of words 0 in
                    ret (match offset with None => None | Some offset => Some (Some offset) end)
                  else find_partition fuel fp osname
              end
          end
      end
  end.

(** The partition file stays open on the way to the label [free]. *)
Definition FlashImageAtPartition (argv : list Expr) : M result :=
  if negb (length argv =? 3)%nat then ret None else
  let! args := ReadArgs argv 3 in
  match args with
  | Some [osname; filename; parttable] =>
      let! fp := fopen (string_of parttable) mode_r in
      match fp with
      | None => ret empty
      | Some fp =>
          let! buffer := fgets K_MAX_ARG_LEN fp in
          match buffer with
          | None => ret empty
          | Some buffer =>
              match chop buffer with
              | None => undefined
              | Some buffer =>
                  match partition_type buffer with
                  | None => ret empty
                  | Some _ =>
                      let! n := file_rounds fp in
                      let! found := find_partition n fp osname in
                      match found with
                      | None => ret empty
                      | Some None => fclose fp ;; ret empty
                      | Some (Some offset) => fclose fp ;; flash_file_at empty (string_of filename) offset
                      end
                  end
              end
          end
      end
  | _ => ret None
  end.
End Updater.
