(* ===== verification/UpdaterSpec.v ===== *)
(** * What the commands of update scripts do

    Writing an image at an offset of the device, and finding the partition it belongs to. *)

From stdpp Require Import base list numbers gmap strings.
From Stdlib Require Import ZArith Lia.
From S2P Require Import Prelude GuidStr Posix CLib Util UtilSpec Osip OsipSpec CgptTool OemPartition Tee Updater.

(** ** Writing from a mapping *)

Section Write.
Context (fd : Z) (path : string) (r : bool) (k : fkind) (w0 : world) (off : nat) (buf : bytes).
#[local] Abbreviation written := (written fd path r k w0 off buf).

Lemma wp_write_from data fuel pos w :
  (off + length buf <= length data)%nat -> (pos <= length buf)%nat -> written data pos w -> (length (w_faults w) < fuel)%nat ->
  wp (fun o w' => exists b j, o = Ret b /\ (j <= length buf)%nat /\ written data j w' /\
        (b = true -> j = length buf) /\ (quiet w0 -> b = true))
     (Updater.write_from fuel fd (Some (drop pos buf)) (Z.of_nat (length buf) - Z.of_nat pos)) w.
Proof using Type.
  intros Hl. revert pos w. induction fuel as [|fuel IH]; intros pos w Hp Hw Hf; [lia|]. cbn [Updater.write_from write_mapping].
  destruct (Z.eqb_spec (Z.of_nat (length buf) - Z.of_nat pos) 0) as [E0|E0].
  { apply wp_ret. exists true, pos. split_and!; try done; lia. }
  apply (wp_write_step fd path r k w0 off buf _ _ data); [done|lia|done|..].
  - intros w' Hw' _ _ Hq. cbn [Z.eqb Pos.eqb]. apply wp_ret. exists false, pos. by split_and!.
  - intros w' n Hn Hw' At Hfull. replace (Z.of_nat n =? -1) with false by lia.
    cbn [fmap option_fmap option_map]. rewrite drop_drop, Nat2Z.id.
    replace (Z.of_nat (length buf) - Z.of_nat pos - Z.of_nat n) with (Z.of_nat (length buf) - Z.of_nat (pos + n)) by lia.
    destruct (decide (w_faults w = [])) as [Ef|Ef].
    + specialize (Hfull Ef). destruct fuel as [|fuel]; cbn [Updater.write_from];
        rewrite (proj2 (Z.eqb_eq (Z.of_nat (length buf) - Z.of_nat (pos + n)) 0)) by lia;
        apply wp_ret; exists true, (pos + n)%nat; (split_and!; try done; lia).
    + apply IH; [lia|done|]. rewrite At. destruct (w_faults w); cbn [length tail] in *; [done|lia].
Qed.
End Write.

(** ** Calls that change nothing *)

(** The files and descriptors are as before, and the schedule is a later one. *)
Definition calmly (w w' : world) : Prop := unmoved w w' /\ steady w'.

Lemma calmly_trans w1 w2 w3 : calmly w1 w2 -> calmly w2 w3 -> calmly w1 w3.
Proof. intros [U1 _] [U2 S2]. split; [by eapply unmoved_trans|done]. Qed.

Lemma wp_file_size {B} (Q : outcome B -> world -> Prop) kont path data w :
  steady w -> w_files w !! path = Some (mkFile Regular data) -> Z.of_nat (length data) < 2 ^ 31 ->
  (forall w', calmly w w' -> wp Q (kont (Z.of_nat (length data))) w') ->
  (forall w', calmly w w' -> ~ quiet w -> wp Q (kont (-1)) w') ->
  wp Q (bind (file_size path) kont) w.
Proof.
  intros Hs Hf Hl H1 H2. unfold file_size. apply wp_assoc, wp_bind.
  assert (Hc : wp (fun o w' => unmoved w w' /\ (o = Ret (0, Z.of_nat (length data)) \/ o = Ret (-1, 0) /\ ~ quiet w)) (sys_stat path) w).
  { unfold wp, sys_stat, bind, next_fault, sys_fail, unmoved, quiet, ret.
    destruct (w_faults w) as [|[|e|n] fs] eqn:Ef; cbn; rewrite ?Hf; cbn; split; try (by split_and!); auto. }
  eapply wp_mono; [apply (wp_and _ (advanced w) _ _ Hc), advanced_stat|].
  intros o w' [[Hu [->|[-> Hq]]] Ha]; apply wp_bind, wp_ret; cbn [Z.eqb Pos.eqb].
  - rewrite s32_small by lia. apply H1. split; [done|]. by eapply advanced_steady.
  - apply H2; [|done]. split; [done|]. by eapply advanced_steady.
Qed.

Lemma advanced_mmap_read fd n w : advanced w (sys_mmap_read fd n w).2.
Proof. unfold sys_mmap_read. run_call. Qed.

Lemma advanced_munmap w : advanced w (sys_munmap w).2.
Proof. unfold sys_munmap. run_call. Qed.

Lemma advanced_write_nothing fd w : advanced w (write_mapping fd None w).2.
Proof. unfold write_mapping. run_call. Qed.

Lemma wp_munmap {B} (Q : outcome B -> world -> Prop) kont w :
  steady w -> (forall w' r, calmly w w' -> wp Q (kont r) w') -> wp Q (bind sys_munmap kont) w.
Proof.
  intros Hs H. apply wp_bind.
  assert (Hc : wp (fun o w' => unmoved w w' /\ exists r, o = Ret r) sys_munmap w).
  { unfold wp, sys_munmap, bind, next_fault, sys_fail, unmoved, quiet, ret.
    destruct (w_faults w) as [|[|e|n] fs] eqn:Ef; cbn; split; try (by split_and!); by eexists. }
  eapply wp_mono; [apply (wp_and _ (advanced w) _ _ Hc), advanced_munmap|].
  intros o w' [[Hu [r ->]] Ha]. apply H. split; [done|]. by eapply advanced_steady.
Qed.

Lemma wp_open_calm {B} (Q : outcome B -> world -> Prop) kont path fl file w :
  steady w -> o_creat fl = false -> o_trunc fl = false -> w_files w !! path = Some file -> f_kind file <> Symlink ->
  (forall w', calmly w w' -> ~ quiet w -> wp Q (kont (-1)) w') ->
  (forall w' fd, 2 < fd -> w_fds w !! fd = None -> w_files w' = w_files w -> (quiet w -> quiet w') -> steady w' ->
     w_fds w' = <[ fd := mkFd path 0 (o_read fl) (o_write fl) ]> (w_fds w) -> wp Q (kont fd) w') ->
  wp Q (bind (sys_open path fl) kont) w.
Proof.
  intros Hs Hc Ht Hf Hk H1 H2. apply wp_bind.
  assert (Hopen : wp (fun o w' => unmoved w w' /\ o = Ret (-1) /\ ~ quiet w \/ exists fd, o = Ret fd /\ 2 < fd /\ w_fds w !! fd = None /\
      w_files w' = w_files w /\ (quiet w -> quiet w') /\ w_fds w' = <[ fd := mkFd path 0 (o_read fl) (o_write fl) ]> (w_fds w))
    (sys_open path fl) w).
  { apply wp_open; [done|done| |].
    - intros w' Hu Hq. left. split; [done|]. split; [done|]. intros Hqq. rewrite Hf in Hq.
      destruct (Hq Hqq) as [?|[d E]]; [done|]. by injection E as ->.
    - intros w' fd f _ _ F1 F2 F3 F4 F5. right. exists fd. by split_and!. }
  eapply wp_mono; [apply (wp_and _ (advanced w) _ _ Hopen), advanced_open|].
  intros o w' [[(Hu & -> & Hq)|(fd & -> & F1 & F2 & F3 & F4 & F5)] Ha].
  - apply H1; [|done]. split; [done|]. by eapply advanced_steady.
  - apply H2; try done. by eapply advanced_steady.
Qed.

Lemma wp_close_calm {B} (Q : outcome B -> world -> Prop) kont fd d w :
  steady w -> w_fds w !! fd = Some d ->
  (forall w' r, w_files w' = w_files w -> w_fds w' = delete fd (w_fds w) -> (quiet w -> quiet w') -> steady w' -> wp Q (kont r) w') ->
  wp Q (bind (sys_close fd) kont) w.
Proof.
  intros Hs Hd H. apply wp_bind. unfold wp at 1. pose proof (steady_close fd w Hs) as Hs'. unfold sys_close in *. rewrite Hd in *.
  by apply H.
Qed.

Lemma wp_file_mmap {B} (Q : outcome B -> world -> Prop) kont path data w :
  steady w -> w_files w !! path = Some (mkFile Regular data) -> data <> [] ->
  (forall w', calmly w w' -> wp Q (kont (Mapped data)) w') ->
  (forall w' m, calmly w w' -> ~ quiet w -> m = MapFailed \/ m = MapNull -> wp Q (kont m) w') ->
  wp Q (bind (file_mmap path (Z.of_nat (length data)) false) kont) w.
Proof.
  intros Hs Hf Hne H1 H2. assert (Hpos : (0 < length data)%nat) by (destruct data; cbn; [done|lia]).
  unfold file_mmap. apply wp_assoc. eapply wp_open_calm; [done|done|done|exact Hf|done| |].
  { intros w1 Hw1 Hq. cbn [Z.eqb Pos.eqb]. apply wp_bind, wp_ret. apply H2; auto. }
  intros w1 fd Hfd Hfresh F1 Q1 S1 D1. rewrite (proj2 (Z.eqb_neq fd (-1))) by lia. apply wp_assoc, wp_bind.
  assert (Hff : fd_file w1 fd = Some (mkFd path 0 true false, mkFile Regular data)).
  { unfold fd_file. rewrite D1, lookup_insert_eq. cbn. by rewrite F1, Hf. }
  assert (Hc : wp (fun o w' => unmoved w1 w' /\ (o = Ret (Some data) \/ o = Ret None /\ ~ quiet w1)) (sys_mmap_read fd (Z.of_nat (length data))) w1).
  { unfold wp, sys_mmap_read, bind, next_fault, sys_fail, unmoved, quiet, ret. unfold fd_file in *.
    destruct (w_faults w1) as [|[|e|n] fs] eqn:Ef; cbn; rewrite ?Hff; cbn;
      rewrite ?(proj2 (Z.eqb_neq (Z.of_nat (length data)) 0)), ?Z.ltb_irrefl, ?Nat2Z.id, ?firstn_all by lia; cbn;
      (split; [by split_and!|]); auto. }
  eapply wp_mono; [apply (wp_and _ (advanced w1) _ _ Hc), advanced_mmap_read|].
  intros o w2 [[(U1 & U2 & U3) Ho] Ha]. pose proof (advanced_steady _ _ Ha S1) as S2.
  assert (Hend : forall m, (forall w', calmly w w' -> wp Q (kont m) w') ->
    wp Q (let! _ := sys_close fd in let! x := ret m in kont x) w2).
  { intros m Hm. eapply wp_close_calm; [done|by rewrite U2, D1, lookup_insert_eq|].
    intros w3 r G1 G2 G3 S3. apply wp_bind, wp_ret. apply Hm. split; [|done]. split_and!.
    - by rewrite G1, U1, F1.
    - by rewrite G2, U2, D1, delete_insert_id.
    - auto. }
  destruct Ho as [->|[-> Hq]]; apply wp_assoc; apply (Hend _).
  - exact H1.
  - intros w3 Hw3. apply H2; [done| |by left]. auto.
Qed.

(** ** Images at an offset *)

Section Offset.
Context (k : fkind) (w0 : world).
#[local] Abbreviation device := (UtilSpec.device MMC_DEV_POS k w0).
#[local] Abbreviation open_device := (UtilSpec.open_device MMC_DEV_POS k w0).

(** The first [j] bytes of the file are on the device at [offset]: all of them when done. *)
Definition flashed (failed : result) (offset : nat) (buf data : bytes) (o : outcome result) (w : world) : Prop :=
  exists r j, o = Ret r /\ (j <= length buf)%nat /\ device (splice offset (take j buf) data) w /\
    (r = done /\ j = length buf \/ r = None \/ r = failed) /\ (quiet w0 -> r = done).

Lemma flashed_nothing failed offset buf data w :
  device data w -> ~ quiet w0 -> flashed failed offset buf data (Ret None) w.
Proof using Type.
  intros Hw Hq. exists None, 0%nat. split_and!; try done; [lia| |by right; left]. by rewrite splice_nil.
Qed.

Lemma flashed_failed failed offset buf data w :
  device data w -> ~ quiet w0 -> flashed failed offset buf data (Ret failed) w.
Proof using Type.
  intros Hw Hq. exists failed, 0%nat. split_and!; try done; [lia| |by right; right]. by rewrite splice_nil.
Qed.

Lemma wp_seek_device {B} (Q : outcome B -> world -> Prop) kont fd rd wr data offset w :
  open_device fd rd wr data w -> 0 <= offset < 2 ^ 31 ->
  (forall w', open_device fd rd wr data w' -> ~ quiet w0 -> wp Q (kont (-1)) w') ->
  (forall w', open_device fd rd wr data w' -> w_fds w' !! fd = Some (mkFd MMC_DEV_POS offset rd wr) -> wp Q (kont offset) w') ->
  wp Q (bind (sys_lseek fd offset) kont) w.
Proof using Type.
  intros Hw Ho H1 H2. assert (E64 : s64 offset = offset).
  { unfold s64, to_signed. rewrite Z.mod_small by lia. by rewrite (proj2 (Z.ltb_lt _ _)) by lia. }
  pose proof Hw as [E1 E2 (off & Hoff & E3) E4 E5 E6]. apply wp_bind.
  assert (Hfd : fd_file w fd = Some (mkFd MMC_DEV_POS off rd wr, mkFile k data)).
  { unfold fd_file. rewrite E3. cbn. by rewrite E1, lookup_insert_eq. }
  assert (Hc : wp (fun o w' => unmoved w w' /\ o = Ret (-1) /\ ~ quiet w \/
      o = Ret offset /\ moved fd w (mkFd MMC_DEV_POS off rd wr) offset w') (sys_lseek fd offset) w).
  { apply (wp_lseek fd w _ _ Hfd); rewrite E64; [intros w' Hu Hq; left; split_and!; try done; intros H; specialize (Hq H); lia|auto]. }
  eapply wp_mono; [apply (wp_and _ (advanced w) _ _ Hc), advanced_lseek|].
  intros o w' [Ho' Ha]. pose proof (advanced_steady _ _ Ha E5) as Hs. destruct Ho' as [(Hu & -> & Hq)|(-> & F1 & F2 & F3)].
  - apply H1; [|auto]. by eapply open_device_unmoved.
  - apply H2; [split; rewrite ?F1, ?F2; try done; auto|by rewrite F2, lookup_insert_eq].
    + by rewrite delete_insert_eq.
    + rewrite lookup_insert_eq. exists offset. split; [lia|done].
Qed.

Lemma wp_write_nothing {B} (Q : outcome B -> world -> Prop) kont fuel fd n rd wr data w :
  open_device fd rd wr data w -> 0 < n -> (forall w', open_device fd rd wr data w' -> wp Q (kont false) w') ->
  wp Q (bind (Updater.write_from (S fuel) fd None n) kont) w.
Proof using Type.
  intros Hw Hn H. cbn [Updater.write_from write_mapping]. rewrite (proj2 (Z.eqb_neq n 0)) by lia. apply wp_assoc, wp_bind.
  assert (Hc : wp (fun o w' => unmoved w w' /\ o = Ret (-1)) (write_mapping fd None) w).
  { unfold wp, write_mapping, bind, next_fault, sys_fail, unmoved, quiet.
    destruct (w_faults w) as [|[|e|m] fs] eqn:Ef; cbn; (split; [by split_and!|done]). }
  eapply wp_mono; [apply (wp_and _ (advanced w) _ _ Hc), advanced_write_nothing|]. intros o w' [[Hu ->] Ha]. cbn [Z.eqb Pos.eqb].
  apply wp_bind, wp_ret, H. eapply open_device_unmoved; [done|done|]. eapply advanced_steady; [done|apply Hw].
Qed.

Lemma flashed_close (Q : outcome result -> world -> Prop) fd rd wr data (r : result) w :
  open_device fd rd wr data w -> (forall w', device data w' -> Q (Ret r) w') ->
  wp Q (let! _ := sys_close fd in let! _ := sys_munmap in ret r) w.
Proof using Type.
  intros Hw H. eapply wp_close_device; [exact Hw|]. intros w1 _ Hw1. apply wp_munmap; [apply Hw1|].
  intros w2 _ [Hu Hs]. apply wp_ret, H. by eapply device_unmoved.
Qed.

Lemma wp_flash_mapping failed m offset buf data w :
  k <> Symlink -> device data w -> buf <> [] -> m = Some buf \/ m = None /\ ~ quiet w0 ->
  Z.of_nat (offset + length buf) < 2 ^ 31 -> (offset + length buf <= length data)%nat ->
  wp (flashed failed offset buf data) (flash_mapping failed m (Z.of_nat offset) (Z.of_nat (length buf))) w.
Proof using Type.
  intros Hk Hw Hne Hm Hb Hl. assert (Hpos : (0 < length buf)%nat) by (destruct buf; cbn; [done|lia]).
  unfold flash_mapping. eapply wp_open_device; [done|done|exact Hw| |].
  { intros w1 Hw1 Hq. cbn [Z.eqb Pos.eqb]. apply wp_munmap; [apply Hw1|]. intros w2 _ [Hu Hs].
    apply wp_ret, flashed_nothing; [by eapply device_unmoved|done]. }
  intros fd w3 Hfd Hod _. rewrite (proj2 (Z.eqb_neq fd (-1))) by lia. cbv zeta.
  eapply wp_seek_device; [exact Hod|lia| |].
  { intros w4 Hw4 Hq. cbn [Z.eqb Pos.eqb]. eapply flashed_close; [exact Hw4|]. intros w5 Hw5. by apply flashed_failed. }
  intros w4 Hw4 Hop. rewrite (proj2 (Z.eqb_neq (Z.of_nat offset) (-1))) by lia. apply wp_bind. unfold wp at 1, rounds.
  cbn [fst snd]. rewrite Nat.add_succ_r. destruct Hm as [->|[-> Hq]].
  2:{ eapply wp_write_nothing; [exact Hw4|lia|]. intros w5 Hw5. cbn [negb]. eapply flashed_close; [exact Hw5|].
      intros w6 Hw6. by apply flashed_failed. }
  pose proof Hw4 as [E1 E2 _ E4 E5 E6]. apply wp_bind. eapply wp_mono.
  { pose proof (wp_write_from fd MMC_DEV_POS false k w4 offset buf data (S (length (w_faults w4) + 1)) 0 w4) as Hwr.
    rewrite drop_0, Z.sub_0_r in Hwr. apply Hwr; [done|lia| |lia]. split_and!; try done.
    - by rewrite take_0, splice_nil, E1, insert_insert_eq.
    - by rewrite Nat.add_0_r. }
  intros o w5 (b & j & -> & Hj & (F1 & F2 & F3 & F4 & F5) & Hb1 & Hb2).
  assert (Hod5 : open_device fd false true (splice offset (take j buf) data) w5).
  { split; [by rewrite F1, E1, insert_insert_eq|congruence| |done|done|auto]. eexists; split; [|exact F5]. lia. }
  destruct b; cbn [negb].
  2:{ eapply flashed_close; [exact Hod5|]. intros w6 Hw6. exists failed, j. split_and!; try done; [by right; right|].
      intros Hq. by specialize (Hb2 (E6 Hq)). }
  rewrite take_ge in Hod5 by (rewrite (Hb1 eq_refl); lia).
  eapply wp_fsync_device; [exact Hod5|]. intros w6 r Hod6 [->|[-> Hq]]; cbn [Z.eqb Pos.eqb];
    (eapply flashed_close; [exact Hod6|]); intros w7 Hw7.
  - exists done, (length buf). rewrite take_ge by lia. split_and!; try done. by left.
  - exists failed, (length buf). rewrite take_ge by lia. split_and!; try done. by right; right.
Qed.

Lemma wp_flash_file_at failed filename offset buf data w :
  k <> Symlink -> device data w -> w_files w !! filename = Some (mkFile Regular buf) -> buf <> [] ->
  Z.of_nat (offset + length buf) < 2 ^ 31 -> (offset + length buf <= length data)%nat ->
  wp (flashed failed offset buf data) (flash_file_at failed filename (Z.of_nat offset)) w.
Proof using Type.
  intros Hk Hw Hf Hne Hb Hl. unfold flash_file_at.
  apply (wp_file_size _ _ _ _ _ (dv_steady _ _ _ _ _ Hw) Hf); [lia| |].
  2:{ intros w1 [Hu Hs] Hq. cbn [Z.eqb Pos.eqb]. apply wp_ret, flashed_nothing; [by eapply device_unmoved|].
      intros Hq0. by apply Hq, (dv_quiet _ _ _ _ _ Hw). }
  intros w1 [U1 S1]. rewrite (proj2 (Z.eqb_neq (Z.of_nat (length buf)) (-1))) by lia.
  pose proof (device_unmoved _ _ _ _ _ _ Hw U1 S1) as Hw1.
  assert (Hf1 : w_files w1 !! filename = Some (mkFile Regular buf)) by (destruct U1 as [-> _]; exact Hf).
  apply (wp_file_mmap _ _ _ _ _ S1 Hf1 Hne).
  - intros w2 [U2 S2]. apply wp_flash_mapping; try done; [by eapply device_unmoved|by left].
  - intros w2 m [U2 S2] Hq. pose proof (device_unmoved _ _ _ _ _ _ Hw1 U2 S2) as Hw2.
    assert (Hq0 : ~ quiet w0) by (intros Hq0; by apply Hq, (dv_quiet _ _ _ _ _ Hw1)).
    intros [-> | ->]; [by apply wp_ret, flashed_nothing|]. apply wp_flash_mapping; try done. by right.
Qed.
End Offset.

(** ** The command *)

Section Command.
Context {Expr : Type} (ReadArgs : list Expr -> nat -> M (option (list bytes))).

(** C7: An update script writes an image at an offset of the device, and nothing else.  When it is told
    that this is done, the whole image is there, and otherwise some first part of it; without a fault
    it is always done. *)
Theorem flash_image_at_offset_writes k argv filename offset_str offset buf data w :
  k <> Symlink -> length argv = 2%nat -> ReadArgs argv 2 w = (Ret (Some [filename; offset_str]), w) ->
  strtoul10 offset_str = (Z.of_nat offset, [], false) -> w_errno w <> ERANGE -> steady w ->
  w_files w !! MMC_DEV_POS = Some (mkFile k data) -> w_files w !! string_of filename = Some (mkFile Regular buf) -> buf <> [] ->
  Z.of_nat (offset + length buf) < 2 ^ 31 -> (offset + length buf <= length data)%nat ->
  wp (fun o w' => exists r j, o = Ret r /\ (j <= length buf)%nat /\
        w_files w' = <[ MMC_DEV_POS := mkFile k (splice offset (take j buf) data) ]> (w_files w) /\
        w_fds w' = w_fds w /\ (r = done /\ j = length buf \/ r = None) /\ (quiet w -> r = done))
     (FlashImageAtOffset ReadArgs argv) w.
Proof using Type.
  intros Hk Hargv Hread Hnum He Hs Hd Hf Hne Hb Hl. unfold FlashImageAtOffset. rewrite Hargv. cbn [Nat.eqb negb].
  apply wp_bind. unfold wp at 1. rewrite Hread. cbn [fst snd]. rewrite Hnum. apply wp_bind. unfold wp at 1, get_errno.
  cbn [fst snd is_null negb orb]. rewrite (proj2 (Z.eqb_neq _ _) He). rewrite s32_small by lia.
  eapply wp_mono; [eapply (wp_flash_file_at k w); try done; by apply device_self|].
  intros o w' (r & j & -> & Hj & [E1 E2 _ _] & Hr & Hq). exists r, j. split_and!; try done.
  destruct Hr as [?|[?|?]]; auto.
Qed.
End Command.
