(* ===== verification/DroidbootSample.v ===== *)
(** * Commands on a concrete device

    The theorems about the commands of the boot loader and of update scripts applied to a device with
    boot partitions, to a security engine with two tokens and to a small storage device. *)

From stdpp Require Import base list numbers gmap strings.
From Stdlib Require Import ZArith Lia.
From S2P Require Import Prelude GuidStr Posix CLib Util UtilSpec IfwiEmmc IfwiEmmcSpec FirmwareSample Osip Flash.
From S2P Require Import OemPartition Tee Droidboot DroidbootSpec TokenSpec Updater UpdaterSpec TypeSpec FlashSample.

#[local] Opaque Z.to_nat.

(** ** Timeouts *)

Definition emmc_config : config := mkConfig false false false true false false.

Definition emmc_start : droidboot := mkDroid (oem_start {[ "sys.mia.version"%string := str "1" ]}) [] [].

Lemma dnx_timeout_read_back_witness :
  "tenseconds"%string ∈ timeouts /\
  exists r s1 w1, oem_dnx_timeout emmc_config (fun _ _ => undefined) [str "dnx_timeout"; str "set"; str "tenseconds"] emmc_start boot_world
    = (Ret (r, s1), w1) /\ r = 0 /\ replies s1 = [OKAY []].
Proof.
  assert (Hn : "tenseconds"%string ∈ timeouts) by (apply list_elem_of_In; vm_compute; tauto).
  split; [exact Hn|].
  pose proof (dnx_timeout_read_back emmc_config (fun _ _ => undefined) "tenseconds" emmc_start boot_world _ _ _ _
    Hn ltac:(split; reflexivity) boot_world_device (bytes_ok_zeros _)) as H.
  unfold wp in H at 1. destruct (oem_dnx_timeout _ _ _ emmc_start boot_world) as [o w1]. cbn [fst snd] in H.
  destruct H as (r & s1 & -> & Hq & H1 & _).
  specialize (Hq eq_refl). subst r. exists 0, s1, w1. split; [done|]. split; [done|]. by apply H1.
Defined.

(** ** Tokens *)

(** An engine that holds one item in each of two subgroups, and answers nothing else. *)
Definition two_tokens : chaabi := mkChaabi
  (fun _ _ => ret (0, [1; 2])) (fun _ _ _ => ret (0, [3])) (fun _ _ _ _ => ret (0, 2)) (fun _ sg it _ _ _ => ret (0, [16 * sg; it]))
  undefined (fun _ => undefined) (fun _ => undefined) (fun _ => undefined) undefined (fun _ _ => undefined) (fun _ _ => undefined)
  (fun _ _ => undefined) (fun _ _ _ => undefined) (fun _ _ => undefined) (fun _ => undefined) undefined undefined undefined.

Lemma two_tokens_answer dg flags : answers two_tokens dg flags (0, [1; 2]) (fun _ => (0, [3])) (fun _ _ => (0, 2)) (fun sg it => (0, [16 * sg; it])).
Proof. by split. Qed.

Definition no_output : tee_state := mkTee (-1) [].


(** ** The FRU number *)

Definition fru_number : bytes := str "0123456789aBcDeF0011".

Lemma fru_text_round_trip_witness :
  Z.of_nat (length fru_number) = PMDB_FRU_SIZE * 2 /\
  exists fru, fru_bytes fru_number (repeat 0 10) emmc_start boot_world = (Ret (fru, emmc_start), boot_world) /\
    hexdump_buffer (map swap_nibbles fru) (length fru) = Some [str "01 23 45 67 89 ab cd ef 00 11 " ++ NL].
Proof.
  split; [reflexivity|].
  destruct (fru_text_round_trip fru_number (repeat 0 10) emmc_start boot_world) as (fru & E1 & _ & _ & E2);
    [repeat constructor|reflexivity|reflexivity|]. exists fru. split; [exact E1|]. exact E2.
Defined.

Definition database (db : sep_pmdb_area_t) (n : Z) : M (Z * bytes) := ret (0, replicate (Z.to_nat n) 255).

Lemma oem_fru_handler_stores_witness :
  Z.of_nat (length fru_number) = PMDB_FRU_SIZE * 2 /\
  exists fru cs, (sum_of fru + cs) mod 256 = 0 /\
    oem_fru_handler (repeat 0 16) (pmdb_write_fru 16 20 database (fun _ _ => ret 0)) [str "fru"; str "set"; fru_number] emmc_start boot_world = (Ret (0, emmc_start), boot_world).
Proof.
  split; [reflexivity|].
  destruct (oem_fru_handler_stores 16 20 database (fun _ _ => ret 0) (repeat 0 16) (str "fru") fru_number emmc_start boot_world) as [H _];
    [lia|vm_compute; lia|repeat constructor|]. destruct (H eq_refl) as (fru & cs & _ & Hs & E). exists fru, cs. split; [exact Hs|]. by rewrite E.
Defined.

(** ** Images at an offset *)

Definition storage_world : world :=
  mkWorld (<[ MMC_DEV_POS := mkFile (Block 512) (repeat 0 16) ]> (<[ "/tmp/image"%string := mkFile Regular [1; 2; 3] ]> ∅)) ∅ [] 0.

Definition script_arguments (argv : list bytes) (n : nat) : M (option (list bytes)) := ret (Some (take n argv)).

Lemma flash_image_at_offset_writes_witness :
  strtoul10 (str "4") = (4, [], false) /\
  exists w', FlashImageAtOffset script_arguments [str "/tmp/image"; str "4"] storage_world = (Ret done, w') /\
    w_files w' !! MMC_DEV_POS = Some (mkFile (Block 512) ([0; 0; 0; 0; 1; 2; 3] ++ repeat 0 9)).
Proof.
  split; [reflexivity|].
  pose proof (flash_image_at_offset_writes script_arguments (Block 512) [str "/tmp/image"; str "4"] (str "/tmp/image") (str "4")
    4 [1; 2; 3] (repeat 0 16) storage_world ltac:(done) eq_refl eq_refl eq_refl ltac:(done) ltac:(split; [constructor|done])
    eq_refl eq_refl ltac:(done) ltac:(cbn; lia) ltac:(cbn; lia)) as H.
  unfold wp in H. destruct (FlashImageAtOffset _ _ storage_world) as [o w'].
  cbn [fst snd] in H.
  destruct H as (r & j & -> & _ & Ef & _ & Hr & Hq).
  specialize (Hq eq_refl). subst r. destruct Hr as [[_ ->]|]; [|done]. exists w'. split; [done|].
  rewrite Ef, lookup_insert_eq. reflexivity.
Defined.

(** ** Worlds of bytes *)

(** The device of the other examples, on which the first call is cut short and the second one interrupted. *)
Definition troubled_world : world := set_faults [Fshort 1; Ferr EINTR] device_world.

