(* ===== verification/Flashtool.v ===== *)
(** * The flash tool (flashtool.c)

    A command line around flash.c and update_osip.c: the last option that names a command decides,
    and everything it prints is left out. *)

From stdpp Require Import base list numbers gmap strings.
From Stdlib Require Import ZArith Lia.
From S2P Require Import Prelude GuidStr Posix CLib Util FwVersion Osip Flash.

Inductive cmd := CMD_NONE | CMD_DUMP_FW_VER | CMD_WRITE_OSIP | CMD_READ_OSIP | CMD_WRITE_FW | CMD_WRITE_3G_FW.

Section Flashtool.
Context (cfg : config) (heap : Z -> bytes).
Context (property_get : string -> bytes -> bytes) (ioctl_fw_upgrade : Z -> bytes -> M Z).

(** The header and the versions are read to be printed. *)
Definition cmd_show_data : M unit :=
  let! (r, osip) := read_OSIP in
  (if truthy r then ret tt else match dump_osip_header osip with None => undefined | Some _ => ret tt end) ;;
  get_current_fw_rev ;; ret tt.

(** A file that is needed: without it the process exits. *)
Definition need_file (filename : option bytes) : M bytes :=
  match filename with
  | None => exit 1
  | Some filename =>
      let! (r, data) := file_read (string_of filename) true in
      match data with None => exit 1 | Some data => ret data end
  end.

(** The versions are printed even when the image has none. *)
Definition cmd_dump_fw (filename : option bytes) : M unit :=
  let! data := need_file filename in
  match get_image_fw_rev data (Z.of_nat (length data)) true with None => undefined | Some _ => ret tt end.

Definition cmd_write_fw (filename : option bytes) : M unit :=
  let! data := need_file filename in
  let! r := update_ifwi_image cfg property_get ioctl_fw_upgrade data 0 in
  if truthy r then exit 1 else ret tt.

Definition cmd_read_osip (entry filename : option bytes) : M unit :=
  match entry, filename with
  | Some entry, Some filename =>
      let! index := get_named_osii_index (Some (string_of entry)) READ_OSIP_HEADER in
      if truthy (check_index_outofbound index) then exit 1 else
      let! (r, _, data) := read_osimage_data heap index in
      if truthy r then exit 1 else
      let! r := file_write (string_of filename) (default [] data) in
      if truthy r then exit 1 else ret tt
  | _, _ => exit 1
  end.

Definition cmd_write_osip (entry filename : option bytes) : M unit :=
  match entry, filename with
  | Some entry, Some filename =>
      let! index := get_named_osii_index (Some (string_of entry)) WRITE_OSIP_HEADER in
      if truthy (check_index_outofbound index) then exit 1 else
      let! data := need_file (Some filename) in
      let! r := write_stitch_image data (Z.of_nat (length data)) index in
      if truthy r then exit 1 else ret tt
  | _, _ => exit 1
  end.

(** ** The command line *)

Record choice := mkChoice { ch_entry : option bytes; ch_filename : option bytes; ch_cmd : cmd }.

(** The options up to the end; one that is unknown, or lacks its argument, ends the process. *)
Fixpoint tool_options (fuel : nat) (argv : list bytes) (st : getopt_state) (c : choice) : M choice :=
  match fuel with
  | O => undefined
  | S fuel =>
      match getopt argv (str "i:w:r:dv:hf:g:") st with
      | (EndOpts, _) => ret c
      | (Opt o optarg, st) =>
          let go c := tool_options fuel argv st c in
          if o =? 105 (* i *) then go (mkChoice (Some optarg) (ch_filename c) (ch_cmd c))
          else if o =? 119 (* w *) then go (mkChoice (ch_entry c) (Some optarg) CMD_WRITE_OSIP)
          else if o =? 114 (* r *) then go (mkChoice (ch_entry c) (Some optarg) CMD_READ_OSIP)
          else if o =? 118 (* v *) then go (mkChoice (ch_entry c) (Some optarg) CMD_DUMP_FW_VER)
          else if o =? 102 (* f *) then go (mkChoice (ch_entry c) (Some optarg) CMD_WRITE_FW)
          else if o =? 103 (* g *) then go (mkChoice (ch_entry c) (Some optarg) CMD_WRITE_3G_FW)
          else if o =? 104 (* h *) then exit 0
          else exit 1
      | _ => exit 1
      end
  end.

(** The 3G firmware is asked for and nothing is done. *)
Definition run_choice (c : choice) : M unit :=
  match ch_cmd c with
  | CMD_NONE => cmd_show_data
  | CMD_DUMP_FW_VER => cmd_dump_fw (ch_filename c)
  | CMD_READ_OSIP => cmd_read_osip (ch_entry c) (ch_filename c)
  | CMD_WRITE_OSIP => cmd_write_osip (ch_entry c) (ch_filename c)
  | CMD_WRITE_FW => cmd_write_fw (ch_filename c)
  | CMD_WRITE_3G_FW => ret tt
  end.

Definition flashtool_main (argv : list bytes) : M Z :=
  let! c := tool_options (getopt_fuel argv getopt_start) argv getopt_start (mkChoice None None CMD_NONE) in
  run_choice c ;; ret 0.
End Flashtool.
