(* ===== verification/StateOp.v ===== *)
(** * Operations on a state

    An operation answers a value and a new state, or has no defined result.  Triples say what an
    operation leaves when it has a result; [keeps] is the case of an invariant.  The services for
    displays are made of such operations.  They keep their listeners in a [KeyedVector] of Android's
    utilities: a list of pairs that is ordered by the keys. *)

From Stdlib Require Import ZArith Lia Sorting.Sorted.
From stdpp Require Import base list numbers strings tactics.
From S2P Require Import Prelude.

(** ** Vectors ordered by their keys *)

Section Keyed.
Context {A : Type}.

Definition has_key (id : Z) (ls : list (Z * A)) : bool := existsb (fun '(k, _) => k =? id) ls.

(** [KeyedVector::add] and [KeyedVector::removeItem] *)
Fixpoint keyed_add (id : Z) (l : A) (ls : list (Z * A)) : list (Z * A) :=
  match ls with
  | [] => [(id, l)]
  | (k, l') :: rest => if id <? k then (id, l) :: ls else if id =? k then (id, l) :: rest else (k, l') :: keyed_add id l rest
  end.
Definition keyed_remove (id : Z) (ls : list (Z * A)) : list (Z * A) := List.filter (fun '(k, _) => negb (k =? id)) ls.

Lemma has_key_iff id (ls : list (Z * A)) : has_key id ls = true <-> id ∈ map fst ls.
Proof using Type.
  unfold has_key. rewrite existsb_exists, list_elem_of_fmap. split.
  - intros ([k l] & Hin & E). apply Z.eqb_eq in E as ->. exists (id, l). by rewrite list_elem_of_In.
  - intros ([k l] & -> & Hin). exists (k, l). rewrite list_elem_of_In in Hin. split; [done|]. apply Z.eqb_refl.
Qed.

Lemma keyed_add_keys id l (ls : list (Z * A)) k : k ∈ map fst (keyed_add id l ls) <-> k = id \/ k ∈ map fst ls.
Proof using Type.
  induction ls as [|[k' l'] ls IH]; cbn [keyed_add map fst]; [by rewrite list_elem_of_singleton, elem_of_nil; intuition|].
  destruct (id <? k'); [|destruct (Z.eqb_spec id k') as [->|]]; cbn [map fst]; rewrite ?elem_of_cons, ?IH; tauto.
Qed.

(** The keys stay in order. *)
Lemma keyed_add_sorted id l (ls : list (Z * A)) : StronglySorted Z.lt (map fst ls) -> StronglySorted Z.lt (map fst (keyed_add id l ls)).
Proof using Type.
  induction ls as [|[k l'] ls IH]; cbn [keyed_add map fst]; intros Hs; [by repeat constructor|].
  inversion Hs as [|? ? Hs' Hk]; subst. specialize (IH Hs').
  destruct (Z.ltb_spec id k) as [Hlt|]; [|destruct (Z.eqb_spec id k) as [->|]]; cbn [map fst].
  - constructor; [done|]. constructor; [done|]. rewrite List.Forall_forall in Hk |- *. intros x Hx. specialize (Hk x Hx). lia.
  - by constructor.
  - constructor; [done|]. apply List.Forall_forall. intros x Hx. apply list_elem_of_In, keyed_add_keys in Hx as [->|Hx]; [lia|].
    rewrite List.Forall_forall in Hk. by apply Hk, list_elem_of_In.
Qed.

Lemma keyed_remove_keys id (ls : list (Z * A)) k : k ∈ map fst (keyed_remove id ls) -> k ∈ map fst ls.
Proof using Type.
  rewrite !list_elem_of_fmap. intros ([k' l'] & -> & Hx). exists (k', l'). split; [done|].
  rewrite list_elem_of_In in Hx |- *. by apply filter_In in Hx as [? _].
Qed.

Lemma keyed_remove_sorted id (ls : list (Z * A)) : StronglySorted Z.lt (map fst ls) -> StronglySorted Z.lt (map fst (keyed_remove id ls)).
Proof using Type.
  induction ls as [|[k l] ls IH]; cbn [keyed_remove List.filter map fst] in *; [done|].
  intros Hs. inversion Hs as [|? ? Hs' Hk]; subst. destruct (negb (k =? id)); cbn [map fst]; [|by apply IH].
  constructor; [by apply IH|]. rewrite List.Forall_forall in Hk |- *. intros x Hx. by eapply Hk, list_elem_of_In, keyed_remove_keys, list_elem_of_In.
Qed.
End Keyed.

(** ** Operations; [None] when C++ leaves the behaviour undefined *)

Section State.
Context {S : Type}.

Definition op (A : Type) : Type := S -> option (A * S).
Definition cret {A} (a : A) : op A := fun c => Some (a, c).
Definition cbind {A B} (m : op A) (k : A -> op B) : op B := fun c => match m c with Some (a, c) => k a c | None => None end.
Definition update (f : S -> S) : op unit := fun c => Some (tt, f c).
Definition get {A} (f : S -> A) : op A := fun c => Some (f c, c).

(** ** Triples *)

(** From a state with [P] an operation that has a defined result leaves a state with [Q]. *)
Definition triple {A} (P : S -> Prop) (m : op A) (Q : A -> S -> Prop) : Prop :=
  forall c a c', P c -> m c = Some (a, c') -> Q a c'.

Lemma triple_ret {A} (P : S -> Prop) (a : A) Q : (forall c, P c -> Q a c) -> triple P (cret a) Q.
Proof using Type. intros H c a' c' Hc [= <- <-]. auto. Qed.

Lemma triple_bind {A B} P (R : A -> S -> Prop) m (k : A -> op B) Q :
  triple P m R -> (forall a, triple (R a) (k a) Q) -> triple P (cbind m k) Q.
Proof using Type.
  intros Hm Hk c b c' Hc H. unfold cbind in H. destruct (m c) as [[a c1]|] eqn:E; [|done]. eapply (Hk a); [by eapply Hm|exact H].
Qed.

Lemma triple_update (P : S -> Prop) f (Q : unit -> S -> Prop) : (forall c, P c -> Q tt (f c)) -> triple P (update f) Q.
Proof using Type. intros H c a c' Hc [= <- <-]. auto. Qed.

Lemma triple_get {A} (P : S -> Prop) (f : S -> A) (Q : A -> S -> Prop) : (forall c, P c -> Q (f c) c) -> triple P (get f) Q.
Proof using Type. intros H c a c' Hc [= <- <-]. auto. Qed.

Lemma triple_pre {A} (P P' : S -> Prop) (m : op A) Q : triple P' m Q -> (forall c, P c -> P' c) -> triple P m Q.
Proof using Type. intros H HP c a c' Hc. apply H. auto. Qed.

Lemma triple_post {A} P (m : op A) (Q Q' : A -> S -> Prop) : triple P m Q' -> (forall a c, Q' a c -> Q a c) -> triple P m Q.
Proof using Type. intros H HQ c a c' Hc E. by eapply HQ, H. Qed.

(** ** Invariants *)

(** An operation that keeps [P]. *)
Definition keeps {A} (P : S -> Prop) (m : op A) : Prop := triple P m (fun _ => P).

Lemma keeps_bind {A B} P (m : op A) (k : A -> op B) : keeps P m -> (forall a, keeps P (k a)) -> keeps P (cbind m k).
Proof using Type. intros Hm Hk. by eapply triple_bind. Qed.

Lemma keeps_update (P : S -> Prop) f : (forall c, P c -> P (f c)) -> keeps P (update f).
Proof using Type. intros H c a c' Hc [= <- <-]. auto. Qed.

Lemma keeps_get {A} P (f : S -> A) : keeps P (get f).
Proof using Type. by intros c a c' Hc [= <- <-]. Qed.

Lemma keeps_ret {A} P (a : A) : keeps P (cret a).
Proof using Type. by intros c a' c' Hc [= <- <-]. Qed.

(** What is got from the state may be used. *)
Lemma triple_get_bind {A B} (P : S -> Prop) (f : S -> A) (k : A -> op B) Q :
  (forall a, triple (fun c => P c /\ f c = a) (k a) Q) -> triple P (cbind (get f) k) Q.
Proof using Type. intros H. eapply triple_bind; [apply (triple_get _ _ (fun a c => P c /\ f c = a)); auto|exact H]. Qed.

Lemma keeps_get_bind {A B} (P : S -> Prop) (f : S -> A) (k : A -> op B) :
  (forall a, triple (fun c => P c /\ f c = a) (k a) (fun _ => P)) -> keeps P (cbind (get f) k).
Proof using Type. apply triple_get_bind. Qed.
End State.
#[global] Arguments op : clear implicits.

Ltac keeps :=
  cbv beta zeta;
  lazymatch goal with
  | |- keeps _ (cret _) => apply keeps_ret
  | |- keeps _ (get _) => apply keeps_get
  | |- keeps _ (cbind _ _) => apply keeps_bind; [keeps|intros ?; keeps]
  | |- keeps _ (match ?x with _ => _ end) => destruct x; keeps
  | |- keeps _ (fun _ => None) => intros ? ? ? ? [=]
  | |- keeps _ (update _) => first [solve [eauto]|apply keeps_update; try done]
  | |- _ => eauto
  end.

Declare Scope op_scope.
Notation "'do!' x ':=' m 'in' k" := (cbind m (fun x => k)) (at level 10, x pattern, m at level 99, k at level 200) : op_scope.
Notation "m ';;' k" := (cbind m (fun _ => k)) (at level 100, right associativity) : op_scope.
