(* ===== verification/Houdini.v ===== *)
(** * Translated applications (houdini/hooks/houdini_hook.c, libhoudini_hook.cpp)

    An application whose user is in a list of the package manager is given another file when it opens
    /proc/cpuinfo.  Flags and modes of the open are those of the application: a parameter.

    Libraries for ARM are handed to a translator, which is loaded when it is needed first.  The hooks
    are linked statically into Dalvik and into the module for native activities: each has a pointer
    of its own to the table of entry points, and they share another one.  What the loader and the
    translator answer is a parameter.  Log messages are left out. *)

From stdpp Require Import base list numbers gmap strings tactics relations.
From Stdlib Require Import ZArith Lia.
From S2P Require Import Prelude GuidStr Posix Util UtilSpec StateOp.

#[local] Open Scope string_scope.

Definition APP_WITH_ABI2 : string := "/data/data/.appwithABI2".
Definition APP_WITH_ABI2_NEON : string := "/data/data/.appwithABI2neon".
Definition CPUINFO : string := "/proc/cpuinfo".
Definition ARM_CPUINFO : string := "/system/lib/arm/cpuinfo".
Definition ARM_CPUINFO_NEON : string := "/system/lib/arm/cpuinfo.neon".

#[local] Close Scope string_scope.

(** Four bytes of the list at a time, into a variable that keeps what a short read leaves: whether
    the user is found.  The retry is around the comparison of the result with 0, so a read that is
    interrupted ends the list.  Every round but the last moves on in the file. *)
Fixpoint search_uid (fuel : nat) (fd myuid : Z) (pkguid : bytes) : M bool :=
  match fuel with
  | O => undefined
  | S fuel =>
      let! (r, b) := sys_read fd 4 in
      if r <=? 0 then ret false else
      let pkguid := splice 0 b pkguid in
      if myuid =? s32 (le_dec pkguid) then ret true else search_uid fuel fd myuid pkguid
  end.

Definition uid_rounds (fd : Z) : M nat := fun w =>
  (Ret (match fd_file w fd with Some (_, file) => (length (f_data file) + 1)%nat | None => 1%nat end), w).

Definition pkguid0 : bytes := replicate 4 0.

Section Hook.
(** The flags of the application. *)
Context (flags : oflags).

Definition houdini_hook_open_neon (myuid : Z) : M Z :=
  let! pkg_neon_ABI2 := TEMP_FAILURE_RETRY (sys_open APP_WITH_ABI2_NEON O_RDONLY) in
  if pkg_neon_ABI2 =? -1 then ret (-1) else
  let! n := uid_rounds pkg_neon_ABI2 in
  let! found := search_uid n pkg_neon_ABI2 myuid pkguid0 in
  let! fd := if found : bool then TEMP_FAILURE_RETRY (sys_open ARM_CPUINFO_NEON flags) else ret (-1) in
  TEMP_FAILURE_RETRY (sys_close pkg_neon_ABI2) ;;
  ret fd.

(** The search for a path other than that of the processors is skipped. *)
Definition hooked (path : string) (myuid : Z) : M Z :=
  if negb (bool_decide (path = CPUINFO)) then ret (-1) else
  let! pkg_ABI2 := TEMP_FAILURE_RETRY (sys_open APP_WITH_ABI2 O_RDONLY) in
  if pkg_ABI2 =? -1 then ret (-1) else
  let! n := uid_rounds pkg_ABI2 in
  let! found := search_uid n pkg_ABI2 myuid pkguid0 in
  let! fd :=
    if found : bool then
      let! fd := houdini_hook_open_neon myuid in
      if fd =? -1 then TEMP_FAILURE_RETRY (sys_open ARM_CPUINFO flags) else ret fd
    else ret (-1) in
  TEMP_FAILURE_RETRY (sys_close pkg_ABI2) ;;
  ret fd.

Definition houdini_hook_open (path : string) (myuid : Z) : M Z :=
  let! fd := hooked path myuid in
  if fd =? -1 then TEMP_FAILURE_RETRY (sys_open path flags) else ret fd.
End Hook.

(** ** The entry points of the translator *)

(** A field of the table that [malloc] answered: not set yet, [NULL], or an address. *)
Inductive pointer := Unset | Null | Found.

Record houdiniHook := mkHook {
  handle : pointer; dvm2hdInit : pointer; dvm2hdDlopen : pointer; dvm2hdDlsym : pointer;
  dvm2hdNativeMethodHelper : pointer; dvm2hdNeeded : pointer; androidrt2hdCreateActivity : pointer
}.

(** The pointer of the module and the one that the modules share. *)
Record hooks := mkHooks { gHoudini : option houdiniHook; gHoudiniHook : option houdiniHook }.

(** What a call of [houdiniHookInit] is answered: the property HOUDINI_BUILD_PROP, the heap, the
    loader and the translator. *)
Record loader := mkLoader {
  prop : bytes; malloc_ok : bool; library_found : bool; symbol_found : string -> bool; init_ok : bool
}.

Definition dlsym_library (l : loader) (symbol : string) : pointer := if symbol_found l symbol then Found else Null.

Definition is_found (p : pointer) : bool := match p with Found => true | _ => false end.

Definition found_all (h : houdiniHook) : bool :=
  is_found (dvm2hdDlopen h) && is_found (dvm2hdDlsym h) && is_found (dvm2hdNeeded h) &&
  is_found (dvm2hdNativeMethodHelper h) && is_found (androidrt2hdCreateActivity h).

Definition houdiniHookInit (l : loader) (s : hooks) : bool * hooks :=
  if negb (bool_decide (prop l = str "on")) && negb (bool_decide (prop l = [])) then (false, s) else
  match gHoudiniHook s with
  | Some h => (true, mkHooks (Some h) (Some h))
  | None =>
      if negb (malloc_ok l) then (false, mkHooks None None) else
      let h := mkHook Unset Unset Unset Unset Unset Unset Unset in
      if negb (library_found l) then (false, mkHooks (Some h) None) else
      let init := dlsym_library l "dvm2hdInit" in
      let h := mkHook Found init Unset Unset Unset Unset Unset in
      if negb (is_found init) || negb (init_ok l) then (false, mkHooks (Some h) None) else
      let h := mkHook Found init (dlsym_library l "dvm2hdDlopen") (dlsym_library l "dvm2hdDlsym")
                 (dlsym_library l "dvm2hdNativeMethodHelper") (dlsym_library l "dvm2hdNeeded")
                 (dlsym_library l "androidrt2hdCreateActivity") in
      if negb (found_all h) then (false, mkHooks (Some h) None) else (true, mkHooks (Some h) (Some h))
  end.

(** A call through a field that holds no function is undefined. *)
Definition through {A} (p : pointer) (a : A) : op hooks A := fun s => match p with Found => Some (a, s) | _ => None end.

(** ** The arguments of a method *)

(** Where an argument begins: the variable for the environment or the class, or a word of [argv]. *)
Inductive slot := EnvSlot | ClazzSlot | ArgSlot (i : Z).

(** A call of [dvm2hdNativeMethodHelper]. *)
Record invocation := mkInvocation {
  i_jni_onload : bool; i_func : Z; i_ret : Z; i_argc : Z; i_types : option bytes; i_values : list slot
}.

Definition is_wide (sigByte : Z) : bool := (sigByte =? 68) || (sigByte =? 74).

(** The loop over the signature; [None] when an array is left.  The arrays are as long as [dstArg]. *)
Fixpoint scan_types (kMaxArgs : Z) (sig : bytes) (argv : Z) (types : bytes) (values : list slot) : option (bytes * list slot) :=
  match sig with
  | [] => Some (types ++ [0], values)
  | sigByte :: sig =>
      if kMaxArgs <=? Z.of_nat (length values) then None else
      scan_types kMaxArgs sig (if is_wide sigByte then argv + 2 else argv + 1) (types ++ [sigByte]) (values ++ [ArgSlot argv])
  end.

Section Hooks.
(** The loader of the system and the functions behind the entry points; 0 is the null pointer. *)
Context (native_dlopen : string -> Z -> Z) (native_dlsym : Z -> string -> Z) (native_onload : Z -> Z).
Context (hd_dlopen : string -> Z -> Z) (hd_dlsym : Z -> string -> Z) (hd_needed : Z -> bool) (hd_onload : Z -> Z).

#[local] Open Scope op_scope.

Definition hookCheckMethod (fnPtr : Z) : op hooks bool :=
  do! own := get gHoudini in
  do! shared := get gHoudiniHook in
  let h := match own with None => shared | Some h => Some h end in
  update (fun s => mkHooks h (gHoudiniHook s)) ;;
  match h with
  | Some h => through (dvm2hdNeeded h) (hd_needed fnPtr)
  | None => cret false
  end.

(** [None] when the translator is not there: the call is only reported. *)
Definition dvmHookPlatformInvoke (clazz : bool) (argc : Z) (shorty : bytes) (func : Z) : op hooks (option invocation) :=
  let kMaxArgs := argc + 2 in
  if argc <? 0 then (fun _ => None) else
  match shorty with
  | [] => fun _ => None
  | retType :: sig =>
      match scan_types kMaxArgs sig (if clazz then 0 else 1) [76; 76] [EnvSlot; if clazz then ClazzSlot else ArgSlot 0] with
      | None => fun _ => None
      | Some (types, values) =>
          do! h := get gHoudini in
          match h with
          | Some h => through (dvm2hdNativeMethodHelper h) (Some (mkInvocation false func retType (Z.of_nat (length values)) (Some types) values))
          | None => cret None
          end
      end
  end.

Definition hookDlsym (useHoudini : bool) (handle : Z) (symbol : string) : op hooks Z :=
  if useHoudini then
    do! h := get gHoudini in
    match h with Some h => through (dvm2hdDlsym h) (hd_dlsym handle symbol) | None => cret 0 end
  else cret (native_dlsym handle symbol).

(** The version is 0 when the translator is not there. *)
Definition hookJniOnload (useHoudini : bool) (func : Z) : op hooks Z :=
  if useHoudini then
    do! h := get gHoudini in
    match h with Some h => through (dvm2hdNativeMethodHelper h) (hd_onload func) | None => cret 0 end
  else cret (native_onload func).

(** Whether the activity is created by the translator, [None] when it is not created. *)
Definition hookCreateActivity (useHoudini : bool) : op hooks (option bool) :=
  if useHoudini then
    do! h := get gHoudini in
    match h with Some h => through (androidrt2hdCreateActivity h) (Some true) | None => cret None end
  else cret (Some false).
#[local] Close Scope op_scope.

Definition EM_ARM : Z := 40.

(** What a short read leaves in [header] is what was there: [stack]. *)
Definition hookCheckABI2Header (stack : bytes) (filename : string) : M bool :=
  let! fd := sys_open filename O_RDONLY in
  if fd =? -1 then ret true else
  let! r := sys_lseek fd 0 in
  if r <? 0 then sys_close fd ;; ret false else
  let! (r, b) := sys_read fd 64 in
  if r <? 0 then sys_close fd ;; ret false else
  sys_close fd ;;
  ret (getn 2 18 (splice 0 b stack) =? EM_ARM).

(** A library: its handle, and whether it is one for the translator. *)
Definition hookDlopen (stack : bytes) (l : loader) (filename : string) (flag : Z) (s : hooks) : M (Z * bool * hooks) :=
  let handle := native_dlopen filename flag in
  if negb (handle =? 0) then ret (handle, false, s) else
  let! arm := hookCheckABI2Header stack filename in
  if negb arm then ret (0, false, s) else
  let '(useHoudini, s) := houdiniHookInit l s in
  if useHoudini then
    match gHoudini s with
    | Some (mkHook _ _ Found _ _ _ _) => ret (hd_dlopen filename flag, true, s)
    | _ => undefined
    end
  else ret (0, false, s).

End Hooks.

(** ** The file that is opened *)

Section Cpuinfo.
Context (files : gmap string file) (e : Z).

(** The files, the descriptors [fds], and no call that fails. *)
#[local] Abbreviation still fds := (mkWorld files fds [] e).

Lemma open_still path fl k data fds : files !! path = Some (mkFile k data) -> k <> Symlink -> o_trunc fl = false ->
  TEMP_FAILURE_RETRY (sys_open path fl) (still fds) =
  (Ret (fresh_fd fds), still (<[fresh_fd fds := mkFd path 0 (o_read fl) (o_write fl)]> fds)).
Proof using Type. intros. pose proof (fresh_fd_spec fds) as [_ Hn]. apply retry_done; [by eapply sys_open_still|lia]. Qed.

Lemma close_still fd d fds : fds !! fd = Some d -> TEMP_FAILURE_RETRY (sys_close fd) (still fds) = (Ret 0, still (delete fd fds)).
Proof using Type. intros H. apply retry_done; [by eapply sys_close_still|lia]. Qed.

(** A list of users, as the package manager writes it. *)
Definition user_list (ids : list Z) : bytes := concat (map (le_enc 4) ids).
Definition users (path : string) (ids : list Z) : Prop :=
  files !! path = Some (mkFile Regular (user_list ids)) /\ Forall (fun id => - 2 ^ 31 <= id < 2 ^ 31) ids.

Lemma s32_le_enc id : - 2 ^ 31 <= id < 2 ^ 31 -> s32 (le_dec (le_enc 4 id)) = id.
Proof using Type.
  intros H. rewrite le_dec_enc. unfold s32, to_signed. change (2 ^ (8 * Z.of_nat 4)) with (2 ^ 32). cbv zeta. rewrite Zmod_mod.
  destruct (Z_lt_le_dec id 0).
  - replace (id mod 2 ^ 32) with (id + 2 ^ 32) by (rewrite <-(Z_mod_plus_full id 1), Z.mod_small; lia).
    destruct (Z.ltb_spec (id + 2 ^ 32) (2 ^ (32 - 1))); lia.
  - rewrite Z.mod_small by lia. destruct (Z.ltb_spec id (2 ^ (32 - 1))); lia.
Qed.

(** Reading on, the rest of the list is searched. *)
Lemma search_uid_still path wr fd myuid ids : Forall (fun id => - 2 ^ 31 <= id < 2 ^ 31) ids ->
  forall pre fuel pkguid fds, files !! path = Some (mkFile Regular (pre ++ user_list ids)) ->
  fds !! fd = Some (mkFd path (Z.of_nat (length pre)) true wr) -> length pkguid = 4%nat -> (length ids < fuel)%nat ->
  exists off, search_uid fuel fd myuid pkguid (still fds) =
    (Ret (bool_decide (myuid ∈ ids)), still (<[fd := mkFd path off true wr]> fds)).
Proof using Type.
  induction 1 as [|id ids Hid Hids IH]; intros pre fuel pkguid fds Hf Hfd Hl Hfuel; (destruct fuel as [|fuel]; [lia|]).
  - exists (Z.of_nat (length pre) + 0). cbn [search_uid]. unfold bind at 1. rewrite (sys_read_still _ _ _ _ _ _ _ _ _ _ Hf Hfd) by lia.
    cbn [user_list map concat]. rewrite app_nil_r. by replace (Z.min 4 (Z.max 0 _)) with 0 by lia.
  - assert (Hlen : length (user_list (id :: ids)) = (4 + length (user_list ids))%nat) by reflexivity.
    assert (Hfd' : <[fd:=mkFd path (Z.of_nat (length (pre ++ le_enc 4 id))) true wr]> fds !! fd = Some (mkFd path (Z.of_nat (length (pre ++ le_enc 4 id))) true wr)) by apply lookup_insert_eq.
    destruct (IH (pre ++ le_enc 4 id) fuel (splice 0 (le_enc 4 id) pkguid) _ ltac:(by rewrite <-app_assoc) Hfd') as [off E].
    { rewrite length_splice; rewrite ?length_le_enc; lia. }
    { simpl in Hfuel. lia. }
    cbn [search_uid]. unfold bind at 1. rewrite (sys_read_still _ _ _ _ _ _ _ _ _ _ Hf Hfd) by lia.
    rewrite length_app, Hlen. replace (Z.min 4 (Z.max 0 _)) with 4 by lia. cbn [Z.leb Z.compare].
    assert (Hs : slice (length pre) (Z.to_nat 4) (pre ++ user_list (id :: ids)) = le_enc 4 id).
    { unfold slice. rewrite drop_app_length. unfold user_list. cbn [map concat]. by rewrite take_app_length' by (by rewrite length_le_enc). }
    rewrite Hs. assert (Hsp : splice 0 (le_enc 4 id) pkguid = le_enc 4 id).
    { unfold splice. rewrite drop_ge by (rewrite length_le_enc; lia). by rewrite app_nil_r. }
    rewrite Hsp in E |- *. rewrite s32_le_enc by done.
    destruct (Z.eqb_spec myuid id) as [->|Hne].
    + exists (Z.of_nat (length pre) + 4). rewrite bool_decide_true by apply list_elem_of_here. done.
    + exists off. replace (Z.of_nat (length pre) + 4) with (Z.of_nat (length (pre ++ le_enc 4 id))) by (rewrite length_app, length_le_enc; lia).
      rewrite E, insert_insert_eq. do 2 f_equal. apply bool_decide_ext. rewrite elem_of_cons. tauto.
Qed.

(** The whole list is searched from its beginning. *)
Lemma search_list_still path wr fd myuid ids fds : users path ids -> fds !! fd = Some (mkFd path 0 true wr) ->
  exists off, (let! n := uid_rounds fd in search_uid n fd myuid pkguid0) (still fds) =
    (Ret (bool_decide (myuid ∈ ids)), still (<[fd := mkFd path off true wr]> fds)).
Proof using Type.
  intros [Hf Hids] Hfd. unfold bind, uid_rounds, fd_file. cbn [w_fds w_files]. rewrite Hfd. cbn [mbind option_bind fd_path]. rewrite Hf.
  apply (search_uid_still path wr fd myuid ids Hids []); [done|done|done|]. cbn [mbind option_bind f_data].
  assert (length (user_list ids) = 4 * length ids)%nat; [|lia].
  clear. induction ids as [|id ids IH]; [done|]. unfold user_list in *. cbn [map concat]. rewrite length_app, length_le_enc, IH. cbn. lia.
Qed.

(** Opened is [path], at its beginning; every other descriptor is as it was. *)
Definition opens (flags : oflags) (path : string) (fds : gmap Z fdesc) (r : outcome Z * world) : Prop :=
  exists fd, 2 < fd /\ fds !! fd = None /\ r = (Ret fd, still (<[fd := mkFd path 0 (o_read flags) (o_write flags)]> fds)).

(** The list is closed again: what was opened meanwhile stays. *)
Lemma close_list_still (list : Z) d d' fd d'' fds : fds !! list = None -> <[list := d]> fds !! fd = None ->
  TEMP_FAILURE_RETRY (sys_close list) (still (<[fd := d'']> (<[list := d']> fds))) = (Ret 0, still (<[fd := d'']> fds)).
Proof using Type.
  intros Hl Hfd. assert (fd <> list) by (intros ->; by rewrite lookup_insert_eq in Hfd).
  rewrite (close_still _ d'); [|by rewrite lookup_insert_ne, lookup_insert_eq]. do 2 f_equal.
  rewrite delete_insert_ne by done. by rewrite delete_insert_id.
Qed.

(** A list is opened, searched and closed, and [k] runs in between when the user is in the list. *)
Lemma in_list_still path myuid ids (k : M Z) fds flags target : users path ids ->
  (forall list d, let fds := <[list := d]> fds in exists fd, fds !! fd = None /\ 2 < fd /\
    k (still fds) = (Ret fd, still (<[fd := mkFd target 0 (o_read flags) (o_write flags)]> fds))) ->
  let r := (let! list := TEMP_FAILURE_RETRY (sys_open path O_RDONLY) in
            if list =? -1 then ret (-1) else
            let! n := uid_rounds list in let! found := search_uid n list myuid pkguid0 in
            let! fd := if found : bool then k else ret (-1) in
            TEMP_FAILURE_RETRY (sys_close list) ;; ret fd) (still fds) in
  if bool_decide (myuid ∈ ids) then opens flags target fds r else r = (Ret (-1), still fds).
Proof using Type.
  intros Hu Hk r. pose proof (fresh_fd_spec fds) as [Hl Hl2]. set (list := fresh_fd fds) in *.
  assert (E : r = (let! found := (let! n := uid_rounds list in search_uid n list myuid pkguid0) in
    let! fd := if found : bool then k else ret (-1) in TEMP_FAILURE_RETRY (sys_close list) ;; ret fd)
      (still (<[list := mkFd path 0 true false]> fds))).
  { subst r. unfold bind at 1. rewrite (open_still _ _ _ _ _ (proj1 Hu)) by done. fold list.
    by rewrite (proj2 (Z.eqb_neq list (-1))) by lia. }
  destruct (search_list_still path false list myuid ids _ Hu (lookup_insert_eq fds list (mkFd path 0 true false))) as [off Hs].
  rewrite insert_insert_eq in Hs. rewrite E. clear r E. case_bool_decide.
  - destruct (Hk list (mkFd path off true false)) as (fd & Hfd & Hfd2 & E). unfold bind at 1. rewrite Hs. unfold bind at 1. rewrite E.
    unfold bind at 1. rewrite close_list_still with (d := mkFd path off true false) by done. exists fd. split; [done|]. split; [|done].
    rewrite lookup_insert_ne in Hfd; [done|]. intros ->. by rewrite lookup_insert_eq in Hfd.
  - unfold bind at 1. rewrite Hs. unfold bind, ret. rewrite (close_still _ (mkFd path off true false)) by apply lookup_insert_eq. by rewrite delete_insert_id.
Qed.
End Cpuinfo.

(** An application that opens /proc/cpuinfo is given the file for its user: that of a processor with
    NEON when the user is in both lists, that of one without when it is in the first alone, the
    true one otherwise; nothing else stays open. *)
Theorem cpuinfo_is_of_user files e fds flags myuid abi2 neon :
  users files APP_WITH_ABI2 abi2 -> users files APP_WITH_ABI2_NEON neon -> o_trunc flags = false ->
  Forall (fun path => exists f, files !! path = Some f /\ f_kind f <> Symlink) [CPUINFO; ARM_CPUINFO; ARM_CPUINFO_NEON] ->
  opens files e flags
    (if bool_decide (myuid ∈ abi2) then if bool_decide (myuid ∈ neon) then ARM_CPUINFO_NEON else ARM_CPUINFO else CPUINFO)
    fds (houdini_hook_open flags CPUINFO myuid (mkWorld files fds [] e)).
Proof.
  intros Ha Hn Ht Hfiles. rewrite !List.Forall_cons_iff in Hfiles. destruct Hfiles as (([k0 d0] & E0 & K0) & ([k1 d1] & E1 & K1) & ([k2 d2] & E2 & K2) & _).
  cbn [f_kind] in *.
  assert (Hopen : forall path k d fds, files !! path = Some (mkFile k d) -> k <> Symlink ->
    opens files e flags path fds (TEMP_FAILURE_RETRY (sys_open path flags) (mkWorld files fds [] e))).
  { intros path k d fds' H Hk. rewrite (open_still _ _ _ _ _ _ _ H Hk Ht). pose proof (fresh_fd_spec fds') as [? ?]. by exists (fresh_fd fds'). }
  unfold houdini_hook_open, hooked. rewrite (bool_decide_true (CPUINFO = CPUINFO)) by done. cbn [negb].
  pose proof (in_list_still files e APP_WITH_ABI2 myuid abi2 (let! fd := houdini_hook_open_neon flags myuid in
      if fd =? -1 then TEMP_FAILURE_RETRY (sys_open ARM_CPUINFO flags) else ret fd) fds flags
    (if bool_decide (myuid ∈ neon) then ARM_CPUINFO_NEON else ARM_CPUINFO) Ha) as H. cbv zeta in H.
  match type of H with ?P -> _ => assert (Hk : P) end.
  { intros list d. set (fds' := <[list := d]> fds). pose proof (in_list_still files e APP_WITH_ABI2_NEON myuid neon (TEMP_FAILURE_RETRY (sys_open ARM_CPUINFO_NEON flags))
      fds' flags ARM_CPUINFO_NEON Hn) as H1. cbv zeta in H1.
    match type of H1 with ?P -> _ => assert (Hk : P) end.
    { intros list' d'. destruct (Hopen _ _ _ (<[list' := d']> fds') E2 K2) as (fd & ? & ? & ?). by exists fd. }
    specialize (H1 Hk). unfold houdini_hook_open_neon. unfold bind at 1. case_bool_decide.
    - destruct H1 as (fd & Hfd & Hnone & E). rewrite E. rewrite (proj2 (Z.eqb_neq fd (-1))) by lia. by exists fd.
    - rewrite H1. cbn [Z.eqb Pos.eqb]. destruct (Hopen _ _ _ fds' E1 K1) as (fd & ? & ? & ?). by exists fd. }
  specialize (H Hk). clear Hk. unfold bind at 1. case_bool_decide.
  - destruct H as (fd & Hfd & Hnone & E). rewrite E. rewrite (proj2 (Z.eqb_neq fd (-1))) by lia. by exists fd.
  - rewrite H. cbn [Z.eqb Pos.eqb]. by eapply Hopen.
Qed.

#[local] Definition sample_files : gmap string file :=
  <[APP_WITH_ABI2 := mkFile Regular (user_list [10001; 10123])]> (<[APP_WITH_ABI2_NEON := mkFile Regular (user_list [10050; 10123])]>
  (<[CPUINFO := mkFile Other [120]]> (<[ARM_CPUINFO := mkFile Regular [97]]> {[ARM_CPUINFO_NEON := mkFile Regular [110]]}))).

Lemma cpuinfo_is_of_user_witness :
  opens sample_files 0 O_RDONLY ARM_CPUINFO_NEON ∅ (houdini_hook_open O_RDONLY CPUINFO 10123 (mkWorld sample_files ∅ [] 0)).
Proof.
  apply (cpuinfo_is_of_user sample_files 0 ∅ O_RDONLY 10123 [10001; 10123] [10050; 10123]).
  - split; [reflexivity|repeat constructor; lia].
  - split; [reflexivity|repeat constructor; lia].
  - reflexivity.
  - repeat (constructor; [eexists; split; [reflexivity|discriminate]|]). constructor.
Defined.

(** ** The translator is there *)

(** The two modules of a process that have the hooks. *)
Record process := mkProcess { dalvik : option houdiniHook; native_activity : option houdiniHook; shared : option houdiniHook }.

Definition view (activity : bool) (p : process) : hooks := mkHooks (if activity then native_activity p else dalvik p) (shared p).
Definition put (activity : bool) (s : hooks) (p : process) : process :=
  if activity then mkProcess (dalvik p) (gHoudini s) (gHoudiniHook s) else mkProcess (gHoudini s) (native_activity p) (gHoudiniHook s).

(** The hooks that change a pointer, in either module. *)
Inductive process_step (p : process) : process -> Prop :=
| step_init activity l b s : houdiniHookInit l (view activity p) = (b, s) -> process_step p (put activity s p)
| step_check activity needed fn b s : hookCheckMethod needed fn (view activity p) = Some (b, s) -> process_step p (put activity s p)
| step_dlopen activity native hd stack l filename flag r w w' s :
    hookDlopen native hd stack l filename flag (view activity p) w = (Ret (r, s), w') -> process_step p (put activity s p).

Inductive reachable_process : process -> Prop :=
| reach_first : reachable_process (mkProcess None None None)
| reach_next p p' : reachable_process p -> process_step p p' -> reachable_process p'.

(** A table that is shared is complete. *)
Definition shared_ok (s : hooks) : Prop := forall h, gHoudiniHook s = Some h -> found_all h = true.

(** What is shared stays so. *)
Definition grows (s s' : hooks) : Prop := gHoudiniHook s = None \/ gHoudiniHook s' = gHoudiniHook s.

Lemma houdiniHookInit_spec l s b s' : houdiniHookInit l s = (b, s') -> shared_ok s ->
  shared_ok s' /\ grows s s' /\ (b = true -> exists h, s' = mkHooks (Some h) (Some h)).
Proof.
  unfold houdiniHookInit, grows. destruct s as [own h]. intros H Hok. cbn [gHoudiniHook] in *.
  repeat case_match; simplify_eq/=; (split; [|split; [tauto|]]); try done; try (by eauto).
  all: intros ? [= <-]; by apply negb_false_iff.
Qed.

Lemma hookCheckMethod_shared needed fn s b s' : hookCheckMethod needed fn s = Some (b, s') -> gHoudiniHook s' = gHoudiniHook s.
Proof. unfold hookCheckMethod, cbind, get, update, through, cret. intros H. repeat case_match; by simplify_eq/=. Qed.

Lemma hookDlopen_shared native hd stack l filename flag s r s' w w' :
  hookDlopen native hd stack l filename flag s w = (Ret (r, s'), w') -> s' = s \/ exists b, houdiniHookInit l s = (b, s').
Proof.
  unfold hookDlopen. intros H. case_match; [injection H as <- <- <-; by left|]. unfold bind in H.
  destruct (hookCheckABI2Header stack filename w) as [[arm|c|] w1]; try done. destruct arm; cbn [negb] in H; [|injection H as <- <- <-; by left].
  destruct (houdiniHookInit l s) as [use s1] eqn:E. right. exists use. destruct use; repeat case_match; simplify_eq; by injection H as <- <- <-.
Qed.

Lemma process_step_ok p p' : process_step p p' -> shared_ok (view false p) ->
  shared_ok (view false p') /\ (shared p = None \/ shared p' = shared p).
Proof.
  intros H Hok. assert (Hput : forall a s, view false (put a s p) = mkHooks (gHoudini (view false (put a s p))) (gHoudiniHook s)) by (by intros []).
  assert (Hsh : forall a s, shared (put a s p) = gHoudiniHook s) by (by intros []).
  assert (Hgo : forall a s, (s = view a p \/ exists l b, houdiniHookInit l (view a p) = (b, s)) \/ gHoudiniHook s = shared p ->
    shared_ok (view false (put a s p)) /\ (shared p = None \/ shared (put a s p) = shared p)).
  { intros a s Hs. rewrite Hput, Hsh. unfold shared_ok at 1. cbn [gHoudiniHook]. destruct Hs as [[->|(l & b & E)]|E].
    - split; [exact Hok|by right].
    - destruct (houdiniHookInit_spec _ _ _ _ E Hok) as (H1 & H2 & _). split; [exact H1|exact H2].
    - rewrite E. split; [exact Hok|by right]. }
  destruct H as [a l b s E|a needed fn b s E|a native hd stack l filename flag r w w' s E]; apply Hgo.
  - left. right. by exists l, b.
  - right. by apply hookCheckMethod_shared in E.
  - left. apply hookDlopen_shared in E as [->|[b E]]; [by left|right; by exists l, b].
Qed.

Lemma reachable_shared_ok p : reachable_process p -> shared_ok (view false p).
Proof. induction 1 as [|p p' _ IH H]; [done|]. by eapply process_step_ok in H as []. Qed.

(** A module that has the table: it can call through it, and so can the other one once it was told to. *)
Definition has_translator (activity : bool) (h : houdiniHook) (p : process) : Prop := view activity p = mkHooks (Some h) (Some h).

Lemma has_translator_step activity h p p' : has_translator activity h p -> process_step p p' -> has_translator activity h p'.
Proof.
  unfold has_translator. intros Hv H.
  assert (Hsh : shared p = Some h) by (by injection Hv).
  assert (Hother : forall s, gHoudiniHook s = Some h -> view activity (put (negb activity) s p) = mkHooks (Some h) (Some h)).
  { intros s Hs. destruct activity; cbn in *; rewrite Hs; by injection Hv as -> _. }
  assert (Hsame : forall s, view activity (put activity s p) = s) by (by intros []; destruct activity).
  assert (Hinit : forall a l b s, houdiniHookInit l (view a p) = (b, s) -> s = view a p \/ s = mkHooks (Some h) (Some h)).
  { intros a l b s E. unfold houdiniHookInit in E. cbn [view gHoudiniHook] in E. rewrite Hsh in E. case_match; simplify_eq; auto. }
  assert (Hgo : forall a s, (s = view a p \/ s = mkHooks (Some h) (Some h)) \/ (a = activity -> s = view a p) /\ gHoudiniHook s = Some h ->
    view activity (put a s p) = mkHooks (Some h) (Some h)).
  { intros a s Hs. destruct (decide (a = activity)) as [->|Hne].
    - rewrite Hsame. destruct Hs as [[-> | ->]|[-> _]]; done.
    - replace a with (negb activity) in * by (by destruct a, activity). apply Hother. destruct Hs as [[-> | ->]|[_ ?]]; done. }
  destruct H as [a l b s E|a needed fn b s E|a native hd stack l filename flag r w w' s E]; apply Hgo.
  - left. by eapply Hinit.
  - right. split; [|by rewrite (hookCheckMethod_shared _ _ _ _ _ E)]. intros ->. rewrite Hv in E |- *.
    unfold hookCheckMethod, cbind, get, update, through in E. cbn in E. case_match; by simplify_eq.
  - left. apply hookDlopen_shared in E as [->|[b E]]; [by left|by eapply Hinit].
Qed.


(** A loader with everything. *)
#[local] Definition good_loader : loader := mkLoader [] true true (fun _ => true) true.


(** When the library misses a symbol the pointer of the module stays at a table that is not complete,
    and the next method that is registered is looked up through it. *)
Example check_after_failed_init :
  let l := mkLoader [] true true (fun s => negb (bool_decide (s = "dvm2hdNeeded"%string))) true in
  let '(b, s) := houdiniHookInit l (mkHooks None None) in
  b = false /\ hookCheckMethod (fun _ => true) 1 s = None.
Proof. vm_compute. done. Qed.

(** ** Every argument is passed *)

Definition width (c : Z) : Z := if is_wide c then 2 else 1.
Definition words (sig : bytes) : Z := foldr (fun c n => width c + n) 0 sig.

Lemma words_nonneg sig : 0 <= words sig.
Proof. induction sig as [|c sig IH]; cbn; [lia|]. unfold words, width in *. destruct (is_wide c); lia. Qed.

Lemma scan_types_spec kMaxArgs sig argv types values : Z.of_nat (length values + length sig) <= kMaxArgs ->
  scan_types kMaxArgs sig argv types values =
  Some (types ++ sig ++ [0], values ++ map (fun k => ArgSlot (argv + words (take k sig))) (seq 0 (length sig))).
Proof.
  revert argv types values. induction sig as [|c sig IH]; intros argv types values Hk; cbn [scan_types].
  - by rewrite app_nil_r.
  - cbn [length] in Hk. destruct (Z.leb_spec kMaxArgs (Z.of_nat (length values))); [lia|].
    rewrite IH by (rewrite length_app; cbn; lia). rewrite <-!app_assoc. do 3 f_equal. cbn [length seq map app].
    rewrite Z.add_0_r. f_equal. rewrite <-seq_shift, map_map. apply map_ext. intros k. cbn [take]. f_equal.
    unfold words, width. cbn [foldr]. destruct (is_wide c); lia.
Qed.

(** The words of [argv] that the arguments take: a class stands for the object, which has a word. *)
Definition argument_words (clazz : bool) (sig : bytes) : Z := (if clazz then 0 else 1) + words sig.



(** A header that is shorter than its field for the machine is taken from what was on the stack. *)
Example short_library_from_stack :
  let w := mkWorld {["/short"%string := mkFile Regular [127]]} ∅ [] 0 in
  (hookCheckABI2Header (replicate 64 0) "/short" w).1 = Ret false /\
  (hookCheckABI2Header (splice 18 [40; 0] (replicate 64 0)) "/short" w).1 = Ret true.
Proof. vm_compute. done. Qed.
