(* ===== verification/DrmHdmi.v ===== *)
(** * The HDMI connector (libmultidisplay/native/drm_hdmi.cpp)

    What the library of the display driver answers while a function runs is an argument, and the
    numbers of its header are a parameter.  The context is the static variable of the file; memory
    that is not released, and messages, are left out. *)

From stdpp Require Import base list numbers strings.
From Stdlib Require Import ZArith Lia.
From S2P Require Import Prelude.

(** ** The library *)

Record drm_header := mkDrmHeader {
  DRM_MODE_CONNECTOR_DVID : Z; DRM_MODE_CONNECTOR_HDMIA : Z; DRM_MODE_CONNECTOR_HDMIB : Z;
  DRM_MODE_CONNECTED : Z; DRM_MODE_TYPE_PREFERRED : Z;
  DRM_MODE_FLAG_INTERLACE : Z; DRM_MODE_FLAG_PAR16_9 : Z; DRM_MODE_FLAG_PAR4_3 : Z;
  HDMI_PICTURE_ASPECT_16_9 : Z; HDMI_PICTURE_ASPECT_4_3 : Z
}.

Record drmModeModeInfo := mkMode {
  hdisplay : Z; vdisplay : Z; vrefresh : Z; flags : Z; type : Z; picture_aspect_ratio : Z
}.

(** The properties are pairs of an identifier and a value. *)
Record drmModeConnector := mkConnector {
  connector_type : Z; connection : Z; modes : list drmModeModeInfo; props : list (Z * Z)
}.

Definition no_modes (c : drmModeConnector) : bool := match modes c with [] => true | _ => false end.

(** The connectors there are, [None] when they cannot be listed, each connector, the name of a
    property, which may be missing, and the bytes of a blob, with [None] for what cannot be got. *)
Record display := mkDisplay {
  drmModeGetResources : option (list Z);
  drmModeGetConnector : Z -> option drmModeConnector;
  drmModeGetProperty : Z -> option (option bytes);
  drmModeGetPropertyBlob : Z -> option bytes
}.

(** ** State *)

Record MDSHdmiTiming := mkTiming {
  width : Z; height : Z; refresh : Z; interlace : Z; ratio : Z; t_flags : Z
}.

Record drmContext := mkDrm {
  drmFD : Z; hdmiSupported : bool; connected : bool; preferredModeIndex : Z; selectedModeIndex : Z;
  hdmiTimings : list MDSHdmiTiming; hdmiConnector : option drmModeConnector
}.

Definition set_connector (c : option drmModeConnector) (g : drmContext) : drmContext :=
  mkDrm (drmFD g) (hdmiSupported g) (connected g) (preferredModeIndex g) (selectedModeIndex g) (hdmiTimings g) c.
Definition set_connected (b : bool) (g : drmContext) : drmContext :=
  mkDrm (drmFD g) (hdmiSupported g) b (preferredModeIndex g) (selectedModeIndex g) (hdmiTimings g) (hdmiConnector g).
Definition set_preferred (i : Z) (g : drmContext) : drmContext :=
  mkDrm (drmFD g) (hdmiSupported g) (connected g) i (selectedModeIndex g) (hdmiTimings g) (hdmiConnector g).
Definition set_selected (i : Z) (g : drmContext) : drmContext :=
  mkDrm (drmFD g) (hdmiSupported g) (connected g) (preferredModeIndex g) i (hdmiTimings g) (hdmiConnector g).
Definition set_timings (l : list MDSHdmiTiming) (g : drmContext) : drmContext :=
  mkDrm (drmFD g) (hdmiSupported g) (connected g) (preferredModeIndex g) (selectedModeIndex g) l (hdmiConnector g).

Definition HDMI_TIMING_MAX : Z := 128.
Definition PREFERRED_VREFRESH : Z := 60.
Definition DRM_HDMI_CONNECTED : Z := 1.
Definition DRM_DVI_CONNECTED : Z := 2.

(** The name of the property, with the zero behind it. *)
Definition EDID : bytes := [69; 68; 73; 68].

Section Drm.
Context (hdr : drm_header) (VPG_DRM : bool).

Definition has_flag (v flag : Z) : bool := truthy (Z.land v flag).

(** ** Connectors *)

(** A connector without modes is passed over but not forgotten: the last one is what is answered. *)
Fixpoint find_connector (d : display) (type : Z) (ids : list Z) (connector : option drmModeConnector) : option drmModeConnector :=
  match ids with
  | [] => connector
  | id :: ids =>
      match drmModeGetConnector d id with
      | None => find_connector d type ids None
      | Some c =>
          if no_modes c then find_connector d type ids (Some c)
          else if connector_type c =? type then Some c else find_connector d type ids None
      end
  end.

Definition getConnector (d : display) (type : Z) : option drmModeConnector :=
  match drmModeGetResources d with
  | None => None
  | Some ids => find_connector d type ids None
  end.

Definition first_connector (d : display) : option drmModeConnector :=
  if VPG_DRM then
    match getConnector d (DRM_MODE_CONNECTOR_HDMIA hdr) with
    | Some c => Some c
    | None => getConnector d (DRM_MODE_CONNECTOR_HDMIB hdr)
    end
  else getConnector d (DRM_MODE_CONNECTOR_DVID hdr).

(** A connector without modes stays in the context and is not answered. *)
Definition getHdmiConnector (d : display) (g : drmContext) : option drmModeConnector * drmContext :=
  let c := match hdmiConnector g with Some c => Some c | None => first_connector d end in
  (match c with
   | Some c => if no_modes c then None else Some c
   | None => None
   end, set_connector c g).

(** ** The preferred mode *)

Definition drm_is_preferred_flags (flags : Z) : bool :=
  VPG_DRM || has_flag flags (DRM_MODE_FLAG_PAR16_9 hdr) && negb (has_flag flags (DRM_MODE_FLAG_INTERLACE hdr)).

(** The variables of the loop over the modes. *)
Record best := mkBest { b_h : Z; b_v : Z; index_720P : Z; index_1080P : Z; index_max : Z }.

Definition new_index (index i : Z) (flags : Z) : Z :=
  if index =? -1 then i else if drm_is_preferred_flags flags then i else index.

Definition look_at_mode (i : Z) (m : drmModeModeInfo) (b : best) : best :=
  let at60 := vrefresh m =? PREFERRED_VREFRESH in
  let i720 := if (hdisplay m =? 1280) && (vdisplay m =? 720) && at60 then new_index (index_720P b) i (flags m) else index_720P b in
  let i1080 := if (hdisplay m =? 1920) && (vdisplay m =? 1080) && at60 then new_index (index_1080P b) i (flags m) else index_1080P b in
  if (b_h b <? hdisplay m) && (b_v b <? vdisplay m) && at60 then mkBest (hdisplay m) (vdisplay m) i720 i1080 i
  else
    let imax := if (hdisplay m =? b_h b) && (vdisplay m =? b_v b) && at60 && drm_is_preferred_flags (flags m) then i else index_max b in
    mkBest (b_h b) (b_v b) i720 i1080 imax.

(** The first mode marked as preferred ends the loop. *)
Fixpoint look_at_modes (i : Z) (ms : list drmModeModeInfo) (b : best) : option (Z * drmModeModeInfo) * best :=
  match ms with
  | [] => (None, b)
  | m :: ms =>
      if has_flag (type m) (DRM_MODE_TYPE_PREFERRED hdr) then (Some (i, m), b)
      else look_at_modes (i + 1) ms (look_at_mode i m b)
  end.

Definition preferred_mode (ms : list drmModeModeInfo) : Z :=
  let '(p, b) := look_at_modes 0 ms (mkBest 0 0 (-1) (-1) (-1)) in
  let others :=
    if negb (index_1080P b =? -1) then index_1080P b
    else if negb (index_720P b =? -1) then index_720P b
    else if negb (index_max b =? -1) then index_max b else 0 in
  match p with
  | Some (i, m) => if vrefresh m =? PREFERRED_VREFRESH then i else others
  | None => others
  end.

Definition drm_select_preferredmode (c : drmModeConnector) (g : drmContext) : drmContext :=
  set_preferred (preferred_mode (modes c)) g.

(** ** Start and end *)

Definition clearHdmiTimings (g : drmContext) : drmContext := set_timings [] (set_selected (-1) g).

(** [fd] is the descriptor of the driver; the list of timings is not touched. *)
Definition drm_init (fd : Z) (d : display) (g : drmContext) : bool * drmContext :=
  let g := mkDrm fd (hdmiSupported g) false (-1) (-1) (hdmiTimings g) None in
  if fd <=? 0 then (false, g) else
  (true, mkDrm fd (bool_decide (is_Some (first_connector d))) false (-1) (-1) (hdmiTimings g) None).

Definition zero_context : drmContext := mkDrm 0 false false 0 0 [] None.
Definition drm_cleanup (g : drmContext) : drmContext := zero_context.

Definition drm_hdmi_onHdmiDisconnected (g : drmContext) : drmContext :=
  set_connector None (set_connected false (clearHdmiTimings g)).

(** ** Connection *)

(** The block of the vendor in the second half of the data: whether one begins at position [n] or
    one of the [fuel] - 1 positions behind it.  [None]: the data is read past its end. *)
Fixpoint search_vsdb (fuel n : nat) (edid : bytes) : option bool :=
  match fuel with
  | O => Some false
  | S fuel =>
      b0 ← edid !! n;
      if negb (b0 =? 0x03) then search_vsdb fuel (S n) edid else
      b1 ← edid !! S n;
      if negb (b1 =? 0x0c) then search_vsdb fuel (S n) edid else
      b2 ← edid !! S (S n);
      if negb (b2 =? 0x00) then search_vsdb fuel (S n) edid else Some true
  end.

(** What a connector is, from the EDID: 2 for DVI, and 1 when the vendor says that it is HDMI. *)
Definition edid_status (edid : bytes) : option Z :=
  extension ← edid !! 126%nat;
  if extension =? 0 then Some 2 else
  hdmi ← search_vsdb (Z.to_nat (HDMI_TIMING_MAX - 2)) (Z.to_nat HDMI_TIMING_MAX) edid;
  Some (if hdmi : bool then 1 else 2).

(** The value of the first property with the name EDID. *)
Fixpoint find_edid (d : display) (ps : list (Z * Z)) : option Z :=
  match ps with
  | [] => None
  | (p, value) :: ps =>
      match drmModeGetProperty d p with
      | Some (Some name) => if bool_decide (name = EDID) then Some value else find_edid d ps
      | _ => find_edid d ps
      end
  end.

(** 0 for no connection, 1 for HDMI and 2 for DVI. *)
Definition drm_hdmi_getConnectionStatus (d : display) (g : drmContext) : option (Z * drmContext) :=
  if negb (hdmiSupported g) then Some (0, g) else
  let g := set_connected false (set_connector None g) in
  let '(connector, g) := getHdmiConnector d g in
  match connector with
  | None => Some (0, g)
  | Some c =>
      if VPG_DRM then
        if connection c =? DRM_MODE_CONNECTED hdr
        then Some (1, drm_select_preferredmode c (set_connected true g)) else Some (0, g)
      else
        match find_edid d (props c) with
        | None => Some (0, g)
        | Some value =>
            match drmModeGetPropertyBlob d value with
            | Some edid =>
                if Z.of_nat (length edid) <? HDMI_TIMING_MAX then Some (0, g) else
                status ← edid_status edid;
                Some (status, drm_select_preferredmode c (set_connected true g))
            | None => Some (0, g)
            end
        end
  end.

(** ** Timings *)

Definition same_timing (m : drmModeModeInfo) (t : MDSHdmiTiming) : bool :=
  (width t =? hdisplay m) && (height t =? vdisplay m) && (refresh t =? vrefresh m) &&
  if VPG_DRM then (t_flags t =? flags m) && (ratio t =? picture_aspect_ratio m)
  else
    let same flag := Z.land (t_flags t) flag =? Z.land (flags m) flag in
    same (DRM_MODE_FLAG_INTERLACE hdr) && same (DRM_MODE_FLAG_PAR16_9 hdr) && same (DRM_MODE_FLAG_PAR4_3 hdr).

Definition timing_of (m : drmModeModeInfo) : MDSHdmiTiming :=
  let r := if VPG_DRM then
             if picture_aspect_ratio m =? HDMI_PICTURE_ASPECT_16_9 hdr then 2
             else if picture_aspect_ratio m =? HDMI_PICTURE_ASPECT_4_3 hdr then 1 else 0
           else
             if has_flag (flags m) (DRM_MODE_FLAG_PAR16_9 hdr) then 2
             else if has_flag (flags m) (DRM_MODE_FLAG_PAR4_3 hdr) then 1 else 0 in
  mkTiming (hdisplay m) (vdisplay m) (vrefresh m) (if has_flag (flags m) (DRM_MODE_FLAG_INTERLACE hdr) then 1 else 0) r (flags m).

(** The timings with those of the modes that are not among them yet. *)
Fixpoint add_timings (ms : list drmModeModeInfo) (l : list MDSHdmiTiming) : list MDSHdmiTiming :=
  match ms with
  | [] => l
  | m :: ms => if existsb (same_timing m) l then add_timings ms l else add_timings ms (l ++ [timing_of m])
  end.

(** The number of timings that were added. *)
Definition parseHdmiTimings (d : display) (g : drmContext) : Z * drmContext :=
  let '(connector, g) := getHdmiConnector d g in
  match connector with
  | None => (0, g)
  | Some c =>
      if HDMI_TIMING_MAX <? Z.of_nat (length (modes c)) then (0, set_connector None g) else
      let l := add_timings (modes c) (hdmiTimings g) in
      (Z.of_nat (length l) - Z.of_nat (length (hdmiTimings g)), set_timings l g)
  end.

Definition no_device (g : drmContext) : bool := negb (hdmiSupported g) || negb (connected g).

Definition drm_hdmi_getTimingNumber (d : display) (g : drmContext) : Z * drmContext :=
  if no_device g then (0, g) else
  let number := Z.of_nat (length (hdmiTimings g)) in
  if 0 <? number then (number, g) else parseHdmiTimings d g.

(** What is copied into the list, of which [list] says whether there is one. *)
Definition drm_hdmi_getTimings (count : Z) (list : bool) (d : display) (g : drmContext) : option (Datatypes.list MDSHdmiTiming) * drmContext :=
  if no_device g then (None, g) else
  if (count <=? 0) || negb list then (None, g) else
  let number := Z.of_nat (length (hdmiTimings g)) in
  let '(validCnt, g) := if number <=? 0 then parseHdmiTimings d g else (number, g) in
  (Some (take (Z.to_nat (Z.min validCnt count)) (hdmiTimings g)), g).

(** Two timings that agree but for their flags. *)
Definition matches (t bak : MDSHdmiTiming) : bool :=
  (width t =? width bak) && (height t =? height bak) && (refresh t =? refresh bak) &&
  (interlace t =? interlace bak) && (ratio t =? ratio bak).

Fixpoint find_timing (t : MDSHdmiTiming) (i : Z) (l : list MDSHdmiTiming) : option (Z * MDSHdmiTiming) :=
  match l with
  | [] => None
  | bak :: l => if matches t bak then Some (i, bak) else find_timing t (i + 1) l
  end.

(** The timing with the flags of the one that it is, when there is one. *)
Definition drm_hdmi_checkTiming (t : MDSHdmiTiming) (g : drmContext) : option MDSHdmiTiming * drmContext :=
  if no_device g then (None, g) else
  match find_timing t 0 (hdmiTimings g) with
  | Some (i, bak) => (Some (mkTiming (width t) (height t) (refresh t) (interlace t) (ratio t) (t_flags bak)), set_selected i g)
  | None => (None, g)
  end.

Definition drm_hdmi_timing_is_fixed (g : drmContext) : bool := 0 <=? selectedModeIndex g.

Definition drm_hdmi_get_current_timing (g : drmContext) : option MDSHdmiTiming :=
  let current := if 0 <=? selectedModeIndex g then selectedModeIndex g else preferredModeIndex g in
  if 0 <=? current then hdmiTimings g !! Z.to_nat current else None.
End Drm.

(** ** What the connector guarantees *)

Section Drm.
Context (hdr : drm_header) (VPG_DRM : bool).

(** A timing that is selected is in the list, which is no longer than it may be. *)
Definition drm_ok (g : drmContext) : Prop :=
  -1 <= selectedModeIndex g < Z.max 0 (Z.of_nat (length (hdmiTimings g))) /\ Z.of_nat (length (hdmiTimings g)) <= HDMI_TIMING_MAX.

Lemma getHdmiConnector_frame d g : exists c, (getHdmiConnector hdr VPG_DRM d g).2 = set_connector c g.
Proof. by eexists. Qed.

Lemma connection_status_ok d g s g' : drm_hdmi_getConnectionStatus hdr VPG_DRM d g = Some (s, g') -> drm_ok g -> drm_ok g'.
Proof.
  intros H Hg. assert (E : selectedModeIndex g' = selectedModeIndex g /\ hdmiTimings g' = hdmiTimings g).
  { unfold drm_hdmi_getConnectionStatus, getHdmiConnector, drm_select_preferredmode in H. cbn in H. repeat (case_match; simplify_option_eq); done. }
  unfold drm_ok. destruct E as [-> ->]. exact Hg.
Qed.

Lemma disconnected_ok g : drm_ok g -> drm_ok (drm_hdmi_onHdmiDisconnected g).
Proof. intros _. unfold drm_ok, HDMI_TIMING_MAX. cbn. lia. Qed.

Lemma add_timings_length ms l : (length l <= length (add_timings hdr VPG_DRM ms l) <= length l + length ms)%nat.
Proof.
  revert l. induction ms as [|m ms IH]; intros l; cbn [add_timings length]; [lia|]. case_match.
  - specialize (IH l). lia.
  - specialize (IH (l ++ [timing_of hdr VPG_DRM m])). rewrite length_app in IH. cbn in IH. lia.
Qed.

Lemma parse_ok d g : hdmiTimings g = [] -> drm_ok g -> drm_ok (parseHdmiTimings hdr VPG_DRM d g).2.
Proof.
  intros E [H1 H2]. unfold parseHdmiTimings. destruct (getHdmiConnector_frame d g) as [c' E1].
  destruct (getHdmiConnector hdr VPG_DRM d g) as [[c|] g1]; cbn [snd] in E1; subst g1; [|by split].
  destruct (Z.ltb_spec HDMI_TIMING_MAX (Z.of_nat (length (modes c)))) as [|Hl]; [by split|].
  cbn. unfold drm_ok. cbn. rewrite E in *. pose proof (add_timings_length (modes c) []) as Ha. cbn [length] in *. lia.
Qed.

Lemma timing_number_ok d g : drm_ok g -> drm_ok (drm_hdmi_getTimingNumber hdr VPG_DRM d g).2.
Proof.
  intros Hg. unfold drm_hdmi_getTimingNumber. case_match; [done|]. case_match; [done|].
  apply parse_ok; [|done]. destruct (hdmiTimings g); [done|]. bprop. cbn in *. lia.
Qed.

Lemma timings_ok count list d g : drm_ok g -> drm_ok (drm_hdmi_getTimings hdr VPG_DRM count list d g).2.
Proof.
  intros Hg. unfold drm_hdmi_getTimings. destruct (no_device g); [done|]. destruct ((count <=? 0) || negb list); [done|].
  destruct (Z.leb_spec (Z.of_nat (length (hdmiTimings g))) 0) as [Hl|]; [|done].
  pose proof (parse_ok d g) as Hp. destruct (parseHdmiTimings hdr VPG_DRM d g) as [n g1]. apply Hp; [|done].
  destruct (hdmiTimings g); [done|]. cbn in Hl. lia.
Qed.

Lemma find_timing_spec t i l j bak : find_timing t i l = Some (j, bak) ->
  i <= j /\ l !! Z.to_nat (j - i) = Some bak /\ matches t bak = true.
Proof.
  revert i. induction l as [|b l IH]; intros i H; [done|]. cbn [find_timing] in H. case_match.
  - injection H as <- <-. rewrite Z.sub_diag. split_and!; [lia|done|done].
  - destruct (IH _ H) as (H1 & H2 & H3). split_and!; [lia| |done]. replace (Z.to_nat (j - i)) with (S (Z.to_nat (j - (i + 1)))) by lia. done.
Qed.

Lemma matches_flags t bak : matches t bak = true ->
  mkTiming (width t) (height t) (refresh t) (interlace t) (ratio t) (t_flags bak) = bak.
Proof. unfold matches. intros H. bprop. destruct bak. cbn in *. by intuition subst. Qed.

(** A timing that is asked for and found is the one that counts as the current one, flags included,
    and it is one of the list; a timing that is not found changes nothing. *)
Lemma check_timing_selects t g :
  match drm_hdmi_checkTiming t g with
  | (Some t', g') => drm_hdmi_get_current_timing g' = Some t' /\ t' ∈ hdmiTimings g' /\ matches t t' = true /\
                     drm_hdmi_timing_is_fixed g' = true /\ hdmiTimings g' = hdmiTimings g
  | (None, g') => g' = g
  end.
Proof.
  unfold drm_hdmi_checkTiming. destruct (no_device g); [done|]. destruct (find_timing t 0 (hdmiTimings g)) as [[i bak]|] eqn:E; [|done].
  apply find_timing_spec in E as (H1 & H2 & H3). rewrite Z.sub_0_r in H2. rewrite (matches_flags t bak H3).
  assert (Hi : (0 <=? i) = true) by (by apply Z.leb_le).
  unfold drm_hdmi_get_current_timing, drm_hdmi_timing_is_fixed. cbn. rewrite Hi, Hi. split_and!; try done. by eapply list_elem_of_lookup_2.
Qed.

Lemma check_timing_ok t g : drm_ok g -> drm_ok (drm_hdmi_checkTiming t g).2.
Proof.
  intros [H1 H2]. unfold drm_hdmi_checkTiming. destruct (no_device g); [by split|].
  destruct (find_timing t 0 (hdmiTimings g)) as [[i bak]|] eqn:E; [|by split]. apply find_timing_spec in E as (E1 & E2 & _).
  rewrite Z.sub_0_r in E2. apply lookup_lt_Some in E2. unfold drm_ok. cbn. lia.
Qed.

(** ** The preferred mode *)

Definition at_60 (m : drmModeModeInfo) : bool := vrefresh m =? PREFERRED_VREFRESH.
Definition of_size (w h : Z) (m : drmModeModeInfo) : bool := (hdisplay m =? w) && (vdisplay m =? h) && at_60 m.

(** What an index of a size stands for after the modes [ms]: -1 for none, and otherwise a mode of that
    size, with the flags that are preferred when any has them. *)
Definition size_found (w h : Z) (ms : list drmModeModeInfo) (i : Z) : Prop :=
  (i = -1 /\ Forall (fun m => of_size w h m = false) ms) \/
  exists m, 0 <= i /\ ms !! Z.to_nat i = Some m /\ of_size w h m = true /\
    (Exists (fun m => of_size w h m = true /\ drm_is_preferred_flags hdr VPG_DRM (flags m) = true) ms ->
     drm_is_preferred_flags hdr VPG_DRM (flags m) = true).

(** The largest one: no mode at 60 Hz is larger in both directions. *)
Definition largest_found (ms : list drmModeModeInfo) (b : best) : Prop :=
  0 <= b_h b /\ 0 <= b_v b /\ Forall (fun m => at_60 m = true -> hdisplay m <= b_h b \/ vdisplay m <= b_v b) ms /\
  ((index_max b = -1 /\ b_h b = 0 /\ b_v b = 0) \/
   exists m, 0 <= index_max b /\ ms !! Z.to_nat (index_max b) = Some m /\ of_size (b_h b) (b_v b) m = true).

Definition best_of (ms : list drmModeModeInfo) (b : best) : Prop :=
  size_found 1280 720 ms (index_720P b) /\ size_found 1920 1080 ms (index_1080P b) /\ largest_found ms b.

Lemma size_found_step w h ms m i : size_found w h ms i ->
  size_found w h (ms ++ [m]) (if of_size w h m then new_index hdr VPG_DRM i (Z.of_nat (length ms)) (flags m) else i).
Proof.
  intros Hi. destruct (of_size w h m) eqn:Em.
  - assert (Hlast : (ms ++ [m]) !! Z.to_nat (Z.of_nat (length ms)) = Some m) by (rewrite Nat2Z.id; by apply list_lookup_middle).
    unfold new_index. destruct Hi as [[-> Hf]|(m0 & H0 & Hm0 & Hs & Hp)]; [rewrite Z.eqb_refl|rewrite (proj2 (Z.eqb_neq i (-1))) by lia].
    + right. exists m. split_and!; [lia|done|done|]. rewrite Exists_app, Exists_cons, Exists_nil. intros [He|[[_ ?]|[]]]; [|done].
      apply Exists_exists in He as (x & Hx & Hx1 & _). rewrite Forall_forall in Hf. by rewrite (Hf x Hx) in Hx1.
    + destruct (drm_is_preferred_flags hdr VPG_DRM (flags m)) eqn:Ef; right; [exists m; by split_and!; [lia|..]|].
      exists m0. split_and!; [done|by apply lookup_app_l_Some|done|]. rewrite Exists_app, Exists_cons, Exists_nil.
      intros [He|[[_ ?]|[]]]; [by apply Hp|congruence].
  - destruct Hi as [[-> Hf]|(m0 & H0 & Hm0 & Hs & Hp)]; [left|right].
    + split; [done|]. apply Forall_app. by repeat constructor.
    + exists m0. split_and!; [done|by apply lookup_app_l_Some|done|]. rewrite Exists_app, Exists_cons, Exists_nil.
      intros [He|[[? _]|[]]]; [by apply Hp|congruence].
Qed.

Lemma best_step ms m b : best_of ms b -> best_of (ms ++ [m]) (look_at_mode hdr VPG_DRM (Z.of_nat (length ms)) m b).
Proof.
  intros (H7 & H10 & Hh & Hv & Hf & Hm). unfold look_at_mode. fold (at_60 m).
  change ((hdisplay m =? 1280) && (vdisplay m =? 720) && at_60 m) with (of_size 1280 720 m).
  change ((hdisplay m =? 1920) && (vdisplay m =? 1080) && at_60 m) with (of_size 1920 1080 m).
  change ((hdisplay m =? b_h b) && (vdisplay m =? b_v b) && at_60 m) with (of_size (b_h b) (b_v b) m).
  pose proof (size_found_step _ _ _ m _ H7) as H7'. pose proof (size_found_step _ _ _ m _ H10) as H10'.
  assert (Hlast : (ms ++ [m]) !! Z.to_nat (Z.of_nat (length ms)) = Some m) by (rewrite Nat2Z.id; by apply list_lookup_middle).
  destruct ((b_h b <? hdisplay m) && (b_v b <? vdisplay m) && at_60 m) eqn:El; (split; [exact H7'|]; split; [exact H10'|]);
    unfold largest_found; cbn [b_h b_v index_max].
  - apply andb_prop in El as [El E60]. apply andb_prop in El as [E1 E2]. apply Z.ltb_lt in E1, E2. split_and!; [lia|lia| |].
    + apply Forall_app. split; [|apply Forall_singleton; intros _; lia]. eapply Forall_impl; [exact Hf|]. intros x Hx H60. specialize (Hx H60). lia.
    + right. exists m. split_and!; [lia|done|]. unfold of_size. by rewrite !Z.eqb_refl, E60.
  - split_and!; [done|done| |].
    + apply Forall_app. split; [done|]. apply Forall_singleton. intros H60. rewrite H60, andb_true_r in El. apply andb_false_iff in El as [El|El]; apply Z.ltb_ge in El; lia.
    + destruct (of_size (b_h b) (b_v b) m) eqn:Es; cbn [andb].
      * destruct (drm_is_preferred_flags hdr VPG_DRM (flags m)); [right; exists m; by split_and!; [lia|..]|].
        destruct Hm as [?|(m0 & ? & ? & ?)]; [by left|right]. exists m0. split_and!; [done|by apply lookup_app_l_Some|done].
      * destruct Hm as [?|(m0 & ? & ? & ?)]; [by left|right]. exists m0. split_and!; [done|by apply lookup_app_l_Some|done].
Qed.

(** The modes before the first one that is marked, and that one. *)
Lemma look_at_modes_spec ms seen b : best_of seen b ->
  match look_at_modes hdr VPG_DRM (Z.of_nat (length seen)) ms b with
  | (Some (i, m), b') => exists ms1 ms2, ms = ms1 ++ m :: ms2 /\ i = Z.of_nat (length (seen ++ ms1)) /\ best_of (seen ++ ms1) b' /\
       has_flag (type m) (DRM_MODE_TYPE_PREFERRED hdr) = true /\ Forall (fun m => has_flag (type m) (DRM_MODE_TYPE_PREFERRED hdr) = false) ms1
  | (None, b') => best_of (seen ++ ms) b' /\ Forall (fun m => has_flag (type m) (DRM_MODE_TYPE_PREFERRED hdr) = false) ms
  end.
Proof.
  revert seen b. induction ms as [|m ms IH]; intros seen b Hb; cbn [look_at_modes]; [by rewrite app_nil_r|].
  destruct (has_flag (type m) (DRM_MODE_TYPE_PREFERRED hdr)) eqn:Em.
  - exists [], ms. rewrite app_nil_r. by split_and!.
  - specialize (IH (seen ++ [m]) _ (best_step _ m _ Hb)). rewrite length_app in IH. cbn [length] in IH.
    replace (Z.of_nat (length seen + 1)) with (Z.of_nat (length seen) + 1) in IH by lia.
    destruct (look_at_modes _ _ _ _ _) as [[[i m']|] b'].
    + destruct IH as (ms1 & ms2 & -> & -> & Hb' & Hm' & Hf). exists (m :: ms1), ms2. rewrite <-!app_assoc in *. split_and!; try done. by constructor.
    + destruct IH as [Hb' Hf]. rewrite <-app_assoc in Hb'. split; [done|]. by constructor.
Qed.

Definition marked (m : drmModeModeInfo) : bool := has_flag (type m) (DRM_MODE_TYPE_PREFERRED hdr).

Fixpoint before_marked (ms : list drmModeModeInfo) : list drmModeModeInfo :=
  match ms with m :: ms => if marked m then [] else m :: before_marked ms | [] => [] end.

Lemma before_marked_app ms1 m ms2 : Forall (fun m => marked m = false) ms1 -> marked m = true -> before_marked (ms1 ++ m :: ms2) = ms1.
Proof. intros Hf Hm. induction Hf as [|x ms1 Hx _ IH]; cbn; [by rewrite Hm|]. by rewrite Hx, IH. Qed.

Lemma before_marked_all ms : Forall (fun m => marked m = false) ms -> before_marked ms = ms.
Proof. induction 1 as [|x ms Hx _ IH]; [done|]. cbn. by rewrite Hx, IH. Qed.

(** A mode of a size is a good choice when its flags are preferred as soon as those of another are. *)
Definition size_choice (w h : Z) (ms : list drmModeModeInfo) (m : drmModeModeInfo) : Prop :=
  of_size w h m = true /\
  (Exists (fun m => of_size w h m = true /\ drm_is_preferred_flags hdr VPG_DRM (flags m) = true) ms ->
   drm_is_preferred_flags hdr VPG_DRM (flags m) = true).

(** The choice among the modes [ms]: 1080p, then 720p, then the largest, and then the first mode of all. *)
Definition choice_among (ms : list drmModeModeInfo) (i : Z) (m : drmModeModeInfo) : Prop :=
  let none w h := Forall (fun m => of_size w h m = false) ms in
  size_choice 1920 1080 ms m \/
  none 1920 1080 /\ size_choice 1280 720 ms m \/
  none 1920 1080 /\ none 1280 720 /\ at_60 m = true /\
    Forall (fun m' => at_60 m' = true -> hdisplay m' <= hdisplay m \/ vdisplay m' <= vdisplay m) ms \/
  none 1920 1080 /\ none 1280 720 /\ i = 0 /\ Forall (fun m' => at_60 m' = true -> hdisplay m' <= 0 \/ vdisplay m' <= 0) ms.

Definition other_choice (b : best) : Z :=
  if negb (index_1080P b =? -1) then index_1080P b else if negb (index_720P b =? -1) then index_720P b
  else if negb (index_max b =? -1) then index_max b else 0.

Lemma other_choice_good ms rest b : best_of ms b -> ms ++ rest <> [] ->
  exists m, 0 <= other_choice b /\ (ms ++ rest) !! Z.to_nat (other_choice b) = Some m /\ choice_among ms (other_choice b) m.
Proof.
  intros (H7 & H10 & Hh & Hv & Hf & Hm) Hne. unfold other_choice, choice_among.
  destruct H10 as [[-> N10]|(m & Hi & Hl & Hs & Hp)].
  2:{ rewrite (proj2 (Z.eqb_neq (index_1080P b) (-1))) by lia. exists m. split_and!; [done|by apply lookup_app_l_Some|]. by left. }
  cbn [Z.eqb Pos.eqb negb]. destruct H7 as [[-> N7]|(m & Hi & Hl & Hs & Hp)].
  2:{ rewrite (proj2 (Z.eqb_neq (index_720P b) (-1))) by lia. exists m. split_and!; [done|by apply lookup_app_l_Some|]. right. by left. }
  cbn [Z.eqb Pos.eqb negb]. destruct Hm as [(-> & Eh & Ev)|(m & Hi & Hl & Hs)].
  - cbn [Z.eqb Pos.eqb negb]. destruct (ms ++ rest) as [|m l] eqn:E; [done|]. exists m. split_and!; [lia|done|]. do 3 right.
    rewrite Eh, Ev in Hf. by split_and!.
  - rewrite (proj2 (Z.eqb_neq (index_max b) (-1))) by lia. exists m. split_and!; [done|by apply lookup_app_l_Some|]. do 2 right. left.
    unfold of_size in Hs. apply andb_prop in Hs as [Hs H60]. apply andb_prop in Hs as [E1 E2]. apply Z.eqb_eq in E1, E2.
    rewrite E1, E2. by split_and!.
Qed.

(** The mode that is preferred is the first one that is marked, when it is at 60 Hz, and the choice
    among those before it otherwise; its index is that of a mode of the connector. *)
Theorem preferred_mode_rule ms : ms <> [] ->
  let i := preferred_mode hdr VPG_DRM ms in let before := before_marked ms in
  exists m, 0 <= i /\ ms !! Z.to_nat i = Some m /\
    match ms !! length before with
    | Some p => if at_60 p then i = Z.of_nat (length before) /\ marked p = true else choice_among before i m
    | None => choice_among before i m
    end.
Proof.
  intros Hne. cbv zeta. unfold preferred_mode.
  assert (H0 : best_of [] (mkBest 0 0 (-1) (-1) (-1))) by (split; [by left|split; [by left|split_and!; cbn; try done; by left]]).
  pose proof (look_at_modes_spec ms [] _ H0) as H. cbn [length app] in H. change (Z.of_nat 0) with 0 in H.
  destruct (look_at_modes hdr VPG_DRM 0 ms (mkBest 0 0 (-1) (-1) (-1))) as [[[i p]|] b]; fold (other_choice b).
  - destruct H as (ms1 & ms2 & -> & -> & Hb & Hp & Hf). rewrite (before_marked_app ms1 p ms2 Hf Hp), (list_lookup_middle ms1 ms2 p (length ms1) eq_refl).
    fold (at_60 p). destruct (at_60 p) eqn:E60.
    + exists p. split_and!; [lia|by rewrite Nat2Z.id, list_lookup_middle|done|exact Hp].
    + by apply other_choice_good.
  - destruct H as [Hb Hf]. rewrite (before_marked_all ms Hf), (lookup_ge_None_2 ms (length ms)) by lia.
    destruct (other_choice_good ms [] b Hb) as (m & H); [by rewrite app_nil_r|]. rewrite app_nil_r in H. by exists m.
Qed.
End Drm.
