(* ===== verification/CtpDrm.v ===== *)
(** * The display driver on Clovertrail (libmultidisplay/ctp_legacy/native/drm_hdmi.cpp, drm_hdcp.cpp)

    The connector and the protection of its content.  What is sent to the driver is a list of
    commands, and what the driver, the library and the system answer may depend on everything sent
    before.  The static variables of both files are the state.  Messages, delays and memory that is
    not released are left out, and so are two queries that nothing calls. *)

From stdpp Require Import base list numbers strings.
From Stdlib Require Import ZArith Lia.
From S2P Require Import Prelude StateOp GuidStr CLib DrmHdmi.
#[local] Open Scope op_scope.

(** ** State *)

Record MDSHDMITiming := mkHdmi { t_refresh : Z; t_width : Z; t_height : Z; t_interlace : Z; t_ratio : Z }.

Definition zero_timing : MDSHDMITiming := mkHdmi 0 0 0 0 0.

Definition EDID_PRODUCT_INFO_LEN : Z := 8.

Record drmContext := mkCxt {
  drmFD : Z; hdmiSupported : bool; newDevice : bool; connected : bool; preferredModeIndex : Z;
  modeValid : bool; modeSelected : MDSHDMITiming; productInfo : bytes; hdmiConnector : option drmModeConnector
}.

Definition zero_context : drmContext :=
  mkCxt 0 false false false 0 false zero_timing (replicate (Z.to_nat EDID_PRODUCT_INFO_LEN) 0) None.

Definition set_drmFD v g := mkCxt v (hdmiSupported g) (newDevice g) (connected g) (preferredModeIndex g) (modeValid g) (modeSelected g) (productInfo g) (hdmiConnector g).
Definition set_supported v g := mkCxt (drmFD g) v (newDevice g) (connected g) (preferredModeIndex g) (modeValid g) (modeSelected g) (productInfo g) (hdmiConnector g).
Definition set_newDevice v g := mkCxt (drmFD g) (hdmiSupported g) v (connected g) (preferredModeIndex g) (modeValid g) (modeSelected g) (productInfo g) (hdmiConnector g).
Definition set_connected v g := mkCxt (drmFD g) (hdmiSupported g) (newDevice g) v (preferredModeIndex g) (modeValid g) (modeSelected g) (productInfo g) (hdmiConnector g).
Definition set_preferred v g := mkCxt (drmFD g) (hdmiSupported g) (newDevice g) (connected g) v (modeValid g) (modeSelected g) (productInfo g) (hdmiConnector g).
Definition set_mode valid selected g := mkCxt (drmFD g) (hdmiSupported g) (newDevice g) (connected g) (preferredModeIndex g) valid selected (productInfo g) (hdmiConnector g).
Definition set_productInfo v g := mkCxt (drmFD g) (hdmiSupported g) (newDevice g) (connected g) (preferredModeIndex g) (modeValid g) (modeSelected g) v (hdmiConnector g).
Definition set_connector v g := mkCxt (drmFD g) (hdmiSupported g) (newDevice g) (connected g) (preferredModeIndex g) (modeValid g) (modeSelected g) (productInfo g) v.

Definition DRM_MIPI_OFF : Z := 0.
Definition DRM_MIPI_ON : Z := 1.
Definition DRM_HDMI_CLONE : Z := 1.
Definition DRM_HDMI_VIDEO_EXT : Z := 2.
Definition DRM_HDMI_DISCONNECTED : Z := 0.

Definition HDCP_ENABLE_NUM_OF_TRY : nat := 4.
Definition HDCP_CHECK_NUM_OF_TRY : nat := 1.

(** Commands to the driver and to the timers of the system. *)
Inductive command :=
  GetExtension | HdmiVideo (on : bool) | HdmiPowerOff | AudioHotplug (plugin : bool)
| SetProperty (connector property : Z) (on : bool)
| DisplayIed (on : bool) | EnableHdcp | DisableHdcp | GetLinkStatus
| TimerCreate | TimerSet (armed : bool) | TimerDelete.

Section Drm.
(** The objects behind the interface of listeners. *)
Context {interface : Type}.

Inductive payload := IntValue (v : Z) | TimingValue (t : MDSHDMITiming).

Inductive event :=
  Drm (c : command) | OnMdsMessage (l : interface) (msg : Z) (value : payload) | Transact (scale : Z).

(** What the rest of the system answers, given what was sent before: the displays, the result of the
    last command, whether the link is authenticated, the identifier of a timer when one is created,
    the property that switches the protection, the answer of a listener, whether SurfaceFlinger is
    found and what it answers; and what a variable holds that was never set. *)
Record outside := mkOutside {
  displays : list event -> display; result_of : list event -> Z; link_match : list event -> Z; timer_id : list event -> Z;
  hdcp_property : list event -> bytes; message_result : list event -> Z;
  getService : list event -> bool; transact_result : list event -> Z; unset_timing : MDSHDMITiming
}.

(** The static variables, and what was sent. *)
Record hardware := mkHw { cxt : drmContext; g_hdcpStatusCheckTimer : Z; sent : list event }.

#[local] Abbreviation H := (op hardware).

Definition update_cxt (f : drmContext -> drmContext) : H unit :=
  update (fun h => mkHw (f (cxt h)) (g_hdcpStatusCheckTimer h) (sent h)).
Definition set_timer (id : Z) : H unit := update (fun h => mkHw (cxt h) id (sent h)).

Definition send (e : event) : H unit := update (fun h => mkHw (cxt h) (g_hdcpStatusCheckTimer h) (sent h ++ [e])).

Context (hdr : drm_header) (DRM_MODE_CONNECTOR_MIPI : Z) (o : outside).

Definition ask {A} (f : list event -> A) : H A := get (fun h => f (sent h)).

(** The result of a command is 0 when it was obeyed. *)
Definition drmCommand (c : command) : H Z := send (Drm c) ;; ask (result_of o).

Definition obeyed (c : command) : H bool := do! r := drmCommand c in cret (r =? 0).

(** ** Connectors *)

(** The connector of a type, with its identifier. *)
Fixpoint find_connector (d : display) (type : Z) (ids : list Z) : option (Z * drmModeConnector) :=
  match ids with
  | [] => None
  | id :: ids =>
      match drmModeGetConnector d id with
      | None => find_connector d type ids
      | Some c => if connector_type c =? type then Some (id, c) else find_connector d type ids
      end
  end.

Definition getConnector (type : Z) : H (option (Z * drmModeConnector)) :=
  do! d := ask (displays o) in
  cret (match drmModeGetResources d with None => None | Some ids => find_connector d type ids end).

Definition getHdmiConnector : H (option drmModeConnector) :=
  do! g := get cxt in
  do! c := match hdmiConnector g with
           | Some c => cret (Some c)
           | None => do! c := getConnector (DRM_MODE_CONNECTOR_DVID hdr) in cret (snd <$> c)
           end in
  update_cxt (set_connector c) ;;
  cret (match c with Some c => if no_modes c then None else Some c | None => None end).

(** The rule is the one of the other display service, without its other driver. *)
Definition drm_select_preferredmode (c : drmModeConnector) : H unit :=
  update_cxt (set_preferred (preferred_mode hdr false (modes c))).

(** The timing of a mode; it is cleared when there is no such mode.  A negative index has no meaning. *)
Definition drm_hdmi_setTiming (c : drmModeConnector) (index : Z) : option MDSHDMITiming :=
  if Z.of_nat (length (modes c)) <=? index then Some zero_timing else
  if index <? 0 then None else
  mode ← modes c !! Z.to_nat index;
  Some (mkHdmi (vrefresh mode) (hdisplay mode) (vdisplay mode) (Z.land (flags mode) (DRM_MODE_FLAG_INTERLACE hdr))
    (if has_flag (flags mode) (DRM_MODE_FLAG_PAR16_9 hdr) then 2
     else if has_flag (flags mode) (DRM_MODE_FLAG_PAR4_3 hdr) then 1 else 0)).

(** ** Start and end *)

Definition drm_cleanup : H unit := update_cxt (fun _ => zero_context).

(** [fd] is the descriptor of the driver.  The offset that the driver answers is only used by a query
    that nothing calls. *)
Definition drm_init (fd : Z) : H bool :=
  update_cxt (fun _ => set_drmFD fd zero_context) ;;
  if fd <=? 0 then cret false else
  do! ok := obeyed GetExtension in
  if negb ok then drm_cleanup ;; cret false else
  do! c := getConnector (DRM_MODE_CONNECTOR_DVID hdr) in
  update_cxt (set_supported (match c with None => false | Some _ => true end)) ;; cret true.

Definition drm_hdmi_isDeviceChanged (reset : bool) : H bool :=
  do! g := get cxt in
  (if reset then update_cxt (set_newDevice false) else cret tt) ;; cret (newDevice g).

Definition drm_hdmi_isSupported : H bool := get (fun h => hdmiSupported (cxt h)).

Definition when_supported (c : command) : H bool :=
  do! supported := drm_hdmi_isSupported in if negb supported then cret false else obeyed c.

Definition drm_hdmi_setHdmiVideoOn : H bool := when_supported (HdmiVideo true).
Definition drm_hdmi_setHdmiVideoOff : H bool := when_supported (HdmiVideo false).
Definition drm_hdmi_setHdmiPowerOff : H bool := when_supported HdmiPowerOff.

Definition drm_hdmi_onHdmiDisconnected : H unit := update_cxt (fun g => set_connector None (set_connected false g)).

Definition drm_hdmi_notify_audio_hotplug (plugin : bool) : H bool := obeyed (AudioHotplug plugin).

(** ** Connection *)

(** A sink with other product information is a new device, and the mode that was selected is
    forgotten. *)
Definition note_sink (edid : bytes) (g : drmContext) : drmContext :=
  let product_info := slice 8 (Z.to_nat EDID_PRODUCT_INFO_LEN) edid in
  let g := set_connected true g in
  if memeq (Z.to_nat EDID_PRODUCT_INFO_LEN) (productInfo g) product_info then g
  else set_productInfo product_info (set_mode false (modeSelected g) (set_newDevice true g)).

(** 0 for no connection, 1 for HDMI and 2 for DVI. *)
Definition drm_hdmi_getConnectionStatus : H Z :=
  do! supported := drm_hdmi_isSupported in
  if negb supported then cret 0 else
  update_cxt (fun g => set_connected false (set_connector None g)) ;;
  do! connector := getHdmiConnector in
  do! d := ask (displays o) in
  match connector with
  | None => cret 0
  | Some c =>
      match find_edid d (props c) with
      | None => cret 0
      | Some value =>
          match drmModeGetPropertyBlob d value with
          | None => cret 0
          | Some edid =>
              if Z.of_nat (length edid) <? HDMI_TIMING_MAX then cret 0 else
              update_cxt (note_sink edid) ;;
              drm_select_preferredmode c ;;
              match edid_status edid with Some status => cret status | None => fun _ => None end
          end
      end
  end.

Definition no_device : H bool := get (fun h => negb (hdmiSupported (cxt h)) || negb (connected (cxt h))).

(** ** Modes *)

Definition compared_flags (m : drmModeModeInfo) : Z :=
  Z.land (flags m) (Z.lor (Z.lor (DRM_MODE_FLAG_INTERLACE hdr) (DRM_MODE_FLAG_PAR16_9 hdr)) (DRM_MODE_FLAG_PAR4_3 hdr)).

Definition same_mode (m m' : drmModeModeInfo) : bool :=
  (hdisplay m =? hdisplay m') && (vdisplay m =? vdisplay m') && (vrefresh m =? vrefresh m') &&
  (compared_flags m =? compared_flags m').

(** What is stored for a mode. *)
Definition mode_info (m : drmModeModeInfo) : MDSHDMITiming :=
  mkHdmi (vrefresh m) (hdisplay m) (vdisplay m) (if has_flag (compared_flags m) (DRM_MODE_FLAG_INTERLACE hdr) then 1 else 0)
    (if has_flag (compared_flags m) (DRM_MODE_FLAG_PAR16_9 hdr) then 2
     else if has_flag (compared_flags m) (DRM_MODE_FLAG_PAR4_3 hdr) then 1 else 0).

(** The modes that are like none before them; [before] are those that were looked at. *)
Fixpoint unique_modes (before ms : list drmModeModeInfo) : list drmModeModeInfo :=
  match ms with
  | [] => []
  | m :: ms => (if existsb (same_mode m) before then [] else [m]) ++ unique_modes (m :: before) ms
  end.

(** The number of modes and, when there is room, what is stored for each. *)
Definition drm_hdmi_getModeInfo (room : bool) : H (Z * list MDSHDMITiming) :=
  do! none := no_device in
  if none : bool then cret (0, []) else
  do! connector := getHdmiConnector in
  match connector with
  | None => cret (0, [])
  | Some c =>
      if HDMI_TIMING_MAX <? Z.of_nat (length (modes c)) then update_cxt (set_connector None) ;; cret (0, [])
      else
        let ms := unique_modes [] (modes c) in
        cret (Z.of_nat (length ms), if room then map mode_info ms else [])
  end.

Definition drm_hdmi_setModeInfo (t : MDSHDMITiming) : H bool :=
  do! none := no_device in
  if none : bool then cret false else update_cxt (set_mode true t) ;; cret true.

(** ** The timing of a video *)

Definition preferred_flags (m : drmModeModeInfo) : bool := drm_is_preferred_flags hdr false (flags m).

(** The best mode for a rate among [ms]: the one with the highest rate, and the one whose rate is a
    multiple, as far as they are found.  A mode with the very rate counts only with the preferred
    flags, and then ends the search. *)
Fixpoint select_mode (rate : Z) (ms : list (Z * drmModeModeInfo)) (max : Z * drmModeModeInfo) (best : option (Z * drmModeModeInfo)) :
    (Z * drmModeModeInfo) * option (Z * drmModeModeInfo) :=
  match ms with
  | [] => (max, best)
  | (i, m) :: ms =>
      let max := if vrefresh max.2 <? vrefresh m then (i, m)
                 else if (vrefresh m =? vrefresh max.2) && preferred_flags m then (i, m) else max in
      if rate =? 0 then select_mode rate ms max best else
      if negb (vrefresh m mod rate =? 0) then select_mode rate ms max best else
      if vrefresh m =? rate then if preferred_flags m then (max, Some (i, m)) else select_mode rate ms max best
      else if match best with None => true | Some b => vrefresh b.2 <? vrefresh m end
           then select_mode rate ms max (Some (i, m)) else select_mode rate ms max best
  end.

Definition ext_size (info : MDSHDMITiming) : Z * Z :=
  if (t_width info <=? 1280) && (t_height info <=? 720) then (1280, 720) else (1920, 1080).

Definition matched_modes (size : Z * Z) (ms : list drmModeModeInfo) : list (Z * drmModeModeInfo) :=
  take (Z.to_nat HDMI_TIMING_MAX)
    (List.filter (fun '(_, m) => (size.1 =? hdisplay m) && (size.2 =? vdisplay m)) (zip (seqZ 0 (Z.of_nat (length ms))) ms)).

(** The timing for a mode of the display, from what [info] asks for; [None] changes nothing. *)
Definition drm_hdmi_getTiming (mode : Z) (info : MDSHDMITiming) : H (option MDSHDMITiming) :=
  let set c index := match drm_hdmi_setTiming c index with Some t => cret (Some t) | None => fun _ => None end in
  do! none := no_device in
  if none : bool then cret None else
  do! g := get cxt in
  if modeValid g then cret (Some (modeSelected g)) else
  do! connector := getHdmiConnector in
  match connector with
  | None => cret None
  | Some c =>
      if negb (mode =? DRM_HDMI_VIDEO_EXT) then set c (preferredModeIndex g) else
      match matched_modes (ext_size info) (modes c) with
      | [] => set c (preferredModeIndex g)
      | first :: ms =>
          let '(max, best) := select_mode (t_refresh info) (first :: ms) first None in
          set c (match best with Some b => b.1 | None => max.1 end)
      end
  end.

(** ** The built-in panel *)

Definition DPMS : bytes := [68; 80; 77; 83].

Fixpoint find_dpms (d : display) (ps : list (Z * Z)) : option Z :=
  match ps with
  | [] => None
  | (p, _) :: ps =>
      match drmModeGetProperty d p with
      | Some (Some name) => if bool_decide (name = DPMS) then Some p else find_dpms d ps
      | _ => find_dpms d ps
      end
  end.

Definition drm_mipi_setMode (mode : Z) : H bool :=
  do! connector := getConnector DRM_MODE_CONNECTOR_MIPI in
  match connector with
  | None => cret false
  | Some (id, c) =>
      do! d := ask (displays o) in
      match find_dpms d (props c) with
      | None => cret true
      | Some p => drmCommand (SetProperty id p (mode =? DRM_MIPI_ON)) ;; cret true
      end
  end.

(** ** Protection of the content *)

(** Every command needs the descriptor of the driver. *)
Definition with_fd (c : command) : H bool :=
  do! fd := get (fun h => drmFD (cxt h)) in if fd <=? 0 then cret false else obeyed c.

Definition drm_hdcp_disable_display_ied : H bool := with_fd (DisplayIed false).
Definition drm_hdcp_enable_display_ied : H bool := with_fd (DisplayIed true).
Definition drm_hdcp_enable : H bool := with_fd EnableHdcp.
Definition drm_hdcp_disable : H bool := with_fd DisableHdcp.

Definition drm_hdcp_isAuthenticated : H bool :=
  do! ok := with_fd GetLinkStatus in
  if negb ok then cret false else do! m := ask (link_match o) in cret (truthy m).

(** Whether the link is authenticated [n] times in a row. *)
Fixpoint check_link (n : nat) : H bool :=
  match n with
  | O => cret true
  | S n => do! b := drm_hdcp_isAuthenticated in if b : bool then check_link n else cret false
  end.

Fixpoint enable_tries (n : nat) : H bool :=
  match n with
  | O => cret false
  | S n =>
      do! enabled := drm_hdcp_enable in
      if negb enabled then
        do! status := drm_hdmi_getConnectionStatus in if status =? 0 then cret true else enable_tries n
      else
        do! ok := check_link HDCP_CHECK_NUM_OF_TRY in if ok : bool then cret true else enable_tries n
  end.

Definition drm_hdcp_enable_and_check : H bool := enable_tries HDCP_ENABLE_NUM_OF_TRY.

(** The answers of the first and the last command are only reported. *)
Definition drm_hdcp_enable_hdcp_work : H bool :=
  drm_hdcp_disable_display_ied ;;
  do! ok := drm_hdcp_enable_and_check in
  drm_hdcp_enable_display_ied ;; cret ok.

(** The handler of the timer. *)
Definition drm_hdcp_check_link_status : H unit :=
  do! b := drm_hdcp_isAuthenticated in if b : bool then cret tt else drm_hdcp_enable_hdcp_work ;; cret tt.

(** A timer that exists has an identifier other than 0. *)
Definition drm_hdcp_start_link_checking : H bool :=
  do! timer := get g_hdcpStatusCheckTimer in
  if truthy timer then cret false else
  do! r := drmCommand TimerCreate in
  if negb (r =? 0) then cret false else
  do! id := ask (timer_id o) in
  set_timer id ;;
  do! r := drmCommand (TimerSet true) in
  if negb (r =? 0) then send (Drm TimerDelete) ;; set_timer 0 ;; cret false else cret true.

Definition drm_hdcp_stop_link_checking : H unit :=
  do! timer := get g_hdcpStatusCheckTimer in
  if timer =? 0 then cret tt else drmCommand (TimerSet false) ;; send (Drm TimerDelete) ;; set_timer 0.

(** [atoi] *)
Definition atoi (s : bytes) : Z :=
  let l := skip_space s in
  let '(neg, l) := match l with
                   | c :: l' => if c =? 45 then (true, l') else if c =? 43 then (false, l') else (false, l)
                   | [] => (false, l)
                   end in
  match strto_digits 10 l 0 false with
  | Some (v, _) => if neg : bool then Z.max (- 2 ^ 31) (- v) else Z.min (2 ^ 31 - 1) v
  | None => 0
  end.

(** Without the protection compiled in, enabling succeeds and nothing happens. *)
Context (ENABLE_HDCP : bool).

Definition drm_hdcp_disable_hdcp (connected : bool) : H unit :=
  if negb ENABLE_HDCP then cret tt else
  drm_hdcp_stop_link_checking ;;
  if connected then drm_hdcp_disable ;; cret tt else cret tt.

(** The property is 1 when it is not set, and is never empty. *)
Definition drm_hdcp_enable_hdcp : H bool :=
  if negb ENABLE_HDCP then cret true else
  do! prop := ask (hdcp_property o) in
  if negb (is_null prop) && (atoi prop =? 0) then cret false else
  do! ok := drm_hdcp_enable_hdcp_work in
  drm_hdcp_start_link_checking ;; cret ok.
End Drm.
