(* ===== verification/CtpComposer.v ===== *)
(** * The service for displays on Clovertrail (libmultidisplay/ctp_legacy/native/MultiDisplayComposer.cpp, MultiDisplayService.cpp)

    The composer switches HDMI and the built-in panel by what is connected, by the policies that
    clients set and by the video that plays, and tells its listeners the mode of the displays.  A
    thread of its own switches the panel when that is asked for, and a timer of the driver checks the
    protection of the content.  Messages are left out. *)

From stdpp Require Import base list numbers strings.
From Stdlib Require Import ZArith Lia.
From S2P Require Import Prelude StateOp DrmHdmi CtpDrm.
#[local] Open Scope op_scope.

(** ** Constants of MultiDisplayType.h *)

Definition MDS_NO_ERROR : Z := 0.
Definition MDS_ERROR : Z := -1.

Definition MDS_MODE_CHANGE : Z := 1.
Definition MDS_SET_TIMING : Z := 2.
Definition MDS_SET_VIDEO_STATUS : Z := 4.

Definition MDS_MODE_NONE : Z := 0.
Definition MDS_MIPI_ON : Z := 2 ^ 0.
Definition MDS_HDMI_CONNECTED : Z := 2 ^ 3.
Definition MDS_HDMI_ON : Z := 2 ^ 4.
Definition MDS_HDMI_CLONE : Z := 2 ^ 5.
Definition MDS_HDMI_VIDEO_EXT : Z := 2 ^ 6.
Definition MDS_WIDI_ON : Z := 2 ^ 7.
Definition MDS_VIDEO_PLAYING : Z := 2 ^ 23.
Definition MDS_HDCP_ON : Z := 2 ^ 24.
Definition MDS_OVERLAY_OFF : Z := 2 ^ 25.

Definition MDS_HDMI_ON_NOT_ALLOWED : Z := 0.
Definition MDS_HDMI_ON_ALLOWED : Z := 1.
Definition MDS_MIPI_OFF_NOT_ALLOWED : Z := 2.
Definition MDS_MIPI_OFF_ALLOWED : Z := 3.

Definition MDS_HW_SUPPORT_HDMI : Z := 1.
Definition MDS_HW_SUPPORT_WIDI : Z := 2.

Definition MDS_VIDEO_UNPREPARED : Z := 4.

Definition NO_MIPI_REQ : Z := -1.
Definition MIPI_OFF_REQ : Z := 0.
Definition MIPI_ON_REQ : Z := 1.

(** ** Data *)

Record MDSVideoSourceInfo := mkVideo {
  isPlaying : bool; isProtected : bool; frameRate : Z; displayW : Z; displayH : Z; isInterlaced : bool
}.

Definition zero_video : MDSVideoSourceInfo := mkVideo false false 0 0 0 false.

Section Composer.
Context {interface : Type}.
#[local] Abbreviation event := (@event interface).
#[local] Abbreviation outside := (@outside interface).
#[local] Abbreviation hardware := (@hardware interface).

(** The interface of a listener may be missing. *)
Record listener := mkListener { l_msg : Z; l_name : string; l_interface : option interface }.

Definition checkMsg (msg : Z) (l : listener) : bool := truthy (Z.land msg (l_msg l)).

(** The listeners are ordered by the addresses that they are registered with. *)
Record composer := mkComposer {
  hw : hardware; mDrmInit : bool; mMode : Z; mDisplayCapability : Z; mHdmiPolicy : Z; mMipiPolicy : Z;
  mMipiOn : bool; mMipiReq : Z; mWidiVideoExt : bool; mListener : list (Z * listener);
  mConnectStatus : Z; mVideo : MDSVideoSourceInfo; mVideoState : Z; mSurfaceComposer : bool;
  mScaleMode : Z; mScaleStepX : Z; mScaleStepY : Z
}.

Definition set_hw v c := mkComposer v (mDrmInit c) (mMode c) (mDisplayCapability c) (mHdmiPolicy c) (mMipiPolicy c) (mMipiOn c) (mMipiReq c) (mWidiVideoExt c) (mListener c) (mConnectStatus c) (mVideo c) (mVideoState c) (mSurfaceComposer c) (mScaleMode c) (mScaleStepX c) (mScaleStepY c).
Definition set_mDrmInit v c := mkComposer (hw c) v (mMode c) (mDisplayCapability c) (mHdmiPolicy c) (mMipiPolicy c) (mMipiOn c) (mMipiReq c) (mWidiVideoExt c) (mListener c) (mConnectStatus c) (mVideo c) (mVideoState c) (mSurfaceComposer c) (mScaleMode c) (mScaleStepX c) (mScaleStepY c).
Definition set_mMode v c := mkComposer (hw c) (mDrmInit c) v (mDisplayCapability c) (mHdmiPolicy c) (mMipiPolicy c) (mMipiOn c) (mMipiReq c) (mWidiVideoExt c) (mListener c) (mConnectStatus c) (mVideo c) (mVideoState c) (mSurfaceComposer c) (mScaleMode c) (mScaleStepX c) (mScaleStepY c).
Definition set_mDisplayCapability v c := mkComposer (hw c) (mDrmInit c) (mMode c) v (mHdmiPolicy c) (mMipiPolicy c) (mMipiOn c) (mMipiReq c) (mWidiVideoExt c) (mListener c) (mConnectStatus c) (mVideo c) (mVideoState c) (mSurfaceComposer c) (mScaleMode c) (mScaleStepX c) (mScaleStepY c).
Definition set_mHdmiPolicy v c := mkComposer (hw c) (mDrmInit c) (mMode c) (mDisplayCapability c) v (mMipiPolicy c) (mMipiOn c) (mMipiReq c) (mWidiVideoExt c) (mListener c) (mConnectStatus c) (mVideo c) (mVideoState c) (mSurfaceComposer c) (mScaleMode c) (mScaleStepX c) (mScaleStepY c).
Definition set_mMipiPolicy v c := mkComposer (hw c) (mDrmInit c) (mMode c) (mDisplayCapability c) (mHdmiPolicy c) v (mMipiOn c) (mMipiReq c) (mWidiVideoExt c) (mListener c) (mConnectStatus c) (mVideo c) (mVideoState c) (mSurfaceComposer c) (mScaleMode c) (mScaleStepX c) (mScaleStepY c).
Definition set_mMipiOn v c := mkComposer (hw c) (mDrmInit c) (mMode c) (mDisplayCapability c) (mHdmiPolicy c) (mMipiPolicy c) v (mMipiReq c) (mWidiVideoExt c) (mListener c) (mConnectStatus c) (mVideo c) (mVideoState c) (mSurfaceComposer c) (mScaleMode c) (mScaleStepX c) (mScaleStepY c).
Definition set_mMipiReq v c := mkComposer (hw c) (mDrmInit c) (mMode c) (mDisplayCapability c) (mHdmiPolicy c) (mMipiPolicy c) (mMipiOn c) v (mWidiVideoExt c) (mListener c) (mConnectStatus c) (mVideo c) (mVideoState c) (mSurfaceComposer c) (mScaleMode c) (mScaleStepX c) (mScaleStepY c).
Definition set_mWidiVideoExt v c := mkComposer (hw c) (mDrmInit c) (mMode c) (mDisplayCapability c) (mHdmiPolicy c) (mMipiPolicy c) (mMipiOn c) (mMipiReq c) v (mListener c) (mConnectStatus c) (mVideo c) (mVideoState c) (mSurfaceComposer c) (mScaleMode c) (mScaleStepX c) (mScaleStepY c).
Definition set_mListener v c := mkComposer (hw c) (mDrmInit c) (mMode c) (mDisplayCapability c) (mHdmiPolicy c) (mMipiPolicy c) (mMipiOn c) (mMipiReq c) (mWidiVideoExt c) v (mConnectStatus c) (mVideo c) (mVideoState c) (mSurfaceComposer c) (mScaleMode c) (mScaleStepX c) (mScaleStepY c).
Definition set_mConnectStatus v c := mkComposer (hw c) (mDrmInit c) (mMode c) (mDisplayCapability c) (mHdmiPolicy c) (mMipiPolicy c) (mMipiOn c) (mMipiReq c) (mWidiVideoExt c) (mListener c) v (mVideo c) (mVideoState c) (mSurfaceComposer c) (mScaleMode c) (mScaleStepX c) (mScaleStepY c).
Definition set_mVideo v c := mkComposer (hw c) (mDrmInit c) (mMode c) (mDisplayCapability c) (mHdmiPolicy c) (mMipiPolicy c) (mMipiOn c) (mMipiReq c) (mWidiVideoExt c) (mListener c) (mConnectStatus c) v (mVideoState c) (mSurfaceComposer c) (mScaleMode c) (mScaleStepX c) (mScaleStepY c).
Definition set_mVideoState v c := mkComposer (hw c) (mDrmInit c) (mMode c) (mDisplayCapability c) (mHdmiPolicy c) (mMipiPolicy c) (mMipiOn c) (mMipiReq c) (mWidiVideoExt c) (mListener c) (mConnectStatus c) (mVideo c) v (mSurfaceComposer c) (mScaleMode c) (mScaleStepX c) (mScaleStepY c).
Definition set_mSurfaceComposer v c := mkComposer (hw c) (mDrmInit c) (mMode c) (mDisplayCapability c) (mHdmiPolicy c) (mMipiPolicy c) (mMipiOn c) (mMipiReq c) (mWidiVideoExt c) (mListener c) (mConnectStatus c) (mVideo c) (mVideoState c) v (mScaleMode c) (mScaleStepX c) (mScaleStepY c).
Definition set_mScaleMode v c := mkComposer (hw c) (mDrmInit c) (mMode c) (mDisplayCapability c) (mHdmiPolicy c) (mMipiPolicy c) (mMipiOn c) (mMipiReq c) (mWidiVideoExt c) (mListener c) (mConnectStatus c) (mVideo c) (mVideoState c) (mSurfaceComposer c) v (mScaleStepX c) (mScaleStepY c).
Definition set_mScaleStepX v c := mkComposer (hw c) (mDrmInit c) (mMode c) (mDisplayCapability c) (mHdmiPolicy c) (mMipiPolicy c) (mMipiOn c) (mMipiReq c) (mWidiVideoExt c) (mListener c) (mConnectStatus c) (mVideo c) (mVideoState c) (mSurfaceComposer c) (mScaleMode c) v (mScaleStepY c).
Definition set_mScaleStepY v c := mkComposer (hw c) (mDrmInit c) (mMode c) (mDisplayCapability c) (mHdmiPolicy c) (mMipiPolicy c) (mMipiOn c) (mMipiReq c) (mWidiVideoExt c) (mListener c) (mConnectStatus c) (mVideo c) (mVideoState c) (mSurfaceComposer c) (mScaleMode c) (mScaleStepX c) v.

#[local] Abbreviation C := (op composer).

Context (hdr : drm_header) (DRM_MODE_CONNECTOR_MIPI : Z) (ENABLE_HDCP DVI_SUPPORTED : bool).

Section Operations.
Context (o : outside).

Definition in_hw {A} (m : op hardware A) : C A := fun c =>
  match m (hw c) with Some (a, h) => Some (a, set_hw h c) | None => None end.

Definition set_bit (bit : Z) : C unit := update (fun c => set_mMode (Z.lor (mMode c) bit) c).
Definition clear_bit (bit : Z) : C unit := update (fun c => set_mMode (Z.ldiff (mMode c) bit) c).
Definition checkMode (value bit : Z) : bool := Z.land value bit =? bit.

(** Every operation of the service but one needs the driver. *)
Definition checked (m : C Z) : C Z := do! ok := get mDrmInit in if negb ok then cret MDS_ERROR else m.

(** ** Listeners *)

Definition messages (msg : Z) (value : payload) (ls : list (Z * listener)) : list event :=
  omap (fun '(_, l) => if checkMsg msg l then (fun i => OnMdsMessage i msg value) <$> l_interface l else None) ls.

Definition broadcastMessage_l (msg : Z) (value : payload) : C unit :=
  do! ls := get mListener in
  in_hw (update (fun h => mkHw (cxt h) (g_hdcpStatusCheckTimer h) (sent h ++ messages msg value ls))).

Definition tell_mode (mode : Z) : C unit := broadcastMessage_l MDS_MODE_CHANGE (IntValue mode).
Definition announce : C unit := do! mode := get mMode in tell_mode mode.

Definition HWC : string := "HWComposer".

(** Whether there is a composer of the hardware, and the first one that sets timings. *)
Fixpoint find_hwc (ls : list (Z * listener)) (hasHwc : bool) : bool * option interface :=
  match ls with
  | [] => (hasHwc, None)
  | (_, l) :: ls =>
      if bool_decide (l_name l = HWC) then if checkMsg MDS_SET_TIMING l then (true, l_interface l) else find_hwc ls true
      else find_hwc ls hasHwc
  end.

Definition setHdmiTiming_l (t : MDSHDMITiming) : C Z :=
  do! ls := get mListener in
  match find_hwc ls false with
  | (_, Some i) => in_hw (send (OnMdsMessage i MDS_SET_TIMING (TimingValue t)) ;; ask (message_result o))
  | (hasHwc, None) => cret (if hasHwc then MDS_ERROR else MDS_NO_ERROR)
  end.

Definition registerListener (l : option interface) (handle : Z) (name : option string) (msg : Z) : C Z :=
  match name with
  | None => cret MDS_ERROR
  | Some name =>
      if msg =? 0 then cret MDS_ERROR else
      do! ls := get mListener in
      if has_key handle ls then cret MDS_ERROR else
      update (set_mListener (keyed_add handle (mkListener msg name l) ls)) ;; cret MDS_NO_ERROR
  end.

Definition unregisterListener (handle : Z) : C Z :=
  update (fun c => set_mListener (keyed_remove handle (mListener c)) c) ;; cret MDS_NO_ERROR.

(** ** The mode of HDMI *)

Definition turn_on_mipi : C unit :=
  update (set_mMipiPolicy MDS_MIPI_OFF_NOT_ALLOWED) ;;
  do! mode := get mMode in
  if checkMode mode MDS_MIPI_ON then cret tt else
  in_hw (drm_mipi_setMode DRM_MODE_CONNECTOR_MIPI o DRM_MIPI_ON) ;;
  set_bit MDS_MIPI_ON ;; update (set_mMipiOn true).

Definition hdmi_disconnected (connectStatus : Z) : C Z :=
  do! mode := get mMode in
  if negb (checkMode mode MDS_HDMI_CONNECTED) then
    announce ;; update (set_mConnectStatus connectStatus) ;; cret MDS_NO_ERROR
  else
    in_hw (drm_hdmi_notify_audio_hotplug o false) ;;
    in_hw (drm_hdcp_disable_hdcp o ENABLE_HDCP false) ;;
    clear_bit MDS_HDMI_CONNECTED ;; clear_bit MDS_HDMI_ON ;; clear_bit MDS_HDCP_ON ;;
    clear_bit MDS_HDMI_CLONE ;; clear_bit MDS_HDMI_VIDEO_EXT ;; clear_bit MDS_OVERLAY_OFF ;;
    announce ;;
    in_hw drm_hdmi_onHdmiDisconnected ;;
    update (set_mConnectStatus connectStatus) ;; cret MDS_NO_ERROR.

(** HDMI is connected, and may not be on. *)
Definition hdmi_not_allowed (connectStatus : Z) (notify_audio_hotplug : bool) : C Z :=
  do! status := get mConnectStatus in
  do! init := get mDrmInit in
  (if negb (status =? connectStatus) && notify_audio_hotplug && init
   then in_hw (drm_hdmi_notify_audio_hotplug o true) ;; update (set_mConnectStatus connectStatus) else cret tt) ;;
  do! mode := get mMode in
  if negb (checkMode mode MDS_HDMI_ON) then announce ;; cret MDS_NO_ERROR else
  (if checkMode mode MDS_HDCP_ON then in_hw (drm_hdcp_disable_hdcp o ENABLE_HDCP true) else cret tt) ;;
  clear_bit MDS_HDCP_ON ;; clear_bit MDS_HDMI_ON ;; clear_bit MDS_HDMI_CLONE ;; clear_bit MDS_HDMI_VIDEO_EXT ;;
  announce ;;
  in_hw (drm_hdmi_setHdmiVideoOff o) ;; cret MDS_NO_ERROR.

(** The timing for the new mode; a timing that is not found is sent as it was. *)
Definition set_timing (playing : bool) : C unit :=
  do! v := get mVideo in
  let '(mode, timing) := if playing then (DRM_HDMI_VIDEO_EXT, mkHdmi (u32 (frameRate v)) (displayW v) (displayH v) 0 0)
                         else (DRM_HDMI_CLONE, zero_timing) in
  do! t := in_hw (drm_hdmi_getTiming hdr o mode timing) in
  setHdmiTiming_l (default timing t) ;; cret tt.

(** The protection is switched off for the change, and on again. *)
Definition protect (playing : bool) : C unit :=
  do! mode := get mMode in
  (if checkMode mode MDS_HDCP_ON then in_hw (drm_hdcp_disable_hdcp o ENABLE_HDCP true) ;; clear_bit MDS_HDCP_ON else cret tt) ;;
  set_timing playing ;;
  do! hdcp := in_hw (drm_hdcp_enable_hdcp hdr o ENABLE_HDCP) in
  if hdcp : bool then set_bit MDS_HDCP_ON else cret tt.

(** The overlay is off until the display is on, and afterwards unless a video plays. *)
Definition show (playing : bool) : C unit :=
  set_bit MDS_OVERLAY_OFF ;;
  (if playing then set_bit MDS_HDMI_VIDEO_EXT ;; clear_bit MDS_HDMI_CLONE ;; update (set_mMipiPolicy MDS_MIPI_OFF_ALLOWED)
   else clear_bit MDS_HDMI_VIDEO_EXT ;; set_bit MDS_HDMI_CLONE) ;;
  announce ;;
  do! mode := get mMode in
  (if negb (checkMode mode MDS_HDMI_ON) then in_hw (drm_hdmi_setHdmiVideoOn o) ;; set_bit MDS_HDMI_ON ;; announce else cret tt) ;;
  do! mode := get mMode in
  (if checkMode mode MDS_HDMI_VIDEO_EXT then clear_bit MDS_OVERLAY_OFF else cret tt) ;;
  announce.

(** From another mode to cloned or, for a video, to extended. *)
Definition hdmi_transition (playing notify_audio_hotplug : bool) : C Z :=
  do! mode := get mMode in
  tell_mode (Z.lor (Z.ldiff (Z.ldiff mode MDS_HDMI_CLONE) MDS_HDMI_VIDEO_EXT) MDS_OVERLAY_OFF) ;;
  protect playing ;;
  show playing ;;
  do! init := get mDrmInit in
  (if notify_audio_hotplug && init then in_hw (drm_hdmi_notify_audio_hotplug o true) ;; cret tt else cret tt) ;;
  cret MDS_NO_ERROR.

(** The display is connected, and may be on. *)
Definition hdmi_allowed (connectStatus : Z) (playing notify_audio_hotplug : bool) : C Z :=
  update (set_mConnectStatus connectStatus) ;;
  do! mode := get mMode in
  if (playing && checkMode mode MDS_HDMI_VIDEO_EXT) || (negb playing && checkMode mode MDS_HDMI_CLONE)
  then announce ;; cret MDS_NO_ERROR else hdmi_transition playing notify_audio_hotplug.

Definition getHdmiPlug_l : C Z := in_hw (drm_hdmi_getConnectionStatus hdr o).

(** What is to be done when the connection is known. *)
Definition switch_hdmi (playing : bool) (connectStatus : Z) : C Z :=
  if negb DVI_SUPPORTED && (connectStatus =? DRM_DVI_CONNECTED) then
    announce ;; update (set_mConnectStatus connectStatus) ;; cret MDS_ERROR
  else
    do! policy := get mHdmiPolicy in
    (if (connectStatus =? DRM_HDMI_DISCONNECTED) || (policy =? MDS_HDMI_ON_NOT_ALLOWED) || negb playing
     then turn_on_mipi else cret tt) ;;
    if connectStatus =? DRM_HDMI_DISCONNECTED then hdmi_disconnected connectStatus else
    do! mode := get mMode in
    let notify_audio_hotplug := Z.land mode MDS_HDMI_CONNECTED =? 0 in
    set_bit MDS_HDMI_CONNECTED ;;
    if policy =? MDS_HDMI_ON_NOT_ALLOWED then hdmi_not_allowed connectStatus notify_audio_hotplug
    else hdmi_allowed connectStatus playing notify_audio_hotplug.

Definition setHdmiMode_l : C Z :=
  do! v := get mVideo in
  let playing := isPlaying v in
  (if playing then set_bit MDS_VIDEO_PLAYING else clear_bit MDS_VIDEO_PLAYING) ;;
  do! connectStatus := getHdmiPlug_l in
  switch_hdmi playing connectStatus.

(** ** The built-in panel *)

Definition notifyMipi (on : bool) : C Z := update (set_mMipiReq (if on then MIPI_ON_REQ else MIPI_OFF_REQ)) ;; cret MDS_NO_ERROR.

(** A panel that may not be switched off is taken for one that is off. *)
Definition setMipiMode_l (on : bool) : C Z :=
  do! is_on := get mMipiOn in
  if Bool.eqb is_on on then cret MDS_NO_ERROR else
  let switch_off := in_hw (drm_mipi_setMode DRM_MODE_CONNECTOR_MIPI o DRM_MIPI_OFF) ;; clear_bit MDS_MIPI_ON in
  if on then
    in_hw (drm_mipi_setMode DRM_MODE_CONNECTOR_MIPI o DRM_MIPI_ON) ;; set_bit MDS_MIPI_ON ;;
    update (set_mMipiOn on) ;; cret MDS_NO_ERROR
  else
    do! widi := get mWidiVideoExt in
    if widi : bool then switch_off ;; update (set_mMipiOn on) ;; cret MDS_NO_ERROR else
    do! mode := get mMode in
    if negb (checkMode mode MDS_HDMI_VIDEO_EXT) then announce ;; cret MDS_ERROR else
    do! policy := get mMipiPolicy in
    (if policy =? MDS_MIPI_OFF_ALLOWED then switch_off else cret tt) ;;
    update (set_mMipiOn on) ;; cret MDS_NO_ERROR.

(** ** Policies *)

Definition setModePolicy_l (policy : Z) : C Z :=
  if (policy =? MDS_HDMI_ON_NOT_ALLOWED) || (policy =? MDS_HDMI_ON_ALLOWED) then
    update (set_mHdmiPolicy policy) ;; setHdmiMode_l
  else if policy =? MDS_MIPI_OFF_NOT_ALLOWED then
    update (set_mMipiPolicy policy) ;;
    do! mode := get mMode in
    (if negb (checkMode mode MDS_MIPI_ON) then in_hw (drm_mipi_setMode DRM_MODE_CONNECTOR_MIPI o DRM_MIPI_ON) ;; cret tt else cret tt) ;;
    set_bit MDS_MIPI_ON ;; update (set_mMipiOn true) ;; announce ;; cret MDS_NO_ERROR
  else if policy =? MDS_MIPI_OFF_ALLOWED then
    update (set_mMipiPolicy policy) ;;
    do! mode := get mMode in
    (if checkMode mode MDS_MIPI_ON then in_hw (drm_mipi_setMode DRM_MODE_CONNECTOR_MIPI o DRM_MIPI_OFF) ;; cret tt else cret tt) ;;
    clear_bit MDS_MIPI_ON ;; update (set_mMipiOn false) ;; announce ;; cret MDS_NO_ERROR
  else cret MDS_ERROR.

(** ** Scaling *)

Definition setDisplayScalingLocked (mode stepx stepy : Z) : C Z :=
  do! known := get mSurfaceComposer in
  do! found := if known : bool then cret true else in_hw (ask (getService o)) in
  update (set_mSurfaceComposer found) ;;
  if negb found then cret (-1) else
  in_hw (send (Transact (Z.lor (Z.lor mode (u32 (Z.shiftl stepx 16))) (u32 (Z.shiftl stepy 24)))) ;; ask (transact_result o)).

Definition setHdmiScaleType (type : Z) : C Z :=
  update (set_mScaleMode (u32 type)) ;;
  do! x := get mScaleStepX in
  do! y := get mScaleStepY in
  setDisplayScalingLocked (u32 type) x y.

(** The difference to the largest step may not overflow. *)
Definition scale_step (value : Z) : option Z :=
  let step := if 5 <? value then 0 else 5 - value in if step <? 2 ^ 31 then Some step else None.

Definition setHdmiScaleStep (hValue vValue : Z) : C Z :=
  match scale_step hValue, scale_step vValue with
  | Some x, Some y =>
      update (fun c => set_mScaleStepY y (set_mScaleStepX x c)) ;;
      do! mode := get mScaleMode in
      setDisplayScalingLocked mode x y
  | _, _ => fun _ => None
  end.

(** ** The other operations *)

(** [busy]: the mutex is taken when it is tried. *)
Definition getMode (wait busy : bool) : C Z := if negb wait && busy then cret MDS_MODE_NONE else get mMode.

Definition notifyWidi (on : bool) : C Z :=
  update (set_mWidiVideoExt on) ;; (if on then set_bit MDS_WIDI_ON else clear_bit MDS_WIDI_ON) ;; cret MDS_NO_ERROR.

Definition setHdmiPowerOff : C Z := in_hw (drm_hdmi_setHdmiPowerOff o) ;; cret MDS_NO_ERROR.

Definition prepareForVideo (status : Z) : C Z :=
  do! state := get mVideoState in
  if state =? status then cret MDS_NO_ERROR else
  update (set_mVideoState status) ;;
  broadcastMessage_l MDS_SET_VIDEO_STATUS (IntValue status) ;;
  if status =? MDS_VIDEO_UNPREPARED then update (set_mVideo zero_video) ;; setHdmiMode_l else cret MDS_NO_ERROR.

Definition getVideoState : C Z := get mVideoState.

Definition updateVideoInfo (info : MDSVideoSourceInfo) : C Z := update (set_mVideo info) ;; setHdmiMode_l.

Definition notifyHotPlug : C Z :=
  do! ret := setHdmiMode_l in
  do! changed := in_hw (drm_hdmi_isDeviceChanged false) in
  do! status := get mConnectStatus in
  (if changed && (status =? DRM_HDMI_CONNECTED) then setDisplayScalingLocked 0 0 0 ;; cret tt else cret tt) ;; cret ret.

Definition setModePolicy (policy : Z) : C Z := setModePolicy_l policy.

Definition getHdmiModeInfo (room : bool) : C (Z * list MDSHDMITiming) := in_hw (drm_hdmi_getModeInfo hdr o room).

(** The timing is a variable that was never set. *)
Definition setHdmiModeInfo (t : MDSHDMITiming) : C Z :=
  in_hw (drm_hdmi_setModeInfo t) ;;
  do! timing := in_hw (drm_hdmi_getTiming hdr o DRM_HDMI_CLONE (unset_timing o)) in
  setHdmiTiming_l (default (unset_timing o) timing) ;;
  announce ;; cret MDS_NO_ERROR.

Definition getHdmiDeviceChange : C Z := do! changed := in_hw (drm_hdmi_isDeviceChanged true) in cret (bool_to_Z changed).

Definition getVideoInfo : C (Z * option MDSVideoSourceInfo) :=
  do! v := get mVideo in cret (if isPlaying v then (MDS_NO_ERROR, Some v) else (MDS_ERROR, None)).

Definition getDisplayCapability : C Z := get mDisplayCapability.

(** ** Start *)

Definition initialize_l (fd : Z) : C unit :=
  do! ok := in_hw (drm_init hdr o fd) in
  if negb ok then cret tt else
  update (set_mDrmInit true) ;;
  do! supported := in_hw drm_hdmi_isSupported in
  (if supported then
     update (fun c => set_mDisplayCapability (Z.lor (mDisplayCapability c) MDS_HW_SUPPORT_HDMI) c) ;;
     setModePolicy_l MDS_HDMI_ON_ALLOWED ;; cret tt
   else cret tt) ;;
  setModePolicy_l MDS_MIPI_OFF_NOT_ALLOWED ;; cret tt.

(** [video_state] is what the memory held: it is not set. *)
Definition MultiDisplayComposer (fd video_state : Z) (h : hardware) : option composer :=
  let c := mkComposer h false 0 MDS_HW_SUPPORT_WIDI MDS_HDMI_ON_ALLOWED MDS_MIPI_OFF_NOT_ALLOWED true NO_MIPI_REQ false [] 0
             zero_video video_state false 0 0 0 in
  snd <$> initialize_l fd c.

Definition delete_composer : C unit := in_hw drm_cleanup ;; update (set_mListener []).

(** ** The service *)

Inductive request :=
  GetMode (wait busy : bool) | NotifyWidi (on : bool) | NotifyMipi (on : bool) | PrepareForVideo (status : Z) | GetVideoState
| UpdateVideoInfo (info : MDSVideoSourceInfo) | NotifyHotPlug | SetHdmiPowerOff | SetModePolicy (policy : Z)
| RegisterListener (l : option interface) (handle : Z) (client : option string) (msg : Z) | UnregisterListener (handle : Z)
| GetHdmiModeInfo (room : bool) | SetHdmiModeInfo (t : MDSHDMITiming) | SetHdmiScaleType (type : Z)
| SetHdmiScaleStep (hValue vValue : Z) | GetHdmiDeviceChange | GetVideoInfo | GetDisplayCapability.

Inductive response := Status (r : Z) | Modes (r : Z) (l : list MDSHDMITiming) | Video (r : Z) (v : option MDSVideoSourceInfo).

Definition status (m : C Z) : C response := do! r := m in cret (Status r).

(** Queries with more to answer than a number, when the driver is missing. *)
Definition guarded {A} (r : A) (m : C A) : C A := do! ok := get mDrmInit in if negb ok then cret r else m.

Definition serve (r : request) : C response :=
  match r with
  | GetMode wait busy => status (checked (getMode wait busy))
  | NotifyWidi on => status (checked (notifyWidi on))
  | NotifyMipi on => status (checked (notifyMipi on))
  | PrepareForVideo s => status (checked (prepareForVideo s))
  | GetVideoState => status (checked getVideoState)
  | UpdateVideoInfo info => status (checked (updateVideoInfo info))
  | NotifyHotPlug => status (checked notifyHotPlug)
  | SetHdmiPowerOff => status (checked setHdmiPowerOff)
  | SetModePolicy policy => status (checked (setModePolicy policy))
  | RegisterListener l handle client msg => status (checked (registerListener l handle client msg))
  | UnregisterListener handle => status (checked (unregisterListener handle))
  | GetHdmiModeInfo room => do! (r, l) := guarded (MDS_ERROR, []) (getHdmiModeInfo room) in cret (Modes r l)
  | SetHdmiModeInfo t => status (checked (setHdmiModeInfo t))
  | SetHdmiScaleType type => status (checked (setHdmiScaleType type))
  | SetHdmiScaleStep hValue vValue => status (checked (setHdmiScaleStep hValue vValue))
  | GetHdmiDeviceChange => status (checked getHdmiDeviceChange)
  | GetVideoInfo => do! (r, v) := guarded (MDS_ERROR, None) getVideoInfo in cret (Video r v)
  | GetDisplayCapability => status getDisplayCapability
  end.

(** The thread of the panel takes a request, which a wait may also end without, and carries it out
    later. *)
Definition take_mipi_request : C bool :=
  do! req := get mMipiReq in update (set_mMipiReq NO_MIPI_REQ) ;; cret (req =? MIPI_ON_REQ).
End Operations.

(** ** The system

    Requests, the thread of the panel and the timer take turns; each step may find the displays and
    the rest of the system in any condition. *)

Record system := mkSystem { service : composer; mipi_thread : option bool }.

Inductive step : system -> system -> Prop :=
| step_serve o r c a c' t : serve o r c = Some (a, c') -> step (mkSystem c t) (mkSystem c' t)
| step_take c b c' : mDrmInit c = true -> take_mipi_request c = Some (b, c') -> step (mkSystem c None) (mkSystem c' (Some b))
| step_mipi o on c a c' : setMipiMode_l o on c = Some (a, c') -> step (mkSystem c (Some on)) (mkSystem c' None)
| step_timer o c u c' t : g_hdcpStatusCheckTimer (hw c) <> 0 ->
    in_hw (drm_hdcp_check_link_status hdr o) c = Some (u, c') -> step (mkSystem c t) (mkSystem c' t).

Inductive reachable : system -> Prop :=
| reach_start o fd video_state c : MultiDisplayComposer o fd video_state (mkHw zero_context 0 []) = Some c -> reachable (mkSystem c None)
| reach_step s s' : reachable s -> step s s' -> reachable s'.
End Composer.
