(* ===== verification/Composer.v ===== *)
(** * The service for displays (libmultidisplay/native/MultiDisplayComposer.cpp, MultiDisplayService.cpp)

    The composer keeps the mode of the displays, the video sessions and the listeners.  Every
    operation but two runs under its mutex, so they follow one another; what the composer sends to
    listeners, to the callback, to the audio driver and to SurfaceFlinger is a list of events.  What
    the others answer may depend on everything sent before.  Messages are left out. *)

From stdpp Require Import base list numbers strings.
From Stdlib Require Import ZArith Lia.
From S2P Require Import Prelude StateOp DrmHdmi.
#[local] Open Scope op_scope.

(** ** Constants of utils/Errors.h, hardware/hwcomposer_defs.h and of the headers of the service *)

Definition NO_ERROR : Z := 0.
Definition UNKNOWN_ERROR : Z := - 2 ^ 31.
Definition BAD_VALUE : Z := -22.
Definition NO_INIT : Z := -19.

Definition MDS_DISPLAY_PRIMARY : Z := 0.
Definition MDS_DISPLAY_EXTERNAL : Z := 1.
Definition MDS_DISPLAY_VIRTUAL : Z := 2.

Definition MDS_VIDEO_SESSION_MAX_VALUE : Z := 16.
Definition MDS_LISTENER_MAX_VALUE : Z := MDS_VIDEO_SESSION_MAX_VALUE * 4.
Definition overscan_max : Z := 5.

Definition MDS_VIDEO_STATE_UNKNOWN : Z := 0.
Definition MDS_VIDEO_PREPARING : Z := 1.
Definition MDS_VIDEO_PREPARED : Z := 2.
Definition MDS_VIDEO_UNPREPARING : Z := 3.
Definition MDS_VIDEO_UNPREPARED : Z := 4.

Definition MDS_MODE_NONE : Z := 0.
Definition MDS_DVI_CONNECTED : Z := 1.
Definition MDS_HDMI_CONNECTED : Z := 2.
Definition MDS_WIDI_ON : Z := 4.
Definition MDS_VIDEO_ON : Z := 8.
Definition MDS_VPP_CHANGED : Z := 16.

Definition MDS_MSG_MODE_CHANGE : Z := 2.
Definition MDS_SCALING_NONE : Z := 0.

(** ** Data *)

Record MDSVideoSourceInfo := mkInfo {
  frameRate : Z; displayW : Z; displayH : Z; isInterlaced : bool; isProtected : bool
}.

Record decoder_config := mkDecoder {
  dc_width : Z; dc_height : Z; dc_offX : Z; dc_offY : Z; dc_bufW : Z; dc_bufH : Z
}.

(** A valid information, and a valid configuration of the decoder. *)
Record session := mkSession { mState : Z; mInfo : option MDSVideoSourceInfo; mDecoderConfig : option decoder_config }.

Definition session_init : session := mkSession MDS_VIDEO_UNPREPARED None None.

Definition valid_state (state : Z) : bool := negb ((state <? MDS_VIDEO_PREPARING) || (MDS_VIDEO_UNPREPARED <? state)).

Definition setState (state : Z) (s : session) : option session :=
  if valid_state state then Some (mkSession state (mInfo s) (mDecoderConfig s)) else None.
Definition setInfo (info : MDSVideoSourceInfo) (s : session) : session := mkSession (mState s) (Some info) (mDecoderConfig s).
Definition set_decoder (c : decoder_config) (s : session) : option session :=
  if valid_state (mState s) then Some (mkSession (mState s) (mInfo s) (Some c)) else None.
Definition get_decoder (s : session) : option decoder_config := if valid_state (mState s) then mDecoderConfig s else None.

Inductive callback_call :=
  SetHdmiScalingType (type : Z) | SetHdmiOverscan (h v : Z) | UpdateVideoState (sessionId state : Z)
| BlankSecondaryDisplay (blank : bool) | UpdateInputState (state : bool) | SetHdmiTiming (timing : MDSHdmiTiming).

Section Composer.
(** The objects behind the interfaces of listeners and of the callback. *)
Context {interface callback : Type}.

Record listener := mkListener { l_msg : Z; l_name : string; l_interface : interface }.

Definition checkMsg (msg : Z) (l : listener) : bool := truthy (Z.land msg (l_msg l)).

Inductive event :=
  OnMdsMessage (l : interface) (msg value : Z) | Called (c : callback) (call : callback_call)
| AudioHotplug (plugin : bool) | Transact (scale : Z).

(** The listeners are ordered by their identifiers, as a [KeyedVector] is. *)
Record composer := mkComposer {
  drm : drmContext; mDrmInit : bool; mMode : Z; mHorizontalStep : Z; mVerticalStep : Z; mDisplayId : Z; mScaleType : Z;
  mListenerId : Z; mSurfaceComposer : bool; mMDSCallback : option callback; mListeners : list (Z * listener);
  mVideos : list session; events : list event
}.

Definition set_drm v c := mkComposer v (mDrmInit c) (mMode c) (mHorizontalStep c) (mVerticalStep c) (mDisplayId c) (mScaleType c)
  (mListenerId c) (mSurfaceComposer c) (mMDSCallback c) (mListeners c) (mVideos c) (events c).
Definition set_mMode v c := mkComposer (drm c) (mDrmInit c) v (mHorizontalStep c) (mVerticalStep c) (mDisplayId c) (mScaleType c)
  (mListenerId c) (mSurfaceComposer c) (mMDSCallback c) (mListeners c) (mVideos c) (events c).
Definition set_steps h v c := mkComposer (drm c) (mDrmInit c) (mMode c) h v (mDisplayId c) (mScaleType c)
  (mListenerId c) (mSurfaceComposer c) (mMDSCallback c) (mListeners c) (mVideos c) (events c).
Definition set_mDisplayId v c := mkComposer (drm c) (mDrmInit c) (mMode c) (mHorizontalStep c) (mVerticalStep c) v (mScaleType c)
  (mListenerId c) (mSurfaceComposer c) (mMDSCallback c) (mListeners c) (mVideos c) (events c).
Definition set_mScaleType v c := mkComposer (drm c) (mDrmInit c) (mMode c) (mHorizontalStep c) (mVerticalStep c) (mDisplayId c) v
  (mListenerId c) (mSurfaceComposer c) (mMDSCallback c) (mListeners c) (mVideos c) (events c).
Definition set_mListenerId v c := mkComposer (drm c) (mDrmInit c) (mMode c) (mHorizontalStep c) (mVerticalStep c) (mDisplayId c) (mScaleType c)
  v (mSurfaceComposer c) (mMDSCallback c) (mListeners c) (mVideos c) (events c).
Definition set_mSurfaceComposer v c := mkComposer (drm c) (mDrmInit c) (mMode c) (mHorizontalStep c) (mVerticalStep c) (mDisplayId c) (mScaleType c)
  (mListenerId c) v (mMDSCallback c) (mListeners c) (mVideos c) (events c).
Definition set_mMDSCallback v c := mkComposer (drm c) (mDrmInit c) (mMode c) (mHorizontalStep c) (mVerticalStep c) (mDisplayId c) (mScaleType c)
  (mListenerId c) (mSurfaceComposer c) v (mListeners c) (mVideos c) (events c).
Definition set_mListeners v c := mkComposer (drm c) (mDrmInit c) (mMode c) (mHorizontalStep c) (mVerticalStep c) (mDisplayId c) (mScaleType c)
  (mListenerId c) (mSurfaceComposer c) (mMDSCallback c) v (mVideos c) (events c).
Definition set_mVideos v c := mkComposer (drm c) (mDrmInit c) (mMode c) (mHorizontalStep c) (mVerticalStep c) (mDisplayId c) (mScaleType c)
  (mListenerId c) (mSurfaceComposer c) (mMDSCallback c) (mListeners c) v (events c).
Definition send_events v c := mkComposer (drm c) (mDrmInit c) (mMode c) (mHorizontalStep c) (mVerticalStep c) (mDisplayId c) (mScaleType c)
  (mListenerId c) (mSurfaceComposer c) (mMDSCallback c) (mListeners c) (mVideos c) (events c ++ v).

#[local] Abbreviation C := (op composer).

(** What the callback answers to a call, whether SurfaceFlinger is found, what it answers, and what
    VPPSetting answers. *)
Context (answer : callback -> list event -> callback_call -> Z).
Context (getService : list event -> bool) (transact : list event -> Z -> Z) (isVppOn : list event -> Z).
Context (hdr : drm_header) (VPG_DRM : bool).

Definition call_back (cb : callback) (call : callback_call) : C Z := fun c =>
  Some (answer cb (events c) call, send_events [Called cb call] c).

(** ** Listeners *)

Definition VIDEO_DRIVER : string := "VideoDriver".

Definition messages (msg value : Z) (ignoreVideoDriver : bool) (ls : list (Z * listener)) : list event :=
  concat (map (fun '(_, l) =>
    if ignoreVideoDriver && bool_decide (l_name l = VIDEO_DRIVER) then []
    else if checkMsg msg l then [OnMdsMessage (l_interface l) msg value] else []) ls).

(** The value sent is the mode. *)
Definition broadcastMessageLocked (msg : Z) (ignoreVideoDriver : bool) : C unit :=
  update (fun c => send_events (messages msg (mMode c) ignoreVideoDriver (mListeners c)) c).

Definition mode_change (ignoreVideoDriver : bool) : C unit := broadcastMessageLocked MDS_MSG_MODE_CHANGE ignoreVideoDriver.

(** The first identifier from [id] on that is not in use; [fuel] identifiers are tried. *)
Fixpoint find_unused (fuel : nat) (id : Z) (ls : list (Z * listener)) : Z :=
  match fuel with
  | O => id
  | S fuel => if has_key id ls then find_unused fuel (id + 1) ls else id
  end.

Definition registerListener (l : option interface) (name : option string) (msg : Z) : C Z :=
  match name, l with
  | Some name, Some l =>
      if msg =? 0 then cret (-1) else
      do! ls := get mListeners in
      do! newId := get mListenerId in
      if (MDS_LISTENER_MAX_VALUE <=? Z.of_nat (length ls)) || (MDS_LISTENER_MAX_VALUE <=? newId) then cret (-1) else
      if has_key newId ls then cret (-1) else
      let ls := keyed_add newId (mkListener msg name l) ls in
      update (set_mListeners ls) ;;
      update (set_mListenerId (if MDS_LISTENER_MAX_VALUE <=? newId + 1
                               then find_unused (Z.to_nat MDS_LISTENER_MAX_VALUE) 0 ls else newId + 1)) ;;
      cret newId
  | _, _ => cret (-1)
  end.

Definition unregisterListener (listenerId : Z) : C Z :=
  if listenerId <? 0 then cret BAD_VALUE else
  update (fun c => set_mListeners (keyed_remove listenerId (mListeners c)) c) ;; cret NO_ERROR.

(** ** The HDMI connection *)

(** The other driver is told nothing. *)
Definition drm_hdmi_notify_audio_hotplug (plugin : bool) : list event := if VPG_DRM then [] else [AudioHotplug plugin].

Definition in_drm {A} (f : drmContext -> A * drmContext) : C A := fun c => let '(a, g) := f (drm c) in Some (a, set_drm g c).

Definition add_mode (bit : Z) (c : composer) : composer := set_mMode (Z.lor (mMode c) bit) c.
Definition clear_mode (bits : Z) (c : composer) : composer := set_mMode (Z.ldiff (mMode c) bits) c.

Definition updateHdmiConnectStatusLocked (d : display) : C Z :=
  do! initialised := get mDrmInit in
  if negb initialised then cret NO_INIT else
  do! connectStatus := (fun c => match drm_hdmi_getConnectionStatus hdr VPG_DRM d (drm c) with
                                 | Some (s, g) => Some (s, set_drm g c)
                                 | None => None
                                 end) in
  (if connectStatus =? DRM_HDMI_CONNECTED then update (add_mode MDS_HDMI_CONNECTED)
   else if connectStatus =? DRM_DVI_CONNECTED then update (add_mode MDS_DVI_CONNECTED)
   else update (clear_mode (Z.lor MDS_HDMI_CONNECTED MDS_DVI_CONNECTED)) ;;
        update (fun c => set_drm (drm_hdmi_onHdmiDisconnected (drm c)) c)) ;;
  cret NO_ERROR.

Definition registerCallback (cbk : option callback) (d : display) : C Z :=
  match cbk with
  | None => cret BAD_VALUE
  | Some cbk => update (set_mMDSCallback (Some cbk)) ;; updateHdmiConnectStatusLocked d ;; cret NO_ERROR
  end.

Definition unregisterCallback : C Z := update (set_mMDSCallback None) ;; cret NO_ERROR.

Definition setDisplayScalingLocked (mode stepx stepy : Z) : C Z :=
  do! found := (fun c => let found := mSurfaceComposer c || getService (events c) in Some (found, set_mSurfaceComposer found c)) in
  if negb found then cret UNKNOWN_ERROR else
  let scale := Z.lor (Z.lor mode (u32 (Z.shiftl stepx 16))) (u32 (Z.shiftl stepy 24)) in
  fun c => Some (transact (events c) scale, send_events [Transact scale] c).

Definition hasVideoPlaying (vs : list session) : bool := existsb (fun s => mState s =? MDS_VIDEO_PREPARED) vs.

(** The bit of the video follows the sessions. *)
Definition update_video_on : C unit :=
  update (fun c => if hasVideoPlaying (mVideos c) then add_mode MDS_VIDEO_ON c else clear_mode MDS_VIDEO_ON c).

(** The scaling of a display that was plugged in or out is reset. *)
Definition reset_scaling : C unit :=
  do! cb := get mMDSCallback in
  do! type := get mScaleType in
  do! h := get mHorizontalStep in
  do! v := get mVerticalStep in
  do! result :=
    match cb with
    | None => cret UNKNOWN_ERROR
    | Some cb =>
        do! result := if negb (type =? MDS_SCALING_NONE) then call_back cb (SetHdmiScalingType MDS_SCALING_NONE) else cret UNKNOWN_ERROR in
        if (result =? NO_ERROR) && (negb (h =? 0) || negb (v =? 0)) then call_back cb (SetHdmiOverscan 0 0) else cret result
    end in
  do! result :=
    if negb (result =? NO_ERROR) && (negb (type =? MDS_SCALING_NONE) || negb (h =? 0) || negb (v =? 0))
    then setDisplayScalingLocked MDS_SCALING_NONE 0 0 else cret result in
  if result =? NO_ERROR then update (fun c => set_steps 0 0 (set_mScaleType MDS_SCALING_NONE c)) else cret tt.

Definition notifyHotplugLocked (dispId : Z) (connected : bool) (d : display) : C Z :=
  do! mode := get mMode in
  if dispId =? MDS_DISPLAY_VIRTUAL then
    update (if connected then add_mode MDS_WIDI_ON else clear_mode MDS_WIDI_ON) ;;
    mode_change false ;; cret NO_ERROR
  else
    update_video_on ;;
    updateHdmiConnectStatusLocked d ;;
    do! newMode := get mMode in
    (if negb (mode =? newMode) then mode_change false ;; update (send_events (drm_hdmi_notify_audio_hotplug connected)) else cret tt) ;;
    reset_scaling ;; cret NO_ERROR.

Definition updateHdmiConnectionStatus (connected : bool) (d : display) : C Z := notifyHotplugLocked MDS_DISPLAY_EXTERNAL connected d.
Definition updateWidiConnectionStatus (connected : bool) (d : display) : C Z := notifyHotplugLocked MDS_DISPLAY_VIRTUAL connected d.

(** ** Video sessions *)

Definition bad_session (sessionId : Z) : bool := (sessionId <? 0) || (MDS_VIDEO_SESSION_MAX_VALUE <=? sessionId).
Definition video (sessionId : Z) (c : composer) : session := nth (Z.to_nat sessionId) (mVideos c) session_init.
Definition set_video (sessionId : Z) (s : session) (c : composer) : composer :=
  set_mVideos (<[ Z.to_nat sessionId := s ]> (mVideos c)) c.

Definition updateVideoState (sessionId state : Z) : C Z :=
  if bad_session sessionId then cret UNKNOWN_ERROR else
  do! s := get (video sessionId) in
  if mState s =? state then cret NO_ERROR else
  match setState state s with
  | None => cret UNKNOWN_ERROR
  | Some s =>
      let ignoreVideoDriver := MDS_VIDEO_UNPREPARED <=? state in
      update (set_video sessionId (if ignoreVideoDriver then session_init else s)) ;;
      do! mode := get mMode in
      update_video_on ;;
      do! cb := get mMDSCallback in
      do! result := match cb with None => cret NO_ERROR | Some cb => call_back cb (UpdateVideoState sessionId state) end in
      do! newMode := get mMode in
      (if negb (mode =? newMode) then mode_change ignoreVideoDriver else cret tt) ;; cret result
  end.

Definition getVideoState (sessionId : Z) : C Z :=
  if bad_session sessionId then cret MDS_VIDEO_STATE_UNKNOWN else do! s := get (video sessionId) in cret (mState s).

Definition getVideoSessionSize (vs : list session) : Z :=
  Z.of_nat (length (List.filter (fun s => negb (mState s =? MDS_VIDEO_UNPREPARED)) vs)).
Definition getVideoSessionNumber : C Z := get (fun c => getVideoSessionSize (mVideos c)).

Definition updateVideoSourceInfo (sessionId : Z) (info : MDSVideoSourceInfo) : C Z :=
  do! initialised := get mDrmInit in
  if negb initialised then cret NO_INIT else
  if bad_session sessionId then cret UNKNOWN_ERROR else
  update (fun c => set_video sessionId (setInfo info (video sessionId c)) c) ;; cret NO_ERROR.

(** The status, and what is stored; [info] says whether there is room for it. *)
Definition getVideoSourceInfo (sessionId : Z) (info : bool) : C (Z * option MDSVideoSourceInfo) :=
  if negb info then cret (BAD_VALUE, None) else
  if bad_session sessionId then cret (UNKNOWN_ERROR, None) else
  do! s := get (video sessionId) in
  if negb (mState s =? MDS_VIDEO_PREPARED) then cret (UNKNOWN_ERROR, None) else
  cret (match mInfo s with Some i => (NO_ERROR, Some i) | None => (UNKNOWN_ERROR, None) end).

Fixpoint free_session (i : Z) (vs : list session) : Z :=
  match vs with
  | [] => -1
  | s :: vs => if mState s =? MDS_VIDEO_UNPREPARED then i else free_session (i + 1) vs
  end.
Definition allocateVideoSessionId : C Z := get (fun c => free_session 0 (mVideos c)).

Definition initVideoSessions (c : composer) : composer :=
  set_mVideos (replicate (Z.to_nat MDS_VIDEO_SESSION_MAX_VALUE) session_init) c.

Definition resetVideoPlayback : C Z :=
  do! size := getVideoSessionNumber in
  if size <=? 0 then cret NO_ERROR else
  update initVideoSessions ;;
  do! cb := get mMDSCallback in
  (match cb with None => cret tt | Some cb => call_back cb (UpdateVideoState (-1) MDS_VIDEO_UNPREPARED) ;; cret tt end) ;;
  update (clear_mode MDS_VIDEO_ON) ;;
  mode_change false ;; cret NO_ERROR.

(** The first session with a configuration; the session asked for is not looked at. *)
Definition getDecoderOutputResolution (sessionId : Z) : C (Z * option decoder_config) :=
  do! vs := get mVideos in
  cret (match head (omap get_decoder vs) with Some dc => (NO_ERROR, Some dc) | None => (UNKNOWN_ERROR, None) end).

Definition setDecoderOutputResolution (sessionId : Z) (dc : decoder_config) : C Z :=
  if bad_session sessionId then cret UNKNOWN_ERROR else
  do! s := get (video sessionId) in
  match set_decoder dc s with
  | None => cret UNKNOWN_ERROR
  | Some s => update (set_video sessionId s) ;; cret NO_ERROR
  end.

(** ** Events *)

Definition to_callback (call : callback_call) : C Z :=
  do! cb := get mMDSCallback in match cb with None => cret NO_INIT | Some cb => call_back cb call end.

Definition updatePhoneCallState (blank : bool) : C Z := to_callback (BlankSecondaryDisplay blank).
Definition updateInputState (state : bool) : C Z := to_callback (UpdateInputState state).

(** ** HDMI control *)

Definition setHdmiTiming (timing : MDSHdmiTiming) : C Z :=
  do! cb := get mMDSCallback in
  match cb with
  | None => cret NO_INIT
  | Some cb =>
      do! real := in_drm (drm_hdmi_checkTiming timing) in
      match real with None => cret UNKNOWN_ERROR | Some real => call_back cb (SetHdmiTiming real) end
  end.

Definition getHdmiTimingCount (d : display) : C Z := in_drm (drm_hdmi_getTimingNumber hdr VPG_DRM d).

Definition getHdmiTimingList (count : Z) (list : bool) (d : display) : C (Z * option (Datatypes.list MDSHdmiTiming)) :=
  do! l := in_drm (drm_hdmi_getTimings hdr VPG_DRM count list d) in
  cret (match l with None => UNKNOWN_ERROR | Some _ => NO_ERROR end, l).

Definition getCurrentHdmiTiming (timing : bool) : C (Z * option MDSHdmiTiming) :=
  if negb timing then cret (UNKNOWN_ERROR, None) else
  do! t := get (fun c => drm_hdmi_get_current_timing (drm c)) in
  cret (match t with None => UNKNOWN_ERROR | Some _ => NO_ERROR end, t).

Definition setHdmiTimingByIndex (index : Z) : C Z := cret UNKNOWN_ERROR.
Definition getCurrentHdmiTimingIndex : C Z := cret (-1).

(** The callback is asked first, and SurfaceFlinger when it fails. *)
Definition callback_or_surface (call : callback_call) (mode stepx stepy : Z) : C Z :=
  do! cb := get mMDSCallback in
  do! result := match cb with None => cret UNKNOWN_ERROR | Some cb => call_back cb call end in
  if negb (result =? NO_ERROR) then setDisplayScalingLocked mode stepx stepy else cret result.

Definition setHdmiScalingType (type : Z) : C Z :=
  do! h := get mHorizontalStep in
  do! v := get mVerticalStep in
  do! result := callback_or_surface (SetHdmiScalingType type) (u32 type) h v in
  (if result =? NO_ERROR then update (set_mScaleType type) else cret tt) ;; cret result.

(** The steps are the distance to the maximum; the difference may not overflow. *)
Definition overscan_step (val : Z) : option Z :=
  let step := if overscan_max <? val then 0 else overscan_max - val in if step <? 2 ^ 31 then Some step else None.

Definition setHdmiOverscan (hVal vVal : Z) : C Z :=
  match overscan_step hVal, overscan_step vVal with
  | Some h, Some v =>
      do! type := get mScaleType in
      do! result := callback_or_surface (SetHdmiOverscan h v) (u32 type) h v in
      (if result =? NO_ERROR then update (set_steps h v) else cret tt) ;; cret result
  | _, _ => fun _ => None
  end.

Definition checkHdmiTimingIsFixed : C bool := get (fun c => drm_hdmi_timing_is_fixed (drm c)).

(** [busy]: the mutex is taken when it is tried. *)
Definition getDisplayMode (wait busy : bool) : C Z := if negb wait && busy then cret MDS_MODE_NONE else get mMode.

(** ** Video processing *)

Definition setVppState (dpyId : Z) (connected : bool) (status : Z) : C Z :=
  if status =? -1 then
    if negb (dpyId =? MDS_DISPLAY_VIRTUAL) then cret UNKNOWN_ERROR else
    update (set_mDisplayId (if connected then dpyId else MDS_DISPLAY_PRIMARY)) ;; cret NO_ERROR
  else
    update (add_mode MDS_VPP_CHANGED) ;; mode_change false ;; update (clear_mode MDS_VPP_CHANGED) ;; cret NO_ERROR.

Definition getVppState : C Z :=
  get (fun c => if negb (mDisplayId c =? MDS_DISPLAY_VIRTUAL) then isVppOn (events c) else 0).

(** ** Start *)

(** [vs] is the memory of the sessions, which are set up only when the driver is there. *)
Definition MultiDisplayComposer (fd : Z) (d : display) (vs : list session) : option composer :=
  let '(ok, g) := drm_init hdr VPG_DRM fd d zero_context in
  let c := mkComposer g ok MDS_MODE_NONE 0 0 MDS_DISPLAY_PRIMARY MDS_SCALING_NONE 0 false None [] vs [] in
  if negb ok then Some c else
  match updateHdmiConnectStatusLocked d (initVideoSessions c) with Some (_, c) => Some c | None => None end.

(** The destructor. *)
Definition delete_composer (c : composer) : composer :=
  set_mMDSCallback None (set_mSurfaceComposer false (set_mListeners [] (set_drm (drm_cleanup (drm c)) c))).

(** ** The service

    Every interface of MultiDisplayService.cpp hands its calls on to the composer. *)

Inductive request :=
  AllocateVideoSessionId | UpdateVideoStateOf (sessionId state : Z) | ResetVideoPlayback
| UpdateVideoSourceInfo (sessionId : Z) (info : MDSVideoSourceInfo)
| GetVideoSessionNumber | GetVideoState (sessionId : Z) | GetVideoSourceInfo (sessionId : Z) (info : bool)
| GetDisplayMode (wait busy : bool) | GetVppState
| RegisterListener (l : option interface) (name : option string) (msg : Z) | UnregisterListener (listenerId : Z)
| RegisterCallback (cbk : option callback) | UnregisterCallback
| SetTiming (timing : MDSHdmiTiming) | GetHdmiTimingCount | GetHdmiTimingList (count : Z) (list : bool)
| GetCurrentHdmiTiming (timing : bool) | SetHdmiTimingByIndex (index : Z) | GetCurrentHdmiTimingIndex
| SetScalingType (type : Z) | SetOverscan (hVal vVal : Z) | CheckHdmiTimingIsFixed
| UpdateHdmiConnectionStatus (connected : bool) | UpdateWidiConnectionStatus (connected : bool)
| UpdateInput (state : bool) | UpdatePhoneCallState (blank : bool)
| GetDecoderOutputResolution (sessionId : Z) | SetDecoderOutputResolution (sessionId : Z) (dc : decoder_config)
| SetVppState (dpyId : Z) (connected : bool) (status : Z).

Inductive response :=
  Status (r : Z) | Bool (b : bool) | Info (r : Z) (i : option MDSVideoSourceInfo) | Timings (r : Z) (l : option (list MDSHdmiTiming))
| Timing (r : Z) (t : option MDSHdmiTiming) | Decoder (r : Z) (dc : option decoder_config).

Definition status (m : C Z) : C response := do! r := m in cret (Status r).

(** [d] is what the driver of the display answers while the request is served. *)
Definition serve (d : display) (r : request) : C response :=
  match r with
  | AllocateVideoSessionId => status allocateVideoSessionId
  | UpdateVideoStateOf sessionId state => status (updateVideoState sessionId state)
  | ResetVideoPlayback => status resetVideoPlayback
  | UpdateVideoSourceInfo sessionId info => status (updateVideoSourceInfo sessionId info)
  | GetVideoSessionNumber => status getVideoSessionNumber
  | GetVideoState sessionId => status (getVideoState sessionId)
  | GetVideoSourceInfo sessionId info => do! (r, i) := getVideoSourceInfo sessionId info in cret (Info r i)
  | GetDisplayMode wait busy => status (getDisplayMode wait busy)
  | GetVppState => status getVppState
  | RegisterListener l name msg => status (registerListener l name msg)
  | UnregisterListener listenerId => status (unregisterListener listenerId)
  | RegisterCallback cbk => status (registerCallback cbk d)
  | UnregisterCallback => status unregisterCallback
  | SetTiming timing => status (setHdmiTiming timing)
  | GetHdmiTimingCount => status (getHdmiTimingCount d)
  | GetHdmiTimingList count list => do! (r, l) := getHdmiTimingList count list d in cret (Timings r l)
  | GetCurrentHdmiTiming timing => do! (r, t) := getCurrentHdmiTiming timing in cret (Timing r t)
  | SetHdmiTimingByIndex index => status (setHdmiTimingByIndex index)
  | GetCurrentHdmiTimingIndex => status getCurrentHdmiTimingIndex
  | SetScalingType type => status (setHdmiScalingType type)
  | SetOverscan hVal vVal => status (setHdmiOverscan hVal vVal)
  | CheckHdmiTimingIsFixed => do! b := checkHdmiTimingIsFixed in cret (Bool b)
  | UpdateHdmiConnectionStatus connected => status (updateHdmiConnectionStatus connected d)
  | UpdateWidiConnectionStatus connected => status (updateWidiConnectionStatus connected d)
  | UpdateInput state => status (updateInputState state)
  | UpdatePhoneCallState blank => status (updatePhoneCallState blank)
  | GetDecoderOutputResolution sessionId => do! (r, dc) := getDecoderOutputResolution sessionId in cret (Decoder r dc)
  | SetDecoderOutputResolution sessionId dc => status (setDecoderOutputResolution sessionId dc)
  | SetVppState dpyId connected s => status (setVppState dpyId connected s)
  end.

(** One request after the other, each with what the driver answers meanwhile. *)
Inductive step : composer -> composer -> Prop :=
| step_serve d r c a c' : serve d r c = Some (a, c') -> step c c'.

(** The states of a service whose driver was found. *)
Inductive reachable : composer -> Prop :=
| reach_start fd d vs c : 0 < fd -> MultiDisplayComposer fd d vs = Some c -> reachable c
| reach_step c c' : reachable c -> step c c' -> reachable c'.
End Composer.
