(* ===== verification/ComposerSpec.v ===== *)
(** * What the service for displays guarantees

    An invariant of all states it can reach, what video sessions and listeners are told, and the
    timings of the HDMI connector. *)

From stdpp Require Import base list numbers strings relations.
From Stdlib Require Import ZArith Lia Sorting.Sorted.
From S2P Require Import Prelude StateOp DrmHdmi Composer.
#[local] Open Scope op_scope.

(** ** Modes *)

(** Modes are few enough to look at each. *)
Lemma every_mode (P : Z -> bool) : forallb P (seqZ 0 16) = true -> forall m, 0 <= m < 16 -> P m = true.
Proof.
  intros H m Hm. rewrite forallb_forall in H. apply H, list_elem_of_In, elem_of_seqZ. lia.
Qed.

Definition mode_op_ok (bit : Z) : bool :=
  forallb (fun m => (0 <=? Z.lor m bit) && (Z.lor m bit <? 16) && (0 <=? Z.ldiff m bit) && (Z.ldiff m bit <? 16)) (seqZ 0 16).

Lemma mode_op m bit : mode_op_ok bit = true -> 0 <= m < 16 -> 0 <= Z.lor m bit < 16 /\ 0 <= Z.ldiff m bit < 16.
Proof.
  intros Hb Hm. pose proof (every_mode _ Hb m Hm) as H. cbn beta in H. bprop. lia.
Qed.

(** Bits of the mode other than that of the video. *)
Lemma video_bit_lor m bit : Z.testbit bit 3 = false -> Z.testbit (Z.lor m bit) 3 = Z.testbit m 3.
Proof. intros H. by rewrite Z.lor_spec, H, orb_false_r. Qed.

Lemma video_bit_ldiff m bit : Z.testbit bit 3 = false -> Z.testbit (Z.ldiff m bit) 3 = Z.testbit m 3.
Proof. intros H. by rewrite Z.ldiff_spec, H, andb_true_r. Qed.

(** ** Listeners *)

Section Listeners.
Context {interface : Type}.
#[local] Abbreviation listener := (@listener interface).

(** Identifiers ascend, are in use once, and are small. *)
Definition keys_ok (ls : list (Z * listener)) : Prop :=
  StronglySorted Z.lt (map fst ls) /\ Forall (fun k => 0 <= k < MDS_LISTENER_MAX_VALUE) (map fst ls).

Lemma keyed_add_ok id l ls : keys_ok ls -> 0 <= id < MDS_LISTENER_MAX_VALUE -> keys_ok (keyed_add id l ls).
Proof using Type.
  intros [Hs Hf] Hid. split; [by apply keyed_add_sorted|].
  apply Forall_forall. intros x Hx. apply keyed_add_keys in Hx as [->|Hx]; [done|]. rewrite Forall_forall in Hf. by apply Hf.
Qed.

Lemma keyed_remove_ok id ls : keys_ok ls -> keys_ok (keyed_remove id ls).
Proof using Type.
  intros [Hs Hf]. split; [by apply keyed_remove_sorted|].
  rewrite Forall_forall in Hf |- *. intros x Hx. by eapply Hf, keyed_remove_keys.
Qed.

Lemma find_unused_range fuel id (ls : list (Z * listener)) : id <= find_unused fuel id ls <= id + Z.of_nat fuel.
Proof using Type.
  revert id. induction fuel as [|fuel IH]; intros id; cbn [find_unused]; [lia|]. case_match; [|lia]. specialize (IH (id + 1)). lia.
Qed.
End Listeners.

Section Composer.
Context {interface callback : Type}.
#[local] Abbreviation composer := (@composer interface callback).
#[local] Abbreviation listener := (@listener interface).
#[local] Abbreviation event := (@event interface callback).

(** ** The invariant *)

(** Everything but the bit of the video; the service is set up. *)
Record settled (c : composer) : Prop := {
  st_init : mDrmInit c = true;
  st_videos : length (mVideos c) = Z.to_nat MDS_VIDEO_SESSION_MAX_VALUE /\ Forall (fun s => valid_state (mState s) = true) (mVideos c);
  st_mode : 0 <= mMode c < 16;
  st_keys : keys_ok (mListeners c);
  st_next : 0 <= mListenerId c <= MDS_LISTENER_MAX_VALUE;
  st_steps : 0 <= mHorizontalStep c < 2 ^ 31 /\ 0 <= mVerticalStep c < 2 ^ 31;
  st_drm : drm_ok (drm c)
}.

(** The bit of the video says whether a session is prepared. *)
Definition video_bit (c : composer) : Prop := Z.testbit (mMode c) 3 = hasVideoPlaying (mVideos c).

Definition composer_ok (c : composer) : Prop := settled c /\ video_bit c.

(** Changes of other fields. *)
Lemma settled_mode v c : 0 <= v < 16 -> settled c -> settled (set_mMode v c).
Proof using Type. intros Hv []. by split. Qed.

Lemma settled_add bit c : mode_op_ok bit = true -> settled c -> settled (add_mode bit c).
Proof using Type. intros Hb Hc. apply settled_mode; [|done]. apply mode_op; [done|apply Hc]. Qed.

Lemma settled_clear bit c : mode_op_ok bit = true -> settled c -> settled (clear_mode bit c).
Proof using Type. intros Hb Hc. apply settled_mode; [|done]. apply mode_op; [done|apply Hc]. Qed.

Lemma settled_events es c : settled c -> settled (send_events es c).
Proof using Type. intros []. by split. Qed.

Lemma settled_drm g c : drm_ok g -> settled c -> settled (set_drm g c).
Proof using Type. intros Hg []. by split. Qed.

Lemma settled_videos vs c : length vs = Z.to_nat MDS_VIDEO_SESSION_MAX_VALUE -> Forall (fun s => valid_state (mState s) = true) vs ->
  settled c -> settled (set_mVideos vs c).
Proof using Type. intros H1 H2 []. by split. Qed.

Lemma ok_add bit c : mode_op_ok bit = true -> Z.testbit bit 3 = false -> composer_ok c -> composer_ok (add_mode bit c).
Proof using Type. intros H1 H2 [Hc Hv]. split; [by apply settled_add|]. unfold video_bit, add_mode, set_mMode. cbn [mMode mVideos]. by rewrite video_bit_lor. Qed.

Lemma ok_clear bit c : mode_op_ok bit = true -> Z.testbit bit 3 = false -> composer_ok c -> composer_ok (clear_mode bit c).
Proof using Type. intros H1 H2 [Hc Hv]. split; [by apply settled_clear|]. unfold video_bit, clear_mode, set_mMode. cbn [mMode mVideos]. by rewrite video_bit_ldiff. Qed.

Lemma ok_events es c : composer_ok c -> composer_ok (send_events es c).
Proof using Type. intros [Hc Hv]. split; [by apply settled_events|done]. Qed.

Lemma ok_drm_set g c : drm_ok g -> composer_ok c -> composer_ok (set_drm g c).
Proof using Type. intros Hg [Hc Hv]. split; [by apply settled_drm|done]. Qed.

(** ** What listeners are told *)

(** Every listener to changes of the mode, other than the video driver, was sent the mode behind the
    first [n] events. *)
Definition informed (n : nat) (c : composer) : Prop := forall k l, (k, l) ∈ mListeners c ->
  checkMsg MDS_MSG_MODE_CHANGE l = true -> l_name l <> VIDEO_DRIVER ->
  OnMdsMessage (l_interface l) MDS_MSG_MODE_CHANGE (mMode c) ∈ drop n (events c).

(** The mode is [m], or the listeners know what it is. *)
Definition told (m : Z) (n : nat) (c : composer) : Prop := (n <= length (events c))%nat /\ (mMode c = m \/ informed n c).

Definition longer (n : nat) (c : composer) : Prop := (n <= length (events c))%nat.

Lemma told_more m n c c' es : mMode c' = mMode c -> mListeners c' = mListeners c -> events c' = events c ++ es ->
  told m n c -> told m n c'.
Proof using Type.
  intros E1 E2 E3 [Hn Ht]. split; [rewrite E3, length_app; lia|]. rewrite E1. destruct Ht as [Ht|Ht]; [by left|right].
  intros k l. rewrite E1, E2, E3, drop_app_le by done. intros H1 H2 H3. apply elem_of_app. left. by eapply Ht.
Qed.

Lemma told_same m n c c' : mMode c' = mMode c -> mListeners c' = mListeners c -> events c' = events c -> told m n c -> told m n c'.
Proof using Type. intros E1 E2 E3. apply (told_more _ _ _ _ []); [done|done|by rewrite app_nil_r]. Qed.

Lemma messages_informed ignore (ls : list (Z * listener)) mode k l : (k, l) ∈ ls -> checkMsg MDS_MSG_MODE_CHANGE l = true -> l_name l <> VIDEO_DRIVER ->
  OnMdsMessage (l_interface l) MDS_MSG_MODE_CHANGE mode ∈ @messages interface callback MDS_MSG_MODE_CHANGE mode ignore ls.
Proof using Type.
  intros Hin Hc Hn. unfold messages. apply list_elem_of_In, in_concat.
  exists [OnMdsMessage (l_interface l) MDS_MSG_MODE_CHANGE mode]. split; [|by left]. apply in_map_iff. exists (k, l).
  rewrite (bool_decide_eq_false_2 _ Hn), andb_false_r, Hc. split; [done|]. by apply list_elem_of_In.
Qed.

Lemma broadcast_informs m n ignore : triple (longer n) (mode_change ignore) (fun _ => told m n).
Proof using Type.
  apply triple_update. intros c Hn. split; [unfold send_events; cbn; rewrite length_app; unfold longer in Hn; lia|right].
  intros k l Hin Hc Hname. unfold send_events. cbn [events mMode]. rewrite drop_app_le by done. apply elem_of_app. right.
  by eapply messages_informed.
Qed.

Context (answer : callback -> list event -> callback_call -> Z).
Context (getService : list event -> bool) (transact : list event -> Z -> Z) (isVppOn : list event -> Z).
Context (hdr : drm_header) (VPG_DRM : bool).

(** ** The operations keep the invariant *)

Lemma keeps_broadcast msg ignore : keeps composer_ok (broadcastMessageLocked msg ignore).
Proof using Type. apply keeps_update. intros c. apply ok_events. Qed.

Lemma keeps_call_back cb call : keeps composer_ok (call_back answer cb call).
Proof using Type. intros c a c' Hc [= _ <-]. by apply ok_events. Qed.

Lemma keeps_in_drm {A} (f : drmContext -> A * drmContext) : (forall g, drm_ok g -> drm_ok (f g).2) -> keeps composer_ok (in_drm f).
Proof using Type.
  intros Hf c a c' Hc H. unfold in_drm in H. pose proof (Hf (drm c) (st_drm _ (proj1 Hc))) as Hg.
  destruct (f (drm c)) as [x g]. injection H as _ <-. by apply ok_drm_set.
Qed.

Lemma keeps_set_mMDSCallback v : keeps composer_ok (update (set_mMDSCallback v)).
Proof using Type. apply keeps_update. intros c [[] Hv]. by split. Qed.

Lemma keeps_set_mDisplayId v : keeps composer_ok (update (set_mDisplayId v)).
Proof using Type. apply keeps_update. intros c [[] Hv]. by split. Qed.

Lemma keeps_set_mScaleType v : keeps composer_ok (update (set_mScaleType v)).
Proof using Type. apply keeps_update. intros c [[] Hv]. by split. Qed.

Lemma keeps_set_steps h v : 0 <= h < 2 ^ 31 -> 0 <= v < 2 ^ 31 -> keeps composer_ok (update (set_steps h v)).
Proof using Type. intros Hh Hv0. apply keeps_update. intros c [[] Hv]. by split. Qed.

Lemma keeps_update_status d : keeps composer_ok (updateHdmiConnectStatusLocked hdr VPG_DRM d).
Proof using Type.
  unfold updateHdmiConnectStatusLocked. apply keeps_bind; [apply keeps_get|]. intros b. destruct b; [|apply keeps_ret].
  cbn [negb]. apply keeps_bind.
  { intros c a c' Hc H. destruct (drm_hdmi_getConnectionStatus _ _ _ _) as [[s g]|] eqn:E; [|done]. injection H as _ <-.
    apply ok_drm_set; [|done]. eapply connection_status_ok; [exact E|apply Hc]. }
  intros s. apply keeps_bind; [|intros _; apply keeps_ret].
  destruct (s =? DRM_HDMI_CONNECTED); [|destruct (s =? DRM_DVI_CONNECTED)].
  - apply keeps_update. intros c. by apply ok_add.
  - apply keeps_update. intros c. by apply ok_add.
  - apply keeps_bind; [|intros _]; apply keeps_update; intros c; [by apply ok_clear|]. intros Hc. apply ok_drm_set; [|done].
    apply disconnected_ok, Hc.
Qed.

Lemma keeps_scaling mode stepx stepy : keeps composer_ok (setDisplayScalingLocked getService transact mode stepx stepy).
Proof using Type.
  unfold setDisplayScalingLocked. apply keeps_bind.
  { intros c a c' [[] Hv] [= _ <-]. by split. }
  intros found. destruct found; [|apply keeps_ret]. cbn [negb]. intros c a c' Hc [= _ <-]. by apply ok_events.
Qed.

Lemma update_video_on_ok : triple settled update_video_on (fun _ => composer_ok).
Proof using Type.
  apply triple_update. intros c Hc. destruct (hasVideoPlaying (mVideos c)) eqn:E.
  - split; [by apply settled_add|]. unfold video_bit, add_mode, set_mMode. cbn [mMode mVideos]. rewrite Z.lor_spec, E. apply orb_true_r.
  - split; [by apply settled_clear|]. unfold video_bit, clear_mode, set_mMode. cbn [mMode mVideos]. rewrite Z.ldiff_spec, E. apply andb_false_r.
Qed.

Lemma keeps_update_video_on : keeps composer_ok update_video_on.
Proof using Type. eapply triple_pre; [apply update_video_on_ok|]. by intros c []. Qed.

#[local] Hint Resolve keeps_broadcast keeps_call_back keeps_set_mMDSCallback keeps_set_mDisplayId keeps_set_mScaleType keeps_update_status
  keeps_scaling keeps_update_video_on ok_events : core.

Lemma keeps_reset_scaling : keeps composer_ok (reset_scaling answer getService transact).
Proof using Type.
  unfold reset_scaling. keeps. intros c [[] Hv]. split; [|done]. by split.
Qed.

#[local] Hint Resolve keeps_reset_scaling : core.

Lemma keeps_hotplug dispId b d : keeps composer_ok (notifyHotplugLocked answer getService transact hdr VPG_DRM dispId b d).
Proof using Type.
  unfold notifyHotplugLocked, mode_change. destruct b; keeps; intros c; first [by apply ok_add|by apply ok_clear|by apply ok_events].
Qed.


(** ** Requests keep the invariant *)

Lemma playing_states vs : hasVideoPlaying vs = existsb (fun s => s =? MDS_VIDEO_PREPARED) (map mState vs).
Proof using Type. unfold hasVideoPlaying. induction vs as [|s vs IH]; [done|]. cbn. by rewrite IH. Qed.

(** A session that is replaced by one with a valid state. *)
Lemma settled_set_video i s c : bad_session i = false -> valid_state (mState s) = true -> settled c -> settled (set_video i s c).
Proof using Type.
  intros Hi Hs Hc. destruct (st_videos _ Hc) as [L F]. unfold set_video. apply settled_videos; [by rewrite length_insert|by apply Forall_insert|done].
Qed.

Lemma video_valid i c : bad_session i = false -> settled c -> mVideos c !! Z.to_nat i = Some (video i c) /\ valid_state (mState (video i c)) = true.
Proof using Type.
  intros Hi Hc. clear transact. destruct (st_videos _ Hc) as [L F]. unfold bad_session, MDS_VIDEO_SESSION_MAX_VALUE in *. bprop.
  assert (E : mVideos c !! Z.to_nat i = Some (video i c)) by (unfold video; destruct (nth_lookup_or_length (mVideos c) (Z.to_nat i) session_init) as [?|?]; [done|lia]).
  split; [done|]. rewrite Forall_lookup in F. by eapply F.
Qed.

Lemma keeps_same_state i f : (forall s, mState (f s) = mState s) -> bad_session i = false ->
  keeps composer_ok (update (fun c => set_video i (f (video i c)) c)).
Proof using Type.
  intros Hf Hi. apply keeps_update. intros c [Hc Hv]. destruct (video_valid i c Hi Hc) as [E V]. split.
  - apply settled_set_video; [done|by rewrite Hf|done].
  - unfold video_bit in *. unfold set_video, set_mVideos. cbn [mMode mVideos]. rewrite Hv, !playing_states, list_fmap_insert, Hf.
    rewrite list_insert_id; [done|]. by rewrite list_lookup_fmap, E.
Qed.

Lemma keeps_source_info i info : keeps composer_ok (updateVideoSourceInfo i info).
Proof using Type.
  unfold updateVideoSourceInfo. apply keeps_bind; [apply keeps_get|]. intros b. destruct b; [|apply keeps_ret]. cbn [negb].
  destruct (bad_session i) eqn:Hi; [apply keeps_ret|]. apply keeps_bind; [by apply (keeps_same_state i (setInfo info))|]. intros _. apply keeps_ret.
Qed.

Lemma keeps_set_decoder i dc : keeps composer_ok (setDecoderOutputResolution i dc).
Proof using Type.
  unfold setDecoderOutputResolution. destruct (bad_session i) eqn:Hi; [apply keeps_ret|]. apply keeps_get_bind. intros s.
  destruct (set_decoder dc s) as [s'|] eqn:Es; [|apply triple_ret; by intros c []].
  unfold set_decoder in Es. destruct (valid_state (mState s)); [|done]. injection Es as <-.
  eapply (triple_bind _ (fun _ => composer_ok)); [|intros ?; by apply triple_ret].
  intros c a c' [Hc Hs] H. eapply (keeps_same_state i (fun s => mkSession (mState s) (mInfo s) (Some dc))); [done|done|exact Hc|].
  unfold update in *. injection H as _ <-. by rewrite Hs.
Qed.

Lemma keeps_update_video_state i state : keeps composer_ok (updateVideoState answer i state).
Proof using Type.
  unfold updateVideoState. destruct (bad_session i) eqn:Hi; [apply keeps_ret|]. apply keeps_get_bind. intros s.
  destruct (mState s =? state); [apply triple_ret; by intros c []|].
  destruct (setState state s) as [s'|] eqn:Es; [|apply triple_ret; by intros c []].
  unfold setState in Es. destruct (valid_state state) eqn:Ev; [|done]. injection Es as <-.
  eapply (triple_bind _ (fun _ => settled)).
  { apply triple_update. intros c [[Hc _] _]. apply settled_set_video; [done| |done]. by case_match. }
  intros ?. eapply (triple_bind _ (fun _ => settled)); [by apply triple_get|]. intros mode.
  eapply triple_bind; [apply update_video_on_ok|]. intros ?. apply (keeps_bind composer_ok); [apply keeps_get|]. intros cb.
  unfold mode_change. keeps.
Qed.

Lemma keeps_reset_playback : keeps composer_ok (resetVideoPlayback answer).
Proof using Type.
  unfold resetVideoPlayback, getVideoSessionNumber, mode_change. apply keeps_bind; [apply keeps_get|]. intros n.
  destruct (n <=? 0); [apply keeps_ret|].
  set (none := fun c : composer => settled c /\ hasVideoPlaying (mVideos c) = false).
  eapply (triple_bind _ (fun _ => none)).
  { apply triple_update. intros c [Hc _]. split; [|reflexivity]. apply settled_videos; [done| |done]. by apply Forall_replicate. }
  intros ?. eapply (triple_bind _ (fun _ => none)); [by apply triple_get|]. intros cb.
  eapply (triple_bind _ (fun _ => none)).
  { destruct cb as [cb|]; [|by apply triple_ret]. eapply (triple_bind _ (fun _ => none)); [|intros ?; by apply triple_ret].
    intros c1 r1 c2 [Hc Hn] [= _ <-]. split; [by apply settled_events|exact Hn]. }
  intros ?. eapply (triple_bind _ (fun _ => composer_ok)); [|intros ?; apply (keeps_bind composer_ok); [apply keeps_broadcast|intros ?; apply keeps_ret]].
  apply triple_update. intros c [Hc Hn]. split; [by apply settled_clear|].
  unfold video_bit, clear_mode, set_mMode. cbn [mMode mVideos]. rewrite Hn, Z.ldiff_spec. apply andb_false_r.
Qed.

#[local] Opaque find_unused.

Lemma keeps_register l name msg : keeps composer_ok (registerListener l name msg).
Proof using Type.
  clear transact. unfold registerListener. destruct name as [name|]; [|apply keeps_ret]. destruct l as [l|]; [|apply keeps_ret].
  destruct (msg =? 0); [apply keeps_ret|]. intros c a c' Hc H. unfold cbind, get, update, cret in H.
  pose proof Hc as [[] Hv].
  destruct (_ || _) eqn:Em; [by injection H as _ <-|]. destruct (has_key _ _); [by injection H as _ <-|].
  apply orb_false_iff in Em as [_ Em]. apply Z.leb_gt in Em. injection H as _ <-. split; [|done].
  split; unfold set_mListenerId, set_mListeners; cbn [drm mDrmInit mMode mHorizontalStep mVerticalStep mListenerId mListeners mVideos]; try done.
  - apply keyed_add_ok; [done|lia].
  - match goal with |- context [find_unused ?n ?i ?ls] => pose proof (find_unused_range n i ls) end.
    unfold MDS_LISTENER_MAX_VALUE, MDS_VIDEO_SESSION_MAX_VALUE in *. case_match; lia.
Qed.

Lemma keeps_unregister id : keeps composer_ok (unregisterListener id).
Proof using Type.
  unfold unregisterListener. keeps. intros c [[] Hv]. split; [|done]. split; cbn; try done. by apply keyed_remove_ok.
Qed.

(** The bit that announces a change is there only while the change is announced. *)
Lemma vpp_bit m : 0 <= m < 16 -> Z.ldiff (Z.lor m MDS_VPP_CHANGED) MDS_VPP_CHANGED = m.
Proof using Type.
  intros Hm. apply Z.eqb_eq. by apply (every_mode (fun m => Z.ldiff (Z.lor m MDS_VPP_CHANGED) MDS_VPP_CHANGED =? m)).
Qed.

Lemma keeps_vpp id b s : keeps composer_ok (setVppState id b s).
Proof using Type.
  unfold setVppState. destruct (s =? -1).
  - keeps.
  - intros c a c' [Hc Hv] [= _ <-]. pose proof (vpp_bit (mMode c) (st_mode _ Hc)) as E.
    destruct Hc. split; [split|]; unfold clear_mode, add_mode, send_events, set_mMode, video_bit; cbn [drm mDrmInit mMode mHorizontalStep
      mVerticalStep mListenerId mListeners mVideos]; try done; by rewrite E.
Qed.

Lemma overscan_step_range v s : overscan_step v = Some s -> 0 <= s < 2 ^ 31.
Proof using Type. clear transact. unfold overscan_step, overscan_max. intros H. repeat case_match; simplify_eq; bprop; lia. Qed.

Lemma keeps_callback_or_surface call mode h v : keeps composer_ok (callback_or_surface answer getService transact call mode h v).
Proof using Type. unfold callback_or_surface. keeps. Qed.

#[local] Hint Resolve keeps_callback_or_surface keeps_hotplug keeps_source_info keeps_set_decoder keeps_update_video_state keeps_reset_playback
  keeps_register keeps_unregister keeps_vpp : core.

(** Every request keeps the invariant. *)
Lemma keeps_serve d r : keeps composer_ok (serve answer getService transact isVppOn hdr VPG_DRM d r).
Proof using Type.
  destruct r; cbn [serve]; unfold Composer.status, allocateVideoSessionId, getVideoSessionNumber, getVideoState, getVideoSourceInfo, getDisplayMode,
    getVppState, registerCallback, unregisterCallback, setHdmiTiming, getHdmiTimingCount, getHdmiTimingList, getCurrentHdmiTiming,
    setHdmiTimingByIndex, getCurrentHdmiTimingIndex, setHdmiScalingType, checkHdmiTimingIsFixed, updateHdmiConnectionStatus,
    updateWidiConnectionStatus, updateInputState, updatePhoneCallState, to_callback, getDecoderOutputResolution; try solve [keeps].
  - keeps. apply keeps_in_drm. intros g. apply check_timing_ok.
  - keeps. apply keeps_in_drm. intros g. apply timing_number_ok.
  - keeps. apply keeps_in_drm. intros g. apply timings_ok.
  - unfold setHdmiOverscan. apply keeps_bind; [|intros; apply keeps_ret]. destruct (overscan_step hVal) as [h|] eqn:Eh; [|by intros ? ? ? ?].
    destruct (overscan_step vVal) as [v|] eqn:Ev; [|by intros ? ? ? ?]. apply overscan_step_range in Eh, Ev. keeps. intros c [[] Hv]. split; [|done]. by split.
Qed.

Lemma start_ok fd d vs c : 0 < fd -> @MultiDisplayComposer interface callback hdr VPG_DRM fd d vs = Some c -> composer_ok c.
Proof using Type.
  clear transact. intros Hfd H. unfold MultiDisplayComposer, drm_init in H. rewrite (proj2 (Z.leb_gt fd 0)) in H by lia. cbn [negb] in H.
  match type of H with match updateHdmiConnectStatusLocked _ _ _ ?c0 with _ => _ end = _ => set (start := c0) in * end.
  destruct (updateHdmiConnectStatusLocked hdr VPG_DRM d start) as [[r c1]|] eqn:E; [|done]. injection H as <-.
  eapply keeps_update_status; [|exact E]. split; [|reflexivity]. split; try done.
  - split; [done|]. by apply Forall_replicate.
  - split; constructor.
Qed.

(** C31: In every state that the service can reach, whatever was asked of it, whatever the driver, the
    callback and SurfaceFlinger answered: the bit of the video is set exactly when a session is
    prepared, every session is in one of the four states, no bit of the mode but the four of
    connections and video stays set, identifiers of listeners are small and in use once, and the
    timing that is selected is one of the list. *)
Theorem reachable_states_ok c : reachable answer getService transact isVppOn hdr VPG_DRM c -> composer_ok c.
Proof using Type.
  induction 1 as [fd d vs c Hfd H|c c' _ IH Hs]; [by eapply start_ok|]. destruct Hs. by eapply keeps_serve.
Qed.

(** ** Changes of the mode *)

Section Told.
Context (m : Z) (n : nat).

Lemma told_call_back cb call : keeps (told m n) (call_back answer cb call).
Proof using Type. intros c a c' Hc [= _ <-]. by apply (told_more m n c _ [Called cb call]). Qed.

Lemma told_in_drm {A} (f : drmContext -> A * drmContext) : keeps (told m n) (in_drm f).
Proof using Type. intros c a c' Hc H. unfold in_drm in H. destruct (f (drm c)). injection H as _ <-. by apply (told_same m n c). Qed.

Lemma told_update f : (forall c : composer, mMode (f c) = mMode c /\ mListeners (f c) = mListeners c /\ events (f c) = events c) ->
  keeps (told m n) (update f).
Proof using Type. intros H. apply keeps_update. intros c Hc. destruct (H c) as (? & ? & ?). by apply (told_same m n c). Qed.

Lemma told_scaling mode stepx stepy : keeps (told m n) (setDisplayScalingLocked getService transact mode stepx stepy).
Proof using Type.
  unfold setDisplayScalingLocked. apply keeps_bind; [intros c a c' Hc [= _ <-]; by apply (told_same m n c)|]. intros found.
  destruct found; [|apply keeps_ret]. intros c a c' Hc [= _ <-]. by eapply (told_more m n c).
Qed.

#[local] Hint Resolve told_call_back told_in_drm told_scaling : core.
#[local] Hint Extern 1 (keeps (told _ _) (update _)) => apply told_update; done : core.

Lemma told_reset_scaling : keeps (told m n) (reset_scaling answer getService transact).
Proof using Type. unfold reset_scaling. keeps. Qed.

Lemma told_callback_or_surface call mode h v : keeps (told m n) (callback_or_surface answer getService transact call mode h v).
Proof using Type. unfold callback_or_surface. keeps. Qed.

End Told.

(** Operations that say nothing about the mode keep what is known of it. *)
#[local] Hint Resolve told_call_back told_in_drm told_scaling told_callback_or_surface : core.
#[local] Hint Extern 1 (keeps (told _ _) (update _)) => apply told_update; done : core.

(** The start of an operation: the mode is [m] and [n] events were sent. *)
Definition start (m : Z) (n : nat) (c : composer) : Prop := mMode c = m /\ longer n c.

Lemma start_told m n c : start m n c -> told m n c.
Proof using Type. intros [Hm Hn]. split; [exact Hn|by left]. Qed.

Lemma triple_get_mode {B} m n (k : Z -> composer -> option (B * composer)) Q : triple (longer n) (k m) Q -> triple (start m n) (cbind (get mMode) k) Q.
Proof using Type. intros H c a c' [Hm Hn] E. unfold cbind, get in E. rewrite Hm in E. by eapply H. Qed.

Lemma longer_update n f : (forall c : composer, events (f c) = events c) -> keeps (longer n) (update f).
Proof using Type. intros H. apply keeps_update. intros c Hc. unfold longer. by rewrite H. Qed.

Lemma longer_status n d : keeps (longer n) (updateHdmiConnectStatusLocked hdr VPG_DRM d).
Proof using Type.
  unfold updateHdmiConnectStatusLocked. apply keeps_bind; [apply keeps_get|]. intros b. destruct b; [|apply keeps_ret].
  cbn [negb]. apply keeps_bind.
  { intros c a c' Hc H. case_match; [|done]. destruct p. by injection H as _ <-. }
  intros s. apply keeps_bind; [|intros _; apply keeps_ret]. destruct (s =? DRM_HDMI_CONNECTED); [|destruct (s =? DRM_DVI_CONNECTED)].
  - by apply longer_update.
  - by apply longer_update.
  - apply keeps_bind; [|intros _]; by apply longer_update.
Qed.

Lemma hotplug_told m n id b d : triple (start m n) (notifyHotplugLocked answer getService transact hdr VPG_DRM id b d) (fun _ => told m n).
Proof using Type.
  unfold notifyHotplugLocked. apply triple_get_mode. destruct (id =? MDS_DISPLAY_VIRTUAL).
  - eapply (triple_bind _ (fun _ => longer n)); [by destruct b; apply longer_update|]. intros ?.
    eapply (triple_bind _ (fun _ => told m n)); [apply broadcast_informs|]. intros ?. by apply triple_ret.
  - eapply (triple_bind _ (fun _ => longer n)); [apply longer_update; intros c; by case_match|]. intros ?.
    eapply (triple_bind _ (fun _ => longer n)); [apply longer_status|]. intros ?.
    eapply (triple_bind _ (fun mode c => longer n c /\ mMode c = mode)); [by apply triple_get|]. intros mode.
    eapply (triple_bind _ (fun _ => told m n)).
    + destruct (Z.eqb_spec m mode) as [->|Hne]; cbn [negb].
      * apply triple_ret. intros c [Hn Hm]. split; [exact Hn|]. by left.
      * eapply triple_pre; [|by intros c [Hn _]; exact Hn]. eapply triple_bind; [apply broadcast_informs|]. intros ?. apply triple_update.
        intros c Hc. by apply (told_more m n c _ (drm_hdmi_notify_audio_hotplug VPG_DRM b)).
    + intros ?. apply (keeps_bind (told m n)); [apply told_reset_scaling|]. intros ?. apply keeps_ret.
Qed.

Lemma video_state_told m n i state : triple (start m n) (updateVideoState answer i state) (fun _ => told m n).
Proof using Type.
  clear transact. unfold updateVideoState. destruct (bad_session i); [apply triple_ret, start_told|].
  eapply (triple_bind _ (fun _ => start m n)); [by apply triple_get|]. intros s.
  destruct (mState s =? state); [apply triple_ret, start_told|]. destruct (setState state s) as [s'|]; [|apply triple_ret, start_told].
  eapply (triple_bind _ (fun _ => start m n)); [apply triple_update; intros c [? ?]; by split|]. intros ?. apply triple_get_mode.
  eapply (triple_bind _ (fun _ => longer n)); [apply longer_update; intros c; by case_match|]. intros ?.
  eapply (triple_bind _ (fun _ => longer n)); [by apply triple_get|]. intros cb.
  eapply (triple_bind _ (fun _ => longer n)).
  { destruct cb as [cb|]; [|by apply triple_ret]. intros c r c' Hc [= _ <-]. unfold longer, send_events in *. cbn. rewrite length_app. lia. }
  intros r. eapply (triple_bind _ (fun mode c => longer n c /\ mMode c = mode)); [by apply triple_get|]. intros mode.
  eapply (triple_bind _ (fun _ => told m n)); [|intros ?; by apply triple_ret].
  destruct (Z.eqb_spec m mode) as [->|Hne]; cbn [negb].
  - apply triple_ret. intros c [Hn Hm]. split; [exact Hn|]. by left.
  - eapply triple_pre; [apply broadcast_informs|]. by intros c [Hn _].
Qed.

Lemma reset_told m n : triple (start m n) (resetVideoPlayback answer) (fun _ => told m n).
Proof using Type.
  clear transact. unfold resetVideoPlayback, getVideoSessionNumber. eapply (triple_bind _ (fun _ => start m n)); [by apply triple_get|]. intros size.
  destruct (size <=? 0); [apply triple_ret, start_told|].
  eapply (triple_bind _ (fun _ => longer n)); [apply triple_update; by intros c [_ Hn]|]. intros ?.
  eapply (triple_bind _ (fun _ => longer n)); [by apply triple_get|]. intros cb.
  eapply (triple_bind _ (fun _ => longer n)).
  { destruct cb as [cb|]; [|by apply triple_ret]. eapply (triple_bind _ (fun _ => longer n)); [|intros ?; by apply triple_ret].
    intros c r c' Hc [= _ <-]. unfold longer, send_events in *. cbn. rewrite length_app. lia. }
  intros ?. eapply (triple_bind _ (fun _ => longer n)); [by apply longer_update|]. intros ?.
  eapply (triple_bind _ (fun _ => told m n)); [apply broadcast_informs|]. intros ?. by apply triple_ret.
Qed.

Lemma vpp_told m n id b s : triple (fun c => start m n c /\ composer_ok c) (setVppState id b s) (fun _ => told m n).
Proof using Type.
  unfold setVppState. destruct (s =? -1).
  - eapply (triple_pre _ (told m n)); [|intros c [Hc _]; by apply start_told]. change (keeps (told m n)
      (if negb (id =? MDS_DISPLAY_VIRTUAL) then cret UNKNOWN_ERROR else
         cbind (update (set_mDisplayId (if b then id else MDS_DISPLAY_PRIMARY))) (fun _ => cret NO_ERROR))). keeps.
  - intros c a c' [[Hm Hn] [Hc _]] [= _ <-]. pose proof (vpp_bit (mMode c) (st_mode _ Hc)) as E. split.
    + unfold clear_mode, send_events, add_mode, set_mMode. cbn [events]. rewrite length_app. clear -Hn. unfold longer in Hn. lia.
    + left. unfold clear_mode, add_mode, send_events, set_mMode. cbn [mMode]. by rewrite E.
Qed.

Lemma told_triple {A} m n (op : composer -> option (A * composer)) : keeps (told m n) op -> triple (fun c => start m n c /\ composer_ok c) op (fun _ => told m n).
Proof using Type. intros H. eapply triple_pre; [exact H|]. intros c [Hc _]. by apply start_told. Qed.

Lemma told_status {A} P m n (op : composer -> option (A * composer)) (f : A -> response) :
  triple P op (fun _ => told m n) -> triple P (cbind op (fun r => cret (f r))) (fun _ => told m n).
Proof using Type. intros H. eapply triple_bind; [exact H|]. intros a. by apply triple_ret. Qed.

Lemma start_triple {A} m n (op : composer -> option (A * composer)) : keeps (start m n) op -> triple (fun c => start m n c /\ composer_ok c) op (fun _ => told m n).
Proof using Type. intros H c a c' [Hc _] E. apply start_told. by eapply H. Qed.

Lemma start_update m n f : (forall c : composer, mMode (f c) = mMode c /\ events (f c) = events c) -> keeps (start m n) (update f).
Proof using Type. intros H. apply keeps_update. intros c [Hm Hn]. destruct (H c) as [E1 E2]. unfold start, longer. by rewrite E1, E2. Qed.

#[local] Hint Extern 1 (keeps (start _ _) (update _)) => apply start_update; done : core.

Lemma serve_told m n d r : (forall cbk, r <> RegisterCallback cbk) ->
  triple (fun c => start m n c /\ composer_ok c) (serve answer getService transact isVppOn hdr VPG_DRM d r) (fun _ => told m n).
Proof using Type.
  intros Hr. destruct r; cbn [serve]; unfold Composer.status;
    try (apply told_status); try (by destruct (Hr cbk)); try apply vpp_told;
    try (eapply triple_pre; [apply video_state_told || apply reset_told || apply hotplug_told|by intros c []]);
    try (solve [apply start_triple; unfold registerListener, unregisterListener; keeps]);
    apply told_triple; unfold allocateVideoSessionId, getVideoSessionNumber, updateVideoSourceInfo, getVideoState, getVideoSourceInfo,
    getDisplayMode, getVppState, unregisterCallback, setHdmiTiming, getHdmiTimingCount, getHdmiTimingList,
    getCurrentHdmiTiming, setHdmiTimingByIndex, getCurrentHdmiTimingIndex, setHdmiScalingType, setHdmiOverscan, checkHdmiTimingIsFixed,
    updateInputState, updatePhoneCallState, to_callback, getDecoderOutputResolution, setDecoderOutputResolution; keeps.
Qed.

(** C32: Whatever is asked of the service but a new callback: when the mode of the displays has changed,
    every listener that asked for such changes, other than the video driver, was sent the new mode. *)
Theorem mode_changes_are_announced d r c a c' : composer_ok c -> (forall cbk, r <> RegisterCallback cbk) ->
  serve answer getService transact isVppOn hdr VPG_DRM d r c = Some (a, c') -> mMode c' <> mMode c ->
  informed (length (events c)) c'.
Proof using Type.
  intros Hc Hr H Hne. destruct (serve_told (mMode c) (length (events c)) d r Hr c a c') as [_ [Hm|Hi]]; [|exact H|by destruct Hne|exact Hi].
  split; [|exact Hc]. split; [done|]. unfold longer. clear. lia.
Qed.

(** ** Listeners *)

Definition listener_of (id : Z) (c : composer) : option listener := snd <$> List.find (fun '(k, _) => k =? id) (mListeners c).

Lemma find_keyed_add id l (ls : list (Z * listener)) k : List.find (fun '(k', _) => k' =? k) (keyed_add id l ls) =
  if id =? k then Some (id, l) else List.find (fun '(k', _) => k' =? k) ls.
Proof using Type.
  induction ls as [|[k' l'] ls IH]; cbn [keyed_add List.find]; [done|].
  destruct (id <? k'); [done|]. destruct (Z.eqb_spec id k') as [<-|Hne]; cbn [List.find]; [by destruct (id =? k)|].
  rewrite IH. destruct (Z.eqb_spec k' k) as [<-|]; [|done]. by rewrite (proj2 (Z.eqb_neq id k')).
Qed.

(** An identifier that is handed out was not in use and is the listener's from then on; the other
    listeners keep theirs.  Otherwise nothing changes. *)
Theorem registered_identifier_is_fresh l name msg c r c' :
  composer_ok c -> registerListener l name msg c = Some (r, c') ->
  r = -1 /\ c' = c \/
  exists i s, l = Some i /\ name = Some s /\ 0 <= r < MDS_LISTENER_MAX_VALUE /\ listener_of r c = None /\ msg <> 0 /\
    forall k, listener_of k c' = if k =? r then Some (mkListener msg s i) else listener_of k c.
Proof using Type.
  intros Hc H. pose proof (st_next _ (proj1 Hc)) as Hnext. unfold registerListener in H. destruct name as [s|]; [|injection H as <- <-; by left].
  destruct l as [i|]; [|injection H as <- <-; by left]. destruct (Z.eqb_spec msg 0) as [|Hmsg]; [injection H as <- <-; by left|].
  unfold cbind, get, update, cret in H. destruct (_ || _) eqn:Em; [injection H as <- <-; by left|].
  destruct (has_key (mListenerId c) (mListeners c)) eqn:Ek; [injection H as <- <-; by left|].
  injection H as <- <-. right. exists i, s. apply orb_false_iff in Em as [_ Em]. apply Z.leb_gt in Em.
  split_and!; try done; [clear -Hnext; tauto| |].
  - unfold listener_of. destruct (List.find _ _) as [[k l']|] eqn:E; [|done]. apply find_some in E as [E1 E2].
    apply Z.eqb_eq in E2 as ->. assert (has_key (mListenerId c) (mListeners c) = true); [|congruence].
    apply has_key_iff, list_elem_of_fmap. exists (mListenerId c, l'). split; [done|]. by apply list_elem_of_In.
  - intros k. unfold listener_of, set_mListenerId, set_mListeners. cbn [mListeners]. rewrite find_keyed_add, (Z.eqb_sym k).
    by destruct (mListenerId c =? k).
Qed.

(** Only a registration moves the next identifier. *)
Lemma keeps_next d r : (forall l name msg, r <> RegisterListener l name msg) -> forall next,
  keeps (fun c => mListenerId c = next) (serve answer getService transact isVppOn hdr VPG_DRM d r).
Proof using Type.
  intros Hr next.
  assert (Hcall : forall cb call, keeps (fun c : composer => mListenerId c = next) (call_back answer cb call)) by (intros cb call c x c' Hc [= _ <-]; exact Hc).
  assert (Hdrm : forall A (f : drmContext -> A * drmContext), keeps (fun c : composer => mListenerId c = next) (in_drm f)).
  { intros A f c x c' Hc H. unfold in_drm in H. destruct (f (drm c)). injection H as _ <-. exact Hc. }
  assert (Hup : forall f, (forall c : composer, mListenerId (f c) = mListenerId c) -> keeps (fun c : composer => mListenerId c = next) (update f)).
  { intros f Hf. apply keeps_update. intros c <-. apply Hf. }
  assert (Hscale : forall mode x y, keeps (fun c : composer => mListenerId c = next) (setDisplayScalingLocked getService transact mode x y)).
  { intros mode x y. unfold setDisplayScalingLocked. apply keeps_bind; [by intros c z c' Hc [= _ <-]|]. intros found.
    destruct found; [|apply keeps_ret]. by intros c z c' Hc [= _ <-]. }
  assert (Hstatus : keeps (fun c : composer => mListenerId c = next) (updateHdmiConnectStatusLocked hdr VPG_DRM d)).
  { unfold updateHdmiConnectStatusLocked. apply keeps_bind; [apply keeps_get|]. intros b. destruct b; [|apply keeps_ret].
    apply keeps_bind; [intros c x c' Hc H; destruct (drm_hdmi_getConnectionStatus _ _ _ _) as [[? ?]|]; [|done]; by injection H as _ <-|]. intros s. keeps; auto. }
  destruct r; cbn [serve]; unfold Composer.status, allocateVideoSessionId, getVideoSessionNumber, updateVideoSourceInfo, getVideoState,
    getVideoSourceInfo, getDisplayMode, getVppState, unregisterListener, registerCallback, unregisterCallback, setHdmiTiming, getHdmiTimingCount,
    getHdmiTimingList, getCurrentHdmiTiming, setHdmiTimingByIndex, getCurrentHdmiTimingIndex, setHdmiScalingType, setHdmiOverscan,
    checkHdmiTimingIsFixed, updateHdmiConnectionStatus, updateWidiConnectionStatus, updateInputState, updatePhoneCallState, to_callback,
    getDecoderOutputResolution, setDecoderOutputResolution, setVppState, updateVideoState, resetVideoPlayback, notifyHotplugLocked, reset_scaling,
    callback_or_surface, mode_change, update_video_on, broadcastMessageLocked; try (by destruct (Hr l name msg)).
  all: keeps; first [apply keeps_get|intros c Hc; repeat case_match; exact Hc].
Qed.

Lemma registration_refused l name msg (c : composer) : mListenerId c = MDS_LISTENER_MAX_VALUE -> registerListener l name msg c = Some (-1, c).
Proof using Type.
  intros Hc. unfold registerListener, cbind, get, cret. destruct name; [|done]. destruct l; [|done]. destruct (msg =? 0); [done|].
  by rewrite Hc, Z.leb_refl, orb_true_r.
Qed.

(** When all identifiers were in use at once, the service never takes a listener again, whoever leaves. *)
Theorem registration_never_recovers c c' l name msg : mListenerId c = MDS_LISTENER_MAX_VALUE ->
  rtc (step answer getService transact isVppOn hdr VPG_DRM) c c' -> registerListener l name msg c' = Some (-1, c').
Proof using Type.
  intros Hc Hs. apply registration_refused. induction Hs as [|c1 c2 c3 Hs _ IH]; [done|]. apply IH. clear IH. destruct Hs as [d r c1 a c2 H].
  assert (Hr : (exists l name msg, r = RegisterListener l name msg) \/ forall l name msg, r <> RegisterListener l name msg).
  { destruct r; try (by right). left. by eexists _, _, _. }
  destruct Hr as [(l1 & name1 & msg1 & ->)|Hr]; [|by eapply keeps_next].
  cbn [serve] in H. unfold Composer.status, cbind in H. rewrite (registration_refused l1 name1 msg1 c1 Hc) in H. by injection H as _ <-.
Qed.

(** ** Timings *)

(** A timing that was set with success is handed to the callback with its flags, and from then on it
    is the current one and counts as fixed. *)
Theorem hdmi_timing_read_back t c r c' :
  setHdmiTiming answer t c = Some (r, c') -> r <> NO_INIT -> r <> UNKNOWN_ERROR ->
  exists cb t', mMDSCallback c = Some cb /\ matches t t' = true /\ t' ∈ hdmiTimings (drm c) /\
    events c' = events c ++ [Called cb (SetHdmiTiming t')] /\ r = answer cb (events c) (SetHdmiTiming t') /\
    getCurrentHdmiTiming true c' = Some ((NO_ERROR, Some t'), c') /\ checkHdmiTimingIsFixed c' = Some (true, c').
Proof using Type.
  intros H Hr1 Hr2. unfold setHdmiTiming, cbind, get in H. destruct (mMDSCallback c) as [cb|] eqn:Ecb; [|by injection H as <- <-].
  unfold in_drm in H. pose proof (check_timing_selects t (drm c)) as Hs. destruct (drm_hdmi_checkTiming t (drm c)) as [[t'|] g]; [|by injection H as <- <-].
  destruct Hs as (H1 & H2 & H3 & H4 & H5). injection H as <- <-. exists cb, t'. rewrite H5 in H2. split_and!; try done.
  - unfold getCurrentHdmiTiming, cbind, get, cret. cbn [negb]. unfold send_events, set_drm. cbn [drm]. by rewrite H1.
  - unfold checkHdmiTimingIsFixed, get, send_events, set_drm. cbn [drm]. by rewrite H4.
Qed.
End Composer.

(** ** A display that is plugged in *)

Definition a_drm_header : drm_header := mkDrmHeader 3 11 12 1 8 16 256 512 2 1.

(** 720p twice, which differ in nothing the timings keep, and 1080p. *)
Definition some_modes : list drmModeModeInfo :=
  [mkMode 1280 720 60 256 0 0; mkMode 1280 720 60 256 64 0; mkMode 1920 1080 60 256 0 0].

(** The block of the vendor at the start of the second half. *)
Definition hdmi_edid : bytes := repeat 0 126 ++ [1; 0] ++ [0x03; 0x0c; 0x00] ++ repeat 0 125.

Definition plugged : display := mkDisplay (Some [7]) (fun _ => Some (mkConnector 3 1 some_modes [(5, 9)])) (fun _ => Some (Some EDID)) (fun _ => Some hdmi_edid).
Definition unplugged : display := mkDisplay (Some []) (fun _ => None) (fun _ => None) (fun _ => None).

#[local] Abbreviation ask := (@serve nat nat (fun _ _ _ => 0) (fun _ => true) (fun _ _ => 0) (fun _ => 0) a_drm_header false).

(** The state after some requests. *)
Fixpoint after (d : display) (rs : list (@request nat nat)) (c : option (@composer nat nat)) : option composer :=
  match rs with [] => c | r :: rs => after d rs (c ← c; snd <$> ask d r c) end.

Definition switched_on : option composer := @MultiDisplayComposer nat nat a_drm_header false 3 plugged [].

Lemma after_ok d rs c c' : composer_ok c -> after d rs (Some c) = Some c' -> composer_ok c'.
Proof.
  revert c. induction rs as [|r rs IH]; intros c Hc H; [by injection H as <-|]. cbn [after mbind option_bind] in H.
  destruct (ask d r c) as [[a c1]|] eqn:E; cbn [fmap option_fmap option_map snd] in H.
  - eapply IH; [|exact H]. by eapply keeps_serve.
  - clear -H. exfalso. by induction rs.
Qed.

(** Two listeners, one of which is the video driver, and a callback. *)
Definition two_listeners : list (@request nat nat) :=
  [RegisterListener (Some 1%nat) (Some "player"%string) 2; RegisterListener (Some 2%nat) (Some "VideoDriver"%string) 2; RegisterCallback (Some 0%nat)].

Definition connected_composer : composer :=
  default (mkComposer zero_context false 0 0 0 0 0 0 false None [] [] []) (after plugged (two_listeners ++ [GetHdmiTimingCount]) switched_on).

Lemma connected_ok : composer_ok connected_composer.
Proof.
  destruct switched_on as [c|] eqn:E; [|vm_compute in E; discriminate E].
  assert (Hc : composer_ok c) by (eapply start_ok; [|exact E]; lia).
  apply (after_ok plugged (two_listeners ++ [GetHdmiTimingCount]) c); [exact Hc|]. rewrite <-E. vm_compute. reflexivity.
Qed.

Lemma reachable_states_ok_witness :
  exists c, switched_on = Some c /\ mMode c = MDS_HDMI_CONNECTED /\ composer_ok c.
Proof.
  destruct switched_on as [c|] eqn:E; [|vm_compute in E; discriminate E]. exists c. split; [done|].
  split; [vm_compute in E; injection E as <-; reflexivity|].
  apply (reachable_states_ok (fun _ _ _ => 0) (fun _ => true) (fun _ _ => 0) (fun _ => 0) a_drm_header false).
  eapply reach_start; [|exact E]. lia.
Defined.

(** A video that starts is announced. *)
Lemma mode_changes_are_announced_witness :
  exists a c', ask plugged (UpdateVideoStateOf 3 MDS_VIDEO_PREPARED) connected_composer = Some (a, c') /\ mMode c' = 10 /\
    informed (length (events connected_composer)) c'.
Proof.
  destruct (ask plugged (UpdateVideoStateOf 3 MDS_VIDEO_PREPARED) connected_composer) as [[a c']|] eqn:E; [|vm_compute in E; discriminate E].
  exists a, c'. split; [done|]. assert (Hm : mMode c' = 10) by (vm_compute in E; injection E as _ <-; reflexivity).
  split; [exact Hm|].
  apply (mode_changes_are_announced (fun _ _ _ => 0) (fun _ => true) (fun _ _ => 0) (fun _ => 0) a_drm_header false plugged
    (UpdateVideoStateOf 3 MDS_VIDEO_PREPARED) connected_composer a c' connected_ok); [discriminate|exact E|].
  rewrite Hm. vm_compute. discriminate.
Defined.

Lemma registered_identifier_is_fresh_witness :
  exists c', registerListener (Some 5%nat) (Some "third"%string) 2 connected_composer = Some (2, c') /\
    listener_of 2 connected_composer = None /\ listener_of 2 c' = Some (mkListener 2 "third" 5%nat).
Proof.
  destruct (registerListener (Some 5%nat) (Some "third"%string) 2 connected_composer) as [[r c']|] eqn:E; [|vm_compute in E; discriminate E].
  assert (Hr : r = 2) by (vm_compute in E; injection E as <- _; reflexivity). subst r. exists c'. split; [done|].
  destruct (registered_identifier_is_fresh (Some 5%nat) (Some "third"%string) 2 connected_composer 2 c' connected_ok E) as [[H _]|H]; [done|].
  destruct H as (i & s & [= <-] & [= <-] & _ & H1 & _ & H2). split; [exact H1|]. by rewrite H2.
Defined.

Definition wanted_timing : MDSHdmiTiming := mkTiming 1920 1080 60 0 2 0.

Lemma hdmi_timing_read_back_witness :
  exists c' t', setHdmiTiming (fun _ _ _ => 0) wanted_timing connected_composer = Some (0, c') /\
    getCurrentHdmiTiming true c' = Some ((NO_ERROR, Some t'), c') /\ width t' = 1920.
Proof.
  destruct (setHdmiTiming (fun _ _ _ => 0) wanted_timing connected_composer) as [[r c']|] eqn:E; [|vm_compute in E; discriminate E].
  assert (Hr : r = 0) by (vm_compute in E; injection E as <- _; reflexivity). subst r.
  destruct (hdmi_timing_read_back (fun _ _ _ => 0) wanted_timing connected_composer 0 c' E) as (cb & t' & _ & Hm & _ & _ & _ & Hg & _); [done|done|].
  exists c', t'. split; [done|]. split; [exact Hg|]. unfold matches in Hm. bprop. cbn in *. lia.
Defined.

Lemma preferred_mode_rule_witness :
  some_modes <> [] /\ exists m, 0 <= preferred_mode a_drm_header false some_modes /\
    some_modes !! Z.to_nat (preferred_mode a_drm_header false some_modes) = Some m.
Proof.
  split; [discriminate|]. destruct (preferred_mode_rule a_drm_header false some_modes ltac:(discriminate)) as (m & H1 & H2 & _).
  exists m. by split.
Defined.

(** The index of the preferred mode counts the modes, and the timings are fewer when two modes are the
    same timing: the current timing of a display with 1080p as its third mode is none of its timings. *)
Example preferred_index_of_modes :
  preferredModeIndex (drm connected_composer) = 2 /\ length (hdmiTimings (drm connected_composer)) = 2%nat /\
  fst <$> getCurrentHdmiTiming true connected_composer = Some (UNKNOWN_ERROR, None).
Proof. vm_compute. split_and!; reflexivity. Qed.

(** A session that is allocated and not used yet is handed out again. *)
Example allocated_twice : fst <$> (ask plugged AllocateVideoSessionId connected_composer) = Some (Status 0) /\
  (r ← ask plugged AllocateVideoSessionId connected_composer; fst <$> ask plugged AllocateVideoSessionId r.2) = Some (Status 0).
Proof. vm_compute. by split. Qed.

(** The mode that a new callback finds is not announced. *)
Example silent_callback : exists c c', switched_on = Some c /\
  after unplugged [RegisterListener (Some 1%nat) (Some "player"%string) 2; RegisterCallback (Some 0%nat)] (Some c) = Some c' /\
  mMode c = 2 /\ mMode c' = 0 /\ events c' = [].
Proof. vm_compute. eexists _, _. split_and!; reflexivity. Qed.

(** Sixty-four listeners at once. *)
Example all_identifiers : mListenerId <$> after plugged (repeat (RegisterListener (Some 1%nat) (Some "player"%string) 2) 64) switched_on = Some 64.
Proof. vm_compute. reflexivity. Qed.
