(* ===== verification/Binder.v ===== *)
(** * The interfaces of the display service (libmultidisplay/native/IMultiDisplay*.cpp, MultiDisplayService.cpp)

    A client calls a proxy, which writes its arguments to a parcel; the process of the service reads
    them, calls the composer and writes the answer to another parcel, which the proxy reads.  Parcels
    belong to binder: a class states what is relied on, and lists of items are an instance.  Binder
    itself either hands a transaction on or answers an error.  The composer is whatever serves
    requests, so that the theorems hold for any of them. *)

From stdpp Require Import base list numbers strings tactics.
From Stdlib Require Import ZArith Lia.
From S2P Require Import Prelude StateOp DrmHdmi Composer ComposerSpec.
#[local] Open Scope op_scope.

Definition PERMISSION_DENIED : Z := -1.
Definition NO_MEMORY : Z := -12.

(** The objects of the service. *)
Inductive iface :=
  HdmiControl | VideoControl | EventMonitor | CallbackRegistrar | SinkRegistrar | InfoProvider | ConnectionObserver | DecoderConfig | VppConfig.

#[global] Instance iface_eq_dec : EqDecision iface.
Proof. solve_decision. Defined.

#[local] Open Scope string_scope.
Definition descriptor (i : iface) : string :=
  match i with
  | HdmiControl => "com.intel.MultiDisplayHdmiControl"
  | VideoControl => "com.intel.MultiDisplayVideoControl"
  | EventMonitor => "com.intel.MultiDisplayEventMonitor"
  | CallbackRegistrar => "com.intel.MultiDisplayCallbackRegistrar"
  | SinkRegistrar => "com.intel.MultiDisplaySinkRegistrar"
  | InfoProvider => "com.intel.MultiDisplayInfoProvider"
  | ConnectionObserver => "com.intel.MultiDisplayConnectionObserver"
  | DecoderConfig => "com.intel.MultiDisplayDecoderConfig"
  | VppConfig => "com.intel.MultiDisplayVppConfig"
  end.
Definition callback_descriptor : string := "com.intel.MultiDisplayCallback".
Definition listener_descriptor : string := "com.intel.MultiDisplayListener".
Definition service_descriptor : string := "com.intel.MDService".
#[local] Close Scope string_scope.

Section Items.
Context {interface callback : Type}.

(** A remote object, and the memory of a structure; [None] is memory that was not set. *)
Inductive binder := ListenerBinder (l : interface) | CallbackBinder (cbk : callback) | ServiceBinder (i : iface).
Inductive object := VideoObject (i : option MDSVideoSourceInfo) | TimingObject (t : option MDSHdmiTiming).

(** What a parcel holds. *)
Inductive item := Token (name : string) | Int (v : Z) | Binder (b : binder) | CString (s : string) | Object (o : object) | Raw (b : bytes).
End Items.
Arguments binder : clear implicits.
Arguments item : clear implicits.

Definition is_int (v : Z) : Prop := - 2 ^ 31 <= v < 2 ^ 31.

Lemma is_int_b2z b : is_int (Z.b2z b).
Proof. destruct b; cbn; unfold is_int; lia. Qed.

Lemma is_int_zero : is_int 0.
Proof. unfold is_int; lia. Qed.

Lemma b2z_1 b : (Z.b2z b =? 1) = b.
Proof. by destruct b. Qed.

Lemma b2z_0 b : negb (Z.b2z b =? 0) = b.
Proof. by destruct b. Qed.

Lemma is_int_s32 v : is_int (s32 v).
Proof. unfold is_int, s32, to_signed. pose proof (Z.mod_pos_bound v (2 ^ 32) ltac:(lia)). cbv zeta. case_match; lia. Qed.

Lemma u32_s32 v : 0 <= v < 2 ^ 32 -> u32 (s32 v) = v.
Proof.
  intros Hv. unfold s32, to_signed, u32. cbv zeta. rewrite (Z.mod_small v) by done. case_match; [by apply Z.mod_small|].
  replace (v - 2 ^ 32) with (v + (-1) * 2 ^ 32) by lia. rewrite Z_mod_plus_full. by apply Z.mod_small.
Qed.

(** Items are read in the order in which they were written, and a number that is not there is 0. *)
Class Parcel (interface callback parcel : Type) := {
  new_parcel : parcel;
  contents : parcel -> list (item interface callback);
  writeInterfaceToken : string -> parcel -> parcel;
  checkInterface : string -> parcel -> bool * parcel;
  writeInt32 : Z -> parcel -> parcel;
  readInt32 : parcel -> Z * parcel;
  writeStrongBinder : binder interface callback -> parcel -> parcel;
  readStrongBinder : parcel -> option (binder interface callback) * parcel;
  writeCString : string -> parcel -> parcel;
  readCString : parcel -> option string * parcel;
  writeObject : object -> parcel -> parcel;
  readObject : parcel -> option object * parcel;
  writeRaw : bytes -> parcel -> parcel;
  readRaw : Z -> parcel -> bytes * parcel;

  new_contents : contents new_parcel = [];
  token_written name p : contents (writeInterfaceToken name p) = contents p ++ [Token name];
  token_read name p l : contents p = Token name :: l -> exists p', checkInterface name p = (true, p') /\ contents p' = l;
  token_refused name p : (forall l, contents p <> Token name :: l) -> exists p', checkInterface name p = (false, p');
  int_written v p : is_int v -> contents (writeInt32 v p) = contents p ++ [Int v];
  int_read v p l : contents p = Int v :: l -> exists p', readInt32 p = (v, p') /\ contents p' = l;
  int_missing p : contents p = [] -> exists p', readInt32 p = (0, p') /\ contents p' = [];
  binder_written b p : contents (writeStrongBinder b p) = contents p ++ [Binder b];
  binder_read b p l : contents p = Binder b :: l -> exists p', readStrongBinder p = (Some b, p') /\ contents p' = l;
  cstring_written s p : contents (writeCString s p) = contents p ++ [CString s];
  cstring_read s p l : contents p = CString s :: l -> exists p', readCString p = (Some s, p') /\ contents p' = l;
  object_written o p : contents (writeObject o p) = contents p ++ [Object o];
  object_read o p l : contents p = Object o :: l -> exists p', readObject p = (Some o, p') /\ contents p' = l;
  raw_written b p : contents (writeRaw b p) = contents p ++ [Raw b];
  raw_read b p l : contents p = Raw b :: l -> exists p', readRaw (Z.of_nat (length b)) p = (b, p') /\ contents p' = l
}.

(** ** The service *)

Section Service.
Context {interface callback parcel : Type} `{Parcel interface callback parcel}.
#[local] Abbreviation request := (@request interface callback).

(** What serves a request, the composer behind the objects of MultiDisplayService.cpp. *)
Context {S : Type} (run : request -> op S response).

(** Constants of binder, and what it does with codes that are not known. *)
Context (FIRST_CALL_TRANSACTION : Z) (BBinder_onTransact : Z -> parcel -> Z * parcel).

(** Whether memory is found for the list of timings, and the mutex is taken when its state is asked for. *)
Context (heap_ok busy : bool).

#[local] Abbreviation handler := (op S (Z * parcel)).

(** [CHECK_INTERFACE]: the name is that of the object itself. *)
Definition CHECK_INTERFACE (name : string) (data : parcel) (k : parcel -> handler) : handler :=
  let '(ok, data) := checkInterface name data in if ok then k data else cret (PERMISSION_DENIED, new_parcel).

(** A call of the composer that answers a number. *)
Definition number (r : request) : op S Z := do! a := run r in match a with Status v => cret v | _ => fun _ => None end.

Definition reply_number (m : op S Z) : handler := do! v := m in cret (NO_ERROR, writeInt32 v new_parcel).

Definition other_code (code : Z) (data : parcel) : handler := cret (BBinder_onTransact code data).

Definition BnMultiDisplayVideoControl (code : Z) (data : parcel) : handler :=
  let CHECK := CHECK_INTERFACE (descriptor VideoControl) data in
  match code - FIRST_CALL_TRANSACTION with
  | 0 => CHECK (fun data => reply_number (number AllocateVideoSessionId))
  | 1 => CHECK (fun data => reply_number (number ResetVideoPlayback))
  | 2 => CHECK (fun data =>
      let '(sessionId, data) := readInt32 data in
      let '(state, data) := readInt32 data in
      reply_number (number (UpdateVideoStateOf sessionId state)))
  | 3 => CHECK (fun data =>
      let '(sessionId, data) := readInt32 data in
      let '(o, data) := readObject data in
      match o with
      | Some (VideoObject (Some info)) => reply_number (number (UpdateVideoSourceInfo sessionId info))
      | _ => fun _ => None
      end)
  | _ => other_code code data
  end.

Definition BnMultiDisplayInfoProvider (code : Z) (data : parcel) : handler :=
  let CHECK := CHECK_INTERFACE (descriptor InfoProvider) data in
  match code - FIRST_CALL_TRANSACTION with
  | 0 => CHECK (fun data => let '(sessionId, data) := readInt32 data in reply_number (number (GetVideoState sessionId)))
  | 1 => CHECK (fun data => reply_number (number GetVideoSessionNumber))
  | 2 => CHECK (fun data =>
      let '(sessionId, data) := readInt32 data in
      do! a := run (GetVideoSourceInfo sessionId true) in
      match a with
      | Info ret info => cret (NO_ERROR, writeInt32 ret (writeObject (VideoObject info) new_parcel))
      | _ => fun _ => None
      end)
  | 3 => CHECK (fun data => let '(wait, data) := readInt32 data in reply_number (number (GetDisplayMode (negb (wait =? 0)) busy)))
  | 4 => CHECK (fun data =>
      let '(sessionId, data) := readInt32 data in
      do! a := run (GetDecoderOutputResolution sessionId) in
      match a with
      | Decoder ret dc =>
          let dc := match dc with Some dc => dc | None => mkDecoder 0 0 0 0 0 0 end in
          let reply := writeInt32 (dc_height dc) (writeInt32 (dc_width dc) new_parcel) in
          let reply := writeInt32 (dc_offY dc) (writeInt32 (dc_offX dc) reply) in
          let reply := writeInt32 (dc_bufH dc) (writeInt32 (dc_bufW dc) reply) in
          cret (NO_ERROR, writeInt32 ret reply)
      | _ => fun _ => None
      end)
  | 5 => CHECK (fun data => reply_number (do! ret := number GetVppState in cret (s32 ret)))
  | _ => other_code code data
  end.

(** The list has room for [count] timings, which are zero at first; the composer stores the first ones. *)
Definition no_timing : MDSHdmiTiming := mkTiming 0 0 0 0 0 0.
Definition stored_timings (count : Z) (l : option (list MDSHdmiTiming)) : list MDSHdmiTiming :=
  let l := match l with Some l => l | None => [] end in l ++ replicate (Z.to_nat count - length l) no_timing.
Definition write_timings (l : list MDSHdmiTiming) (reply : parcel) : parcel :=
  foldl (fun reply t => writeObject (TimingObject (Some t)) reply) reply l.

(** Without memory nothing is written to the reply. *)
Definition BnMultiDisplayHdmiControl (code : Z) (data : parcel) : handler :=
  let CHECK := CHECK_INTERFACE (descriptor HdmiControl) data in
  match code - FIRST_CALL_TRANSACTION with
  | 0 => CHECK (fun data =>
      let '(o, data) := readObject data in
      match o with
      | Some (TimingObject (Some timing)) => reply_number (number (SetTiming timing))
      | _ => fun _ => None
      end)
  | 1 => CHECK (fun data => reply_number (number GetHdmiTimingCount))
  | 2 => CHECK (fun data =>
      let '(count, data) := readInt32 data in
      if count <=? 0 then (fun _ => None) else
      if negb heap_ok then cret (NO_ERROR, new_parcel) else
      do! a := run (GetHdmiTimingList count true) in
      match a with
      | Timings ret l => cret (NO_ERROR, writeInt32 ret (write_timings (stored_timings count l) new_parcel))
      | _ => fun _ => None
      end)
  | 3 => CHECK (fun data => let '(index, data) := readInt32 data in reply_number (number (SetHdmiTimingByIndex index)))
  | 4 => CHECK (fun data =>
      do! a := run (GetCurrentHdmiTiming true) in
      match a with
      | Timing ret t => cret (NO_ERROR, writeInt32 ret (writeObject (TimingObject t) new_parcel))
      | _ => fun _ => None
      end)
  | 5 => CHECK (fun data => reply_number (number GetCurrentHdmiTimingIndex))
  | 6 => CHECK (fun data => let '(type, data) := readInt32 data in reply_number (number (SetScalingType type)))
  | 7 => CHECK (fun data =>
      let '(hValue, data) := readInt32 data in
      let '(vValue, data) := readInt32 data in
      reply_number (number (SetOverscan hValue vValue)))
  | 8 => CHECK (fun data =>
      do! a := run CheckHdmiTimingIsFixed in
      match a with Bool ret => cret (NO_ERROR, writeInt32 (Z.b2z ret) new_parcel) | _ => fun _ => None end)
  | _ => other_code code data
  end.

Definition BnMultiDisplayEventMonitor (code : Z) (data : parcel) : handler :=
  let CHECK := CHECK_INTERFACE (descriptor EventMonitor) data in
  match code - FIRST_CALL_TRANSACTION with
  | 0 => CHECK (fun data => let '(state, data) := readInt32 data in reply_number (number (UpdatePhoneCallState (state =? 1))))
  | 1 => CHECK (fun data => let '(state, data) := readInt32 data in reply_number (number (UpdateInput (state =? 1))))
  | _ => other_code code data
  end.

(** [interface_cast]; an object of another kind is a programming error of the client. *)
Definition callback_cast (b : option (binder interface callback)) : option callback :=
  match b with Some (CallbackBinder cbk) => Some cbk | _ => None end.
Definition listener_cast (b : option (binder interface callback)) : option interface :=
  match b with Some (ListenerBinder l) => Some l | _ => None end.

Definition BnMultiDisplayCallbackRegistrar (code : Z) (data : parcel) : handler :=
  let CHECK := CHECK_INTERFACE (descriptor CallbackRegistrar) data in
  match code - FIRST_CALL_TRANSACTION with
  | 0 => CHECK (fun data => let '(cbk, data) := readStrongBinder data in reply_number (number (RegisterCallback (callback_cast cbk))))
  | 1 => CHECK (fun data => let '(cbk, data) := readStrongBinder data in reply_number (number UnregisterCallback))
  | _ => other_code code data
  end.

Definition BnMultiDisplaySinkRegistrar (code : Z) (data : parcel) : handler :=
  let CHECK := CHECK_INTERFACE (descriptor SinkRegistrar) data in
  match code - FIRST_CALL_TRANSACTION with
  | 0 => CHECK (fun data =>
      let '(listener, data) := readStrongBinder data in
      let '(client, data) := readCString data in
      let '(msg, data) := readInt32 data in
      reply_number (number (RegisterListener (listener_cast listener) client msg)))
  | 1 => CHECK (fun data => let '(listenerId, data) := readInt32 data in reply_number (number (UnregisterListener listenerId)))
  | _ => other_code code data
  end.

Definition BnMultiDisplayConnectionObserver (code : Z) (data : parcel) : handler :=
  let CHECK := CHECK_INTERFACE (descriptor ConnectionObserver) data in
  match code - FIRST_CALL_TRANSACTION with
  | 0 => CHECK (fun data => let '(state, data) := readInt32 data in reply_number (number (UpdateHdmiConnectionStatus (state =? 1))))
  | 1 => CHECK (fun data => let '(state, data) := readInt32 data in reply_number (number (UpdateWidiConnectionStatus (state =? 1))))
  | _ => other_code code data
  end.

Definition BnMultiDisplayDecoderConfig (code : Z) (data : parcel) : handler :=
  match code - FIRST_CALL_TRANSACTION with
  | 0 => CHECK_INTERFACE (descriptor DecoderConfig) data (fun data =>
      let '(sessionId, data) := readInt32 data in
      let '(width, data) := readInt32 data in
      let '(height, data) := readInt32 data in
      let '(offX, data) := readInt32 data in
      let '(offY, data) := readInt32 data in
      let '(bufW, data) := readInt32 data in
      let '(bufH, data) := readInt32 data in
      reply_number (number (SetDecoderOutputResolution sessionId (mkDecoder width height offX offY bufW bufH))))
  | _ => other_code code data
  end.

Definition BnMultiDisplayVppConfig (code : Z) (data : parcel) : handler :=
  match code - FIRST_CALL_TRANSACTION with
  | 0 => CHECK_INTERFACE (descriptor VppConfig) data (fun data =>
      let '(dpyId, data) := readInt32 data in
      let '(isOn, data) := readInt32 data in
      let '(status, data) := readInt32 data in
      reply_number (number (SetVppState dpyId (isOn =? 1) status)))
  | _ => other_code code data
  end.

Definition onTransact (i : iface) : Z -> parcel -> handler :=
  match i with
  | HdmiControl => BnMultiDisplayHdmiControl
  | VideoControl => BnMultiDisplayVideoControl
  | EventMonitor => BnMultiDisplayEventMonitor
  | CallbackRegistrar => BnMultiDisplayCallbackRegistrar
  | SinkRegistrar => BnMultiDisplaySinkRegistrar
  | InfoProvider => BnMultiDisplayInfoProvider
  | ConnectionObserver => BnMultiDisplayConnectionObserver
  | DecoderConfig => BnMultiDisplayDecoderConfig
  | VppConfig => BnMultiDisplayVppConfig
  end.

(** ** The object of the service itself *)

Definition service_code (i : iface) : Z :=
  match i with
  | HdmiControl => 0 | VideoControl => 1 | EventMonitor => 2 | CallbackRegistrar => 3 | SinkRegistrar => 4 | InfoProvider => 5
  | ConnectionObserver => 6 | DecoderConfig => 7 | VppConfig => 8
  end.

Definition BnMDService (code : Z) (data : parcel) : handler :=
  let give i := CHECK_INTERFACE service_descriptor data (fun _ => cret (NO_ERROR, writeStrongBinder (ServiceBinder i) new_parcel)) in
  match code - FIRST_CALL_TRANSACTION with
  | 0 => give HdmiControl
  | 1 => give VideoControl
  | 2 => give EventMonitor
  | 3 => give CallbackRegistrar
  | 4 => give SinkRegistrar
  | 5 => give InfoProvider
  | 6 => give ConnectionObserver
  | 7 => give DecoderConfig
  | 8 => give VppConfig
  | _ => other_code code data
  end.

(** ** The client *)

(** What binder answers: 0 when the transaction is handed on. *)
Context (delivered : Z).

Definition transact (i : iface) (code : Z) (data : parcel) : handler :=
  if negb (delivered =? NO_ERROR) then cret (delivered, new_parcel) else onTransact i (FIRST_CALL_TRANSACTION + code) data.

Definition new_data (i : iface) : parcel := writeInterfaceToken (descriptor i) new_parcel.

(** A call that answers a number, or [failed] when the transaction fails. *)
Definition call (i : iface) (code : Z) (data : parcel) (failed : Z -> response) (k : parcel -> response) : op S response :=
  do! (result, reply) := transact i code data in
  cret (if negb (result =? NO_ERROR) then failed result else k reply).

Definition answered (reply : parcel) : response := let '(v, _) := readInt32 reply in Status v.

(** The object of the callback that is taken away is whatever the client has. *)
Context (its_callback : callback).

Definition BpMultiDisplayVideoControl (r : request) : op S response :=
  let data := new_data VideoControl in
  match r with
  | ResetVideoPlayback => call VideoControl 1 data Status answered
  | AllocateVideoSessionId => call VideoControl 0 data (fun _ => Status (-1)) answered
  | UpdateVideoStateOf sessionId state => call VideoControl 2 (writeInt32 state (writeInt32 sessionId data)) Status answered
  | UpdateVideoSourceInfo sessionId info =>
      call VideoControl 3 (writeObject (VideoObject (Some info)) (writeInt32 sessionId data)) Status answered
  | _ => fun _ => None
  end.

Definition BpMultiDisplayInfoProvider (r : request) : op S response :=
  let data := new_data InfoProvider in
  match r with
  | GetVideoSessionNumber => call InfoProvider 1 data (fun _ => Status 0) answered
  | GetVideoState sessionId => call InfoProvider 0 (writeInt32 sessionId data) (fun _ => Status MDS_VIDEO_STATE_UNKNOWN) answered
  | GetVideoSourceInfo sessionId info =>
      if negb info then cret (Info BAD_VALUE None) else
      call InfoProvider 2 (writeInt32 sessionId data) (fun result => Info result None) (fun reply =>
        let '(o, reply) := readObject reply in
        let '(result, reply) := readInt32 reply in
        Info result (match o with Some (VideoObject info) => info | _ => None end))
  | GetDisplayMode wait _ => call InfoProvider 3 (writeInt32 (Z.b2z wait) data) (fun _ => Status MDS_MODE_NONE) answered
  | GetDecoderOutputResolution sessionId =>
      call InfoProvider 4 (writeInt32 sessionId data) (fun result => Decoder result None) (fun reply =>
        let '(width, reply) := readInt32 reply in
        let '(height, reply) := readInt32 reply in
        let '(offX, reply) := readInt32 reply in
        let '(offY, reply) := readInt32 reply in
        let '(bufW, reply) := readInt32 reply in
        let '(bufH, reply) := readInt32 reply in
        let '(result, reply) := readInt32 reply in
        Decoder result (Some (mkDecoder width height offX offY bufW bufH)))
  | GetVppState => call InfoProvider 5 data (fun _ => Status 0) (fun reply => let '(v, _) := readInt32 reply in Status (u32 v))
  | _ => fun _ => None
  end.

(** What is read into the list; [None] when a timing is not there. *)
Fixpoint read_timings (n : nat) (reply : parcel) : option (list MDSHdmiTiming) * parcel :=
  match n with
  | O => (Some [], reply)
  | Datatypes.S n =>
      let '(o, reply) := readObject reply in
      let '(l, reply) := read_timings n reply in
      (match o, l with Some (TimingObject (Some t)), Some l => Some (t :: l) | _, _ => None end, reply)
  end.

(** The list of the client has room for as many timings as it asks for. *)
Definition BpMultiDisplayHdmiControl (r : request) : op S response :=
  let data := new_data HdmiControl in
  match r with
  | SetTiming timing => call HdmiControl 0 (writeObject (TimingObject (Some timing)) data) Status answered
  | GetHdmiTimingCount => call HdmiControl 1 data Status answered
  | GetHdmiTimingList timingCount list =>
      if negb list || (timingCount <=? 0) || (HDMI_TIMING_MAX <? timingCount) then cret (Timings BAD_VALUE None) else
      call HdmiControl 2 (writeInt32 timingCount data) (fun result => Timings result None) (fun reply =>
        let '(l, reply) := read_timings (Z.to_nat timingCount) reply in
        let '(result, reply) := readInt32 reply in
        Timings result l)
  | GetCurrentHdmiTiming timing =>
      if negb timing then cret (Timing BAD_VALUE None) else
      call HdmiControl 4 data (fun result => Timing result None) (fun reply =>
        let '(o, reply) := readObject reply in
        let '(result, reply) := readInt32 reply in
        Timing result (match o with Some (TimingObject t) => t | _ => None end))
  | SetHdmiTimingByIndex index => call HdmiControl 3 (writeInt32 index data) Status answered
  | GetCurrentHdmiTimingIndex => call HdmiControl 5 data Status answered
  | SetScalingType type => call HdmiControl 6 (writeInt32 type data) Status answered
  | SetOverscan hValue vValue => call HdmiControl 7 (writeInt32 vValue (writeInt32 hValue data)) Status answered
  | CheckHdmiTimingIsFixed =>
      call HdmiControl 8 data (fun _ => Bool false) (fun reply => let '(v, _) := readInt32 reply in Bool (v =? 1))
  | _ => fun _ => None
  end.

Definition BpMultiDisplayEventMonitor (r : request) : op S response :=
  let data := new_data EventMonitor in
  match r with
  | UpdatePhoneCallState state => call EventMonitor 0 (writeInt32 (Z.b2z state) data) Status answered
  | UpdateInput state => call EventMonitor 1 (writeInt32 (Z.b2z state) data) Status answered
  | _ => fun _ => None
  end.

(** An object that is not there is asked for its binder. *)
Definition BpMultiDisplayCallbackRegistrar (r : request) : op S response :=
  let data := new_data CallbackRegistrar in
  match r with
  | RegisterCallback (Some cbk) => call CallbackRegistrar 0 (writeStrongBinder (CallbackBinder cbk) data) Status answered
  | UnregisterCallback => call CallbackRegistrar 1 (writeStrongBinder (CallbackBinder its_callback) data) Status answered
  | _ => fun _ => None
  end.

Definition BpMultiDisplaySinkRegistrar (r : request) : op S response :=
  let data := new_data SinkRegistrar in
  match r with
  | RegisterListener listener name msg =>
      match listener, name with
      | Some l, Some name =>
          call SinkRegistrar 0 (writeInt32 msg (writeCString name (writeStrongBinder (ListenerBinder l) data))) (fun _ => Status (-1)) answered
      | _, _ => cret (Status (-1))
      end
  | UnregisterListener listenerId =>
      if listenerId <? 0 then cret (Status BAD_VALUE) else call SinkRegistrar 1 (writeInt32 listenerId data) Status answered
  | _ => fun _ => None
  end.

(** The reply is not read: the answer is that of binder. *)
Definition BpMultiDisplayConnectionObserver (r : request) : op S response :=
  let data := new_data ConnectionObserver in
  match r with
  | UpdateHdmiConnectionStatus connected => call ConnectionObserver 0 (writeInt32 (Z.b2z connected) data) Status (fun _ => Status NO_ERROR)
  | UpdateWidiConnectionStatus connected => call ConnectionObserver 1 (writeInt32 (Z.b2z connected) data) Status (fun _ => Status NO_ERROR)
  | _ => fun _ => None
  end.

Definition BpMultiDisplayDecoderConfig (r : request) : op S response :=
  let data := new_data DecoderConfig in
  match r with
  | SetDecoderOutputResolution videoSessionId dc =>
      if (dc_width dc <=? 0) || (dc_height dc <=? 0) then cret (Status BAD_VALUE) else
      let data := writeInt32 (dc_height dc) (writeInt32 (dc_width dc) (writeInt32 videoSessionId data)) in
      let data := writeInt32 (dc_offY dc) (writeInt32 (dc_offX dc) data) in
      call DecoderConfig 0 (writeInt32 (dc_bufH dc) (writeInt32 (dc_bufW dc) data)) Status answered
  | _ => fun _ => None
  end.

Definition BpMultiDisplayVppConfig (r : request) : op S response :=
  match r with
  | SetVppState dpyId isOn status =>
      call VppConfig 0 (writeInt32 status (writeInt32 (Z.b2z isOn) (writeInt32 dpyId (new_data VppConfig)))) Status answered
  | _ => fun _ => None
  end.

(** The object that a request is for. *)
Definition iface_of (r : request) : iface :=
  match r with
  | AllocateVideoSessionId | UpdateVideoStateOf _ _ | ResetVideoPlayback | UpdateVideoSourceInfo _ _ => VideoControl
  | GetVideoSessionNumber | GetVideoState _ | GetVideoSourceInfo _ _ | GetDisplayMode _ _ | GetVppState | GetDecoderOutputResolution _ => InfoProvider
  | RegisterListener _ _ _ | UnregisterListener _ => SinkRegistrar
  | RegisterCallback _ | UnregisterCallback => CallbackRegistrar
  | SetTiming _ | GetHdmiTimingCount | GetHdmiTimingList _ _ | GetCurrentHdmiTiming _ | SetHdmiTimingByIndex _ | GetCurrentHdmiTimingIndex
  | SetScalingType _ | SetOverscan _ _ | CheckHdmiTimingIsFixed => HdmiControl
  | UpdateHdmiConnectionStatus _ | UpdateWidiConnectionStatus _ => ConnectionObserver
  | UpdateInput _ | UpdatePhoneCallState _ => EventMonitor
  | SetDecoderOutputResolution _ _ => DecoderConfig
  | SetVppState _ _ _ => VppConfig
  end.

Definition proxy (r : request) : op S response :=
  match iface_of r with
  | HdmiControl => BpMultiDisplayHdmiControl r
  | VideoControl => BpMultiDisplayVideoControl r
  | EventMonitor => BpMultiDisplayEventMonitor r
  | CallbackRegistrar => BpMultiDisplayCallbackRegistrar r
  | SinkRegistrar => BpMultiDisplaySinkRegistrar r
  | InfoProvider => BpMultiDisplayInfoProvider r
  | ConnectionObserver => BpMultiDisplayConnectionObserver r
  | DecoderConfig => BpMultiDisplayDecoderConfig r
  | VppConfig => BpMultiDisplayVppConfig r
  end.

(** A client that asks the service for one of its objects. *)
Definition BpMDService (i : iface) : op S (option iface) :=
  let data := writeInterfaceToken service_descriptor new_parcel in
  do! (result, reply) := (if negb (delivered =? NO_ERROR) then cret (delivered, new_parcel)
                          else BnMDService (FIRST_CALL_TRANSACTION + service_code i) data) in
  let '(b, _) := readStrongBinder reply in
  cret (match b with Some (ServiceBinder i) => Some i | _ => None end).

(** ** The objects of clients

    The composer calls its callback and its listeners in the same way. *)

(** What the object of a client answers. *)
Context (on_call : callback_call -> Z) (onMdsMessage : Z -> bytes -> Z -> Z).

Definition plain_reply (v : Z) : Z * parcel := (NO_ERROR, writeInt32 v new_parcel).

Definition BnMultiDisplayCallback (code : Z) (data : parcel) : Z * parcel :=
  let '(ok, args) := checkInterface callback_descriptor data in
  let CHECK (r : Z * parcel) := if ok then r else (PERMISSION_DENIED, new_parcel) in
  match code - FIRST_CALL_TRANSACTION with
  | 0 => let '(blank, args) := readInt32 args in CHECK (plain_reply (on_call (BlankSecondaryDisplay (negb (blank =? 0)))))
  | 1 => let '(vsessionId, args) := readInt32 args in
         let '(state, args) := readInt32 args in CHECK (plain_reply (on_call (UpdateVideoState vsessionId state)))
  | 2 => let '(o, args) := readObject args in
         let timing := match o with Some (TimingObject (Some t)) => t | _ => no_timing end in CHECK (plain_reply (on_call (SetHdmiTiming timing)))
  | 3 => let '(type, args) := readInt32 args in CHECK (plain_reply (on_call (SetHdmiScalingType type)))
  | 4 => let '(hValue, args) := readInt32 args in
         let '(vValue, args) := readInt32 args in CHECK (plain_reply (on_call (SetHdmiOverscan hValue vValue)))
  | 5 => let '(state, args) := readInt32 args in CHECK (plain_reply (on_call (UpdateInputState (state =? 1))))
  | _ => BBinder_onTransact code data
  end.

Definition plain_call (transacted : Z * parcel) : Z :=
  let '(result, reply) := if negb (delivered =? NO_ERROR) then (delivered, new_parcel) else transacted in
  if negb (result =? NO_ERROR) then result else let '(v, _) := readInt32 reply in v.

Definition BpMultiDisplayCallback (c : callback_call) : Z :=
  let data := writeInterfaceToken callback_descriptor new_parcel in
  let remote code data := plain_call (BnMultiDisplayCallback (FIRST_CALL_TRANSACTION + code) data) in
  match c with
  | BlankSecondaryDisplay blank => remote 0 (writeInt32 (Z.b2z blank) data)
  | UpdateVideoState videoSessionId state => remote 1 (writeInt32 state (writeInt32 videoSessionId data))
  | SetHdmiTiming timing => remote 2 (writeObject (TimingObject (Some timing)) data)
  | SetHdmiScalingType type => remote 3 (writeInt32 type data)
  | SetHdmiOverscan hValue vValue => remote 4 (writeInt32 vValue (writeInt32 hValue data))
  | UpdateInputState state => remote 5 (writeInt32 (Z.b2z state) data)
  end.

(** Memory is asked for the value of a message. *)
Definition BnMultiDisplayListener (code : Z) (data : parcel) : Z * parcel :=
  match code - FIRST_CALL_TRANSACTION with
  | 0 =>
      let '(ok, args) := checkInterface listener_descriptor data in
      if negb ok then (PERMISSION_DENIED, new_parcel) else
      let '(msg, args) := readInt32 args in
      let '(size, args) := readInt32 args in
      if negb heap_ok then (NO_MEMORY, new_parcel) else
      let '(value, args) := readRaw size args in
      plain_reply (onMdsMessage msg value size)
  | _ => BBinder_onTransact code data
  end.

Definition BpMultiDisplayListener (msg : Z) (value : option bytes) : Z :=
  let data := writeInterfaceToken listener_descriptor new_parcel in
  match value with
  | None => BAD_VALUE
  | Some value =>
      let size := Z.of_nat (length value) in
      if size <? 4 then BAD_VALUE else
      plain_call (BnMultiDisplayListener (FIRST_CALL_TRANSACTION + 0) (writeRaw value (writeInt32 size (writeInt32 msg data))))
  end.

(** ** A request arrives, and so does its answer *)

(** The numbers of a request, and of an answer, are those of an [int]; the state of video processing
    is unsigned.  A list of timings is no longer than was asked for. *)
Definition ints (r : request) : list Z :=
  match r with
  | UpdateVideoStateOf a b | SetOverscan a b => [a; b]
  | UpdateVideoSourceInfo a _ | GetVideoState a | GetVideoSourceInfo a _ | RegisterListener _ _ a | UnregisterListener a
  | GetHdmiTimingList a _ | SetHdmiTimingByIndex a | SetScalingType a | GetDecoderOutputResolution a => [a]
  | SetDecoderOutputResolution a dc => [a; dc_width dc; dc_height dc; dc_offX dc; dc_offY dc; dc_bufW dc; dc_bufH dc]
  | SetVppState a _ b => [a; b]
  | _ => []
  end.

Definition answer_ok (r : request) (a : response) : Prop :=
  match r, a with
  | GetVideoSourceInfo _ _, Info v _ => is_int v
  | GetHdmiTimingList count _, Timings v l => is_int v /\ (length (default [] l) <= Z.to_nat count)%nat
  | GetCurrentHdmiTiming _, Timing v _ => is_int v
  | CheckHdmiTimingIsFixed, Bool _ => True
  | GetDecoderOutputResolution _, Decoder v dc =>
      is_int v /\ match dc with
                  | Some dc => Forall is_int [dc_width dc; dc_height dc; dc_offX dc; dc_offY dc; dc_bufW dc; dc_bufH dc]
                  | None => True end
  | GetVppState, Status v => 0 <= v < 2 ^ 32
  | (GetVideoSourceInfo _ _ | GetHdmiTimingList _ _ | GetCurrentHdmiTiming _ | CheckHdmiTimingIsFixed | GetDecoderOutputResolution _), _ => False
  | _, Status v => is_int v
  | _, _ => False
  end.

(** What the proxies answer themselves. *)
Definition refused (r : request) : option response :=
  match r with
  | GetVideoSourceInfo _ false => Some (Info BAD_VALUE None)
  | GetHdmiTimingList count list =>
      if negb list || (count <=? 0) || (HDMI_TIMING_MAX <? count) then Some (Timings BAD_VALUE None) else None
  | GetCurrentHdmiTiming false => Some (Timing BAD_VALUE None)
  | RegisterListener None _ _ | RegisterListener _ None _ => Some (Status (-1))
  | UnregisterListener id => if id <? 0 then Some (Status BAD_VALUE) else None
  | SetDecoderOutputResolution _ dc => if (dc_width dc <=? 0) || (dc_height dc <=? 0) then Some (Status BAD_VALUE) else None
  | _ => None
  end.

(** What a client sees of an answer: a resolution or a list that was not stored is zero, and the
    status of a connection is not read. *)
Definition client_sees (r : request) (a : response) : response :=
  match r, a with
  | GetHdmiTimingList count _, Timings v l => Timings v (Some (stored_timings count l))
  | GetDecoderOutputResolution _, Decoder v None => Decoder v (Some (mkDecoder 0 0 0 0 0 0))
  | (UpdateHdmiConnectionStatus _ | UpdateWidiConnectionStatus _), _ => Status NO_ERROR
  | _, a => a
  end.

(** A callback that is registered is there, and the mutex is as the service finds it. *)
Definition call_ok (r : request) : Prop :=
  match r with RegisterCallback None => False | GetDisplayMode _ b => b = busy | _ => True end.

(** Binder hands a call on. *)
Lemma call_delivered i code data failed k s reply s' : delivered = NO_ERROR ->
  onTransact i (FIRST_CALL_TRANSACTION + code) data s = Some ((NO_ERROR, reply), s') ->
  call i code data failed k s = Some (k reply, s').
Proof using Type. intros Hd Ht. unfold call, transact, cbind. rewrite Hd. cbn [NO_ERROR Z.eqb negb]. by rewrite Ht. Qed.

(** The token is that of the object. *)
Lemma check_passed name data l (k : parcel -> handler) s : contents data = Token name :: l ->
  exists data', CHECK_INTERFACE name data k s = k data' s /\ contents data' = l.
Proof using Type. intros Hc. destruct (token_read name data l Hc) as (p' & E & Hl). exists p'. unfold CHECK_INTERFACE. by rewrite E. Qed.

Lemma number_runs r s v s' : run r s = Some (Status v, s') -> number r s = Some (v, s').
Proof using Type. intros Hr. unfold number, cbind. by rewrite Hr. Qed.

Lemma answered_int v reply : contents reply = [Int v] -> answered reply = Status v.
Proof using Type. intros Hc. destruct (int_read v reply [] Hc) as (p' & E & _). unfold answered. by rewrite E. Qed.

Lemma reply_contents v : is_int v -> contents (writeInt32 v new_parcel) = [Int v].
Proof using Type. intros Hv. by rewrite int_written, new_contents. Qed.

(** Reads the next item of a parcel. *)
#[local] Ltac read :=
  match goal with
  | Hc : contents ?p = Int _ :: _ |- context [readInt32 ?p] =>
      let p' := fresh "p" in let E := fresh in let Hc' := fresh in
      destruct (int_read _ p _ Hc) as (p' & E & Hc'); rewrite E; clear E Hc; rename Hc' into Hc
  | Hc : contents ?p = Object _ :: _ |- context [readObject ?p] =>
      let p' := fresh "p" in let E := fresh in let Hc' := fresh in
      destruct (object_read _ p _ Hc) as (p' & E & Hc'); rewrite E; clear E Hc; rename Hc' into Hc
  | Hc : contents ?p = Binder _ :: _ |- context [readStrongBinder ?p] =>
      let p' := fresh "p" in let E := fresh in let Hc' := fresh in
      destruct (binder_read _ p _ Hc) as (p' & E & Hc'); rewrite E; clear E Hc; rename Hc' into Hc
  | Hc : contents ?p = CString _ :: _ |- context [readCString ?p] =>
      let p' := fresh "p" in let E := fresh in let Hc' := fresh in
      destruct (cstring_read _ p _ Hc) as (p' & E & Hc'); rewrite E; clear E Hc; rename Hc' into Hc
  end.

(** The items of a parcel that was written. *)
#[local] Ltac written :=
  unfold new_data; repeat first
    [ rewrite token_written | rewrite object_written | rewrite binder_written | rewrite cstring_written
    | rewrite int_written by (done || apply is_int_b2z || apply is_int_zero) ]; rewrite new_contents; reflexivity.

(** The arguments of a call are read from the data, behind the token. *)
#[local] Ltac arrive :=
  cbn [onTransact]; unfold BnMultiDisplayVideoControl, BnMultiDisplayInfoProvider, BnMultiDisplayHdmiControl, BnMultiDisplayEventMonitor,
    BnMultiDisplayCallbackRegistrar, BnMultiDisplaySinkRegistrar, BnMultiDisplayConnectionObserver, BnMultiDisplayDecoderConfig, BnMultiDisplayVppConfig;
  rewrite Z.add_simpl_l; cbv beta iota zeta;
  match goal with
  | |- CHECK_INTERFACE ?name ?data ?k ?s = _ =>
      let Hc := fresh "Hc" in let H := fresh in let p := fresh "p" in let E := fresh in let Hp := fresh "Hp" in
      eassert (Hc : contents data = _) by written; cbn [app] in Hc;
      destruct (check_passed name data _ k s Hc) as (p & E & Hp); rewrite E; clear E Hc
  end; repeat (read; cbv beta iota zeta); rewrite ?b2z_1, ?b2z_0.

(** A request whose answer is a number. *)
Lemma number_arrives i code data r (v : Z) (s s' : S) :
  delivered = NO_ERROR -> run r s = Some (Status v, s') -> is_int v ->
  onTransact i (FIRST_CALL_TRANSACTION + code) data s = reply_number (number r) s -> forall failed,
  call i code data failed answered s = Some (Status v, s').
Proof using Type.
  intros Hd Hr Hv Ht failed. erewrite call_delivered; [|done|rewrite Ht; unfold reply_number, cbind; by rewrite (number_runs _ _ _ _ Hr)].
  by rewrite (answered_int v) by (by apply reply_contents).
Qed.

Section Arrives.
Context (Hd : delivered = NO_ERROR) (Hheap : heap_ok = true).

#[local] Ltac request_of_interface :=
  intros Hi Hints Hr Ha; match type of Hi with iface_of ?r = _ => destruct r; try discriminate Hi end;
  cbn [ints answer_ok call_ok refused client_sees] in *; rewrite ?List.Forall_cons_iff in Hints; destruct_and?.

(** The requests of one object whose answers are numbers. *)
#[local] Ltac number_request :=
  match goal with a : response |- _ => destruct a; try done end;
  match goal with |- context [call _ _ _ _ answered] => eapply number_arrives; [done|done|done|arrive; reflexivity] end.

Lemma video_control_arrives r s a s' : iface_of r = VideoControl -> Forall is_int (ints r) -> run r s = Some (a, s') -> answer_ok r a ->
  BpMultiDisplayVideoControl r s = Some (a, s').
Proof using Hd.
  request_of_interface; unfold BpMultiDisplayVideoControl; number_request.
Qed.

Lemma event_monitor_arrives r s a s' : iface_of r = EventMonitor -> Forall is_int (ints r) -> run r s = Some (a, s') -> answer_ok r a ->
  BpMultiDisplayEventMonitor r s = Some (a, s').
Proof using Hd. request_of_interface; unfold BpMultiDisplayEventMonitor; number_request. Qed.

Lemma vpp_config_arrives r s a s' : iface_of r = VppConfig -> Forall is_int (ints r) -> run r s = Some (a, s') -> answer_ok r a ->
  BpMultiDisplayVppConfig r s = Some (a, s').
Proof using Hd. request_of_interface; unfold BpMultiDisplayVppConfig; number_request. Qed.

Lemma decoder_config_arrives r s a s' : iface_of r = DecoderConfig -> Forall is_int (ints r) -> run r s = Some (a, s') -> answer_ok r a ->
  refused r = None -> BpMultiDisplayDecoderConfig r s = Some (a, s').
Proof using Hd.
  request_of_interface. intros Hn. unfold BpMultiDisplayDecoderConfig. destruct (_ || _); [done|]. destruct dc as [w h ox oy bw bh]. cbn [dc_width dc_height dc_offX dc_offY dc_bufW dc_bufH] in *.
  number_request.
Qed.

Lemma callback_registrar_arrives r s a s' : iface_of r = CallbackRegistrar -> Forall is_int (ints r) -> run r s = Some (a, s') -> answer_ok r a ->
  call_ok r -> BpMultiDisplayCallbackRegistrar r s = Some (a, s').
Proof using Hd.
  request_of_interface; intros Hok; unfold BpMultiDisplayCallbackRegistrar; [destruct cbk; [|done]|]; number_request.
Qed.

Lemma sink_registrar_arrives r s a s' : iface_of r = SinkRegistrar -> Forall is_int (ints r) -> run r s = Some (a, s') -> answer_ok r a ->
  refused r = None -> BpMultiDisplaySinkRegistrar r s = Some (a, s').
Proof using Hd.
  request_of_interface; intros Hn; unfold BpMultiDisplaySinkRegistrar; [destruct l, name; try done|destruct (_ <? 0); [done|]]; number_request.
Qed.

Lemma connection_observer_arrives r s a s' : iface_of r = ConnectionObserver -> Forall is_int (ints r) -> run r s = Some (a, s') -> answer_ok r a ->
  BpMultiDisplayConnectionObserver r s = Some (client_sees r a, s').
Proof using Hd.
  request_of_interface; destruct a; try done; unfold BpMultiDisplayConnectionObserver;
    (erewrite call_delivered; [reflexivity|done|arrive; unfold reply_number, cbind; erewrite number_runs by done; reflexivity]).
Qed.

Lemma info_provider_arrives r s a s' : iface_of r = InfoProvider -> Forall is_int (ints r) -> run r s = Some (a, s') -> answer_ok r a ->
  refused r = None -> call_ok r -> BpMultiDisplayInfoProvider r s = Some (client_sees r a, s').
Proof using Hd.
  request_of_interface; intros Hn Hok; unfold BpMultiDisplayInfoProvider; subst; try number_request.
  - (* the source of a video *)
    destruct info; [|done]. destruct a as [| |v i| | |]; try done. cbn [negb].
    erewrite call_delivered; [|done|arrive; unfold cbind; rewrite Hr; reflexivity].
    eassert (Hc : contents (writeInt32 v (writeObject (VideoObject i) new_parcel)) = _) by written. cbn [app] in Hc. do 2 read. done.
  - (* the state of video processing *)
    destruct a as [v| | | | |]; try done.
    erewrite call_delivered; [|done|arrive; unfold reply_number, cbind; erewrite number_runs by done; reflexivity].
    pose proof (reply_contents (s32 v) (is_int_s32 v)) as Hc. read. by rewrite u32_s32.
  - (* the resolution of the decoder *)
    destruct a as [| | | | |v dc]; try done. destruct Ha as [Hv Hdc].
    erewrite call_delivered; [|done|arrive; unfold cbind; rewrite Hr; reflexivity]. cbv zeta.
    set (dc' := match dc with Some dc => dc | None => mkDecoder 0 0 0 0 0 0 end).
    assert (Hdc' : Forall is_int [dc_width dc'; dc_height dc'; dc_offX dc'; dc_offY dc'; dc_bufW dc'; dc_bufH dc']).
    { destruct dc; [done|]. repeat constructor; apply is_int_zero. }
    transitivity (Some (Decoder v (Some dc'), s')); [|by destruct dc]. clearbody dc'. destruct dc' as [w h ox oy bw bh].
    rewrite !List.Forall_cons_iff in Hdc'. destruct_and!. cbn [dc_width dc_height dc_offX dc_offY dc_bufW dc_bufH] in *.
    match goal with |- context [readInt32 ?p] => eassert (Hc : contents p = _) by written end. cbn [app] in Hc. do 7 read. done.
Qed.

(** The timings that were written are read again. *)
Lemma timings_written l p : contents (write_timings l p) = contents p ++ map (fun t => Object (TimingObject (Some t))) l.
Proof using Type.
  unfold write_timings. revert p. induction l as [|t l IH]; intros p; cbn [foldl map]; [by rewrite app_nil_r|].
  by rewrite IH, object_written, <-app_assoc.
Qed.

Lemma timings_read l p rest : contents p = map (fun t => Object (TimingObject (Some t))) l ++ rest ->
  exists p', read_timings (length l) p = (Some l, p') /\ contents p' = rest.
Proof using Type.
  revert p. induction l as [|t l IH]; intros p Hc; cbn [length read_timings map app] in *; [by exists p|].
  read. destruct (IH _ Hc) as (p' & E & Hc'). rewrite E. by exists p'.
Qed.

Lemma hdmi_control_arrives r s a s' : iface_of r = HdmiControl -> Forall is_int (ints r) -> run r s = Some (a, s') -> answer_ok r a ->
  refused r = None -> BpMultiDisplayHdmiControl r s = Some (client_sees r a, s').
Proof using Hd Hheap.
  request_of_interface; intros Hn; unfold BpMultiDisplayHdmiControl; try number_request.
  - (* the list of the timings *)
    destruct (negb list || (count <=? 0) || (HDMI_TIMING_MAX <? count)) eqn:Eb; [done|]. apply orb_false_iff in Eb as [[Hl%negb_false_iff Hc]%orb_false_iff _].
    subst list. destruct a as [| | |v l| |]; try done. destruct Ha as [Hv Hlen].
    erewrite call_delivered; [|done|arrive; rewrite Hc, Hheap; cbn [negb]; unfold cbind; rewrite Hr; reflexivity].
    set (ts := stored_timings count l). assert (Hts : length ts = Z.to_nat count).
    { unfold ts, stored_timings. rewrite length_app, length_replicate. clear -Hlen. destruct l; cbn in *; lia. }
    assert (Hcs : contents (writeInt32 v (write_timings ts new_parcel)) = map (fun t => Object (TimingObject (Some t))) ts ++ [Int v]).
    { by rewrite int_written, timings_written, new_contents. }
    destruct (timings_read ts _ _ Hcs) as (p' & E & Hc'). rewrite <-Hts, E. read. done.
  - (* the current timing *)
    destruct timing; [|done]. destruct a as [| | | |v t|]; try done. cbn [negb].
    erewrite call_delivered; [|done|arrive; unfold cbind; rewrite Hr; reflexivity].
    eassert (Hc : contents (writeInt32 v (writeObject (TimingObject t) new_parcel)) = _) by written. cbn [app] in Hc. do 2 read. done.
  - (* whether the timing is fixed *)
    destruct a as [|b| | | |]; try done.
    erewrite call_delivered; [|done|arrive; unfold cbind; rewrite Hr; reflexivity].
    pose proof (reply_contents (Z.b2z b) (is_int_b2z b)) as Hc. read. by rewrite b2z_1.
Qed.
End Arrives.

(** C30: A request of a client has the effect and the answer that it has when the composer is asked
    directly, as far as the interface hands the answer on; a request that a proxy refuses does not
    reach the composer. *)
Theorem proxies_reach_composer r s a s' :
  delivered = NO_ERROR -> heap_ok = true -> Forall is_int (ints r) -> call_ok r -> run r s = Some (a, s') -> answer_ok r a ->
  proxy r s = Some (match refused r with Some a' => (a', s) | None => (client_sees r a, s') end).
Proof using Type.
  intros Hd Hheap Hints Hok Hr Ha. destruct (refused r) as [a'|] eqn:Hn.
  - destruct r; cbn [refused] in Hn; try discriminate Hn; unfold proxy; cbn [iface_of];
      unfold BpMultiDisplayInfoProvider, BpMultiDisplaySinkRegistrar, BpMultiDisplayHdmiControl, BpMultiDisplayDecoderConfig;
      repeat case_match; simplify_eq; done.
  - assert (Hsame : iface_of r = HdmiControl \/ iface_of r = InfoProvider \/ iface_of r = ConnectionObserver \/ client_sees r a = a)
      by (destruct r; cbn; auto).
    unfold proxy. destruct (iface_of r) eqn:Hi.
    + by apply hdmi_control_arrives.
    + destruct Hsame as [?|[?|[?| -> ]]]; [done|done|done|]. by apply video_control_arrives.
    + destruct Hsame as [?|[?|[?| -> ]]]; [done|done|done|]. by apply event_monitor_arrives.
    + destruct Hsame as [?|[?|[?| -> ]]]; [done|done|done|]. by apply callback_registrar_arrives.
    + destruct Hsame as [?|[?|[?| -> ]]]; [done|done|done|]. by apply sink_registrar_arrives.
    + by apply info_provider_arrives.
    + by apply connection_observer_arrives.
    + destruct Hsame as [?|[?|[?| -> ]]]; [done|done|done|]. by apply decoder_config_arrives.
    + destruct Hsame as [?|[?|[?| -> ]]]; [done|done|done|]. by apply vpp_config_arrives.
Qed.

(** A call that binder does not hand on changes nothing. *)
Lemma call_lost i code data failed k (s : S) : delivered <> NO_ERROR -> call i code data failed k s = Some (failed delivered, s).
Proof using Type.
  intros Hd. apply Z.eqb_neq in Hd. unfold call, transact, cbind. rewrite Hd. cbn [negb]. unfold cret. by rewrite Hd.
Qed.

Lemma lost_calls_change_nothing r s : delivered <> NO_ERROR -> call_ok r -> exists a, proxy r s = Some (a, s).
Proof using Type.
  intros Hd Hok. destruct r; unfold proxy; cbn [iface_of call_ok] in *;
    unfold BpMultiDisplayInfoProvider, BpMultiDisplaySinkRegistrar, BpMultiDisplayHdmiControl, BpMultiDisplayDecoderConfig,
      BpMultiDisplayVideoControl, BpMultiDisplayEventMonitor, BpMultiDisplayCallbackRegistrar, BpMultiDisplayConnectionObserver, BpMultiDisplayVppConfig;
    repeat case_match; try done; try (rewrite call_lost by done); by eexists.
Qed.

(** A client is given the object that it asks for. *)
Lemma service_gives_object i (s : S) : delivered = NO_ERROR -> BpMDService i s = Some (Some i, s).
Proof using Type.
  intros Hd. unfold BpMDService, cbind. rewrite Hd. cbn [NO_ERROR Z.eqb negb].
  assert (Ht : BnMDService (FIRST_CALL_TRANSACTION + service_code i) (writeInterfaceToken service_descriptor new_parcel) s =
    Some ((NO_ERROR, writeStrongBinder (ServiceBinder i) new_parcel), s)).
  { unfold BnMDService. rewrite Z.add_simpl_l.
    eassert (Hc : contents (writeInterfaceToken service_descriptor new_parcel) = _) by written. cbn [app] in Hc.
    destruct i; cbn [service_code]; match goal with |- CHECK_INTERFACE ?name ?data ?k ?s = _ => destruct (check_passed name data _ k s Hc) as (p & E & _); rewrite E; done end. }
  rewrite Ht. eassert (Hc : contents (writeStrongBinder (ServiceBinder i) new_parcel) = _) by written. cbn [app] in Hc. by read.
Qed.

(** The numbers of a call of the callback. *)
Definition call_ints (c : callback_call) : list Z :=
  match c with SetHdmiScalingType a => [a] | SetHdmiOverscan a b | UpdateVideoState a b => [a; b] | _ => [] end.

Lemma plain_call_answers v : delivered = NO_ERROR -> is_int v -> plain_call (plain_reply v) = v.
Proof using Type.
  intros Hd Hv. unfold plain_call, plain_reply. rewrite Hd. cbn [NO_ERROR Z.eqb negb].
  pose proof (reply_contents v Hv) as Hc. by read.
Qed.

(** A call of the composer reaches the callback with its arguments, and is answered what the callback answers. *)
Theorem callback_calls_arrive c :
  delivered = NO_ERROR -> Forall is_int (call_ints c) -> is_int (on_call c) -> BpMultiDisplayCallback c = on_call c.
Proof using Type.
  intros Hd Hints Ha. unfold BpMultiDisplayCallback. destruct c; cbn [call_ints] in Hints; rewrite ?List.Forall_cons_iff in Hints; destruct_and?;
    unfold BnMultiDisplayCallback; rewrite Z.add_simpl_l;
    match goal with |- context [checkInterface ?name ?data] =>
      eassert (Hc : contents data = _) by written; cbn [app] in Hc; destruct (token_read name data _ Hc) as (p & E & Hp); rewrite E; clear E Hc end;
    repeat (read; cbv beta iota zeta); rewrite ?b2z_1, ?b2z_0; by apply plain_call_answers.
Qed.

(** So does a message of at least four bytes, a listener. *)
Lemma messages_arrive msg value : delivered = NO_ERROR -> heap_ok = true -> is_int msg -> 4 <= Z.of_nat (length value) < 2 ^ 31 ->
  is_int (onMdsMessage msg value (Z.of_nat (length value))) ->
  BpMultiDisplayListener msg (Some value) = onMdsMessage msg value (Z.of_nat (length value)).
Proof using Type.
  intros Hd Hh Hm Hl Ha. unfold BpMultiDisplayListener. cbv zeta. rewrite (proj2 (Z.ltb_ge _ 4)) by lia.
  unfold BnMultiDisplayListener. rewrite Z.add_simpl_l.
  assert (Hs : is_int (Z.of_nat (length value))) by (unfold is_int; lia).
  assert (Hc : contents (writeRaw value (writeInt32 (Z.of_nat (length value)) (writeInt32 msg (writeInterfaceToken listener_descriptor new_parcel)))) =
    [Token listener_descriptor; Int msg; Int (Z.of_nat (length value)); Raw value]).
  { by rewrite raw_written, !int_written, token_written, new_contents. }
  destruct (token_read _ _ _ Hc) as (p & E & Hp). rewrite E. cbn [negb]. do 2 read. rewrite Hh. cbn [negb].
  destruct (raw_read _ _ _ Hp) as (p' & E' & _). rewrite E'. by apply plain_call_answers.
Qed.

(** What the requests keep is kept whatever parcel a client sends. *)
Lemma keeps_number (P : S -> Prop) r : (forall r, keeps P (run r)) -> keeps P (number r).
Proof using Type. intros Hk. unfold number. apply keeps_bind; [apply Hk|intros []; keeps]. Qed.

Lemma keeps_reply (P : S -> Prop) m : keeps P m -> keeps P (reply_number m).
Proof using Type. intros Hm. unfold reply_number. apply keeps_bind; [done|intros ?; apply keeps_ret]. Qed.

Lemma keeps_check (P : S -> Prop) name data k : (forall data, keeps P (k data)) -> keeps P (CHECK_INTERFACE name data k).
Proof using Type. intros Hk. unfold CHECK_INTERFACE. destruct (checkInterface name data) as [[] p]; [done|apply keeps_ret]. Qed.

Lemma onTransact_keeps (P : S -> Prop) i code data : (forall r, keeps P (run r)) -> keeps P (onTransact i code data).
Proof using Type.
  intros Hk. destruct i; cbn [onTransact];
    unfold BnMultiDisplayVideoControl, BnMultiDisplayInfoProvider, BnMultiDisplayHdmiControl, BnMultiDisplayEventMonitor,
      BnMultiDisplayCallbackRegistrar, BnMultiDisplaySinkRegistrar, BnMultiDisplayConnectionObserver, BnMultiDisplayDecoderConfig, BnMultiDisplayVppConfig;
    cbv beta zeta; repeat case_match; try apply keeps_ret; apply keeps_check; intros args; repeat case_match;
    try apply keeps_ret; try (apply keeps_reply; try by apply keeps_number); try solve [intros ? ? ? ? [=]].
  all: apply keeps_bind; [apply Hk || by apply keeps_number|intros ?; repeat case_match; first [apply keeps_ret|intros ? ? ? ? [=]]].
Qed.
End Service.

(** ** Lists of items are parcels *)

#[global, refine] Instance list_parcel (interface callback : Type) : Parcel interface callback (list (item interface callback)) := {
  new_parcel := [];
  contents p := p;
  writeInterfaceToken name p := p ++ [Token name];
  checkInterface name p := match p with Token n :: p' => (bool_decide (n = name), p') | _ => (false, p) end;
  writeInt32 v p := p ++ [Int v];
  readInt32 p := match p with Int v :: p' => (v, p') | _ => (0, p) end;
  writeStrongBinder b p := p ++ [Binder b];
  readStrongBinder p := match p with Binder b :: p' => (Some b, p') | _ => (None, p) end;
  writeCString s p := p ++ [CString s];
  readCString p := match p with CString s :: p' => (Some s, p') | _ => (None, p) end;
  writeObject o p := p ++ [Object o];
  readObject p := match p with Object o :: p' => (Some o, p') | _ => (None, p) end;
  writeRaw b p := p ++ [Raw b];
  readRaw n p := match p with Raw b :: p' => (take (Z.to_nat n) b, p') | _ => ([], p) end;
  new_contents := _; token_written := _; token_read := _; token_refused := _; int_written := _; int_read := _; int_missing := _; binder_written := _; binder_read := _; cstring_written := _; cstring_read := _; object_written := _; object_read := _; raw_written := _; raw_read := _
}.
Proof.
  1, 2, 5, 8, 10, 12, 14: done.
  all: cbn beta.
  - intros name p l ->. exists l. by rewrite bool_decide_true.
  - intros name p Hp. destruct p as [|[n| | | | |] p]; try by eexists. eexists. rewrite bool_decide_false; [done|]. intros ->. by destruct (Hp p).
  - intros v p l ->. by exists l.
  - intros p ->. by eexists.
  - intros b p l ->. by exists l.
  - intros c p l ->. by exists l.
  - intros o p l ->. by exists l.
  - intros b p l ->. exists l. by rewrite Nat2Z.id, firstn_all.
Defined.

(** ** The composer behind the interfaces *)

Section Composer.
Context {interface callback parcel : Type} `{Parcel interface callback parcel}.
Context (answer : callback -> list (@event interface callback) -> callback_call -> Z).
Context (getService : list (@event interface callback) -> bool) (vpp_transact : list (@event interface callback) -> Z -> Z)
  (isVppOn : list (@event interface callback) -> Z) (hdr : drm_header) (VPG_DRM : bool).

(** Whatever code and parcel any client sends to any object of the service, the composer stays in a
    state in which its listeners, sessions, mode and timings belong together. *)
Theorem any_parcel_keeps_composer_ok FIRST other heap_ok busy d i code (data : parcel) c answered_parcel c' :
  composer_ok c ->
  onTransact (serve answer getService vpp_transact isVppOn hdr VPG_DRM d) FIRST other heap_ok busy i code data c = Some (answered_parcel, c') ->
  composer_ok c'.
Proof using Type. intros Hc. by apply (onTransact_keeps _ FIRST other heap_ok busy composer_ok i code data (keeps_serve _ _ _ _ _ _ d)). Qed.
End Composer.

(** ** A client of the service that is plugged in *)

#[local] Abbreviation ask := (@serve nat nat (fun _ _ _ => 0) (fun _ => true) (fun _ _ => 0) (fun _ => 0) a_drm_header false plugged).
#[local] Abbreviation parcels := (list (item nat nat)).
#[local] Abbreviation unknown_code := (fun (_ : Z) (_ : parcels) => (-74, @nil (item nat nat))).
#[local] Abbreviation client heap := (proxy (parcel := parcels) ask 1 unknown_code heap false 0 0%nat).

Lemma proxies_reach_composer_witness :
  exists c' l, ask (GetHdmiTimingList 4 true) connected_composer = Some (Timings 0 (Some l), c') /\ length l = 2%nat /\
    client true (GetHdmiTimingList 4 true) connected_composer = Some (Timings 0 (Some (l ++ [no_timing; no_timing])), c').
Proof.
  destruct (ask (GetHdmiTimingList 4 true) connected_composer) as [[a c']|] eqn:E; [|vm_compute in E; discriminate E].
  assert (Ha : exists l, a = Timings 0 (Some l) /\ length l = 2%nat).
  { pose proof (f_equal (fmap fst) E) as E'. vm_compute in E'. injection E' as <-. eexists. split; reflexivity. }
  destruct Ha as (l & -> & Hl). exists c', l. split; [reflexivity|]. split; [exact Hl|].
  rewrite (proxies_reach_composer (parcel := parcels) ask 1 unknown_code true false 0 0%nat
    (GetHdmiTimingList 4 true) connected_composer (Timings 0 (Some l)) c' eq_refl eq_refl); [|repeat constructor; lia|exact I|exact E|].
  - cbn [refused negb orb Z.leb Z.ltb Z.compare HDMI_TIMING_MAX client_sees]. unfold stored_timings. rewrite Hl. reflexivity.
  - cbn. split; [unfold is_int; lia|lia].
Defined.

(** Without memory for the list a client is told that all is well, and has no timings. *)
Example list_without_memory :
  fst <$> client false (GetHdmiTimingList 4 true) connected_composer = Some (Timings 0 None).
Proof. vm_compute. reflexivity. Qed.

Lemma any_parcel_keeps_composer_ok_witness :
  exists r c', onTransact ask 1 unknown_code true false VideoControl 3
    [Token (descriptor VideoControl); Int 3; Int MDS_VIDEO_PREPARED] connected_composer = Some (r, c') /\ mMode c' = 10 /\ composer_ok c'.
Proof.
  assert (Hm : (fun x => mMode x.2) <$> onTransact ask 1 unknown_code true false VideoControl 3
    [Token (descriptor VideoControl); Int 3; Int MDS_VIDEO_PREPARED] connected_composer = Some 10) by (vm_compute; reflexivity).
  destruct (onTransact ask 1 unknown_code true false VideoControl 3
    [Token (descriptor VideoControl); Int 3; Int MDS_VIDEO_PREPARED] connected_composer) as [[r c']|] eqn:E; [|discriminate Hm].
  exists r, c'. split; [reflexivity|]. split; [by injection Hm|].
  exact (any_parcel_keeps_composer_ok (fun _ _ _ => 0) (fun _ => true) (fun _ _ => 0) (fun _ => 0) a_drm_header false 1 unknown_code true false plugged
    VideoControl 3 _ connected_composer r c' connected_ok E).
Defined.

(** A callback that answers 0 to everything. *)
Lemma callback_calls_arrive_witness :
  BpMultiDisplayCallback (parcel := parcels) 1 unknown_code 0 (fun c => match c with SetHdmiOverscan h v => h + v | _ => 0 end) (SetHdmiOverscan 3 4) = 7.
Proof.
  apply (callback_calls_arrive (parcel := parcels) 1 unknown_code 0 (fun c => match c with SetHdmiOverscan h v => h + v | _ => 0 end) (SetHdmiOverscan 3 4) eq_refl);
    [repeat constructor; lia|unfold is_int; cbn; lia].
Defined.
