(* ===== verification/CtpSpec.v ===== *)
(** * What the service for displays on Clovertrail guarantees

    The mode of the displays is the code of an abstract state, and switching HDMI is a step of that
    state; in every state the service can reach the mode is such a code.  Listeners are told the new
    mode, the protection of the content counts as on only when the link is authenticated, and the
    timing of a video is one of the display. *)

From stdpp Require Import base list numbers strings tactics sets relations.
From Stdlib Require Import ZArith Lia Sorting.Sorted.
From S2P Require Import Prelude StateOp ComposerSpec DrmHdmi CtpDrm CtpComposer.
#[local] Open Scope op_scope.

(** ** The abstract state *)

(** Nothing is connected; a display is connected and off, with the overlay off or not; it shows what
    the panel shows; or it shows a video.  A display that is on is protected or not. *)
Inductive hdmi_state := Unplugged | Blank (overlay_off : bool) | Cloned (hdcp : bool) | Extended (hdcp : bool).

Record mode_state := mkState { panel : bool; hdmi : hdmi_state; widi : bool; playing : bool }.

Definition bit_if (b : bool) (bit : Z) : Z := if b then bit else 0.

Definition encode_hdmi (s : hdmi_state) : Z :=
  match s with
  | Unplugged => 0
  | Blank overlay_off => Z.lor MDS_HDMI_CONNECTED (bit_if overlay_off MDS_OVERLAY_OFF)
  | Cloned hdcp => Z.lor (Z.lor MDS_HDMI_CONNECTED MDS_HDMI_ON) (Z.lor (Z.lor MDS_HDMI_CLONE MDS_OVERLAY_OFF) (bit_if hdcp MDS_HDCP_ON))
  | Extended hdcp => Z.lor (Z.lor MDS_HDMI_CONNECTED MDS_HDMI_ON) (Z.lor MDS_HDMI_VIDEO_EXT (bit_if hdcp MDS_HDCP_ON))
  end.

Definition encode (a : mode_state) : Z :=
  Z.lor (Z.lor (bit_if (panel a) MDS_MIPI_ON) (encode_hdmi (hdmi a))) (Z.lor (bit_if (widi a) MDS_WIDI_ON) (bit_if (playing a) MDS_VIDEO_PLAYING)).

Definition set_panel v a := mkState v (hdmi a) (widi a) (playing a).
Definition set_hdmi v a := mkState (panel a) v (widi a) (playing a).
Definition set_widi v a := mkState (panel a) (hdmi a) v (playing a).
Definition set_playing v a := mkState (panel a) (hdmi a) (widi a) v.

(** What becomes of HDMI: it follows the connection, the policy and the video; [hdcp] says whether
    the protection can be switched on. *)
Definition next_hdmi (status : Z) (allowed playing hdcp : bool) (s : hdmi_state) : hdmi_state :=
  if status =? DRM_HDMI_DISCONNECTED then Unplugged
  else if negb allowed then
    match s with Unplugged => Blank false | Blank b => Blank b | Cloned _ => Blank true | Extended _ => Blank false end
  else
    match playing, s with
    | true, Extended h => Extended h
    | true, _ => Extended hdcp
    | false, Cloned h => Cloned h
    | false, _ => Cloned hdcp
    end.

(** The panel is switched on unless a video plays on an allowed display. *)
Definition next_state (DVI_SUPPORTED : bool) (status : Z) (allowed is_playing hdcp : bool) (a : mode_state) : mode_state :=
  if negb DVI_SUPPORTED && (status =? DRM_DVI_CONNECTED) then a else
  let a := if (status =? DRM_HDMI_DISCONNECTED) || negb allowed || negb is_playing then set_panel true a else a in
  set_hdmi (next_hdmi status allowed is_playing hdcp (hdmi a)) a.

(** Decides an equation between codes, for every state. *)
Ltac codes := repeat match goal with
  | a : mode_state |- _ => destruct a as [[] [|[]|[]|[]] [] []]
  end; vm_compute; try reflexivity.

(** ** Symbolic execution *)

Section Composer.
Context {interface : Type}.
#[local] Abbreviation composer := (@composer interface).
#[local] Abbreviation event := (@event interface).
#[local] Abbreviation outside := (@outside interface).
#[local] Abbreviation hardware := (@hardware interface).
#[local] Abbreviation listener := (@listener interface).
#[local] Abbreviation C := (op composer).

Definition blank : hardware := mkHw CtpDrm.zero_context 0 [].

(** All but the hardware. *)
Definition core (c : composer) : composer := set_hw blank c.

(** What an operation does to the rest of the service, whatever the hardware does meanwhile. *)
Definition runs {A} (k : composer) (m : C A) (Q : A -> composer -> Prop) : Prop :=
  triple (fun c => core c = k) m (fun a c => Q a (core c)).

Lemma runs_ret {A} k (a : A) (Q : A -> composer -> Prop) : Q a k -> runs k (cret a) Q.
Proof using Type. intros H. apply triple_ret. by intros c ->. Qed.

Lemma runs_ret_bind {A B} k (a : A) (m : A -> C B) Q : runs k (m a) Q -> runs k (cbind (cret a) m) Q.
Proof using Type. intros H c b c' Hc E. exact (H c b c' Hc E). Qed.

Lemma runs_bind {A B} k (m : C A) (f : A -> C B) R Q : runs k m R -> (forall a k', R a k' -> runs k' (f a) Q) -> runs k (cbind m f) Q.
Proof using Type.
  intros Hm Hf. eapply triple_bind; [exact Hm|]. intros a c b c' Hc E. by eapply (Hf a _ Hc).
Qed.

Lemma runs_assoc {A B D} k (m : C A) (f : A -> C B) (g : B -> C D) Q :
  runs k (cbind m (fun a => cbind (f a) g)) Q -> runs k (cbind (cbind m f) g) Q.
Proof using Type.
  intros H c d c' Hc E. apply (H c d c' Hc). unfold cbind in *. by destruct (m c) as [[a c1]|].
Qed.

Lemma runs_get {A B} k (f : composer -> A) (m : A -> C B) Q : (forall c, f c = f (core c)) -> runs k (m (f k)) Q -> runs k (cbind (get f) m) Q.
Proof using Type. intros Hf H c b c' Hc E. apply (H c b c' Hc). unfold cbind, get in E. by rewrite Hf, Hc in E. Qed.

Lemma runs_get_last {A} k (f : composer -> A) (Q : A -> composer -> Prop) : (forall c, f c = f (core c)) -> Q (f k) k -> runs k (get f) Q.
Proof using Type. intros Hf H. apply triple_get. intros c <-. by rewrite Hf. Qed.

Lemma runs_update {B} k (f : composer -> composer) (m : unit -> C B) Q :
  (forall c, core (f c) = f (core c)) -> runs (f k) (m tt) Q -> runs k (cbind (update f) m) Q.
Proof using Type. intros Hf H c b c' Hc E. apply (H (f c) b c'); [by rewrite Hf, Hc|exact E]. Qed.

Lemma runs_update_last k (f : composer -> composer) (Q : unit -> composer -> Prop) :
  (forall c, core (f c) = f (core c)) -> Q tt (f k) -> runs k (update f) Q.
Proof using Type. intros Hf H. apply triple_update. intros c <-. by rewrite Hf. Qed.

Lemma runs_hw {A B} k (h : op hardware A) (m : A -> C B) Q : (forall a, runs k (m a) Q) -> runs k (cbind (in_hw h) m) Q.
Proof using Type.
  intros H c b c' Hc E. unfold cbind, in_hw in E. destruct (h (hw c)) as [[a h']|]; [|done]. by apply (H a (set_hw h' c) b c').
Qed.

Lemma runs_hw_last {A} k (h : op hardware A) (Q : A -> composer -> Prop) : (forall a, Q a k) -> runs k (in_hw h) Q.
Proof using Type. intros H c a c' <- E. unfold in_hw in E. destruct (h (hw c)) as [[a' h']|]; [|done]. injection E as <- <-. apply (H a'). Qed.

Lemma runs_undefined {A} k (Q : A -> composer -> Prop) : runs k (fun _ => None) Q.
Proof using Type. by intros c a c' _ [=]. Qed.

Lemma runs_core {A} (m : C A) Q : (forall k, runs k m Q) -> forall c a c', m c = Some (a, c') -> Q a (core c').
Proof using Type. intros H c a c' E. by apply (H (core c) c a c'). Qed.
End Composer.

Ltac settle := cbv beta iota delta [set_mMode set_mMipiPolicy set_mMipiOn set_mConnectStatus set_mHdmiPolicy set_mVideo set_mVideoState set_mWidiVideoExt
  mMode mDrmInit mDisplayCapability mHdmiPolicy mMipiPolicy mMipiOn mMipiReq hw
  mWidiVideoExt mListener mConnectStatus mVideo mVideoState mSurfaceComposer mScaleMode mScaleStepX mScaleStepY].

(** Every condition splits the run. *)
Ltac run_with settled :=
  cbv beta zeta;
  lazymatch goal with
  | |- runs _ (cbind (cbind _ _) _) _ => apply runs_assoc; run_with settled
  | |- runs _ (cbind (cret _) _) _ => apply runs_ret_bind; run_with settled
  | |- runs _ (cbind (get _) _) _ => apply runs_get; [reflexivity|]; settled; run_with settled
  | |- runs _ (cbind (update _) _) _ => apply runs_update; [reflexivity|]; settled; run_with settled
  | |- runs _ (cbind (in_hw _) _) _ => apply runs_hw; intros ?; run_with settled
  | |- runs _ (cbind (if ?b then _ else _) _) _ =>
      lazymatch type of b with bool => destruct b eqn:?; run_with settled end
  | |- runs _ (if ?b then _ else _) _ => destruct b eqn:?; run_with settled
  | |- runs _ (cbind (match ?x with _ => _ end) _) _ => destruct x; run_with settled
  | |- runs _ (match ?x with _ => _ end) _ => destruct x; run_with settled
  | |- runs _ (cret _) _ => apply runs_ret
  | |- runs _ (get _) _ => apply runs_get_last; [reflexivity|]
  | |- runs _ (update _) _ => apply runs_update_last; [reflexivity|]
  | |- runs _ (in_hw _) _ => apply runs_hw_last; intros ?
  | |- runs _ (fun _ => None) _ => apply runs_undefined
  | |- _ => idtac
  end.

(** On a state whose fields are known, and on any state. *)
Ltac run := run_with settle.
Ltac run_raw := run_with idtac.

(** Ends a run: the fields agree, and so do the codes, under the conditions that were met. *)
Ltac ends :=
  repeat match goal with H : mMode _ = encode _ |- _ => rewrite ?H in *; clear H end;
  repeat match goal with H : checkMode _ _ = _ |- _ => revert H end;
  repeat match goal with H : (Z.land _ _ =? 0) = _ |- _ => revert H end;
  repeat match goal with a : mode_state |- _ => destruct a as [[] [|[]|[]|[]] [] []] end;
  vm_compute; intros; first [done|congruence].

(** ** Switching HDMI *)

Section Switching.
Context {interface : Type}.
#[local] Abbreviation composer := (@composer interface).
#[local] Abbreviation outside := (@outside interface).

Context (hdr : drm_header) (DRM_MODE_CONNECTOR_MIPI : Z) (ENABLE_HDCP DVI_SUPPORTED : bool) (o : outside).

Implicit Types (k c : composer) (a : mode_state).

(** [k] with the code of [a] and other values for what switching changes. *)
Definition switched a (policy : Z) (on : bool) (status : Z) k : composer :=
  set_mMode (encode a) (set_mMipiPolicy policy (set_mMipiOn on (set_mConnectStatus status k))).

Lemma switched_same k a : mMode k = encode a -> switched a (mMipiPolicy k) (mMipiOn k) (mConnectStatus k) k = k.
Proof using Type. intros H. unfold switched, set_mMode. cbn. rewrite <-H. by destruct k. Qed.

Lemma runs_announce k Q : Q tt k -> runs k announce Q.
Proof using Type. intros H. unfold announce, tell_mode, broadcastMessage_l. run. by destruct a. Qed.

Lemma runs_announce_bind {B} k (m : unit -> op composer B) Q : runs k (m tt) Q -> runs k (cbind announce m) Q.
Proof using Type. intros H. unfold announce, tell_mode, broadcastMessage_l. run. by destruct a. Qed.

Lemma runs_tell_bind {B} k mode (m : unit -> op composer B) Q : runs k (m tt) Q -> runs k (cbind (tell_mode mode) m) Q.
Proof using Type. intros H. unfold tell_mode, broadcastMessage_l. run. by destruct a. Qed.

Lemma turn_on_mipi_runs k a : mMode k = encode a ->
  runs k (turn_on_mipi DRM_MODE_CONNECTOR_MIPI o)
    (fun _ k' => k' = switched (set_panel true a) MDS_MIPI_OFF_NOT_ALLOWED (if panel a then mMipiOn k else true) (mConnectStatus k) k).
Proof using Type.
  intros Ha. unfold turn_on_mipi, set_bit, clear_bit. destruct k. cbn in Ha. run; subst; ends.
Qed.

Lemma hdmi_disconnected_runs k a status : mMode k = encode a ->
  runs k (hdmi_disconnected ENABLE_HDCP o status)
    (fun r k' => r = MDS_NO_ERROR /\ k' = switched (set_hdmi Unplugged a) (mMipiPolicy k) (mMipiOn k) status k).
Proof using Type.
  intros Ha. unfold hdmi_disconnected, set_bit, clear_bit, announce, tell_mode, broadcastMessage_l. destruct k. cbn in Ha.
  run; subst; (split; [done|]); ends.
Qed.

(** A display that is connected is there in [a] but for its bit of the mode. *)
Definition blanked (s : hdmi_state) : hdmi_state :=
  match s with Unplugged => Blank false | Blank b => Blank b | Cloned _ => Blank true | Extended _ => Blank false end.

Lemma hdmi_not_allowed_runs k a status notify : mMode k = Z.lor (encode a) MDS_HDMI_CONNECTED ->
  runs k (hdmi_not_allowed ENABLE_HDCP o status notify)
    (fun r k' => r = MDS_NO_ERROR /\ exists status', k' = switched (set_hdmi (blanked (hdmi a)) a) (mMipiPolicy k) (mMipiOn k) status' k).
Proof using Type.
  intros Ha. unfold hdmi_not_allowed, set_bit, clear_bit, announce, tell_mode, broadcastMessage_l. destruct k. cbn in Ha.
  run; subst; (split; [done|]); eexists; ends.
Qed.

Lemma runs_timing_bind {B} k is_playing (m : unit -> op composer B) Q : runs k (m tt) Q -> runs k (cbind (set_timing hdr o is_playing) m) Q.
Proof using Type. intros H. unfold set_timing, setHdmiTiming_l. run; try exact H. Qed.

Ltac run_on := run; try (first [apply runs_announce_bind|apply runs_tell_bind|apply runs_timing_bind]; run_on).

Definition shown (is_playing hdcp : bool) (s : hdmi_state) : hdmi_state :=
  match is_playing, s with true, Extended h => Extended h | true, _ => Extended hdcp | false, Cloned h => Cloned h | false, _ => Cloned hdcp end.

(** The mode while HDMI changes. *)
Definition changing a (hdcp : bool) : Z := Z.lor (Z.ldiff (Z.lor (encode a) MDS_HDMI_CONNECTED) MDS_HDCP_ON) (bit_if hdcp MDS_HDCP_ON).

Lemma protect_runs k a is_playing : mMode k = Z.lor (encode a) MDS_HDMI_CONNECTED ->
  runs k (protect hdr ENABLE_HDCP o is_playing) (fun _ k' => exists hdcp, k' = set_mMode (changing a hdcp) k).
Proof using Type.
  intros Ha. unfold protect, set_bit, clear_bit. destruct k. cbn in Ha. subst. run_on; [exists true|exists false|exists true|exists false]; ends.
Qed.

Definition already (is_playing : bool) (s : hdmi_state) : bool :=
  match is_playing, s with true, Extended _ | false, Cloned _ => true | _, _ => false end.

Lemma show_runs k a is_playing hdcp : mMode k = changing a hdcp -> already is_playing (hdmi a) = false ->
  runs k (show o is_playing)
    (fun _ k' => k' = switched (set_hdmi (shown is_playing hdcp (hdmi a)) a) (if is_playing then MDS_MIPI_OFF_ALLOWED else mMipiPolicy k)
                        (mMipiOn k) (mConnectStatus k) k).
Proof using Type.
  intros Ha Hs. unfold show, set_bit, clear_bit. destruct k. cbn in Ha. subst. destruct is_playing, hdcp.
  all: run_on; try apply runs_announce; revert Hs; ends.
Qed.

Definition allowed_policy (is_playing : bool) (s : hdmi_state) (policy : Z) : Z :=
  if is_playing && negb (already is_playing s) then MDS_MIPI_OFF_ALLOWED else policy.

Lemma already_code a is_playing :
  is_playing && checkMode (Z.lor (encode a) MDS_HDMI_CONNECTED) MDS_HDMI_VIDEO_EXT
  || negb is_playing && checkMode (Z.lor (encode a) MDS_HDMI_CONNECTED) MDS_HDMI_CLONE = already is_playing (hdmi a).
Proof using Type. destruct is_playing; codes. Qed.

Lemma already_shown is_playing hdcp a : already is_playing (hdmi a) = true ->
  Z.lor (encode a) MDS_HDMI_CONNECTED = encode (set_hdmi (shown is_playing hdcp (hdmi a)) a).
Proof using Type. intros H. destruct a as [[] [|[]|[]|[]] [] []], is_playing; try discriminate H; by vm_compute. Qed.

Lemma hdmi_allowed_runs k a status is_playing notify : mMode k = Z.lor (encode a) MDS_HDMI_CONNECTED ->
  runs k (hdmi_allowed hdr ENABLE_HDCP o status is_playing notify)
    (fun r k' => r = MDS_NO_ERROR /\ exists hdcp, k' = switched (set_hdmi (shown is_playing hdcp (hdmi a)) a)
      (allowed_policy is_playing (hdmi a) (mMipiPolicy k)) (mMipiOn k) status k).
Proof using Type.
  intros Ha. unfold hdmi_allowed, allowed_policy. destruct k. cbn in Ha. subst. run; settle; rewrite already_code in *.
  - apply runs_announce_bind, runs_ret. split; [done|]. exists false. rewrite Heqb, andb_false_r.
    unfold switched. by rewrite <-(already_shown is_playing) by done.
  - unfold hdmi_transition. run. apply runs_tell_bind.
    eapply runs_bind; [by apply (protect_runs _ a)|]. intros _ k' [hdcp ->].
    eapply runs_bind; [by apply (show_runs _ a is_playing hdcp)|]. intros _ k' ->.
    run; (split; [done|]); exists hdcp; rewrite Heqb; by destruct is_playing.
Qed.

Lemma runs_mono {A} k (m : op composer A) (Q Q' : A -> composer -> Prop) : runs k m Q' -> (forall x k', Q' x k' -> Q x k') -> runs k m Q.
Proof using Type. intros H HQ. eapply triple_post; [exact H|]. cbn. auto. Qed.

Definition is_allowed (policy : Z) : bool := negb (policy =? MDS_HDMI_ON_NOT_ALLOWED).

Lemma video_bit_runs k a (b : bool) : mMode k = encode a ->
  runs k (if b then set_bit MDS_VIDEO_PLAYING else clear_bit MDS_VIDEO_PLAYING) (fun _ k' => k' = set_mMode (encode (set_playing b a)) k).
Proof using Type. intros Ha. unfold set_bit, clear_bit. destruct k. cbn in Ha. subst. run; ends. Qed.

Lemma connected_code a : Z.lor (encode (set_panel true a)) MDS_HDMI_CONNECTED = Z.lor MDS_MIPI_ON (Z.lor (encode a) MDS_HDMI_CONNECTED).
Proof using Type. codes. Qed.

(** Switching HDMI is a step of the abstract state, for some answer to whether the content can be
    protected; nothing else of the service changes but what it remembers of the panel and of the
    connection. *)
Lemma switch_hdmi_runs k a p status (al := is_allowed (mHdmiPolicy k)) : mMode k = encode a ->
  runs k (switch_hdmi hdr DRM_MODE_CONNECTOR_MIPI ENABLE_HDCP DVI_SUPPORTED o p status) (fun r k' =>
    exists hdcp policy on status',
      k' = switched (next_state DVI_SUPPORTED status al p hdcp a) policy on status' k /\
      (on = mMipiOn k \/ on = true /\ panel (next_state DVI_SUPPORTED status al p hdcp a) = true) /\
      r = if negb DVI_SUPPORTED && (status =? DRM_DVI_CONNECTED) then MDS_ERROR else MDS_NO_ERROR).
Proof using Type.
  intros Ha. unfold switch_hdmi, next_state. destruct (negb DVI_SUPPORTED && (status =? DRM_DVI_CONNECTED)).
  { apply runs_announce_bind. run_raw. exists false, (mMipiPolicy k), (mMipiOn k), status. split_and!; [|by left|done].
    rewrite <-(switched_same k a Ha) at 1. by destruct k. }
  apply runs_get; [done|]. rewrite <-(negb_involutive (mHdmiPolicy k =? MDS_HDMI_ON_NOT_ALLOWED)). fold (is_allowed (mHdmiPolicy k)). fold al.
  set (a1 := if (status =? DRM_HDMI_DISCONNECTED) || negb al || negb p then set_panel true a else a).
  eapply (runs_bind _ _ _ (fun _ k' => exists policy on, k' = switched a1 policy on (mConnectStatus k) k /\ (on = mMipiOn k \/ on = true /\ panel a1 = true))).
  { subst a1. destruct (_ || negb p).
    - eapply runs_mono; [by apply turn_on_mipi_runs|]. cbn beta. intros _ k' ->. eexists _, _. split; [reflexivity|].
      destruct (panel _); [by left|by right].
    - apply runs_ret. exists (mMipiPolicy k), (mMipiOn k). split; [|by left]. by rewrite switched_same. }
  intros _ k' (policy & on & -> & Hon). unfold next_hdmi. destruct (status =? DRM_HDMI_DISCONNECTED).
  { eapply runs_mono; [by apply (hdmi_disconnected_runs _ a1)|]. cbn beta. intros r k' [-> ->].
    exists false, policy, on, status. done. }
  apply runs_get; [done|]. cbv zeta. unfold set_bit. apply runs_update; [done|]. destruct (negb al).
  - eapply runs_mono; [by apply (hdmi_not_allowed_runs _ a1)|]. cbn beta. intros r k' [-> [status' ->]].
    exists false, policy, on, status'. done.
  - eapply runs_mono; [by apply (hdmi_allowed_runs _ a1)|]. cbn beta. intros r k' [-> [hdcp ->]].
    exists hdcp, (allowed_policy p (hdmi a1) policy), on, status. done.
Qed.

(** ** The invariant *)

(** The mode is the code of [a], which agrees with the video and with the wireless display. *)
Definition coded a k : Prop := mMode k = encode a /\ playing a = isPlaying (mVideo k) /\ widi a = mWidiVideoExt k.

(** What the invariant is about, and switching leaves alone. *)
Definition rest k := (mDrmInit k, mHdmiPolicy k, mListener k, mVideo k, mWidiVideoExt k).

Lemma setHdmiMode_coded k a : mMode k = encode a -> widi a = mWidiVideoExt k ->
  runs k (setHdmiMode_l hdr DRM_MODE_CONNECTOR_MIPI ENABLE_HDCP DVI_SUPPORTED o) (fun _ k' =>
    rest k' = rest k /\ exists a', coded a' k' /\ ((mMipiOn k = true -> panel a = true) -> mMipiOn k' = true -> panel a' = true)).
Proof using Type.
  intros Ha Hw. unfold setHdmiMode_l. apply runs_get; [done|]. cbv zeta.
  eapply runs_bind; [by apply video_bit_runs|]. intros _ k1 ->. apply runs_hw. intros status.
  eapply runs_mono; [by apply switch_hdmi_runs|]. cbn beta. intros _ k' (hdcp & policy & on & status' & -> & Hon & _).
  split; [by destruct k|]. eexists. split; [split; [reflexivity|]|].
  - unfold next_state. destruct (negb DVI_SUPPORTED && _); [by split|]. destruct (_ || negb (isPlaying _)); by split.
  - intros Hp. cbn [switched mMipiOn set_mMode set_mMipiPolicy set_mMipiOn set_mConnectStatus]. intros ->.
    destruct Hon as [Hon|[_ Hon]]; [|exact Hon]. specialize (Hp (eq_sym Hon)).
    unfold next_state. destruct (negb DVI_SUPPORTED && _); [done|]. by destruct (_ || negb (isPlaying _)).
Qed.

Definition service_ok k : Prop :=
  mDrmInit k = true /\ StronglySorted Z.lt (map fst (mListener k)) /\ 0 <= mHdmiPolicy k <= 1 /\
  exists a, coded a k /\ (mMipiOn k = true -> panel a = true).

Lemma service_ok_switched k k' a : service_ok k -> rest k' = rest k -> coded a k' -> (mMipiOn k' = true -> panel a = true) -> service_ok k'.
Proof using Type. intros (H1 & H2 & H3 & _) [= E1 E2 E3 _ _] Ha Hp. unfold service_ok. rewrite E1, E2, E3. split_and!; try tauto. by exists a. Qed.

Lemma setHdmiMode_ok k : service_ok k ->
  runs k (setHdmiMode_l hdr DRM_MODE_CONNECTOR_MIPI ENABLE_HDCP DVI_SUPPORTED o) (fun _ => service_ok).
Proof using Type.
  intros Hk. pose proof Hk as (_ & _ & _ & a & (Ha & _ & Hw) & Hp). eapply runs_mono; [by apply (setHdmiMode_coded k a)|].
  cbn beta. intros _ k' (Hr & a' & Ha' & Hp'). eapply service_ok_switched; eauto.
Qed.

(** Switching the panel. *)
Lemma panel_code a (b : bool) : (if b then Z.lor (encode a) MDS_MIPI_ON else Z.ldiff (encode a) MDS_MIPI_ON) = encode (set_panel b a).
Proof using Type. destruct b; codes. Qed.

Lemma panel_ok k (b on : bool) : service_ok k -> (on = true -> b = true) ->
  service_ok (set_mMipiOn on (set_mMode (if b then Z.lor (mMode k) MDS_MIPI_ON else Z.ldiff (mMode k) MDS_MIPI_ON) k)).
Proof using Type.
  intros (H1 & H2 & H3 & a & (Ha & Hv & Hw) & _) Hb. split_and!; try done; try apply H3. exists (set_panel b a). split; [|exact Hb].
  split_and!; [|exact Hv|exact Hw]. cbn. by rewrite Ha, panel_code.
Qed.

Lemma policy_ok k policy : service_ok k -> service_ok (set_mMipiPolicy policy k).
Proof using Type. done. Qed.

Lemma setModePolicy_ok k policy : service_ok k ->
  runs k (setModePolicy_l hdr DRM_MODE_CONNECTOR_MIPI ENABLE_HDCP DVI_SUPPORTED o policy) (fun _ => service_ok).
Proof using Type.
  intros Hk. unfold setModePolicy_l, set_bit, clear_bit. destruct (_ || _) eqn:Ep.
  - apply runs_update; [done|]. apply setHdmiMode_ok. destruct Hk as (H1 & H2 & _ & Ha). split_and!; try done; cbn.
    all: unfold MDS_HDMI_ON_NOT_ALLOWED, MDS_HDMI_ON_ALLOWED in Ep; bprop; lia.
  - destruct (policy =? MDS_MIPI_OFF_NOT_ALLOWED); [|destruct (policy =? MDS_MIPI_OFF_ALLOWED)]; [| |by apply runs_ret].
    all: run; apply runs_announce_bind, runs_ret.
    1, 2: by apply (panel_ok (set_mMipiPolicy policy k) true true).
    all: by apply (panel_ok (set_mMipiPolicy policy k) false false).
Qed.

(** Fields that the invariant does not mention. *)
Lemma service_ok_same k k' : service_ok k -> mMode k' = mMode k -> mMipiOn k' = mMipiOn k -> rest k' = rest k -> service_ok k'.
Proof using Type.
  intros Hk Hm Ho Hr. pose proof Hk as (_ & _ & _ & a & (H1 & H2 & H3) & Hp). injection Hr as E1 E2 E3 E4 E5.
  apply (service_ok_switched k k' a Hk); [by unfold rest; rewrite E1, E2, E3, E4, E5| |by rewrite Ho].
  split_and!; [by rewrite Hm|by rewrite E4|by rewrite E5].
Qed.

Lemma setDisplayScaling_ok k mode x y : service_ok k -> runs k (setDisplayScalingLocked o mode x y) (fun _ => service_ok).
Proof using Type. intros Hk. unfold setDisplayScalingLocked. run_raw; by apply (service_ok_same k). Qed.

Lemma setMipiMode_ok k on : service_ok k -> runs k (setMipiMode_l DRM_MODE_CONNECTOR_MIPI o on) (fun _ => service_ok).
Proof using Type.
  intros Hk. unfold setMipiMode_l, set_bit, clear_bit. run_raw.
  all: try (apply runs_announce_bind, runs_ret); try exact Hk.
  all: first [exact (panel_ok k true true Hk (fun _ => eq_refl))|exact (panel_ok k false false Hk (fun H => H))|idtac].
  (* the panel that may not be switched off *)
  destruct Hk as (H1 & H2 & H3 & a & Ha & _). split_and!; try done; try apply H3. by exists a.
Qed.

Lemma notifyWidi_ok k on : service_ok k -> runs k (notifyWidi on) (fun _ => service_ok).
Proof using Type.
  intros (H1 & H2 & H3 & a & (Ha & Hv & _) & Hp). unfold notifyWidi, set_bit, clear_bit. run_raw.
  all: split_and!; try done; try apply H3; exists (set_widi on a); (split; [|exact Hp]); (split; [|by split]); subst on.
  - transitivity (Z.lor (mMode k) MDS_WIDI_ON); [done|]. rewrite Ha. codes.
  - transitivity (Z.ldiff (mMode k) MDS_WIDI_ON); [done|]. rewrite Ha. codes.
Qed.

(** A new video is announced by switching. *)
Lemma new_video_ok k v : service_ok k ->
  runs (set_mVideo v k) (setHdmiMode_l hdr DRM_MODE_CONNECTOR_MIPI ENABLE_HDCP DVI_SUPPORTED o) (fun _ => service_ok).
Proof using Type.
  intros Hk. pose proof Hk as (H1 & H2 & H3 & a & (Ha & _ & Hw) & Hp). eapply runs_mono; [by apply (setHdmiMode_coded _ a)|].
  cbn beta. intros _ k' (Hr & a' & Ha' & Hp'). injection Hr as E1 E2 E3 _ _.
  unfold service_ok. rewrite E1, E2, E3. split_and!; try done; try apply H3. exists a'. split; [exact Ha'|by apply Hp'].
Qed.

Lemma prepareForVideo_ok k status : service_ok k ->
  runs k (prepareForVideo hdr DRM_MODE_CONNECTOR_MIPI ENABLE_HDCP DVI_SUPPORTED o status) (fun _ => service_ok).
Proof using Type.
  intros Hk. unfold prepareForVideo, broadcastMessage_l. run_raw; try exact Hk.
  by apply (new_video_ok (set_mVideoState status k) zero_video), (service_ok_same k).
Qed.

Lemma notifyHotPlug_ok k : service_ok k ->
  runs k (notifyHotPlug hdr DRM_MODE_CONNECTOR_MIPI ENABLE_HDCP DVI_SUPPORTED o) (fun _ => service_ok).
Proof using Type.
  intros Hk. unfold notifyHotPlug. eapply runs_bind; [by apply setHdmiMode_ok|]. intros r k' Hk'. run_raw; [|done].
  eapply runs_bind; [by apply setDisplayScaling_ok|]. intros ? k2 Hk2. by apply runs_ret_bind, runs_ret.
Qed.

Lemma listeners_ok k ls : service_ok k -> StronglySorted Z.lt (map fst ls) -> service_ok (set_mListener ls k).
Proof using Type. intros (H1 & _ & H3 & a & Ha) Hl. split_and!; try done; try apply H3. by exists a. Qed.

Lemma registerListener_ok k l handle name msg : service_ok k -> runs k (registerListener l handle name msg) (fun _ => service_ok).
Proof using Type.
  intros Hk. unfold registerListener. run_raw; try exact Hk. apply listeners_ok; [exact Hk|]. apply keyed_add_sorted, Hk.
Qed.

Lemma unregisterListener_ok k handle : service_ok k -> runs k (unregisterListener handle) (fun _ => service_ok).
Proof using Type. intros Hk. unfold unregisterListener. run_raw. apply listeners_ok; [exact Hk|]. apply keyed_remove_sorted, Hk. Qed.

Lemma setHdmiModeInfo_ok k t : service_ok k -> runs k (setHdmiModeInfo hdr o t) (fun _ => service_ok).
Proof using Type. intros Hk. unfold setHdmiModeInfo, setHdmiTiming_l. run_raw; by apply runs_announce_bind, runs_ret. Qed.

Lemma scale_ok k type : service_ok k -> runs k (setHdmiScaleType o type) (fun _ => service_ok).
Proof using Type. intros Hk. unfold setHdmiScaleType. run_raw. by apply setDisplayScaling_ok, (service_ok_same k). Qed.

Lemma step_scale_ok k h v : service_ok k -> runs k (setHdmiScaleStep o h v) (fun _ => service_ok).
Proof using Type. intros Hk. unfold setHdmiScaleStep. run_raw. by apply setDisplayScaling_ok, (service_ok_same k). Qed.

Lemma runs_checked k m Q : Q MDS_ERROR k -> runs k m Q -> runs k (checked m) Q.
Proof using Type. intros H0 H. unfold checked. run_raw; [exact H0|exact H]. Qed.

Lemma runs_status k m (Q : composer -> Prop) : runs k m (fun _ => Q) -> runs k (status m) (fun _ => Q).
Proof using Type. intros H. unfold status. eapply runs_bind; [exact H|]. intros r k' Hk. by apply runs_ret. Qed.

Lemma serve_ok k r : service_ok k ->
  runs k (serve hdr DRM_MODE_CONNECTOR_MIPI ENABLE_HDCP DVI_SUPPORTED o r) (fun _ => service_ok).
Proof using Type.
  intros Hk. destruct r; cbn [serve].
  all: try (apply runs_status; first [apply runs_checked; [exact Hk|]|idtac]).
  all: first [by apply notifyWidi_ok|by apply prepareForVideo_ok|by apply notifyHotPlug_ok|by apply setModePolicy_ok|by apply registerListener_ok
    |by apply unregisterListener_ok|by apply setHdmiModeInfo_ok|by apply scale_ok|by apply step_scale_ok|idtac].
  all: unfold getMode, notifyMipi, getVideoState, updateVideoInfo, setHdmiPowerOff, guarded, getHdmiModeInfo, getHdmiDeviceChange, getVideoInfo, getDisplayCapability.
  all: run_raw; try (by apply (service_ok_same k)). by apply new_video_ok.
Qed.

(** ** The start *)

(** The invariant but for what is remembered of the panel. *)
Definition started k : Prop :=
  mDrmInit k = true /\ StronglySorted Z.lt (map fst (mListener k)) /\ 0 <= mHdmiPolicy k <= 1 /\ exists a, coded a k.

Lemma setHdmiMode_started k : started k ->
  runs k (setHdmiMode_l hdr DRM_MODE_CONNECTOR_MIPI ENABLE_HDCP DVI_SUPPORTED o) (fun _ => started).
Proof using Type.
  intros (H1 & H2 & H3 & a & Ha & _ & Hw). eapply runs_mono; [by apply (setHdmiMode_coded k a)|].
  cbn beta. intros _ k' ([= E1 E2 E3 _ _] & a' & Ha' & _). unfold started. rewrite E1, E2, E3. split_and!; try done; try apply H3. by exists a'.
Qed.

Lemma allow_hdmi_started k : started k ->
  runs k (setModePolicy_l hdr DRM_MODE_CONNECTOR_MIPI ENABLE_HDCP DVI_SUPPORTED o MDS_HDMI_ON_ALLOWED) (fun _ => started).
Proof using Type.
  intros (H1 & H2 & H3 & a & Ha). unfold setModePolicy_l. cbn [MDS_HDMI_ON_ALLOWED Z.eqb Pos.eqb orb MDS_HDMI_ON_NOT_ALLOWED].
  apply runs_update; [done|]. apply setHdmiMode_started. split_and!; try done. by exists a.
Qed.

Lemma keep_mipi_on_ok k : started k ->
  runs k (setModePolicy_l hdr DRM_MODE_CONNECTOR_MIPI ENABLE_HDCP DVI_SUPPORTED o MDS_MIPI_OFF_NOT_ALLOWED) (fun _ => service_ok).
Proof using Type.
  intros (H1 & H2 & H3 & a & Ha & Hv & Hw). unfold setModePolicy_l, set_bit.
  cbn [MDS_HDMI_ON_ALLOWED MDS_MIPI_OFF_NOT_ALLOWED Z.eqb Pos.eqb orb MDS_HDMI_ON_NOT_ALLOWED].
  run_raw; apply runs_announce_bind, runs_ret; split_and!; try done; try apply H3; exists (set_panel true a); (split; [|done]).
  all: split_and!; [|exact Hv|exact Hw]; rewrite <-(panel_code a true), <-Ha; reflexivity.
Qed.

Lemma start_runs k fd : mDrmInit k = false -> StronglySorted Z.lt (map fst (mListener k)) -> 0 <= mHdmiPolicy k <= 1 -> (exists a, coded a k) ->
  runs k (initialize_l hdr DRM_MODE_CONNECTOR_MIPI ENABLE_HDCP DVI_SUPPORTED o fd) (fun _ k' => mDrmInit k' = true -> service_ok k').
Proof using Type.
  intros H1 H2 H3 [a Ha]. unfold initialize_l. apply runs_hw. intros ok. destruct (negb ok); [apply runs_ret; by rewrite H1|].
  apply runs_update; [done|]. apply runs_hw. intros supported.
  eapply (runs_bind _ _ _ (fun _ => started)).
  - destruct supported.
    + apply runs_update; [done|]. eapply runs_bind; [apply allow_hdmi_started|].
      * split_and!; try done; try apply H3. by exists a.
      * intros ? k' Hk'. by apply runs_ret.
    + apply runs_ret. split_and!; try done; try apply H3. by exists a.
  - intros ? k' Hk'. eapply runs_bind; [by apply keep_mipi_on_ok|]. intros ? k2 Hk2. by apply runs_ret.
Qed.
End Switching.

(** ** The states the service can reach *)

Section Reachable.
Context {interface : Type}.
#[local] Abbreviation composer := (@composer interface).
#[local] Abbreviation system := (@system interface).
Context (hdr : drm_header) (DRM_MODE_CONNECTOR_MIPI : Z) (ENABLE_HDCP DVI_SUPPORTED : bool).
Implicit Types (k c : composer).

(** Without the driver nothing happens, and there is no thread. *)
Definition system_ok (s : system) : Prop :=
  if mDrmInit (service s) then service_ok (service s) else mipi_thread s = None.

Lemma service_ok_core c : service_ok (core c) <-> service_ok c.
Proof using Type. done. Qed.

Lemma service_start_ok o fd video_state c :
  MultiDisplayComposer hdr DRM_MODE_CONNECTOR_MIPI ENABLE_HDCP DVI_SUPPORTED o fd video_state (mkHw CtpDrm.zero_context 0 []) = Some c ->
  system_ok (mkSystem c None).
Proof using Type.
  unfold MultiDisplayComposer. destruct (initialize_l _ _ _ _ _ _ _) as [[u c1]|] eqn:E; [|done]. intros [= <-].
  unfold system_ok. cbn [service mipi_thread snd]. destruct (mDrmInit c1) eqn:Ei; [|done]. apply service_ok_core.
  refine (start_runs hdr DRM_MODE_CONNECTOR_MIPI ENABLE_HDCP DVI_SUPPORTED o _ fd _ _ _ _ _ u c1 (eq_refl _) E Ei); cbn; [done|apply SSorted_nil|unfold MDS_HDMI_ON_ALLOWED; lia|].
  exists (mkState false Unplugged false false). by split_and!.
Qed.

Lemma refused o r c a c' : mDrmInit c = false -> serve hdr DRM_MODE_CONNECTOR_MIPI ENABLE_HDCP DVI_SUPPORTED o r c = Some (a, c') -> c' = c.
Proof using Type.
  intros Hi H. destruct r; cbn [serve] in H; unfold CtpComposer.status, guarded, checked, getDisplayCapability, cbind, get, cret in H; rewrite ?Hi in H; cbn [negb] in H;
    by injection H as _ <-.
Qed.

Lemma step_ok s s' : step hdr DRM_MODE_CONNECTOR_MIPI ENABLE_HDCP DVI_SUPPORTED s s' -> system_ok s -> system_ok s'.
Proof using Type.
  unfold system_ok. destruct 1 as [o r c a c' t H|c b c' Hi H|o on c a c' H|o c u c' t Ht H]; cbn [service mipi_thread].
  - destruct (mDrmInit c) eqn:Hi; [|intros ->; rewrite (refused _ _ _ _ _ Hi H), Hi; done]. intros Hc.
    assert (Hc' : service_ok c') by exact (serve_ok hdr DRM_MODE_CONNECTOR_MIPI ENABLE_HDCP DVI_SUPPORTED o (core c) r Hc c a c' eq_refl H).
    by rewrite (proj1 Hc').
  - rewrite Hi. intros Hc. injection H as _ <-. cbn [mDrmInit set_mMipiReq]. rewrite Hi. by apply (service_ok_same c).
  - destruct (mDrmInit c) eqn:Hi; [|done]. intros Hc.
    assert (Hc' : service_ok c') by exact (setMipiMode_ok DRM_MODE_CONNECTOR_MIPI o (core c) on Hc c a c' eq_refl H).
    by rewrite (proj1 Hc').
  - unfold in_hw in H. destruct (drm_hdcp_check_link_status _ _ _) as [[u' h]|]; [|done]. injection H as _ <-. done.
Qed.

Lemma reachable_ok (s : system) : reachable hdr DRM_MODE_CONNECTOR_MIPI ENABLE_HDCP DVI_SUPPORTED s -> system_ok s.
Proof using Type. induction 1 as [o fd v c H|s1 s2 _ IH H]; [by eapply service_start_ok|by eapply step_ok]. Qed.

(** C27: Whatever is asked of the service, whatever is connected meanwhile and whenever the thread and the
    timer take their turns: the mode of the displays is the code of a state, in which a display shows
    the panel or a video only while it is connected and on, the overlay is off unless a video plays
    on it, and content is protected only there; the state agrees with the video and the wireless
    display that were announced last, and a panel that is taken for on is on. *)
Theorem reachable_modes_are_states (s : system) :
  reachable hdr DRM_MODE_CONNECTOR_MIPI ENABLE_HDCP DVI_SUPPORTED s -> mDrmInit (service s) = true ->
  exists a, mMode (service s) = encode a /\ playing a = isPlaying (mVideo (service s)) /\ widi a = mWidiVideoExt (service s) /\
    (mMipiOn (service s) = true -> panel a = true) /\ StronglySorted Z.lt (map fst (mListener (service s))).
Proof using Type.
  intros Hs Hi. apply reachable_ok in Hs. unfold system_ok in Hs. rewrite Hi in Hs.
  destruct Hs as (_ & H2 & _ & a & (Ha & Hv & Hw) & Hp). by exists a.
Qed.
End Reachable.

(** ** What listeners are told *)

Section Told.
Context {interface : Type}.
#[local] Abbreviation composer := (@composer interface).
#[local] Abbreviation event := (@event interface).
#[local] Abbreviation hardware := (@hardware interface).
#[local] Abbreviation outside := (@outside interface).
Context (hdr : drm_header) (DRM_MODE_CONNECTOR_MIPI : Z) (ENABLE_HDCP DVI_SUPPORTED : bool) (o : outside).
Implicit Types (c : composer) (es : list event) (e : event).

Definition mode_message (e : event) : Prop := exists i v, e = OnMdsMessage i MDS_MODE_CHANGE (IntValue v).

(** Every listener for modes was told the mode, and nothing else after that. *)
Definition told c : Prop :=
  forall k l i, (k, l) ∈ mListener c -> checkMsg MDS_MODE_CHANGE l = true -> l_interface l = Some i ->
    exists es es', sent (hw c) = es ++ OnMdsMessage i MDS_MODE_CHANGE (IntValue (mMode c)) :: es' /\
      forall e j v, e ∈ es' -> e = OnMdsMessage j MDS_MODE_CHANGE (IntValue v) -> v = mMode c.

Lemma messages_mode (ls : list (Z * listener)) v e j w :
  e ∈ messages MDS_MODE_CHANGE (IntValue v) ls -> e = OnMdsMessage j MDS_MODE_CHANGE (IntValue w) -> w = v.
Proof using Type.
  intros Hin ->. unfold messages in Hin. apply list_elem_of_omap in Hin as ([k l] & _ & H). destruct (checkMsg _ _); [|done].
  destruct (l_interface l); [|done]. by injection H as _ ->.
Qed.

Lemma announce_tells : triple (fun _ => True) announce (fun _ => told).
Proof using Type.
  intros c u c' _ [= <- <-] k l i Hin Hm Hi. cbn [hw sent mMode mListener set_hw] in *.
  assert (He : OnMdsMessage i MDS_MODE_CHANGE (IntValue (mMode c)) ∈ messages MDS_MODE_CHANGE (IntValue (mMode c)) (mListener c)).
  { apply list_elem_of_omap. exists (k, l). split; [done|]. by rewrite Hm, Hi. }
  apply list_elem_of_split in He as (es & es' & He). exists (sent (hw c) ++ es), es'. rewrite He, <-app_assoc. split; [done|].
  intros e j v Hin'. apply (messages_mode (mListener c)). rewrite He. set_solver.
Qed.

(** What says nothing about modes. *)
Definition silent es0 (h : hardware) : Prop := exists es, sent h = es0 ++ es /\ forall e, e ∈ es -> ~ mode_message e.

Definition quiet {A} (m : op hardware A) : Prop := forall es0, keeps (silent es0) m.

Lemma quiet_command (d : command) : quiet (drmCommand o d).
Proof using Type.
  intros es0. unfold drmCommand, send, ask. keeps.
  intros h (es & Hs & He). exists (es ++ [Drm d]). cbn. rewrite Hs, app_assoc. split; [done|].
  intros e Hin. apply elem_of_app in Hin as [Hin|Hin]; [by apply He|]. apply list_elem_of_singleton in Hin as ->. intros (i & v & [=]).
Qed.

Lemma quiet_supported (d : command) : quiet (when_supported o d).
Proof using Type.
  intros es0. unfold when_supported, obeyed, drm_hdmi_isSupported. keeps. apply quiet_command.
Qed.

Lemma told_in_hw {A} (m : op hardware A) : quiet m -> keeps told (in_hw m).
Proof using Type.
  intros Hm c a c' Hc H. unfold in_hw in H. destruct (m (hw c)) as [[a' h]|] eqn:E; [|done]. injection H as <- <-.
  intros k l i Hin Hl Hi. destruct (Hc k l i Hin Hl Hi) as (es & es' & Hs & He).
  destruct (Hm (sent (hw c)) (hw c) a' h) as (es2 & Hs2 & He2); [by exists []; rewrite app_nil_r; split; [|set_solver]|exact E|].
  exists es, (es' ++ es2). cbn [hw set_hw mMode]. rewrite Hs2, Hs, <-app_assoc. split; [done|].
  intros e j v Hin' ->. apply elem_of_app in Hin' as [Hin'|Hin']; [by eapply He|]. destruct (He2 _ Hin'). by eexists _, _.
Qed.

(** Only what is done last counts. *)
Lemma tells_bind {A B} (m : op composer A) (f : A -> op composer B) :
  (forall a, triple (fun _ => True) (f a) (fun _ => told)) -> triple (fun _ => True) (cbind m f) (fun _ => told).
Proof using Type. intros H. eapply triple_bind; [|exact H]. by intros c a c' _ _. Qed.

Lemma tells_then {A B} (m : op composer A) (f : A -> op composer B) :
  triple (fun _ => True) m (fun _ => told) -> (forall a, keeps told (f a)) -> triple (fun _ => True) (cbind m f) (fun _ => told).
Proof using Type. intros Hm Hf. eapply triple_bind; [exact Hm|exact Hf]. Qed.

Lemma quiet_disconnected : quiet drm_hdmi_onHdmiDisconnected.
Proof using Type. intros es0. by apply keeps_update. Qed.

Lemma disconnected_tells status : triple (fun _ => True) (hdmi_disconnected ENABLE_HDCP o status) (fun _ => told).
Proof using Type.
  unfold hdmi_disconnected. apply tells_bind. intros mode. destruct (negb _).
  - apply tells_then; [apply announce_tells|]. intros ?. keeps.
  - do 8 (apply tells_bind; intros ?). apply tells_then; [apply announce_tells|]. intros ?. keeps. apply told_in_hw, quiet_disconnected.
Qed.

Lemma not_allowed_tells status notify : triple (fun _ => True) (hdmi_not_allowed ENABLE_HDCP o status notify) (fun _ => told).
Proof using Type.
  unfold hdmi_not_allowed. do 4 (apply tells_bind; intros ?). destruct (negb _).
  - apply tells_then; [apply announce_tells|]. intros ?. keeps.
  - do 5 (apply tells_bind; intros ?). apply tells_then; [apply announce_tells|]. intros ?. keeps. apply told_in_hw, quiet_supported.
Qed.

Lemma show_tells p : triple (fun _ => True) (show o p) (fun _ => told).
Proof using Type. unfold show. do 7 (apply tells_bind; intros ?). apply announce_tells. Qed.

Lemma allowed_tells status p notify : triple (fun _ => True) (hdmi_allowed hdr ENABLE_HDCP o status p notify) (fun _ => told).
Proof using Type.
  unfold hdmi_allowed. do 2 (apply tells_bind; intros ?). destruct (_ || _).
  - apply tells_then; [apply announce_tells|]. intros ?. keeps.
  - unfold hdmi_transition. do 3 (apply tells_bind; intros ?). apply tells_then; [apply show_tells|]. intros ?. keeps.
    apply told_in_hw. intros es0. unfold drm_hdmi_notify_audio_hotplug, obeyed. keeps. apply quiet_command.
Qed.

Lemma switch_tells p status : triple (fun _ => True) (switch_hdmi hdr DRM_MODE_CONNECTOR_MIPI ENABLE_HDCP DVI_SUPPORTED o p status) (fun _ => told).
Proof using Type.
  unfold switch_hdmi. destruct (_ && _); [apply tells_then; [apply announce_tells|]; intros ?; keeps|].
  do 2 (apply tells_bind; intros ?). destruct (_ =? _); [apply disconnected_tells|].
  do 2 (apply tells_bind; intros ?). destruct (_ =? _); [apply not_allowed_tells|apply allowed_tells].
Qed.

(** C26: When the mode is the code of a state and HDMI is switched, the mode becomes the code of the next
    state for what is connected, for the policy and for the video, and for some answer to whether the
    content can be protected; only a DVI display that is not supported is an error; and every
    listener for modes is told the new mode, last of all. *)
Theorem switching_follows_the_display (a : mode_state) c r c' : mMode c = encode a ->
  setHdmiMode_l hdr DRM_MODE_CONNECTOR_MIPI ENABLE_HDCP DVI_SUPPORTED o c = Some (r, c') ->
  exists status h hdcp, let p := isPlaying (mVideo c) in
    drm_hdmi_getConnectionStatus hdr o (hw c) = Some (status, h) /\
    mMode c' = encode (next_state DVI_SUPPORTED status (is_allowed (mHdmiPolicy c)) p hdcp (set_playing p a)) /\
    r = (if negb DVI_SUPPORTED && (status =? DRM_DVI_CONNECTED) then MDS_ERROR else MDS_NO_ERROR) /\ told c'.
Proof using Type.
  intros Ha H. unfold setHdmiMode_l in H. set (p := isPlaying (mVideo c)). unfold cbind at 1, get in H. fold p in H.
  assert (Hbit : (if p then set_bit MDS_VIDEO_PLAYING else clear_bit MDS_VIDEO_PLAYING) c = Some (tt, set_mMode (encode (set_playing p a)) c)).
  { unfold set_bit, clear_bit, update. destruct p; do 3 f_equal; rewrite Ha; codes. }
  unfold cbind at 1 in H. rewrite Hbit in H. unfold cbind at 1, getHdmiPlug_l, in_hw in H. cbn [hw set_mMode] in H.
  destruct (drm_hdmi_getConnectionStatus hdr o (hw c)) as [[status h]|]; [|done].
  exists status, h. pose proof (switch_tells p status _ r c' I H) as Ht.
  destruct (switch_hdmi_runs hdr DRM_MODE_CONNECTOR_MIPI ENABLE_HDCP DVI_SUPPORTED o (set_mMode (encode (set_playing p a)) (core c))
    (set_playing p a) p status eq_refl
    (set_hw h (set_mMode (encode (set_playing p a)) c)) r c' eq_refl H) as (hdcp & policy & on & status' & Hk & _ & Hr).
  exists hdcp. split_and!; [done| |exact Hr|exact Ht]. by change (mMode c') with (mMode (core c')); rewrite Hk.
Qed.
End Told.

(** ** The protection of the content *)

Section Hdcp.
Context {interface : Type}.
#[local] Abbreviation event := (@event interface).
#[local] Abbreviation hardware := (@hardware interface).
#[local] Abbreviation outside := (@outside interface).
Context (hdr : drm_header) (o : outside).
Implicit Types (h : hardware) (es : list event) (e : event).

Definition is_ied e : bool := match e with Drm (DisplayIed _) => true | _ => false end.
Definition is_enable e : bool := match e with Drm EnableHdcp => true | _ => false end.

(** Commands other than for the encryption inside, with at most [n] tries to switch the protection on. *)
Definition tried (n : nat) es : Prop :=
  Forall (fun e => is_ied e = false) es /\ (length (List.filter is_enable es) <= n)%nat.

Lemma tried_app n n' es es' : tried n es -> tried n' es' -> tried (n + n') (es ++ es').
Proof using Type. intros [H1 H2] [H3 H4]. split; [by apply Forall_app|]. rewrite List.filter_app, length_app. lia. Qed.

Lemma tried_le n n' es : tried n es -> (n <= n')%nat -> tried n' es.
Proof using Type. intros [H1 H2] H. split; [done|lia]. Qed.

(** Looking at the connection sends nothing. *)
Definition nothing {A} (m : op hardware A) : Prop := forall h a h', m h = Some (a, h') -> sent h' = sent h /\ drmFD (cxt h') = drmFD (cxt h).

Lemma nothing_bind {A B} (m : op hardware A) (k : A -> op hardware B) : nothing m -> (forall a, nothing (k a)) -> nothing (cbind m k).
Proof using Type.
  intros Hm Hk h b h2 H. unfold cbind in H. destruct (m h) as [[a h1]|] eqn:E; [|done].
  destruct (Hm _ _ _ E), (Hk _ _ _ _ H). split; congruence.
Qed.

Lemma nothing_ret {A} (a : A) : nothing (cret a).
Proof using Type. by intros h b h' [= _ <-]. Qed.

Lemma nothing_get {A} (f : hardware -> A) : nothing (get f).
Proof using Type. by intros h b h' [= _ <-]. Qed.

Lemma nothing_cxt (f : CtpDrm.drmContext -> CtpDrm.drmContext) : (forall g, drmFD (f g) = drmFD g) -> nothing (update_cxt f).
Proof using Type. intros Hf h b h' [= _ <-]. split; [done|apply Hf]. Qed.

Lemma connection_sends_nothing : nothing (drm_hdmi_getConnectionStatus hdr o).
Proof using Type.
  unfold drm_hdmi_getConnectionStatus, drm_hdmi_isSupported, CtpDrm.getHdmiConnector, CtpDrm.getConnector, ask, CtpDrm.drm_select_preferredmode.
  repeat first [apply nothing_ret|apply nothing_get|apply nothing_cxt; intros ?; unfold note_sink; by repeat case_match
    |apply nothing_bind; [|intros ?]|case_match|by intros ? ? ? [=]].
Qed.

Definition push (d : command) h : hardware := mkHw (cxt h) (g_hdcpStatusCheckTimer h) (sent h ++ [Drm d]).

Lemma with_fd_answer (d : command) h : 0 < drmFD (cxt h) -> with_fd o d h = Some (result_of o (sent h ++ [Drm d]) =? 0, push d h).
Proof using Type.
  intros Hf. unfold with_fd, cbind, get. by rewrite (proj2 (Z.leb_gt (drmFD (cxt h)) 0)).
Qed.

(** The last thing that was done is a check that the link is authenticated, or nothing is connected. *)
Definition verified es : Prop :=
  (exists es0, es = es0 ++ [Drm GetLinkStatus] /\ result_of o es = 0 /\ truthy (link_match o es) = true) \/
  (exists h1 h2, sent h1 = es /\ drm_hdmi_getConnectionStatus hdr o h1 = Some (0, h2)).

Lemma check_link_answer h : 0 < drmFD (cxt h) ->
  exists b, check_link o HDCP_CHECK_NUM_OF_TRY h = Some (b, push GetLinkStatus h) /\ (b = true -> verified (sent (push GetLinkStatus h))).
Proof using Type.
  intros Hf. unfold HDCP_CHECK_NUM_OF_TRY. cbn [check_link]. unfold drm_hdcp_isAuthenticated, cbind. rewrite with_fd_answer by done.
  destruct (Z.eqb_spec (result_of o (sent h ++ [Drm GetLinkStatus])) 0) as [E|]; cbn [negb]; unfold ask, cret, get; [|by exists false].
  cbn [sent push]. destruct (truthy _) eqn:Et; [|by exists false]. exists true. split; [done|]. intros _. left. by eexists.
Qed.

Lemma tries_end n h r h' : 0 < drmFD (cxt h) -> enable_tries hdr o n h = Some (r, h') ->
  exists es, sent h' = sent h ++ es /\ tried n es /\ drmFD (cxt h') = drmFD (cxt h) /\ (r = true -> verified (sent h')).
Proof using Type.
  revert h. induction n as [|n IH]; intros h Hf H; cbn [enable_tries] in H.
  { injection H as <- <-. exists []. rewrite app_nil_r. by split_and!; [|split; [constructor|cbn; lia]| |]. }
  unfold cbind at 1 in H. unfold drm_hdcp_enable in H. rewrite with_fd_answer in H by done.
  assert (Hpush : forall es h1, sent h1 = sent h ++ es -> drmFD (cxt h1) = drmFD (cxt h) -> tried 1 es -> enable_tries hdr o n h1 = Some (r, h') ->
    exists es, sent h' = sent h ++ es /\ tried (S n) es /\ drmFD (cxt h') = drmFD (cxt h) /\ (r = true -> verified (sent h'))).
  { intros es h1 Hs Hf1 Ht H1. destruct (IH h1 ltac:(lia) H1) as (es' & Hs' & Ht' & Hf' & Hr). exists (es ++ es').
    rewrite Hs', Hs, app_assoc. split_and!; [done|by apply (tried_app 1 n)|lia|]. by rewrite <-Hs, <-Hs'. }
  assert (H1 : tried 1 [Drm EnableHdcp]) by (split; [by repeat constructor|cbn; lia]).
  destruct (negb _).
  - unfold cbind at 1 in H. destruct (drm_hdmi_getConnectionStatus hdr o (push EnableHdcp h)) as [[status h1]|] eqn:E; [|done].
    destruct (connection_sends_nothing _ _ _ E) as [Hs Hf1]. destruct (Z.eqb_spec status 0) as [->|]; [|exact (Hpush [Drm EnableHdcp] h1 Hs Hf1 H1 H)].
    injection H as <- <-. exists [Drm EnableHdcp]. split_and!; [done|by eapply tried_le; [exact H1|lia]|done|].
    intros _. right. by exists (push EnableHdcp h), h1.
  - unfold cbind at 1 in H. destruct (check_link_answer (push EnableHdcp h)) as (b & Hb & Hv); [done|]. rewrite Hb in H.
    assert (H2 : tried 1 [Drm EnableHdcp; Drm GetLinkStatus]) by (split; [by repeat constructor|cbn; lia]).
    assert (Hs : sent (push GetLinkStatus (push EnableHdcp h)) = sent h ++ [Drm EnableHdcp; Drm GetLinkStatus]) by (cbn [push sent]; by rewrite <-app_assoc).
    destruct b; [|exact (Hpush _ _ Hs eq_refl H2 H)]. injection H as <- <-. eexists. split_and!; [exact Hs|by eapply tried_le; [exact H2|lia]|done|exact Hv].
Qed.

End Hdcp.

(** ** The timing of a video *)

Section Timing.
Context {interface : Type}.
#[local] Abbreviation hardware := (@hardware interface).
#[local] Abbreviation outside := (@outside interface).
Context (hdr : drm_header) (o : outside).
Implicit Types (m x : Z * drmModeModeInfo) (ms seen : list (Z * drmModeModeInfo)).

(** A mode whose rate is a multiple, and one with the very rate only when its flags are preferred. *)
Definition fits (rate : Z) m : bool :=
  negb (rate =? 0) && (vrefresh m.2 mod rate =? 0) && (negb (vrefresh m.2 =? rate) || preferred_flags hdr m.2).

Definition exact (rate : Z) m : bool := fits rate m && (vrefresh m.2 =? rate).

(** What was found in the modes that were looked at. *)
Record found (rate : Z) seen (best : option (Z * drmModeModeInfo)) : Prop := {
  fd_none : best = None -> forall x, x ∈ seen -> fits rate x = false;
  fd_some : forall b, best = Some b -> b ∈ seen /\ fits rate b = true /\ forall x, x ∈ seen -> fits rate x = true -> vrefresh x.2 <= vrefresh b.2;
  fd_exact : forall x, x ∈ seen -> exact rate x = false
}.

Definition highest seen m : Prop := forall x, x ∈ seen -> vrefresh x.2 <= vrefresh m.2.

Lemma elem_snoc x m seen : x ∈ seen ++ [m] <-> x ∈ seen \/ x = m.
Proof using Type. by rewrite elem_of_app, list_elem_of_singleton. Qed.

Lemma found_skip rate seen best m : found rate seen best -> fits rate m = false -> found rate (seen ++ [m]) best.
Proof using Type.
  intros [H1 H2 H3] Hm. split.
  - intros E x Hx. apply elem_of_app in Hx as [Hx|Hx]; [by apply H1|]. by apply list_elem_of_singleton in Hx as ->.
  - intros b E. destruct (H2 b E) as (Hb & Hf & Hmax). split_and!; [apply elem_snoc; tauto|done|].
    intros x Hx Hfx. apply elem_snoc in Hx as [Hx| ->]; [by apply Hmax|]. congruence.
  - intros x Hx. apply elem_snoc in Hx as [Hx| ->]; [by apply H3|]. unfold exact. by rewrite Hm.
Qed.

Lemma found_multiple rate seen best m : found rate seen best -> fits rate m = true -> vrefresh m.2 <> rate ->
  found rate (seen ++ [m]) (if match best with None => true | Some b => vrefresh b.2 <? vrefresh m.2 end then Some m else best).
Proof using Type.
  intros [H1 H2 H3] Hm Hne. split.
  - destruct best as [b|]; [|done]. by case_match.
  - intros b' E. destruct best as [b|].
    + destruct (H2 b eq_refl) as (Hb & Hf & Hmax). destruct (Z.ltb_spec (vrefresh b.2) (vrefresh m.2)) as [Hlt|Hle]; injection E as <-.
      * split_and!; [apply elem_snoc; tauto|done|]. intros x Hx Hfx. apply elem_snoc in Hx as [Hx| ->]; [specialize (Hmax x Hx Hfx); lia|]. lia.
      * split_and!; [apply elem_snoc; tauto|done|]. intros x Hx Hfx. apply elem_snoc in Hx as [Hx| ->]; [by apply Hmax|]. lia.
    + injection E as <-. split_and!; [apply elem_snoc; tauto|done|]. intros x Hx Hfx. apply elem_snoc in Hx as [Hx| ->]; [|lia].
      rewrite (H1 eq_refl x Hx) in Hfx. done.
  - intros x Hx. apply elem_snoc in Hx as [Hx| ->]; [by apply H3|].
    unfold exact. rewrite (proj2 (Z.eqb_neq (vrefresh m.2) rate) Hne). apply andb_false_r.
Qed.

(** What the search answers: when no mode fits, the highest rate; and otherwise a mode that fits, with
    the very rate when there is one and with the highest rate of those that fit when not. *)
Definition chosen (rate : Z) ms m : Prop :=
  m ∈ ms /\
  if existsb (fits rate) ms
  then fits rate m = true /\ (if existsb (exact rate) ms then vrefresh m.2 = rate else forall x, x ∈ ms -> fits rate x = true -> vrefresh x.2 <= vrefresh m.2)
  else highest ms m.

Lemma existsb_false_iff {A} (f : A -> bool) (l : list A) : existsb f l = false <-> forall y : A, y ∈ l -> f y = false.
Proof using Type.
  split.
  - intros H x Hx. destruct (f x) eqn:E; [|done]. rewrite <-H. symmetry. apply existsb_exists. exists x. by rewrite <-list_elem_of_In.
  - intros H. destruct (existsb f l) eqn:E; [|done]. apply existsb_exists in E as (x & Hx & Hf). rewrite H in Hf; [done|by apply list_elem_of_In].
Qed.

Lemma existsb_true_of {A} (f : A -> bool) (l : list A) (y : A) : y ∈ l -> f y = true -> existsb f l = true.
Proof using Type. intros Hx Hf. apply existsb_exists. exists y. by rewrite <-list_elem_of_In. Qed.

Lemma select_mode_chosen rate ms seen max best : found rate seen best -> highest seen max -> max ∈ seen ++ ms ->
  let '(max', best') := select_mode hdr rate ms max best in
  chosen rate (seen ++ ms) (match best' with Some b => b | None => max' end).
Proof using Type.
  revert seen max best. induction ms as [|[i m] ms IH]; intros seen max best Hf Hmax Hin; cbn [select_mode].
  { rewrite app_nil_r in *. unfold chosen. rewrite (proj2 (existsb_false_iff (exact rate) seen)) by apply Hf.
    destruct best as [b|].
    - destruct (fd_some _ _ _ Hf b eq_refl) as (Hb & Hfb & Hm). by rewrite (existsb_true_of (fits rate) seen b).
    - by rewrite (proj2 (existsb_false_iff (fits rate) seen)) by exact (fd_none _ _ _ Hf eq_refl). }
  set (max1 := if _ <? _ then _ else _).
  assert (Hmax1 : highest (seen ++ [(i, m)]) max1 /\ max1 ∈ seen ++ (i, m) :: ms).
  { subst max1. destruct (Z.ltb_spec (vrefresh max.2) (vrefresh m)); [|destruct (Z.eqb_spec (vrefresh m) (vrefresh max.2)); destruct (preferred_flags hdr m); cbn [andb]].
    all: split; [|first [exact Hin|apply elem_of_app; right; apply elem_of_cons; by left]].
    all: intros x Hx; apply elem_snoc in Hx as [Hx| ->]; [specialize (Hmax x Hx)|]; cbn [snd] in *; lia. }
  destruct Hmax1 as [Hmax1 Hin1]. clearbody max1.
  assert (Hnext : forall best, found rate (seen ++ [(i, m)]) best ->
    let '(max', best') := select_mode hdr rate ms max1 best in
    chosen rate (seen ++ (i, m) :: ms) (match best' with Some b => b | None => max' end)).
  { intros best1 Hf1. specialize (IH (seen ++ [(i, m)]) max1 best1 Hf1 Hmax1). rewrite <-app_assoc in IH. by apply IH. }
  assert (Hskip : fits rate (i, m) = false -> found rate (seen ++ [(i, m)]) best) by (by apply found_skip).
  unfold fits in Hskip. cbn [snd] in Hskip.
  destruct (Z.eqb_spec rate 0) as [|H0]; [by apply Hnext, Hskip|]. destruct (Z.eqb_spec (vrefresh m mod rate) 0) as [Hmod|]; [|by apply Hnext, Hskip].
  cbn [negb andb] in *. destruct (Z.eqb_spec (vrefresh m) rate) as [He|Hne].
  - destruct (preferred_flags hdr m) eqn:Ep; [|by apply Hnext, Hskip].
    assert (Hfit : fits rate (i, m) = true).
    { unfold fits. cbn [snd]. by rewrite Ep, (proj2 (Z.eqb_neq rate 0)), Hmod, Z.eqb_refl, orb_true_r. }
    assert (Hx : (i, m) ∈ seen ++ (i, m) :: ms) by (apply elem_of_app; right; apply elem_of_cons; by left).
    split; [done|]. rewrite (existsb_true_of (fits rate) _ (i, m)), (existsb_true_of (exact rate) _ (i, m)) by (unfold exact; rewrite ?Hfit; cbn [snd]; rewrite ?He, ?Z.eqb_refl; done).
    by split.
  - assert (Hfit : fits rate (i, m) = true).
    { unfold fits. cbn [snd]. by rewrite (proj2 (Z.eqb_neq rate 0)), Hmod, (proj2 (Z.eqb_neq (vrefresh m) rate)). }
    specialize (Hnext _ (found_multiple rate seen best (i, m) Hf Hfit Hne)). cbn [snd] in Hnext.
    destruct (match best with None => true | Some b => vrefresh b.2 <? vrefresh m end); exact Hnext.
Qed.

Lemma matched_modes_in size (l : list drmModeModeInfo) i (m : drmModeModeInfo) : (i, m) ∈ matched_modes size l ->
  0 <= i < Z.of_nat (length l) /\ l !! Z.to_nat i = Some m /\ (hdisplay m, vdisplay m) = size.
Proof using Type.
  unfold matched_modes. intros H. apply elem_of_take in H as (j & H & _). apply list_elem_of_lookup_2, list_elem_of_In, filter_In in H as [H E].
  apply list_elem_of_In, list_elem_of_lookup_1 in H as (n & H). apply lookup_zip_with_Some in H as (i' & m' & [= <- <-] & Hi & Hm).
  apply lookup_seqZ in Hi as [-> Hi]. split_and!; [lia|lia|by replace (Z.to_nat (0 + Z.of_nat n)) with n by lia|].
  destruct size as [w v]. cbn in E. apply andb_true_iff in E as [Ew%Z.eqb_eq Ev%Z.eqb_eq]. by subst.
Qed.

(** C29: The timing for a video, when the user has not selected one: that of a mode of the display with the
    size for the video, of the rate that suits it best; or, when no mode has the size, the timing of
    the preferred mode. *)
Theorem video_timing_is_of_display info (h h' : hardware) t :
  modeValid (cxt h) = false -> drm_hdmi_getTiming hdr o DRM_HDMI_VIDEO_EXT info h = Some (Some t, h') ->
  exists c, hdmiConnector (cxt h') = Some c /\
    match matched_modes (ext_size info) (modes c) with
    | [] => drm_hdmi_setTiming hdr c (preferredModeIndex (cxt h)) = Some t
    | ms => exists i (m : drmModeModeInfo), chosen (t_refresh info) ms (i, m) /\ modes c !! Z.to_nat i = Some m /\
        (t_width t, t_height t) = ext_size info /\ t_refresh t = vrefresh m
    end.
Proof using Type.
  intros Hv H. unfold drm_hdmi_getTiming in H. unfold cbind at 1, no_device, get in H. destruct (negb _ || negb _); [done|].
  unfold cbind at 1 in H. rewrite Hv in H. unfold cbind at 1 in H.
  destruct (CtpDrm.getHdmiConnector hdr o h) as [[[c|] h1]|] eqn:E; [|done|done].
  assert (Hc : hdmiConnector (cxt h1) = Some c).
  { clear H. unfold CtpDrm.getHdmiConnector, CtpDrm.getConnector, ask, cbind, get, cret, update_cxt, update in E.
    destruct (hdmiConnector (cxt h)); [|destruct (snd <$> _)]; cbn in E; repeat case_match; simplify_eq/=; done. }
  assert (Hset : forall index, (match drm_hdmi_setTiming hdr c index with Some t => cret (Some t) | None => fun _ => None end) h1 = Some (Some t, h') ->
    drm_hdmi_setTiming hdr c index = Some t /\ h' = h1) by (intros index Hs; destruct (drm_hdmi_setTiming hdr c index); [by injection Hs as -> ->|done]).
  cbn [negb Z.eqb Pos.eqb DRM_HDMI_VIDEO_EXT] in H. destruct (matched_modes (ext_size info) (modes c)) as [|first ms] eqn:Em.
  { apply Hset in H as [H ->]. exists c. by rewrite Em. }
  pose proof (select_mode_chosen (t_refresh info) (first :: ms) [] first None) as Hch.
  destruct (select_mode hdr (t_refresh info) (first :: ms) first None) as [max best].
  apply Hset in H as [H ->]. exists c. split; [done|]. rewrite Em. cbn [app] in Hch.
  set (r := match best with Some b => b | None => max end) in Hch.
  assert (Hr : match best with Some b => b.1 | None => max.1 end = r.1) by (by subst r; destruct best). rewrite Hr in H.
  assert (Hch' : chosen (t_refresh info) (first :: ms) r).
  { apply Hch; [split; [|done|]|intros x Hx|apply elem_of_cons; by left].
    - intros _ x Hx. by apply elem_of_nil in Hx.
    - intros x Hx. by apply elem_of_nil in Hx.
    - by apply elem_of_nil in Hx. }
  clear Hch Hset Hr. destruct r as [i m]. exists i, m. split; [done|].
  destruct Hch' as [Hin _]. rewrite <-Em in Hin. apply matched_modes_in in Hin as (Hi & Hl & Hs). split; [done|].
  unfold drm_hdmi_setTiming in H. cbn [fst] in H. rewrite (proj2 (Z.leb_gt (Z.of_nat (length (modes c))) i)), (proj2 (Z.ltb_ge i 0)), Hl in H by lia.
  injection H as <-. by rewrite <-Hs.
Qed.
End Timing.

(** ** A display that is plugged in *)

(** Everything works; the link is authenticated, and no property is set. *)
Definition works (d : display) : @outside nat :=
  mkOutside (fun _ => d) (fun _ => 0) (fun _ => 1) (fun _ => 1) (fun _ => [49]) (fun _ => 0) (fun _ => true) (fun _ => 0) zero_timing.

Definition MIPI_TYPE : Z := 15.

#[local] Abbreviation ctp_started :=
  (MultiDisplayComposer a_drm_header MIPI_TYPE true false (works plugged) 3 0 (mkHw CtpDrm.zero_context 0 [])).

#[local] Abbreviation asked d := (serve a_drm_header MIPI_TYPE true false (works d)).

Fixpoint ctp_after (d : display) (rs : list (@request nat)) (c : option (@composer nat)) : option composer :=
  match rs with [] => c | r :: rs => ctp_after d rs (c ← c; snd <$> asked d r c) end.

Definition a_video : MDSVideoSourceInfo := mkVideo true false 60 1280 720 false.

(** At the start a display shows what the panel shows, protected. *)
Lemma reachable_modes_are_states_witness :
  exists c, ctp_started = Some c /\ mMode c = encode (mkState true (Cloned true) false false) /\
    exists a, mMode c = encode a /\ playing a = false.
Proof.
  assert (H : (fun c => (mDrmInit c, mMode c, isPlaying (mVideo c))) <$> ctp_started =
    Some (true, encode (mkState true (Cloned true) false false), false)) by (vm_compute; reflexivity).
  destruct ctp_started as [c|] eqn:E; [|discriminate H]. injection H as Hi Hm Hv. exists c. split; [done|]. split; [done|].
  destruct (reachable_modes_are_states a_drm_header MIPI_TYPE true false (mkSystem c None)) as (a & H1 & H2 & _);
    [exact (reach_start _ _ _ _ (works plugged) 3 0 c E)|exact Hi|].
  exists a. split; [exact H1|]. by rewrite H2.
Defined.

Definition watched : option (@composer nat) :=
  ctp_after plugged [RegisterListener (Some 1%nat) 4096 (Some "player"%string) 1; RegisterListener (Some 2%nat) 8192 (Some "HWComposer"%string) 3] ctp_started.

(** A video that starts is shown on the display, and the listeners are told. *)
Lemma switching_follows_the_display_witness :
  exists c r c', watched = Some c /\
    setHdmiMode_l a_drm_header MIPI_TYPE true false (works plugged) (set_mVideo a_video c) = Some (r, c') /\
    mMode c' = encode (mkState true (Extended true) false true) /\ told c'.
Proof.
  assert (H : (fun c => (mMode (set_mVideo a_video c),
      (fun '(_, c') => mMode c') <$> setHdmiMode_l a_drm_header MIPI_TYPE true false (works plugged) (set_mVideo a_video c))) <$> watched =
    Some (encode (mkState true (Cloned true) false false), Some (encode (mkState true (Extended true) false true)))) by (vm_compute; reflexivity).
  destruct watched as [c|] eqn:E; [|discriminate H]. injection H as Hm H.
  destruct (setHdmiMode_l a_drm_header MIPI_TYPE true false (works plugged) (set_mVideo a_video c)) as [[r c']|] eqn:E'; [|discriminate H].
  injection H as Hm'. exists c, r, c'. split; [done|]. split; [done|].
  split; [exact Hm'|].
  destruct (switching_follows_the_display a_drm_header MIPI_TYPE true false (works plugged) (mkState true (Cloned true) false false)
    (set_mVideo a_video c) r c' Hm E') as (status & h & hdcp & _ & _ & _ & Ht).
  exact Ht.
Defined.

Definition open_driver : @hardware nat := mkHw (set_supported true (set_drmFD 3 CtpDrm.zero_context)) 0 [].


(** The connector that was looked at last. *)
Definition looked_at : @hardware nat :=
  mkHw (CtpDrm.set_connector (Some (mkConnector 3 1 some_modes [(5, 9)])) (CtpDrm.set_connected true (cxt open_driver))) 0 [].

Lemma video_timing_is_of_display_witness :
  exists t, fst <$> drm_hdmi_getTiming a_drm_header (works plugged) DRM_HDMI_VIDEO_EXT (mkHdmi 30 1280 700 0 0) looked_at = Some (Some t) /\
    t_width t = 1280 /\ t_refresh t = 60.
Proof.
  assert (H : (fun '(t, h) => (t, hdmiConnector (cxt h))) <$>
      drm_hdmi_getTiming a_drm_header (works plugged) DRM_HDMI_VIDEO_EXT (mkHdmi 30 1280 700 0 0) looked_at =
    Some (Some (mkHdmi 60 1280 720 0 2), Some (mkConnector 3 1 some_modes [(5, 9)]))) by (vm_compute; reflexivity).
  destruct (drm_hdmi_getTiming a_drm_header (works plugged) DRM_HDMI_VIDEO_EXT (mkHdmi 30 1280 700 0 0) looked_at) as [[t h']|] eqn:E; [|discriminate H].
  injection H as -> H. exists (mkHdmi 60 1280 720 0 2). split; [done|].
  destruct (video_timing_is_of_display a_drm_header (works plugged) (mkHdmi 30 1280 700 0 0) looked_at h' _ eq_refl E) as (c & Hc & Ht).
  rewrite H in Hc. injection Hc as <-. split; [reflexivity|reflexivity].
Defined.

(** A panel that may not be switched off stays on and is taken for off, so it is not switched off
    later either, when it may be. *)
Example panel_taken_for_off :
  (c ← ctp_after plugged [UpdateVideoInfo a_video; SetModePolicy MDS_MIPI_OFF_NOT_ALLOWED] ctp_started;
   '(r, c1) ← setMipiMode_l MIPI_TYPE (works plugged) false c;
   Some (r, mMipiOn c1, checkMode (mMode c1) MDS_MIPI_ON)) = Some (MDS_NO_ERROR, false, true).
Proof. vm_compute. reflexivity. Qed.

(** A wait that ends without a request is a request to switch the panel off. *)
Example empty_request : (c ← ctp_started; '(on, _) ← take_mipi_request c; Some (mMipiReq c, on)) = Some (NO_MIPI_REQ, false).
Proof. vm_compute. reflexivity. Qed.

(** The audio driver is told of a display that is there at the start. *)
Example audio_at_start : (c ← ctp_started; last (sent (hw c))) = Some (Drm (AudioHotplug true)).
Proof. vm_compute. reflexivity. Qed.

(** The wireless display changes the mode and nobody is told. *)
Example silent_widi :
  (c ← watched; c' ← ctp_after plugged [NotifyWidi true] (Some c); Some (mMode c' - mMode c, length (sent (hw c')), length (sent (hw c)))) =
  Some (MDS_WIDI_ON, 9%nat, 9%nat).
Proof. vm_compute. reflexivity. Qed.

(** The only mode with the rate of a video is passed over without the preferred flags. *)
Example exact_rate_passed_over :
  let ms := [(0, mkMode 1920 1080 24 0 0 0); (1, mkMode 1920 1080 60 0 0 0)] in
  fst (select_mode a_drm_header 24 ms (0, mkMode 1920 1080 24 0 0 0) None) = (1, mkMode 1920 1080 60 0 0 0) /\
  snd (select_mode a_drm_header 24 ms (0, mkMode 1920 1080 24 0 0 0) None) = None.
Proof. vm_compute. by split. Qed.

(** While the overlay is off for a change it stays off when the display shows the panel. *)
Example overlay_stays_off : (c ← ctp_started; Some (checkMode (mMode c) MDS_OVERLAY_OFF)) = Some true.
Proof. vm_compute. reflexivity. Qed.
