(* ===== verification/Healthd.v ===== *)
(** * The board of the charger (healthd/healthd_board_intel.cpp)

    The daemon looks for the battery, changes what is known of it, and has a helper store the state
    of the fuel gauge: when the battery reaches certain states, and from a thread of its own when the
    system is about to shut down.  A semaphore keeps the helper from running twice at once.  Files are
    those of [Posix.v]; the names in the directory of power supplies, the properties, the events of
    inotify and the moments at which the helper ends are parameters or steps.  Log messages, and the
    descriptors of the thread, which it keeps for ever, are left out. *)

From stdpp Require Import base list numbers gmap strings tactics relations.
From Stdlib Require Import ZArith Lia.
From S2P Require Import Prelude GuidStr Posix CLib Util UtilSpec.

#[local] Open Scope string_scope.

Definition POWER_SUPPLY_SYSFS_PATH : string := "/sys/class/power_supply".
Definition FG_HELPER_PATH : string := "/system/bin/fg_conf".
Definition CMDLINE_PATH : string := "/proc/cmdline".

Definition supply_path (name file : string) : string := POWER_SUPPLY_SYSFS_PATH ++ "/" ++ name ++ "/" ++ file.

#[local] Close Scope string_scope.

Definition PERIODIC_CHORES_INTERVAL_FAST : Z := 60.
Definition MAX_COMMAND_LINE_BUF : Z := 1024.
Definition BUF_LEN : Z := 1024.
Definition INOTIFY_SIZE : Z := 16.
Definition IN_MODIFY : Z := 2.

(** ** Files *)

(** [access(path, R_OK)] *)
Definition sys_access (path : string) : M Z :=
  let! f := next_fault in
  match f with
  | Ferr e => sys_fail e
  | _ => fun w =>
    match w_files w !! path with
    | None => sys_fail ENOENT w
    | Some (mkFile Symlink _) => sys_fail ELOOP w
    | Some _ => (Ret 0, w)
    end
  end.

(** [memrchr(l, c, length l)], as an index *)
Fixpoint memrchr (l : bytes) (c : Z) : option nat :=
  match l with
  | [] => None
  | x :: l => match memrchr l c with Some i => Some (S i) | None => if x =? c then Some 0%nat else None end
  end.

(** The number of bytes read, and the buffer, which ends at the last newline read. *)
Definition readFromFile (path : string) (buf : bytes) : M (Z * bytes) :=
  if bool_decide (path = ""%string) then ret (-1, buf) else
  let! fd := sys_open path O_RDONLY in
  if fd =? -1 then ret (-1, buf) else
  let! n := rounds in
  let! (count, b) := retry fst n (sys_read fd (Z.of_nat (length buf))) in
  let cp := if 0 <? count then memrchr b 10 else None in
  let buf := splice 0 b buf in
  let buf := splice (match cp with Some i => i | None => 0%nat end) [0] buf in
  sys_close fd ;;
  ret (count, buf).

Definition isBattery (path : string) : M bool :=
  let! (length, buf) := readFromFile path (replicate 128 0) in
  ret (if length <=? 0 then false else bool_decide (c_string buf = str "Battery")).

(** The first of the files that can be read; the path stays empty otherwise. *)
Fixpoint first_readable (paths : list string) : M string :=
  match paths with
  | [] => ret ""%string
  | path :: paths => let! r := sys_access path in if r =? 0 then ret path else first_readable paths
  end.

(** The loop over the directory ends with the first battery, if the path is not set before. *)
Fixpoint search_battery (names : list string) (path : string) : M string :=
  match names with
  | [] => ret path
  | name :: names =>
      if bool_decide (name = "."%string) || bool_decide (name = ".."%string) then search_battery names path else
      let! battery := isBattery (supply_path name "type") in
      if battery && bool_decide (path = ""%string)
      then first_readable [supply_path name "voltage_ocv"; supply_path name "voltage_now"; supply_path name "batt_vol"]
      else search_battery names path
  end.

(** [names] is [None] when the directory cannot be opened. *)
Definition init_battery_path (names : option (list string)) (path : string) : M string :=
  match names with None => ret path | Some names => search_battery names path end.

Definition mode_key : bytes := str "androidboot.mode=".

(** The buffer is on the stack, of 1024 bytes, and only its last byte is sure to end the string. *)
Definition is_mos (stack : bytes) : M bool :=
  let! fd := sys_open CMDLINE_PATH O_RDONLY in
  if fd <? 0 then ret false else
  let! (size, b) := sys_read fd MAX_COMMAND_LINE_BUF in
  let cmdline_buf := splice 1023 [0] (splice 0 b stack) in
  let mos :=
    if size <=? 0 then false else
    match strstr (c_string cmdline_buf) mode_key with
    | None => false
    | Some ptr => bool_decide (take 4 (drop (length mode_key) ptr) = str "main")
    end in
  sys_close fd ;;
  ret mos.

(** ** Events of inotify *)

(** Which of the events that were read have a name and are for a file that was modified; [None] when
    the buffer is left, or when the lengths lead back for ever. *)
Fixpoint events_at (fuel : nat) (buffer : bytes) (i length : Z) : option (list bool) :=
  match fuel with
  | O => None
  | S fuel =>
      if length <=? i then Some [] else
      if (i <? 0) || (BUF_LEN <? i + INOTIFY_SIZE) then None else
      let mask := getn 4 (Z.to_nat (i + 4)) buffer in
      let len := getn 4 (Z.to_nat (i + 12)) buffer in
      rest ← events_at fuel buffer (s32 (u32 (i + (INOTIFY_SIZE + len)))) length;
      Some ((negb (len =? 0) && negb (Z.land mask IN_MODIFY =? 0)) :: rest)
  end.

(** Every event is at least 16 bytes long. *)
Definition inotify_events (buffer : bytes) (length : Z) : option (list bool) := events_at 65 buffer 0 length.

(** ** The board *)

Record BatteryProperties := mkProps {
  chargerAcOnline : bool; chargerUsbOnline : bool; chargerWirelessOnline : bool; batteryStatus : Z; batteryLevel : Z
}.

(** The configuration of the daemon and the variables of the file. *)
Record board := mkBoard {
  periodic_chores_interval_fast : Z; periodic_chores_interval_slow : Z; batteryVoltagePath : string;
  savedStatus : Z; savedLevel : Z; isHelperPresent : bool; mos : bool;
  fg_sem : Z; sem_valid : bool; kill_thread : bool
}.

Definition set_fast (v : Z) (b : board) : board :=
  mkBoard v (periodic_chores_interval_slow b) (batteryVoltagePath b) (savedStatus b) (savedLevel b) (isHelperPresent b) (mos b)
    (fg_sem b) (sem_valid b) (kill_thread b).
Definition set_saved (status level : Z) (b : board) : board :=
  mkBoard (periodic_chores_interval_fast b) (periodic_chores_interval_slow b) (batteryVoltagePath b) status level (isHelperPresent b) (mos b)
    (fg_sem b) (sem_valid b) (kill_thread b).
Definition set_sem (v : Z) (b : board) : board :=
  mkBoard (periodic_chores_interval_fast b) (periodic_chores_interval_slow b) (batteryVoltagePath b) (savedStatus b) (savedLevel b)
    (isHelperPresent b) (mos b) v (sem_valid b) (kill_thread b).
Definition set_kill (b : board) : board :=
  mkBoard (periodic_chores_interval_fast b) (periodic_chores_interval_slow b) (batteryVoltagePath b) (savedStatus b) (savedLevel b)
    (isHelperPresent b) (mos b) (fg_sem b) (sem_valid b) true.

(** What the configuration holds before is the path of the voltage; the static variables are zero. *)
Definition healthd_board_init (stack : bytes) (names : option (list string)) (path : string) (sem_init_ok : bool) : M board :=
  let! mos := is_mos stack in
  let! path := init_battery_path names path in
  let! fd := sys_open FG_HELPER_PATH O_RDONLY in
  let isHelperPresent := negb (fd <? 0) in
  (if isHelperPresent then sys_close fd ;; ret tt else ret tt) ;;
  ret (mkBoard (-1) (-1) path 0 0 isHelperPresent mos (if sem_init_ok then 1 else 0) sem_init_ok false).

Section Board.
(** Constants of the header of the battery service. *)
Context (BATTERY_STATUS_FULL BATTERY_STATUS_DISCHARGING BATTERY_STATUS_NOT_CHARGING : Z).

(** A flat battery that is being charged is looked at every minute from then on. *)
Definition note_charger (props : BatteryProperties) (b : board) : board :=
  if (chargerAcOnline props || chargerUsbOnline props || chargerWirelessOnline props) && (batteryLevel props =? 0)
  then set_fast PERIODIC_CHORES_INTERVAL_FAST b else b.

Definition wants_helper (props : BatteryProperties) (b : board) : bool :=
  isHelperPresent b &&
  (negb (batteryLevel props =? savedLevel b) && ((batteryLevel props =? 70) || (batteryLevel props =? 5) || (batteryLevel props =? 0)) ||
   negb (batteryStatus props =? savedStatus b) &&
     ((batteryStatus props =? BATTERY_STATUS_FULL) || (batteryStatus props =? BATTERY_STATUS_DISCHARGING))).

(** In the main system no charger is shown when the battery is not charged. *)
Definition shown (b : board) (props : BatteryProperties) : BatteryProperties :=
  if mos b && (BATTERY_STATUS_NOT_CHARGING =? batteryStatus props)
  then mkProps false false false (batteryStatus props) (batteryLevel props) else props.

(** ** The threads *)

(** Where a thread is that has the helper run: before [sem_wait], in [system], before [sem_post]. *)
Inductive place := Enter | Inside | Leave.

#[global] Instance place_eq_dec : EqDecision place.
Proof. solve_decision. Defined.

(** One step of such a thread; it is through when no place is left.  A thread waits while the
    semaphore is 0, and the helper ends when it likes. *)
Inductive helper_step (b : board) : place -> board -> option place -> Prop :=
| sem_wait_step : sem_valid b = true -> 0 < fg_sem b -> helper_step b Enter (set_sem (fg_sem b - 1) b) (Some Inside)
| no_wait_step : sem_valid b = false -> helper_step b Enter b (Some Inside)
| system_step : helper_step b Inside b (Some Leave)
| sem_post_step : helper_step b Leave (if sem_valid b then set_sem (fg_sem b + 1) b else b) None.

(** The main thread waits for the thread of [execfn], so it has at most one update under way.  The
    thread of inotify handles the events that it has read, one after the other. *)
Record system := mkSystem {
  the_board : board;
  update : option (BatteryProperties * place);
  events : list bool;
  shutdown : option place
}.

(** Calls from outside: [healthd_board_battery_update], when no other update is under way (it answers
    the properties [shown]), and events that are read when all others were handled. *)
Inductive daemon_call : system -> system -> Prop :=
| update_without_helper b es sd props : wants_helper props (note_charger props b) = false ->
    daemon_call (mkSystem b None es sd) (mkSystem (note_charger props b) None es sd)
| update_with_helper b es sd props : wants_helper props (note_charger props b) = true ->
    daemon_call (mkSystem b None es sd) (mkSystem (note_charger props b) (Some (props, Enter)) es sd)
| events_read b up buffer length es : inotify_events buffer length = Some es ->
    daemon_call (mkSystem b up [] None) (mkSystem b up es None).

(** What the threads do then.  The property that is read for an event says whether a shutdown is
    requested. *)
Inductive daemon_runs : system -> system -> Prop :=
| update_runs b es sd props p b' p' : helper_step b p b' (Some p') ->
    daemon_runs (mkSystem b (Some (props, p)) es sd) (mkSystem b' (Some (props, p')) es sd)
| update_ends b es sd props p b' : helper_step b p b' None ->
    daemon_runs (mkSystem b (Some (props, p)) es sd) (mkSystem (set_saved (batteryStatus props) (batteryLevel props) b') None es sd)
| event_passed b up e es (requested : bool) : e && requested = false ->
    daemon_runs (mkSystem b up (e :: es) None) (mkSystem b up es None)
| shutdown_begins b up es : daemon_runs (mkSystem b up (true :: es) None) (mkSystem b up (true :: es) (Some Enter))
| shutdown_runs b up es p b' p' : helper_step b p b' (Some p') ->
    daemon_runs (mkSystem b up es (Some p)) (mkSystem b' up es (Some p'))
| shutdown_ends b up e es p b' : helper_step b p b' None ->
    daemon_runs (mkSystem b up (e :: es) (Some p)) (mkSystem (set_kill b') up es None).

(** The daemon from its start, however that went. *)
Inductive reachable_system : system -> Prop :=
| board_starts stack names path sem_init_ok w b w' : healthd_board_init stack names path sem_init_ok w = (Ret b, w') ->
    reachable_system (mkSystem b None [] None)
| board_steps s s' : reachable_system s -> daemon_call s s' \/ daemon_runs s s' -> reachable_system s'.

(** ** The helper *)

(** Whether a thread has passed the semaphore. *)
Definition holds (p : option place) : Z := match p with Some Inside | Some Leave => 1 | _ => 0 end.

(** The semaphore and the threads that have passed it are one together. *)
Definition system_ok (s : system) : Prop :=
  (sem_valid (the_board s) = true -> 0 <= fg_sem (the_board s) /\ fg_sem (the_board s) + holds (snd <$> update s) + holds (shutdown s) = 1) /\
  (shutdown s = None \/ events s <> []).

Lemma note_charger_sem props b : sem_valid (note_charger props b) = sem_valid b /\ fg_sem (note_charger props b) = fg_sem b.
Proof using Type. unfold note_charger. by case_match. Qed.

Lemma helper_step_sem b p b' p' : helper_step b p b' p' ->
  sem_valid b' = sem_valid b /\ (sem_valid b = true -> fg_sem b' + holds p' = fg_sem b + holds (Some p) /\ (0 <= fg_sem b -> 0 <= fg_sem b')).
Proof using Type.
  intros [Hv Hs|Hv| |]; cbn.
  - split; [done|]. intros _. lia.
  - split; [done|]. intros Hv'. congruence.
  - split; [done|]. lia.
  - destruct (sem_valid b) eqn:Hv; cbn; (split; [done|]); [intros _; lia|done].
Qed.

Lemma daemon_call_ok s s' : daemon_call s s' -> system_ok s -> system_ok s'.
Proof using Type.
  unfold system_ok. intros Hc Hok.
  destruct Hc as [b es sd props H|b es sd props H|b up buffer length es H]; destruct Hok as [H1 H2];
    cbn [the_board update events shutdown snd fmap option_fmap option_map] in *.
  1, 2: destruct (note_charger_sem props b) as [-> ->]; split; [exact H1|exact H2].
  split; [exact H1|by left].
Qed.

Lemma daemon_runs_ok s s' : daemon_runs s s' -> system_ok s -> system_ok s'.
Proof using Type.
  unfold system_ok. intros Hr Hok. destruct Hr as [b es sd props p b' p' H|b es sd props p b' H|b up e es r H|b up es|b up es p b' p' H|b up e es p b' H]; destruct Hok as [H1 H2];
    cbn [the_board update events shutdown snd fmap option_fmap option_map sem_valid fg_sem set_saved set_kill] in *.
  1, 2, 5, 6: destruct (helper_step_sem _ _ _ _ H) as [Hv Hs]; rewrite Hv;
    (split; [intros Hval; specialize (Hs Hval); specialize (H1 Hval); cbn [holds] in *; lia|]).
  - exact H2.
  - exact H2.
  - right. by destruct H2.
  - by left.
  - split; [exact H1|by left].
  - split; [exact H1|by right].
Qed.

Lemma reachable_system_ok s : reachable_system s -> system_ok s.
Proof using Type.
  induction 1 as [stack names path ok w b w' H|s s' _ IH [H|H]]; [|by eapply daemon_call_ok|by eapply daemon_runs_ok].
  split; [cbn|by left]. unfold healthd_board_init, bind, ret in H.
  repeat case_match; simplify_eq/=; by try (intros _; lia).
Qed.

(** C33: When the semaphore could be made, the helper never runs for an update and for a shutdown at once. *)
Theorem helper_runs_alone s : reachable_system s -> sem_valid (the_board s) = true ->
  ~ ((snd <$> update s) = Some Inside /\ shutdown s = Some Inside).
Proof using Type.
  intros Hs Hv [Hu Hd]. destruct (reachable_system_ok s Hs) as [H _]. specialize (H Hv). rewrite Hu, Hd in H. cbn [holds] in H. lia.
Qed.

(** ** Every call ends *)

Definition steps_left (p : place) : nat := match p with Enter => 3 | Inside => 2 | Leave => 1 end.
Definition work (s : system) : nat :=
  (match update s with Some (_, p) => steps_left p | None => 0 end +
   match shutdown s with Some p => 4 * (length (events s) - 1) + steps_left p | None => 4 * length (events s) end)%nat.

Definition at_rest (s : system) : Prop := update s = None /\ events s = [] /\ shutdown s = None.

Lemma helper_step_left b p b' p' : helper_step b p b' p' ->
  (match p' with Some p' => steps_left p' | None => 0 end < steps_left p)%nat.
Proof using Type. intros []; cbn; lia. Qed.

Lemma daemon_runs_work s s' : daemon_runs s s' -> system_ok s -> (work s' < work s)%nat.
Proof using Type.
  intros Hr [_ Hev].
  destruct Hr as [b es sd props p b' p' H|b es sd props p b' H|b up e es r H|b up es|b up es p b' p' H|b up e es p b' H];
    unfold work; cbn [the_board update events shutdown length] in *; try apply helper_step_left in H; cbn [steps_left] in *; lia.
Qed.

(** A thread at any place can go on, but one before the semaphore while the other has passed it. *)
Lemma helper_can_step b p : sem_valid b = true -> 0 < fg_sem b \/ p <> Enter -> exists b' p', helper_step b p b' p'.
Proof using Type. intros Hv H. destruct p; [|do 2 eexists; constructor|do 2 eexists; constructor]. destruct H as [H|H]; [|done]. do 2 eexists. by apply sem_wait_step. Qed.

Lemma helper_can_step_free b p : sem_valid b = false -> exists b' p', helper_step b p b' p'.
Proof using Type. intros Hv. destruct p; do 2 eexists; [by apply no_wait_step|constructor|constructor]. Qed.

Lemma update_can_step b props p es sd b' p' : helper_step b p b' p' -> exists s', daemon_runs (mkSystem b (Some (props, p)) es sd) s'.
Proof using Type. intros H. destruct p'; eexists; [by eapply update_runs|by eapply update_ends]. Qed.

Lemma shutdown_can_step b up es p b' p' : es <> [] -> helper_step b p b' p' -> exists s', daemon_runs (mkSystem b up es (Some p)) s'.
Proof using Type. intros He H. destruct es; [done|]. destruct p'; eexists; [by eapply shutdown_runs|by eapply shutdown_ends]. Qed.

Lemma daemon_can_step s : system_ok s -> ~ at_rest s -> exists s', daemon_runs s s'.
Proof using Type.
  destruct s as [b up es sd]. intros [Hsem Hev] Hrest. cbn [the_board update events shutdown] in *. destruct (sem_valid b) eqn:Hv.
  - destruct (Hsem eq_refl) as [H0 H1]. destruct sd as [p|].
    + destruct Hev as [|Hev]; [done|]. destruct (decide (0 < fg_sem b \/ p <> Enter)) as [Hp|Hp].
      * destruct (helper_can_step b p Hv Hp) as (b' & p' & H). by eapply shutdown_can_step.
      * assert (p = Enter) as -> by (destruct p; [done|by destruct Hp; right|by destruct Hp; right]). destruct up as [[props q]|]; cbn in H1.
        -- destruct (helper_can_step b q Hv) as (b' & p' & H); [destruct q; [left; lia|by right|by right]|].
           by eapply update_can_step.
        -- destruct Hp. left. lia.
    + destruct up as [[props q]|].
      * destruct (helper_can_step b q Hv) as (b' & p' & H); [destruct q; [left; cbn in H1; lia|by right|by right]|]. by eapply update_can_step.
      * destruct es as [|e es]; [by destruct Hrest|]. eexists. apply (event_passed b None e es false). by rewrite andb_false_r.
  - destruct sd as [p|].
    + destruct Hev as [|Hev]; [done|]. destruct (helper_can_step_free b p Hv) as (b' & p' & H). by eapply shutdown_can_step.
    + destruct up as [[props q]|].
      * destruct (helper_can_step_free b q Hv) as (b' & p' & H). by eapply update_can_step.
      * destruct es as [|e es]; [by destruct Hrest|]. eexists. apply (event_passed b None e es false). by rewrite andb_false_r.
Qed.

(** C34: However the threads take turns, they come to rest after a bounded number of steps, and before
    that one of them can go on: every update ends and every event is handled, as often as the helper
    ends. *)
Theorem daemon_comes_to_rest s : reachable_system s ->
  (forall n s', nsteps daemon_runs n s s' -> (n <= 3 + 4 * length (events s))%nat) /\
  (forall s', rtc daemon_runs s s' -> (forall s'', ~ daemon_runs s' s'') -> at_rest s').
Proof using Type.
  intros Hs. pose proof (reachable_system_ok s Hs) as Hok. split.
  - intros n s' Hn. assert (Hw : (n + work s' <= work s)%nat).
    { clear Hs. induction Hn as [|n s s1 s' H _ IH]; [lia|]. pose proof (daemon_runs_work _ _ H Hok).
      specialize (IH (daemon_runs_ok _ _ H Hok)). lia. }
    assert (work s <= 3 + 4 * length (events s))%nat; [|lia].
    unfold work. destruct Hok as [_ Hev]. destruct (update s) as [[? []]|], (shutdown s) as [[]|]; cbn [steps_left]; destruct (events s); cbn [length]; destruct Hev; try done; lia.
  - intros s' Hsteps Hstuck. assert (Hok' : system_ok s').
    { clear Hstuck Hs. induction Hsteps as [|s s1 s' H _ IH]; [done|]. apply IH. by eapply daemon_runs_ok. }
    destruct (update s') eqn:Eu, (events s') eqn:Ee, (shutdown s') eqn:Ed; try done;
      (destruct (daemon_can_step s' Hok') as [s'' H]; [intros (? & ? & ?); congruence|by destruct (Hstuck s'')]).
Qed.
End Board.

(** ** The mode of the system *)

Lemma strstr_app l t s r : strstr l s = Some r -> strstr (l ++ t) s = Some (r ++ t).
Proof.
  induction l as [|c l IH]; cbn [strstr app].
  - case_bool_decide as H; [|done]. rewrite take_nil in H. subst s. intros [= <-]. destruct t; cbn; by rewrite bool_decide_true.
  - case_bool_decide as H.
    + intros [= <-]. rewrite bool_decide_true; [done|]. rewrite <-H at 2. change (c :: l ++ t) with ((c :: l) ++ t).
      rewrite take_app_le; [done|]. rewrite <-H, length_take. lia.
    + intros Hs. rewrite bool_decide_false; [by apply IH|]. intros H'. apply H.
      assert (length s <= length (c :: l))%nat.
      { clear -Hs. cbn. enough (length s <= length l)%nat by lia. revert Hs. induction l as [|c' l IH]; cbn [strstr].
        - case_bool_decide as H; [|done]. rewrite take_nil in H. by subst.
        - case_bool_decide as H; [intros _; rewrite <-H, length_take; lia|]. intros Hs. specialize (IH Hs). cbn. lia. }
      rewrite <-H' at 2. change (c :: l ++ t) with ((c :: l) ++ t). by rewrite take_app_le.
Qed.

Lemma c_string_prefix l t : Forall (fun c => c <> 0) l -> c_string (l ++ t) = l ++ c_string t.
Proof. induction 1 as [|c l H _ IH]; cbn; [done|]. rewrite (proj2 (Z.eqb_neq c 0) H). by rewrite IH. Qed.

(** When the command line fits and has four characters behind the key, they decide, whatever is on
    the stack. *)
Theorem is_mos_reads_mode stack files fds e k data v rest :
  length stack = 1024%nat -> files !! CMDLINE_PATH = Some (mkFile k data) -> k <> Symlink -> (length data < 1024)%nat ->
  Forall (fun c => c <> 0) data -> strstr data mode_key = Some (mode_key ++ v ++ rest) -> length v = 4%nat ->
  (is_mos stack (mkWorld files fds [] e)).1 = Ret (bool_decide (v = str "main")).
Proof.
  intros Hst Hf Hk Hd Hz Hs Hv. unfold is_mos, bind at 1. rewrite (sys_open_still _ _ _ O_RDONLY _ _ _ Hf Hk eq_refl).
  pose proof (fresh_fd_spec fds) as [_ Hn]. set (fd := fresh_fd fds) in *. rewrite (proj2 (Z.ltb_ge fd 0)) by lia.
  unfold bind at 1. rewrite (sys_read_still _ _ fd MAX_COMMAND_LINE_BUF CMDLINE_PATH 0 _ k data) by (done || apply lookup_insert_eq).
  assert (Hne : data <> []) by (intros ->; by vm_compute in Hs).
  rewrite Z.min_r, Z.sub_0_r, Z.max_r, Nat2Z.id by (unfold MAX_COMMAND_LINE_BUF; lia).
  rewrite (proj2 (Z.leb_gt _ 0)) by (destruct data; [done|cbn; lia]).
  assert (E : exists t, splice 1023 [0] (splice 0 (slice 0 (length data) data) stack) = data ++ t).
  { unfold slice. rewrite drop_0, firstn_all. exists (take (1023 - length data) (drop (length data) stack) ++ [0] ++ drop (1023 + length [0]) (data ++ drop (length data) stack)).
    change (splice 0 data stack) with (data ++ drop (length data) stack). unfold splice. rewrite take_app, (take_ge data) by lia. by rewrite <-app_assoc. }
  destruct E as [t ->]. rewrite (c_string_prefix _ _ Hz), (strstr_app _ _ _ _ Hs), <-!app_assoc, drop_app_length, take_app_length' by done.
  unfold bind. by rewrite (sys_close_still _ _ _ _ _ (lookup_insert_eq _ _ _)).
Qed.

(** ** The events that were read *)

(** An event with its name, as the kernel lays it out. *)
Record inotify_event := mkEvent { ev_wd : Z; ev_mask : Z; ev_cookie : Z; ev_name : bytes }.

Definition event_bytes (ev : inotify_event) : bytes :=
  le_enc 4 (ev_wd ev) ++ le_enc 4 (ev_mask ev) ++ le_enc 4 (ev_cookie ev) ++ le_enc 4 (Z.of_nat (length (ev_name ev))) ++ ev_name ev.

Definition modified_with_name (ev : inotify_event) : bool := negb (bool_decide (ev_name ev = [])) && Z.testbit (ev_mask ev) 1.

Lemma slice_app_middle (a b c : bytes) : slice (length a) (length b) (a ++ b ++ c) = b.
Proof. unfold slice. by rewrite drop_app_length, take_app_length. Qed.

Lemma event_fields ev (pre t : bytes) off : off = length pre -> 0 <= ev_mask ev < 2 ^ 32 -> (length (ev_name ev) < 1024)%nat ->
  getn 4 (off + 4) (pre ++ event_bytes ev ++ t) = ev_mask ev /\ getn 4 (off + 12) (pre ++ event_bytes ev ++ t) = Z.of_nat (length (ev_name ev)).
Proof.
  intros -> Hm Hn. unfold event_bytes, getn. rewrite <-!app_assoc. split.
  - pose proof (slice_app_middle (pre ++ le_enc 4 (ev_wd ev)) (le_enc 4 (ev_mask ev))
      (le_enc 4 (ev_cookie ev) ++ le_enc 4 (Z.of_nat (length (ev_name ev))) ++ ev_name ev ++ t)) as H.
    rewrite length_app, !length_le_enc, <-!app_assoc in H. rewrite H, le_dec_enc. by apply Z.mod_small.
  - pose proof (slice_app_middle (pre ++ le_enc 4 (ev_wd ev) ++ le_enc 4 (ev_mask ev) ++ le_enc 4 (ev_cookie ev))
      (le_enc 4 (Z.of_nat (length (ev_name ev)))) (ev_name ev ++ t)) as H.
    rewrite !length_app, !length_le_enc, <-!app_assoc in H. change (length pre + 12)%nat with (length pre + (4 + (4 + 4)))%nat. rewrite H, le_dec_enc. apply Z.mod_small. lia.
Qed.

Lemma land_bit_1 m : negb (Z.land m 2 =? 0) = Z.testbit m 1.
Proof.
  change 2 with (2 ^ 1). destruct (Z.testbit m 1) eqn:E.
  - apply negb_true_iff, Z.eqb_neq. intros H. assert (Hb : Z.testbit (Z.land m (2 ^ 1)) 1 = false) by (by rewrite H).
    by rewrite Z.land_spec, E in Hb.
  - apply negb_false_iff, Z.eqb_eq. apply Z.bits_inj'. intros n Hn. rewrite Z.land_spec, Z.pow2_bits_eqb, Z.bits_0 by lia.
    destruct (Z.eqb_spec 1 n) as [<-|]; [by rewrite E|by rewrite andb_false_r].
Qed.

Lemma events_at_spec evs t : Forall (fun ev => 0 <= ev_mask ev < 2 ^ 32) evs ->
  forall pre fuel, (length pre + length (concat (map event_bytes evs)) <= 1024)%nat -> (length evs < fuel)%nat ->
  events_at fuel (pre ++ concat (map event_bytes evs) ++ t) (Z.of_nat (length pre))
    (Z.of_nat (length pre + length (concat (map event_bytes evs)))) = Some (map modified_with_name evs).
Proof.
  induction 1 as [|ev evs Hm _ IH]; intros pre fuel Hl Hf; (destruct fuel as [|fuel]; [lia|]); cbn [events_at map concat] in *.
  - by rewrite (proj2 (Z.leb_le _ _)) by (cbn; lia).
  - set (rest := concat (map event_bytes evs)) in *.
    assert (Hev : length (event_bytes ev) = (16 + length (ev_name ev))%nat) by (unfold event_bytes; by rewrite !length_app, !length_le_enc).
    rewrite length_app in Hl |- *. rewrite (proj2 (Z.leb_gt _ _)) by lia.
    rewrite (proj2 (Z.ltb_ge _ 0)), (proj2 (Z.ltb_ge BUF_LEN _)) by (unfold BUF_LEN, INOTIFY_SIZE; lia). cbn [orb].
    rewrite <-app_assoc. destruct (event_fields ev pre (rest ++ t) (length pre) eq_refl Hm ltac:(lia)) as [E1 E2].
    replace (Z.to_nat (Z.of_nat (length pre) + 4)) with (length pre + 4)%nat by lia.
    replace (Z.to_nat (Z.of_nat (length pre) + 12)) with (length pre + 12)%nat by lia.
    rewrite E1, E2. specialize (IH (pre ++ event_bytes ev) fuel). rewrite length_app in IH.
    assert (Hi : s32 (u32 (Z.of_nat (length pre) + (INOTIFY_SIZE + Z.of_nat (length (ev_name ev))))) = Z.of_nat (length pre + length (event_bytes ev))).
    { unfold INOTIFY_SIZE, u32. rewrite Z.mod_small by lia. rewrite s32_small by lia. lia. }
    rewrite Hi. replace (length pre + (length (event_bytes ev) + length rest))%nat with (length pre + length (event_bytes ev) + length rest)%nat by lia.
    rewrite <-app_assoc in IH. rewrite IH by (cbn [length] in Hf; lia). cbn [mbind option_bind]. unfold modified_with_name at 2. do 2 f_equal.
    unfold IN_MODIFY. rewrite land_bit_1. f_equal. f_equal. destruct (ev_name ev); [done|]. by rewrite bool_decide_false.
Qed.

(** Every event that the kernel stored is found, in order: the ones with a name and the bit
    for a file that was modified are those that may mean a shutdown.  What is behind them is not
    looked at. *)
Theorem inotify_events_read_back evs t : Forall (fun ev => 0 <= ev_mask ev < 2 ^ 32) evs ->
  (length (concat (map event_bytes evs)) <= 1024)%nat ->
  inotify_events (concat (map event_bytes evs) ++ t) (Z.of_nat (length (concat (map event_bytes evs)))) = Some (map modified_with_name evs).
Proof.
  intros Hm Hl. apply (events_at_spec evs t Hm []); [done|].
  assert (16 * length evs <= length (concat (map event_bytes evs)))%nat; [|lia].
  clear. induction evs as [|ev evs IH]; [done|]. cbn [map concat length]. rewrite length_app. unfold event_bytes at 1.
  rewrite !length_app, !length_le_enc. lia.
Qed.

(** ** A device *)

#[local] Open Scope string_scope.
#[local] Definition a_device : gmap string file :=
  <[CMDLINE_PATH := mkFile Other (str "quiet androidboot.mode=main x" ++ [10])]> (<[FG_HELPER_PATH := mkFile Regular [35]]>
  (<[supply_path "usb" "type" := mkFile Other (str "USB" ++ [10])]> (<[supply_path "bat" "type" := mkFile Other (str "Battery" ++ [10])]>
  {[supply_path "bat" "voltage_now" := mkFile Other (str "3800" ++ [10])]}))).
#[local] Close Scope string_scope.

#[local] Definition a_board (sem_init_ok : bool) : board :=
  mkBoard (-1) (-1) (supply_path "bat" "voltage_now") 0 0 true true (if sem_init_ok then 1 else 0) sem_init_ok false.

Lemma a_board_starts sem_init_ok :
  (healthd_board_init (replicate 1024 0) (Some ["."; ".."; "usb"; "bat"]%string) ""%string sem_init_ok (mkWorld a_device ∅ [] 0)).1 = Ret (a_board sem_init_ok).
Proof. by destruct sem_init_ok; vm_compute. Qed.

Lemma a_system full discharging sem_init_ok : reachable_system full discharging (mkSystem (a_board sem_init_ok) None [] None).
Proof.
  pose proof (a_board_starts sem_init_ok) as H. destruct (healthd_board_init _ _ _ _ _) as [o w'] eqn:E. cbn [fst] in H. subst o.
  by eapply board_starts.
Qed.

(** The battery at 5 percent, while a shutdown is requested. *)
#[local] Definition low : BatteryProperties := mkProps false false false 3 5.
#[local] Definition a_change : bytes := event_bytes (mkEvent 1 2 0 [119; 0; 0; 0]).

Lemma update_and_shutdown sem_init_ok :
  reachable_system 5 3 (mkSystem (a_board sem_init_ok) (Some (low, Enter)) [true] (Some Enter)).
Proof.
  eapply board_steps; [|right; apply shutdown_begins].
  eapply board_steps; [|left; apply (events_read _ _ _ _ (a_change ++ replicate 1004 0) 20); vm_compute; reflexivity].
  eapply board_steps; [apply a_system|left]. apply (update_with_helper 5 3 (a_board sem_init_ok) [] None low). by destruct sem_init_ok.
Qed.

Lemma update_inside : reachable_system 5 3 (mkSystem (set_sem 0 (a_board true)) (Some (low, Inside)) [true] (Some Enter)).
Proof. eapply board_steps; [apply (update_and_shutdown true)|right]. apply update_runs, (sem_wait_step (a_board true)); [done|cbn; lia]. Qed.

Lemma helper_runs_alone_witness : ~ (Some Inside = Some Inside /\ Some Enter = Some Inside).
Proof. apply (helper_runs_alone 5 3 _ update_inside). reflexivity. Defined.

(** Both threads finish: the helper of the update ends, and then that of the shutdown. *)
Lemma all_done : rtc daemon_runs (mkSystem (set_sem 0 (a_board true)) (Some (low, Inside)) [true] (Some Enter))
  (mkSystem (set_kill (set_sem 1 (set_saved 3 5 (a_board true)))) None [] None).
Proof.
  eapply rtc_l; [apply update_runs, system_step|]. eapply rtc_l; [apply update_ends, sem_post_step|]. cbn.
  eapply rtc_l; [apply shutdown_runs, sem_wait_step; cbn; [done|lia]|]. eapply rtc_l; [apply shutdown_runs, system_step|].
  eapply rtc_l; [apply shutdown_ends, sem_post_step|]. apply rtc_refl.
Qed.

Lemma at_rest_stuck b s : ~ daemon_runs (mkSystem b None [] None) s.
Proof. intros H. inversion H. Qed.

Lemma daemon_comes_to_rest_witness : at_rest (mkSystem (set_kill (set_sem 1 (set_saved 3 5 (a_board true)))) None [] None).
Proof. exact (proj2 (daemon_comes_to_rest 5 3 _ update_inside) _ all_done (at_rest_stuck _)). Defined.

(** Without the semaphore the helper may run twice at once. *)
Example helper_runs_twice : exists s, reachable_system 5 3 s /\ (snd <$> update s) = Some Inside /\ shutdown s = Some Inside.
Proof.
  exists (mkSystem (a_board false) (Some (low, Inside)) [true] (Some Inside)). split; [|done].
  eapply board_steps; [|right; apply update_runs, no_wait_step; reflexivity].
  eapply board_steps; [apply (update_and_shutdown false)|right]. by apply shutdown_runs, no_wait_step.
Qed.

(** The thread goes on after it was told to end: it leaves a loop of one round only. *)
Example thread_goes_on b up : kill_thread b = true ->
  exists s, daemon_call 5 3 (mkSystem b up [] None) s /\ exists s', daemon_runs s s' /\ shutdown s' = Some Enter.
Proof.
  intros _. eexists. split; [apply (events_read _ _ _ _ (a_change ++ replicate 1004 0) 20); vm_compute; reflexivity|].
  eexists. split; [apply shutdown_begins|done].
Qed.

#[local] Definition main_line : bytes := str "quiet androidboot.mode=main x".

Lemma is_mos_reads_mode_witness :
  (is_mos (replicate 1024 7) (mkWorld (<[CMDLINE_PATH := mkFile Other main_line]> ∅) ∅ [] 0)).1 = Ret true.
Proof.
  apply (is_mos_reads_mode (replicate 1024 7) (<[CMDLINE_PATH := mkFile Other main_line]> ∅) ∅ 0 Other main_line (str "main") (str " x"));
    try reflexivity; [discriminate|vm_compute; lia|].
  apply Forall_forall. intros c Hc. apply list_elem_of_In in Hc. vm_compute in Hc. lia.
Defined.

(** A line that ends behind the key is continued by what is on the stack. *)
Example mode_from_stack :
  let line := str "androidboot.mode=" in
  let run stack := (is_mos stack (mkWorld (<[CMDLINE_PATH := mkFile Other line]> ∅) ∅ [] 0)).1 in
  run (replicate 1024 0) = Ret false /\ run (splice 17 (str "main") (replicate 1024 0)) = Ret true.
Proof. vm_compute. done. Qed.

Lemma inotify_events_read_back_witness :
  inotify_events (a_change ++ replicate 1004 0) 20 = Some [true].
Proof.
  pose proof (inotify_events_read_back [mkEvent 1 2 0 [119; 0; 0; 0]] (replicate 1004 0)) as H. cbn [map concat] in H. rewrite app_nil_r in H.
  apply H; [repeat constructor; cbn; lia|vm_compute; lia].
Defined.

(** Once a flat battery was charged, it is looked at every minute for ever. *)
Example polling_stays :
  let b := note_charger (mkProps true false false 2 0) (a_board true) in
  periodic_chores_interval_fast (note_charger (mkProps true false false 2 90) b) = PERIODIC_CHORES_INTERVAL_FAST.
Proof. reflexivity. Qed.
